(* ===== verification/_CoqProject ===== *)
-Q . S2P
Prelude.v
PyTime.v
Order.v
DynamicPool.v
Admission.v
AdmissionStore.v
Usage.v
Fairness.v
Selection.v
AdmissionRuntime.v
SelectionService.v
SparkRetry.v
Sha256.v
Json.v
JsonText.v
StrictJson.v
PyEq.v
ModelPolicy.v
HiveState.v
HiveConfig.v
AgentResolver.v
AccountAllocator.v
AllocatorProofs.v
WorkerResume.v
WorkerLedger.v
LedgerProofs.v
AdmissionFile.v
HiveTypes.v
Repositories.v
HiveMessages.v
Principals.v
Authority.v
HiveEvents.v
AdmissionJournal.v
HiveWork.v
HiveSaga.v
HiveAssignment.v
ProbeRecord.v
RuntimeStatus.v
HourlyProbe.v
BrokerTypes.v
BrokerRelease.v
BrokerCodec.v
BrokerRecovery.v
BrokerWal.v
BrokerLinux.v
BrokerPlan.v
BrokerExecution.v
ServerQueen.v
ServerGates.v
ServerAdmission.v
WorkQueue.v
ResetAnchor.v
