(* ===== verification/Prelude.v ===== *)
(** * The Hive: a verified model of its control plane

    The Hive coordinates coding agents on one host.  An MCP server
    ([src/src/the_hive/server.py]) assigns work packages to agents, and most of
    its code is about when it may not: an assignment needs a delegation grant,
    a resource selection, a persistent admission that is revalidated against
    live gates, and a fresh green probe; an allocator hands out accounts and a
    ledger records every worker that is spawned; a root broker provisions the
    agents' homes through a write-ahead log.  This library models those
    decisions and the state they keep, in the order in which the code composes
    them.

    ** Parts

    Foundations.  [Prelude]: exceptions, results, the state monad [ST],
    generic lemmas and tactics.  [PyTime], [Order], [Json], [JsonText],
    [StrictJson], [PyEq], [Sha256]: what the code uses of the language and its
    standard library (datetimes, orders, JSON in both directions, equality of
    decoded values, SHA-256), all executable.

    Selection.  [DynamicPool] (dynamic_pool.py), [Usage], [Fairness] and
    [Selection] (selection.py, selection/policy.py, selection/state.py),
    [ModelPolicy] (selection/model_policy.py), [ResetAnchor]
    (selection/reset_anchor.py): from usage documents to the account and model a
    work package may run on.  [preview_selection] is the entry.

    Admission.  [Admission] (the record and its graph), [AdmissionStore] (the
    store of a process), [AdmissionFile] (the store of several processes, over
    a file; it refines the former), all of admission.py;
    [AdmissionRuntime] (admission_runtime.py): revalidation against gates and
    execution; [AdmissionJournal] (admission_journal.py): evidence of completion;
    [SelectionService] (selection_service.py): planning, bounded retry,
    compensation and reconciliation over any runtime that implements its
    interface.

    Hive.  [HiveTypes], [HiveMessages], [HiveState], [HiveEvents],
    [Repositories], [Principals], [Authority], [HiveWork], [HiveSaga],
    [HiveAssignment], [WorkQueue] (the modules of hive/ of those names; HiveWork,
    HiveSaga and HiveAssignment divide hive/dispatch.py): principals and their
    bindings, single-use grants, work objects and their transitions, sagas,
    the event log.  [SparkRetry] (spark_retry.py): resume capsules.

    Spawning.  [HiveConfig] (hive/config.py) and [AgentResolver]
    (agent_resolver.py): from the class catalog and the model policy to the
    class, lifecycle, model and effort of a worker; [AccountAllocator]
    (runtime_account_allocator.py): leases of accounts over a provider;
    [WorkerResume] (worker_resume.py) and [WorkerLedger]
    (worker_spawn_ledger.py): the tickets of workers over a store with compare
    and swap, and the capsules that resume them.  [WorkerLedger] sees the
    allocator through the class [LeaseVerification]; [allocator_verification]
    is the instance that [AccountAllocator] gives.  [AllocatorProofs] and
    [LedgerProofs] hold their theorems.

    Probe.  [ProbeRecord], [HourlyProbe] (hive/hourly_probe.py) and
    [RuntimeStatus] (runtime_status.py): the record the hourly probe publishes
    and the gate that every new capacity passes.

    Server.  [ServerGates], [ServerAdmission], [ServerQueen] (server.py and
    hive/admission.py): the ten gates, the lease-bound executor, the private
    bridge and the queen saga, over the parts above.

    Home broker.  [BrokerTypes], [BrokerCodec] and [BrokerRecovery]
    (fleet_home_broker_protocol.py), [BrokerRelease]
    (fleet_control_release_v2.py, fleet_home_broker_identity.py), [BrokerWal]
    (fleet_home_broker_wal.py), [BrokerLinux] (fleet_home_broker_linux.py),
    [BrokerPlan] (fleet_home_broker.py), [BrokerExecution]
    (fleet_home_broker_execution.py): the messages of CHPB/2, the rules that
    choose the next action of a transaction, the hash-chained log, the
    attestation of a peer, and the loop that drives a transaction.

    ** Correspondence

    Definitions keep the names of the code; [C.m] of a class becomes [m], or
    [C_m] where two would clash, and [C_new] is a constructor with its
    [__post_init__].  A part of a method that has a definition of its own is
    named after what it does.  A dataclass is a record, an enumeration an
    inductive type, an exception a value of [exn] in a [result], a method that
    changes an object a state transition.  An injected callable is a field of a
    record of operations or a function over a world type, a parameter; what is
    relied on of it is a class of laws ([LawfulWal], [LawfulLinux] and so on),
    each with an instance in the witnesses.  What the operating system answers
    is an argument, also when it fails.  The methods of a store run under its
    lock, so one method is one step; theorems over histories interleave steps
    of several objects over one store.

    ** Theorems

    - Stores: two active admissions never hold one agent, overlap in scope or
      exceed a capacity; reservations lapse; the file store refines the store;
      its file round-trips and loading terminates.
    - Gates: revalidation fails closed and buys one execution; the server's
      runtime admits only what its authorities, repositories, leases and probe
      confirm; each step of a queen saga is preceded by a green probe read under
      the agent's lock and the probe's.
    - Selection: the preview is total, picks the least of the eligible
      candidates, and does not depend on their order; retries are accounted for.
    - Spawning: a decision of the resolver is on offer and keeps to its catalogs;
      an account is leased within its capacity and every reservation stays
      accounted for until its release is confirmed; every operation of the
      ledger is a legal step of a relation on its states, also next to other
      clients of the store, and what these steps reach is sound: no lease or
      capsule is used twice and no worker is resumed but by its team leader.
    - Hive: grants are consumed once and attenuate; the principal hierarchy is
      an invariant; sagas compensate in reverse; work completes only through
      admission; the event log and the completion journal on every branch.
    - Probe: the gate admits only green records; a record a run publishes is
      read back with the verdict of the run.
    - Broker: the codec is a bijection between messages and canonical bytes;
      an append that returns survives every crash, one that fails leaves at most
      a record cut short, which blocks the recovery; the last digest of a log
      determines it; the checkpoints of a transaction follow the table and end;
      a committed reply reports the status the log ends in; a provisioning of
      more than three entries never commits; a peer that is attested has been
      read between checks of one process, and no descriptor leaks.

    ** Modelling choices

    - Texts are strings of code points up to U+00FF, bytes are strings of bytes.
    - Integers are unbounded as in the language; widths appear where the code
      has them (64-bit sequence numbers, SHA-256 words).  An integer literal
      of more than 4300 digits raises, as in the interpreter.
    - A float is kept as its literal; [timedelta.total_seconds] is exact, and
      the milliseconds of the work queue are rounded to binary64 as the code
      rounds them.
    - Zones are fixed offsets; [fromisoformat] reads the extended format.
    - JSON texts nest as deep as the interpreter's recursion limit lets the
      parser go: [JsonText.json_loads_within] takes that depth, which the
      readers of the admission file, of the probe's commands and of the status
      report have as an argument; where it ends, they raise [RecursionError].
      The other readers use [json_loads], without a limit: the code catches that
      exception there, or their theorems are about texts they accept.  The
      scanner takes the length of the text as fuel; [AdmissionFile.load_records_total] shows that the fuel suffices.
      SHA-256 and the drive loop of the broker count their rounds as the code
      does (64 per block; 528 turns).  The digits of a float literal take fuel
      from the range of its exponent ([JsonText]).  No other definition has fuel.
    - The order in which a frozen set is visited is an argument.
    - What a crash may leave of the broker's log is a relation
      ([BrokerWal.leaves]): its flushed records, some of the others, the last
      one perhaps torn, and nothing if the entry of the log was not flushed.
      Bytes that a crash turns into others are not modelled.
    - Objects compared by identity (the leases and tickets of the allocator) are
      references with a content.
    - The locks of the server appear in the log of its effects when they are
      taken; releasing a lock does not fail and is not logged.  Details of an
      [AgentError] are dropped.

    ** Not modelled

    The rest of server.py (tool handlers, child processes, prompts), the
    lifecycle of runtime images, the fleet's directories and migrations, the
    Google and OpenAI clients, the administration and agent daemons, remote
    hosts, the SQLite message bus, resource sampling (float averages with
    exponentials), test indexing, credentials and hooks, the C helpers and the
    applet: they are I/O against the host, the network or an engine that is not
    in the repository, and their decisions are mostly the shape of a command or
    of a text.  The acquisition of an agent's start descriptors in
    fleet_home_broker_linux.py, the carrier between the resolver and the
    allocator (worker_resolution_carrier.py, tables of object identities), the
    probe's publication files and [migrate_resource_state] (an [int()] of any value) are left out of parts
    that are modelled otherwise. *)

From stdpp Require Export base tactics list strings option numbers sorting relations.
From stdpp Require Import pretty.
From Stdlib Require Export Ascii ZArith Lia.

#[export] Set Default Proof Using "Type".

(** ** Exceptions and results

    Python exceptions are values: one constructor per exception class the
    modelled files raise, carrying the message ([str(exc)]).  The class
    hierarchy used by the [except] clauses is given by [is_value_error] and
    [is_runtime_error]. *)

Inductive exn :=
  | ValueError (msg : string)
  | TypeError (msg : string)
  | KeyError (key : string)
  | OverflowError (msg : string)
  | OSError (msg : string)
  | RuntimeError (msg : string)
  | AdmissionError (msg : string)
  | SelectionError (msg : string)
  | DynamicPoolBindingError (msg : string)
  | HiveValidationError (msg : string)
  | AnchorError (msg : string)
  | SelectionConfigError (msg : string)
  | QueueError (msg : string)
  | DecisionError (msg : string)
  | ResourceStateError (msg : string)
  | AdmissionRuntimeError (msg : string)
  | CompletionJournalError (msg : string)
  | HiveStateError (msg : string)
  | HiveEventError (msg : string)
  | SelectionServiceError (msg : string)
  | RetryableSelectionError (msg : string)
  | SelectionDeniedError (msg : string)
  | IndexError (msg : string)
  | SelectionValidationError (msg : string)
  | SelectionSourceError (msg : string)
  | ModelPolicyError (msg : string)
  | TaskClassificationError (msg : string)
  | HiveAdmissionError (msg : string)
  | AuthorityError (msg : string)
  | HiveDispatchError (msg : string)
  | HiveMessageError (msg : string)
  | HiveMemoryError (msg : string)
  | PrincipalError (msg : string)
  | CapabilityError (msg : string)
  | ResourceEMAError (msg : string)
  | WalValidationError (msg : string)
  | RuntimeMigrationPolicyError (msg : string)
  | SpawnDenied (msg : string)
  | CommonPolicyError (msg : string)
  | JSONDecodeError (msg : string)
  | UnicodeError (msg : string)
  | AssertionError (msg : string)
  | AttributeError (msg : string)
  | RepositoryError (msg : string)
  | FleetValidationError (msg : string)
  | AgentError (msg : string)
  | LayoutError (msg : string)
  | ChpbValidationError (msg : string)
  | ControlReleaseV2Error (msg : string)
  | IdentityValidationError (msg : string)
  | LinuxBoundaryError (msg : string)
  | OfflineBrokerError (msg : string)
  | HiveConfigError (msg : string)
  | ResumeDenied (msg : string)
  | AllocationDenied (msg : string)
  | WorkerResolutionCarrierDenied (msg : string)
  | TimeoutError (msg : string)
  | RecursionError (msg : string)
  | BoundedProcessError (msg : string).

(** [str(exc)]. *)
Definition exn_str (e : exn) : string :=
  match e with
  | ValueError m | TypeError m | KeyError m | OverflowError m | OSError m
  | RuntimeError m | AdmissionError m | SelectionError m
  | DynamicPoolBindingError m | HiveValidationError m | AnchorError m
  | SelectionConfigError m | QueueError m | DecisionError m
  | ResourceStateError m | AdmissionRuntimeError m
  | CompletionJournalError m | HiveStateError m | HiveEventError m
  | SelectionServiceError m | RetryableSelectionError m
  | SelectionDeniedError m | IndexError m | SelectionValidationError m
  | SelectionSourceError m | ModelPolicyError m | TaskClassificationError m
  | HiveAdmissionError m | AuthorityError m | HiveDispatchError m
  | HiveMessageError m | HiveMemoryError m | PrincipalError m
  | CapabilityError m | ResourceEMAError m | WalValidationError m
  | RuntimeMigrationPolicyError m | SpawnDenied m | CommonPolicyError m
  | JSONDecodeError m | UnicodeError m | AssertionError m
  | AttributeError m | RepositoryError m | FleetValidationError m | AgentError m
  | ChpbValidationError m | ControlReleaseV2Error m | IdentityValidationError m
  | LinuxBoundaryError m | OfflineBrokerError m | HiveConfigError m | ResumeDenied m | AllocationDenied m
  | WorkerResolutionCarrierDenied m
  | LayoutError m | TimeoutError m | RecursionError m | BoundedProcessError m => m
  end.

(** [isinstance(exc, ValueError)]. *)
Definition is_value_error (e : exn) : bool :=
  match e with
  | ValueError _ | AdmissionError _ | SelectionError _
  | DynamicPoolBindingError _ | HiveValidationError _ | AnchorError _
  | SelectionConfigError _ | QueueError _ | DecisionError _
  | ResourceStateError _ | HiveStateError _ | HiveEventError _
  | SelectionValidationError _ | SelectionSourceError _ | ModelPolicyError _
  | TaskClassificationError _ | HiveAdmissionError _ | AuthorityError _
  | HiveDispatchError _ | HiveMessageError _ | HiveMemoryError _
  | PrincipalError _ | CapabilityError _ | ResourceEMAError _
  | WalValidationError _ | RuntimeMigrationPolicyError _ | SpawnDenied _
  | CommonPolicyError _ | JSONDecodeError _ | UnicodeError _
  | RepositoryError _ | FleetValidationError _ | LayoutError _ | ChpbValidationError _
  | ControlReleaseV2Error _ | IdentityValidationError _ | LinuxBoundaryError _
  | OfflineBrokerError _ | HiveConfigError _ | ResumeDenied _ | WorkerResolutionCarrierDenied _ => true
  | _ => false
  end.

(** [isinstance(exc, RuntimeError)]. *)
Definition is_runtime_error (e : exn) : bool :=
  match e with
  | RuntimeError _ | AdmissionRuntimeError _ | CompletionJournalError _
  | SelectionServiceError _ | RetryableSelectionError _
  | SelectionDeniedError _ | AgentError _ | BoundedProcessError _ | RecursionError _ => true
  | _ => false
  end.

Definition is_type_error (e : exn) : bool :=
  match e with TypeError _ => true | _ => false end.

Definition is_key_error (e : exn) : bool :=
  match e with KeyError _ => true | _ => false end.

Definition is_recursion_error (e : exn) : bool :=
  match e with RecursionError _ => true | _ => false end.

Definition is_os_error (e : exn) : bool :=
  match e with OSError _ | TimeoutError _ => true | _ => false end.

#[export] Instance exn_eq_dec : EqDecision exn.
Proof. solve_decision. Defined.

(** A call returns a value or raises. *)
Inductive result (A : Type) :=
  | Ok (a : A)
  | Err (e : exn).
Arguments Ok {_} _.
Arguments Err {_} _.

#[export] Instance result_eq_dec `{EqDecision A} : EqDecision (result A).
Proof. solve_decision. Defined.

#[export] Instance result_ret : MRet result := @Ok.
#[export] Instance result_bind : MBind result := fun A B f m =>
  match m with Ok a => f a | Err e => Err e end.
#[global] Arguments result_bind _ _ _ !_ /.
#[export] Instance result_fmap : FMap result := fun A B f m =>
  match m with Ok a => Ok (f a) | Err e => Err e end.

Definition is_ok {A} (r : result A) : bool :=
  match r with Ok _ => true | Err _ => false end.

(** [if not cond: raise e]. *)
Definition require (cond : bool) (e : exn) : result () :=
  if cond then Ok () else Err e.

(** [try: r  except (classes) as exc: raise e'], with [handled] the test
    of the [except] clause. *)
Definition reraise {A} (handled : exn → bool) (e' : exn → exn) (r : result A)
  : result A :=
  match r with
  | Ok a => Ok a
  | Err e => if handled e then Err (e' e) else Err e
  end.

(** [for x in l: f(x)] collecting the results, first exception wins. *)
Fixpoint mapM_result {A B} (f : A → result B) (l : list A) : result (list B) :=
  match l with
  | [] => Ok []
  | x :: l => y ← f x; ys ← mapM_result f l; Ok (y :: ys)
  end.

Section result_lemmas.
Context {A B : Type}.

Lemma bind_Ok (f : A → result B) (m : result A) b :
  m ≫= f = Ok b ↔ ∃ a, m = Ok a ∧ f a = Ok b.
Proof. destruct m; naive_solver. Qed.

Lemma bind_Err (f : A → result B) (m : result A) e :
  m ≫= f = Err e ↔ m = Err e ∨ ∃ a, m = Ok a ∧ f a = Err e.
Proof. destruct m; cbn; naive_solver. Qed.

Lemma bind_ret (a : A) (f : A → result B) : Ok a ≫= f = f a.
Proof. done. Qed.

Lemma require_Ok c e u : require c e = Ok u ↔ c = true.
Proof. destruct c, u; naive_solver. Qed.

Lemma require_Err c e e' : require c e = Err e' ↔ c = false ∧ e' = e.
Proof. destruct c; naive_solver. Qed.

Lemma reraise_Ok h g (r : result A) a : reraise h g r = Ok a ↔ r = Ok a.
Proof. destruct r as [|e]; cbn; [naive_solver|destruct (h e); naive_solver]. Qed.

End result_lemmas.

(** [all(f(x) for x in l)] and [any(f(x) for x in l)]: an exception of [f]
    stops the evaluation, and so does a decided answer. *)
Fixpoint all_result {A} (f : A → result bool) (l : list A) : result bool :=
  match l with
  | [] => Ok true
  | x :: l =>
      match f x with
      | Ok true => all_result f l
      | r => r
      end
  end.

Fixpoint any_result {A} (f : A → result bool) (l : list A) : result bool :=
  match l with
  | [] => Ok false
  | x :: l =>
      match f x with
      | Ok false => any_result f l
      | r => r
      end
  end.

Section mapM_lemmas.
Context {A B : Type}.

Lemma mapM_result_Ok_length (f : A → result B) l k :
  mapM_result f l = Ok k → length k = length l.
Proof.
  revert k; induction l as [|x l IH]; intros k; simpl; [naive_solver|].
  rewrite bind_Ok. intros (y & _ & (ys & Hys & [= <-])%bind_Ok).
  cbn. f_equal. by apply IH.
Qed.

Lemma mapM_result_all (f : A → result B) (g : A → B) l :
  Forall (λ x, f x = Ok (g x)) l → mapM_result f l = Ok (g <$> l).
Proof. induction 1 as [|x l Hx _ IH]; cbn; [done|]. by rewrite Hx, IH. Qed.

Lemma mapM_result_Ok_Forall2 (f : A → result B) l k :
  mapM_result f l = Ok k ↔ Forall2 (λ x y, f x = Ok y) l k.
Proof.
  revert k; induction l as [|x l IH]; intros k; cbn.
  - split; [intros [= <-]; constructor|by inversion 1].
  - split.
    + intros (y & Hy & (ys & Hys & [= <-])%bind_Ok)%bind_Ok.
      constructor; [done|]. by apply IH.
    + inversion 1 as [|? y ? ys Hy Hys]; subst. rewrite Hy. cbn.
      by apply IH in Hys as ->.
Qed.

Lemma mapM_perm (f : A → result B) l k xs :
  l ≡ₚ k → mapM_result f l = Ok xs → ∃ ys, mapM_result f k = Ok ys ∧ xs ≡ₚ ys.
Proof.
  intros Hp Hf%mapM_result_Ok_Forall2.
  destruct (Permutation_Forall2 Hp Hf) as (ys & Hys & Hf').
  exists ys. split; [by apply mapM_result_Ok_Forall2|done].
Qed.
End mapM_lemmas.

(** [inv_result] opens every successful [bind]/[require] among the
    hypotheses. *)
Ltac inv_result_step :=
  match goal with
  | H : _ ≫= _ = Ok _ |- _ => apply bind_Ok in H as (? & ? & H)
  | H : require _ _ = Ok ?u |- _ => apply require_Ok in H; try clear u
  | H : reraise _ _ _ = Ok _ |- _ => apply reraise_Ok in H
  | H : Ok _ = Ok _ |- _ => injection H as H
  | H : Err _ = Ok _ |- _ => discriminate H
  | H : Ok _ = Err _ |- _ => discriminate H
  end.
Ltac inv_result := repeat inv_result_step; simplify_eq/=.

(** [simpl_bd] evaluates the [bool_decide]s the context decides. *)
Ltac simpl_bd :=
  repeat match goal with
    | |- context [bool_decide ?P] =>
        first [ rewrite (bool_decide_true P) by (done || congruence)
              | rewrite (bool_decide_false P) by (done || congruence) ]
    end.

(** Every exception a call raises satisfies [P]. *)
Definition raises_only {A} (P : exn → bool) (r : result A) : Prop :=
  ∀ e, r = Err e → P e = true.

Create HintDb raises.

Section raises_only.
Context (P : exn → bool).

Lemma raises_bind {A B} (m : result A) (f : A → result B) :
  raises_only P m → (∀ a, raises_only P (f a)) → raises_only P (m ≫= f).
Proof. intros Hm Hf e [?|(a & _ & ?)]%bind_Err; [by apply Hm|by apply (Hf a)]. Qed.

Lemma raises_Ok {A} (a : A) : raises_only P (Ok a).
Proof. by intros e. Qed.

Lemma raises_Err {A} e : P e = true → raises_only P (@Err A e).
Proof. by intros ? e' [= <-]. Qed.

Lemma raises_require c e : P e = true → raises_only P (require c e).
Proof. intros ? e'. rewrite require_Err. by intros [_ ->]. Qed.

Lemma raises_mapM {A B} (f : A → result B) l :
  (∀ x, raises_only P (f x)) → raises_only P (mapM_result f l).
Proof.
  intros Hf. induction l as [|x l IH]; simpl; [apply raises_Ok|].
  apply raises_bind; [done|]. intros y. apply raises_bind; [done|].
  intros ys. apply raises_Ok.
Qed.
End raises_only.

#[export] Hint Resolve raises_Ok raises_bind raises_require raises_mapM : raises.
#[export] Hint Extern 1 (raises_only _ (Err _)) => apply raises_Err; reflexivity : raises.

Ltac raises_cases :=
  repeat match goal with
  | |- raises_only _ (match ?x with _ => _ end) => destruct x
  | |- raises_only _ (if ?x then _ else _) => destruct x
  | |- raises_only _ (_ ≫= _) => apply raises_bind; [|intros ?]
  | |- raises_only _ (require _ _) => apply raises_require; reflexivity
  | |- raises_only _ (mapM_result _ _) => apply raises_mapM; intros ?
  end; auto with raises.

(** ** State threading

    A method that mutates [self] and may raise maps a state to the new state
    and the outcome; mutations made before an exception persist. *)

Definition ST (S A : Type) : Type := S → S * result A.

#[export] Instance st_ret S : MRet (ST S) := fun A a s => (s, Ok a).
#[export] Instance st_bind S : MBind (ST S) := fun A B f m s =>
  match m s with
  | (s', Ok a) => f a s'
  | (s', Err e) => (s', Err e)
  end.

Definition st_get {S} : ST S S := λ s, (s, Ok s).
Definition st_put {S} (s' : S) : ST S () := λ _, (s', Ok ()).
Definition st_lift {S A} (r : result A) : ST S A := λ s, (s, r).

(** [try: m  except e: h(e)]. *)
Definition st_catch {S A} (m : ST S A) (h : exn → ST S A) : ST S A := λ s,
  match m s with
  | (s', Ok a) => (s', Ok a)
  | (s', Err e) => h e s'
  end.

Lemma st_bind_Ok {S A B} (f : A → ST S B) (m : ST S A) s s2 b :
  (m ≫= f) s = (s2, Ok b) ↔ ∃ s1 a, m s = (s1, Ok a) ∧ f a s1 = (s2, Ok b).
Proof. unfold mbind, st_bind. destruct (m s) as [s1 [a|e]]; naive_solver. Qed.

Lemma st_bind_eq {S A B} (f : A → ST S B) (m : ST S A) s :
  (m ≫= f) s = match m s with (s', Ok a) => f a s' | (s', Err e) => (s', Err e) end.
Proof. done. Qed.

(** Running the first action of a sequence. *)
Lemma run_lift {S A B} (a : A) (f : A → ST S B) s : (st_lift (Ok a) ≫= f) s = f a s.
Proof. done. Qed.
Lemma run_lift_err {S A B} e (f : A → ST S B) s : (st_lift (Err e) ≫= f) s = (s, Err e).
Proof. done. Qed.
Lemma run_get {S B} (f : S → ST S B) s : (st_get ≫= f) s = f s s.
Proof. done. Qed.
Lemma run_ret {S A B} (a : A) (f : A → ST S B) s : (mret a ≫= f) s = f a s.
Proof. done. Qed.

Lemma bind_require {S B} c e (f : () → ST S B) w :
  (st_lift (require c e) ≫= f) w = if c then f () w else (w, Err e).
Proof. by destruct c. Qed.

Lemma st_lift_Ok {S A} (r : result A) (s s' : S) a :
  st_lift r s = (s', Ok a) ↔ s' = s ∧ r = Ok a.
Proof. unfold st_lift. naive_solver. Qed.

(** A Hoare triple: from [P], a returned value satisfies [Q] and an exception
    [R], each with the state it leaves. *)
Definition triple {S A} (P : S → Prop) (m : ST S A) (Q : A → S → Prop) (R : exn → S → Prop)
  : Prop :=
  ∀ s, P s → match m s with (s', Ok a) => Q a s' | (s', Err e) => R e s' end.

Section triple.
Context {S : Type}.
Implicit Types (P : S → Prop) (R : exn → S → Prop).

Lemma triple_ret {A} P (a : A) (Q : A → S → Prop) R :
  (∀ s, P s → Q a s) → triple P (mret a) Q R.
Proof. intros H s Hs. by apply H. Qed.

Lemma triple_lift {A} P (r : result A) (Q : A → S → Prop) R :
  (∀ s a, P s → r = Ok a → Q a s) → (∀ s e, P s → r = Err e → R e s) →
  triple P (st_lift r) Q R.
Proof. intros HQ HR s Hs. unfold st_lift. destruct r; auto. Qed.

Lemma triple_bind {A B} P (m : ST S A) (f : A → ST S B) (Q : A → S → Prop) Q' R :
  triple P m Q R → (∀ a, triple (Q a) (f a) Q' R) → triple P (m ≫= f) Q' R.
Proof.
  intros Hm Hf s Hs. rewrite st_bind_eq. specialize (Hm s Hs).
  destruct (m s) as [s' [a|e]]; [by apply Hf|done].
Qed.

Lemma triple_conseq {A} P P' (m : ST S A) (Q Q' : A → S → Prop) R R' :
  triple P' m Q' R' → (∀ s, P s → P' s) → (∀ a s, Q' a s → Q a s) →
  (∀ e s, R' e s → R e s) → triple P m Q R.
Proof.
  intros Hm HP HQ HR s Hs. specialize (Hm s (HP s Hs)). destruct (m s) as [s' [a|e]]; auto.
Qed.
End triple.

(** A frame condition: whatever a call returns or raises, it leaves the part
    [π] of the state alone. *)
Definition framed {S T A} (π : S → T) (m : ST S A) : Prop := ∀ s, π (m s).1 = π s.

Create HintDb framed.

Section framed.
Context {S T : Type} (π : S → T).

Lemma framed_ret {A} (a : A) : framed π (mret a).
Proof. by intros s. Qed.

Lemma framed_lift {A} (r : result A) : framed π (st_lift r).
Proof. by intros s. Qed.

Lemma framed_get : framed π st_get.
Proof. by intros s. Qed.

Lemma framed_bind {A B} (m : ST S A) (f : A → ST S B) :
  framed π m → (∀ a, framed π (f a)) → framed π (m ≫= f).
Proof.
  intros Hm Hf s. rewrite st_bind_eq. specialize (Hm s). destruct (m s) as [s' [a|e]]; [|done].
  by rewrite Hf.
Qed.

Lemma framed_catch {A} (m : ST S A) (h : exn → ST S A) :
  framed π m → (∀ e, framed π (h e)) → framed π (st_catch m h).
Proof.
  intros Hm Hh s. unfold st_catch. specialize (Hm s). destruct (m s) as [s' [a|e]]; [done|].
  by rewrite Hh.
Qed.
End framed.

#[export] Hint Resolve framed_ret framed_lift framed_get framed_bind framed_catch : framed.

(** [framed_cases] walks through a method's text; the calls it makes are found in
    the database. *)
Ltac framed_cases :=
  repeat match goal with
  | |- framed _ (match ?x with _ => _ end) => destruct x
  | |- framed _ (if ?x then _ else _) => destruct x
  | |- framed _ (_ ≫= _) => apply framed_bind; [|intros ?]
  | |- framed _ (st_catch _ _) => apply framed_catch; [|intros ?]
  end; auto with framed.

(** ** Python values

    [pyval] is the type of decoded JSON and of untyped payloads.  A dict is
    an association list in insertion order with string keys; a float is kept
    as its literal, since the modelled code only tells floats from integers. *)

#[local] Unset Elimination Schemes.
Inductive pyval :=
  | VNone
  | VBool (b : bool)
  | VInt (z : Z)
  | VFloat (lit : string)
  | VStr (s : string)
  | VList (l : list pyval)
  | VDict (d : list (string * pyval)).
#[local] Set Elimination Schemes.

Section pyval_ind.
Context (P : pyval → Prop).
Hypothesis HNone : P VNone.
Hypothesis HBool : ∀ b, P (VBool b).
Hypothesis HInt : ∀ z, P (VInt z).
Hypothesis HFloat : ∀ s, P (VFloat s).
Hypothesis HStr : ∀ s, P (VStr s).
Hypothesis HList : ∀ l, Forall P l → P (VList l).
Hypothesis HDict : ∀ d, Forall (λ kv, P kv.2) d → P (VDict d).

Fixpoint pyval_ind (v : pyval) : P v :=
  match v with
  | VNone => HNone
  | VBool b => HBool b
  | VInt z => HInt z
  | VFloat s => HFloat s
  | VStr s => HStr s
  | VList l =>
      HList l ((fix go l := match l return Forall P l with
                | [] => Forall_nil_2 _
                | v :: l => Forall_cons_2 _ _ _ (pyval_ind v) (go l)
                end) l)
  | VDict d =>
      HDict d ((fix go d := match d return Forall (λ kv, P kv.2) d with
                | [] => Forall_nil_2 _
                | kv :: d => Forall_cons_2 _ _ _ (pyval_ind kv.2) (go d)
                end) d)
  end.
End pyval_ind.

(** [v == n] for an integer literal [n]: booleans and integral floats compare
    equal to integers. *)
Definition py_eq_int (v : pyval) (n : Z) : bool :=
  match v with
  | VInt z => z =? n
  | VBool b => (if b then 1 else 0) =? n
  | VFloat lit => bool_decide (lit = pretty n +:+ ".0")
  | _ => false
  end%Z.

(** [v == s] for a string literal [s]. *)
Definition py_eq_str (v : pyval) (s : string) : bool :=
  match v with VStr s' => bool_decide (s' = s) | _ => false end.

(** [hash(v)] succeeds: lists and dicts are unhashable, so [v in {...}]
    raises [TypeError] on them. *)
Definition py_hashable (v : pyval) : bool :=
  match v with VList _ | VDict _ => false | _ => true end.

(** [v in {s1, ..., sn}] for a set of string literals. *)
Definition py_in_set (v : pyval) (l : list string) : result bool :=
  if py_hashable v
  then Ok (match v with VStr s => bool_decide (s ∈ l) | _ => false end)
  else Err (TypeError "unhashable type").

Definition is_VNone (v : pyval) : bool :=
  match v with VNone => true | _ => false end.

(** ** Strings

    One [ascii] per code point: the model covers text whose code points are
    below 256. *)

Fixpoint string_forallb (p : ascii → bool) (s : string) : bool :=
  match s with
  | EmptyString => true
  | String c s => p c && string_forallb p s
  end.

(** [ord(char)]. *)
Definition ord (c : ascii) : Z := Z.of_N (Ascii.N_of_ascii c).

(** [len(s)]. *)
Definition py_len (s : string) : Z := Z.of_nat (String.length s).

(** [any(ord(char) < 32 for char in s)]. *)
Definition has_control (s : string) : bool :=
  negb (string_forallb (λ c, 32 <=? ord c)%Z s).

(** [char in s]. *)
Definition has_char (c : ascii) (s : string) : bool :=
  negb (string_forallb (λ d, negb (bool_decide (d = c))) s).

(** [s.startswith(p)]. *)
Definition startswith (p s : string) : bool := String.prefix p s.

(** [marker in s]. *)
Fixpoint contains (marker s : string) : bool :=
  startswith marker s ||
  match s with
  | EmptyString => false
  | String _ s => contains marker s
  end.

(** [s.split(sep)] for a one-character separator. *)
Fixpoint split_on (sep : ascii) (s : string) : list string :=
  match s with
  | EmptyString => [EmptyString]
  | String c s =>
      let parts := split_on sep s in
      if bool_decide (c = sep) then EmptyString :: parts
      else match parts with
           | [] => [String c EmptyString]
           | p :: ps => String c p :: ps
           end
  end.

Lemma append_nil_l (s : string) : "" +:+ s = s.
Proof. done. Qed.

Lemma append_cons c (s t : string) : String c s +:+ t = String c (s +:+ t).
Proof. done. Qed.

Lemma append_assoc (a b c : string) : (a +:+ b) +:+ c = a +:+ (b +:+ c).
Proof.
  induction a as [|x a IH]; [done|]. rewrite !append_cons. by f_equal.
Qed.

Lemma append_nil_r (a : string) : a +:+ "" = a.
Proof. induction a as [|x a IH]; [done|]. rewrite append_cons. by f_equal. Qed.

(** [sep.join(parts)]. *)
Fixpoint py_join (sep : string) (parts : list string) : string :=
  match parts with
  | [] => ""
  | [p] => p
  | p :: ps => p +:+ (sep +:+ py_join sep ps)
  end.

Lemma split_on_cons sep s : ∃ p ps, split_on sep s = p :: ps.
Proof.
  induction s as [|c s IH]; cbn; [by eexists _, _|].
  case_bool_decide; [by eexists _, _|]. destruct IH as (p & ps & ->). by eexists _, _.
Qed.

(** [sep.join(s.split(sep)) == s]. *)
Lemma join_split_on sep s : py_join (String sep "") (split_on sep s) = s.
Proof.
  induction s as [|c s IH]; [done|]. cbn [split_on].
  destruct (split_on_cons sep s) as (p & ps & Hps). rewrite Hps in *.
  case_bool_decide as Hc.
  - subst c. cbn [py_join] in *. by rewrite IH.
  - destruct ps as [|q ps]; cbn [py_join] in *; by rewrite <- IH.
Qed.

Lemma join_app sep p ps q qs :
  py_join sep ((p :: ps) ++ (q :: qs)) =
  py_join sep (p :: ps) +:+ (sep +:+ py_join sep (q :: qs)).
Proof.
  revert p. induction ps as [|p' ps IH]; intros p; [done|].
  change (((p :: p' :: ps) ++ q :: qs)) with (p :: ((p' :: ps) ++ q :: qs)).
  cbn [py_join app] in *. by rewrite IH, !append_assoc.
Qed.

Lemma split_on_app sep s t :
  split_on sep (s +:+ String sep t) = split_on sep s ++ split_on sep t.
Proof.
  induction s as [|c s IH]; rewrite ?append_nil_l, ?append_cons; cbn [split_on].
  - by rewrite bool_decide_eq_true_2.
  - rewrite IH. case_bool_decide; [done|].
    destruct (split_on_cons sep s) as (p & ps & ->). done.
Qed.

Lemma has_char_app c s t : has_char c (s +:+ t) = has_char c s || has_char c t.
Proof.
  unfold has_char. rewrite <- negb_andb. f_equal.
  induction s as [|d s IH]; [done|]. rewrite append_cons. cbn [string_forallb].
  by rewrite IH, andb_assoc.
Qed.

Lemma split_on_single sep s : has_char sep s = false → split_on sep s = [s].
Proof.
  unfold has_char. rewrite negb_false_iff. induction s as [|c s IH]; [done|].
  cbn [string_forallb split_on]. intros [Hc Hs]%andb_true_iff.
  apply negb_true_iff in Hc. by rewrite Hc, IH.
Qed.

(** [sep.join(parts).split(sep) == parts], for parts without the separator. *)
Lemma split_on_join sep parts :
  parts ≠ [] → Forall (λ p, has_char sep p = false) parts →
  split_on sep (py_join (String sep "") parts) = parts.
Proof.
  intros Hne Hp. destruct parts as [|p ps]; [done|]. clear Hne. revert p Hp.
  induction ps as [|q ps IH]; intros p [Hp Hps]%Forall_cons; [by apply split_on_single|].
  change (py_join (String sep "") (p :: q :: ps))
    with (p +:+ String sep (py_join (String sep "") (q :: ps))).
  rewrite split_on_app, split_on_single, IH by done. done.
Qed.

(** [s.startswith(p)]. *)
Lemma startswith_true p s : startswith p s = true ↔ ∃ t, s = p +:+ t.
Proof.
  unfold startswith. revert s. induction p as [|c p IH]; intros s.
  - split; [intros _; by exists s|]. by destruct s.
  - setoid_rewrite append_cons. destruct s as [|d s]; cbn; [split; [done|by intros [t ?]]|].
    destruct (Ascii.ascii_dec c d) as [Heq|Hne].
    + subst d. rewrite IH. split; intros [t Ht]; exists t; [by rewrite Ht|by injection Ht].
    + split; [done|]. intros [t [= Hcd _]]. by subst.
Qed.

(** Character classes of the regular expressions. *)
Definition in_range (lo hi : Z) (c : ascii) : bool :=
  ((lo <=? ord c) && (ord c <=? hi))%Z.
Definition is_digit_char (c : ascii) : bool := in_range 48 57 c.
Definition is_lower (c : ascii) : bool := in_range 97 122 c.
Definition is_upper (c : ascii) : bool := in_range 65 90 c.
Definition is_hex_lower (c : ascii) : bool :=
  is_digit_char c || in_range 97 102 c.
Definition is_char (d c : ascii) : bool := bool_decide (c = d).

#[global] Arguments ord : simpl never.
#[global] Arguments is_digit_char : simpl never.
#[global] Arguments is_lower : simpl never.
#[global] Arguments is_upper : simpl never.
#[global] Arguments is_hex_lower : simpl never.
#[global] Arguments is_char : simpl never.

Lemma string_forallb_app p s t :
  string_forallb p (s +:+ t) = string_forallb p s && string_forallb p t.
Proof.
  induction s as [|c s IH]; [done|]. rewrite append_cons. cbn.
  by rewrite IH, andb_assoc.
Qed.

Lemma length_append s t : String.length (s +:+ t) = (String.length s + String.length t)%nat.
Proof. induction s as [|c s IH]; [done|]. rewrite append_cons. cbn. by rewrite IH. Qed.

(** The pattern [sha256:[0-9a-f]{64}], matched in full. *)
Definition is_sha256_digest (s : string) : bool :=
  startswith "sha256:" s
  && (py_len s =? 71)%Z
  && string_forallb is_hex_lower (String.substring 7 64 s).

(** ** Ordered dictionaries

    Python's dict keeps insertion order; assignment to an existing key keeps
    its position. *)

Section dict.
Context {V : Type}.
Implicit Types (d : list (string * V)) (k : string) (v : V).

Fixpoint dict_get k d : option V :=
  match d with
  | [] => None
  | (k', v) :: d => if bool_decide (k' = k) then Some v else dict_get k d
  end.

Fixpoint dict_set k v d : list (string * V) :=
  match d with
  | [] => [(k, v)]
  | (k', v') :: d =>
      if bool_decide (k' = k) then (k', v) :: d else (k', v') :: dict_set k v d
  end.

Fixpoint dict_del k d : list (string * V) :=
  match d with
  | [] => []
  | (k', v') :: d =>
      if bool_decide (k' = k) then d else (k', v') :: dict_del k d
  end.

Definition dict_keys d : list string := d.*1.
Definition dict_values d : list V := d.*2.
Definition dict_mem k d : bool := bool_decide (is_Some (dict_get k d)).

(** [set(d) == set(fields)]. *)
Definition keys_exactly d (fields : list string) : bool :=
  forallb (λ k, bool_decide (k ∈ fields)) (dict_keys d)
  && forallb (λ k, bool_decide (k ∈ dict_keys d)) fields.

(** [not (set(d) - set(fields))]. *)
Definition keys_within d (fields : list string) : bool :=
  forallb (λ k, bool_decide (k ∈ fields)) (dict_keys d).

(** [set(fields).issubset(d)]. *)
Definition has_keys d (fields : list string) : bool :=
  forallb (λ k, bool_decide (k ∈ dict_keys d)) fields.

Lemma dict_get_set k v k' d :
  dict_get k' (dict_set k v d) =
  if bool_decide (k = k') then Some v else dict_get k' d.
Proof.
  induction d as [|[k0 v0] d IH]; cbn; [done|].
  repeat case_bool_decide; simplify_eq/=; repeat case_bool_decide;
    simplify_eq/=; auto.
Qed.

Lemma dict_get_set_eq k v d : dict_get k (dict_set k v d) = Some v.
Proof. rewrite dict_get_set. by rewrite bool_decide_true. Qed.

Lemma dict_get_set_ne k v k' d :
  k ≠ k' → dict_get k' (dict_set k v d) = dict_get k' d.
Proof. intros ?. rewrite dict_get_set. by rewrite bool_decide_false. Qed.

Lemma elem_of_dict_keys k d : k ∈ dict_keys d ↔ is_Some (dict_get k d).
Proof.
  induction d as [|[k0 v0] d IH]; cbn.
  - split; [by intros ?%elem_of_nil|by intros [??]].
  - rewrite elem_of_cons, IH. case_bool_decide; naive_solver.
Qed.

Lemma dict_get_None k d : dict_get k d = None ↔ k ∉ dict_keys d.
Proof. rewrite elem_of_dict_keys. destruct (dict_get k d); naive_solver. Qed.

Lemma dict_get_elem_of k v d : dict_get k d = Some v → (k, v) ∈ d.
Proof.
  induction d as [|[k0 v0] d IH]; cbn; [done|].
  case_bool_decide; rewrite elem_of_cons; naive_solver.
Qed.

Lemma elem_of_dict_get k v d :
  NoDup (dict_keys d) → (k, v) ∈ d → dict_get k d = Some v.
Proof.
  induction d as [|[k0 v0] d IH]; cbn; [by intros _ ?%elem_of_nil|].
  rewrite NoDup_cons, elem_of_cons. intros [Hni Hnd] [[= -> ->]|Hin].
  - by rewrite bool_decide_true.
  - case_bool_decide as Hk; subst; [|by apply IH].
    destruct Hni. by apply list_elem_of_fmap_2 with (f := fst) in Hin.
Qed.

Lemma dict_keys_set k v d :
  dict_keys (dict_set k v d) =
  if bool_decide (k ∈ dict_keys d) then dict_keys d else dict_keys d ++ [k].
Proof.
  induction d as [|[k0 v0] d IH]; cbn; [done|].
  fold (dict_keys d). destruct (decide (k0 = k)) as [->|Hne].
  - rewrite !bool_decide_true; [done|by constructor|done].
  - rewrite (bool_decide_false (k0 = k)) by done. cbn.
    fold (dict_keys (dict_set k v d)). rewrite IH.
    destruct (decide (k ∈ dict_keys d)).
    + rewrite !bool_decide_true; [done|by constructor|done].
    + rewrite !bool_decide_false; [done| |done].
      by intros []%elem_of_cons.
Qed.

Lemma dict_keys_set_in k v d :
  k ∈ dict_keys d → dict_keys (dict_set k v d) = dict_keys d.
Proof. intros ?. rewrite dict_keys_set. by rewrite bool_decide_true. Qed.

Lemma NoDup_dict_set k v d :
  NoDup (dict_keys d) → NoDup (dict_keys (dict_set k v d)).
Proof.
  intros Hd. rewrite dict_keys_set. case_bool_decide as Hk; [done|].
  apply NoDup_app; split_and!; [done| |apply NoDup_singleton].
  by intros x Hx ->%list_elem_of_singleton.
Qed.

Lemma dict_get_del k k' d :
  NoDup (dict_keys d) →
  dict_get k' (dict_del k d) = if bool_decide (k = k') then None else dict_get k' d.
Proof.
  induction d as [|[k0 v0] d IH]; cbn; [by case_bool_decide|].
  rewrite NoDup_cons. intros [Hni Hnd].
  destruct (decide (k0 = k)) as [->|Hne]; simpl_bd; cbn;
    destruct (decide (k = k')) as [->|Hne']; simpl_bd; try done.
  - by apply dict_get_None.
  - rewrite (IH Hnd). by simpl_bd.
  - rewrite (IH Hnd). by simpl_bd.
Qed.

Lemma dict_keys_del_subset k k' d :
  k' ∈ dict_keys (dict_del k d) → k' ∈ dict_keys d.
Proof.
  induction d as [|[k0 v0] d IH]; cbn; [done|].
  case_bool_decide; cbn; rewrite ?elem_of_cons; naive_solver.
Qed.

Lemma NoDup_dict_del k d :
  NoDup (dict_keys d) → NoDup (dict_keys (dict_del k d)).
Proof.
  induction d as [|[k0 v0] d IH]; cbn; [done|].
  rewrite NoDup_cons. intros [Hni Hnd].
  case_bool_decide; [done|]. cbn. rewrite NoDup_cons.
  split; [|by apply IH]. by intros ?%dict_keys_del_subset.
Qed.

Lemma keys_exactly_true d fields :
  keys_exactly d fields = true ↔ ∀ k, k ∈ dict_keys d ↔ k ∈ fields.
Proof.
  unfold keys_exactly. rewrite andb_true_iff, !forallb_forall.
  setoid_rewrite bool_decide_eq_true. setoid_rewrite <- list_elem_of_In. naive_solver.
Qed.
End dict.
