(* ===== verification/PyTime.v ===== *)
(** * Aware datetimes

    [datetime.datetime] as the modelled code uses it: a local clock reading in
    microseconds since 0001-01-01T00:00 and an optional fixed UTC offset
    ([tzinfo is None] is [None]).  Comparison and subtraction of aware values
    go through the UTC instant.  [isoformat] and [fromisoformat] are written
    out (extended ISO format, any fixed offset), with their round trip.
    Every zone the code builds is [timezone.utc] or the fixed offset of an
    ISO string, so the offset does not depend on the instant.
    [timedelta.total_seconds] is kept as an exact number of microseconds. *)

From S2P Require Import Prelude.

Open Scope Z_scope.

(** [lia] sees through [/] and [mod] by constants in this file. *)
#[local] Ltac Zify.zify_post_hook ::= Z.to_euclidean_division_equations.

Record datetime := Datetime { dt_local : Z; dt_offset : option Z }.

#[export] Instance datetime_eq_dec : EqDecision datetime.
Proof. solve_decision. Defined.

Definition US_PER_SECOND : Z := 1000000.
Definition US_PER_DAY : Z := 86400 * US_PER_SECOND.
(** Days of the proleptic calendar up to 9999-12-31. *)
Definition MAX_DAYS : Z := 3652059.
Definition MAX_LOCAL : Z := MAX_DAYS * US_PER_DAY.
(** 1970-01-01 is day 719162. *)
Definition EPOCH_US : Z := 719162 * US_PER_DAY.

(** A value the [datetime] and [timezone] constructors accept. *)
Definition dt_valid (d : datetime) : bool :=
  (0 <=? dt_local d) && (dt_local d <? MAX_LOCAL)
  && match dt_offset d with
     | None => true
     | Some o => (- US_PER_DAY <? o) && (o <? US_PER_DAY)
     end.

Definition dt_aware (d : datetime) : bool :=
  match dt_offset d with Some _ => true | None => false end.

(** The UTC instant of an aware value. *)
Definition dt_utc (d : datetime) : Z := dt_local d - default 0 (dt_offset d).

(** Order of aware values. *)
Definition dt_leb (a b : datetime) : bool := dt_utc a <=? dt_utc b.
Definition dt_ltb (a b : datetime) : bool := dt_utc a <? dt_utc b.

(** [(a - b).total_seconds()], in microseconds. *)
Definition dt_diff_us (a b : datetime) : Z := dt_utc a - dt_utc b.

(** [int(us / 10**6)]: conversion to [int] truncates towards zero. *)
Definition int_seconds (us : Z) : Z := Z.quot us US_PER_SECOND.

(** [int(d.timestamp())]. *)
Definition dt_timestamp_int (d : datetime) : Z :=
  int_seconds (dt_utc d - EPOCH_US).

(** [d + timedelta(seconds=s)]. *)
Definition dt_add_seconds (d : datetime) (s : Z) : result datetime :=
  let local := dt_local d + s * US_PER_SECOND in
  if (0 <=? local) && (local <? MAX_LOCAL)
  then Ok (Datetime local (dt_offset d))
  else Err (OverflowError "date value out of range").

(** [d.astimezone(timezone.utc)] of an aware value. *)
Definition dt_astimezone_utc (d : datetime) : result datetime :=
  if (0 <=? dt_utc d) && (dt_utc d <? MAX_LOCAL)
  then Ok (Datetime (dt_utc d) (Some 0))
  else Err (OverflowError "date value out of range").

(** ** Floating-point seconds

    [d.timestamp()] is a binary64 number: the microseconds since the epoch
    divided by [10 ** 6] and rounded to 53 bits, ties to even.  A positive
    float is kept as an exact fraction. *)

Definition half_even (n d : Z) : Z :=
  let q := n / d in
  let r := n mod d in
  if 2 * r <? d then q else if d <? 2 * r then q + 1 else if Z.even q then q else q + 1.

(** [floor(log2(p / q))] for positive [p] and [q]. *)
Definition ratio_log2 (p q : Z) : Z :=
  let k := Z.log2 p - Z.log2 q in
  if (if 0 <=? k then q * 2 ^ k <=? p else q <=? p * 2 ^ (- k)) then k else k - 1.

(** [p / q] rounded to 53 significant bits. *)
Definition round53 (p q : Z) : Z * Z :=
  let e := ratio_log2 p q - 52 in
  if 0 <=? e then (half_even p (q * 2 ^ e) * 2 ^ e, 1)
  else (half_even (p * 2 ^ (- e)) q, 2 ^ (- e)).

(** [int((us / 10**6) * 1000)] in binary64, for [us] microseconds. *)
Definition float_ms (us : Z) : Z :=
  if us =? 0 then 0
  else
    let seconds := round53 (Z.abs us) US_PER_SECOND in
    let ms := round53 (seconds.1 * 1000) seconds.2 in
    Z.sgn us * (ms.1 / ms.2).

(** [int(d.timestamp() * 1000)]. *)
Definition dt_timestamp_ms (d : datetime) : Z := float_ms (dt_utc d - EPOCH_US).

(** ** Calendar *)

Definition is_leap (y : Z) : bool :=
  (y mod 4 =? 0) && (negb (y mod 100 =? 0) || (y mod 400 =? 0)).

Definition days_in_month (y m : Z) : Z :=
  if m =? 2 then (if is_leap y then 29 else 28)
  else if (m =? 4) || (m =? 6) || (m =? 9) || (m =? 11) then 30 else 31.

Definition civil_ok (y m d : Z) : bool :=
  (1 <=? m) && (m <=? 12) && (1 <=? d) && (d <=? days_in_month y m).

(** Days before January 1st of year [y], year 1 first. *)
Definition days_before_year (y : Z) : Z :=
  let p := y - 1 in 365 * p + p / 4 - p / 100 + p / 400.

(** Days before the first of month [m] in a (leap) year. *)
Definition days_before_month (leap : bool) (m : Z) : Z :=
  let y := if leap then 4 else 1 in
  foldr Z.add 0 ((λ k : nat, days_in_month y (Z.of_nat k)) <$> seq 1 (Z.to_nat m - 1)).

(** Month and day of the [doy]-th day (from 0) of a (leap) year. *)
Fixpoint find_month (y doy m : Z) (fuel : nat) : Z * Z :=
  match fuel with
  | O => (m, doy + 1)
  | S fuel =>
      if doy <? days_in_month y m then (m, doy + 1)
      else find_month y (doy - days_in_month y m) (m + 1) fuel
  end.

Definition month_day (leap : bool) (doy : Z) : Z * Z :=
  find_month (if leap then 4 else 1) doy 1 11.

(** Year, month and day of a day number, as [datetime.fromordinal] splits it:
    400-, 100-, 4- and 1-year cycles. *)
Definition civil_of_days (n : Z) : Z * Z * Z :=
  let n400 := n / 146097 in
  let r400 := n mod 146097 in
  let n100 := Z.min (r400 / 36524) 3 in
  let r100 := r400 - 36524 * n100 in
  let n4 := r100 / 1461 in
  let r4 := r100 mod 1461 in
  let n1 := Z.min (r4 / 365) 3 in
  let y := 400 * n400 + 100 * n100 + 4 * n4 + n1 + 1 in
  let '(m, d) := month_day (is_leap y) (r4 - 365 * n1) in
  (y, m, d).

Definition days_of_civil (y m d : Z) : Z :=
  days_before_year y + days_before_month (is_leap y) m + (d - 1).

(** Check [p] on [start, start + n). *)
Fixpoint forall_range (p : Z → bool) (start : Z) (n : nat) : bool :=
  match n with
  | O => true
  | S n => p start && forall_range p (start + 1) n
  end.

Lemma forall_range_spec p start n x :
  forall_range p start n = true → start <= x < start + Z.of_nat n → p x = true.
Proof.
  revert start; induction n as [|n IH]; intros start; cbn; [lia|].
  intros [Hp Hr]%andb_true_iff Hx.
  destruct (decide (x = start)) as [->|]; [done|]. apply (IH (start + 1)); [done|lia].
Qed.

Definition month_day_ok (leap : bool) (doy : Z) : bool :=
  let '(m, d) := month_day leap doy in
  civil_ok (if leap then 4 else 1) m d && (days_before_month leap m + (d - 1) =? doy).

Lemma month_day_ok_all (leap : bool) doy :
  0 <= doy < 365 + (if leap then 1 else 0) → month_day_ok leap doy = true.
Proof.
  intros Hd. destruct leap.
  - apply (forall_range_spec (month_day_ok true) 0 366); [by vm_compute|lia].
  - apply (forall_range_spec (month_day_ok false) 0 365); [by vm_compute|lia].
Qed.

Lemma days_in_month_leap y m :
  days_in_month (if is_leap y then 4 else 1) m = days_in_month y m.
Proof. unfold days_in_month. by destruct (m =? 2), (is_leap y). Qed.

Lemma is_leap_cycles a b c d :
  0 <= b <= 3 → 0 <= c <= 24 → 0 <= d <= 3 →
  is_leap (400 * a + 100 * b + 4 * c + d + 1) =
  (d =? 3) && (negb (c =? 24) || (b =? 3)).
Proof.
  intros Hb Hc Hd. unfold is_leap.
  set (y := 400 * a + 100 * b + 4 * c + d + 1).
  pose proof (Z.div_mod y 4) as H4. pose proof (Z.mod_pos_bound y 4) as B4.
  pose proof (Z.div_mod y 100) as H100. pose proof (Z.mod_pos_bound y 100) as B100.
  pose proof (Z.div_mod y 400) as H400. pose proof (Z.mod_pos_bound y 400) as B400.
  apply eq_true_iff_eq. rewrite !andb_true_iff, !orb_true_iff, !negb_true_iff.
  rewrite !Z.eqb_eq, !Z.eqb_neq. lia.
Qed.

Lemma days_before_year_cycles a b c d :
  0 <= b <= 3 → 0 <= c <= 24 → 0 <= d <= 3 →
  days_before_year (400 * a + 100 * b + 4 * c + d + 1) =
  146097 * a + 36524 * b + 1461 * c + 365 * d.
Proof. intros Hb Hc Hd. unfold days_before_year. lia. Qed.

Lemma civil_of_days_spec n y m d :
  civil_of_days n = (y, m, d) →
  civil_ok y m d = true ∧ days_of_civil y m d = n.
Proof.
  unfold civil_of_days.
  set (a := n / 146097). set (r400 := n mod 146097).
  set (b := Z.min (r400 / 36524) 3). set (r100 := r400 - 36524 * b).
  set (c := r100 / 1461). set (r4 := r100 mod 1461). set (k := Z.min (r4 / 365) 3).
  assert (n = 146097 * a + r400 ∧ 0 <= r400 < 146097) as [Hn Hr] by lia.
  assert (r400 = 36524 * b + r100) as Hr400 by lia.
  assert (0 <= b <= 3 ∧ 0 <= r100 <= 36524 ∧ (r100 = 36524 → b = 3)) as (Hb & Hr100 & Hb') by lia.
  assert (r100 = 1461 * c + r4 ∧ 0 <= r4 < 1461 ∧ 0 <= c <= 24) as (Hc & Hr4 & Hc') by lia.
  assert (0 <= k <= 3 ∧ 0 <= r4 - 365 * k <= 365 ∧ (r4 - 365 * k = 365 → k = 3))
    as (Hk & Hdoy & Hk') by lia.
  clearbody a r400 b r100 c r4 k.
  set (y0 := 400 * a + 100 * b + 4 * c + k + 1).
  pose proof (is_leap_cycles a b c k Hb Hc' Hk) as Hleap. fold y0 in Hleap.
  pose proof (days_before_year_cycles a b c k Hb Hc' Hk) as Hdby. fold y0 in Hdby.
  pose proof (month_day_ok_all (is_leap y0) (r4 - 365 * k)) as Hmd.
  unfold month_day_ok in Hmd.
  destruct (month_day (is_leap y0) (r4 - 365 * k)) as [m0 d0].
  intros [= <- <- <-].
  assert (0 <= r4 - 365 * k < 365 + (if is_leap y0 then 1 else 0)) as Hlt.
  { rewrite Hleap. destruct (Z.eqb_spec k 3), (Z.eqb_spec c 24), (Z.eqb_spec b 3);
      cbv [andb orb negb]; lia. }
  apply andb_true_iff in Hmd as [Hok Heq]; [|done].
  unfold civil_ok in *. rewrite days_in_month_leap in Hok. split; [done|].
  unfold days_of_civil. rewrite Hdby. apply Z.eqb_eq in Heq. lia.
Qed.

(** ** Digits *)

Definition digit_char (n : Z) : ascii := Ascii.ascii_of_N (Z.to_N (48 + n)).

(** The [w] low decimal digits of [n], most significant first. *)
Fixpoint digits (w : nat) (n : Z) : string :=
  match w with
  | O => ""
  | S w => String (digit_char ((n / 10 ^ Z.of_nat w) mod 10)) (digits w n)
  end.

(** Read exactly [w] digits. *)
Fixpoint read_digits (w : nat) (acc : Z) (s : string) : option (Z * string) :=
  match w, s with
  | O, _ => Some (acc, s)
  | S w, String c s =>
      if is_digit_char c then read_digits w (acc * 10 + (ord c - 48)) s else None
  | S _, EmptyString => None
  end.

Lemma digit_char_range n : 0 <= n < 10 → In n [0;1;2;3;4;5;6;7;8;9].
Proof. intros ?. cbn. lia. Qed.

Ltac case_digit H :=
  apply digit_char_range in H; cbn in H;
  repeat destruct H as [H|H]; try subst; try done.

Lemma ord_digit_char n : 0 <= n < 10 → ord (digit_char n) = 48 + n.
Proof. intros H. by case_digit H. Qed.

Lemma is_digit_digit_char n : 0 <= n < 10 → is_digit_char (digit_char n) = true.
Proof. intros H. by case_digit H. Qed.

Lemma read_digits_app w acc n rest :
  read_digits w acc (digits w n +:+ rest) =
  Some (acc * 10 ^ Z.of_nat w + n mod 10 ^ Z.of_nat w, rest).
Proof.
  revert acc; induction w as [|w IH]; intros acc; cbn [digits read_digits].
  - change (10 ^ Z.of_nat 0) with 1. rewrite Z.mod_1_r. cbn. do 2 f_equal. lia.
  - set (q := (n / 10 ^ Z.of_nat w) mod 10).
    change (String (digit_char q) (digits w n) +:+ rest)
      with (String (digit_char q) (digits w n +:+ rest)).
    cbv iota beta.
    assert (0 <= q < 10) as Hq by (apply Z.mod_pos_bound; lia).
    rewrite is_digit_digit_char, ord_digit_char, IH by done. do 2 f_equal.
    rewrite Nat2Z.inj_succ, Z.pow_succ_r by lia.
    rewrite (Z.mul_comm 10), Z.rem_mul_r by lia. fold q. lia.
Qed.

Lemma read_digits_exact w n rest :
  0 <= n < 10 ^ Z.of_nat w → read_digits w 0 (digits w n +:+ rest) = Some (n, rest).
Proof. intros ?. rewrite read_digits_app, Z.mod_small by done. done. Qed.

#[global] Arguments digits : simpl never.
#[global] Arguments read_digits : simpl never.

(** ** [isoformat] *)

Definition US_PER_MINUTE : Z := 60 * US_PER_SECOND.
Definition US_PER_HOUR : Z := 3600 * US_PER_SECOND.

(** [".ffffff"], left out when zero. *)
Definition frac_str (us : Z) : string :=
  if us =? 0 then "" else "." +:+ digits 6 us.

Definition time_str (us : Z) : string :=
  digits 2 (us / US_PER_HOUR) +:+ ":" +:+ digits 2 (us / US_PER_MINUTE mod 60)
  +:+ ":" +:+ digits 2 (us / US_PER_SECOND mod 60)
  +:+ frac_str (us mod US_PER_SECOND).

Definition offset_str (o : Z) : string :=
  let a := Z.abs o in
  (if o <? 0 then "-" else "+")
  +:+ digits 2 (a / US_PER_HOUR) +:+ ":" +:+ digits 2 (a / US_PER_MINUTE mod 60)
  +:+ (if a mod US_PER_MINUTE =? 0 then ""
       else ":" +:+ digits 2 (a / US_PER_SECOND mod 60)
            +:+ frac_str (a mod US_PER_SECOND)).

(** [d.isoformat()]. *)
Definition isoformat (d : datetime) : string :=
  let '(y, m, dd) := civil_of_days (dt_local d / US_PER_DAY) in
  digits 4 y +:+ "-" +:+ digits 2 m +:+ "-" +:+ digits 2 dd
  +:+ "T" +:+ time_str (dt_local d mod US_PER_DAY)
  +:+ match dt_offset d with None => "" | Some o => offset_str o end.

(** ** [fromisoformat] *)

Definition read_char (c : ascii) (s : string) : option string :=
  match s with
  | String c' s => if bool_decide (c' = c) then Some s else None
  | EmptyString => None
  end.

(** Fraction digits: six count, the rest are read and dropped. *)
Fixpoint read_frac (scale acc : Z) (s : string) : Z * string :=
  match s with
  | String c s' =>
      if is_digit_char c then read_frac (scale / 10) (acc + (ord c - 48) * scale) s'
      else (acc, s)
  | EmptyString => (acc, s)
  end.

(** [.ffffff] or [,ffffff] after the seconds. *)
Definition read_opt_frac (s : string) : option (Z * string) :=
  match s with
  | String c (String d s') =>
      if is_char "." c || is_char "," c
      then if is_digit_char d then Some (read_frac 100000 0 (String d s')) else None
      else Some (0, s)
  | String c EmptyString =>
      if is_char "." c || is_char "," c then None else Some (0, s)
  | EmptyString => Some (0, s)
  end.

(** [:SS[.f]] after the minutes. *)
Definition read_opt_seconds (s : string) : option (Z * Z * string) :=
  match read_char ":" s with
  | None => Some (0, 0, s)
  | Some s =>
      '(se, s) ← read_digits 2 0 s;
      '(us, s) ← read_opt_frac s;
      Some (se, us, s)
  end.

(** [HH[:MM[:SS[.f]]]]. *)
Definition read_hms (s : string) : option (Z * Z * Z * Z * string) :=
  '(h, s) ← read_digits 2 0 s;
  match read_char ":" s with
  | None => Some (h, 0, 0, 0, s)
  | Some s =>
      '(mi, s) ← read_digits 2 0 s;
      '(se, us, s) ← read_opt_seconds s;
      Some (h, mi, se, us, s)
  end.

Definition hms_us (h mi se us : Z) : Z :=
  h * US_PER_HOUR + mi * US_PER_MINUTE + se * US_PER_SECOND + us.

Definition read_offset (s : string) : option (option Z) :=
  match s with
  | EmptyString => Some None
  | String c s =>
      if is_char "Z" c then (if bool_decide (s = "") then Some (Some 0) else None)
      else if is_char "+" c || is_char "-" c then
        '(h, mi, se, us, s) ← read_hms s;
        let o := if is_char "-" c then - hms_us h mi se us else hms_us h mi se us in
        if bool_decide (s = "") && (Z.abs o <? US_PER_DAY)
        then Some (Some o) else None
      else None
  end.

Definition read_date (s : string) : option (Z * string) :=
  '(y, s) ← read_digits 4 0 s; s ← read_char "-" s;
  '(m, s) ← read_digits 2 0 s; s ← read_char "-" s;
  '(d, s) ← read_digits 2 0 s;
  if (1 <=? y) && civil_ok y m d then Some (days_of_civil y m d, s) else None.

(** [datetime.fromisoformat(s)] on the extended format; [None] is
    [ValueError]. *)
Definition fromisoformat (s : string) : option datetime :=
  '(day, s) ← read_date s;
  match s with
  | EmptyString => Some (Datetime (day * US_PER_DAY) None)
  | String _ s =>
      '(h, mi, se, us, s) ← read_hms s;
      o ← read_offset s;
      if (h <? 24) && (mi <? 60) && (se <? 60)
      then Some (Datetime (day * US_PER_DAY + hms_us h mi se us) o) else None
  end.

(** [s.replace("Z", "+00:00")]. *)
Fixpoint replace_Z (s : string) : string :=
  match s with
  | EmptyString => EmptyString
  | String c s =>
      if is_char "Z" c then "+00:00" +:+ replace_Z s else String c (replace_Z s)
  end.

(** ** Round trip *)

Definition no_digit_head (s : string) : bool :=
  match s with String c _ => negb (is_digit_char c) | EmptyString => true end.

Lemma digit_of_range n w : 0 <= (n / 10 ^ Z.of_nat w) mod 10 < 10.
Proof. apply Z.mod_pos_bound. lia. Qed.

Lemma read_frac_step w scale acc n rest :
  read_frac scale acc (digits (S w) n +:+ rest) =
  read_frac (scale / 10) (acc + (n / 10 ^ Z.of_nat w) mod 10 * scale)
    (digits w n +:+ rest).
Proof.
  pose proof (digit_of_range n w) as Hq.
  change (digits (S w) n +:+ rest) with
    (String (digit_char ((n / 10 ^ Z.of_nat w) mod 10)) (digits w n +:+ rest)).
  set (q := (n / 10 ^ Z.of_nat w) mod 10) in *. clearbody q.
  cbn [read_frac]. rewrite is_digit_digit_char, ord_digit_char by done.
  f_equal. lia.
Qed.

Lemma read_frac_digits_gen w acc n rest :
  read_frac (10 ^ Z.of_nat w / 10) acc (digits w n +:+ rest) =
  read_frac 0 (acc + n mod 10 ^ Z.of_nat w) rest.
Proof.
  revert acc; induction w as [|w IH]; intros acc.
  - change (digits 0 n +:+ rest) with rest. change (10 ^ Z.of_nat 0) with 1.
    rewrite Z.mod_1_r, Z.add_0_r. done.
  - rewrite read_frac_step, Nat2Z.inj_succ, Z.pow_succ_r by lia.
    rewrite (Z.mul_comm 10), Z.div_mul, IH by lia. f_equal.
    rewrite Z.rem_mul_r by lia. lia.
Qed.

Lemma read_frac_digits n rest :
  0 <= n < 1000000 → no_digit_head rest = true →
  read_frac 100000 0 (digits 6 n +:+ rest) = (n, rest).
Proof.
  intros Hn Hrest. change 100000 with (10 ^ Z.of_nat 6 / 10).
  rewrite read_frac_digits_gen, Z.mod_small by exact Hn.
  rewrite Z.add_0_l. destruct rest as [|c rest]; cbn in *; [done|].
  by destruct (is_digit_char c).
Qed.

Lemma digits_head w n rest c s :
  digits (S w) n +:+ rest = String c s → is_digit_char c = true.
Proof. intros [= <- _]. apply is_digit_digit_char, digit_of_range. Qed.

Lemma read_opt_frac_str us rest :
  0 <= us < 1000000 → no_digit_head rest = true →
  match rest with String c _ => is_char "." c || is_char "," c | _ => false end = false →
  read_opt_frac (frac_str us +:+ rest) = Some (us, rest).
Proof.
  intros Hus Hr Hsep. unfold frac_str. destruct (Z.eqb_spec us 0) as [->|Hne].
  - rewrite append_nil_l. destruct rest as [|c [|c' rest]]; [done| |];
      cbn in *; by rewrite Hsep.
  - pose proof (read_frac_digits us rest Hus Hr) as Hrf.
    rewrite append_assoc, append_cons, append_nil_l.
    destruct (digits 6 us +:+ rest) as [|c s] eqn:Hd; [done|].
    unfold read_opt_frac. rewrite Hrf, (digits_head _ _ _ _ _ Hd). done.
Qed.

(** What may follow a time: the end of the string, or an offset. *)
Definition tz_head (s : string) : bool :=
  match s with
  | EmptyString => true
  | String c _ => is_char "+" c || is_char "-" c
  end.

Lemma tz_head_facts s :
  tz_head s = true →
  no_digit_head s = true ∧ read_char ":" s = None ∧
  match s with String c _ => is_char "." c || is_char "," c | _ => false end = false.
Proof.
  destruct s as [|c s]; [done|]. cbn. unfold is_char.
  intros [H%bool_decide_eq_true|H%bool_decide_eq_true]%orb_true_iff; by subst.
Qed.

Lemma read_char_eq c s : read_char c (String c s) = Some s.
Proof. cbn. by simpl_bd. Qed.

#[global] Arguments read_char : simpl never.

Lemma hms_us_split us :
  hms_us (us / US_PER_HOUR) (us / US_PER_MINUTE mod 60) (us / US_PER_SECOND mod 60)
    (us mod US_PER_SECOND) = us.
Proof. unfold hms_us, US_PER_HOUR, US_PER_MINUTE, US_PER_SECOND. lia. Qed.

Lemma read_hms_time_str us rest :
  0 <= us < US_PER_DAY → tz_head rest = true →
  read_hms (time_str us +:+ rest) =
  Some (us / US_PER_HOUR, us / US_PER_MINUTE mod 60, us / US_PER_SECOND mod 60,
        us mod US_PER_SECOND, rest).
Proof.
  intros Hus Hr. destruct (tz_head_facts _ Hr) as (Hnd & _ & Hsep).
  unfold time_str, read_hms, US_PER_DAY, US_PER_HOUR, US_PER_MINUTE, US_PER_SECOND in *.
  rewrite !append_assoc, !append_cons, !append_nil_l.
  rewrite read_digits_exact by (cbn -[Z.div]; lia). simpl.
  rewrite read_digits_exact by (cbn -[Z.div Z.modulo]; lia). simpl.
  unfold read_opt_seconds. rewrite read_char_eq.
  rewrite read_digits_exact by (cbn -[Z.div Z.modulo]; lia). simpl.
  rewrite read_opt_frac_str; [done|lia|done|done].
Qed.

Lemma read_hm h m X :
  0 <= h < 100 → 0 <= m < 100 →
  read_hms (digits 2 h +:+ ":" +:+ digits 2 m +:+ X) =
  '(se, us, s) ← read_opt_seconds X; Some (h, m, se, us, s).
Proof.
  intros Hh Hm. unfold read_hms.
  rewrite read_digits_exact by done. rewrite append_cons, append_nil_l. simpl.
  by rewrite read_digits_exact by done.
Qed.

Lemma read_offset_str o :
  - US_PER_DAY < o < US_PER_DAY → read_offset (offset_str o) = Some (Some o).
Proof.
  intros Ho. unfold US_PER_DAY, US_PER_SECOND in Ho.
  assert (∀ sgn, is_char "Z" sgn = false → is_char "+" sgn || is_char "-" sgn = true →
    (if is_char "-" sgn then - Z.abs o else Z.abs o) = o →
    read_offset (String sgn (digits 2 (Z.abs o / US_PER_HOUR) +:+ ":"
      +:+ digits 2 (Z.abs o / US_PER_MINUTE mod 60)
      +:+ (if Z.abs o mod US_PER_MINUTE =? 0 then ""
           else ":" +:+ digits 2 (Z.abs o / US_PER_SECOND mod 60)
                +:+ frac_str (Z.abs o mod US_PER_SECOND)))) = Some (Some o)) as Hgen.
  { intros sgn Hz Hs Hval. cbn [read_offset]. rewrite Hz, Hs.
    rewrite read_hm by (unfold US_PER_HOUR, US_PER_MINUTE, US_PER_SECOND; lia).
    pose proof (hms_us_split (Z.abs o)) as Hsplit.
    destruct (Z.eqb_spec (Z.abs o mod US_PER_MINUTE) 0) as [H0|H0].
    - assert (Z.abs o / US_PER_SECOND mod 60 = 0 ∧ Z.abs o mod US_PER_SECOND = 0)
        as [E1 E2] by (unfold US_PER_MINUTE, US_PER_SECOND in *; lia).
      rewrite E1, E2 in Hsplit. simpl. rewrite Hsplit, Hval.
      destruct (Z.ltb_spec (Z.abs o) US_PER_DAY); [done|].
      unfold US_PER_DAY, US_PER_SECOND in *; lia.
    - rewrite append_cons, append_nil_l. unfold read_opt_seconds.
      rewrite read_char_eq.
      rewrite read_digits_exact by (unfold US_PER_SECOND; cbn -[Z.modulo Z.div]; lia).
      simpl. rewrite <- (append_nil_r (frac_str _)).
      rewrite read_opt_frac_str by (done || (unfold US_PER_SECOND; lia)).
      simpl. rewrite Hsplit, Hval.
      destruct (Z.ltb_spec (Z.abs o) US_PER_DAY); [done|].
      unfold US_PER_DAY, US_PER_SECOND in *; lia. }
  unfold offset_str. destruct (Z.ltb_spec o 0).
  - apply (Hgen "-"%char); [done..|]. change (is_char "-" "-") with true. cbv iota. lia.
  - apply (Hgen "+"%char); [done..|]. change (is_char "-" "+") with false. cbv iota. lia.
Qed.

Lemma civil_year_range n y m d :
  0 <= n < MAX_DAYS → civil_of_days n = (y, m, d) → 1 <= y <= 9999.
Proof.
  unfold civil_of_days, MAX_DAYS. intros Hn.
  destruct (month_day _ _) as [m0 d0]. intros [= <- _ _]. lia.
Qed.

Lemma read_date_civil n y m d rest :
  0 <= n < MAX_DAYS → civil_of_days n = (y, m, d) →
  read_date (digits 4 y +:+ "-" +:+ digits 2 m +:+ "-" +:+ digits 2 d +:+ rest) =
  Some (n, rest).
Proof.
  intros Hn Hc. pose proof (civil_year_range _ _ _ _ Hn Hc) as Hy.
  destruct (civil_of_days_spec _ _ _ _ Hc) as [Hok Hinv].
  assert (1 <= m <= 12 ∧ 1 <= d <= 31) as [Hm Hd].
  { unfold civil_ok, days_in_month in Hok.
    destruct (m =? 2), (is_leap y), ((m =? 4) || (m =? 6) || (m =? 9) || (m =? 11)); lia. }
  unfold read_date. rewrite !append_cons, !append_nil_l.
  rewrite read_digits_exact by (cbn; lia). simpl.
  rewrite read_digits_exact by (cbn; lia). simpl.
  rewrite read_digits_exact by (cbn; lia). simpl.
  rewrite Hok, Hinv. destruct (Z.leb_spec 1 y); [done|lia].
Qed.

#[local] Arguments read_hms : simpl never.
#[local] Arguments time_str : simpl never.
#[local] Arguments offset_str : simpl never.

Lemma tz_head_offset o :
  tz_head (match o with None => "" | Some o => offset_str o end) = true.
Proof. destruct o as [o|]; [|done]. unfold offset_str. by destruct (o <? 0). Qed.

(** ISO text read back: the datetime [isoformat] printed. *)
Lemma fromisoformat_isoformat d :
  dt_valid d = true → fromisoformat (isoformat d) = Some d.
Proof.
  unfold dt_valid, isoformat, fromisoformat, MAX_LOCAL. intros Hv.
  assert (0 <= dt_local d / US_PER_DAY < MAX_DAYS) as Hn
    by (unfold MAX_DAYS, US_PER_DAY, US_PER_SECOND in *; lia).
  assert (0 <= dt_local d mod US_PER_DAY < US_PER_DAY) as Hus
    by (apply Z.mod_pos_bound; done).
  destruct (civil_of_days (dt_local d / US_PER_DAY)) as [[y m] dd] eqn:Hc.
  rewrite read_date_civil with (1 := Hn) (2 := Hc). simpl. rewrite ?append_nil_l.
  rewrite read_hms_time_str by (done || apply tz_head_offset). simpl.
  assert (read_offset (match dt_offset d with None => "" | Some o => offset_str o end)
          = Some (dt_offset d)) as ->.
  { destruct (dt_offset d) as [o|]; [|done]. apply read_offset_str. lia. }
  simpl. rewrite hms_us_split.
  replace (_ && _ && _) with true.
  - f_equal. destruct d as [l o]; cbn in *. f_equal. rewrite (Z.div_mod l US_PER_DAY) at 3; [lia|done].
  - unfold US_PER_DAY, US_PER_HOUR, US_PER_MINUTE, US_PER_SECOND in *. lia.
Qed.

(** ** The printed text *)

Lemma digits_forallb p w n :
  (∀ q, 0 <= q < 10 → p (digit_char q) = true) → string_forallb p (digits w n) = true.
Proof.
  intros Hp. induction w as [|w IH]; [done|].
  change (p (digit_char ((n / 10 ^ Z.of_nat w) mod 10)) && string_forallb p (digits w n) = true).
  rewrite Hp, IH by apply digit_of_range. done.
Qed.

Lemma length_digits w n : String.length (digits w n) = w.
Proof. induction w as [|w IH]; [done|]. change (S (String.length (digits w n)) = S w). by rewrite IH. Qed.

(** [isoformat] never prints a [Z]. *)
Definition not_Z (c : ascii) : bool := negb (is_char "Z" c).

Lemma isoformat_no_Z d : string_forallb not_Z (isoformat d) = true.
Proof.
  assert (∀ w n, string_forallb not_Z (digits w n) = true) as Hd.
  { intros w n. apply digits_forallb. intros q Hq. by case_digit Hq. }
  unfold isoformat, time_str, offset_str, frac_str.
  destruct (civil_of_days _) as [[y m] dd]. rewrite !string_forallb_app, !Hd.
  destruct (dt_offset d) as [o|];
    repeat match goal with |- context [if ?b then _ else _] => destruct b end;
    rewrite ?string_forallb_app, ?Hd; reflexivity.
Qed.

Lemma isoformat_length d : (1 <= String.length (isoformat d) <= 64)%nat.
Proof.
  unfold isoformat, time_str, offset_str, frac_str.
  destruct (civil_of_days _) as [[y m] dd].
  destruct (dt_offset d) as [o|];
    repeat match goal with |- context [if ?b then _ else _] => destruct b end;
    rewrite ?length_append, ?length_digits; cbn; lia.
Qed.

Lemma replace_Z_id s : string_forallb not_Z s = true → replace_Z s = s.
Proof.
  induction s as [|c s IH]; [done|]. cbn. intros [Hc Hs]%andb_true_iff.
  apply negb_true_iff in Hc. rewrite Hc. by rewrite IH.
Qed.

(** The text of [isoformat] is read back by the parsers of the stored
    payloads, which rewrite [Z] first. *)
Lemma parse_isoformat d :
  dt_valid d = true → fromisoformat (replace_Z (isoformat d)) = Some d.
Proof.
  intros Hv. rewrite replace_Z_id by apply isoformat_no_Z.
  by apply fromisoformat_isoformat.
Qed.
