(* ===== verification/Order.v ===== *)
(** * Orders and choices on lists

    The comparison of Python tuples and strings, [min(l, key=...)] and the
    median of a sorted list, as the selection and queue code uses them. *)

From S2P Require Import Prelude.

Open Scope Z_scope.

(** ** Lexicographic comparison *)

(** Comparison of two tuples of integers. *)
Fixpoint lex_cmp (a b : list Z) : comparison :=
  match a, b with
  | [], [] => Eq
  | [], _ => Lt
  | _, [] => Gt
  | x :: a, y :: b =>
      match x ?= y with
      | Eq => lex_cmp a b
      | c => c
      end
  end.

(** The code points of a string. *)
Fixpoint codes (s : string) : list Z :=
  match s with
  | EmptyString => []
  | String c s => ord c :: codes s
  end.

(** [s < t] compares code points. *)
Definition str_cmp (s t : string) : comparison := lex_cmp (codes s) (codes t).

(** A comparison that decides equality, is antisymmetric and transitive. *)
Class TotalCmp {A} (cmp : A → A → comparison) : Prop := {
  cmp_eq x y : cmp x y = Eq ↔ x = y;
  cmp_antisym x y : cmp y x = CompOpp (cmp x y);
  cmp_trans x y z : cmp x y = Lt → cmp y z = Lt → cmp x z = Lt;
}.

#[export] Instance Z_cmp_total : TotalCmp Z.compare.
Proof.
  split; intros.
  - by rewrite Z.compare_eq_iff.
  - apply Z.compare_antisym.
  - rewrite Z.compare_lt_iff in *. lia.
Qed.

Lemma lex_cmp_eq a b : lex_cmp a b = Eq ↔ a = b.
Proof.
  revert b; induction a as [|x a IH]; intros [|y b]; cbn; try naive_solver.
  destruct (x ?= y) eqn:Hxy; [apply Z.compare_eq_iff in Hxy as ->|..].
  - rewrite IH. naive_solver.
  - split; [done|]. intros [= -> ->]. by rewrite Z.compare_refl in Hxy.
  - split; [done|]. intros [= -> ->]. by rewrite Z.compare_refl in Hxy.
Qed.

Lemma lex_cmp_antisym a b : lex_cmp b a = CompOpp (lex_cmp a b).
Proof.
  revert b; induction a as [|x a IH]; intros [|y b]; cbn; try done.
  rewrite (Z.compare_antisym x y). destruct (x ?= y); cbn; auto.
Qed.

Lemma lex_cmp_trans a b c : lex_cmp a b = Lt → lex_cmp b c = Lt → lex_cmp a c = Lt.
Proof.
  revert b c; induction a as [|x a IH]; intros [|y b] [|z c]; cbn; try done.
  destruct (x ?= y) eqn:Hxy; try done;
    destruct (y ?= z) eqn:Hyz; try done;
    rewrite ?Z.compare_eq_iff, ?Z.compare_lt_iff in *; subst; intros H1 H2.
  - rewrite Z.compare_refl. eauto.
  - by rewrite (proj2 (Z.compare_lt_iff _ _) Hyz).
  - by rewrite (proj2 (Z.compare_lt_iff _ _) Hxy).
  - by rewrite (proj2 (Z.compare_lt_iff x z)) by lia.
Qed.

#[export] Instance lex_cmp_total : TotalCmp lex_cmp.
Proof. split; [apply lex_cmp_eq|apply lex_cmp_antisym|apply lex_cmp_trans]. Qed.

Lemma ord_inj c d : ord c = ord d → c = d.
Proof.
  unfold ord. intros H%N2Z.inj. by rewrite <- (Ascii.ascii_N_embedding c), H,
    Ascii.ascii_N_embedding.
Qed.

Lemma codes_inj s t : codes s = codes t → s = t.
Proof.
  revert t; induction s as [|c s IH]; intros [|d t]; cbn; try done.
  intros [= Hc%ord_inj Ht%IH]. by subst.
Qed.

#[export] Instance str_cmp_total : TotalCmp str_cmp.
Proof.
  unfold str_cmp. split; intros.
  - rewrite cmp_eq. split; [apply codes_inj|by intros ->].
  - apply cmp_antisym.
  - by eapply cmp_trans.
Qed.

(** A pair is compared by its first component, then by its second. *)
Definition pair_cmp {A B} (ca : A → A → comparison) (cb : B → B → comparison)
  (p q : A * B) : comparison :=
  match ca p.1 q.1 with
  | Eq => cb p.2 q.2
  | c => c
  end.

#[export] Instance pair_cmp_total {A B} (ca : A → A → comparison) (cb : B → B → comparison)
  `{!TotalCmp ca, !TotalCmp cb} : TotalCmp (pair_cmp ca cb).
Proof.
  unfold pair_cmp. split.
  - intros [a b] [a' b']; cbn. destruct (ca a a') eqn:Ha.
    + apply cmp_eq in Ha as ->. rewrite (cmp_eq (cmp:=cb)). naive_solver.
    + split; [done|]. intros [= -> ->].
      by rewrite (proj2 (cmp_eq a' a') eq_refl) in Ha.
    + split; [done|]. intros [= -> ->].
      by rewrite (proj2 (cmp_eq a' a') eq_refl) in Ha.
  - intros [a b] [a' b']; cbn. rewrite (cmp_antisym a a').
    destruct (ca a a') eqn:Ha; cbn; [exact (cmp_antisym (cmp:=cb) b b')|done..].
  - intros [a b] [a' b'] [a'' b'']; cbn.
    destruct (ca a a') eqn:H1; try done; destruct (ca a' a'') eqn:H2; try done.
    + apply cmp_eq in H1 as ->, H2 as ->.
      rewrite (proj2 (cmp_eq (cmp:=ca) a'' a'') eq_refl). exact (cmp_trans (cmp:=cb) b b' b'').
    + apply cmp_eq in H1 as ->. by rewrite H2.
    + apply cmp_eq in H2 as ->. by rewrite H1.
    + by rewrite (cmp_trans _ _ _ H1 H2).
Qed.

Section cmp.
#[local] Set Default Proof Using "Type*".
Context {K : Type} (cmp : K → K → comparison) `{!TotalCmp cmp}.

Definition cmp_ltb (x y : K) : bool := match cmp x y with Lt => true | _ => false end.
Definition cmp_le (x y : K) : Prop := cmp_ltb y x = false.

Lemma cmp_refl x : cmp x x = Eq.
Proof. by apply cmp_eq. Qed.

Lemma cmp_le_refl x : cmp_le x x.
Proof. unfold cmp_le, cmp_ltb. by rewrite cmp_refl. Qed.

Lemma cmp_ltb_le x y : cmp_ltb x y = true → cmp_le x y.
Proof.
  unfold cmp_le, cmp_ltb. rewrite (cmp_antisym x y).
  by destruct (cmp x y).
Qed.

Lemma cmp_le_trans x y z : cmp_le x y → cmp_le y z → cmp_le x z.
Proof.
  unfold cmp_le, cmp_ltb. rewrite (cmp_antisym x y), (cmp_antisym y z), (cmp_antisym x z).
  destruct (cmp x y) eqn:H1; cbn; try done;
    destruct (cmp y z) eqn:H2; cbn; try done.
  - apply cmp_eq in H1 as ->, H2 as ->. by rewrite cmp_refl.
  - apply cmp_eq in H1 as ->. by rewrite H2.
  - apply cmp_eq in H2 as ->. by rewrite H1.
  - by rewrite (cmp_trans _ _ _ H1 H2).
Qed.

Lemma cmp_le_antisym x y : cmp_le x y → cmp_le y x → x = y.
Proof.
  unfold cmp_le, cmp_ltb. rewrite (cmp_antisym x y).
  destruct (cmp x y) eqn:H1; try done. by apply cmp_eq in H1.
Qed.

Lemma cmp_le_total x y : cmp_le x y ∨ cmp_le y x.
Proof.
  unfold cmp_le, cmp_ltb. rewrite (cmp_antisym x y). destruct (cmp x y); cbn; auto.
Qed.

(** [min(x :: l, key=key)]: the first element whose key is least. *)
Definition min_by {A} (key : A → K) (x : A) (l : list A) : A :=
  foldl (λ best y, if cmp_ltb (key y) (key best) then y else best) x l.

Lemma min_by_cons {A} (key : A → K) x y l :
  min_by key x (y :: l) = min_by key (if cmp_ltb (key y) (key x) then y else x) l.
Proof. done. Qed.

Lemma min_by_elem {A} (key : A → K) x l : min_by key x l ∈ x :: l.
Proof.
  revert x; induction l as [|y l IH]; intros x; [by left|].
  rewrite min_by_cons, !elem_of_cons. destruct (cmp_ltb _ _).
  - right. apply elem_of_cons, IH.
  - specialize (IH x). rewrite elem_of_cons in IH. naive_solver.
Qed.

Lemma min_by_head {A} (key : A → K) x l : cmp_le (key (min_by key x l)) (key x).
Proof.
  revert x; induction l as [|y l IH]; intros x; [apply cmp_le_refl|].
  rewrite min_by_cons. destruct (cmp_ltb _ _) eqn:Hlt; [|apply IH].
  eapply cmp_le_trans; [apply IH|]. by apply cmp_ltb_le.
Qed.

Lemma min_by_least {A} (key : A → K) x l y :
  y ∈ x :: l → cmp_le (key (min_by key x l)) (key y).
Proof.
  revert x; induction l as [|z l IH]; intros x.
  - intros ->%list_elem_of_singleton. apply cmp_le_refl.
  - rewrite min_by_cons, !elem_of_cons. intros [->|[->|Hy]].
    + destruct (cmp_ltb _ _) eqn:Hlt; [|apply min_by_head].
      eapply cmp_le_trans; [apply min_by_head|by apply cmp_ltb_le].
    + destruct (cmp_ltb _ _) eqn:Hlt; [apply min_by_head|].
      eapply cmp_le_trans; [apply min_by_head|done].
    + apply IH. by right.
Qed.

(** On equal keys the first element wins. *)
Lemma min_by_first {A} (key : A → K) x l :
  ∃ l1 l2, x :: l = l1 ++ min_by key x l :: l2 ∧
    Forall (λ y, cmp_ltb (key (min_by key x l)) (key y) = true) l1.
Proof.
  revert x; induction l as [|z l IH]; intros x; [by exists [], []|].
  rewrite min_by_cons. destruct (cmp_ltb (key z) (key x)) eqn:Hlt.
  - destruct (IH z) as (l1 & l2 & Heq & Hall). exists (x :: l1), l2.
    rewrite Heq. split; [done|]. constructor; [|done].
    pose proof (min_by_head key z l) as Hle. revert Hlt Hle.
    unfold cmp_le, cmp_ltb. set (m := key (min_by key z l)).
    destruct (cmp (key z) (key x)) eqn:H1; try done. intros _.
    rewrite (cmp_antisym m (key z)). destruct (cmp m (key z)) eqn:H2; cbn; try done; intros _.
    + apply cmp_eq in H2. by rewrite H2, H1.
    + by rewrite (cmp_trans _ _ _ H2 H1).
  - destruct (IH x) as (l1 & l2 & Heq & Hall).
    destruct l1 as [|x' l1]; cbn in Heq; injection Heq as Hx Hl.
    + exists [], (z :: l). by rewrite <- Hx.
    + exists (x' :: z :: l1), l2. split; [cbn; congruence|].
      apply Forall_cons in Hall as [Hx' Hall']. constructor; [done|].
      constructor; [|done]. rewrite <- Hx in Hx'. revert Hlt Hx'. unfold cmp_ltb.
      rewrite (cmp_antisym (key x) (key z)).
      set (m := key (min_by key x l)). destruct (cmp (key x) (key z)) eqn:H1; cbn; try done; intros _.
      * apply cmp_eq in H1. by rewrite H1.
      * destruct (cmp m (key x)) eqn:H2; try done. by rewrite (cmp_trans _ _ _ H2 H1).
Qed.

(** With distinct keys the choice does not depend on the order. *)
Lemma min_by_perm {A} (key : A → K) x l y k :
  (∀ a b, a ∈ x :: l → b ∈ x :: l → key a = key b → a = b) →
  x :: l ≡ₚ y :: k → min_by key x l = min_by key y k.
Proof.
  intros Hinj Hp.
  assert (Hmem : min_by key y k ∈ x :: l) by (rewrite Hp; apply min_by_elem).
  apply Hinj; [apply min_by_elem|done|].
  apply cmp_le_antisym; [by apply min_by_least|].
  apply min_by_least. rewrite <- Hp. apply min_by_elem.
Qed.
(** [sorted(l, key=key)]: insertion from the left, after equal keys. *)
Fixpoint insert_by {A} (key : A → K) (x : A) (l : list A) : list A :=
  match l with
  | [] => [x]
  | y :: l => if cmp_ltb (key x) (key y) then x :: y :: l else y :: insert_by key x l
  end.

Definition sort_by {A} (key : A → K) (l : list A) : list A :=
  foldl (λ acc x, insert_by key x acc) [] l.

Definition key_le {A} (key : A → K) (x y : A) : Prop := cmp_le (key x) (key y).

Lemma insert_by_perm {A} (key : A → K) x l : insert_by key x l ≡ₚ x :: l.
Proof.
  induction l as [|y l IH]; cbn; [done|]. destruct (cmp_ltb _ _); [done|].
  rewrite IH. by constructor.
Qed.

Lemma insert_by_sorted {A} (key : A → K) x l :
  StronglySorted (key_le key) l → StronglySorted (key_le key) (insert_by key x l).
Proof.
  induction 1 as [|y l Hl IH Hy]; cbn; [by repeat constructor|].
  destruct (cmp_ltb _ _) eqn:Hlt.
  - apply cmp_ltb_le in Hlt. constructor; [by constructor|]. constructor; [done|].
    eapply Forall_impl; [exact Hy|]. intros z Hz. by eapply cmp_le_trans.
  - constructor; [done|]. rewrite insert_by_perm. by constructor.
Qed.

Lemma sort_by_acc {A} (key : A → K) l acc :
  foldl (λ acc x, insert_by key x acc) acc l ≡ₚ acc ++ l ∧
  (StronglySorted (key_le key) acc →
   StronglySorted (key_le key) (foldl (λ acc x, insert_by key x acc) acc l)).
Proof.
  revert acc; induction l as [|x l IH]; intros acc; cbn; [by rewrite app_nil_r|].
  destruct (IH (insert_by key x acc)) as [Hp Hs]. split.
  - rewrite Hp, insert_by_perm. cbn. by rewrite <- Permutation_middle.
  - intros Ha. by apply Hs, insert_by_sorted.
Qed.

Lemma sort_by_perm {A} (key : A → K) l : sort_by key l ≡ₚ l.
Proof. apply (sort_by_acc key l []). Qed.

Lemma sort_by_sorted {A} (key : A → K) l : StronglySorted (key_le key) (sort_by key l).
Proof. apply (sort_by_acc key l []). constructor. Qed.

(** With distinct keys there is one sorted arrangement. *)
Lemma sorted_unique {A} (key : A → K) l k :
  (∀ a b, a ∈ l → b ∈ l → key a = key b → a = b) → l ≡ₚ k →
  StronglySorted (key_le key) l → StronglySorted (key_le key) k → l = k.
Proof.
  intros Hinj Hp Hl. revert k Hinj Hp.
  induction Hl as [|x l Hl IH Hx]; intros k Hinj Hp Hk.
  - by apply Permutation_nil_l in Hp.
  - destruct Hk as [|y k Hk Hy]; [by apply Permutation_nil_r in Hp|].
    assert (x = y) as ->.
    { apply Hinj; [by left|rewrite Hp; by left|]. apply cmp_le_antisym.
      - assert (y ∈ x :: l) as [->|?]%elem_of_cons by (rewrite Hp; by left);
          [apply cmp_le_refl|]. by eapply Forall_forall in Hx.
      - assert (x ∈ y :: k) as [->|?]%elem_of_cons by (rewrite <- Hp; by left);
          [apply cmp_le_refl|]. by eapply Forall_forall in Hy. }
    f_equal. apply IH; [|by apply Permutation_cons_inv in Hp|done].
    intros a b Ha Hb. apply Hinj; by right.
Qed.
End cmp.

(** ** The lower median *)

#[export] Instance Z_le_total : Total Z.le.
Proof. intros x y. lia. Qed.

(** [sorted(l)]. *)
Definition py_sorted_Z (l : list Z) : list Z := merge_sort Z.le l.

Lemma py_sorted_Z_perm l : py_sorted_Z l ≡ₚ l.
Proof. apply merge_sort_Permutation. Qed.

Lemma py_sorted_Z_sorted l : StronglySorted Z.le (py_sorted_Z l).
Proof. apply (StronglySorted_merge_sort Z.le). Qed.

(** Number of elements satisfying [p]. *)
Definition count (p : Z → bool) (l : list Z) : nat := length (List.filter p l).

Lemma count_perm p l k : l ≡ₚ k → count p l = count p k.
Proof.
  unfold count. induction 1 as [|x l k _ IH|x y l|l1 l2 l3 _ IH1 _ IH2]; cbn; try done.
  - destruct (p x); cbn; congruence.
  - by destruct (p x), (p y).
  - congruence.
Qed.

Lemma count_app p l k : count p (l ++ k) = (count p l + count p k)%nat.
Proof. unfold count. rewrite List.filter_app. apply length_app. Qed.

Lemma count_all p l : Forall (λ x, p x = true) l → count p l = length l.
Proof. unfold count. induction 1 as [|x l Hx _ IH]; cbn; [done|]. rewrite Hx. cbn. lia. Qed.

(** In a sorted list at least [i + 1] elements are at most the [i]-th, and at
    least [length l - i] are at least it. *)
Lemma sorted_rank l i v :
  StronglySorted Z.le l → l !! i = Some v →
  (i + 1 <= count (λ x, x <=? v)%Z l)%nat ∧ (length l - i <= count (λ x, v <=? x)%Z l)%nat.
Proof.
  intros Hs Hi. apply list_elem_of_split_length in Hi as (l1 & l2 & -> & ->).
  apply StronglySorted_app in Hs as (H1 & Hs1 & Hs2).
  apply StronglySorted_cons in Hs2 as [Hv Hs2].
  change (v :: l2) with ([v] ++ l2).
  rewrite !count_app, !length_app.
  assert (Ha : count (λ x, x <=? v) l1 = length l1).
  { apply count_all, Forall_forall. intros x Hx. apply Z.leb_le, H1; [done|by left]. }
  assert (Hb : count (λ x, v <=? x) l2 = length l2).
  { apply count_all. eapply Forall_impl; [done|]. intros x ?. by apply Z.leb_le. }
  rewrite Ha, Hb. unfold count. cbn. rewrite Z.leb_refl. cbn. lia.
Qed.
