(* ===== verification/DynamicPool.v ===== *)
(** * Dynamic pool bindings

    [src/src/the_hive/dynamic_pool.py]: the immutable account/pool/provider
    binding, its private persistence payload, the injected inventory, and the
    fresh check against the pool authorities of a usage evidence.  The
    evidence reader is a callable the caller injects: a [result], since it may
    raise. *)

From S2P Require Import Prelude PyTime.

(** ** Identifier patterns *)

Definition in_alnum (c : ascii) : bool := is_lower c || is_upper c || is_digit_char c.

(** [[A-Za-z0-9_.-]{1,max}] *)
Definition agent_pattern (max : Z) (s : string) : bool :=
  (1 <=? py_len s) && (py_len s <=? max)
  && string_forallb (λ c, in_alnum c || is_char "_" c || is_char "." c || is_char "-" c) s.

(** A first class, then at most [max] characters of a second class. *)
Definition head_tail_pattern (first rest : ascii → bool) (max : Z) (s : string) : bool :=
  match s with
  | EmptyString => false
  | String c t => first c && (py_len t <=? max) && string_forallb rest t
  end.

Definition _ACCOUNT_RE : string → bool := agent_pattern 64.
Definition _AGENT_RE : string → bool := agent_pattern 128.
Definition _POOL_RE : string → bool :=
  head_tail_pattern (λ c, is_lower c || is_digit_char c)
    (λ c, is_lower c || is_digit_char c || is_char "." c || is_char "_" c || is_char "-" c) 63.
Definition _PROVIDER_RE : string → bool :=
  head_tail_pattern is_lower (λ c, is_lower c || is_digit_char c || is_char "-" c) 31.
Definition _RUNTIME_PROVIDER_RE : string → bool :=
  head_tail_pattern is_lower
    (λ c, is_lower c || is_digit_char c || is_char "_" c || is_char "-" c) 63.

(** ** The binding *)

Record AccountPoolBindingV1 := {
  account_id : string;
  pool_id : string;
  authority_provider : string;
  runtime_provider : option string;
}.

#[export] Instance AccountPoolBindingV1_eq_dec : EqDecision AccountPoolBindingV1.
Proof. solve_decision. Defined.

(** [isinstance(value, str)] and a pattern. *)
Definition matching_str (p : string → bool) (v : pyval) (e : exn) : result string :=
  match v with
  | VStr s => if p s then Ok s else Err e
  | _ => Err e
  end.

(** A [str | None] dataclass argument. *)
Definition opt_str (o : option string) : pyval :=
  match o with Some s => VStr s | None => VNone end.

(** [AccountPoolBindingV1(...)] with its [__post_init__]. *)
Definition AccountPoolBindingV1_new (account pool provider runtime : pyval)
  : result AccountPoolBindingV1 :=
  a ← matching_str (λ s, negb (bool_decide (s ∈ ["."; ".."])) && _ACCOUNT_RE s) account
        (DynamicPoolBindingError "invalid_dynamic_pool_account");
  p ← matching_str _POOL_RE pool (DynamicPoolBindingError "invalid_dynamic_pool_id");
  pr ← matching_str _PROVIDER_RE provider
        (DynamicPoolBindingError "invalid_dynamic_pool_authority_provider");
  rp ← match runtime with
       | VNone => Ok None
       | v => s ← matching_str _RUNTIME_PROVIDER_RE v
                    (DynamicPoolBindingError "invalid_dynamic_pool_runtime_provider");
              Ok (Some s)
       end;
  Ok {| account_id := a; pool_id := p; authority_provider := pr; runtime_provider := rp |}.

(** The [provider] property. *)
Definition provider (b : AccountPoolBindingV1) : string := authority_provider b.

Definition _make_account_pool_binding_v1 (account pool provider runtime : pyval)
  : result AccountPoolBindingV1 :=
  AccountPoolBindingV1_new account pool provider runtime.

Definition account_pool_binding_payload (b : AccountPoolBindingV1)
  : list (string * pyval) :=
  [ ("account_id", VStr (account_id b));
    ("pool_id", VStr (pool_id b));
    ("authority_provider", VStr (authority_provider b));
    ("runtime_provider", opt_str (runtime_provider b)) ].

Definition binding_fields : list string :=
  ["account_id"; "pool_id"; "authority_provider"; "runtime_provider"].

(** [d[k]]. *)
Definition getitem (k : string) (d : list (string * pyval)) : result pyval :=
  match dict_get k d with Some v => Ok v | None => Err (KeyError k) end.

Lemma bind_getitem {A} k d v (f : pyval → result A) :
  dict_get k d = Some v → getitem k d ≫= f = f v.
Proof. intros H. unfold getitem. by rewrite H. Qed.

(** [run_getitem] evaluates the lookups of a decoder applied to a literal
    mapping, one [bind] at a time. *)
Ltac run_getitem :=
  repeat first
    [ rewrite bind_ret; cbv beta
    | erewrite bind_getitem by reflexivity; cbv beta ].

Definition account_pool_binding_from_payload (raw : pyval) : result AccountPoolBindingV1 :=
  match raw with
  | VDict d =>
      if keys_exactly d binding_fields then
        a ← getitem "account_id" d;
        p ← getitem "pool_id" d;
        pr ← getitem "authority_provider" d;
        rp ← getitem "runtime_provider" d;
        _make_account_pool_binding_v1 a p pr rp
      else Err (DynamicPoolBindingError "invalid_dynamic_pool_binding")
  | _ => Err (DynamicPoolBindingError "invalid_dynamic_pool_binding")
  end.

(** A binding the constructor accepts (and hence every binding there is). *)
Definition binding_wf (b : AccountPoolBindingV1) : Prop :=
  AccountPoolBindingV1_new (VStr (account_id b)) (VStr (pool_id b))
    (VStr (authority_provider b)) (opt_str (runtime_provider b)) = Ok b.

Lemma matching_str_Ok p v e s :
  matching_str p v e = Ok s ↔ v = VStr s ∧ p s = true.
Proof.
  destruct v; cbn; try (split; [done|by intros [? ?]]).
  destruct (p s0) eqn:Hp; naive_solver congruence.
Qed.

(** Every binding that exists passed its own constructor. *)
Lemma AccountPoolBindingV1_new_wf a p pr rp b :
  AccountPoolBindingV1_new a p pr rp = Ok b → binding_wf b.
Proof.
  unfold AccountPoolBindingV1_new, binding_wf. intros H.
  apply bind_Ok in H as (sa & [-> Ha]%matching_str_Ok & H).
  apply bind_Ok in H as (sp & [-> Hp]%matching_str_Ok & H).
  apply bind_Ok in H as (spr & [-> Hpr]%matching_str_Ok & H).
  apply bind_Ok in H as (srp & Hrp & [= <-]).
  unfold AccountPoolBindingV1_new. cbn [matching_str account_id pool_id authority_provider
    runtime_provider]. rewrite Ha, Hp, Hpr. simpl.
  destruct rp; simpl in Hrp; inv_result; try done.
  destruct (_RUNTIME_PROVIDER_RE s) eqn:Hre; inv_result. by rewrite Hre.
Qed.

Lemma binding_payload_roundtrip b :
  binding_wf b →
  account_pool_binding_from_payload (VDict (account_pool_binding_payload b)) = Ok b.
Proof. intros Hwf. unfold account_pool_binding_from_payload. cbn. exact Hwf. Qed.

(** ** The inventory *)

(** An inventory entry carries the same four fields and validates them by
    building a binding it drops. *)
Record DynamicPoolInventoryEntryV1 := {
  entry_account_id : string;
  entry_pool_id : string;
  entry_authority_provider : string;
  entry_runtime_provider : option string;
}.

Definition entry_binding (e : DynamicPoolInventoryEntryV1) : result AccountPoolBindingV1 :=
  _make_account_pool_binding_v1 (VStr (entry_account_id e)) (VStr (entry_pool_id e))
    (VStr (entry_authority_provider e)) (opt_str (entry_runtime_provider e)).

Definition DynamicPoolInventoryEntryV1_new (account pool provider runtime : pyval)
  : result DynamicPoolInventoryEntryV1 :=
  b ← _make_account_pool_binding_v1 account pool provider runtime;
  Ok {| entry_account_id := account_id b; entry_pool_id := pool_id b;
        entry_authority_provider := authority_provider b;
        entry_runtime_provider := runtime_provider b |}.

Record DynamicPoolInventoryV1 := {
  entries_by_agent : list (string * DynamicPoolInventoryEntryV1);
}.

Definition DynamicPoolInventoryV1_new (entries : list (string * DynamicPoolInventoryEntryV1))
  : result DynamicPoolInventoryV1 :=
  _ ← require (Z.of_nat (length entries) <=? 256)
        (DynamicPoolBindingError "invalid_dynamic_pool_inventory");
  _ ← require (forallb (λ kv, _AGENT_RE kv.1) entries)
        (DynamicPoolBindingError "invalid_dynamic_pool_inventory");
  Ok {| entries_by_agent := entries |}.

Definition entry_for (inv : DynamicPoolInventoryV1) (agent_id : string)
  : result DynamicPoolInventoryEntryV1 :=
  if _AGENT_RE agent_id then
    match dict_get agent_id (entries_by_agent inv) with
    | Some e => Ok e
    | None => Err (DynamicPoolBindingError "dynamic_pool_binding_missing")
    end
  else Err (DynamicPoolBindingError "dynamic_pool_binding_missing").

(** ** The authority check *)

(** [PoolAuthorityV2] of [usage_snapshot.py]. *)
Record PoolAuthorityV2 := {
  pa_account_id : string;
  pa_pool_id : string;
  pa_provider : string;
  pa_allowed_lifecycles : list string;
  pa_allowed_model_families : list string;
  pa_hive_available : bool;
  pa_persistent_leadership_eligible : bool;
  pa_long_running_leadership_eligible : bool;
  pa_reasoning_minimum : string;
  pa_reasoning_maximum : string;
}.

(** The reader status and authorities of a [UsageEvidenceV2]; its usage
    accounts and model projection are not read by the modelled code. *)
Record UsageEvidenceV2 := {
  ue_status : string;
  ue_captured_at : option datetime;
  ue_generated_at : option datetime;
  ue_pool_authorities : list PoolAuthorityV2;
  ue_generation_id : option string;
}.

Definition authority_matches (b : AccountPoolBindingV1) (a : PoolAuthorityV2) : bool :=
  bool_decide (pa_account_id a = account_id b)
  && bool_decide (pa_pool_id a = pool_id b)
  && bool_decide (pa_provider a = authority_provider b).

Definition exact_pool_authority_revalidation (b : AccountPoolBindingV1)
  (reader : result UsageEvidenceV2) : bool :=
  match reader with
  | Err _ => false
  | Ok evidence =>
      if bool_decide (ue_status evidence = "complete") then
        match List.filter (authority_matches b) (ue_pool_authorities evidence) with
        | [a] => pa_hive_available a
        | _ => false
        end
      else false
  end.
