(* ===== verification/Admission.v ===== *)
(** * Admission records

    [src/src/the_hive/admission.py], lines 34 to 322 and 769 to 1030: the
    bindings and the versioned admission record with the checks of their
    [__post_init__], the transition graph and [advance], the public view and
    the private persistence payload with its decoder. *)

From S2P Require Import Prelude PyTime DynamicPool.

Definition DEFAULT_RESERVATION_TTL_SECONDS : Z := 30.
Definition MAX_RESERVATION_TTL_SECONDS : Z := 120.
Definition MAX_ADMISSION_ID_LENGTH : Z := 128.
Definition MAX_SCOPE_PATHS : Z := 256.
Definition MAX_SCOPE_PATH_LENGTH : Z := 512.
Definition MAX_RESOURCE_USAGE_MICRO : Z := 10 ^ 18.
Definition MAX_STORED_ADMISSIONS : Z := 4096.

(** ** Scalar checks *)

Definition text_ok (maximum : Z) (s : string) : bool :=
  (1 <=? py_len s) && (py_len s <=? maximum) && negb (has_control s).

Definition _bounded_text (v : pyval) (code : string) (maximum : Z) : result string :=
  match v with
  | VStr s => if text_ok maximum s then Ok s else Err (AdmissionError code)
  | _ => Err (AdmissionError code)
  end.

(** A [bool] is not accepted where an [int] is expected. *)
Definition _bounded_int (v : pyval) (code : string) (minimum maximum : Z) : result Z :=
  match v with
  | VInt z => if (minimum <=? z) && (z <=? maximum) then Ok z else Err (AdmissionError code)
  | _ => Err (AdmissionError code)
  end.

Definition _aware (d : datetime) (code : string) : result datetime :=
  if dt_aware d then Ok d else Err (AdmissionError code).

Lemma _bounded_text_Ok v code m s :
  _bounded_text v code m = Ok s ↔ v = VStr s ∧ text_ok m s = true.
Proof.
  destruct v; cbn; try (split; [done|by intros [? ?]]).
  destruct (text_ok m s0) eqn:Hp; naive_solver congruence.
Qed.

Lemma _bounded_int_Ok v code lo hi z :
  _bounded_int v code lo hi = Ok z ↔ v = VInt z ∧ lo <= z <= hi.
Proof.
  destruct v as [| |z'| | | |]; cbn; try (split; [done|by intros [? ?]]).
  destruct (_ && _) eqn:Hp.
  - split; [intros [= <-]; split; [done|lia]|by intros [[= ->] ?]].
  - split; [done|]. intros [[= ->] ?]. lia.
Qed.

Lemma _aware_Ok d code d' : _aware d code = Ok d' ↔ d' = d ∧ dt_aware d = true.
Proof. unfold _aware. destruct (dt_aware d); naive_solver. Qed.

(** ** States *)

Inductive AdmissionState :=
  | PLANNED | RESERVED | REVALIDATING | ADMITTED | EXECUTING | PAUSED
  | FINALIZED | CONFLICT | EXPIRED | DENIED | EXECUTION_FAILED
  | COMPENSATING | FAILED_FINAL | RECOVERED_AFTER_CRASH | CANCELLED
  | COMPENSATED.

#[export] Instance AdmissionState_eq_dec : EqDecision AdmissionState.
Proof. solve_decision. Defined.

Definition all_states : list AdmissionState :=
  [ PLANNED; RESERVED; REVALIDATING; ADMITTED; EXECUTING; PAUSED; FINALIZED;
    CONFLICT; EXPIRED; DENIED; EXECUTION_FAILED; COMPENSATING; FAILED_FINAL;
    RECOVERED_AFTER_CRASH; CANCELLED; COMPENSATED ].

(** [state.value]. *)
Definition state_value (s : AdmissionState) : string :=
  match s with
  | PLANNED => "planned"
  | RESERVED => "reserved"
  | REVALIDATING => "revalidating"
  | ADMITTED => "admitted"
  | EXECUTING => "executing"
  | PAUSED => "paused"
  | FINALIZED => "finalized"
  | CONFLICT => "conflict"
  | EXPIRED => "expired"
  | DENIED => "denied"
  | EXECUTION_FAILED => "execution_failed"
  | COMPENSATING => "compensating"
  | FAILED_FINAL => "failed_final"
  | RECOVERED_AFTER_CRASH => "recovered_after_crash"
  | CANCELLED => "cancelled"
  | COMPENSATED => "compensated"
  end.

(** [AdmissionState(value)]. *)
Definition AdmissionState_of (v : pyval) : result AdmissionState :=
  match v with
  | VStr s =>
      match List.find (λ st, bool_decide (state_value st = s)) all_states with
      | Some st => Ok st
      | None => Err (ValueError "not a valid AdmissionState")
      end
  | _ => Err (ValueError "not a valid AdmissionState")
  end.

Lemma AdmissionState_of_value st : AdmissionState_of (VStr (state_value st)) = Ok st.
Proof. by destruct st. Qed.

Definition _ACTIVE_STATES : list AdmissionState :=
  [PLANNED; RESERVED; REVALIDATING; ADMITTED; EXECUTING; PAUSED].

Definition _EXPIRABLE_STATES : list AdmissionState :=
  [PLANNED; RESERVED; REVALIDATING; ADMITTED; PAUSED].

Definition _ALLOWED_TRANSITIONS (s : AdmissionState) : list AdmissionState :=
  match s with
  | PLANNED => [RESERVED; EXPIRED; CANCELLED]
  | RESERVED => [REVALIDATING; CONFLICT; EXPIRED; CANCELLED]
  | REVALIDATING => [ADMITTED; DENIED; EXPIRED; CANCELLED]
  | ADMITTED => [EXECUTING; EXECUTION_FAILED; EXPIRED; CANCELLED]
  | EXECUTING => [PAUSED; FINALIZED; RECOVERED_AFTER_CRASH; EXECUTION_FAILED]
  | PAUSED => [EXECUTING; EXPIRED; CANCELLED]
  | RECOVERED_AFTER_CRASH => [FINALIZED]
  | CONFLICT | EXPIRED | DENIED | CANCELLED => [COMPENSATED]
  | EXECUTION_FAILED => [COMPENSATING]
  | COMPENSATING => [FAILED_FINAL]
  | FINALIZED | COMPENSATED | FAILED_FINAL => []
  end.

(** ** Bindings *)

Record ScopeBinding := {
  mode : string;
  paths : list string;
  canonical_digest : string;
}.

#[export] Instance ScopeBinding_eq_dec : EqDecision ScopeBinding.
Proof. solve_decision. Defined.

Definition scope_path_ok (p : string) : bool :=
  (1 <=? py_len p) && (py_len p <=? MAX_SCOPE_PATH_LENGTH)
  && negb (has_control p)
  && negb (startswith "/" p || startswith "~" p)
  && negb (has_char "\" p)
  && forallb (λ part, negb (bool_decide (part ∈ [""; "."; ".."]))) (split_on "/" p).

Definition scope_path (v : pyval) : result string :=
  match v with
  | VStr p => if scope_path_ok p then Ok p else Err (AdmissionError "invalid_scope_paths")
  | _ => Err (AdmissionError "invalid_scope_paths")
  end.

(** [ScopeBinding(mode, paths, digest)], [paths] a tuple. *)
Definition ScopeBinding_new (md : pyval) (ps : list pyval) (digest : pyval)
  : result ScopeBinding :=
  in_modes ← py_in_set md ["read"; "write"];
  m ← match md with
      | VStr m => if in_modes : bool then Ok m else Err (AdmissionError "invalid_scope_mode")
      | _ => Err (AdmissionError "invalid_scope_mode")
      end;
  _ ← require ((1 <=? Z.of_nat (length ps)) && (Z.of_nat (length ps) <=? MAX_SCOPE_PATHS))
        (AdmissionError "invalid_scope_paths");
  checked ← mapM_result scope_path ps;
  dg ← _bounded_text digest "invalid_scope_digest" 192;
  Ok {| mode := m; paths := checked; canonical_digest := dg |}.

Record ResourceBinding := {
  agent_id : string;
  account_key : string;
  budget_key : string;
  model_id : string;
  expected_usage_micro : Z;
  account_pool_binding : option AccountPoolBindingV1;
}.

#[export] Instance ResourceBinding_eq_dec : EqDecision ResourceBinding.
Proof. solve_decision. Defined.

Definition ResourceBinding_new (agent account budget model usage : pyval)
  (binding : option AccountPoolBindingV1) : result ResourceBinding :=
  ag ← _bounded_text agent "invalid_resource_agent" 128;
  ac ← _bounded_text account "invalid_resource_account" 128;
  bk ← _bounded_text budget "invalid_resource_budget" 128;
  mo ← _bounded_text model "invalid_resource_model" 128;
  us ← _bounded_int usage "invalid_resource_usage" 0 MAX_RESOURCE_USAGE_MICRO;
  Ok {| agent_id := ag; account_key := ac; budget_key := bk; model_id := mo;
        expected_usage_micro := us; account_pool_binding := binding |}.

Record LeaseBinding := {
  expected_state : string;
  lease_id : option string;
}.

#[export] Instance LeaseBinding_eq_dec : EqDecision LeaseBinding.
Proof. solve_decision. Defined.

Definition LeaseBinding_new (expected lease : pyval) : result LeaseBinding :=
  es ← _bounded_text expected "invalid_lease_state" 64;
  match lease with
  | VNone => Ok {| expected_state := es; lease_id := None |}
  | v => li ← _bounded_text v "invalid_lease_id" 128;
         Ok {| expected_state := es; lease_id := Some li |}
  end.

Record AdmissionPriority := {
  dispatch : string;
  selection_reason : string;
}.

#[export] Instance AdmissionPriority_eq_dec : EqDecision AdmissionPriority.
Proof. solve_decision. Defined.

Definition AdmissionPriority_new (dp reason : pyval) : result AdmissionPriority :=
  ok ← py_in_set dp ["DP0"; "DP1"; "DP2"; "DP3"];
  d ← match dp with
      | VStr d => if ok : bool then Ok d else Err (AdmissionError "invalid_dispatch_priority")
      | _ => Err (AdmissionError "invalid_dispatch_priority")
      end;
  sr ← _bounded_text reason "invalid_selection_reason" 128;
  Ok {| dispatch := d; selection_reason := sr |}.

(** ** The record *)

Record AdmissionRecord := {
  schema_version : pyval;
  admission_id : string;
  request_id : string;
  dispatch_id : string;
  workpackage_id : string;
  assignment_intent_id : string;
  repo_id : string;
  principal_id : string;
  parent_principal_id : string;
  grant_id : string;
  grant_digest : string;
  work_item_version : Z;
  scope : ScopeBinding;
  resource : ResourceBinding;
  lease_context : LeaseBinding;
  priority : AdmissionPriority;
  state : AdmissionState;
  created_at_utc : datetime;
  expires_at_utc : datetime;
  revision : Z;
}.

(** [AdmissionRecord(...)]: every argument goes through [__post_init__]. The
    schema version is compared with [!= 1] and kept as given. *)
Definition AdmissionRecord_new
  (schema adm req dis wp intent repo princ parent grant gdigest wiv : pyval)
  (sc : ScopeBinding) (res : ResourceBinding) (lease : LeaseBinding)
  (prio : AdmissionPriority) (st : AdmissionState) (created expires : datetime)
  (rev : pyval) : result AdmissionRecord :=
  _ ← require (py_eq_int schema 1) (AdmissionError "unsupported_admission_schema");
  adm ← _bounded_text adm "invalid_admission_id" MAX_ADMISSION_ID_LENGTH;
  req ← _bounded_text req "invalid_request_id" MAX_ADMISSION_ID_LENGTH;
  dis ← _bounded_text dis "invalid_dispatch_id" MAX_ADMISSION_ID_LENGTH;
  wp ← _bounded_text wp "invalid_workpackage_id" MAX_ADMISSION_ID_LENGTH;
  intent ← _bounded_text intent "invalid_assignment_intent_id" MAX_ADMISSION_ID_LENGTH;
  repo ← _bounded_text repo "invalid_repo_id" MAX_ADMISSION_ID_LENGTH;
  princ ← _bounded_text princ "invalid_principal_id" MAX_ADMISSION_ID_LENGTH;
  parent ← _bounded_text parent "invalid_parent_principal_id" MAX_ADMISSION_ID_LENGTH;
  grant ← _bounded_text grant "invalid_grant_id" MAX_ADMISSION_ID_LENGTH;
  gdigest ← _bounded_text gdigest "invalid_grant_digest" 192;
  wiv ← _bounded_int wiv "invalid_work_item_version" 1 (10 ^ 12);
  created ← _aware created "invalid_created_timestamp";
  expires ← _aware expires "invalid_expiry_timestamp";
  _ ← require (let ttl := dt_diff_us expires created in
               (0 <? ttl) && (ttl <=? MAX_RESERVATION_TTL_SECONDS * US_PER_SECOND))
        (AdmissionError "invalid_reservation_ttl");
  rev ← _bounded_int rev "invalid_admission_revision" 0 (10 ^ 12);
  Ok {| schema_version := schema; admission_id := adm; request_id := req;
        dispatch_id := dis; workpackage_id := wp; assignment_intent_id := intent;
        repo_id := repo; principal_id := princ; parent_principal_id := parent;
        grant_id := grant; grant_digest := gdigest; work_item_version := wiv;
        scope := sc; resource := res; lease_context := lease; priority := prio;
        state := st; created_at_utc := created; expires_at_utc := expires;
        revision := rev |}.

(** [dataclasses.replace(r, state=st, revision=rev)]: the constructor runs
    again on the other fields. *)
Definition record_replace (r : AdmissionRecord) (st : AdmissionState) (rev : Z)
  : result AdmissionRecord :=
  AdmissionRecord_new (schema_version r) (VStr (admission_id r)) (VStr (request_id r))
    (VStr (dispatch_id r)) (VStr (workpackage_id r)) (VStr (assignment_intent_id r))
    (VStr (repo_id r)) (VStr (principal_id r)) (VStr (parent_principal_id r))
    (VStr (grant_id r)) (VStr (grant_digest r)) (VInt (work_item_version r))
    (scope r) (resource r) (lease_context r) (priority r) st
    (created_at_utc r) (expires_at_utc r) (VInt rev).

(** The record with a new state and revision. *)
Definition with_state (r : AdmissionRecord) (st : AdmissionState) (rev : Z)
  : AdmissionRecord :=
  {| schema_version := schema_version r; admission_id := admission_id r;
     request_id := request_id r; dispatch_id := dispatch_id r;
     workpackage_id := workpackage_id r;
     assignment_intent_id := assignment_intent_id r; repo_id := repo_id r;
     principal_id := principal_id r; parent_principal_id := parent_principal_id r;
     grant_id := grant_id r; grant_digest := grant_digest r;
     work_item_version := work_item_version r; scope := scope r;
     resource := resource r; lease_context := lease_context r;
     priority := priority r; state := st; created_at_utc := created_at_utc r;
     expires_at_utc := expires_at_utc r; revision := rev |}.

(** The [active] property. *)
Definition active (r : AdmissionRecord) : bool := bool_decide (state r ∈ _ACTIVE_STATES).

Definition expirable (r : AdmissionRecord) : bool :=
  bool_decide (state r ∈ _EXPIRABLE_STATES).

Definition is_expired (r : AdmissionRecord) (now : datetime) : result bool :=
  now ← _aware now "invalid_admission_time";
  Ok (dt_leb (expires_at_utc r) now).

Definition advance (r : AdmissionRecord) (target : AdmissionState) (now : datetime)
  : result AdmissionRecord :=
  now ← _aware now "invalid_admission_time";
  _ ← require (bool_decide (target ∈ _ALLOWED_TRANSITIONS (state r)))
        (AdmissionError ("invalid_transition:" +:+ state_value (state r)
                         +:+ "->" +:+ state_value target));
  blocked ← (if expirable r
             then expired ← is_expired r now;
                  Ok (expired && negb (bool_decide (target ∈ [EXPIRED; COMPENSATED])))
             else Ok false);
  _ ← require (negb blocked) (AdmissionError "admission_expired");
  record_replace r target (revision r + 1).

(** ** Public view and creation *)

Definition public (r : AdmissionRecord) : pyval :=
  VDict
    [ ("schema_version", schema_version r);
      ("admission_id", VStr (admission_id r));
      ("request_id", VStr (request_id r));
      ("dispatch_id", VStr (dispatch_id r));
      ("workpackage_id", VStr (workpackage_id r));
      ("repo_id", VStr (repo_id r));
      ("work_item_version", VInt (work_item_version r));
      ("scope", VDict [("mode", VStr (mode (scope r)));
                       ("path_count", VInt (Z.of_nat (length (paths (scope r)))))]);
      ("resource", VDict
        [("agent_id", VStr (agent_id (resource r)));
         ("budget_key", VStr (budget_key (resource r)));
         ("model_id", VStr (model_id (resource r)));
         ("expected_usage_micro", VInt (expected_usage_micro (resource r)))]);
      ("lease_context", VDict
        [("expected_state", VStr (expected_state (lease_context r)))]);
      ("priority", VDict
        [("dispatch", VStr (dispatch (priority r)));
         ("selection_reason", VStr (selection_reason (priority r)))]);
      ("state", VStr (state_value (state r)));
      ("created_at_utc", VStr (isoformat (created_at_utc r)));
      ("expires_at_utc", VStr (isoformat (expires_at_utc r)));
      ("revision", VInt (revision r)) ].

Definition create_admission
  (adm req dis wp intent repo princ parent grant gdigest wiv : pyval)
  (sc : ScopeBinding) (res : ResourceBinding) (lease : LeaseBinding)
  (prio : AdmissionPriority) (now : datetime) (ttl_seconds : pyval)
  : result AdmissionRecord :=
  now ← _aware now "invalid_admission_time";
  ttl ← _bounded_int ttl_seconds "invalid_reservation_ttl" 1 MAX_RESERVATION_TTL_SECONDS;
  expires ← dt_add_seconds now ttl;
  AdmissionRecord_new (VInt 1) adm req dis wp intent repo princ parent grant gdigest wiv
    sc res lease prio PLANNED now expires (VInt 0).

(** ** Scope conflicts *)

Definition _scope_paths_overlap (left right : string) : bool :=
  bool_decide (left = right) || startswith (right +:+ "/") left
  || startswith (left +:+ "/") right.

Definition _scope_conflicts (left right : AdmissionRecord) : bool :=
  if negb (bool_decide (repo_id left = repo_id right)) then false
  else if bool_decide (mode (scope left) = "read") && bool_decide (mode (scope right) = "read")
  then false
  else existsb (λ lp, existsb (_scope_paths_overlap lp) (paths (scope right)))
         (paths (scope left)).

(** ** Persistence payload *)

Definition _record_to_payload (r : AdmissionRecord) : pyval :=
  VDict
    [ ("schema_version", schema_version r);
      ("admission_id", VStr (admission_id r));
      ("request_id", VStr (request_id r));
      ("dispatch_id", VStr (dispatch_id r));
      ("workpackage_id", VStr (workpackage_id r));
      ("assignment_intent_id", VStr (assignment_intent_id r));
      ("repo_id", VStr (repo_id r));
      ("principal_id", VStr (principal_id r));
      ("parent_principal_id", VStr (parent_principal_id r));
      ("grant_id", VStr (grant_id r));
      ("grant_digest", VStr (grant_digest r));
      ("work_item_version", VInt (work_item_version r));
      ("scope", VDict
        [("mode", VStr (mode (scope r)));
         ("paths", VList (VStr <$> paths (scope r)));
         ("canonical_digest", VStr (canonical_digest (scope r)))]);
      ("resource", VDict
        [("agent_id", VStr (agent_id (resource r)));
         ("account_key", VStr (account_key (resource r)));
         ("budget_key", VStr (budget_key (resource r)));
         ("model_id", VStr (model_id (resource r)));
         ("expected_usage_micro", VInt (expected_usage_micro (resource r)));
         ("account_pool_binding",
            match account_pool_binding (resource r) with
            | Some b => VDict (account_pool_binding_payload b)
            | None => VNone
            end)]);
      ("lease_context", VDict
        [("expected_state", VStr (expected_state (lease_context r)));
         ("lease_id", opt_str (lease_id (lease_context r)))]);
      ("priority", VDict
        [("dispatch", VStr (dispatch (priority r)));
         ("selection_reason", VStr (selection_reason (priority r)))]);
      ("state", VStr (state_value (state r)));
      ("created_at_utc", VStr (isoformat (created_at_utc r)));
      ("expires_at_utc", VStr (isoformat (expires_at_utc r)));
      ("revision", VInt (revision r)) ].

Definition _parse_timestamp (v : pyval) (code : string) : result datetime :=
  match v with
  | VStr s =>
      if (1 <=? py_len s) && (py_len s <=? 64) then
        match fromisoformat (replace_Z s) with
        | Some d => _aware d code
        | None => Err (AdmissionError code)
        end
      else Err (AdmissionError code)
  | _ => Err (AdmissionError code)
  end.

(** [value] is a mapping, else [invalid_admission_state]. *)
Definition as_mapping (v : pyval) : result (list (string * pyval)) :=
  match v with VDict d => Ok d | _ => Err (AdmissionError "invalid_admission_state") end.

Definition as_list (v : pyval) : result (list pyval) :=
  match v with VList l => Ok l | _ => Err (AdmissionError "invalid_admission_state") end.

(** [resource.get("account_pool_binding") is not None]. *)
Definition binding_of_payload (resource : list (string * pyval))
  : result (option AccountPoolBindingV1) :=
  match dict_get "account_pool_binding" resource with
  | None | Some VNone => Ok None
  | Some v => b ← account_pool_binding_from_payload v; Ok (Some b)
  end.

(** The body of the [try] of [_record_from_payload]. *)
Definition record_from_mapping (d : list (string * pyval)) : result AdmissionRecord :=
  scope ← getitem "scope" d;
  resource ← getitem "resource" d;
  lease_context ← getitem "lease_context" d;
  priority ← getitem "priority" d;
  scope ← as_mapping scope;
  resource ← as_mapping resource;
  lease_context ← as_mapping lease_context;
  priority ← as_mapping priority;
  raw_paths ← getitem "paths" scope;
  raw_paths ← as_list raw_paths;
  schema_version ← getitem "schema_version" d;
  admission_id ← getitem "admission_id" d;
  request_id ← getitem "request_id" d;
  dispatch_id ← getitem "dispatch_id" d;
  workpackage_id ← getitem "workpackage_id" d;
  assignment_intent_id ← getitem "assignment_intent_id" d;
  repo_id ← getitem "repo_id" d;
  principal_id ← getitem "principal_id" d;
  parent_principal_id ← getitem "parent_principal_id" d;
  grant_id ← getitem "grant_id" d;
  grant_digest ← getitem "grant_digest" d;
  work_item_version ← getitem "work_item_version" d;
  mode ← getitem "mode" scope;
  canonical_digest ← getitem "canonical_digest" scope;
  scope ← ScopeBinding_new mode raw_paths canonical_digest;
  agent_id ← getitem "agent_id" resource;
  account_key ← getitem "account_key" resource;
  budget_key ← getitem "budget_key" resource;
  model_id ← getitem "model_id" resource;
  expected_usage_micro ← getitem "expected_usage_micro" resource;
  binding ← binding_of_payload resource;
  resource ← ResourceBinding_new agent_id account_key budget_key model_id
               expected_usage_micro binding;
  expected_state ← getitem "expected_state" lease_context;
  lease ← LeaseBinding_new expected_state (default VNone (dict_get "lease_id" lease_context));
  dispatch ← getitem "dispatch" priority;
  selection_reason ← getitem "selection_reason" priority;
  priority ← AdmissionPriority_new dispatch selection_reason;
  state ← getitem "state" d;
  state ← AdmissionState_of state;
  created ← getitem "created_at_utc" d;
  created ← _parse_timestamp created "invalid_created_timestamp";
  expires ← getitem "expires_at_utc" d;
  expires ← _parse_timestamp expires "invalid_expiry_timestamp";
  revision ← getitem "revision" d;
  AdmissionRecord_new schema_version admission_id request_id dispatch_id
    workpackage_id assignment_intent_id repo_id principal_id
    parent_principal_id grant_id grant_digest work_item_version scope
    resource lease priority state created expires revision.

(** The classes the [except] clause names, [ValueError] covering its
    subclasses. *)
Definition payload_handled (e : exn) : bool :=
  is_value_error e || is_key_error e || is_type_error e.

Definition _record_from_payload (payload : pyval) : result AdmissionRecord :=
  reraise payload_handled (λ _, AdmissionError "invalid_admission_state")
    (d ← as_mapping payload; record_from_mapping d).

(** ** Well-formed records

    What a record that went through its constructors satisfies. *)

Definition scope_wf (sc : ScopeBinding) : Prop :=
  ScopeBinding_new (VStr (mode sc)) (VStr <$> paths sc) (VStr (canonical_digest sc)) = Ok sc.

Definition resource_wf (res : ResourceBinding) : Prop :=
  ResourceBinding_new (VStr (agent_id res)) (VStr (account_key res)) (VStr (budget_key res))
    (VStr (model_id res)) (VInt (expected_usage_micro res)) (account_pool_binding res) = Ok res
  ∧ match account_pool_binding res with Some b => binding_wf b | None => True end.

Definition lease_wf (l : LeaseBinding) : Prop :=
  LeaseBinding_new (VStr (expected_state l)) (opt_str (lease_id l)) = Ok l.

Definition priority_wf (p : AdmissionPriority) : Prop :=
  AdmissionPriority_new (VStr (dispatch p)) (VStr (selection_reason p)) = Ok p.

Record record_wf (r : AdmissionRecord) : Prop := {
  wf_fields : record_replace r (state r) (revision r) = Ok r;
  wf_scope : scope_wf (scope r);
  wf_resource : resource_wf (resource r);
  wf_lease : lease_wf (lease_context r);
  wf_priority : priority_wf (priority r);
  wf_created : dt_valid (created_at_utc r) = true;
  wf_expires : dt_valid (expires_at_utc r) = true;
}.

(** [replace] on a record that passed its checks only re-checks the
    revision. *)
Lemma record_replace_wf r st rev :
  record_replace r (state r) (revision r) = Ok r →
  record_replace r st rev =
    if (0 <=? rev) && (rev <=? 10 ^ 12) then Ok (with_state r st rev)
    else Err (AdmissionError "invalid_admission_revision").
Proof.
  unfold record_replace, AdmissionRecord_new. intros H.
  repeat match type of H with
  | _ ≫= _ = Ok _ =>
      let x := fresh "x" in let Hx := fresh "Hx" in
      apply bind_Ok in H as (x & Hx & H); rewrite Hx, bind_ret; cbv beta in H |- *;
      try apply _bounded_text_Ok in Hx as [[= <-] _];
      try apply _bounded_int_Ok in Hx as [[= <-] _];
      try apply _aware_Ok in Hx as [-> _]
  end.
  cbn [_bounded_int]. by destruct ((0 <=? rev) && (rev <=? 10 ^ 12)).
Qed.

Lemma record_wf_with_state r st rev :
  record_wf r → 0 <= rev <= 10 ^ 12 → record_wf (with_state r st rev).
Proof.
  intros [Hf ? ? ? ? ? ?] Hrev.
  pose proof (record_replace_wf r st rev Hf) as Hr.
  constructor; try done.
  change (record_replace (with_state r st rev) (state (with_state r st rev))
            (revision (with_state r st rev))) with (record_replace r st rev).
  rewrite Hr. destruct (_ && _) eqn:?; [done|lia].
Qed.

Lemma record_wf_revision r : record_wf r → 0 <= revision r <= 10 ^ 12.
Proof.
  intros [Hf _ _ _ _ _ _]. rewrite record_replace_wf in Hf by done.
  destruct (_ && _) eqn:?; [lia|done].
Qed.

(** What the constructors bound. *)
Lemma record_wf_bounds r :
  record_wf r →
  py_eq_int (schema_version r) 1 = true ∧ 0 <= work_item_version r <= 10 ^ 12
  ∧ 0 <= revision r <= 10 ^ 12 ∧ 0 <= expected_usage_micro (resource r) <= 10 ^ 18.
Proof.
  intros [Hf _ [Hres _] _ _ _ _]. unfold record_replace, AdmissionRecord_new in Hf.
  unfold ResourceBinding_new in Hres. repeat inv_result_step.
  repeat match goal with
  | H : _bounded_int _ _ _ _ = Ok _ |- _ => apply _bounded_int_Ok in H as [[= <-] ?]
  end.
  unfold MAX_RESOURCE_USAGE_MICRO in *. split; [done|]. split_and!; lia.
Qed.

(** What [advance] returns, on every branch. *)
Definition advance_result (r : AdmissionRecord) (target : AdmissionState) (now : datetime)
  : result AdmissionRecord :=
  if negb (dt_aware now) then Err (AdmissionError "invalid_admission_time")
  else if negb (bool_decide (target ∈ _ALLOWED_TRANSITIONS (state r)))
  then Err (AdmissionError ("invalid_transition:" +:+ state_value (state r)
                            +:+ "->" +:+ state_value target))
  else if expirable r && dt_leb (expires_at_utc r) now
          && negb (bool_decide (target ∈ [EXPIRED; COMPENSATED]))
  then Err (AdmissionError "admission_expired")
  else if revision r =? 10 ^ 12 then Err (AdmissionError "invalid_admission_revision")
  else Ok (with_state r target (revision r + 1)).

Lemma advance_eq r target now :
  record_wf r → advance r target now = advance_result r target now.
Proof.
  intros Hwf. pose proof (record_wf_revision r Hwf) as Hrev.
  unfold advance, advance_result, is_expired, _aware.
  destruct (dt_aware now) eqn:Hnow; [|done]. simpl.
  destruct (bool_decide (target ∈ _ALLOWED_TRANSITIONS _)); [|done]. simpl.
  rewrite record_replace_wf by apply Hwf.
  assert ((0 <=? revision r + 1) && (revision r + 1 <=? 10 ^ 12)
          = negb (revision r =? 10 ^ 12)) as -> by lia.
  rewrite Hnow.
  destruct (expirable r); simpl; [|by destruct (revision r =? _)].
  destruct (dt_leb _ now); simpl; [|by destruct (revision r =? _)].
  destruct (bool_decide (target ∈ _)); simpl; [|done].
  by destruct (revision r =? _).
Qed.

Lemma advance_Ok r target now r' :
  record_wf r → advance r target now = Ok r' →
  dt_aware now = true
  ∧ target ∈ _ALLOWED_TRANSITIONS (state r)
  ∧ (expirable r = true → dt_utc (expires_at_utc r) <= dt_utc now →
     target ∈ [EXPIRED; COMPENSATED])
  ∧ revision r < 10 ^ 12
  ∧ r' = with_state r target (revision r + 1).
Proof.
  intros Hwf. rewrite advance_eq by done. unfold advance_result.
  pose proof (record_wf_revision r Hwf) as Hrev.
  destruct (dt_aware now); [|done]. simpl.
  destruct (bool_decide (target ∈ _ALLOWED_TRANSITIONS _)) eqn:Ht; [|done]. simpl.
  destruct (expirable r && _ && _) eqn:Hx; [done|].
  destruct (Z.eqb_spec (revision r) (10 ^ 12)); [done|]. intros [= <-].
  apply bool_decide_eq_true in Ht. split_and!; try done; [|lia].
  intros He Hle. rewrite He in Hx. unfold dt_leb in Hx.
  destruct (Z.leb_spec (dt_utc (expires_at_utc r)) (dt_utc now)); [|lia].
  simpl in Hx. by apply negb_false_iff, bool_decide_eq_true in Hx.
Qed.

Lemma advance_wf r target now r' :
  record_wf r → advance r target now = Ok r' → record_wf r'.
Proof.
  intros Hwf H. pose proof (record_wf_revision r Hwf).
  apply advance_Ok in H as (_ & _ & _ & ? & ->); [|done].
  apply record_wf_with_state; [done|lia].
Qed.

(** An inactive state only leads to inactive states. *)
Lemma transitions_inactive s t :
  t ∈ _ALLOWED_TRANSITIONS s → t ∈ _ACTIVE_STATES → s ∈ _ACTIVE_STATES.
Proof.
  intros Ht Ha.
  assert (bool_decide (s ∈ _ACTIVE_STATES) = true) as H%bool_decide_eq_true; [|done].
  assert (forallb (λ t, negb (bool_decide (t ∈ _ACTIVE_STATES))
                        || bool_decide (s ∈ _ACTIVE_STATES)) (_ALLOWED_TRANSITIONS s) = true)
    as Hall by (by destruct s).
  rewrite forallb_forall in Hall. apply list_elem_of_In, Hall in Ht.
  by rewrite bool_decide_true in Ht.
Qed.

Lemma expirable_expires r : expirable r = true → EXPIRED ∈ _ALLOWED_TRANSITIONS (state r).
Proof.
  unfold expirable. rewrite bool_decide_eq_true. intros H.
  apply (bool_decide_eq_true (EXPIRED ∈ _)).
  assert (forallb (λ s, bool_decide (EXPIRED ∈ _ALLOWED_TRANSITIONS s)) _EXPIRABLE_STATES
          = true) as Hall by done.
  rewrite forallb_forall in Hall. by apply Hall, list_elem_of_In.
Qed.

Lemma expirable_active r : expirable r = true → active r = true.
Proof.
  unfold expirable, active. destruct (state r); vm_compute; congruence.
Qed.

(** ** The payload round trip *)

Lemma isoformat_timestamp d code :
  dt_valid d = true → dt_aware d = true →
  _parse_timestamp (VStr (isoformat d)) code = Ok d.
Proof.
  intros Hv Ha. unfold _parse_timestamp, py_len.
  pose proof (isoformat_length d).
  destruct (_ && _) eqn:?; [|lia].
  rewrite parse_isoformat by done. unfold _aware. by rewrite Ha.
Qed.

Lemma record_wf_aware r :
  record_wf r → dt_aware (created_at_utc r) = true ∧ dt_aware (expires_at_utc r) = true.
Proof.
  intros [Hf _ _ _ _ _ _]. unfold record_replace, AdmissionRecord_new in Hf.
  repeat match type of Hf with
  | _ ≫= _ = Ok _ =>
      let x := fresh "x" in let Hx := fresh "Hx" in
      apply bind_Ok in Hf as (x & Hx & Hf);
      try apply _aware_Ok in Hx as [-> ?]; simpl in Hf
  end. done.
Qed.

Lemma record_wf_ttl r :
  record_wf r →
  0 < dt_diff_us (expires_at_utc r) (created_at_utc r)
    <= MAX_RESERVATION_TTL_SECONDS * US_PER_SECOND.
Proof.
  intros [Hf _ _ _ _ _ _]. unfold record_replace, AdmissionRecord_new in Hf.
  repeat match type of Hf with
  | _ ≫= _ = Ok _ =>
      let x := fresh "x" in let Hx := fresh "Hx" in
      apply bind_Ok in Hf as (x & Hx & Hf);
      try apply _aware_Ok in Hx as [-> ?]; simpl in Hf
  end.
  repeat match goal with H : require _ _ = Ok _ |- _ => apply require_Ok in H end. lia.
Qed.

Lemma binding_of_payload_eq d o :
  dict_get "account_pool_binding" d =
    Some (match o with Some b => VDict (account_pool_binding_payload b) | None => VNone end) →
  match o with Some b => binding_wf b | None => True end →
  binding_of_payload d = Ok o.
Proof.
  unfold binding_of_payload. intros -> Hb. destruct o as [b|]; [|done].
  by rewrite binding_payload_roundtrip.
Qed.

(** A stored record decodes to itself. *)
Lemma payload_roundtrip r :
  record_wf r → _record_from_payload (_record_to_payload r) = Ok r.
Proof.
  intros Hwf. pose proof (record_wf_aware r Hwf) as [Hac Hae].
  destruct Hwf as [Hf Hsc [Hres Hb] Hl Hp Hvc Hve].
  unfold _record_from_payload, _record_to_payload. apply reraise_Ok.
  cbn [as_mapping]. rewrite bind_ret. unfold record_from_mapping.
  repeat (run_getitem; cbn [as_mapping as_list]).
  rewrite Hsc. run_getitem.
  erewrite (binding_of_payload_eq _ (account_pool_binding (resource r)))
    by (exact Hb || reflexivity).
  run_getitem. rewrite Hres. run_getitem.
  match goal with |- context [default VNone (dict_get "lease_id" ?d)] =>
    change (default VNone (dict_get "lease_id" d)) with (opt_str (lease_id (lease_context r)))
  end.
  rewrite Hl. run_getitem. rewrite Hp. run_getitem.
  rewrite AdmissionState_of_value. run_getitem.
  do 2 (rewrite isoformat_timestamp by done; run_getitem). exact Hf.
Qed.

(** ** Errors of the decoder *)

Abbreviation decoder_raises := (raises_only payload_handled).

Lemma raises_getitem k d : decoder_raises (getitem k d).
Proof. unfold getitem. raises_cases. Qed.
Lemma raises_as_mapping v : decoder_raises (as_mapping v).
Proof. unfold as_mapping. raises_cases. Qed.
Lemma raises_as_list v : decoder_raises (as_list v).
Proof. unfold as_list. raises_cases. Qed.
Lemma raises_bounded_text v c m : decoder_raises (_bounded_text v c m).
Proof. unfold _bounded_text. raises_cases. Qed.
Lemma raises_bounded_int v c lo hi : decoder_raises (_bounded_int v c lo hi).
Proof. unfold _bounded_int. raises_cases. Qed.
Lemma raises_aware d c : decoder_raises (_aware d c).
Proof. unfold _aware. raises_cases. Qed.
Lemma raises_in_set v l : decoder_raises (py_in_set v l).
Proof. unfold py_in_set. raises_cases. Qed.
Lemma raises_matching p v m : decoder_raises (matching_str p v (DynamicPoolBindingError m)).
Proof. unfold matching_str. raises_cases. Qed.
#[export] Hint Resolve raises_getitem raises_as_mapping raises_as_list raises_bounded_text
  raises_bounded_int raises_aware raises_in_set raises_matching : raises.

Lemma raises_scope m p d : decoder_raises (ScopeBinding_new m p d).
Proof. unfold ScopeBinding_new, scope_path. raises_cases. Qed.
Lemma raises_resource a b c d e f : decoder_raises (ResourceBinding_new a b c d e f).
Proof. unfold ResourceBinding_new. raises_cases. Qed.
Lemma raises_lease a b : decoder_raises (LeaseBinding_new a b).
Proof. unfold LeaseBinding_new. raises_cases. Qed.
Lemma raises_priority a b : decoder_raises (AdmissionPriority_new a b).
Proof. unfold AdmissionPriority_new. raises_cases. Qed.
Lemma raises_state v : decoder_raises (AdmissionState_of v).
Proof. unfold AdmissionState_of. raises_cases. Qed.
Lemma raises_timestamp v c : decoder_raises (_parse_timestamp v c).
Proof. unfold _parse_timestamp. raises_cases. Qed.
Lemma raises_binding d : decoder_raises (binding_of_payload d).
Proof.
  unfold binding_of_payload, account_pool_binding_from_payload,
    _make_account_pool_binding_v1, AccountPoolBindingV1_new. raises_cases.
Qed.
Lemma raises_record a b c d e f g h i j k l m n o p q r s t :
  decoder_raises (AdmissionRecord_new a b c d e f g h i j k l m n o p q r s t).
Proof. unfold AdmissionRecord_new. raises_cases. Qed.
#[export] Hint Resolve raises_scope raises_resource raises_lease raises_priority
  raises_state raises_timestamp raises_binding raises_record : raises.

Lemma raises_record_from_mapping d : decoder_raises (record_from_mapping d).
Proof. unfold record_from_mapping. raises_cases. Qed.

(** ** Lifecycles *)

(** [history r l r']: [r'] is reached from [r] by calls of [advance], and
    [l] lists the states entered, in order. *)
Inductive history : AdmissionRecord → list AdmissionState → AdmissionRecord → Prop :=
  | history_nil r : history r [] r
  | history_step r target now r1 l r2 :
      advance r target now = Ok r1 → history r1 l r2 → history r (target :: l) r2.

Lemma history_wf r l r' : record_wf r → history r l r' → record_wf r'.
Proof. intros Hwf; induction 1 as [|r t now r1 l r2 Hs _ IH]; eauto using advance_wf. Qed.

Lemma history_revision r l r' :
  record_wf r → history r l r' → revision r' = revision r + Z.of_nat (length l).
Proof.
  intros Hwf; induction 1 as [|r t now r1 l r2 Hs _ IH]; cbn [length]; [lia|].
  pose proof (advance_wf _ _ _ _ Hwf Hs) as Hwf1. specialize (IH Hwf1).
  apply advance_Ok in Hs as (_ & _ & _ & _ & ->); [|done]. cbn [revision with_state] in IH. lia.
Qed.

(** States from which [EXECUTING] is still reachable. *)
Definition before_execution (s : AdmissionState) : option (list AdmissionState) :=
  match s with
  | PLANNED => Some [RESERVED; REVALIDATING; ADMITTED; EXECUTING]
  | RESERVED => Some [REVALIDATING; ADMITTED; EXECUTING]
  | REVALIDATING => Some [ADMITTED; EXECUTING]
  | ADMITTED => Some [EXECUTING]
  | EXECUTING | PAUSED => Some []
  | _ => None
  end.

Lemma before_execution_step s t p :
  t ∈ _ALLOWED_TRANSITIONS s → before_execution t = Some p →
  before_execution s = Some (t :: p) ∨ before_execution s = Some [] .
Proof.
  intros Ht. apply list_elem_of_In in Ht.
  destruct s; cbn in Ht; repeat destruct Ht as [<-|Ht]; try done; cbn; naive_solver.
Qed.

Lemma history_before_execution r l r' :
  record_wf r → history r l r' → state r' = EXECUTING →
  ∃ p, before_execution (state r) = Some p ∧ p `prefix_of` l.
Proof.
  intros Hwf Hh Hex. induction Hh as [r|r t now r1 l r2 Hs Hh IH].
  { exists []. rewrite Hex. split; [done|apply prefix_nil]. }
  pose proof (advance_wf _ _ _ _ Hwf Hs) as Hwf1.
  destruct (IH Hwf1 Hex) as (p & Hp & Hpre).
  apply advance_Ok in Hs as (_ & Ht & _ & _ & ->); [|done].
  destruct (before_execution_step _ _ _ Ht Hp) as [H|H]; rewrite H.
  - exists (t :: p). split; [done|]. by apply prefix_cons.
  - exists []. split; [done|apply prefix_nil].
Qed.

(** ** Sample values for the witnesses *)

Definition sample_time : datetime := Datetime 63900000000000000 (Some 0).
Definition sample_later : datetime := Datetime 63900000010000000 (Some 0).

Definition sample_scope : ScopeBinding :=
  {| mode := "write"; paths := ["src/a"; "docs"]; canonical_digest := "sha256:0" |}.

Definition sample_resource : ResourceBinding :=
  {| agent_id := "bee-1"; account_key := "acct"; budget_key := "weekly";
     model_id := "model"; expected_usage_micro := 5;
     account_pool_binding := Some
       {| account_id := "acct-1"; pool_id := "pool-1"; authority_provider := "codex";
          runtime_provider := None |} |}.

Definition sample_record : AdmissionRecord :=
  {| schema_version := VInt 1; admission_id := "adm-1"; request_id := "req-1";
     dispatch_id := "dis-1"; workpackage_id := "wp-1";
     assignment_intent_id := "int-1"; repo_id := "repo"; principal_id := "p";
     parent_principal_id := "q"; grant_id := "g"; grant_digest := "gd";
     work_item_version := 1; scope := sample_scope; resource := sample_resource;
     lease_context := {| expected_state := "free"; lease_id := Some "l-1" |};
     priority := {| dispatch := "DP1"; selection_reason := "sp3" |};
     state := PLANNED; created_at_utc := sample_time;
     expires_at_utc := Datetime 63900000030000000 (Some 0); revision := 0 |}.

Lemma sample_record_wf : record_wf sample_record.
Proof. by constructor. Defined.

(** ** Scope overlap *)

(** A path below another has its components first. *)
Lemma split_prefix a b :
  split_on "/" b `prefix_of` split_on "/" a ↔ a = b ∨ startswith (b +:+ "/") a = true.
Proof.
  rewrite startswith_true. split.
  - intros [l Hl]. rewrite <- (join_split_on "/" a), Hl.
    destruct l as [|q l]; [left; by rewrite app_nil_r, join_split_on|right].
    destruct (split_on_cons "/" b) as (p & ps & Hb). rewrite Hb.
    exists (py_join "/" (q :: l)). rewrite join_app, <- Hb, join_split_on.
    by rewrite append_assoc.
  - intros [->|[t ->]]; [done|]. rewrite append_assoc, append_cons, append_nil_l.
    rewrite split_on_app. by eexists.
Qed.

(** ** Properties *)

(** [advance] on a record that passed its constructors returns exactly the
    outcome the transition table prescribes, on every branch: a naive time,
    a transition outside the graph, an expired expirable record (only
    [EXPIRED] and [COMPENSATED] stay allowed), an exhausted revision counter,
    and otherwise the same record with the target state and the next
    revision, still well-formed. *)
Theorem advance_functional r target now :
  record_wf r →
  advance r target now = advance_result r target now
  ∧ ∀ r', advance r target now = Ok r' → record_wf r'.
Proof. intros Hwf. split; [by apply advance_eq|by intros r' ?%advance_wf]. Qed.

Lemma advance_functional_witness :
  record_wf sample_record
  ∧ advance sample_record RESERVED sample_later = Ok (with_state sample_record RESERVED 1).
Proof.
  split; [exact sample_record_wf|].
  destruct (advance_functional sample_record RESERVED sample_later sample_record_wf) as [H _].
  rewrite H. reflexivity.
Defined.

(** C28: no record executes without having been reserved, revalidated and
    admitted: every sequence of [advance] calls that takes a planned record
    to [EXECUTING] starts with [RESERVED], [REVALIDATING], [ADMITTED],
    [EXECUTING] in this order, and the revision counts the steps. *)
Theorem execution_requires_admission r l r' :
  record_wf r → state r = PLANNED → history r l r' → state r' = EXECUTING →
  [RESERVED; REVALIDATING; ADMITTED; EXECUTING] `prefix_of` l
  ∧ revision r' = revision r + Z.of_nat (length l).
Proof.
  intros Hwf Hp Hh Hex. split; [|by apply history_revision].
  destruct (history_before_execution r l r' Hwf Hh Hex) as (p & Hb & Hpre).
  rewrite Hp in Hb. by injection Hb as <-.
Qed.

Lemma execution_requires_admission_witness :
  [RESERVED; REVALIDATING; ADMITTED; EXECUTING]
    `prefix_of` [RESERVED; REVALIDATING; ADMITTED; EXECUTING].
Proof.
  refine (proj1 (execution_requires_admission sample_record _
    (with_state sample_record EXECUTING 4) sample_record_wf eq_refl _ eq_refl)).
  do 4 (eapply (history_step _ _ sample_later); [reflexivity|]). apply history_nil.
Defined.

(** An inactive record (finalized, failed, denied, expired, cancelled or
    being compensated) never becomes active again, and the states
    [FINALIZED], [COMPENSATED] and [FAILED_FINAL] admit no further step. *)
Theorem inactive_is_final r l r' :
  record_wf r → active r = false → history r l r' →
  active r' = false
  ∧ (state r ∈ [FINALIZED; COMPENSATED; FAILED_FINAL] → l = [] ∧ r' = r).
Proof.
  intros Hwf Hna Hh. split.
  - induction Hh as [|r t now r1 l r2 Hs _ IH]; [done|].
    apply IH; [by eapply advance_wf|].
    apply advance_Ok in Hs as (_ & Ht & _ & _ & ->); [|done].
    unfold active in *. apply bool_decide_eq_false in Hna.
    apply bool_decide_eq_false. intros Ha. apply Hna.
    by eapply transitions_inactive.
  - intros Hs. destruct Hh as [|r t now r1 l r2 Hstep _]; [done|exfalso].
    apply advance_Ok in Hstep as (_ & Ht & _); [|done].
    apply list_elem_of_In in Hs. cbn in Hs.
    repeat destruct Hs as [Hs|Hs]; try done; rewrite <- Hs in Ht; cbn in Ht;
      by apply elem_of_nil in Ht.
Qed.

Lemma inactive_is_final_witness :
  active (with_state sample_record CANCELLED 1) = false
  ∧ active (with_state sample_record COMPENSATED 2) = false.
Proof.
  split; [reflexivity|].
  refine (proj1 (inactive_is_final (with_state sample_record CANCELLED 1) [COMPENSATED]
    (with_state sample_record COMPENSATED 2) _ eq_refl _)).
  - by constructor.
  - eapply (history_step _ _ sample_later); [reflexivity|apply history_nil].
Defined.

(** The private persistence payload loses nothing: decoding what
    [_record_to_payload] wrote gives the record back, timestamps and pool
    binding included. *)
Theorem record_payload_roundtrip r :
  record_wf r → _record_from_payload (_record_to_payload r) = Ok r.
Proof. apply payload_roundtrip. Qed.

Lemma record_payload_roundtrip_witness :
  _record_from_payload (_record_to_payload sample_record) = Ok sample_record.
Proof. apply record_payload_roundtrip. exact sample_record_wf. Defined.

(** The textual overlap test on scope paths is the comparison of paths by
    components: two scopes overlap exactly when the components of one are a
    prefix of the components of the other, so that [src/ab] does not overlap
    [src/a]. *)
Theorem scope_paths_overlap_components a b :
  _scope_paths_overlap a b = true ↔
  split_on "/" a `prefix_of` split_on "/" b ∨ split_on "/" b `prefix_of` split_on "/" a.
Proof.
  unfold _scope_paths_overlap. rewrite !orb_true_iff, bool_decide_eq_true, !split_prefix.
  naive_solver.
Qed.

(** Whatever the stored document holds, decoding it either succeeds or
    raises [AdmissionError("invalid_admission_state")]: no other exception
    escapes [_record_from_payload]. *)
Theorem record_decode_total payload :
  (∃ r, _record_from_payload payload = Ok r)
  ∨ _record_from_payload payload = Err (AdmissionError "invalid_admission_state").
Proof.
  unfold _record_from_payload.
  assert (decoder_raises (d ← as_mapping payload; record_from_mapping d)) as H
    by (apply raises_bind; [apply raises_as_mapping|apply raises_record_from_mapping]).
  destruct (d ← as_mapping payload; record_from_mapping d) as [r|e] eqn:E; [by eauto|].
  right. cbn. by rewrite (H e eq_refl).
Qed.

Lemma dt_add_seconds_Ok d s d' :
  dt_add_seconds d s = Ok d' → dt_valid d = true →
  dt_valid d' = true ∧ dt_aware d' = dt_aware d ∧ dt_diff_us d' d = s * US_PER_SECOND.
Proof.
  unfold dt_add_seconds, dt_valid, dt_diff_us, dt_utc, dt_aware.
  destruct (_ && _) eqn:Hr; [|done]. intros [= <-] Hv. cbn.
  split_and!; [|done|].
  - destruct (dt_offset d); lia.
  - destruct (dt_offset d); cbn; lia.
Qed.

Lemma AdmissionRecord_new_fields a b c d e f g h i j k l m n o p q cr ex rv r :
  AdmissionRecord_new a b c d e f g h i j k l m n o p q cr ex rv = Ok r →
  record_replace r (state r) (revision r) = Ok r
  ∧ scope r = m ∧ resource r = n ∧ lease_context r = o ∧ priority r = p
  ∧ state r = q ∧ created_at_utc r = cr ∧ expires_at_utc r = ex ∧ rv = VInt (revision r).
Proof.
  intros H. pose proof H as H0. unfold AdmissionRecord_new in H.
  repeat match type of H with
  | _ ≫= _ = Ok _ =>
      let x := fresh "x" in let Hx := fresh "Hx" in
      apply bind_Ok in H as (x & Hx & H); cbv beta in H;
      try apply _bounded_text_Ok in Hx as [-> _];
      try apply _bounded_int_Ok in Hx as [-> _];
      try apply _aware_Ok in Hx as [-> _]
  end.
  injection H as <-. split; [exact H0|]. done.
Qed.

(** A record [create_admission] returns is well-formed, planned, at
    revision 0, and expires exactly [ttl_seconds] after its creation, with
    [ttl_seconds] between 1 and 120. *)
Theorem create_admission_planned
  adm req dis wp intent repo princ parent grant gdigest wiv sc res lease prio now ttl r :
  scope_wf sc → resource_wf res → lease_wf lease → priority_wf prio →
  dt_valid now = true →
  create_admission adm req dis wp intent repo princ parent grant gdigest wiv
    sc res lease prio now ttl = Ok r →
  record_wf r ∧ state r = PLANNED ∧ revision r = 0 ∧ created_at_utc r = now
  ∧ ∃ s, ttl = VInt s ∧ 1 <= s <= MAX_RESERVATION_TTL_SECONDS
         ∧ dt_diff_us (expires_at_utc r) (created_at_utc r) = s * US_PER_SECOND.
Proof.
  intros Hsc Hres Hl Hp Hv H. unfold create_admission in H.
  apply bind_Ok in H as (n & Hn & H). apply _aware_Ok in Hn as [-> _].
  apply bind_Ok in H as (s & Hs & H). apply _bounded_int_Ok in Hs as [-> Hs].
  apply bind_Ok in H as (ex & Hadd & H).
  pose proof (dt_add_seconds_Ok _ _ _ Hadd Hv) as (Hvx & _ & Hdiff).
  apply AdmissionRecord_new_fields in H as (Hf & ? & ? & ? & ? & Hst & Hc & Hx & Hrev).
  injection Hrev as Hrev. subst sc res lease prio.
  split_and!; [|done|done|done|].
  - constructor; rewrite ?Hc, ?Hx; done.
  - exists s. rewrite Hx, Hc. done.
Qed.

Lemma create_admission_planned_witness :
  revision sample_record = 0.
Proof.
  refine (proj1 (proj2 (proj2 (create_admission_planned (VStr "adm-1") (VStr "req-1")
    (VStr "dis-1") (VStr "wp-1") (VStr "int-1") (VStr "repo") (VStr "p") (VStr "q")
    (VStr "g") (VStr "gd") (VInt 1) sample_scope sample_resource
    (lease_context sample_record) (priority sample_record) sample_time (VInt 30)
    sample_record _ _ _ _ _ _)))); reflexivity || (split; reflexivity).
Defined.
