(* ===== verification/AdmissionStore.v ===== *)
(** * The in-process reservation store

    [class AdmissionStore] of [src/src/the_hive/admission.py].  The store is
    the record dictionary and three capacities; every method runs under the
    store's lock, so a method is one state transition.  Mutations made before
    an exception persist, as in the code. *)

From S2P Require Import Prelude PyTime DynamicPool Admission.

Record AdmissionStore := {
  _records : list (string * AdmissionRecord);
  _agent_capacity : Z;
  _account_capacity : Z;
  _account_model_capacity : Z;
}.

Definition AdmissionStore_new (agent_capacity account_capacity account_model_capacity : pyval)
  : result AdmissionStore :=
  a ← _bounded_int agent_capacity "invalid_agent_capacity" 1 256;
  b ← _bounded_int account_capacity "invalid_account_capacity" 1 256;
  c ← _bounded_int account_model_capacity "invalid_account_model_capacity" 1 256;
  Ok {| _records := []; _agent_capacity := a; _account_capacity := b;
        _account_model_capacity := c |}.

Definition set_records (st : AdmissionStore) (rs : list (string * AdmissionRecord))
  : AdmissionStore :=
  {| _records := rs; _agent_capacity := _agent_capacity st;
     _account_capacity := _account_capacity st;
     _account_model_capacity := _account_model_capacity st |}.

Abbreviation StoreM := (ST AdmissionStore).

(** [self._records[r.admission_id] = r]. *)
Definition write_record (r : AdmissionRecord) : StoreM () := λ st,
  (set_records st (dict_set (admission_id r) r (_records st)), Ok ()).

(** The snapshot of all records, in insertion order. *)
Definition values (st : AdmissionStore) : list AdmissionRecord := dict_values (_records st).

(** ** Expiry *)

Fixpoint expire_loop (snapshot : list AdmissionRecord) (now : datetime)
  : StoreM (list AdmissionRecord) :=
  match snapshot with
  | [] => mret []
  | r :: rest =>
      expired ← (if expirable r then st_lift (is_expired r now) else mret false);
      if expired : bool then
        updated ← st_lift (advance r EXPIRED now);
        _ ← write_record updated;
        rest ← expire_loop rest now;
        mret (updated :: rest)
      else expire_loop rest now
  end.

Definition _expire_locked (now : datetime) : StoreM (list AdmissionRecord) := λ st,
  expire_loop (values st) now st.

Definition expire (now : datetime) : StoreM (list AdmissionRecord) :=
  now ← st_lift (_aware now "invalid_admission_time");
  _expire_locked now.

Definition prune_expired (now : datetime) : StoreM (list string) :=
  expired ← expire now;
  mret (admission_id <$> expired).

(** ** Reservation *)

Definition account_pair (r : AdmissionRecord) : string * string :=
  (account_key (resource r), budget_key (resource r)).

Definition model_triple (r : AdmissionRecord) : string * string * string :=
  (account_pair r, model_id (resource r)).

Definition count_if (p : AdmissionRecord → bool) (l : list AdmissionRecord) : Z :=
  Z.of_nat (length (List.filter p l)).

Definition _reservation_conflict (st : AdmissionStore) (r : AdmissionRecord) : option string :=
  let act := List.filter active (values st) in
  if existsb (λ c, bool_decide (agent_id (resource c) = agent_id (resource r))) act
  then Some "agent_conflict"
  else if _account_capacity st <=?
            count_if (λ c, bool_decide (account_pair c = account_pair r)) act
  then Some "account_capacity_conflict"
  else if _account_model_capacity st <=?
            count_if (λ c, bool_decide (model_triple c = model_triple r)) act
  then Some "account_model_capacity_conflict"
  else if existsb (λ c, _scope_conflicts c r) act then Some "scope_conflict"
  else None.

Definition reserve (r : AdmissionRecord) (now : datetime) : StoreM AdmissionRecord :=
  now ← st_lift (_aware now "invalid_admission_time");
  _ ← st_lift (require (bool_decide (state r = PLANNED))
                 (AdmissionError "record_must_be_planned"));
  _ ← _expire_locked now;
  st ← st_get;
  _ ← st_lift (require (negb (dict_mem (admission_id r) (_records st)))
                 (AdmissionError "duplicate_admission_id"));
  _ ← st_lift (match _reservation_conflict st r with
               | Some conflict => Err (AdmissionError conflict)
               | None => Ok ()
               end);
  reserved ← st_lift (advance r RESERVED now);
  _ ← write_record reserved;
  mret reserved.

(** ** Reads *)

Definition get (admission_id : string) : StoreM AdmissionRecord :=
  st ← st_get;
  st_lift (match dict_get admission_id (_records st) with
           | Some r => Ok r
           | None => Err (AdmissionError "admission_not_found")
           end).

Definition public_snapshot : StoreM (list pyval) :=
  st ← st_get; mret (public <$> values st).

Definition records_snapshot : StoreM (list AdmissionRecord) :=
  st ← st_get; mret (values st).

(** ** Transitions *)

Definition _transition_locked (r : AdmissionRecord) (target : AdmissionState)
  (expected_revision : pyval) (now : datetime) : StoreM AdmissionRecord :=
  expected ← st_lift (_bounded_int expected_revision "invalid_admission_revision" 0 (10 ^ 12));
  _ ← st_lift (require (revision r =? expected) (AdmissionError "stale_admission_revision"));
  updated ← st_lift (advance r target now);
  _ ← write_record updated;
  mret updated.

Definition _transition (admission_id : string) (target : AdmissionState)
  (expected_revision : pyval) (now : datetime) : StoreM AdmissionRecord :=
  now ← st_lift (_aware now "invalid_admission_time");
  r ← get admission_id;
  _transition_locked r target expected_revision now.

Definition transition (admission_id : string) (target : AdmissionState)
  (expected_revision : pyval) (now : datetime) : StoreM AdmissionRecord :=
  _transition admission_id target expected_revision now.

Definition begin_revalidation id rev now := transition id REVALIDATING rev now.

Definition complete_revalidation id rev (valid : pyval) now : StoreM AdmissionRecord :=
  match valid with
  | VBool valid => transition id (if valid then ADMITTED else DENIED) rev now
  | _ => st_lift (Err (AdmissionError "invalid_revalidation_result"))
  end.

Definition begin_execution id rev now := transition id EXECUTING rev now.

Definition finalize id rev now : StoreM AdmissionRecord :=
  r ← get id;
  if bool_decide (state r = FINALIZED) then mret r
  else transition id FINALIZED rev now.

Definition mark_execution_failed id rev now := transition id EXECUTION_FAILED rev now.
Definition begin_compensation id rev now := transition id COMPENSATING rev now.
Definition compensate id rev now := transition id COMPENSATED rev now.
Definition finish_compensation id rev now := transition id FAILED_FINAL rev now.
Definition cancel id rev now := transition id CANCELLED rev now.
Definition recover_after_crash id rev now := transition id RECOVERED_AFTER_CRASH rev now.

(** ** The store's invariant *)

Definition active_values (st : AdmissionStore) : list AdmissionRecord :=
  List.filter active (values st).

(** Keys are the records' ids, records passed their constructors, and the
    active records respect the exclusivity the conflict check enforces. *)
Record store_inv (st : AdmissionStore) : Prop := {
  inv_keys : NoDup (dict_keys (_records st));
  inv_wf : ∀ k r, dict_get k (_records st) = Some r → k = admission_id r ∧ record_wf r;
  inv_agents : ∀ k1 k2 r1 r2,
    dict_get k1 (_records st) = Some r1 → dict_get k2 (_records st) = Some r2 →
    k1 ≠ k2 → active r1 = true → active r2 = true →
    agent_id (resource r1) ≠ agent_id (resource r2)
    ∧ _scope_conflicts r1 r2 = false;
  inv_accounts : ∀ p,
    count_if (λ c, bool_decide (account_pair c = p)) (active_values st) <= _account_capacity st;
  inv_models : ∀ t,
    count_if (λ c, bool_decide (model_triple c = t)) (active_values st)
      <= _account_model_capacity st;
}.

(** ** Symmetry of the scope policy *)

Lemma _scope_paths_overlap_sym a b : _scope_paths_overlap a b = _scope_paths_overlap b a.
Proof.
  unfold _scope_paths_overlap.
  rewrite <- !orb_assoc, (orb_comm (startswith (b +:+ "/") a)). f_equal.
  by apply bool_decide_ext.
Qed.

Lemma existsb_swap {A B} (f : A → B → bool) (l : list A) (k : list B) :
  existsb (λ a, existsb (f a) k) l = existsb (λ b, existsb (λ a, f a b) l) k.
Proof.
  apply eq_true_iff_eq. rewrite !existsb_exists.
  setoid_rewrite existsb_exists. naive_solver.
Qed.

Lemma existsb_ext {A} (f g : A → bool) l :
  (∀ x, f x = g x) → existsb f l = existsb g l.
Proof. intros H; induction l as [|x l IH]; cbn; [done|]. by rewrite H, IH. Qed.

Lemma _scope_conflicts_sym a b : _scope_conflicts a b = _scope_conflicts b a.
Proof.
  unfold _scope_conflicts.
  rewrite (bool_decide_ext (repo_id a = repo_id b) (repo_id b = repo_id a)) by done.
  rewrite andb_comm, existsb_swap.
  case_match; [done|]. case_match; [done|].
  apply existsb_ext. intros x. apply existsb_ext. intros y. apply _scope_paths_overlap_sym.
Qed.

(** ** Counting records *)

Section counting.
Context {V : Type} (q : V → bool).
Implicit Types (d : list (string * V)).

Lemma filter_values_insert k v d :
  k ∉ dict_keys d →
  List.filter q (dict_values (dict_set k v d)) =
  List.filter q (dict_values d) ++ (if q v then [v] else []).
Proof.
  induction d as [|[k0 v0] d IH]; cbn; [by destruct (q v)|].
  rewrite not_elem_of_cons. intros [Hne Hni]. simpl_bd. cbn.
  fold (dict_values (dict_set k v d)). fold (dict_values d).
  rewrite IH by done. by destruct (q v0).
Qed.

Lemma filter_values_update k v v0 d :
  dict_get k d = Some v0 → (q v = true → q v0 = true) →
  (length (List.filter q (dict_values (dict_set k v d)))
   <= length (List.filter q (dict_values d)))%nat.
Proof.
  intros Hget Hq. induction d as [|[k1 v1] d IH]; cbn in *; [done|].
  destruct (decide (k1 = k)) as [->|Hne].
  - revert Hget. simpl_bd. intros [= ->]. cbn.
    destruct (q v); [rewrite Hq by done; done|]. destruct (q v0); cbn; lia.
  - revert Hget. simpl_bd. intros Hget. cbn. specialize (IH Hget).
    destruct (q v1); cbn; unfold dict_values in *; lia.
Qed.
End counting.

Lemma filter_andb {A} (p q : A → bool) l :
  List.filter p (List.filter q l) = List.filter (λ x, q x && p x) l.
Proof.
  induction l as [|x l IH]; cbn; [done|].
  destruct (q x); cbn; [|done]. destruct (p x); by rewrite IH.
Qed.

Lemma count_active p st :
  count_if p (active_values st) =
  Z.of_nat (length (List.filter (λ r, active r && p r) (dict_values (_records st)))).
Proof. unfold count_if, active_values. by rewrite filter_andb. Qed.

Lemma values_elem_of k r st :
  dict_get k (_records st) = Some r → r ∈ values st.
Proof. intros H%dict_get_elem_of. by apply (list_elem_of_fmap_2 snd) in H. Qed.

(** ** Updates preserve the invariant *)

(** A record that differs from [r] in state and revision only, and is not
    active when [r] is not. *)
Definition evolves (r r' : AdmissionRecord) : Prop :=
  record_wf r' ∧ admission_id r' = admission_id r ∧ resource r' = resource r
  ∧ scope r' = scope r ∧ repo_id r' = repo_id r ∧ (active r' = true → active r = true).

Lemma evolves_conflicts r r' c :
  evolves r r' → _scope_conflicts r' c = _scope_conflicts r c.
Proof. intros (_ & _ & _ & Hs & Hr & _). unfold _scope_conflicts. by rewrite Hs, Hr. Qed.

Lemma evolves_keys r r' :
  evolves r r' → account_pair r' = account_pair r ∧ model_triple r' = model_triple r.
Proof. intros (_ & _ & Hs & _). unfold model_triple, account_pair. by rewrite Hs. Qed.

Lemma advance_evolves r t now r' :
  record_wf r → advance r t now = Ok r' → evolves r r'.
Proof.
  intros Hwf H. pose proof (advance_wf _ _ _ _ Hwf H) as Hwf'.
  apply advance_Ok in H as (_ & Ht & _ & _ & ->); [|done].
  unfold evolves. split_and!; try done.
  unfold active. rewrite !bool_decide_eq_true. intros Ha.
  by eapply transitions_inactive.
Qed.

Lemma inv_update st k r r' :
  store_inv st → dict_get k (_records st) = Some r → evolves r r' →
  store_inv (set_records st (dict_set k r' (_records st))).
Proof.
  intros [Hk Hw Ha Hc Hm] Hget He.
  pose proof (evolves_keys _ _ He) as [Hp Ht].
  pose proof He as (Hwf' & Hid & Hres & Hsc & Hrepo & Hact).
  constructor; cbn [_records set_records _account_capacity _account_model_capacity].
  - by apply NoDup_dict_set.
  - intros k1 r1. rewrite dict_get_set. case_bool_decide; [|by apply Hw].
    intros [= <-]. subst. destruct (Hw _ _ Hget) as [-> _]. by rewrite Hid.
  - intros k1 k2 r1 r2. rewrite !dict_get_set. repeat case_bool_decide; subst; try done.
    + intros [= <-] Hr2 Hne Ha1 Ha2. rewrite Hres, (evolves_conflicts _ _ _ He).
      apply (Ha k1 k2); auto.
    + intros Hr1 [= <-] Hne Ha1 Ha2.
      rewrite Hres, _scope_conflicts_sym, (evolves_conflicts _ _ _ He), _scope_conflicts_sym.
      apply (Ha k1 k2); auto.
    + by apply Ha.
  - intros p. rewrite count_active. etrans; [|apply (Hc p)]. rewrite count_active.
    apply inj_le. apply filter_values_update with (v0 := r); [done|].
    rewrite Hp. rewrite !andb_true_iff. naive_solver.
  - intros t. rewrite count_active. etrans; [|apply (Hm t)]. rewrite count_active.
    apply inj_le. apply filter_values_update with (v0 := r); [done|].
    rewrite Ht. rewrite !andb_true_iff. naive_solver.
Qed.

Lemma existsb_active_false p st k r :
  existsb p (List.filter active (values st)) = false →
  dict_get k (_records st) = Some r → active r = true → p r = false.
Proof.
  intros He Hget Ha. apply not_true_is_false. intros Hp.
  assert (existsb p (List.filter active (values st)) = true); [|congruence].
  apply existsb_exists. exists r. split; [|done]. apply filter_In. split; [|done].
  apply list_elem_of_In. by eapply values_elem_of.
Qed.

Lemma inv_insert st r r' :
  store_inv st → admission_id r ∉ dict_keys (_records st) →
  _reservation_conflict st r = None → evolves r r' →
  store_inv (set_records st (dict_set (admission_id r) r' (_records st))).
Proof.
  intros [Hk Hw Ha Hc Hm] Hfresh Hconf He.
  pose proof (evolves_keys _ _ He) as [Hp Ht].
  pose proof He as (Hwf' & Hid & Hres & Hsc & Hrepo & Hact).
  unfold _reservation_conflict in Hconf.
  destruct (existsb (λ c, bool_decide _) _) eqn:Hag; [done|].
  destruct (Z.leb_spec (_account_capacity st)
    (count_if (λ c, bool_decide (account_pair c = account_pair r))
       (List.filter active (values st)))) as [|Hacc]; [done|].
  destruct (Z.leb_spec (_account_model_capacity st)
    (count_if (λ c, bool_decide (model_triple c = model_triple r))
       (List.filter active (values st)))) as [|Hmod]; [done|].
  destruct (existsb (λ c, _scope_conflicts c r) _) eqn:Hscope; [done|].
  assert (∀ k1 r1, dict_get k1 (_records st) = Some r1 → active r1 = true →
    agent_id (resource r1) ≠ agent_id (resource r') ∧ _scope_conflicts r1 r' = false) as Hfree.
  { intros k1 r1 Hr1 Ha1. rewrite Hres.
    pose proof (existsb_active_false _ _ _ _ Hag Hr1 Ha1) as H1%bool_decide_eq_false.
    pose proof (existsb_active_false _ _ _ _ Hscope Hr1 Ha1) as H2.
    by rewrite _scope_conflicts_sym, (evolves_conflicts _ _ _ He), _scope_conflicts_sym. }
  constructor; cbn [_records set_records _account_capacity _account_model_capacity].
  - by apply NoDup_dict_set.
  - intros k1 r1. rewrite dict_get_set. case_bool_decide; [|by apply Hw].
    intros [= <-]. by subst.
  - intros k1 k2 r1 r2. rewrite !dict_get_set. repeat case_bool_decide; subst; try done.
    + intros [= <-] Hr2 Hne Ha1 Ha2. rewrite _scope_conflicts_sym.
      destruct (Hfree _ _ Hr2 Ha2). auto.
    + intros Hr1 [= <-] Hne Ha1 Ha2. by apply (Hfree k1).
    + by apply Ha.
  - intros p. rewrite count_active. cbn [_records set_records].
    rewrite filter_values_insert, length_app by done.
    pose proof (Hc p) as Hcp. rewrite count_active in Hcp.
    unfold count_if in Hacc. rewrite filter_andb in Hacc. unfold values in Hacc.
    destruct (active r' && _) eqn:Hq; cbn [length]; [|lia].
    apply andb_true_iff in Hq as [_ Hq%bool_decide_eq_true]. rewrite Hp in Hq. subst p. lia.
  - intros p. rewrite count_active. cbn [_records set_records].
    rewrite filter_values_insert, length_app by done.
    pose proof (Hm p) as Hcp. rewrite count_active in Hcp.
    unfold count_if in Hmod. rewrite filter_andb in Hmod. unfold values in Hmod.
    destruct (active r' && _) eqn:Hq; cbn [length]; [|lia].
    apply andb_true_iff in Hq as [_ Hq%bool_decide_eq_true]. rewrite Ht in Hq. subst p. lia.
Qed.

(** ** The methods as functions of the store *)

(** [transition] on every branch. *)
Definition transition_result (id : string) (target : AdmissionState)
  (expected_revision : pyval) (now : datetime) (st : AdmissionStore)
  : AdmissionStore * result AdmissionRecord :=
  if negb (dt_aware now) then (st, Err (AdmissionError "invalid_admission_time"))
  else match dict_get id (_records st) with
  | None => (st, Err (AdmissionError "admission_not_found"))
  | Some r =>
      match _bounded_int expected_revision "invalid_admission_revision" 0 (10 ^ 12) with
      | Err e => (st, Err e)
      | Ok expected =>
          if negb (revision r =? expected)
          then (st, Err (AdmissionError "stale_admission_revision"))
          else match advance_result r target now with
               | Err e => (st, Err e)
               | Ok r' => (set_records st (dict_set id r' (_records st)), Ok r')
               end
      end
  end.

Lemma transition_eq id target rev now st :
  store_inv st → transition id target rev now st = transition_result id target rev now st.
Proof.
  intros Hinv. unfold transition, _transition, transition_result, get, _aware.
  rewrite st_bind_eq. unfold st_lift at 1.
  destruct (dt_aware now); [|done]. simpl.
  rewrite !st_bind_eq. unfold st_get, st_lift.
  destruct (dict_get id (_records st)) as [r|] eqn:Hget; [|done].
  destruct (inv_wf _ Hinv _ _ Hget) as [-> Hwf].
  unfold _transition_locked. rewrite st_bind_eq. unfold st_lift at 1.
  destruct (_bounded_int rev _ _ _) as [e|e]; [|done].
  rewrite st_bind_eq. unfold st_lift at 1.
  destruct (revision r =? e); [|done]. simpl. unfold st_lift.
  rewrite st_bind_eq, advance_eq by done.
  destruct (advance_result r target now) as [r'|e'] eqn:Hadv; [|done].
  rewrite st_bind_eq. unfold write_record. rewrite <- advance_eq in Hadv by done.
  apply advance_evolves in Hadv as (_ & -> & _); done.
Qed.

Lemma transition_inv id target rev now st :
  store_inv st → store_inv (transition id target rev now st).1.
Proof.
  intros Hinv. rewrite transition_eq by done. unfold transition_result.
  destruct (negb _); [done|].
  destruct (dict_get id (_records st)) as [r|] eqn:Hget; [|done].
  destruct (_bounded_int rev _ _ _) as [e|e]; [|done].
  destruct (negb _); [done|].
  destruct (advance_result r target now) as [r'|e'] eqn:Hadv; [|done].
  destruct (inv_wf _ Hinv _ _ Hget) as [-> Hwf].
  rewrite <- advance_eq in Hadv by done.
  apply (inv_update st _ r); [done|done|by eapply advance_evolves].
Qed.

(** *** Expiry *)

Lemma advance_expire r now :
  dt_aware now = true → record_wf r → expirable r = true →
  advance r EXPIRED now =
    if revision r =? 10 ^ 12 then Err (AdmissionError "invalid_admission_revision")
    else Ok (with_state r EXPIRED (revision r + 1)).
Proof.
  intros Hnow Hwf Hx. rewrite advance_eq by done. unfold advance_result. rewrite Hnow, Hx.
  rewrite (bool_decide_true (EXPIRED ∈ _ALLOWED_TRANSITIONS _)) by (by apply expirable_expires).
  change (bool_decide (EXPIRED ∈ [EXPIRED; COMPENSATED])) with true.
  by rewrite andb_false_r.
Qed.

Lemma expire_loop_cons r snap now st :
  dt_aware now = true → record_wf r →
  expire_loop (r :: snap) now st =
  if expirable r && dt_leb (expires_at_utc r) now then
    if revision r =? 10 ^ 12 then (st, Err (AdmissionError "invalid_admission_revision"))
    else
      let r' := with_state r EXPIRED (revision r + 1) in
      let st' := set_records st (dict_set (admission_id r) r' (_records st)) in
      match expire_loop snap now st' with
      | (st2, Ok l) => (st2, Ok (r' :: l))
      | (st2, Err e) => (st2, Err e)
      end
  else expire_loop snap now st.
Proof.
  intros Hnow Hwf. cbn [expire_loop]. rewrite st_bind_eq.
  destruct (expirable r) eqn:Hx; [|done].
  unfold st_lift at 1, is_expired, _aware. rewrite Hnow. simpl.
  destruct (dt_leb (expires_at_utc r) now) eqn:Hle; [|done].
  rewrite st_bind_eq. unfold st_lift.
  rewrite advance_expire by done.
  by destruct (revision r =? 10 ^ 12).
Qed.

Lemma expire_loop_inv snap now st :
  dt_aware now = true → store_inv st → NoDup (admission_id <$> snap) →
  (∀ r, r ∈ snap → dict_get (admission_id r) (_records st) = Some r) →
  store_inv (expire_loop snap now st).1.
Proof.
  intros Hnow. revert st. induction snap as [|r snap IH]; intros st Hinv Hnd Hin; [done|].
  cbn in Hnd. apply NoDup_cons in Hnd as [Hni Hnd].
  pose proof (Hin r ltac:(by constructor)) as Hget.
  destruct (inv_wf _ Hinv _ _ Hget) as [_ Hwf].
  rewrite expire_loop_cons by done.
  destruct (expirable r && _) eqn:Hx; [|by apply IH; try done; intros; apply Hin; constructor].
  destruct (Z.eqb_spec (revision r) (10 ^ 12)); [done|]. cbv zeta.
  set (r' := with_state r EXPIRED (revision r + 1)).
  set (st' := set_records st _).
  assert (store_inv (expire_loop snap now st').1) as Hres.
  { apply IH; [|done|].
    - apply (inv_update st _ r); [done|done|].
      apply (advance_evolves r EXPIRED now); [done|].
      apply andb_true_iff in Hx as [Hx _]. rewrite advance_expire by done.
      destruct (Z.eqb_spec (revision r) (10 ^ 12)); done.
    - intros r2 Hr2. cbn. rewrite dict_get_set_ne; [by apply Hin; constructor|].
      intros Heq. apply Hni. rewrite Heq. by apply list_elem_of_fmap_2. }
  by destruct (expire_loop snap now st') as [st2 [l|e]].
Qed.

Lemma inv_snapshot st r :
  store_inv st → r ∈ values st → dict_get (admission_id r) (_records st) = Some r.
Proof.
  intros Hinv [[k r0] [-> Hin]]%list_elem_of_fmap.
  pose proof (elem_of_dict_get _ _ _ (inv_keys _ Hinv) Hin) as Hget. cbn.
  by destruct (inv_wf _ Hinv _ _ Hget) as [<- _].
Qed.

Lemma inv_ids st : store_inv st → NoDup (admission_id <$> values st).
Proof.
  intros Hinv. assert (admission_id <$> values st = dict_keys (_records st)) as ->;
    [|by apply Hinv].
  unfold values, dict_values, dict_keys. rewrite <- list_fmap_compose.
  apply list_fmap_ext. intros i [k r] Hi. cbn.
  apply list_elem_of_lookup_2 in Hi.
  pose proof (elem_of_dict_get _ _ _ (inv_keys _ Hinv) Hi) as Hget.
  by destruct (inv_wf _ Hinv _ _ Hget) as [<- _].
Qed.

Lemma expire_locked_inv now st :
  dt_aware now = true → store_inv st → store_inv (_expire_locked now st).1.
Proof.
  intros Hnow Hinv. apply expire_loop_inv; [done|done|by apply inv_ids|].
  intros r. by apply inv_snapshot.
Qed.

(** One entry after expiry at [now]. *)
Definition expired_at (now : datetime) (r : AdmissionRecord) : bool :=
  expirable r && dt_leb (expires_at_utc r) now.

Definition expire_entry (now : datetime) (e : string * AdmissionRecord)
  : string * AdmissionRecord :=
  if expired_at now e.2 then (e.1, with_state e.2 EXPIRED (revision e.2 + 1)) else e.

Lemma dict_set_app {V} k (v v0 : V) pre post :
  k ∉ dict_keys pre → dict_set k v (pre ++ (k, v0) :: post) = pre ++ (k, v) :: post.
Proof.
  induction pre as [|[k1 v1] pre IH]; cbn.
  - by simpl_bd.
  - rewrite not_elem_of_cons. intros [Hne Hni]. simpl_bd. by rewrite IH.
Qed.

Lemma expire_loop_spec now st pre post :
  dt_aware now = true → _records st = pre ++ post → NoDup (dict_keys (pre ++ post)) →
  (∀ k r, (k, r) ∈ post → k = admission_id r ∧ record_wf r ∧ revision r < 10 ^ 12) →
  expire_loop (dict_values post) now st =
  (set_records st (pre ++ (expire_entry now <$> post)),
   Ok (dict_values (expire_entry now <$> List.filter (λ e, expired_at now e.2) post))).
Proof.
  intros Hnow. revert st pre. induction post as [|[k r] post IH]; intros st pre Hst Hnd Hpost.
  - cbn. rewrite app_nil_r in *. destruct st; cbn in *. by subst.
  - destruct (Hpost k r ltac:(by constructor)) as (-> & Hwf & Hrev).
    cbn [dict_values fmap list_fmap]. rewrite expire_loop_cons by done.
    unfold expire_entry at 1, expired_at at 1. cbn [fst snd List.filter].
    unfold expired_at at 1. cbn [snd].
    assert (admission_id r ∉ dict_keys pre) as Hni.
    { unfold dict_keys in Hnd. rewrite fmap_app, fmap_cons in Hnd.
      apply NoDup_app in Hnd as (_ & Hdis & _). intros Hin.
      apply (Hdis _ Hin). by constructor. }
    destruct (expirable r && dt_leb (expires_at_utc r) now) eqn:Hx.
    + destruct (Z.eqb_spec (revision r) (10 ^ 12)); [lia|]. cbv zeta.
      rewrite Hst, dict_set_app by done. fold (dict_values post).
      rewrite (IH _ (pre ++ [(admission_id r, with_state r EXPIRED (revision r + 1))])).
      * cbn. rewrite <- app_assoc. unfold expire_entry, expired_at. cbn. by rewrite Hx.
      * cbn. by rewrite <- app_assoc.
      * unfold dict_keys in *. rewrite !fmap_app in *. cbn in *. rewrite <- app_assoc. done.
      * intros k' r' Hin. apply Hpost. by constructor.
    + fold (dict_values post). rewrite (IH st (pre ++ [(admission_id r, r)])).
      * by rewrite <- app_assoc.
      * by rewrite <- app_assoc.
      * unfold dict_keys in *. rewrite !fmap_app in *. cbn in *. rewrite <- app_assoc. done.
      * intros k' r' Hin. apply Hpost. by constructor.
Qed.

(** *** Reservation *)

(** [reserve] on every branch. *)
Definition reserve_result (r : AdmissionRecord) (now : datetime) (st : AdmissionStore)
  : AdmissionStore * result AdmissionRecord :=
  if negb (dt_aware now) then (st, Err (AdmissionError "invalid_admission_time"))
  else if negb (bool_decide (state r = PLANNED))
  then (st, Err (AdmissionError "record_must_be_planned"))
  else match _expire_locked now st with
  | (st1, Err e) => (st1, Err e)
  | (st1, Ok _) =>
      if dict_mem (admission_id r) (_records st1)
      then (st1, Err (AdmissionError "duplicate_admission_id"))
      else match _reservation_conflict st1 r with
      | Some conflict => (st1, Err (AdmissionError conflict))
      | None =>
          match advance r RESERVED now with
          | Err e => (st1, Err e)
          | Ok r' => (set_records st1 (dict_set (admission_id r') r' (_records st1)), Ok r')
          end
      end
  end.

Lemma reserve_eq r now st : reserve r now st = reserve_result r now st.
Proof.
  unfold reserve, reserve_result, _aware. rewrite st_bind_eq. unfold st_lift at 1.
  destruct (dt_aware now); [|done].
  rewrite st_bind_eq. unfold st_lift at 1, require.
  destruct (bool_decide (state r = PLANNED)); [|done].
  rewrite st_bind_eq. destruct (_expire_locked now st) as [st1 [l|e]]; [|done].
  rewrite st_bind_eq. unfold st_get at 1. rewrite st_bind_eq. unfold st_lift at 1, require.
  destruct (dict_mem (admission_id r) (_records st1)); [done|].
  rewrite st_bind_eq. unfold st_lift at 1.
  destruct (_reservation_conflict st1 r); [done|].
  rewrite st_bind_eq. unfold st_lift.
  by destruct (advance r RESERVED now).
Qed.

Lemma reserve_inv r now st :
  store_inv st → record_wf r → store_inv (reserve r now st).1.
Proof.
  intros Hinv Hwf. rewrite reserve_eq. unfold reserve_result.
  destruct (dt_aware now) eqn:Hnow; [|done]. cbn [negb].
  destruct (bool_decide (state r = PLANNED)); [|done]. cbn [negb].
  pose proof (expire_locked_inv now st Hnow Hinv) as Hinv1.
  destruct (_expire_locked now st) as [st1 [l|e]]; [|done]. cbn [fst] in Hinv1.
  unfold dict_mem. case_bool_decide as Hmem; [done|].
  destruct (_reservation_conflict st1 r) eqn:Hc; [done|].
  destruct (advance r RESERVED now) as [r'|e] eqn:Hadv; [|done].
  pose proof (advance_evolves _ _ _ _ Hwf Hadv) as He.
  pose proof He as (_ & Hid & _). rewrite Hid. cbn [fst].
  apply inv_insert; [done| |done|done].
  by rewrite elem_of_dict_keys.
Qed.

(** ** Reachable stores

    One step is one method call, with any arguments and whatever outcome; a
    record handed to [reserve] went through its constructors. *)

Inductive store_call : AdmissionStore → AdmissionStore → Prop :=
  | call_reserve r now st :
      record_wf r → store_call st (reserve r now st).1
  | call_transition id target rev now st :
      store_call st (transition id target rev now st).1
  | call_complete_revalidation id rev valid now st :
      store_call st (complete_revalidation id rev valid now st).1
  | call_finalize id rev now st :
      store_call st (finalize id rev now st).1
  | call_expire now st :
      store_call st (expire now st).1.

Lemma complete_revalidation_inv id rev valid now st :
  store_inv st → store_inv (complete_revalidation id rev valid now st).1.
Proof.
  intros Hinv. destruct valid as [|b| | | | |]; cbn; try done. by apply transition_inv.
Qed.

Lemma finalize_inv id rev now st :
  store_inv st → store_inv (finalize id rev now st).1.
Proof.
  intros Hinv. unfold finalize, get. rewrite !st_bind_eq. unfold st_get, st_lift.
  destruct (dict_get id (_records st)) as [r|]; [|done].
  destruct (bool_decide (state r = FINALIZED)); [done|]. by apply transition_inv.
Qed.

Lemma expire_inv now st : store_inv st → store_inv (expire now st).1.
Proof.
  intros Hinv. unfold expire, _aware. rewrite st_bind_eq. unfold st_lift.
  destruct (dt_aware now) eqn:Hnow; [|done]. by apply expire_locked_inv.
Qed.

Lemma store_call_inv st st' : store_call st st' → store_inv st → store_inv st'.
Proof.
  destruct 1; auto using reserve_inv, transition_inv, complete_revalidation_inv,
    finalize_inv, expire_inv.
Qed.

Lemma new_store_inv a b c st : AdmissionStore_new a b c = Ok st → store_inv st.
Proof.
  unfold AdmissionStore_new. intros H.
  apply bind_Ok in H as (ca & Ha & H). apply bind_Ok in H as (cb & Hb & H).
  apply bind_Ok in H as (cc & Hc & [= <-]).
  apply _bounded_int_Ok in Ha as [_ ?]. apply _bounded_int_Ok in Hb as [_ ?].
  apply _bounded_int_Ok in Hc as [_ ?].
  constructor; cbn; try done; [constructor| |]; unfold count_if; cbn; lia.
Qed.

Lemma reachable_inv a b c st0 st :
  AdmissionStore_new a b c = Ok st0 → rtc store_call st0 st → store_inv st.
Proof.
  intros H0 Hr. apply new_store_inv in H0.
  induction Hr; eauto using store_call_inv.
Qed.

(** ** Following one admission

    What a client that owns one admission of the store can rely on; [origin]
    tells the active records that are not its concern. *)

Section ownership.
Context (origin : string → AdmissionRecord → Prop).

(** Every active record, that of [own] apart, is accounted for. *)
Definition tracked (own : option string) (st : AdmissionStore) : Prop :=
  ∀ k r, dict_get k (_records st) = Some r → active r = true →
    own = Some k ∨ origin k r.

Definition Idle (st : AdmissionStore) : Prop := store_inv st ∧ tracked None st.

(** The client holds the stored version [c], which may advance [n] times. *)
Record Busy (n : Z) (c : AdmissionRecord) (st : AdmissionStore) : Prop := {
  busy_inv : store_inv st;
  busy_tracked : tracked (Some (admission_id c)) st;
  busy_stored : dict_get (admission_id c) (_records st) = Some c;
  busy_budget : revision c + n <= 10 ^ 12;
}.

(** The client's admission is no longer active. *)
Definition Done (id : string) (st : AdmissionStore) : Prop :=
  Idle st ∧ ∀ r, dict_get id (_records st) = Some r → active r = false.

Lemma busy_weaken n m c st : Busy n c st → m <= n → Busy m c st.
Proof. intros [? ? ? ?] ?. split; try done. lia. Qed.

Lemma busy_done n c st : Busy n c st → active c = false → Done (admission_id c) st.
Proof.
  intros [Hinv Ht Hc _] Ha. split; [split; [done|]|].
  - intros k r Hk Hr. destruct (Ht k r Hk Hr) as [[= <-]|?]; [|by right]. congruence.
  - intros r Hr. congruence.
Qed.

Lemma transition_busy n c tgt now st :
  Busy (n + 1) c st → 0 <= n →
  match transition (admission_id c) tgt (VInt (revision c)) now st with
  | (st', Ok c') => Busy n c' st' ∧ state c' = tgt ∧ admission_id c' = admission_id c
      ∧ resource c' = resource c
  | (st', Err e) => st' = st ∧ (∃ m, e = AdmissionError m) ∧
      (dt_aware now = true → tgt ∈ _ALLOWED_TRANSITIONS (state c) → expired_at now c = true)
  end.
Proof.
  intros [Hinv Ht Hc Hb] Hn. rewrite transition_eq by done. unfold transition_result.
  destruct (inv_wf _ Hinv _ _ Hc) as [_ Hwf].
  destruct (dt_aware now) eqn:Hnow; cbn [negb]; [|split_and!; [done|by eexists|done]].
  pose proof (record_wf_revision _ Hwf) as Hrev.
  rewrite Hc. unfold _bounded_int. replace ((0 <=? revision c) && (revision c <=? 10 ^ 12)) with true by lia.
  rewrite Z.eqb_refl. cbn [negb].
  destruct (advance_result c tgt now) as [c'|e] eqn:Hadv.
  - rewrite <- advance_eq in Hadv by done.
    pose proof (advance_evolves _ _ _ _ Hwf Hadv) as He.
    apply advance_Ok in Hadv as (_ & _ & _ & _ & ->); [|done].
    split_and!; try done. split; cbn.
    + by apply (inv_update st _ c).
    + intros k r. cbn. rewrite dict_get_set. case_bool_decide; [subst; by left|].
      intros Hk Hr. destruct (Ht k r Hk Hr) as [[= <-]|?]; [done|by right].
    + by rewrite dict_get_set_eq.
    + lia.
  - unfold advance_result in Hadv. rewrite Hnow in Hadv. cbn [negb] in Hadv.
    split_and!; [done| |].
    + clear -Hadv. repeat (case_match; [|]); simplify_eq; by eexists.
    + intros _ Hallow. rewrite bool_decide_true in Hadv by done. cbn in Hadv.
      unfold expired_at. destruct (expirable c && dt_leb _ now) eqn:Hx; [done|].
      cbn in Hadv. destruct (Z.eqb_spec (revision c) (10 ^ 12)); [lia|done].
Qed.

Lemma transition_done id tgt rev now st :
  Done id st →
  match transition id tgt rev now st with
  | (st', Ok c') => Done id st' ∧ admission_id c' = id
  | (st', Err e) => Done id st' ∧ ∃ m, e = AdmissionError m
  end.
Proof.
  intros Hdone. pose proof Hdone as [[Hinv Ht] Hd].
  pose proof (transition_inv id tgt rev now st Hinv) as Hinv'.
  rewrite transition_eq in * by done. unfold transition_result in *.
  destruct (negb (dt_aware now)); [by split; [|eexists]|].
  destruct (dict_get id (_records st)) as [r|] eqn:Hget; [|by split; [|eexists]].
  destruct (_bounded_int _ _ _ _) as [z|e] eqn:Hz.
  2:{ split; [done|]. unfold _bounded_int in Hz. repeat case_match; simplify_eq; by eexists. }
  destruct (negb _); [by split; [|eexists]|].
  destruct (inv_wf _ Hinv _ _ Hget) as [-> Hwf].
  destruct (advance_result r tgt now) as [r'|e] eqn:Hadv.
  - rewrite <- advance_eq in Hadv by done.
    pose proof (advance_evolves _ _ _ _ Hwf Hadv) as (_ & Hid & _ & _ & _ & Ha).
    specialize (Hd r eq_refl).
    assert (active r' = false) as Ha' by (destruct (active r'); [by rewrite Ha in Hd|done]).
    split; [|done]. split; [split; [done|]|].
    + intros k r0. cbn. rewrite dict_get_set. case_bool_decide; [congruence|]. by apply Ht.
    + intros r0. cbn. rewrite dict_get_set_eq. congruence.
  - split; [done|]. unfold advance_result in Hadv.
    repeat case_match; simplify_eq; by eexists.
Qed.

Lemma expire_loop_tracked snap now st k r :
  dict_get k (_records (expire_loop snap now st).1) = Some r → active r = true →
  dict_get k (_records st) = Some r.
Proof.
  revert st; induction snap as [|x snap IH]; intros st; cbn [expire_loop]; [done|].
  rewrite st_bind_eq.
  destruct (expirable x); unfold st_lift at 1, mret at 1, st_ret at 1; [|by apply IH].
  destruct (is_expired x now) as [[]|e]; [|by apply IH|done].
  rewrite st_bind_eq. unfold st_lift. destruct (advance x EXPIRED now) as [x'|e] eqn:Hadv; [|done].
  rewrite st_bind_eq. unfold write_record. rewrite st_bind_eq.
  specialize (IH (set_records st (dict_set (admission_id x') x' (_records st)))).
  destruct (expire_loop snap now _) as [st2 [l|e]]; cbn in *; intros Hk Hr;
    specialize (IH Hk Hr); rewrite dict_get_set in IH; case_bool_decide; try done;
    simplify_eq; exfalso; clear -Hadv Hr.
  all: unfold advance, record_replace, AdmissionRecord_new in Hadv;
    repeat (apply bind_Ok in Hadv as (? & _ & Hadv)); injection Hadv as <-; done.
Qed.

Lemma expire_locked_tracked own now st :
  tracked own st → tracked own (_expire_locked now st).1.
Proof. intros Ht k r Hk Ha. apply expire_loop_tracked in Hk; [|done]. by apply Ht. Qed.

Lemma reserve_busy n r now st :
  Idle st → record_wf r → revision r + n + 1 <= 10 ^ 12 →
  match reserve r now st with
  | (st', Ok c) => Busy n c st' ∧ state c = RESERVED ∧ resource c = resource r
  | (st', Err e) => Idle st' ∧ (dt_aware now = true → is_ok (_expire_locked now st).2 = true →
      ∃ m, e = AdmissionError m)
  end.
Proof.
  intros [Hinv Ht] Hwf Hn. pose proof (reserve_inv r now st Hinv Hwf) as Hinv'.
  rewrite reserve_eq in *. unfold reserve_result in *.
  destruct (dt_aware now) eqn:Hnow; cbn [negb] in *; [|by split].
  destruct (bool_decide (state r = PLANNED)); cbn [negb] in *; [|split; [done|by eexists]].
  pose proof (expire_locked_tracked None now st Ht) as Ht1.
  destruct (_expire_locked now st) as [st1 [l|e]]; cbn in *; [|by split].
  destruct (dict_mem _ _); [split; [done|by eexists]|].
  destruct (_reservation_conflict st1 r); [split; [done|by eexists]|].
  destruct (advance r RESERVED now) as [r'|e] eqn:Hadv.
  - pose proof (advance_evolves _ _ _ _ Hwf Hadv) as He.
    apply advance_Ok in Hadv as (_ & _ & _ & _ & ->); [|done]. cbn in *.
    split_and!; try done. split; cbn.
    + done.
    + intros k x. cbn. rewrite dict_get_set. case_bool_decide; [subst; by left|].
      intros Hk Hx. destruct (Ht1 k x Hk Hx) as [?|?]; [done|by right].
    + by rewrite dict_get_set_eq.
    + lia.
  - split; [done|]. intros _ _. rewrite advance_eq in Hadv by done. unfold advance_result in Hadv.
    repeat case_match; simplify_eq; by eexists.
Qed.
End ownership.

(** ** Samples *)

Definition sample_store : AdmissionStore :=
  {| _records := []; _agent_capacity := 2; _account_capacity := 1;
     _account_model_capacity := 1 |}.

Definition sample_reserved : AdmissionRecord := with_state sample_record RESERVED 1.

Definition sample_busy_store : AdmissionStore :=
  set_records sample_store [("adm-1", sample_reserved)].

Lemma sample_busy_inv : store_inv sample_busy_store.
Proof.
  change sample_busy_store with (reserve sample_record sample_later sample_store).1.
  apply reserve_inv; [|exact sample_record_wf].
  apply (new_store_inv (VInt 2) (VInt 1) (VInt 1)). reflexivity.
Defined.

(** ** Liveness *)

Lemma expired_active_false now r :
  expired_at now r = true → active (with_state r EXPIRED (revision r + 1)) = false.
Proof. done. Qed.

(** Once every active record has expired, expiry leaves none active. *)
Lemma expire_entries_inactive now d :
  (∀ k r, (k, r) ∈ d → active r = true → expired_at now r = true) →
  List.filter active (dict_values (expire_entry now <$> d)) = [].
Proof.
  induction d as [|[k r] d IH]; intros Hd; [done|].
  cbn [fmap list_fmap dict_values List.filter]. fold (dict_values (expire_entry now <$> d)).
  rewrite IH by (intros k' r' Hin; apply (Hd k'); by right).
  unfold expire_entry. cbn [snd]. destruct (expired_at now r) eqn:Hx; [done|].
  cbn [snd]. destruct (active r) eqn:Ha; [|done].
  rewrite (Hd k r ltac:(by left) Ha) in Hx. done.
Qed.

Lemma dict_keys_expire now d : dict_keys (expire_entry now <$> d) = dict_keys d.
Proof.
  unfold dict_keys. rewrite <- list_fmap_compose. apply list_fmap_ext.
  intros i [k r] _. cbn. unfold expire_entry. by case_match.
Qed.

(** ** Properties *)

(** C1: in every store reachable from an empty one by any sequence of method
    calls, two distinct active records never hold the same agent, never
    overlap in scope unless both only read, and no account or account/model
    pair holds more active records than its configured capacity. *)
Theorem store_exclusive a b c st0 st :
  AdmissionStore_new a b c = Ok st0 → rtc store_call st0 st →
  (∀ k1 k2 r1 r2,
     dict_get k1 (_records st) = Some r1 → dict_get k2 (_records st) = Some r2 →
     k1 ≠ k2 → active r1 = true → active r2 = true →
     agent_id (resource r1) ≠ agent_id (resource r2) ∧ _scope_conflicts r1 r2 = false)
  ∧ (∀ p, count_if (λ r, bool_decide (account_pair r = p)) (active_values st)
            <= _account_capacity st)
  ∧ (∀ t, count_if (λ r, bool_decide (model_triple r = t)) (active_values st)
            <= _account_model_capacity st).
Proof.
  intros H0 Hr. pose proof (reachable_inv _ _ _ _ _ H0 Hr) as [_ _ Ha Hc Hm]. done.
Qed.

Lemma store_exclusive_witness :
  AdmissionStore_new (VInt 2) (VInt 1) (VInt 1) = Ok sample_store
  ∧ count_if (λ r, bool_decide (account_pair r = ("acct", "weekly")))
      (active_values sample_busy_store) <= 1.
Proof.
  split; [reflexivity|].
  refine (proj1 (proj2 (store_exclusive (VInt 2) (VInt 1) (VInt 1) sample_store
    sample_busy_store eq_refl _)) ("acct", "weekly")).
  apply rtc_once.
  exact (call_reserve sample_record sample_later sample_store sample_record_wf).
Defined.

(** A method that changes a stored record is a compare-and-swap on its
    revision: on a reachable store it returns what [transition_result]
    prescribes for each branch, a failing call leaves the store untouched,
    and after a successful call a second one with the same expected revision
    fails as stale, whatever its target. *)
Theorem transition_compare_and_swap id target rev now st :
  store_inv st →
  transition id target rev now st = transition_result id target rev now st
  ∧ (is_ok (transition id target rev now st).2 = false →
     (transition id target rev now st).1 = st)
  ∧ (is_ok (transition id target rev now st).2 = true →
     ∀ target' now', dt_aware now' = true →
       (transition id target' rev now' (transition id target rev now st).1).2
       = Err (AdmissionError "stale_admission_revision")).
Proof.
  intros Hinv. pose proof (transition_inv id target rev now st Hinv) as Hinv'.
  split; [by apply transition_eq|].
  rewrite (transition_eq id target rev now st) in * by done. unfold transition_result in *.
  destruct (negb _); [done|].
  destruct (dict_get id (_records st)) as [r|] eqn:Hget; [|done].
  destruct (_bounded_int rev _ _ _) as [e|e] eqn:Hrev; [|done].
  destruct (Z.eqb_spec (revision r) e) as [<-|]; [|done]. cbn [negb].
  destruct (advance_result r target now) as [r'|e'] eqn:Hadv; [|done].
  split; [done|]. intros _ t' n' Hn'. cbn [fst] in *.
  rewrite transition_eq by done. unfold transition_result. rewrite Hn'. cbn.
  rewrite dict_get_set_eq, Hrev.
  destruct (inv_wf _ Hinv _ _ Hget) as [_ Hwf].
  rewrite <- advance_eq in Hadv by done.
  apply advance_Ok in Hadv as (_ & _ & _ & _ & ->); [|done]. cbn.
  destruct (Z.eqb_spec (revision r + 1) (revision r)); [lia|done].
Qed.

Lemma transition_compare_and_swap_witness :
  (transition "adm-1" CANCELLED (VInt 1) sample_later
     (transition "adm-1" REVALIDATING (VInt 1) sample_later sample_busy_store).1).2
  = Err (AdmissionError "stale_admission_revision").
Proof.
  exact (proj2 (proj2 (transition_compare_and_swap "adm-1" REVALIDATING (VInt 1)
    sample_later sample_busy_store sample_busy_inv)) eq_refl CANCELLED sample_later eq_refl).
Defined.

(** A reservation that succeeds stores the planned record as [RESERVED]
    at its next revision, under an id no other record has, with no active
    record of the same agent and no conflicting scope left in the store and
    both capacities not yet used up before it, and only for a record that has
    not expired. *)
Theorem reserve_success r now st st' r' :
  store_inv st → record_wf r → reserve r now st = (st', Ok r') →
  r' = with_state r RESERVED (revision r + 1)
  ∧ state r = PLANNED
  ∧ dt_utc now < dt_utc (expires_at_utc r)
  ∧ dict_get (admission_id r) (_records st') = Some r'
  ∧ (let st1 := (_expire_locked now st).1 in
     admission_id r ∉ dict_keys (_records st1)
     ∧ (∀ k c, dict_get k (_records st1) = Some c → active c = true →
          agent_id (resource c) ≠ agent_id (resource r) ∧ _scope_conflicts c r = false)
     ∧ count_if (λ c, bool_decide (account_pair c = account_pair r)) (active_values st1)
         < _account_capacity st1
     ∧ count_if (λ c, bool_decide (model_triple c = model_triple r)) (active_values st1)
         < _account_model_capacity st1
     ∧ st' = set_records st1 (dict_set (admission_id r) r' (_records st1))).
Proof.
  intros Hinv Hwf. rewrite reserve_eq. unfold reserve_result.
  destruct (dt_aware now) eqn:Hnow; [|done]. cbn [negb].
  case_bool_decide as Hp; [|done]. cbn [negb].
  destruct (_expire_locked now st) as [st1 [l|e]]; [|done].
  unfold dict_mem. case_bool_decide as Hmem; [done|].
  destruct (_reservation_conflict st1 r) eqn:Hc; [done|].
  destruct (advance r RESERVED now) as [r2|e] eqn:Hadv; [|done]. intros [= <- <-].
  pose proof (advance_Ok _ _ _ _ Hwf Hadv) as (_ & _ & Hexp & _ & ->).
  cbn [admission_id with_state _records set_records fst].
  unfold _reservation_conflict in Hc.
  destruct (existsb (λ c, bool_decide _) _) eqn:Hag; [done|].
  destruct (Z.leb_spec (_account_capacity st1)
    (count_if (λ c, bool_decide (account_pair c = account_pair r))
       (List.filter active (values st1)))) as [|Hacc]; [done|].
  destruct (Z.leb_spec (_account_model_capacity st1)
    (count_if (λ c, bool_decide (model_triple c = model_triple r))
       (List.filter active (values st1)))) as [|Hmod]; [done|].
  destruct (existsb (λ c, _scope_conflicts c r) _) eqn:Hscope; [done|].
  split_and!; try done; [| |by rewrite elem_of_dict_keys|].
  - assert (expirable r = true) as Hx by (unfold expirable; by rewrite Hp).
    apply Z.lt_nge. intros Hle. specialize (Hexp Hx Hle).
    by apply (bool_decide_eq_true (RESERVED ∈ [EXPIRED; COMPENSATED])) in Hexp.
  - by rewrite dict_get_set_eq.
  - intros k c Hk Ha. split.
    + by pose proof (existsb_active_false _ _ _ _ Hag Hk Ha) as ?%bool_decide_eq_false.
    + exact (existsb_active_false _ _ _ _ Hscope Hk Ha).
Qed.

Lemma reserve_success_witness :
  reserve sample_record sample_later sample_store = (sample_busy_store, Ok sample_reserved)
  ∧ dt_utc sample_later < dt_utc (expires_at_utc sample_record).
Proof.
  split; [reflexivity|].
  refine (proj1 (proj2 (proj2 (reserve_success sample_record sample_later sample_store
    sample_busy_store sample_reserved _ sample_record_wf eq_refl)))).
  apply (new_store_inv (VInt 2) (VInt 1) (VInt 1)). reflexivity.
Defined.

(** Expiry at [now] advances exactly the stored records whose state may
    expire and whose deadline has passed, in place and in order, returns
    them, leaves every other record untouched, and leaves nothing to expire
    at that instant (records at the last revision excepted, which the
    hypothesis excludes). *)
Theorem expire_exact now st :
  store_inv st → dt_aware now = true →
  (∀ k r, dict_get k (_records st) = Some r → revision r < 10 ^ 12) →
  expire now st =
    (set_records st (expire_entry now <$> _records st),
     Ok (dict_values (expire_entry now <$> List.filter (λ e, expired_at now e.2) (_records st))))
  ∧ List.filter (λ e, expired_at now e.2) (expire_entry now <$> _records st) = [].
Proof.
  intros Hinv Hnow Hrev. split.
  - unfold expire, _aware, _expire_locked. rewrite st_bind_eq. unfold st_lift. rewrite Hnow.
    apply (expire_loop_spec now st [] (_records st)); [done|done|by apply Hinv|].
    intros k r Hin. apply elem_of_dict_get in Hin; [|by apply Hinv].
    destruct (inv_wf _ Hinv _ _ Hin) as [-> Hwf]. by eauto.
  - generalize (_records st). intros d. induction d as [|[k r] d IH]; [done|].
    cbn [fmap list_fmap List.filter]. unfold expire_entry at 1. cbn [fst snd].
    destruct (expired_at now r) eqn:Hx; cbn [snd fst]; [|by rewrite Hx].
    exact IH.
Qed.

Definition sample_deadline : datetime := Datetime 63900000030000000 (Some 0).

Lemma expire_exact_witness :
  expire sample_deadline sample_busy_store =
    (set_records sample_store [("adm-1", with_state sample_record EXPIRED 2)],
     Ok [with_state sample_record EXPIRED 2]).
Proof.
  refine (proj1 (expire_exact sample_deadline sample_busy_store sample_busy_inv eq_refl _)).
  intros k r. cbn. case_bool_decide; [|done]. by intros [= <-].
Defined.

(** C39: holds lapse: if no active record of the store is executing and all
    were created by [bound], then from [bound] plus the longest reservation
    time (120 seconds) on, a planned record that has not expired and whose id
    is new is reserved, whatever the other records hold. *)
Theorem reservation_eventually_accepted bound r now st :
  store_inv st → 1 <= _account_capacity st → 1 <= _account_model_capacity st →
  (∀ k c, dict_get k (_records st) = Some c →
     revision c < 10 ^ 12
     ∧ (active c = true → state c ≠ EXECUTING ∧ dt_utc (created_at_utc c) <= bound)) →
  bound + MAX_RESERVATION_TTL_SECONDS * US_PER_SECOND <= dt_utc now →
  record_wf r → state r = PLANNED → revision r < 10 ^ 12 → dt_aware now = true →
  dt_utc now < dt_utc (expires_at_utc r) → admission_id r ∉ dict_keys (_records st) →
  (reserve r now st).2 = Ok (with_state r RESERVED (revision r + 1)).
Proof.
  intros Hinv Hca Hcm Hold Hnow Hwf Hp Hrev Haware Hlive Hfresh.
  rewrite reserve_eq. unfold reserve_result. rewrite Haware. cbn [negb].
  rewrite bool_decide_eq_true_2 by done. cbn [negb].
  unfold _expire_locked. change (values st) with (dict_values (_records st)).
  rewrite (expire_loop_spec now st [] (_records st)); [|done|done|by apply Hinv|].
  2: { intros k c Hin. apply elem_of_dict_get in Hin; [|by apply Hinv].
       destruct (inv_wf _ Hinv _ _ Hin) as [-> Hwfc]. split_and!; [done..|]. by eapply Hold. }
  cbn [app]. unfold dict_mem. rewrite bool_decide_eq_false_2.
  2: { rewrite <- elem_of_dict_keys. cbn [_records set_records]. by rewrite dict_keys_expire. }
  unfold _reservation_conflict, values. cbn [_records set_records].
  rewrite expire_entries_inactive.
  2: { intros k c Hin Ha. apply elem_of_dict_get in Hin; [|by apply Hinv].
       destruct (inv_wf _ Hinv _ _ Hin) as [-> Hwfc]. destruct (Hold _ _ Hin) as [_ Hc].
       destruct (Hc Ha) as [Hne Hcr]. unfold expired_at, expirable, dt_leb.
       pose proof (record_wf_ttl c Hwfc) as Httl. unfold dt_diff_us in Httl.
       apply andb_true_iff. split; [|apply Z.leb_le; lia].
       unfold active in Ha. by destruct (state c). }
  cbn [existsb count_if List.filter length].
  change (count_if _ []) with 0. rewrite !(proj2 (Z.leb_gt _ _)) by (cbn; lia).
  rewrite advance_eq by done. unfold advance_result. rewrite Haware, Hp. cbn [negb].
  unfold expirable. rewrite Hp. unfold dt_leb. rewrite (proj2 (Z.leb_gt _ _)) by lia.
  cbn [andb bool_decide]. destruct (Z.eqb_spec (revision r) (10 ^ 12)); [lia|].
  rewrite bool_decide_eq_true_2 by (cbn; set_solver). rewrite andb_false_r. done.
Qed.

(** The record of another admission, made after [sample_record]'s hold
    lapsed. *)
Definition sample_next : AdmissionRecord :=
  {| schema_version := VInt 1; admission_id := "adm-2"; request_id := "req-1";
     dispatch_id := "dis-1"; workpackage_id := "wp-1";
     assignment_intent_id := "int-1"; repo_id := "repo"; principal_id := "p";
     parent_principal_id := "q"; grant_id := "g"; grant_digest := "gd";
     work_item_version := 1; scope := sample_scope; resource := sample_resource;
     lease_context := lease_context sample_record; priority := priority sample_record;
     state := PLANNED; created_at_utc := Datetime 63900000120000000 (Some 0);
     expires_at_utc := Datetime 63900000180000000 (Some 0); revision := 0 |}.

Lemma reservation_eventually_accepted_witness :
  (reserve sample_next (Datetime 63900000130000000 (Some 0)) sample_busy_store).2
  = Ok (with_state sample_next RESERVED 1).
Proof.
  apply (reservation_eventually_accepted 63900000000000000 sample_next
    (Datetime 63900000130000000 (Some 0)) sample_busy_store sample_busy_inv).
  - by vm_compute.
  - by vm_compute.
  - intros k c. cbn. case_bool_decide; [|done]. intros [= <-].
    split; [reflexivity|]. intros _. split; [discriminate|]. by vm_compute.
  - by vm_compute.
  - by constructor.
  - reflexivity.
  - by vm_compute.
  - reflexivity.
  - by vm_compute.
  - apply (bool_decide_eq_false ("adm-2" ∈ _)). reflexivity.
Defined.

(** [self._agent_capacity] of an instance set to [n]. *)
Definition with_agent_capacity (n : Z) (st : AdmissionStore) : AdmissionStore :=
  {| _records := _records st; _agent_capacity := n; _account_capacity := _account_capacity st;
     _account_model_capacity := _account_model_capacity st |}.

Lemma expire_loop_capacity n snap now st :
  expire_loop snap now (with_agent_capacity n st) =
  (with_agent_capacity n (expire_loop snap now st).1, (expire_loop snap now st).2).
Proof.
  revert st. induction snap as [|r snap IH]; intros st; [done|]. cbn [expire_loop].
  rewrite !st_bind_eq.
  destruct (expirable r); unfold st_lift, mret, st_ret; [|apply IH].
  destruct (is_expired r now) as [[]|]; [|apply IH|done].
  rewrite !st_bind_eq. destruct (advance r EXPIRED now) as [r'|e]; [|done].
  rewrite !st_bind_eq. unfold write_record.
  change (set_records (with_agent_capacity n st)
            (dict_set (admission_id r') r' (_records (with_agent_capacity n st))))
    with (with_agent_capacity n (set_records st (dict_set (admission_id r') r' (_records st)))).
  rewrite !st_bind_eq, IH.
  by destruct (expire_loop snap now _) as [st2 [l|e]].
Qed.

(** The configured agent capacity is never consulted: whatever value it
    is set to, [reserve] returns the same outcome and leaves the same records,
    so one agent holds at most one active admission even when
    [agent_capacity] allows more. *)
Theorem agent_capacity_ignored n r now st :
  reserve r now (with_agent_capacity n st) =
  (with_agent_capacity n (reserve r now st).1, (reserve r now st).2).
Proof.
  rewrite !reserve_eq. unfold reserve_result.
  destruct (negb (dt_aware now)); [done|].
  destruct (negb (bool_decide _)); [done|].
  unfold _expire_locked at 1. change (values (with_agent_capacity n st)) with (values st).
  rewrite expire_loop_capacity. unfold _expire_locked.
  destruct (expire_loop (values st) now st) as [st1 [l|e]]; [|done]. cbn [fst snd].
  change (_records (with_agent_capacity n st1)) with (_records st1).
  change (_reservation_conflict (with_agent_capacity n st1) r)
    with (_reservation_conflict st1 r).
  destruct (dict_mem _ _); [done|].
  destruct (_reservation_conflict st1 r); [done|].
  by destruct (advance r RESERVED now).
Qed.
