(* ===== verification/Usage.v ===== *)
(** * Usage observations and budget windows

    [src/src/the_hive/selection.py], lines 18 to 421: the typed usage-v2
    observation of the passive SP0 anchor, the schema-2 budget windows, their
    normalisation from an untyped payload and the SP1 usability test. *)

From S2P Require Import Prelude PyTime DynamicPool.

Definition MAX_USAGE_WINDOWS : Z := 64.
Definition MAX_USAGE_QUANTITY : Z := 10 ^ 18.

Definition _USAGE_FIELDS : list string :=
  [ "semantics"; "unit"; "value"; "reset_kind"; "confidence"; "observed_at";
    "stale_after_seconds" ].

Definition _aware (d : datetime) (code : string) : result datetime :=
  if dt_aware d then Ok d else Err (SelectionError code).

Lemma sel_aware_Ok d code d' : _aware d code = Ok d' ↔ d' = d ∧ dt_aware d = true.
Proof. unfold _aware. destruct (dt_aware d); naive_solver. Qed.

Lemma sel_aware_true d code : dt_aware d = true → _aware d code = Ok d.
Proof. intros H. unfold _aware. by rewrite H. Qed.

(** [if v not in {...}: raise e], the value a string afterwards. *)
Definition one_of (v : pyval) (allowed : list string) (e : exn) : result string :=
  ok ← py_in_set v allowed;
  match v with
  | VStr s => if ok : bool then Ok s else Err e
  | _ => Err e
  end.

(** A plain [int] in a range; a [bool] is rejected. *)
Definition int_within (v : pyval) (lo hi : Z) (e : exn) : result Z :=
  match v with
  | VInt z => if (lo <=? z) && (z <=? hi) then Ok z else Err e
  | _ => Err e
  end.

Definition as_bool (v : pyval) (e : exn) : result bool :=
  match v with VBool b => Ok b | _ => Err e end.

Lemma one_of_Ok v l e s : one_of v l e = Ok s ↔ v = VStr s ∧ s ∈ l.
Proof.
  unfold one_of. destruct v; cbn; try (split; [done|by intros [? ?]]).
  destruct (bool_decide _) eqn:Hb.
  - apply bool_decide_eq_true in Hb. naive_solver.
  - apply bool_decide_eq_false in Hb. naive_solver.
Qed.

Lemma int_within_Ok v lo hi e z : int_within v lo hi e = Ok z ↔ v = VInt z ∧ lo <= z <= hi.
Proof.
  destruct v as [| |z'| | | |]; cbn; try (split; [done|by intros [? ?]]).
  destruct (_ && _) eqn:Hp.
  - split; [intros [= <-]; split; [done|lia]|by intros [[= ->] ?]].
  - split; [done|]. intros [[= ->] ?]. lia.
Qed.

Lemma as_bool_Ok v e b : as_bool v e = Ok b ↔ v = VBool b.
Proof. destruct v; naive_solver. Qed.

(** ** The usage observation *)

Record UsageObservation := {
  semantics : string;
  unit : string;
  value : Z;
  reset_kind : string;
  confidence : string;
  observed_at : datetime;
  stale_after_seconds : Z;
}.

#[export] Instance UsageObservation_eq_dec : EqDecision UsageObservation.
Proof. solve_decision. Defined.

Definition CONFIDENCES : list string := ["verified"; "observed"; "unknown"].

Definition UsageObservation_new (sem un va rk co : pyval) (obs : datetime) (stale : pyval)
  : result UsageObservation :=
  sem ← one_of sem ["remaining"; "used"] (SelectionError "invalid_usage_semantics");
  un ← match un with
       | VStr "percent" => Ok "percent"
       | _ => Err (SelectionError "invalid_usage_unit")
       end;
  va ← int_within va 0 100 (SelectionError "invalid_usage_value");
  rk ← one_of rk ["rolling_unanchored"; "rolling_anchored"; "fixed"]
         (SelectionError "invalid_usage_reset_kind");
  co ← one_of co CONFIDENCES (SelectionError "invalid_usage_confidence");
  obs ← _aware obs "invalid_usage_timestamp";
  stale ← int_within stale 1 86400 (SelectionError "invalid_usage_freshness");
  Ok {| semantics := sem; unit := un; value := va; reset_kind := rk; confidence := co;
        observed_at := obs; stale_after_seconds := stale |}.

(** [0 <= (now - then).total_seconds() <= seconds]. *)
Definition age_within (now past : datetime) (seconds : Z) : bool :=
  (0 <=? dt_diff_us now past) && (dt_diff_us now past <=? seconds * US_PER_SECOND).

Definition obs_is_fresh (u : UsageObservation) (now : datetime) : result bool :=
  now ← _aware now "invalid_selection_time";
  Ok (age_within now (observed_at u) (stale_after_seconds u)).

(** [and] does not evaluate its right operand on a false left one. *)
Definition and_then (b : bool) (r : result bool) : result bool :=
  if b then r else Ok false.

Definition is_passive_sp0_due (u : UsageObservation) (now : datetime) : result bool :=
  and_then (bool_decide (semantics u = "remaining")
            && bool_decide (unit u = "percent")
            && (value u =? 100)
            && bool_decide (reset_kind u = "rolling_unanchored")
            && bool_decide (confidence u = "verified"))
    (obs_is_fresh u now).

(** An ISO string of 1 to 40 characters naming an aware instant. *)
Definition _usage_datetime (v : pyval) : result datetime :=
  match v with
  | VStr s =>
      if (1 <=? py_len s) && (py_len s <=? 40) then
        match fromisoformat (replace_Z s) with
        | Some d => _aware d "invalid_usage_timestamp"
        | None => Err (SelectionError "invalid_usage_timestamp")
        end
      else Err (SelectionError "invalid_usage_timestamp")
  | _ => Err (SelectionError "invalid_usage_timestamp")
  end.

Definition usage_required : list string :=
  ["semantics"; "unit"; "value"; "reset_kind"; "confidence"; "observed_at"].

Definition normalize_usage_observation (payload : pyval) : result (option UsageObservation) :=
  match payload with
  | VDict d =>
      if negb (existsb (λ f, bool_decide (f ∈ dict_keys d)) _USAGE_FIELDS) then Ok None
      else if negb (keys_within d _USAGE_FIELDS)
      then Err (SelectionError "invalid_usage_payload")
      else if negb (has_keys d usage_required) then Ok None
      else
        raw ← getitem "observed_at" d;
        parsed ← _usage_datetime raw;
        sem ← getitem "semantics" d;
        un ← getitem "unit" d;
        va ← getitem "value" d;
        rk ← getitem "reset_kind" d;
        co ← getitem "confidence" d;
        u ← UsageObservation_new sem un va rk co parsed
              (default (VInt 900) (dict_get "stale_after_seconds" d));
        Ok (Some u)
  | _ => Err (SelectionError "invalid_usage_payload")
  end.

(** ** Budget windows *)

Record LimitWindow := {
  window_id : string;
  budget_key : string;
  applies_to_model_ids : list string;
  applies_to_model_roles : list string;
  quantity_semantics : string;
  quantity_unit : string;
  quantity_value : Z;
  capacity : option Z;
  absolute_remaining : option Z;
  window_kind : string;
  constraint_relation : string;
  reset_at_utc : option datetime;
  w_reset_kind : option string;
  observed_at_utc : datetime;
  source : string;
  w_confidence : string;
  includes_inflight_usage : bool;
  blocked : bool;
  exhausted : bool;
}.

#[export] Instance LimitWindow_eq_dec : EqDecision LimitWindow.
Proof. solve_decision. Defined.

(** A string of bounded length without control characters. *)
Definition _usage_text (v : pyval) (maximum : Z) (code : string) : result string :=
  match v with
  | VStr s =>
      if (1 <=? py_len s) && (py_len s <=? maximum) && negb (has_control s)
      then Ok s else Err (SelectionError code)
  | _ => Err (SelectionError code)
  end.

Definition opt_quantity (v : pyval) (code : string) : result (option Z) :=
  match v with
  | VNone => Ok None
  | v => q ← int_within v 0 MAX_USAGE_QUANTITY (SelectionError code); Ok (Some q)
  end.

Definition opt_reset_kind (v : pyval) : result (option string) :=
  match v with
  | VNone => Ok None
  | v => k ← one_of v ["rolling"; "fixed"; "unanchored"]
               (SelectionError "invalid_usage_reset_kind"); Ok (Some k)
  end.

Definition opt_aware (o : option datetime) : result (option datetime) :=
  match o with
  | None => Ok None
  | Some d => d ← _aware d "invalid_usage_timestamp"; Ok (Some d)
  end.

(** [LimitWindow(...)] with its [__post_init__]; the two scopes are tuples. *)
Definition LimitWindow_new (wid bkey : pyval) (ids roles : list pyval)
  (sem un va cap rem kind rel : pyval) (reset : option datetime) (rkind : pyval)
  (obs : datetime) (src conf infl bl ex : pyval) : result LimitWindow :=
  wid ← _usage_text wid 128 "invalid_usage_window_id";
  bkey ← _usage_text bkey 128 "invalid_usage_budget_key";
  src ← _usage_text src 64 "invalid_usage_source";
  _ ← require ((Z.of_nat (length ids) <=? 64) && (Z.of_nat (length roles) <=? 16))
        (SelectionError "invalid_usage_model_scope");
  ids ← mapM_result (λ v, _usage_text v 128 "invalid_usage_model_scope") ids;
  roles ← mapM_result (λ v, _usage_text v 128 "invalid_usage_model_scope") roles;
  sem ← one_of sem ["remaining"; "consumed"] (SelectionError "invalid_usage_semantics");
  un ← one_of un ["percent"; "tokens"; "credits"; "requests"]
         (SelectionError "invalid_usage_unit");
  va ← int_within va 0 MAX_USAGE_QUANTITY (SelectionError "invalid_usage_value");
  _ ← require (negb (bool_decide (un = "percent") && (100 <? va)))
        (SelectionError "invalid_usage_value");
  cap ← opt_quantity cap "invalid_usage_capacity";
  rem ← opt_quantity rem "invalid_usage_remaining";
  kind ← one_of kind ["rolling_5h"; "rolling_unanchored"; "fixed"]
           (SelectionError "invalid_usage_window_kind");
  rel ← one_of rel ["conjunctive"; "alternative"] (SelectionError "invalid_usage_relation");
  rkind ← opt_reset_kind rkind;
  obs ← _aware obs "invalid_usage_timestamp";
  reset ← opt_aware reset;
  conf ← one_of conf CONFIDENCES (SelectionError "invalid_usage_confidence");
  infl ← as_bool infl (SelectionError "invalid_usage_flags");
  bl ← as_bool bl (SelectionError "invalid_usage_flags");
  ex ← as_bool ex (SelectionError "invalid_usage_flags");
  Ok {| window_id := wid; budget_key := bkey; applies_to_model_ids := ids;
        applies_to_model_roles := roles; quantity_semantics := sem;
        quantity_unit := un; quantity_value := va; capacity := cap;
        absolute_remaining := rem; window_kind := kind; constraint_relation := rel;
        reset_at_utc := reset; w_reset_kind := rkind; observed_at_utc := obs;
        source := src; w_confidence := conf; includes_inflight_usage := infl;
        blocked := bl; exhausted := ex |}.

Definition window_is_fresh (w : LimitWindow) (now : datetime) (max_age_seconds : pyval)
  : result bool :=
  now ← _aware now "invalid_selection_time";
  age ← int_within max_age_seconds 1 86400 (SelectionError "invalid_usage_freshness");
  Ok (age_within now (observed_at_utc w) age).

Definition usable_for_sp1 (w : LimitWindow) (now : datetime) (max_age_seconds : pyval)
  : result bool :=
  now ← _aware now "invalid_selection_time";
  and_then
    (bool_decide (quantity_semantics w = "remaining")
     && (0 <? quantity_value w)
     && bool_decide (window_kind w ∈ ["rolling_5h"; "fixed"])
     && bool_decide (constraint_relation w = "conjunctive")
     && bool_decide (w_confidence w = "verified")
     && negb (blocked w)
     && negb (exhausted w)
     && match reset_at_utc w with None => true | Some r => dt_ltb now r end)
    (window_is_fresh w now max_age_seconds).

Definition window_allowed : list string :=
  [ "window_id"; "budget_key"; "applies_to_model_ids"; "applies_to_model_roles";
    "quantity_semantics"; "quantity_unit"; "quantity_value"; "capacity";
    "absolute_remaining"; "window_kind"; "constraint_relation"; "reset_at_utc";
    "reset_kind"; "observed_at_utc"; "source"; "confidence";
    "includes_inflight_usage"; "blocked"; "exhausted" ].

Definition window_required : list string :=
  [ "window_id"; "budget_key"; "quantity_semantics"; "quantity_unit";
    "quantity_value"; "window_kind"; "constraint_relation"; "observed_at_utc";
    "source"; "confidence"; "includes_inflight_usage"; "blocked"; "exhausted" ].

(** [raw.get(key)] *)
Definition get_or (v : pyval) (k : string) (d : list (string * pyval)) : pyval :=
  default v (dict_get k d).

Definition scope_list (v : pyval) : result (list pyval) :=
  match v with
  | VList l => Ok l
  | _ => Err (SelectionError "invalid_usage_model_scope")
  end.

Definition scope_texts (l : list pyval) : result (list string) :=
  mapM_result (λ v, _usage_text v 128 "invalid_usage_model_scope") l.

(** One element of [limit_windows]; the arguments of the constructor are
    evaluated in the order of the call. *)
Definition normalize_window (raw : pyval) : result LimitWindow :=
  match raw with
  | VDict d =>
      _ ← require (keys_within d window_allowed) (SelectionError "invalid_usage_window");
      _ ← require (has_keys d window_required) (SelectionError "invalid_usage_window");
      ids ← scope_list (get_or (VList []) "applies_to_model_ids" d);
      roles ← scope_list (get_or (VList []) "applies_to_model_roles" d);
      raw_id ← getitem "window_id" d;
      wid ← _usage_text raw_id 128 "invalid_usage_window_id";
      raw_key ← getitem "budget_key" d;
      bkey ← _usage_text raw_key 128 "invalid_usage_budget_key";
      ids ← scope_texts ids;
      roles ← scope_texts roles;
      sem ← getitem "quantity_semantics" d;
      un ← getitem "quantity_unit" d;
      va ← getitem "quantity_value" d;
      kind ← getitem "window_kind" d;
      rel ← getitem "constraint_relation" d;
      reset ← match get_or VNone "reset_at_utc" d with
              | VNone => Ok None
              | v => t ← _usage_datetime v; Ok (Some t)
              end;
      raw_obs ← getitem "observed_at_utc" d;
      obs ← _usage_datetime raw_obs;
      raw_src ← getitem "source" d;
      src ← _usage_text raw_src 64 "invalid_usage_source";
      conf ← getitem "confidence" d;
      infl ← getitem "includes_inflight_usage" d;
      bl ← getitem "blocked" d;
      ex ← getitem "exhausted" d;
      LimitWindow_new (VStr wid) (VStr bkey) (VStr <$> ids) (VStr <$> roles)
        sem un va (get_or VNone "capacity" d) (get_or VNone "absolute_remaining" d)
        kind rel reset (get_or VNone "reset_kind" d) obs (VStr src) conf infl bl ex
  | _ => Err (SelectionError "invalid_usage_window")
  end.

Definition normalize_usage_v2 (payload : pyval) : result (option (list LimitWindow)) :=
  match payload with
  | VDict d =>
      let version := get_or (VInt 1) "schema_version" d in
      if py_eq_int version 1 then Ok None
      else if negb (py_eq_int version 2)
              || negb (keys_within d ["schema_version"; "limit_windows"])
      then Err (SelectionError "invalid_usage_payload")
      else
        match get_or VNone "limit_windows" d with
        | VList raws =>
            if MAX_USAGE_WINDOWS <? Z.of_nat (length raws)
            then Err (SelectionError "invalid_usage_windows")
            else windows ← mapM_result normalize_window raws; Ok (Some windows)
        | _ => Err (SelectionError "invalid_usage_windows")
        end
  | _ => Err (SelectionError "invalid_usage_payload")
  end.

(** [all(f(x) for x in l)]: stops at the first [False]. *)
Fixpoint all_result {A} (f : A → result bool) (l : list A) : result bool :=
  match l with
  | [] => Ok true
  | x :: l => b ← f x; if b : bool then all_result f l else Ok false
  end.

Definition usage_windows_usable_for_sp1 (windows : list LimitWindow) (now : datetime)
  (max_age_seconds : pyval) : result bool :=
  if bool_decide (windows = [])
     || existsb (λ w, negb (bool_decide (constraint_relation w = "conjunctive"))) windows
     || negb (existsb (λ w, bool_decide (window_kind w = "rolling_5h")) windows)
  then Ok false
  else all_result (λ w, usable_for_sp1 w now max_age_seconds) windows.

(** ** What a normalised window guarantees *)

Definition text_within (maximum : Z) (s : string) : Prop :=
  1 <= py_len s <= maximum ∧ has_control s = false.

Record window_wf (w : LimitWindow) : Prop := {
  wf_window_id : text_within 128 (window_id w);
  wf_budget_key : text_within 128 (budget_key w);
  wf_source : text_within 64 (source w);
  wf_scope : (length (applies_to_model_ids w) <= 64)%nat ∧
             (length (applies_to_model_roles w) <= 16)%nat ∧
             Forall (text_within 128) (applies_to_model_ids w ++ applies_to_model_roles w);
  wf_semantics : quantity_semantics w ∈ ["remaining"; "consumed"];
  wf_unit : quantity_unit w ∈ ["percent"; "tokens"; "credits"; "requests"];
  wf_value : 0 <= quantity_value w <= MAX_USAGE_QUANTITY;
  wf_percent : quantity_unit w = "percent" → quantity_value w <= 100;
  wf_optional : ∀ q, capacity w = Some q ∨ absolute_remaining w = Some q →
                0 <= q <= MAX_USAGE_QUANTITY;
  wf_kind : window_kind w ∈ ["rolling_5h"; "rolling_unanchored"; "fixed"];
  wf_relation : constraint_relation w ∈ ["conjunctive"; "alternative"];
  wf_confidence : w_confidence w ∈ CONFIDENCES;
  wf_observed : dt_aware (observed_at_utc w) = true;
  wf_reset : ∀ d, reset_at_utc w = Some d → dt_aware d = true;
}.

Lemma usage_text_Ok v m c s :
  _usage_text v m c = Ok s ↔ v = VStr s ∧ text_within m s.
Proof.
  unfold text_within. destruct v; cbn; try (split; [done|by intros [? ?]]).
  destruct (_ && negb _) eqn:Hb.
  - split; [intros [= <-]|by intros [[= ->] _]].
    apply andb_true_iff in Hb as [? ?%negb_true_iff]. split; [done|]. split; [lia|done].
  - split; [done|]. intros [[= ->] [? Hc]]. rewrite Hc in Hb. cbn in Hb. lia.
Qed.

Lemma scope_texts_Ok l ss :
  scope_texts l = Ok ss → Forall (text_within 128) ss ∧ length ss = length l.
Proof.
  unfold scope_texts. intros H. split; [|by apply mapM_result_Ok_length in H].
  apply mapM_result_Ok_Forall2 in H. induction H as [|v s l ss Hv _ IH]; [done|].
  constructor; [|done]. by apply usage_text_Ok in Hv as [_ ?].
Qed.

Lemma opt_quantity_Ok v c o q :
  opt_quantity v c = Ok o → o = Some q → 0 <= q <= MAX_USAGE_QUANTITY.
Proof.
  unfold opt_quantity. intros H ->. destruct v; try done;
    apply bind_Ok in H as (q' & [? Hq]%int_within_Ok & Heq); try done.
  by injection Heq as <-.
Qed.

Lemma LimitWindow_new_wf a b c d e f g h i j k l m n o p q r s w :
  LimitWindow_new a b c d e f g h i j k l m n o p q r s = Ok w → window_wf w.
Proof.
  unfold LimitWindow_new. intros H.
  apply bind_Ok in H as (wid & [_ Hwid]%usage_text_Ok & H).
  apply bind_Ok in H as (bkey & [_ Hbkey]%usage_text_Ok & H).
  apply bind_Ok in H as (src & [_ Hsrc]%usage_text_Ok & H).
  apply bind_Ok in H as (? & Hlen%require_Ok & H).
  apply bind_Ok in H as (ids & [Hids Hli]%scope_texts_Ok & H).
  apply bind_Ok in H as (roles & [Hroles Hlr]%scope_texts_Ok & H).
  apply bind_Ok in H as (sem & [_ Hsem]%one_of_Ok & H).
  apply bind_Ok in H as (un & [_ Hun]%one_of_Ok & H).
  apply bind_Ok in H as (va & [_ Hva]%int_within_Ok & H).
  apply bind_Ok in H as (? & Hpc%require_Ok & H).
  apply bind_Ok in H as (cap & Hcap & H).
  apply bind_Ok in H as (rem & Hrem & H).
  apply bind_Ok in H as (kind & [_ Hkind]%one_of_Ok & H).
  apply bind_Ok in H as (rel & [_ Hrel]%one_of_Ok & H).
  apply bind_Ok in H as (rk & _ & H).
  apply bind_Ok in H as (obs & [-> Hobs]%sel_aware_Ok & H).
  apply bind_Ok in H as (reset & Hreset & H).
  apply bind_Ok in H as (conf & [_ Hconf]%one_of_Ok & H).
  apply bind_Ok in H as (? & _ & H). apply bind_Ok in H as (? & _ & H).
  apply bind_Ok in H as (? & _ & [= <-]).
  constructor; cbn; try done.
  - split_and!; [lia..|by apply Forall_app].
  - intros ->. rewrite bool_decide_true in Hpc by done. cbn in Hpc. lia.
  - intros qty [->| ->]; [by eapply opt_quantity_Ok in Hcap|by eapply opt_quantity_Ok in Hrem].
  - intros t ->. destruct l as [t'|]; [|done].
    apply bind_Ok in Hreset as (t0 & [-> Ht]%sel_aware_Ok & Heq). by injection Heq as <-.
Qed.

Lemma normalize_window_wf raw w : normalize_window raw = Ok w → window_wf w.
Proof.
  unfold normalize_window. destruct raw as [| | | | | |d]; try done. intros H.
  repeat match type of H with
         | _ ≫= _ = _ => apply bind_Ok in H as (? & _ & H)
         end. by eapply LimitWindow_new_wf.
Qed.

(** Whatever the payload, the windows [normalize_usage_v2] returns are at
    most 64, one per raw element, and every one of them is well formed:
    bounded control-free identifiers and scopes, quantities in [0, 10^18] (at
    most 100 for percentages), enumerated kinds, relations and confidences,
    and aware instants. *)
Theorem normalize_usage_v2_sound payload ws :
  normalize_usage_v2 payload = Ok (Some ws) →
  Forall window_wf ws ∧ (length ws <= 64)%nat ∧
  ∃ d raws, payload = VDict d ∧ dict_get "limit_windows" d = Some (VList raws) ∧
    length raws = length ws.
Proof.
  unfold normalize_usage_v2. destruct payload as [| | | | | |d]; try done.
  destruct (py_eq_int _ 1); [done|]. destruct (_ || _); [done|].
  unfold get_or. destruct (dict_get "limit_windows" d) as [v|] eqn:Hget; [|done].
  cbn. destruct v as [| | | | |raws|]; try done.
  destruct (_ <? _) eqn:Hlen; [done|]. intros (ws' & Hws & [= ->])%bind_Ok.
  pose proof (mapM_result_Ok_length _ _ _ Hws) as Hl.
  apply Z.ltb_ge in Hlen. unfold MAX_USAGE_WINDOWS in Hlen.
  split_and!; [|lia|by exists d, raws].
  clear Hget Hlen Hl. apply mapM_result_Ok_Forall2 in Hws.
  induction Hws as [|raw w raws ws Hw _ IH]; constructor; [|done].
  by apply normalize_window_wf in Hw.
Qed.

(** *** The exceptions of the normalisers *)

(** A value that cannot be hashed makes the set membership tests raise
    [TypeError]; everything else is a [SelectionError]. *)
Definition selection_or_type (e : exn) : bool :=
  match e with SelectionError _ | TypeError _ => true | _ => false end.

Lemma raises_one_of v l m : raises_only selection_or_type (one_of v l (SelectionError m)).
Proof. unfold one_of, py_in_set. raises_cases. Qed.
Lemma raises_int_within v lo hi m :
  raises_only selection_or_type (int_within v lo hi (SelectionError m)).
Proof. unfold int_within. raises_cases. Qed.
Lemma raises_as_bool v m : raises_only selection_or_type (as_bool v (SelectionError m)).
Proof. unfold as_bool. raises_cases. Qed.
Lemma raises_usage_aware d c : raises_only selection_or_type (_aware d c).
Proof. unfold _aware. raises_cases. Qed.
Lemma raises_usage_text v m c : raises_only selection_or_type (_usage_text v m c).
Proof. unfold _usage_text. raises_cases. Qed.
#[export] Hint Resolve raises_one_of raises_int_within raises_as_bool raises_usage_aware
  raises_usage_text : raises.

Lemma raises_usage_datetime v : raises_only selection_or_type (_usage_datetime v).
Proof. unfold _usage_datetime. raises_cases. Qed.
#[export] Hint Resolve raises_usage_datetime : raises.

Lemma raises_LimitWindow_new a b c d e f g h i j k l m n o p q r s :
  raises_only selection_or_type (LimitWindow_new a b c d e f g h i j k l m n o p q r s).
Proof. unfold LimitWindow_new, opt_quantity, opt_reset_kind, opt_aware. raises_cases. Qed.
#[export] Hint Resolve raises_LimitWindow_new : raises.

(** A [KeyError] cannot happen after the required keys were found. *)
Lemma getitem_required d fields k :
  has_keys d fields = true → k ∈ fields → ∃ v, getitem k d = Ok v.
Proof.
  unfold has_keys. rewrite forallb_forall. intros H Hk%list_elem_of_In.
  apply H in Hk. apply bool_decide_eq_true, elem_of_dict_keys in Hk as [v Hv].
  exists v. unfold getitem. by rewrite Hv.
Qed.

Ltac run_required H :=
  repeat match goal with
  | |- context [getitem ?k ?d] =>
      let v := fresh "v" in let Hv := fresh "Hv" in
      destruct (getitem_required d _ k H) as [v Hv]; [solve [repeat constructor]|];
      rewrite !Hv
  end.

Lemma raises_normalize_window raw : raises_only selection_or_type (normalize_window raw).
Proof.
  unfold normalize_window. destruct raw as [| | | | | |d]; auto with raises.
  apply raises_bind; [auto with raises|]. intros _.
  destruct (has_keys d window_required) eqn:Hk; cbn [require]; [|by apply raises_Err].
  rewrite bind_ret. unfold scope_list, scope_texts. run_required Hk. raises_cases.
Qed.
#[export] Hint Resolve raises_normalize_window : raises.

(** The usage normalisers are total up to declared errors: on any payload
    whatever, [normalize_usage_v2] and [normalize_usage_observation] return or
    raise [SelectionError], or [TypeError] when an enumerated field holds an
    unhashable value; a missing key never surfaces as [KeyError]. *)
Theorem normalize_usage_errors payload :
  raises_only selection_or_type (normalize_usage_v2 payload) ∧
  raises_only selection_or_type (normalize_usage_observation payload).
Proof.
  split.
  - unfold normalize_usage_v2. raises_cases.
  - unfold normalize_usage_observation.
    destruct payload as [| | | | | |d]; auto with raises.
    destruct (negb (existsb _ _)); [auto with raises|].
    destruct (negb (keys_within _ _)); [auto with raises|].
    destruct (has_keys d usage_required) eqn:Hk; cbn [negb]; [|auto with raises].
    run_required Hk. unfold UsageObservation_new. raises_cases.
Qed.

(** ** The SP1 and SP0 tests *)

Lemma age_within_true now past s :
  age_within now past s = true ↔
  0 <= dt_utc now - dt_utc past <= s * US_PER_SECOND.
Proof. unfold age_within, dt_diff_us. lia. Qed.

Lemma and_then_Ok b r v : and_then b r = Ok v → (v = true ↔ b = true ∧ r = Ok true).
Proof. destruct b; cbn; [intros ->; naive_solver|]. intros [= <-]. naive_solver. Qed.

Lemma and_then_ret b c : and_then b (Ok c) = Ok (b && c).
Proof. by destruct b. Qed.

Lemma all_result_total {A} (f : A → result bool) (g : A → bool) l :
  (∀ x, x ∈ l → f x = Ok (g x)) → all_result f l = Ok (forallb g l).
Proof.
  induction l as [|x l IH]; intros Hf; cbn; [done|].
  rewrite Hf by left. cbn. destruct (g x); [|done].
  rewrite IH; [done|]. intros y Hy. apply Hf. by right.
Qed.

(** The window conditions of [usable_for_sp1]. *)
Record window_usable (w : LimitWindow) (now : datetime) (age : Z) : Prop := {
  us_remaining : quantity_semantics w = "remaining";
  us_positive : 0 < quantity_value w;
  us_kind : window_kind w = "rolling_5h" ∨ window_kind w = "fixed";
  us_relation : constraint_relation w = "conjunctive";
  us_verified : w_confidence w = "verified";
  us_open : blocked w = false ∧ exhausted w = false;
  us_reset : ∀ d, reset_at_utc w = Some d → dt_utc now < dt_utc d;
  us_fresh : 0 <= dt_utc now - dt_utc (observed_at_utc w) <= age * US_PER_SECOND;
}.

Definition usable_test (w : LimitWindow) (now : datetime) (age : Z) : bool :=
  (bool_decide (quantity_semantics w = "remaining")
   && (0 <? quantity_value w)
   && bool_decide (window_kind w ∈ ["rolling_5h"; "fixed"])
   && bool_decide (constraint_relation w = "conjunctive")
   && bool_decide (w_confidence w = "verified")
   && negb (blocked w)
   && negb (exhausted w)
   && match reset_at_utc w with None => true | Some r => dt_ltb now r end)
  && age_within now (observed_at_utc w) age.

Lemma usable_for_sp1_eq w now age :
  dt_aware now = true → 1 <= age <= 86400 →
  usable_for_sp1 w now (VInt age) = Ok (usable_test w now age).
Proof.
  intros Hn Ha. unfold usable_for_sp1, window_is_fresh, usable_test.
  do 2 (rewrite sel_aware_true by done; rewrite bind_ret).
  unfold int_within. replace ((1 <=? age) && (age <=? 86400)) with true by lia.
  rewrite bind_ret. apply and_then_ret.
Qed.

Lemma usable_test_true w now age :
  usable_test w now age = true ↔ window_usable w now age.
Proof.
  unfold usable_test.
  rewrite !andb_true_iff, !bool_decide_eq_true, !negb_true_iff, age_within_true, Z.ltb_lt.
  rewrite elem_of_cons, list_elem_of_singleton. split.
  - intros [[[[[[[[? ?] ?] ?] ?] ?] ?] Hr] ?]. split; try done.
    intros d Hd. rewrite Hd in Hr. by apply Z.ltb_lt.
  - intros [? ? ? ? ? [? ?] Hr ?]. split_and!; try done.
    1: destruct (reset_at_utc w) as [d|]; [by apply Z.ltb_lt, Hr|done].
    all: lia.
Qed.

(** Budget windows admit an SP1 selection exactly when there is at least
    one window, all of them are conjunctive, one is a rolling five-hour window,
    and every single one is remaining-quantity, positive, verified, neither
    blocked nor exhausted, not past its reset and observed within the freshness
    limit; and the test always answers for an aware time and a limit in
    [1, 86400] seconds. *)
Theorem usage_windows_usable_iff ws now age :
  dt_aware now = true → 1 <= age <= 86400 →
  ∃ b, usage_windows_usable_for_sp1 ws now (VInt age) = Ok b ∧
    (b = true ↔
     Forall (λ w, window_usable w now age) ws ∧
     Exists (λ w, window_kind w = "rolling_5h") ws).
Proof.
  intros Hn Ha. unfold usage_windows_usable_for_sp1.
  rewrite (all_result_total _ (λ w, usable_test w now age))
    by (intros; by apply usable_for_sp1_eq).
  assert (Hall : forallb (λ w, usable_test w now age) ws = true ↔
                 Forall (λ w, window_usable w now age) ws).
  { rewrite forallb_forall, Forall_forall. setoid_rewrite list_elem_of_In.
    by setoid_rewrite usable_test_true. }
  assert (Hex : existsb (λ w, bool_decide (window_kind w = "rolling_5h")) ws = true ↔
                Exists (λ w, window_kind w = "rolling_5h") ws).
  { rewrite existsb_exists, Exists_exists. setoid_rewrite list_elem_of_In.
    by setoid_rewrite bool_decide_eq_true. }
  destruct (_ || _) eqn:Hc; eexists; (split; [done|]).
  - split; [done|]. intros [Hw Hr]. apply Hex in Hr as Hr'. rewrite Hr', orb_false_r in Hc.
    apply orb_true_iff in Hc as [->%bool_decide_eq_true|Hc]; [done|].
    apply existsb_exists in Hc as (w & Hin%list_elem_of_In & Hne%negb_true_iff).
    rewrite Forall_forall in Hw. by apply bool_decide_eq_false in Hne; destruct (Hw w Hin).
  - apply orb_false_iff in Hc as [_ Hr%negb_false_iff]. rewrite Hall, <- Hex. naive_solver.
Qed.

Definition sample_window : LimitWindow :=
  {| window_id := "w1"; budget_key := "b"; applies_to_model_ids := [];
     applies_to_model_roles := []; quantity_semantics := "remaining";
     quantity_unit := "percent"; quantity_value := 40; capacity := None;
     absolute_remaining := None; window_kind := "rolling_5h";
     constraint_relation := "conjunctive"; reset_at_utc := None;
     w_reset_kind := None; observed_at_utc := Datetime (100 * US_PER_SECOND) (Some 0);
     source := "s"; w_confidence := "verified"; includes_inflight_usage := false;
     blocked := false; exhausted := false |}.

Lemma usage_windows_usable_iff_witness :
  ∃ b, usage_windows_usable_for_sp1 [sample_window]
         (Datetime (200 * US_PER_SECOND) (Some 0)) (VInt 900) = Ok b ∧
    (b = true ↔
     Forall (λ w, window_usable w (Datetime (200 * US_PER_SECOND) (Some 0)) 900) [sample_window] ∧
     Exists (λ w, window_kind w = "rolling_5h") [sample_window]).
Proof. apply usage_windows_usable_iff; [reflexivity|lia]. Defined.

(** [normalize_usage_observation] keeps the semantics, reset kind and
    confidence the payload carries, and only accepts typed ones. *)
Lemma UsageObservation_new_Ok sem un va rk co obs st u :
  UsageObservation_new sem un va rk co obs st = Ok u →
  sem = VStr (semantics u) ∧ un = VStr "percent" ∧ va = VInt (value u) ∧
  rk = VStr (reset_kind u) ∧ co = VStr (confidence u) ∧ obs = observed_at u ∧
  st = VInt (stale_after_seconds u) ∧ 0 <= value u <= 100 ∧
  1 <= stale_after_seconds u <= 86400 ∧ dt_aware (observed_at u) = true.
Proof.
  unfold UsageObservation_new. intros H.
  apply bind_Ok in H as (s & [-> _]%one_of_Ok & H).
  apply bind_Ok in H as (n & Hn & H).
  apply bind_Ok in H as (z & [-> Hz]%int_within_Ok & H).
  apply bind_Ok in H as (r & [-> _]%one_of_Ok & H).
  apply bind_Ok in H as (c & [-> _]%one_of_Ok & H).
  apply bind_Ok in H as (o & [-> Ho]%sel_aware_Ok & H).
  apply bind_Ok in H as (a & [-> Ha]%int_within_Ok & [= <-]). cbn.
  split_and!; try done; try lia. clear -Hn. repeat case_match; by simplify_eq.
Qed.

(** An observation normalised from a payload is due for the passive SP0
    anchor only if the payload literally reports 100 percent remaining on a
    verified unanchored rolling window with an instant not in the future and at
    most one day old at the time of the test. *)
Theorem sp0_due_only_verified_full d u now :
  normalize_usage_observation (VDict d) = Ok (Some u) →
  is_passive_sp0_due u now = Ok true →
  dict_get "semantics" d = Some (VStr "remaining") ∧
  dict_get "unit" d = Some (VStr "percent") ∧
  dict_get "value" d = Some (VInt 100) ∧
  dict_get "reset_kind" d = Some (VStr "rolling_unanchored") ∧
  dict_get "confidence" d = Some (VStr "verified") ∧
  0 <= dt_utc now - dt_utc (observed_at u) <= 86400 * US_PER_SECOND.
Proof.
  unfold normalize_usage_observation.
  destruct (negb (existsb _ _)); [done|]. destruct (negb (keys_within _ _)); [done|].
  destruct (negb (has_keys _ _)); [done|]. unfold getitem. intros H Hdue.
  repeat match type of H with
         | _ ≫= _ = _ => let v := fresh "v" in let Hv := fresh "Hv" in
                         apply bind_Ok in H as (v & Hv & H)
         end.
  injection H as ->.
  repeat match goal with
         | Hg : match dict_get ?k d with _ => _ end = Ok _ |- _ =>
             destruct (dict_get k d); [injection Hg as ->|done]
         end.
  match goal with Hn : UsageObservation_new _ _ _ _ _ _ _ = _ |- _ =>
    apply UsageObservation_new_Ok in Hn as (-> & -> & -> & -> & -> & _ & _ & Hval & Hs & _)
  end.
  destruct (proj1 (and_then_Ok _ _ _ Hdue) eq_refl) as [Hb Hf].
  rewrite !andb_true_iff, !bool_decide_eq_true, Z.eqb_eq in Hb.
  destruct Hb as [[[[-> _] ->] ->] ->].
  unfold obs_is_fresh in Hf. apply bind_Ok in Hf as (n & [-> _]%sel_aware_Ok & [= Hf]).
  apply age_within_true in Hf. split_and!; try done; nia.
Qed.

(** *** Sample payloads *)

Definition sample_instant : datetime := Datetime (63871286400 * US_PER_SECOND) (Some 0).

Definition sample_usage : list (string * pyval) :=
  [ ("semantics", VStr "remaining"); ("unit", VStr "percent"); ("value", VInt 100);
    ("reset_kind", VStr "rolling_unanchored"); ("confidence", VStr "verified");
    ("observed_at", VStr "2025-01-01T00:00:00Z") ].

Definition sample_observation : UsageObservation :=
  {| semantics := "remaining"; unit := "percent"; value := 100;
     reset_kind := "rolling_unanchored"; confidence := "verified";
     observed_at := sample_instant; stale_after_seconds := 900 |}.

Lemma sp0_due_only_verified_full_witness :
  dict_get "value" sample_usage = Some (VInt 100) ∧
  0 <= dt_utc sample_instant - dt_utc (observed_at sample_observation)
    <= 86400 * US_PER_SECOND.
Proof.
  destruct (sp0_due_only_verified_full sample_usage sample_observation sample_instant)
    as (_ & _ & H1 & _ & _ & H2); [reflexivity|reflexivity|]. exact (conj H1 H2).
Defined.

Definition sample_windows : pyval :=
  VDict [ ("schema_version", VInt 2);
          ("limit_windows", VList [ VDict
            [ ("window_id", VStr "w1"); ("budget_key", VStr "b");
              ("quantity_semantics", VStr "remaining"); ("quantity_unit", VStr "percent");
              ("quantity_value", VInt 40); ("window_kind", VStr "rolling_5h");
              ("constraint_relation", VStr "conjunctive");
              ("observed_at_utc", VStr "2025-01-01T00:00:00Z"); ("source", VStr "s");
              ("confidence", VStr "verified"); ("includes_inflight_usage", VBool false);
              ("blocked", VBool false); ("exhausted", VBool false) ] ]) ].

Definition sample_normalized : LimitWindow :=
  {| window_id := "w1"; budget_key := "b"; applies_to_model_ids := [];
     applies_to_model_roles := []; quantity_semantics := "remaining";
     quantity_unit := "percent"; quantity_value := 40; capacity := None;
     absolute_remaining := None; window_kind := "rolling_5h";
     constraint_relation := "conjunctive"; reset_at_utc := None;
     w_reset_kind := None; observed_at_utc := sample_instant; source := "s";
     w_confidence := "verified"; includes_inflight_usage := false;
     blocked := false; exhausted := false |}.

Lemma normalize_usage_v2_sound_witness :
  Forall window_wf [sample_normalized] ∧ (length [sample_normalized] <= 64)%nat ∧
  ∃ d raws, sample_windows = VDict d ∧ dict_get "limit_windows" d = Some (VList raws) ∧
    length raws = length [sample_normalized].
Proof. apply normalize_usage_v2_sound. reflexivity. Defined.
