(* ===== verification/Fairness.v ===== *)
(** * The fairness ledger

    [src/src/the_hive/selection.py], lines 18 to 20 and 424 to 495, and
    [src/src/the_hive/selection/state.py]: the decaying per-account service
    counters, the ledger that ranks accounts by them, and the in-process
    store that replaces the whole resource state by compare-and-swap. *)

From S2P Require Import Prelude PyTime Order Usage.

Definition MICRO : Z := 1000000.
Definition HALF_LIFE_SECONDS : Z := 7 * 24 * 60 * 60.
Definition MAX_SERVICE_MICRO : Z := 10 ^ 18.

Record FairnessRecord := {
  service_micro : Z;
  capacity_weight_micro : Z;
  last_updated : datetime;
  last_selected : option datetime;
}.

#[export] Instance FairnessRecord_eq_dec : EqDecision FairnessRecord.
Proof. solve_decision. Defined.

Definition FairnessRecord_new (service weight : pyval) (updated : datetime)
  (selected : option datetime) : result FairnessRecord :=
  sv ← int_within service 0 MAX_SERVICE_MICRO (SelectionError "invalid_fairness_service");
  wt ← int_within weight 0 MAX_SERVICE_MICRO (SelectionError "invalid_fairness_capacity");
  up ← _aware updated "invalid_fairness_timestamp";
  sel ← match selected with
        | None => Ok None
        | Some d => d ← _aware d "invalid_fairness_timestamp"; Ok (Some d)
        end;
  Ok {| service_micro := sv; capacity_weight_micro := wt; last_updated := up;
        last_selected := sel |}.

(** [for _ in range(periods): value //= 2]. *)
Definition halve (periods : Z) (v : Z) : Z := Nat.iter (Z.to_nat periods) (λ v, v / 2) v.

(** The body of [decayed_service] after [elapsed] whole seconds. *)
Definition decay (service elapsed : Z) : Z :=
  let periods := elapsed / HALF_LIFE_SECONDS in
  let remainder := elapsed mod HALF_LIFE_SECONDS in
  if 64 <=? periods then 0
  else
    let value := halve periods service in
    let factor := MICRO - remainder * MICRO / (2 * HALF_LIFE_SECONDS) in
    value * factor / MICRO.

Definition elapsed_seconds (r : FairnessRecord) (now : datetime) : Z :=
  Z.max 0 (int_seconds (dt_diff_us now (last_updated r))).

Definition decayed_service (r : FairnessRecord) (now : datetime) : result Z :=
  now ← _aware now "invalid_selection_time";
  Ok (decay (service_micro r) (elapsed_seconds r now)).

Definition record_normalized_service (r : FairnessRecord) (now : datetime) : result Z :=
  let capacity := Z.max (capacity_weight_micro r) 1 in
  decayed ← decayed_service r now;
  Ok (Z.min MAX_SERVICE_MICRO (decayed * MICRO / capacity)).

(** A private copy of the mapping: keys are unique. *)
Definition FairnessLedger : Type := list (string * FairnessRecord).

(** [sorted(...)] over the records, then the lower median. *)
Definition ledger_normalized_service (l : FairnessLedger) (account_key : string)
  (now : datetime) : result Z :=
  match dict_get account_key l with
  | Some r => record_normalized_service r now
  | None =>
      services ← mapM_result (λ r, record_normalized_service r now) (dict_values l);
      let known := py_sorted_Z services in
      match known with
      | [] => Ok 0
      | _ :: _ =>
          match known !! ((length known - 1) / 2)%nat with
          | Some v => Ok v
          | None => Err (IndexError "list index out of range")
          end
      end
  end.

Definition last_selected_epoch (l : FairnessLedger) (account_key : string) : Z :=
  match dict_get account_key l with
  | None => -1
  | Some r => match last_selected r with
              | None => -1
              | Some d => dt_timestamp_int d
              end
  end.

(** ** Decay *)

Lemma halve_spec p v : 0 <= p → halve p v = v / 2 ^ p.
Proof.
  intros Hp. unfold halve. rewrite <- (Z2Nat.id p) at 2 by done.
  induction (Z.to_nat p) as [|n IH]; [by rewrite Z.div_1_r|].
  rewrite Nat.iter_succ, IH, Nat2Z.inj_succ, Z.pow_succ_r by lia.
  rewrite Z.div_div by lia. f_equal. lia.
Qed.

Lemma half_life_pos : 0 < HALF_LIFE_SECONDS.
Proof. done. Qed.

(** The interpolation factor lies in (MICRO / 2, MICRO]. *)
Lemma factor_range e :
  let factor := MICRO - (e mod HALF_LIFE_SECONDS) * MICRO / (2 * HALF_LIFE_SECONDS) in
  MICRO / 2 < factor <= MICRO.
Proof.
  unfold MICRO, HALF_LIFE_SECONDS.
  pose proof (Z.mod_pos_bound e (7 * 24 * 60 * 60) eq_refl) as Hm.
  set (m := e mod _) in *. split; [|].
  - assert (m * 1000000 / (2 * (7 * 24 * 60 * 60)) < 500000)
      by (apply Z.div_lt_upper_bound; lia). change (1000000 / 2) with 500000. lia.
  - assert (0 <= m * 1000000 / (2 * (7 * 24 * 60 * 60))) by (apply Z.div_pos; lia). lia.
Qed.

(** Between two half-life anchors the value stays between them. *)
Lemma decay_between s e :
  0 <= s → 0 <= e → e / HALF_LIFE_SECONDS < 64 →
  s / 2 ^ (e / HALF_LIFE_SECONDS + 1) <= decay s e <= s / 2 ^ (e / HALF_LIFE_SECONDS).
Proof.
  intros Hs He Hp. unfold decay. rewrite (proj2 (Z.leb_gt _ _)) by done.
  assert (0 <= e / HALF_LIFE_SECONDS) by (by apply Z.div_pos).
  rewrite halve_spec by done. pose proof (factor_range e) as Hf. cbv zeta in *.
  set (f := MICRO - _) in *. set (p := e / HALF_LIFE_SECONDS) in *.
  rewrite Z.pow_add_r, <- Z.div_div by lia. change (2 ^ 1) with 2.
  set (v := s / 2 ^ p). assert (0 <= v) by (apply Z.div_pos; lia).
  unfold MICRO in *. change (1000000 / 2) with 500000 in Hf. split.
  - apply Z.div_le_lower_bound; [lia|]. pose proof (Z.mul_div_le v 2 eq_refl). nia.
  - apply Z.div_le_upper_bound; nia.
Qed.

Lemma decay_nonneg s e : 0 <= s → 0 <= e → 0 <= decay s e.
Proof.
  intros Hs He. destruct (decide (e / HALF_LIFE_SECONDS < 64)) as [Hp|Hp].
  - etrans; [|by apply decay_between]. apply Z.div_pos; [done|].
    apply Z.pow_pos_nonneg; [done|]. pose proof (Z.div_pos e _ He half_life_pos). lia.
  - unfold decay. by rewrite (proj2 (Z.leb_le _ _)) by lia.
Qed.

Lemma decay_le s e : 0 <= s → 0 <= e → decay s e <= s.
Proof.
  intros Hs He. destruct (decide (e / HALF_LIFE_SECONDS < 64)) as [Hp|Hp].
  - etrans; [by apply decay_between|]. pose proof (Z.div_pos e _ He half_life_pos).
    apply Z.div_le_upper_bound; [apply Z.pow_pos_nonneg; lia|].
    pose proof (Z.pow_pos_nonneg 2 (e / HALF_LIFE_SECONDS) eq_refl). nia.
  - unfold decay. by rewrite (proj2 (Z.leb_le _ _)) by lia.
Qed.

Lemma decay_antitone s e1 e2 : 0 <= s → 0 <= e1 <= e2 → decay s e2 <= decay s e1.
Proof.
  intros Hs [He Hle].
  pose proof (Z.div_le_mono _ _ _ half_life_pos Hle) as Hp.
  destruct (decide (e2 / HALF_LIFE_SECONDS < 64)) as [H2|H2].
  2:{ unfold decay at 1. rewrite (proj2 (Z.leb_le _ _)) by lia.
      apply decay_nonneg; lia. }
  destruct (decide (e1 / HALF_LIFE_SECONDS = e2 / HALF_LIFE_SECONDS)) as [Heq|Hne].
  - unfold decay. rewrite Heq, (proj2 (Z.leb_gt _ _)) by done. cbv zeta.
    pose proof (Z.div_mod e1 HALF_LIFE_SECONDS). pose proof (Z.div_mod e2 HALF_LIFE_SECONDS).
    assert (Hm : e1 mod HALF_LIFE_SECONDS <= e2 mod HALF_LIFE_SECONDS).
    { pose proof half_life_pos. rewrite Heq in *. lia. }
    apply Z.div_le_mono; [done|]. apply Z.mul_le_mono_nonneg_l.
    + rewrite halve_spec by (apply Z.div_pos; [lia|done]).
      apply Z.div_pos; [done|]. apply Z.pow_pos_nonneg; [done|apply Z.div_pos; [lia|done]].
    + apply Z.sub_le_mono_l, Z.div_le_mono; [done|]. unfold MICRO. lia.
  - etrans; [apply decay_between; lia|]. etrans; [|apply decay_between; lia].
    pose proof (Z.div_pos e1 _ He half_life_pos).
    apply Z.div_le_compat_l; [done|]. split; [apply Z.pow_pos_nonneg; lia|].
    apply Z.pow_le_mono_r; lia.
Qed.

(** ** Records *)

(** A record the constructor accepts. *)
Record fairness_wf (r : FairnessRecord) : Prop := {
  fwf_service : 0 <= service_micro r <= MAX_SERVICE_MICRO;
  fwf_weight : 0 <= capacity_weight_micro r <= MAX_SERVICE_MICRO;
  fwf_updated : dt_aware (last_updated r) = true;
  fwf_selected : ∀ d, last_selected r = Some d → dt_aware d = true;
}.

Lemma FairnessRecord_new_wf a b c d r : FairnessRecord_new a b c d = Ok r → fairness_wf r.
Proof.
  unfold FairnessRecord_new. intros H.
  apply bind_Ok in H as (sv & [_ Hs]%int_within_Ok & H).
  apply bind_Ok in H as (wt & [_ Hw]%int_within_Ok & H).
  apply bind_Ok in H as (up & [-> Hu]%sel_aware_Ok & H).
  apply bind_Ok in H as (sel & Hsel & [= <-]).
  split; cbn; try done. intros t ->. destruct d as [d|]; [|done].
  apply bind_Ok in Hsel as (t' & [-> Ht]%sel_aware_Ok & [= <-]). done.
Qed.

Lemma int_seconds_mono a b : a <= b → int_seconds a <= int_seconds b.
Proof. intros ?. by apply Z.quot_le_mono. Qed.

Lemma elapsed_mono r now1 now2 :
  dt_utc now1 <= dt_utc now2 → 0 <= elapsed_seconds r now1 <= elapsed_seconds r now2.
Proof.
  intros H. unfold elapsed_seconds, dt_diff_us.
  pose proof (int_seconds_mono (dt_utc now1 - dt_utc (last_updated r))
                (dt_utc now2 - dt_utc (last_updated r))). lia.
Qed.

Lemma decayed_service_eq r now :
  dt_aware now = true → decayed_service r now = Ok (decay (service_micro r) (elapsed_seconds r now)).
Proof. intros H. unfold decayed_service. by rewrite sel_aware_true. Qed.

(** The value [normalized_service] computes at an aware time. *)
Definition normalized_value (r : FairnessRecord) (now : datetime) : Z :=
  Z.min MAX_SERVICE_MICRO
    (decay (service_micro r) (elapsed_seconds r now) * MICRO / Z.max (capacity_weight_micro r) 1).

Lemma record_normalized_service_eq r now :
  dt_aware now = true → record_normalized_service r now = Ok (normalized_value r now).
Proof. intros H. unfold record_normalized_service. by rewrite decayed_service_eq. Qed.

Lemma normalized_value_mono r now1 now2 :
  0 <= service_micro r → dt_utc now1 <= dt_utc now2 →
  normalized_value r now2 <= normalized_value r now1.
Proof.
  intros Hs Hle. unfold normalized_value. apply Z.min_le_compat_l, Z.div_le_mono; [lia|].
  apply Z.mul_le_mono_nonneg_r; [done|]. by apply decay_antitone, elapsed_mono.
Qed.

(** The decayed service is a seven-day half-life in fixed point: for a
    valid record and an aware time the call succeeds, the value is exactly
    [service // 2^p] after [p < 64] whole half-lives, lies between the two
    neighbouring half-life values in between, is 0 from 64 half-lives on, and
    equals the stored service when no second has passed or the clock went
    back. *)
Theorem decayed_service_half_life r now :
  fairness_wf r → dt_aware now = true →
  let p := elapsed_seconds r now / HALF_LIFE_SECONDS in
  ∃ v, decayed_service r now = Ok v ∧ 0 <= v <= service_micro r ∧
    (elapsed_seconds r now = p * HALF_LIFE_SECONDS → p < 64 → v = service_micro r / 2 ^ p) ∧
    (p < 64 → service_micro r / 2 ^ (p + 1) <= v <= service_micro r / 2 ^ p) ∧
    (64 <= p → v = 0) ∧
    (dt_utc now <= dt_utc (last_updated r) → v = service_micro r).
Proof.
  intros [[Hs _] _ _ _] Hn p. rewrite decayed_service_eq by done.
  assert (He : 0 <= elapsed_seconds r now) by (unfold elapsed_seconds; lia).
  assert (Hexact : elapsed_seconds r now = p * HALF_LIFE_SECONDS → p < 64 →
    decay (service_micro r) (elapsed_seconds r now) = service_micro r / 2 ^ p).
  { intros Heq Hp. unfold decay. fold p. rewrite (proj2 (Z.leb_gt _ _)) by done.
    rewrite Heq, Z_mod_mult, halve_spec by (by apply Z.div_pos). cbv zeta.
    change (MICRO - 0 * MICRO / _) with MICRO. by apply Z.div_mul. }
  eexists; split; [done|]. split_and!; try done.
  - by apply decay_nonneg.
  - by apply decay_le.
  - intros ?. by apply decay_between.
  - intros Hp. unfold decay. fold p. by rewrite (proj2 (Z.leb_le _ _)).
  - intros Hle. assert (Hz : elapsed_seconds r now = 0).
    { unfold elapsed_seconds, dt_diff_us.
      pose proof (int_seconds_mono _ 0 (proj2 (Z.le_sub_0 _ _) Hle)) as H0.
      change (int_seconds 0) with 0 in H0. lia. }
    unfold p in Hexact. rewrite Hz in Hexact |- *. rewrite Hexact by done. apply Z.div_1_r.
Qed.

Definition sample_fairness : FairnessRecord :=
  {| service_micro := 1000; capacity_weight_micro := 10;
     last_updated := Datetime 0 (Some 0); last_selected := None |}.
Definition sample_now : datetime := Datetime (604800 * US_PER_SECOND) (Some 0).

Lemma sample_fairness_wf : fairness_wf sample_fairness.
Proof. by split. Qed.

Lemma decayed_service_half_life_witness :
  ∃ v, decayed_service sample_fairness sample_now = Ok v ∧ v = 500.
Proof.
  destruct (decayed_service_half_life sample_fairness sample_now sample_fairness_wf eq_refl)
    as (v & Hv & _ & Hex & _). exists v. split; [exact Hv|].
  rewrite (Hex eq_refl); reflexivity.
Defined.

(** ** The ledger *)

Lemma services_eq l now :
  dt_aware now = true →
  mapM_result (λ r, record_normalized_service r now) l = Ok ((λ r, normalized_value r now) <$> l).
Proof.
  intros Hn. apply mapM_result_all, Forall_forall. intros r _.
  by apply record_normalized_service_eq.
Qed.

(** The services of the known accounts at an aware time. *)
Definition known_services (l : FairnessLedger) (now : datetime) : list Z :=
  (λ r, normalized_value r now) <$> dict_values l.

(** The value [normalized_service] computes: the account's own, or the lower
    median of the known ones. *)
Definition ledger_value (l : FairnessLedger) (key : string) (now : datetime) : Z :=
  match dict_get key l with
  | Some r => normalized_value r now
  | None => default 0 (py_sorted_Z (known_services l now)
                         !! ((length (known_services l now) - 1) / 2)%nat)
  end.

Lemma length_py_sorted_Z l : length (py_sorted_Z l) = length l.
Proof. by rewrite py_sorted_Z_perm. Qed.

Lemma median_index (n : nat) : (n ≠ 0 → (n - 1) / 2 < n)%nat.
Proof. intros ?. pose proof (Nat.Div0.div_le_upper_bound (n - 1) 2 (n - 1)). lia. Qed.

Lemma ledger_normalized_service_eq l key now :
  dt_aware now = true → ledger_normalized_service l key now = Ok (ledger_value l key now).
Proof.
  intros Hn. unfold ledger_normalized_service, ledger_value.
  destruct (dict_get key l); [by apply record_normalized_service_eq|].
  rewrite services_eq by done. fold (known_services l now). rewrite bind_ret.
  rewrite <- (length_py_sorted_Z (known_services l now)).
  destruct (py_sorted_Z _) as [|v k] eqn:Hk; [done|].
  destruct (lookup_lt_is_Some_2 (v :: k) ((length (v :: k) - 1) / 2)) as [x Hx];
    [by apply median_index|]. by rewrite Hx.
Qed.

(** Pointwise order is kept by sorting. *)
Lemma count_le_mono a b v :
  Forall2 Z.le a b → (count (λ x, x <=? v)%Z b <= count (λ x, x <=? v)%Z a)%nat.
Proof.
  unfold count. induction 1 as [|x y a b Hxy _ IH]; cbn; [done|].
  destruct (Z.leb_spec y v), (Z.leb_spec x v); cbn; lia.
Qed.

Lemma count_split l v w :
  v < w → (count (λ x, x <=? v)%Z l + count (λ x, w <=? x)%Z l <= length l)%nat.
Proof.
  intros Hvw. unfold count. induction l as [|x l IH]; cbn; [done|].
  destruct (Z.leb_spec x v), (Z.leb_spec w x); cbn; lia.
Qed.

Lemma sorted_pointwise a b i v w :
  Forall2 Z.le a b → py_sorted_Z a !! i = Some v → py_sorted_Z b !! i = Some w → v <= w.
Proof.
  intros Hab Ha Hb. destruct (Z.le_gt_cases v w) as [|Hlt]; [done|].
  pose proof (lookup_lt_Some _ _ _ Ha) as Hi.
  apply sorted_rank in Ha as [_ Ha]; [|apply py_sorted_Z_sorted].
  apply sorted_rank in Hb as [Hb _]; [|apply py_sorted_Z_sorted].
  pose proof (count_split (py_sorted_Z a) w v Hlt) as Hs.
  rewrite (count_perm _ _ _ (py_sorted_Z_perm b)) in Hb.
  pose proof (count_le_mono a b w Hab) as Hm.
  rewrite <- (count_perm _ _ _ (py_sorted_Z_perm a)) in Hm. lia.
Qed.

Lemma normalized_value_range r now :
  0 <= service_micro r → 0 <= normalized_value r now <= MAX_SERVICE_MICRO.
Proof.
  intros Hs. unfold normalized_value. split; [|apply Z.le_min_l].
  apply Z.min_glb; [done|]. apply Z.div_pos; [|lia]. apply Z.mul_nonneg_nonneg; [|done].
  apply decay_nonneg; [done|unfold elapsed_seconds; lia].
Qed.

Lemma ledger_value_range l key now :
  Forall fairness_wf (dict_values l) → 0 <= ledger_value l key now <= MAX_SERVICE_MICRO.
Proof.
  intros Hwf. unfold ledger_value. destruct (dict_get key l) as [r|] eqn:Hget.
  - apply normalized_value_range. apply dict_get_elem_of in Hget.
    rewrite Forall_forall in Hwf. apply Hwf. by apply list_elem_of_fmap_2 with (f := snd) in Hget.
  - destruct (_ !! _) as [v|] eqn:Hv; [cbn|done].
    apply list_elem_of_lookup_2 in Hv. rewrite py_sorted_Z_perm in Hv.
    apply list_elem_of_fmap in Hv as (r & -> & Hr). apply normalized_value_range.
    rewrite Forall_forall in Hwf. by apply Hwf.
Qed.

Lemma ledger_value_mono l key now1 now2 :
  Forall fairness_wf (dict_values l) → dt_utc now1 <= dt_utc now2 →
  ledger_value l key now2 <= ledger_value l key now1.
Proof.
  intros Hwf Hle. unfold ledger_value. destruct (dict_get key l) as [r|] eqn:Hget.
  - apply normalized_value_mono; [|done]. apply dict_get_elem_of in Hget.
    rewrite Forall_forall in Hwf. apply list_elem_of_fmap_2 with (f := snd) in Hget.
    by apply Hwf in Hget as [[? _] _ _ _].
  - unfold known_services. rewrite !length_fmap.
    set (i := ((length (dict_values l) - 1) / 2)%nat).
    set (k2 := (λ r, normalized_value r now2) <$> dict_values l).
    set (k1 := (λ r, normalized_value r now1) <$> dict_values l).
    assert (Hl : length (py_sorted_Z k1) = length (py_sorted_Z k2))
      by (rewrite !length_py_sorted_Z; unfold k1, k2; by rewrite !length_fmap).
    assert (Hk : Forall2 Z.le k2 k1).
    { apply Forall2_fmap_2, Forall_Forall2_diag. eapply Forall_impl; [exact Hwf|].
      intros r [[? _] _ _ _]. by apply normalized_value_mono. }
    destruct (py_sorted_Z k2 !! i) as [v2|] eqn:H2;
      destruct (py_sorted_Z k1 !! i) as [v1|] eqn:H1; cbn.
    + by eapply sorted_pointwise.
    + apply lookup_lt_Some in H2. apply lookup_ge_None in H1. lia.
    + apply lookup_lt_Some in H1. apply lookup_ge_None in H2. lia.
    + done.
Qed.

(** Fairness pressure only decreases with time: at a later time an account
    (known or unknown to the ledger) is never ranked by a larger normalised
    service, and the value always lies in [0, 10^18]. *)
Theorem normalized_service_monotone l key now1 now2 :
  Forall fairness_wf (dict_values l) →
  dt_aware now1 = true → dt_aware now2 = true → dt_utc now1 <= dt_utc now2 →
  ∃ v1 v2, ledger_normalized_service l key now1 = Ok v1 ∧
    ledger_normalized_service l key now2 = Ok v2 ∧ 0 <= v2 <= v1 ∧ v1 <= MAX_SERVICE_MICRO.
Proof.
  intros Hwf H1 H2 Hle. rewrite !ledger_normalized_service_eq by done.
  do 2 eexists; split_and!; [done..|by apply ledger_value_range| |by apply ledger_value_range].
  by apply ledger_value_mono.
Qed.

Lemma normalized_service_monotone_witness :
  ∃ v1 v2,
    ledger_normalized_service [("a", sample_fairness)] "unknown" (Datetime 0 (Some 0)) = Ok v1 ∧
    ledger_normalized_service [("a", sample_fairness)] "unknown" sample_now = Ok v2 ∧
    0 <= v2 <= v1 ∧ v1 <= MAX_SERVICE_MICRO.
Proof.
  apply normalized_service_monotone;
    [constructor; [exact sample_fairness_wf|constructor]|reflexivity|reflexivity|].
  apply Z.leb_le. reflexivity.
Defined.

(** An account without a record is ranked by the lower median of the known
    accounts: never an index error, 0 for an empty ledger, and otherwise a
    known account's value with at least half of the known values at or below
    it and more than half at or above it. *)
Theorem unknown_account_lower_median l key now :
  dt_aware now = true → dict_get key l = None →
  let known := known_services l now in
  ∃ v, ledger_normalized_service l key now = Ok v ∧
    (l = [] → v = 0) ∧
    (l ≠ [] → v ∈ known ∧
      (length known <= 2 * count (λ x, x <=? v)%Z known)%nat ∧
      (length known < 2 * count (λ x, v <=? x)%Z known)%nat).
Proof.
  intros Hn Hget known. rewrite ledger_normalized_service_eq by done.
  eexists; split; [done|]. unfold ledger_value. rewrite Hget. fold known. split; [by intros ->|].
  intros Hne. assert (Hlen : length known ≠ 0%nat).
  { unfold known, known_services, dict_values. rewrite !length_fmap. by destruct l. }
  destruct (lookup_lt_is_Some_2 (py_sorted_Z known) ((length known - 1) / 2)) as [v Hv].
  { rewrite length_py_sorted_Z. by apply median_index. }
  rewrite Hv. cbn. pose proof (list_elem_of_lookup_2 _ _ _ Hv) as Hin.
  rewrite py_sorted_Z_perm in Hin.
  apply sorted_rank in Hv as [H1 H2]; [|apply py_sorted_Z_sorted].
  rewrite (count_perm _ _ _ (py_sorted_Z_perm known)) in H1.
  rewrite (count_perm _ _ _ (py_sorted_Z_perm known)) in H2.
  rewrite length_py_sorted_Z in H2.
  pose proof (Nat.div_mod_eq (length known - 1) 2).
  pose proof (Nat.mod_upper_bound (length known - 1) 2). split_and!; [done|lia|lia].
Qed.

Lemma unknown_account_lower_median_witness :
  ∃ v, ledger_normalized_service [("a", sample_fairness)] "b" sample_now = Ok v ∧
    v ∈ known_services [("a", sample_fairness)] sample_now.
Proof.
  destruct (unknown_account_lower_median [("a", sample_fairness)] "b" sample_now eq_refl eq_refl)
    as (v & Hv & _ & Hin). exists v. split; [exact Hv|]. apply Hin. discriminate.
Defined.

(** ** The resource state store

    [selection/state.py]: a method body runs under the store's lock, so it is
    one step. *)

Record ResourceState := {
  rs_revision : Z;
  rs_fairness : FairnessLedger;
  rs_selection_ids : list string;
}.

#[export] Instance ResourceState_eq_dec : EqDecision ResourceState.
Proof. solve_decision. Defined.

Definition selection_id (v : pyval) : result string :=
  match v with
  | VStr s =>
      if (1 <=? py_len s) && (py_len s <=? 128) then Ok s
      else Err (ResourceStateError "invalid_selection_ids")
  | _ => Err (ResourceStateError "invalid_selection_ids")
  end.

Definition ResourceState_new (revision : pyval) (fairness : FairnessLedger) (ids : list pyval)
  : result ResourceState :=
  rev ← int_within revision 0 (10 ^ 12) (ResourceStateError "invalid_resource_revision");
  _ ← require (Z.of_nat (length ids) <=? 4096) (ResourceStateError "invalid_selection_ids");
  ids ← mapM_result selection_id ids;
  Ok {| rs_revision := rev; rs_fairness := fairness; rs_selection_ids := ids |}.

(** [ResourceStateStore(state)]. *)
Definition ResourceStateStore_new (state : option ResourceState) : ResourceState :=
  default {| rs_revision := 0; rs_fairness := []; rs_selection_ids := [] |} state.

Definition resource_read : ST ResourceState ResourceState := st_get.

Definition compare_and_replace (expected_revision : Z) (state : ResourceState)
  : ST ResourceState ResourceState := λ current,
  if negb (expected_revision =? rs_revision current)
  then (current, Err (ResourceStateError "stale_resource_revision"))
  else if negb (rs_revision state =? expected_revision + 1)
  then (current, Err (ResourceStateError "invalid_resource_revision"))
  else (state, Ok state).

(** A run of writers, each with the revision it read and its new state. *)
Fixpoint cas_run (writers : list (Z * ResourceState)) (current : ResourceState)
  : ResourceState * list bool :=
  match writers with
  | [] => (current, [])
  | (expected, new) :: writers =>
      let '(next, r) := compare_and_replace expected new current in
      let '(final, rs) := cas_run writers next in
      (final, is_ok r :: rs)
  end.

Lemma compare_and_replace_cases e n s :
  (compare_and_replace e n s = (n, Ok n) ∧ e = rs_revision s ∧ rs_revision n = e + 1) ∨
  (∃ m, compare_and_replace e n s = (s, Err (ResourceStateError m)) ∧
        (e ≠ rs_revision s ∨ rs_revision n ≠ e + 1)).
Proof.
  unfold compare_and_replace.
  destruct (Z.eqb_spec e (rs_revision s)); cbn; [|right; eexists; split; [done|by left]].
  destruct (Z.eqb_spec (rs_revision n) (e + 1)); cbn; [by left|].
  right. eexists; split; [done|by right].
Qed.

Lemma cas_run_revision ws s :
  rs_revision (cas_run ws s).1 = rs_revision s + Z.of_nat (length (List.filter id (cas_run ws s).2)).
Proof.
  revert s; induction ws as [|[e n] ws IH]; intros s; cbn; [lia|].
  destruct (compare_and_replace_cases e n s) as [(-> & He & Hn)|(m & -> & _)];
    cbn [is_ok].
  - specialize (IH n). destruct (cas_run ws n) as [f rs]. cbn in *. lia.
  - specialize (IH s). destruct (cas_run ws s) as [f rs]. cbn in *. lia.
Qed.

(** The resource state is replaced by compare-and-swap without lost
    updates: over any run of writers the revision grows by exactly the number
    of writers that succeeded, and of two writers that read the same revision
    the later one is refused once the earlier one succeeded, whatever happened
    in between, leaving the state as it was. *)
Theorem resource_cas_no_lost_update ws s e n1 n2 s1 r2 s2 :
  compare_and_replace e n1 s = (s1, Ok n1) →
  compare_and_replace e n2 (cas_run ws s1).1 = (s2, r2) →
  rs_revision (cas_run ws s1).1
    = rs_revision s + 1 + Z.of_nat (length (List.filter id (cas_run ws s1).2)) ∧
  r2 = Err (ResourceStateError "stale_resource_revision") ∧ s2 = (cas_run ws s1).1.
Proof.
  intros H1 H2.
  destruct (compare_and_replace_cases e n1 s) as [(Heq & He & Hn)|(m & Heq & _)];
    rewrite Heq in H1; [|done].
  injection H1 as <-. rewrite cas_run_revision. split; [lia|].
  unfold compare_and_replace in H2. rewrite cas_run_revision in H2.
  destruct (Z.eqb_spec e (rs_revision n1 + Z.of_nat (length (List.filter id (cas_run ws n1).2))));
    [lia|]. cbn in H2. naive_solver.
Qed.

Definition resource_at (rev : Z) : ResourceState :=
  {| rs_revision := rev; rs_fairness := []; rs_selection_ids := [] |}.

Lemma resource_cas_no_lost_update_witness :
  rs_revision (cas_run [(1, resource_at 2)] (resource_at 1)).1 = 2 ∧
  Err (ResourceStateError "stale_resource_revision")
    = @Err ResourceState (ResourceStateError "stale_resource_revision") ∧
  resource_at 2 = resource_at 2.
Proof.
  exact (resource_cas_no_lost_update [(1, resource_at 2)] (resource_at 0) 0
           (resource_at 1) (resource_at 1) (resource_at 1) _ _ eq_refl eq_refl).
Defined.
