(* ===== verification/Selection.v ===== *)
(** * Resource selection

    [src/src/the_hive/selection.py], lines 39 to 73 and 498 to 832, its facade
    [selection/policy.py] and [dynamic_pool.resolve_dynamic_pool_selection]:
    candidates, feature and admission gates, the eligibility rules, the bands,
    the ranking key and the deterministic preview. *)

From S2P Require Import Prelude PyTime Order DynamicPool Usage Fairness.

(** ** Vocabulary *)

Inductive TaskKind := SIMPLE | COMPLEX | UNKNOWN.
Inductive ModelRole := PRIMARY | SECONDARY_SIMPLE.
Inductive SelectionBand := SP0 | SP1A | SP1B | SP2 | SP3.
Inductive AdmissionMode := OFF | SHADOW | ENFORCED.

#[export] Instance TaskKind_eq_dec : EqDecision TaskKind.
Proof. solve_decision. Defined.
#[export] Instance ModelRole_eq_dec : EqDecision ModelRole.
Proof. solve_decision. Defined.
#[export] Instance SelectionBand_eq_dec : EqDecision SelectionBand.
Proof. solve_decision. Defined.
#[export] Instance AdmissionMode_eq_dec : EqDecision AdmissionMode.
Proof. solve_decision. Defined.

Definition _BAND_RANK (b : SelectionBand) : Z :=
  match b with SP0 => 0 | SP1A => 1 | SP1B => 2 | SP2 => 3 | SP3 => 4 end.

(** ** Policies and candidates *)

Record SelectionPolicy := {
  sp0 : bool;
  sp1a : bool;
  sp1b : bool;
  sp2 : bool;
  sp3 : bool;
}.

#[export] Instance SelectionPolicy_eq_dec : EqDecision SelectionPolicy.
Proof. solve_decision. Defined.

Definition SelectionPolicy_new (v0 v1a v1b v2 v3 : pyval) : result SelectionPolicy :=
  let e := SelectionError "invalid_selection_policy" in
  b0 ← as_bool v0 e; b1a ← as_bool v1a e; b1b ← as_bool v1b e;
  b2 ← as_bool v2 e; b3 ← as_bool v3 e;
  Ok {| sp0 := b0; sp1a := b1a; sp1b := b1b; sp2 := b2; sp3 := b3 |}.

Record SelectionCandidate := {
  c_agent_id : string;
  c_account_key : string;
  c_model_id : string;
  task_kind : TaskKind;
  model_role : ModelRole;
  enabled : bool;
  authenticated : bool;
  account_ready : bool;
  account_capacity_available : bool;
  model_capacity_available : bool;
  lease_available : bool;
  usage : option UsageObservation;
  sp1a_eligible : bool;
  sp1b_eligible : bool;
  sp2_eligible : bool;
  sp1a_bucket : Z;
  sp1b_bucket : Z;
  sp2_bucket : Z;
  repository_affinity : Z;
  warm_home : bool;
  recent_failure : bool;
  rotation_distance : Z;
}.

#[export] Instance SelectionCandidate_eq_dec : EqDecision SelectionCandidate.
Proof. solve_decision. Defined.

(** The checks of [__post_init__]; the annotated flags and enumerations are
    typed, so their [isinstance] tests hold by construction. *)
Definition SelectionCandidate_check (c : SelectionCandidate) : result SelectionCandidate :=
  let texts := [c_agent_id c; c_account_key c; c_model_id c] in
  let ints := [sp1a_bucket c; sp1b_bucket c; sp2_bucket c; repository_affinity c;
               rotation_distance c] in
  _ ← require (forallb (λ s, (1 <=? py_len s) && (py_len s <=? 128) && negb (has_control s)) texts)
        (SelectionError "invalid_selection_candidate");
  _ ← require (forallb (λ z, 0 <=? z) ints) (SelectionError "invalid_selection_bucket");
  Ok c.

Record SelectionResult := {
  r_agent_id : string;
  r_model_id : string;
  r_band : SelectionBand;
  r_fairness_micro : Z;
  r_account_pool_binding : option AccountPoolBindingV1;
}.

#[export] Instance SelectionResult_eq_dec : EqDecision SelectionResult.
Proof. solve_decision. Defined.

Record SelectionPreview := {
  selected : option SelectionResult;
  eligible_count : Z;
  exclusions : list (string * string);
}.

Record AdmissionPolicy := {
  ap_mode : AdmissionMode;
  pilot_repository_allowed : bool;
  principal_verified : bool;
  scope_allowed : bool;
  account_verified : bool;
  model_verified : bool;
  reservation_available : bool;
  execute_enabled : bool;
}.

Definition missing_gates (p : AdmissionPolicy) : list string :=
  let gates := [ ("pilot_repository", pilot_repository_allowed p);
                 ("principal", principal_verified p);
                 ("scope", scope_allowed p);
                 ("account", account_verified p);
                 ("model", model_verified p);
                 ("reservation", reservation_available p);
                 ("execute", execute_enabled p) ] in
  (List.filter (λ g : string * bool, negb g.2) gates).*1.

Record AdmissionPreview := {
  av_selection : SelectionPreview;
  av_mode : AdmissionMode;
  av_planned : bool;
  av_executable : bool;
  av_reason : string;
  av_missing_gates : list string;
}.

(** [AdmissionPreview(...)] with its [__post_init__]. *)
Definition AdmissionPreview_new (sel : SelectionPreview) (md : AdmissionMode)
  (planned executable : bool) (reason : string) (missing : list string)
  : result AdmissionPreview :=
  let e := SelectionError "invalid_admission_preview" in
  _ ← require (negb (bool_decide (reason = ""))) e;
  _ ← require (forallb (λ g, negb (bool_decide (g = ""))) missing) e;
  _ ← require (negb (executable && negb planned)) e;
  Ok {| av_selection := sel; av_mode := md; av_planned := planned;
        av_executable := executable; av_reason := reason; av_missing_gates := missing |}.

(** ** Eligibility, bands and the ranking key *)

Definition eligibility_reason (c : SelectionCandidate) : option string :=
  if negb (enabled c) then Some "disabled"
  else if negb (authenticated c) then Some "unauthenticated"
  else if negb (account_ready c) then Some "account_unready"
  else if negb (account_capacity_available c) then Some "account_capacity"
  else if negb (model_capacity_available c) then Some "model_capacity"
  else if negb (lease_available c) then Some "lease_busy"
  else if negb (bool_decide (task_kind c = SIMPLE))
          && bool_decide (model_role c = SECONDARY_SIMPLE)
  then Some "secondary_requires_simple_task"
  else None.

Definition _band (c : SelectionCandidate) (p : SelectionPolicy) (now : datetime)
  : result (option SelectionBand) :=
  due ← and_then (sp0 p)
          match usage c with
          | None => Ok false
          | Some u => is_passive_sp0_due u now
          end;
  Ok (if due : bool then Some SP0
      else if sp1a p && sp1a_eligible c then Some SP1A
      else if sp1b p && sp1b_eligible c then Some SP1B
      else if sp2 p && sp2_eligible c && bool_decide (task_kind c = SIMPLE)
              && bool_decide (model_role c = SECONDARY_SIMPLE) then Some SP2
      else if sp3 p then Some SP3
      else None).

(** [int(flag)]. *)
Definition int_of_bool (b : bool) : Z := if b then 1 else 0.

(** The nine integers and the agent id of the key tuple. *)
Definition key : Type := list Z * string.
Definition key_cmp : key → key → comparison := pair_cmp lex_cmp str_cmp.

#[export] Instance key_cmp_total : TotalCmp key_cmp.
Proof. unfold key_cmp. apply _. Qed.

Definition due_since (c : SelectionCandidate) (b : SelectionBand) : Z :=
  match b, usage c with
  | SP0, Some u => dt_timestamp_int (observed_at u)
  | _, _ => 2 ^ 63 - 1
  end.

Definition bucket (c : SelectionCandidate) (b : SelectionBand) : Z :=
  match b with
  | SP1A => sp1a_bucket c
  | SP1B => sp1b_bucket c
  | SP2 => sp2_bucket c
  | _ => 0
  end.

Definition _candidate_key (c : SelectionCandidate) (b : SelectionBand)
  (ledger : FairnessLedger) (now : datetime) : result key :=
  service ← ledger_normalized_service ledger (c_account_key c) now;
  Ok ([ _BAND_RANK b; due_since c b; bucket c b; service;
        last_selected_epoch ledger (c_account_key c);
        - repository_affinity c; - int_of_bool (warm_home c);
        int_of_bool (recent_failure c); rotation_distance c ], c_agent_id c).

(** ** The preview *)

Definition ranked : Type := key * SelectionCandidate * SelectionBand.

(** The loop over the candidates: the eligible ones with their key and band,
    and the exclusions, both in input order. *)
Fixpoint preview_loop (cs : list SelectionCandidate) (p : SelectionPolicy) (now : datetime)
  (ledger : FairnessLedger) : result (list ranked * list (string * string)) :=
  match cs with
  | [] => Ok ([], [])
  | c :: cs =>
      match eligibility_reason c with
      | Some reason =>
          rest ← preview_loop cs p now ledger;
          Ok (rest.1, (c_agent_id c, reason) :: rest.2)
      | None =>
          band ← _band c p now;
          match band with
          | None =>
              rest ← preview_loop cs p now ledger;
              Ok (rest.1, (c_agent_id c, "feature_disabled") :: rest.2)
          | Some b =>
              k ← _candidate_key c b ledger now;
              rest ← preview_loop cs p now ledger;
              Ok ((k, c, b) :: rest.1, rest.2)
          end
      end
  end.

Definition preview_selection (cs : list SelectionCandidate) (p : SelectionPolicy)
  (now : datetime) (ledger : option FairnessLedger) : result SelectionPreview :=
  now ← Usage._aware now "invalid_selection_time";
  let ledger := default [] ledger in
  loop ← preview_loop cs p now ledger;
  match loop.1 with
  | [] => Ok {| selected := None; eligible_count := 0; exclusions := loop.2 |}
  | r :: rs =>
      let best : ranked := min_by key_cmp (λ r : ranked, r.1.1) r rs in
      let c := best.1.2 in
      service ← ledger_normalized_service ledger (c_account_key c) now;
      Ok {| selected := Some {| r_agent_id := c_agent_id c; r_model_id := c_model_id c;
                                r_band := best.2; r_fairness_micro := service;
                                r_account_pool_binding := None |};
            eligible_count := Z.of_nat (length loop.1);
            exclusions := loop.2 |}
  end.

Definition preview_selection_admission (cs : list SelectionCandidate)
  (p : SelectionPolicy) (ap : AdmissionPolicy) (now : datetime)
  (ledger : option FairnessLedger) : result AdmissionPreview :=
  sel ← preview_selection cs p now ledger;
  let missing := missing_gates ap in
  let m := ap_mode ap in
  if bool_decide (m = OFF)
  then AdmissionPreview_new sel m false false "admission_disabled" missing
  else if bool_decide (selected sel = None)
  then AdmissionPreview_new sel m false false "no_eligible_candidate" missing
  else if bool_decide (m = SHADOW)
  then AdmissionPreview_new sel m true false "shadow_only" missing
  else if negb (bool_decide (missing = []))
  then AdmissionPreview_new sel m false false "admission_gate_blocked" missing
  else AdmissionPreview_new sel m true true "admitted" [].

(** ** The facade of [selection/policy.py] *)

Record EligibilityResult := {
  er_eligible : bool;
  er_reason_codes : list string;
}.

Definition evaluate_eligibility (c : SelectionCandidate) : EligibilityResult :=
  let reason := eligibility_reason c in
  {| er_eligible := bool_decide (reason = None);
     er_reason_codes := match reason with None => [] | Some r => [r] end |}.

Record SelectionPriorityKey := {
  pk_band_rank : Z;
  pk_fairness_micro : Z;
  pk_last_selected_epoch : Z;
  pk_rotation_distance : Z;
  pk_agent_id : string;
}.

Definition priority_key (c : SelectionCandidate) (state : FairnessLedger) (now : datetime)
  : result SelectionPriorityKey :=
  fairness ← ledger_normalized_service state (c_account_key c) now;
  let last := last_selected_epoch state (c_account_key c) in
  Ok {| pk_band_rank := 0; pk_fairness_micro := fairness; pk_last_selected_epoch := last;
        pk_rotation_distance := rotation_distance c; pk_agent_id := c_agent_id c |}.

Record SelectionDecision := {
  sd_selected : option SelectionResult;
  sd_eligible_count : Z;
  sd_reason_codes : list string;
}.

Definition select_candidate (cs : list SelectionCandidate) (p : SelectionPolicy)
  (now : datetime) (ledger : option FairnessLedger) : result SelectionDecision :=
  preview ← preview_selection cs p now ledger;
  Ok {| sd_selected := selected preview; sd_eligible_count := eligible_count preview;
        sd_reason_codes := (exclusions preview).*2 |}.

(** ** Dynamic pool resolution *)

(** [replace(selection, account_pool_binding=...)]. *)
Definition with_binding (s : SelectionResult) (b : AccountPoolBindingV1) : SelectionResult :=
  {| r_agent_id := r_agent_id s; r_model_id := r_model_id s; r_band := r_band s;
     r_fairness_micro := r_fairness_micro s; r_account_pool_binding := Some b |}.

Definition resolve_dynamic_pool_selection (s : SelectionResult) (inv : DynamicPoolInventoryV1)
  : result SelectionResult :=
  entry ← entry_for inv (r_agent_id s);
  b ← entry_binding entry;
  Ok (with_binding s b).

(** ** The values behind the calls, at an aware time *)

Definition sp0_due (u : UsageObservation) (now : datetime) : bool :=
  bool_decide (semantics u = "remaining") && bool_decide (unit u = "percent")
  && (value u =? 100) && bool_decide (Usage.reset_kind u = "rolling_unanchored")
  && bool_decide (confidence u = "verified")
  && age_within now (observed_at u) (stale_after_seconds u).

Definition band_value (c : SelectionCandidate) (p : SelectionPolicy) (now : datetime)
  : option SelectionBand :=
  if sp0 p && match usage c with None => false | Some u => sp0_due u now end then Some SP0
  else if sp1a p && sp1a_eligible c then Some SP1A
  else if sp1b p && sp1b_eligible c then Some SP1B
  else if sp2 p && sp2_eligible c && bool_decide (task_kind c = SIMPLE)
          && bool_decide (model_role c = SECONDARY_SIMPLE) then Some SP2
  else if sp3 p then Some SP3
  else None.

(** Why a candidate is excluded, or its band. *)
Definition verdict (c : SelectionCandidate) (p : SelectionPolicy) (now : datetime)
  : string + SelectionBand :=
  match eligibility_reason c with
  | Some reason => inl reason
  | None => match band_value c p now with
            | None => inl "feature_disabled"
            | Some b => inr b
            end
  end.

Definition key_value (c : SelectionCandidate) (b : SelectionBand) (l : FairnessLedger)
  (now : datetime) : key :=
  ([ _BAND_RANK b; due_since c b; bucket c b; ledger_value l (c_account_key c) now;
     last_selected_epoch l (c_account_key c);
     - repository_affinity c; - int_of_bool (warm_home c);
     int_of_bool (recent_failure c); rotation_distance c ], c_agent_id c).

Definition rank_of (p : SelectionPolicy) (now : datetime) (l : FairnessLedger)
  (c : SelectionCandidate) : option ranked :=
  match verdict c p now with
  | inr b => Some (key_value c b l now, c, b)
  | inl _ => None
  end.

Definition exclusion_of (p : SelectionPolicy) (now : datetime) (c : SelectionCandidate)
  : option (string * string) :=
  match verdict c p now with
  | inl why => Some (c_agent_id c, why)
  | inr _ => None
  end.

Lemma is_passive_sp0_due_eq u now :
  dt_aware now = true → is_passive_sp0_due u now = Ok (sp0_due u now).
Proof.
  intros Hn. unfold is_passive_sp0_due, obs_is_fresh, sp0_due.
  rewrite sel_aware_true by done. rewrite bind_ret. apply and_then_ret.
Qed.

Lemma _band_eq c p now : dt_aware now = true → _band c p now = Ok (band_value c p now).
Proof.
  intros Hn. unfold _band, band_value.
  destruct (usage c) as [u|]; [rewrite is_passive_sp0_due_eq by done|];
    by rewrite and_then_ret.
Qed.

Lemma _candidate_key_eq c b l now :
  dt_aware now = true → _candidate_key c b l now = Ok (key_value c b l now).
Proof. intros Hn. unfold _candidate_key. by rewrite ledger_normalized_service_eq. Qed.

Lemma preview_loop_eq cs p now l :
  dt_aware now = true →
  preview_loop cs p now l = Ok (omap (rank_of p now l) cs, omap (exclusion_of p now) cs).
Proof.
  intros Hn. induction cs as [|c cs IH]; cbn; [done|].
  unfold rank_of at 1, exclusion_of at 1, verdict.
  destruct (eligibility_reason c) as [why|]; [by rewrite IH|].
  rewrite _band_eq by done. rewrite bind_ret.
  destruct (band_value c p now) as [b|]; [|by rewrite IH].
  rewrite _candidate_key_eq by done. rewrite bind_ret. by rewrite IH.
Qed.

(** The result record of a ranked candidate. *)
Definition result_of (l : FairnessLedger) (now : datetime) (r : ranked) : SelectionResult :=
  {| r_agent_id := c_agent_id r.1.2; r_model_id := c_model_id r.1.2; r_band := r.2;
     r_fairness_micro := ledger_value l (c_account_key r.1.2) now;
     r_account_pool_binding := None |}.

Definition best_of (rs : list ranked) : option ranked :=
  match rs with
  | [] => None
  | r :: rs => Some (min_by key_cmp (λ r : ranked, r.1.1) r rs)
  end.

Lemma preview_selection_eq cs p now l :
  dt_aware now = true →
  preview_selection cs p now l =
  let eligible := omap (rank_of p now (default [] l)) cs in
  Ok {| selected := result_of (default [] l) now <$> best_of eligible;
        eligible_count := Z.of_nat (length eligible);
        exclusions := omap (exclusion_of p now) cs |}.
Proof.
  intros Hn. unfold preview_selection. rewrite sel_aware_true, bind_ret by done.
  rewrite preview_loop_eq, bind_ret by done. cbv zeta. cbn [fst snd].
  destruct (omap (rank_of p now (default [] l)) cs) as [|r rs]; [done|].
  by rewrite ledger_normalized_service_eq.
Qed.

Lemma best_of_Some rs r :
  best_of rs = Some r →
  r ∈ rs ∧ ∀ r', r' ∈ rs → cmp_le key_cmp r.1.1 r'.1.1.
Proof.
  destruct rs as [|x rs]; [done|]. intros [= <-]. split; [apply (min_by_elem key_cmp)|].
  intros r' Hr. by apply (min_by_least key_cmp (λ r : ranked, r.1.1)).
Qed.

Lemma best_of_None rs : best_of rs = None ↔ rs = [].
Proof. by destruct rs. Qed.

Lemma elem_of_ranked p now l (cs : list SelectionCandidate) (r : ranked) :
  r ∈ (omap (rank_of p now l) cs : list ranked) ↔
  ∃ c b, c ∈ cs ∧ verdict c p now = inr b ∧ r = (key_value c b l now, c, b).
Proof.
  rewrite list_elem_of_omap. unfold rank_of. split.
  - intros (c & Hc & Hr). destruct (verdict c p now) eqn:Hv; naive_solver.
  - intros (c & b & Hc & Hv & ->). exists c. by rewrite Hv.
Qed.

Lemma omap_partition p now l (cs : list SelectionCandidate) :
  (length (omap (rank_of p now l) cs : list ranked)
   + length (omap (exclusion_of p now) cs : list (string * string)) = length cs)%nat.
Proof.
  induction cs as [|c cs IH]; cbn; [done|].
  unfold rank_of at 1, exclusion_of at 1. destruct (verdict c p now); cbn; lia.
Qed.

(** ** Theorems *)

(** The seven hard conditions a candidate must meet. *)
Definition fully_eligible (c : SelectionCandidate) : Prop :=
  enabled c = true ∧ authenticated c = true ∧ account_ready c = true ∧
  account_capacity_available c = true ∧ model_capacity_available c = true ∧
  lease_available c = true ∧ (model_role c = SECONDARY_SIMPLE → task_kind c = SIMPLE).

Lemma eligibility_reason_None c : eligibility_reason c = None ↔ fully_eligible c.
Proof.
  unfold eligibility_reason, fully_eligible.
  destruct (enabled c), (authenticated c), (account_ready c), (account_capacity_available c),
    (model_capacity_available c), (lease_available c), (task_kind c), (model_role c);
    cbn; naive_solver.
Qed.

(** A candidate that passes the hard conditions and that a band of the policy
    admits. *)
Definition admitted (p : SelectionPolicy) (now : datetime) (c : SelectionCandidate) : bool :=
  bool_decide (eligibility_reason c = None) && bool_decide (is_Some (band_value c p now)).

(** Why a candidate that is not admitted is left out. *)
Definition why_not (c : SelectionCandidate) : string :=
  default "feature_disabled" (eligibility_reason c).

Lemma admitted_true p now c :
  admitted p now c = true ↔ fully_eligible c ∧ is_Some (band_value c p now).
Proof.
  unfold admitted. by rewrite andb_true_iff, !bool_decide_eq_true, eligibility_reason_None.
Qed.

Lemma ranked_admitted p now l cs :
  length (omap (rank_of p now l) cs : list ranked) = length (List.filter (admitted p now) cs).
Proof.
  induction cs as [|c cs IH]; [done|]. cbn. unfold rank_of at 1, admitted at 1, verdict.
  destruct (eligibility_reason c), (band_value c p now); cbn; auto.
Qed.

Lemma exclusions_rejected p now cs :
  omap (exclusion_of p now) cs
  = (λ c, (c_agent_id c, why_not c)) <$> List.filter (λ c, negb (admitted p now c)) cs.
Proof.
  induction cs as [|c cs IH]; [done|]. cbn. unfold exclusion_of at 1, admitted at 1, verdict.
  destruct (eligibility_reason c) eqn:He, (band_value c p now); cbn; rewrite ?IH; unfold why_not;
    rewrite ?He; done.
Qed.

(** C7: The selection preview is total and correct: at an aware time it always
    returns; it counts the candidates that pass every hard condition and that a
    policy band admits, and lists exactly the others, each once and in the order
    of the candidates, with its agent and the first condition it fails (or
    [feature_disabled] when no band admits it); it selects exactly when some
    candidate is admitted, and the selected one is an admitted candidate with
    the least ranking key. *)
Theorem preview_selection_correct cs p now l :
  dt_aware now = true →
  ∃ pv, preview_selection cs p now l = Ok pv ∧
    eligible_count pv + Z.of_nat (length (exclusions pv)) = Z.of_nat (length cs) ∧
    eligible_count pv = Z.of_nat (length (List.filter (admitted p now) cs)) ∧
    exclusions pv = (λ c, (c_agent_id c, why_not c))
                      <$> List.filter (λ c, negb (admitted p now c)) cs ∧
    (∀ c, admitted p now c = true ↔ fully_eligible c ∧ is_Some (band_value c p now)) ∧
    (selected pv = None ↔ ∀ c, c ∈ cs → fully_eligible c → band_value c p now = None) ∧
    (∀ r, selected pv = Some r → ∃ c b, c ∈ cs ∧ fully_eligible c ∧
       band_value c p now = Some b ∧ r = result_of (default [] l) now
         (key_value c b (default [] l) now, c, b) ∧
       ∀ c' b', c' ∈ cs → fully_eligible c' → band_value c' p now = Some b' →
         cmp_le key_cmp (key_value c b (default [] l) now) (key_value c' b' (default [] l) now)).
Proof.
  intros Hn. rewrite preview_selection_eq by done. cbv zeta.
  set (rs := omap _ cs). eexists; split; [done|]. cbn [selected eligible_count exclusions].
  assert (Hv : ∀ c b, verdict c p now = inr b ↔ fully_eligible c ∧ band_value c p now = Some b).
  { intros c b. rewrite <- eligibility_reason_None. unfold verdict.
    destruct (eligibility_reason c), (band_value c p now); naive_solver. }
  split; [|split; [by rewrite <- (ranked_admitted p now (default [] l))|split;
    [apply exclusions_rejected|split; [apply admitted_true|split]]]].
  - pose proof (omap_partition p now (default [] l) cs). fold rs in H. lia.
  - rewrite fmap_None, best_of_None. split.
    + intros Hrs c Hc He. destruct (band_value c p now) as [b|] eqn:Hb; [|done].
      assert ((key_value c b (default [] l) now, c, b) ∈ rs) as Hin.
      { apply elem_of_ranked. exists c, b. by rewrite Hv. }
      by rewrite Hrs in Hin; apply elem_of_nil in Hin.
    + intros Hall. destruct rs as [|r rs'] eqn:Hrs; [done|].
      assert (r ∈ rs) as (c & b & Hc & [He Hb]%Hv & _)%elem_of_ranked by (rewrite Hrs; by left).
      rewrite Hall in Hb; done.
  - intros r (x & [Hx Hmin]%best_of_Some & ->)%fmap_Some.
    apply elem_of_ranked in Hx as (c & b & Hc & [He Hb]%Hv & ->).
    exists c, b. split_and!; [done..|]. intros c' b' Hc' He' Hb'.
    apply (Hmin (key_value c' b' (default [] l) now, c', b')).
    apply elem_of_ranked. exists c', b'. by rewrite Hv.
Qed.

(** The preview refuses exactly a naive time. *)
Lemma preview_selection_naive cs p now l :
  dt_aware now = false →
  preview_selection cs p now l = Err (SelectionError "invalid_selection_time").
Proof. intros Hn. unfold preview_selection, Usage._aware. by rewrite Hn. Qed.

Lemma sp0_due_age u now :
  sp0_due u now = true → 0 <= dt_utc now - dt_utc (observed_at u) <= stale_after_seconds u * US_PER_SECOND.
Proof. unfold sp0_due. rewrite !andb_true_iff, age_within_true. naive_solver. Qed.

(** Bands are strict priorities: the selected candidate's band is at most
    that of every fully eligible candidate a policy band admits, and inside an
    unanchored band (any but SP0) no such candidate of the same band and
    bucket has a smaller fairness value than the selected account. *)
Theorem selection_priority_and_fairness cs p now l pv r c' b' :
  dt_aware now = true →
  preview_selection cs p now l = Ok pv → selected pv = Some r →
  c' ∈ cs → fully_eligible c' → band_value c' p now = Some b' →
  _BAND_RANK (r_band r) <= _BAND_RANK b' ∧
  ∃ c, c ∈ cs ∧ r_agent_id r = c_agent_id c ∧ band_value c p now = Some (r_band r) ∧
    (r_band r = b' → b' ≠ SP0 → bucket c b' = bucket c' b' →
     r_fairness_micro r <= ledger_value (default [] l) (c_account_key c') now).
Proof.
  intros Hn Hpv Hr Hc' He' Hb'.
  rewrite preview_selection_eq in Hpv by done. injection Hpv as <-. cbn in Hr.
  apply fmap_Some in Hr as (x & [Hx Hmin]%best_of_Some & ->).
  apply elem_of_ranked in Hx as (c & b & Hc & Hv & ->).
  assert (Hbv : band_value c p now = Some b).
  { unfold verdict in Hv. repeat case_match; naive_solver. }
  assert (Hle : cmp_le key_cmp (key_value c b (default [] l) now)
                  (key_value c' b' (default [] l) now)).
  { apply (Hmin (key_value c' b' (default [] l) now, c', b')).
    apply elem_of_ranked. exists c', b'. split_and!; try done.
    unfold verdict. apply eligibility_reason_None in He' as ->. by rewrite Hb'. }
  clear Hmin. cbn [result_of r_band r_agent_id r_fairness_micro fst snd].
  revert Hle. unfold cmp_le, cmp_ltb, key_cmp, pair_cmp. cbn [key_value fst snd lex_cmp].
  intros Hle. split.
  - destruct (_BAND_RANK b' ?= _BAND_RANK b) eqn:Hcmp; [|done|].
    + apply Z.compare_eq_iff in Hcmp. lia.
    + apply Z.compare_gt_iff in Hcmp. lia.
  - exists c. split_and!; [done..|]. intros -> Hne Hbk.
    rewrite Z.compare_refl in Hle.
    replace (due_since c' b') with (due_since c b') in Hle by (by destruct b').
    rewrite Z.compare_refl, Hbk, Z.compare_refl in Hle.
    destruct (ledger_value _ (c_account_key c') now ?= _) eqn:Hcmp; [|done|].
    + apply Z.compare_eq_iff in Hcmp. lia.
    + apply Z.compare_gt_iff in Hcmp. lia.
Qed.

Lemma elem_of_ranked_inj p now l (cs : list SelectionCandidate) (r r' : ranked) :
  NoDup (c_agent_id <$> cs) → r ∈ (omap (rank_of p now l) cs : list ranked) →
  r' ∈ (omap (rank_of p now l) cs : list ranked) → r.1.1 = r'.1.1 → r = r'.
Proof.
  intros Hnd (c & b & Hc & Hv & ->)%elem_of_ranked (c' & b' & Hc' & Hv' & ->)%elem_of_ranked.
  cbn [fst]. intros Hk. assert (Hid : c_agent_id c = c_agent_id c') by exact (f_equal snd Hk).
  apply list_elem_of_lookup in Hc as [i Hi], Hc' as [j Hj].
  assert (i = j) as <-.
  { apply (NoDup_lookup _ _ _ (c_agent_id c) Hnd); rewrite list_lookup_fmap.
    - by rewrite Hi.
    - rewrite Hj. cbn. by rewrite Hid. }
  rewrite Hi in Hj. injection Hj as ->. rewrite Hv in Hv'. by injection Hv' as ->.
Qed.

Lemma best_of_perm (rs rs' : list ranked) :
  (∀ a b, a ∈ rs → b ∈ rs → a.1.1 = b.1.1 → a = b) → rs ≡ₚ rs' → best_of rs = best_of rs'.
Proof.
  intros Hinj Hp. destruct rs as [|x rs], rs' as [|y rs'].
  - done.
  - by apply Permutation_nil_cons in Hp.
  - by apply symmetry, Permutation_nil_cons in Hp.
  - cbn. f_equal. by apply (min_by_perm key_cmp).
Qed.

(** The preview is deterministic in the strong sense: with distinct agent
    ids, presenting the same candidates in another order selects the same
    agent, model, band and fairness value, with the same count and the same
    exclusions up to order. *)
Theorem preview_order_independent cs cs' p now l :
  dt_aware now = true → NoDup (c_agent_id <$> cs) → cs ≡ₚ cs' →
  ∃ pv pv', preview_selection cs p now l = Ok pv ∧ preview_selection cs' p now l = Ok pv' ∧
    selected pv = selected pv' ∧ eligible_count pv = eligible_count pv' ∧
    exclusions pv ≡ₚ exclusions pv'.
Proof.
  intros Hn Hnd Hp. rewrite !preview_selection_eq by done.
  do 2 eexists; split_and!; [done|done|..]; cbn [selected eligible_count exclusions].
  - f_equal. apply best_of_perm; [|by rewrite Hp].
    intros a b Ha Hb. by eapply elem_of_ranked_inj.
  - by rewrite Hp.
  - by rewrite Hp.
Qed.

(** Admission is closed by default: whatever the inputs, a preview that is
    executable was computed in enforced mode with a selected candidate and all
    seven gates present, and conversely; an executable preview is planned and
    lists no missing gate; off, shadow, unselected and incompletely gated
    requests are never executable, with the reason that names the first
    obstacle. *)
Theorem admission_executable_iff cs p ap now l :
  dt_aware now = true →
  ∃ av, preview_selection_admission cs p ap now l = Ok av ∧
    (av_executable av = true ↔
       ap_mode ap = ENFORCED ∧ selected (av_selection av) ≠ None ∧
       pilot_repository_allowed ap && principal_verified ap && scope_allowed ap
       && account_verified ap && model_verified ap && reservation_available ap
       && execute_enabled ap = true) ∧
    (av_executable av = true → av_planned av = true ∧ av_missing_gates av = []) ∧
    preview_selection cs p now l = Ok (av_selection av) ∧
    av_reason av =
      match ap_mode ap, selected (av_selection av) with
      | OFF, _ => "admission_disabled"
      | _, None => "no_eligible_candidate"
      | SHADOW, Some _ => "shadow_only"
      | ENFORCED, Some _ =>
          if av_executable av then "admitted" else "admission_gate_blocked"
      end.
Proof.
  intros Hn. unfold preview_selection_admission.
  rewrite preview_selection_eq by done. rewrite bind_ret. cbv zeta.
  set (sel := Build_SelectionPreview _ _ _). clearbody sel.
  destruct ap as [md g1 g2 g3 g4 g5 g6 g7]; cbn [ap_mode pilot_repository_allowed
    principal_verified scope_allowed account_verified model_verified
    reservation_available execute_enabled].
  destruct sel as [[r|] n ex]; destruct md, g1, g2, g3, g4, g5, g6, g7;
    (eexists; split; [reflexivity|]; cbn; split_and!; naive_solver).
Qed.

(** *** Dynamic pool resolution *)

Definition entry_as_binding (e : DynamicPoolInventoryEntryV1) : AccountPoolBindingV1 :=
  {| account_id := entry_account_id e; pool_id := entry_pool_id e;
     authority_provider := entry_authority_provider e;
     runtime_provider := entry_runtime_provider e |}.

Lemma entry_binding_new a p pr rp e :
  DynamicPoolInventoryEntryV1_new a p pr rp = Ok e → entry_binding e = Ok (entry_as_binding e).
Proof.
  unfold DynamicPoolInventoryEntryV1_new. intros (b & Hb & [= <-])%bind_Ok.
  apply AccountPoolBindingV1_new_wf in Hb. unfold binding_wf in Hb.
  etrans; [exact Hb|by destruct b].
Qed.

(** Dynamic pool resolution looks only at the selected agent: over an
    inventory whose entries came from their constructor, it returns the
    selection unchanged but for the inventory entry's own four fields as
    binding when the agent is listed, and raises
    [dynamic_pool_binding_missing] when it is not. *)
Theorem resolve_dynamic_pool_exact s entries inv :
  DynamicPoolInventoryV1_new entries = Ok inv →
  (∀ agent e, (agent, e) ∈ entries → ∃ a p pr rp, DynamicPoolInventoryEntryV1_new a p pr rp = Ok e) →
  resolve_dynamic_pool_selection s inv =
    match dict_get (r_agent_id s) entries with
    | Some e => Ok (with_binding s (entry_as_binding e))
    | None => Err (DynamicPoolBindingError "dynamic_pool_binding_missing")
    end.
Proof.
  unfold DynamicPoolInventoryV1_new. intros H Hwf. inv_result.
  unfold resolve_dynamic_pool_selection, entry_for. cbn [entries_by_agent].
  destruct (dict_get (r_agent_id s) entries) as [e|] eqn:Hget.
  - apply dict_get_elem_of in Hget.
    assert (_AGENT_RE (r_agent_id s) = true) as ->.
    { rewrite forallb_forall in *.
      match goal with Hf : ∀ x, _ → _AGENT_RE _ = true |- _ =>
        apply (Hf (r_agent_id s, e)) end. by apply list_elem_of_In. }
    rewrite bind_ret. apply Hwf in Hget as (a & p & pr & rp & He).
    by rewrite (entry_binding_new _ _ _ _ _ He).
  - by destruct (_AGENT_RE _).
Qed.

(** *** Samples *)

Definition sample_candidate (agent account : string) : SelectionCandidate :=
  {| c_agent_id := agent; c_account_key := account; c_model_id := "m";
     task_kind := SIMPLE; model_role := PRIMARY; enabled := true; authenticated := true;
     account_ready := true; account_capacity_available := true;
     model_capacity_available := true; lease_available := true; usage := None;
     sp1a_eligible := true; sp1b_eligible := true; sp2_eligible := false;
     sp1a_bucket := 0; sp1b_bucket := 0; sp2_bucket := 0; repository_affinity := 0;
     warm_home := false; recent_failure := false; rotation_distance := 0 |}.

Definition sample_policy : SelectionPolicy :=
  {| sp0 := false; sp1a := true; sp1b := false; sp2 := false; sp3 := true |}.

Definition sample_ledger : FairnessLedger := [("busy", sample_fairness)].

Definition sample_candidates : list SelectionCandidate :=
  [sample_candidate "a1" "busy"; sample_candidate "a2" "busy"].

Definition sample_result : SelectionResult :=
  {| r_agent_id := "a1"; r_model_id := "m"; r_band := SP1A;
     r_fairness_micro := 50000000; r_account_pool_binding := None |}.

Lemma preview_selection_correct_witness :
  ∃ pv, preview_selection sample_candidates sample_policy sample_now (Some sample_ledger) = Ok pv ∧
    eligible_count pv + Z.of_nat (length (exclusions pv)) = 2.
Proof.
  destruct (preview_selection_correct sample_candidates sample_policy sample_now
              (Some sample_ledger) eq_refl) as (pv & H & Hc & _).
  exists pv. exact (conj H Hc).
Defined.

Lemma selection_priority_and_fairness_witness :
  _BAND_RANK (r_band sample_result) <= _BAND_RANK SP1A.
Proof.
  refine (proj1 (selection_priority_and_fairness sample_candidates sample_policy sample_now
            (Some sample_ledger)
            {| selected := Some sample_result; eligible_count := 2; exclusions := [] |}
            sample_result (sample_candidate "a2" "busy") SP1A eq_refl eq_refl eq_refl _ _ eq_refl)).
  - right. left.
  - repeat split.
Defined.

Lemma preview_order_independent_witness :
  ∃ pv pv', preview_selection sample_candidates sample_policy sample_now None = Ok pv ∧
    preview_selection (reverse sample_candidates) sample_policy sample_now None = Ok pv' ∧
    selected pv = selected pv' ∧ eligible_count pv = eligible_count pv' ∧
    exclusions pv ≡ₚ exclusions pv'.
Proof.
  apply preview_order_independent; [reflexivity| |symmetry; apply reverse_Permutation].
  cbn. constructor; [|apply NoDup_singleton].
  intros H%list_elem_of_singleton. discriminate H.
Defined.

Definition open_policy : AdmissionPolicy :=
  {| ap_mode := ENFORCED; pilot_repository_allowed := true; principal_verified := true;
     scope_allowed := true; account_verified := true; model_verified := true;
     reservation_available := true; execute_enabled := true |}.

Lemma admission_executable_iff_witness :
  ∃ av, preview_selection_admission sample_candidates sample_policy open_policy sample_now None
        = Ok av ∧ (av_executable av = true → av_planned av = true ∧ av_missing_gates av = []).
Proof.
  destruct (admission_executable_iff sample_candidates sample_policy open_policy sample_now None
              eq_refl) as (av & H & _ & Hp & _).
  exists av. exact (conj H Hp).
Defined.

Definition sample_entry : DynamicPoolInventoryEntryV1 :=
  {| entry_account_id := "acc"; entry_pool_id := "pool"; entry_authority_provider := "openai";
     entry_runtime_provider := None |}.

Lemma resolve_dynamic_pool_exact_witness :
  resolve_dynamic_pool_selection sample_result {| entries_by_agent := [("a1", sample_entry)] |}
  = Ok (with_binding sample_result (entry_as_binding sample_entry)).
Proof.
  refine (resolve_dynamic_pool_exact sample_result [("a1", sample_entry)] _ eq_refl _).
  intros agent e He. apply list_elem_of_singleton in He. injection He as -> ->.
  exists (VStr "acc"), (VStr "pool"), (VStr "openai"), VNone. reflexivity.
Defined.
