(* ===== verification/AdmissionRuntime.v ===== *)
(** * The server-side admission runtime

    [src/src/the_hive/admission_runtime.py].  The callables the server injects
    (gates, executor, completion evidence, journal, pool authority reader and
    clock) act on an environment [E] and may raise; they are fields of
    [ServerAdmissionRuntime].  The mutable state of the object is
    [RuntimeState]; the two locked regions of a method are steps of the state
    monad over both. *)

From S2P Require Import Prelude PyTime DynamicPool Admission.

Definition ADMISSION_RUNTIME_GATES : list string :=
  [ "authority"; "repository"; "scope"; "account"; "model"; "usage"; "lease";
    "process"; "auth"; "config" ].
Definition MAX_REASON_LENGTH : Z := 96.
Definition MAX_OPERATION_LENGTH : Z := 128.

(** ** Gate decisions *)

(** [char.isalnum()] on the code points below 256. *)
Definition py_isalnum (c : ascii) : bool :=
  in_alnum c || bool_decide (ord c ∈ [170; 178; 179; 181; 185; 186; 188; 189; 190])
  || in_range 192 214 c || in_range 216 246 c || in_range 248 255 c.

Record RuntimeGateDecision := {
  allowed : bool;
  reason_code : string;
}.

#[export] Instance RuntimeGateDecision_eq_dec : EqDecision RuntimeGateDecision.
Proof. solve_decision. Defined.

Definition reason_ok (s : string) : bool :=
  (1 <=? py_len s) && (py_len s <=? MAX_REASON_LENGTH)
  && string_forallb (λ c, py_isalnum c || is_char "_" c || is_char "-" c) s.

Definition RuntimeGateDecision_new (allow reason : pyval) : result RuntimeGateDecision :=
  match allow, reason with
  | VBool b, VStr s =>
      if reason_ok s then Ok {| allowed := b; reason_code := s |}
      else Err (AdmissionRuntimeError "invalid_runtime_gate_decision")
  | _, _ => Err (AdmissionRuntimeError "invalid_runtime_gate_decision")
  end.

Definition decision_public (d : RuntimeGateDecision) : pyval :=
  VDict [("allowed", VBool (allowed d)); ("reason_code", VStr (reason_code d))].

(** ** The injected collaborators *)

(** [CompletionJournal]: the three methods the adapter calls. *)
Record CompletionJournal (E : Type) := {
  record_started : AdmissionRecord → string → ST E ();
  record_completed : AdmissionRecord → string → pyval → ST E ();
  journal_execution_completed : AdmissionRecord → ST E bool;
}.
Arguments record_started {_}.
Arguments record_completed {_}.
Arguments journal_execution_completed {_}.

(** The attributes fixed by the constructor.  A gate that does not return a
    [RuntimeGateDecision] returns [None]; a gate that is absent or not
    callable is absent from [_gates]. *)
Record ServerAdmissionRuntime (E : Type) := {
  _gates : list (string * (AdmissionRecord → ST E (option RuntimeGateDecision)));
  _execute : option (AdmissionRecord → string → ST E pyval);
  _execution_completed : option (AdmissionRecord → ST E pyval);
  _completion_journal : option (CompletionJournal E);
  _pool_authority_reader : ST E UsageEvidenceV2;
  _now : ST E datetime;
}.
Arguments _gates {_}.
Arguments _execute {_}.
Arguments _execution_completed {_}.
Arguments _completion_journal {_}.
Arguments _pool_authority_reader {_}.
Arguments _now {_}.

Record RuntimeState := {
  _revalidated : list (string * Z);
  _last_failure : option RuntimeGateDecision;
}.

Definition ServerAdmissionRuntime_new {E}
  (gates : list (string * (AdmissionRecord → ST E (option RuntimeGateDecision))))
  execute completed journal reader now : result (ServerAdmissionRuntime E * RuntimeState) :=
  _ ← require (keys_within gates ADMISSION_RUNTIME_GATES)
        (AdmissionRuntimeError "unknown_runtime_gate");
  _ ← match journal, completed with
      | Some _, Some _ => Err (AdmissionRuntimeError "ambiguous_completion_evidence")
      | _, _ => Ok ()
      end;
  Ok ({| _gates := gates; _execute := execute; _execution_completed := completed;
         _completion_journal := journal; _pool_authority_reader := reader; _now := now |},
      {| _revalidated := []; _last_failure := None |}).

(** [except (TypeError, ValueError, OverflowError)]. *)
Definition clock_handled (e : exn) : bool :=
  is_type_error e || is_value_error e
  || match e with OverflowError _ => true | _ => false end.

(** [except (CompletionJournalError, OSError, RuntimeError, TypeError, ValueError)]. *)
Definition journal_handled (e : exn) : bool :=
  is_runtime_error e || is_os_error e || is_type_error e || is_value_error e.

Section runtime.
Context {E : Type} (rt : ServerAdmissionRuntime E).

Abbreviation RuntimeM := (ST (E * RuntimeState)).

(** Run an injected callable. *)
Definition env {A} (m : ST E A) : RuntimeM A := λ s,
  match m s.1 with (e, r) => ((e, s.2), r) end.

(** Update the object's own state. *)
Definition update (f : RuntimeState → RuntimeState) : RuntimeM () := λ s,
  ((s.1, f s.2), Ok ()).

Definition own : RuntimeM RuntimeState := λ s, (s, Ok s.2).

Definition _deny (reason : string) : RuntimeM bool :=
  let decision := match RuntimeGateDecision_new (VBool false) (VStr reason) with
                | Ok d => d
                | Err _ => {| allowed := false; reason_code := "runtime_gate_denied" |}
                end in
  _ ← update (λ s, {| _revalidated := _revalidated s; _last_failure := Some decision |});
  mret false.

(** The loop over the gates: [None] when all allow, the denial otherwise. *)
Fixpoint run_gates (names : list string) (admission : AdmissionRecord)
  : RuntimeM (option string) :=
  match names with
  | [] => mret None
  | name :: names =>
    match dict_get name (_gates rt) with
    | None => mret (Some ("missing_" +:+ name +:+ "_gate"))
    | Some gate =>
        outcome ← st_catch (d ← env (gate admission); mret (inl d))
                    (λ _, mret (inr (name +:+ "_gate_unavailable")));
        match outcome with
        | inr why => mret (Some why)
        | inl None => mret (Some "invalid_runtime_gate_decision")
        | inl (Some d) =>
            if allowed d then run_gates names admission
            else mret (Some (reason_code d))
        end
    end
  end.

(** The clock check: [None] when the admission is live. *)
Definition clock_check (admission : AdmissionRecord) : RuntimeM (option string) :=
  st_catch
  (now ← env (_now rt);
   if negb (dt_aware now) then mret (Some "admission_expired")
   else expired ← st_lift (is_expired admission now);
        mret (if expired : bool then Some "admission_expired" else None))
  (λ e, if clock_handled e then mret (Some "runtime_clock_unavailable")
        else st_lift (Err e)).

Definition revalidate (admission : AdmissionRecord) : RuntimeM bool :=
  if negb (bool_decide (state admission = REVALIDATING))
  then _deny "invalid_admission_state"
  else
  clock ← clock_check admission;
  match clock with
  | Some why => _deny why
  | None =>
      denied ← run_gates ADMISSION_RUNTIME_GATES admission;
      match denied with
      | Some why => _deny why
      | None =>
          _ ← update (λ s,
                {| _revalidated :=
                     dict_set (admission_id admission) (revision admission) (_revalidated s);
                   _last_failure := None |});
          mret true
      end
  end.

Definition _revalidate_pool_authority (admission : AdmissionRecord) : RuntimeM bool :=
  match account_pool_binding (resource admission) with
  | None => mret true
  | Some binding =>
    (* exact_pool_authority_revalidation catches every reader exception *)
    evidence ← st_catch (u ← env (_pool_authority_reader rt); mret (Ok u))
                 (λ e, mret (Err e));
    if exact_pool_authority_revalidation binding evidence then mret true
    else _deny "pool_authority_revalidation_denied"
  end.

Definition revalidate_before_begin_execution (admission : AdmissionRecord) : RuntimeM bool :=
  if negb (bool_decide (state admission = ADMITTED))
  then _deny "invalid_admission_state"
  else _revalidate_pool_authority admission.

(** A journal call with its [except] clause. *)
Definition journaled (m : ST E ()) : RuntimeM () :=
  st_catch (env m)
  (λ e, st_lift (Err (if journal_handled e
                      then AdmissionRuntimeError "completion_journal_unavailable" else e))).

Definition operation_ok (operation : string) : bool :=
  (1 <=? py_len operation) && (py_len operation <=? MAX_OPERATION_LENGTH)
  && negb (has_control operation).

(** Everything [execute] does before it calls the executor: the guards, the
durable start record and the consumption of the revalidation. *)
Definition execute_guard (admission : AdmissionRecord) (operation : string)
  : RuntimeM (AdmissionRecord → string → ST E pyval) :=
  _ ← st_lift (require (bool_decide (state admission = EXECUTING))
               (AdmissionRuntimeError "invalid_admission_state"));
  _ ← st_lift (require (operation_ok operation)
               (AdmissionRuntimeError "invalid_runtime_operation"));
  s ← own;
  let revalidated_revision := dict_get (admission_id admission) (_revalidated s) in
  _ ← st_lift (require (match revalidated_revision with
                      | None => false
                      | Some rev => rev <? revision admission
                      end)
               (AdmissionRuntimeError "runtime_not_revalidated"));
  _ ← match _completion_journal rt with
    | Some j => journaled (record_started j admission operation)
    | None => mret ()
    end;
  s ← own;
  _ ← st_lift (require (bool_decide (dict_get (admission_id admission) (_revalidated s)
                                   = revalidated_revision))
               (AdmissionRuntimeError "runtime_not_revalidated"));
  _ ← update (λ s, {| _revalidated := dict_del (admission_id admission) (_revalidated s);
                    _last_failure := _last_failure s |});
  fresh ← _revalidate_pool_authority admission;
  _ ← st_lift (require fresh (AdmissionRuntimeError "pool_authority_revalidation_denied"));
  match _execute rt with
  | Some executor => mret executor
  | None => st_lift (Err (AdmissionRuntimeError "runtime_execution_unavailable"))
  end.

Definition execute (admission : AdmissionRecord) (operation : string)
  : RuntimeM (list (string * pyval)) :=
  executor ← execute_guard admission operation;
  result ← env (executor admission operation);
  match result with
  | VDict d =>
    _ ← match _completion_journal rt with
        | Some j => journaled (record_completed j admission operation result)
        | None => mret ()
        end;
    mret d
  | _ => st_lift (Err (AdmissionRuntimeError "runtime_result_invalid"))
  end.

Definition execution_completed (admission : AdmissionRecord) : RuntimeM bool :=
  match _completion_journal rt with
  | Some j =>
    st_catch (env (journal_execution_completed j admission))
      (λ e, if journal_handled e then mret false else st_lift (Err e))
  | None =>
    match _execution_completed rt with
    | None => mret false
    | Some completed =>
        st_catch (v ← env (completed admission);
                  mret (match v with VBool true => true | _ => false end))
          (λ _, mret false)
    end
  end.

Definition last_failure : RuntimeM (option pyval) :=
  s ← own; mret (decision_public <$> _last_failure s).

End runtime.

(** ** Reasoning about the calls *)

Section proofs.
Context {E : Type} (rt : ServerAdmissionRuntime E).
Implicit Types (s : E * RuntimeState) (adm : AdmissionRecord).

Lemma env_own {A} (m : ST E A) s : (env m s).1.2 = s.2.
Proof. unfold env. by destruct (m s.1). Qed.

Lemma update_Ok f s s' u : update f s = (s', Ok u) ↔ s' = (s.1, f s.2).
Proof. unfold update. destruct u. naive_solver. Qed.

Lemma own_Ok s s' (r : RuntimeState) : own s = (s', Ok r) ↔ s' = s ∧ r = s.2.
Proof. unfold own. naive_solver. Qed.

(** A denial records a bounded reason and returns [False]. *)
Lemma deny_eq why s :
  ∃ d, _deny (E:=E) why s
       = ((s.1, {| _revalidated := _revalidated s.2; _last_failure := Some d |}), Ok false)
    ∧ allowed d = false ∧ reason_ok (reason_code d) = true.
Proof.
  unfold _deny. cbn [RuntimeGateDecision_new].
  destruct (reason_ok why) eqn:Hr; eexists; (split; [reflexivity|done]).
Qed.

Lemma revalidate_pool_own adm s s' b :
  _revalidate_pool_authority rt adm s = (s', Ok b) →
  _revalidated s'.2 = _revalidated s.2 ∧
  (b = true → ∀ bnd, account_pool_binding (resource adm) = Some bnd →
     ∃ e e' u, _pool_authority_reader rt e = (e', Ok u) ∧
       exact_pool_authority_revalidation bnd (Ok u) = true).
Proof.
  unfold _revalidate_pool_authority.
  destruct (account_pool_binding (resource adm)) as [bnd|]; [|by intros [= <- <-]].
  intros (s1 & ev & Hev & H)%st_bind_Ok.
  assert (s1.2 = s.2 ∧ (∀ u, ev = Ok u → ∃ e', _pool_authority_reader rt s.1 = (e', Ok u)))
    as [Hown Hread].
  { revert Hev. unfold st_catch. rewrite st_bind_eq. unfold env.
    destruct (_pool_authority_reader rt s.1) as [e' [u|x]]; intros [= <- <-]; split; try done.
    intros u' [= <-]. by exists e'. }
  destruct (exact_pool_authority_revalidation bnd ev) eqn:Hex.
  - injection H as <- <-. rewrite Hown. split; [done|]. intros _ b0 [= <-].
    destruct ev as [u|x]; [|done]. destruct (Hread u eq_refl) as [e' He]. by exists s.1, e', u.
  - destruct (deny_eq "pool_authority_revalidation_denied" s1) as (d & Hd & _).
    rewrite Hd in H. injection H as <- <-. cbn. by rewrite Hown.
Qed.

Lemma revalidate_pool_cases adm s :
  ∃ s' b, _revalidate_pool_authority rt adm s = (s', Ok b).
Proof.
  unfold _revalidate_pool_authority.
  destruct (account_pool_binding (resource adm)) as [bnd|]; [|by do 2 eexists].
  rewrite st_bind_eq. unfold st_catch. rewrite st_bind_eq.
  destruct (env _ s) as [s1 [u|x]]; unfold mret, st_ret; cbn; try case_match;
    solve [by do 2 eexists | by edestruct deny_eq as (d & -> & _); do 2 eexists].
Qed.

Lemma journaled_own (m : ST E ()) s : (journaled m s).1.2 = s.2.
Proof.
  unfold journaled, st_catch. pose proof (env_own m s) as H.
  destruct (env m s) as [s' [u|x]]; done.
Qed.

(** The keys of the revalidation table stay unique. *)
Definition runtime_wf s : Prop := NoDup (dict_keys (_revalidated s.2)).

(** What a successful guard has established, and the state it leaves. *)
Record guard_passed adm op s s' : Prop := {
  gp_state : state adm = EXECUTING;
  gp_operation : operation_ok op = true;
  gp_revalidated : ∃ rev, dict_get (admission_id adm) (_revalidated s.2) = Some rev ∧
                          rev < revision adm;
  gp_consumed : _revalidated s'.2 = dict_del (admission_id adm) (_revalidated s.2);
  gp_pool : ∀ bnd, account_pool_binding (resource adm) = Some bnd →
     ∃ e e' u, _pool_authority_reader rt e = (e', Ok u) ∧
       exact_pool_authority_revalidation bnd (Ok u) = true;
}.

Lemma execute_guard_Ok adm op s s' ex :
  execute_guard rt adm op s = (s', Ok ex) →
  guard_passed adm op s s' ∧ _execute rt = Some ex.
Proof.
  unfold execute_guard. intros H.
  apply st_bind_Ok in H as (? & ? & [-> Hst%require_Ok]%st_lift_Ok & H).
  apply st_bind_Ok in H as (? & ? & [-> Hop%require_Ok]%st_lift_Ok & H).
  apply st_bind_Ok in H as (? & ? & [-> ->]%own_Ok & H). cbv zeta in H.
  apply st_bind_Ok in H as (? & ? & [-> Hrev%require_Ok]%st_lift_Ok & H).
  apply st_bind_Ok in H as (s1 & ? & Hj & H).
  assert (s1.2 = s.2) as Hs1.
  { destruct (_completion_journal rt) as [j|]; [|by injection Hj as <-].
    by rewrite <- (journaled_own (record_started j adm op) s), Hj. }
  apply st_bind_Ok in H as (? & ? & [-> ->]%own_Ok & H).
  apply st_bind_Ok in H as (? & ? & [-> _]%st_lift_Ok & H).
  apply st_bind_Ok in H as (? & ? & ->%update_Ok & H).
  apply st_bind_Ok in H as (s2 & fresh & Hpool & H).
  apply st_bind_Ok in H as (? & ? & [-> ->%require_Ok]%st_lift_Ok & H).
  apply revalidate_pool_own in Hpool as [Hown Hpool]. cbn in Hown.
  destruct (_execute rt) as [ex'|]; [|done]. injection H as <- <-.
  split; [|done]. split; try done.
  - by apply bool_decide_eq_true in Hst.
  - destruct (dict_get _ _) as [rev|]; [|done]. exists rev. split; [done|lia].
  - by rewrite Hown, Hs1.
  - intros bnd Hb. by apply Hpool.
Qed.

(** Whatever the outcome, a guard only ever removes the admission's entry. *)
Lemma execute_guard_own adm op s :
  ∃ s' r, execute_guard rt adm op s = (s', r) ∧
    (_revalidated s'.2 = _revalidated s.2 ∨
     _revalidated s'.2 = dict_del (admission_id adm) (_revalidated s.2)).
Proof.
  unfold execute_guard. cbv zeta.
  rewrite st_bind_eq. unfold st_lift at 1. destruct (require _ _); [|do 2 eexists; split; [done|by left]].
  rewrite st_bind_eq. unfold st_lift at 1. destruct (require _ _); [|do 2 eexists; split; [done|by left]].
  rewrite st_bind_eq. unfold own at 1.
  rewrite st_bind_eq. unfold st_lift at 1. destruct (require _ _); [|do 2 eexists; split; [done|by left]].
  rewrite st_bind_eq.
  assert (∃ s1 r, match _completion_journal rt with
                  | Some j => journaled (record_started j adm op)
                  | None => mret ()
                  end s = (s1, r) ∧ s1.2 = s.2) as (s1 & r & -> & Hs1).
  { destruct (_completion_journal rt) as [j|]; [|by do 2 eexists].
    pose proof (journaled_own (record_started j adm op) s) as Ho.
    destruct (journaled _ s) as [s1 r]. by exists s1, r. }
  destruct r as [u|x]; [|do 2 eexists; split; [done|left; by rewrite Hs1]].
  rewrite st_bind_eq. unfold own at 1.
  rewrite st_bind_eq. unfold st_lift at 1. destruct (require _ _); [|do 2 eexists; split; [done|left; by rewrite Hs1]].
  rewrite st_bind_eq. unfold update at 1. rewrite st_bind_eq.
  match goal with |- context [_revalidate_pool_authority rt adm ?s2] =>
    destruct (revalidate_pool_cases adm s2) as (s3 & b & Hp) end.
  rewrite Hp. apply revalidate_pool_own in Hp as [Hown _]. cbn in Hown.
  rewrite st_bind_eq. unfold st_lift. rewrite Hs1 in Hown.
  destruct b; [destruct (_execute rt)|]; cbn; (do 2 eexists; split; [done|by right]).
Qed.

(** ** The gates *)

(** The gate of [name] was found, called and allowed the admission. *)
Definition gate_allows (name : string) adm : Prop :=
  ∃ gate e e' d, dict_get name (_gates rt) = Some gate ∧
    gate adm e = (e', Ok (Some d)) ∧ allowed d = true.

Lemma run_gates_total names adm s :
  ∃ s' o, run_gates rt names adm s = (s', Ok o) ∧ s'.2 = s.2 ∧
    (o = None → Forall (λ name, gate_allows name adm) names).
Proof.
  revert s; induction names as [|name names IH]; intros s; cbn [run_gates].
  { by exists s, None. }
  destruct (dict_get name (_gates rt)) as [gate|] eqn:Hg; [|by do 2 eexists].
  rewrite st_bind_eq. unfold st_catch. rewrite st_bind_eq. unfold env, mret, st_ret.
  destruct (gate adm s.1) as [e' [[d|]|x]] eqn:Hgate; [|by do 2 eexists..].
  destruct (allowed d) eqn:Hd; [|by do 2 eexists].
  destruct (IH (e', s.2)) as (s' & o & Ho & Hs & Hall). exists s', o.
  split_and!; [done|done|]. intros ->. constructor; [|by apply Hall].
  by exists gate, s.1, e', d.
Qed.

Lemma clock_check_total adm s :
  (∀ e e' x, _now rt e = (e', Err x) → clock_handled x = true) →
  ∃ s' o, clock_check rt adm s = (s', Ok o) ∧ s'.2 = s.2 ∧
    (o = None → ∃ e e' now, _now rt e = (e', Ok now) ∧ is_expired adm now = Ok false).
Proof.
  intros Hclock. unfold clock_check, st_catch. rewrite st_bind_eq. unfold env.
  destruct (_now rt s.1) as [e' [now|x]] eqn:Hnow.
  - destruct (dt_aware now) eqn:Haw; cbn [negb]; [|by do 2 eexists].
    rewrite st_bind_eq. unfold st_lift.
    destruct (is_expired adm now) as [[]|x] eqn:Hx.
    + by do 2 eexists.
    + do 2 eexists; split_and!; [done..|]. intros _. by exists s.1, e', now.
    + unfold is_expired, Admission._aware in Hx. rewrite Haw in Hx. done.
  - rewrite (Hclock _ _ _ Hnow). by do 2 eexists.
Qed.

(** C29: Revalidation fails closed: it always answers (no gate or reader
    exception escapes, given a clock that raises nothing but the handled
    classes), and it answers [True] only for an admission in state
    [REVALIDATING] that a clock reading shows unexpired and for which every
    one of the ten gates exists, was called and allowed it; it then remembers
    exactly that admission's revision, while a refusal forgets nothing and
    leaves a bounded reason. *)
Theorem revalidate_fail_closed adm s :
  (∀ e e' x, _now rt e = (e', Err x) → clock_handled x = true) →
  ∃ s' b, revalidate rt adm s = (s', Ok b) ∧
    (b = true →
       state adm = REVALIDATING ∧
       (∃ e e' now, _now rt e = (e', Ok now) ∧ is_expired adm now = Ok false) ∧
       (∀ name, name ∈ ADMISSION_RUNTIME_GATES → gate_allows name adm) ∧
       _revalidated s'.2 = dict_set (admission_id adm) (revision adm) (_revalidated s.2) ∧
       _last_failure s'.2 = None) ∧
    (b = false →
       _revalidated s'.2 = _revalidated s.2 ∧
       ∃ d, _last_failure s'.2 = Some d ∧ allowed d = false ∧ reason_ok (reason_code d) = true).
Proof.
  intros Hclock. unfold revalidate.
  assert (Hdeny : ∀ why (s1 : E * RuntimeState), s1.2 = s.2 → ∃ s' b, _deny why s1 = (s', Ok b) ∧ b = false ∧
    _revalidated s'.2 = _revalidated s.2 ∧
    ∃ d, _last_failure s'.2 = Some d ∧ allowed d = false ∧ reason_ok (reason_code d) = true).
  { intros why s1 Hs1. destruct (deny_eq why s1) as (d & Hd & ? & ?). do 2 eexists.
    split; [exact Hd|]. cbn. rewrite Hs1. split_and!; [done..|]. by exists d. }
  case_bool_decide as Hst; cbn [negb];
    [|destruct (Hdeny "invalid_admission_state" s eq_refl) as (? & ? & -> & -> & ? & ?);
      by do 2 eexists].
  rewrite st_bind_eq.
  destruct (clock_check_total adm s Hclock) as (s1 & o & -> & Hs1 & Hlive).
  destruct o as [why|];
    [destruct (Hdeny why s1 Hs1) as (? & ? & -> & -> & ? & ?); by do 2 eexists|].
  rewrite st_bind_eq.
  destruct (run_gates_total ADMISSION_RUNTIME_GATES adm s1) as (s2 & o & -> & Hs2 & Hall).
  rewrite Hs1 in Hs2. destruct o as [why|];
    [destruct (Hdeny why s2 Hs2) as (? & ? & -> & -> & ? & ?); by do 2 eexists|].
  rewrite st_bind_eq. unfold update. cbn. do 2 eexists; split; [done|].
  split; [|done]. intros _. rewrite Hs2. cbn. split_and!; auto.
  intros name Hname. specialize (Hall eq_refl). rewrite Forall_forall in Hall. by apply Hall.
Qed.

(** ** Single use *)

(** A run of calls on one runtime object, logging the successful
    revalidations and the executions that got past the guard. *)
Inductive runtime_event := Revalidated (id : string) | Guarded (id : string).

#[global] Instance runtime_event_eq_dec : EqDecision runtime_event.
Proof. solve_decision. Defined.

Inductive runtime_call : E * RuntimeState → list runtime_event → E * RuntimeState → Prop :=
  | rc_revalidate adm s s' b :
      revalidate rt adm s = (s', Ok b) →
      runtime_call s (if b then [Revalidated (admission_id adm)] else []) s'
  | rc_before adm s s' r :
      revalidate_before_begin_execution rt adm s = (s', r) → runtime_call s [] s'
  | rc_completed adm s s' r :
      execution_completed rt adm s = (s', r) → runtime_call s [] s'
  | rc_execute adm op s s' r :
      execute rt adm op s = (s', r) →
      runtime_call s (if is_ok (execute_guard rt adm op s).2
                      then [Guarded (admission_id adm)] else []) s'
  | rc_environment s e : runtime_call s [] (e, s.2).

Inductive runtime_run : E * RuntimeState → list runtime_event → E * RuntimeState → Prop :=
  | rr_nil s : runtime_run s [] s
  | rr_cons s1 l1 s2 l2 s3 :
      runtime_call s1 l1 s2 → runtime_run s2 l2 s3 → runtime_run s1 (l1 ++ l2) s3.

Definition count_event (e : runtime_event) (l : list runtime_event) : nat :=
  length (List.filter (λ e', bool_decide (e' = e)) l).

Definition pending (id : string) s : nat :=
  match dict_get id (_revalidated s.2) with Some _ => 1 | None => 0 end.

Lemma count_event_app e l1 l2 :
  count_event e (l1 ++ l2) = (count_event e l1 + count_event e l2)%nat.
Proof. unfold count_event. by rewrite List.filter_app, length_app. Qed.

Lemma count_event_one e e' : count_event e [e'] = if bool_decide (e' = e) then 1%nat else 0%nat.
Proof. unfold count_event. cbn [List.filter]. by destruct (bool_decide (e' = e)). Qed.

(** The executor and the completion record do not touch the table. *)
Lemma execute_own adm op s :
  _revalidated (execute rt adm op s).1.2 = _revalidated (execute_guard rt adm op s).1.2.
Proof.
  unfold execute. rewrite st_bind_eq.
  destruct (execute_guard rt adm op s) as [s1 [ex|x]]; [|done]. cbn [fst].
  rewrite st_bind_eq. pose proof (env_own (ex adm op) s1) as He.
  destruct (env (ex adm op) s1) as [s2 [v|x]]; cbn in He; [|cbn; by rewrite He].
  destruct v; try (cbn; by rewrite He). rewrite st_bind_eq.
  destruct (_completion_journal rt) as [j|]; [|cbn; by rewrite He].
  pose proof (journaled_own (record_completed j adm op (VDict d)) s2) as Hj.
  destruct (journaled _ s2) as [s3 [u|x]]; cbn in *; by rewrite Hj, He.
Qed.

Lemma execution_completed_own adm s : (execution_completed rt adm s).1.2 = s.2.
Proof.
  unfold execution_completed.
  destruct (_completion_journal rt) as [j|]; [|destruct (_execution_completed rt) as [c|]; [|done]].
  - unfold st_catch. pose proof (env_own (journal_execution_completed j adm) s) as H.
    destruct (env _ s) as [s1 [b|x]]; cbn in *; [done|]. by destruct (journal_handled x).
  - unfold st_catch. rewrite st_bind_eq. pose proof (env_own (c adm) s) as H.
    by destruct (env _ s) as [s1 [b|x]].
Qed.

Lemma revalidate_own adm s s' b :
  revalidate rt adm s = (s', Ok b) →
  _revalidated s'.2 = if b then dict_set (admission_id adm) (revision adm) (_revalidated s.2)
                      else _revalidated s.2.
Proof.
  unfold revalidate. intros H.
  assert (Hdeny : ∀ why (s1 : E * RuntimeState), s1.2 = s.2 → _deny why s1 = (s', Ok b) →
    _revalidated s'.2 = if b then dict_set (admission_id adm) (revision adm) (_revalidated s.2)
                        else _revalidated s.2).
  { intros why s1 Hs1 Hd. destruct (deny_eq why s1) as (d & Heq & _).
    rewrite Heq in Hd. injection Hd as <- <-. cbn. by rewrite Hs1. }
  destruct (negb _); [by eapply Hdeny|].
  apply st_bind_Ok in H as (s1 & o & Hc & H).
  assert (s1.2 = s.2) as Hs1.
  { clear -Hc. revert Hc. unfold clock_check, st_catch. rewrite st_bind_eq. unfold env.
    destruct (_now rt s.1) as [e' [now|x]].
    - destruct (negb (dt_aware now)); [by intros [= <- _]|]. rewrite st_bind_eq.
      unfold st_lift. destruct (is_expired adm now) as [v|x]; [by intros [= <- _]|].
      destruct (clock_handled x); by intros [= <- _].
    - destruct (clock_handled x); by intros [= <- _]. }
  destruct o as [why|]; [by eapply Hdeny|].
  rewrite st_bind_eq in H.
  destruct (run_gates_total ADMISSION_RUNTIME_GATES adm s1) as (s2 & o & Ho & Hs2 & _).
  rewrite Ho in H. destruct o as [why|]; [eapply (Hdeny why s2); [congruence|done]|].
  rewrite st_bind_eq in H. unfold update in H. injection H as <- <-. cbn. by rewrite Hs2, Hs1.
Qed.

Lemma revalidate_before_own adm s :
  _revalidated (revalidate_before_begin_execution rt adm s).1.2 = _revalidated s.2.
Proof.
  unfold revalidate_before_begin_execution. destruct (negb _).
  - destruct (deny_eq "invalid_admission_state" s) as (d & -> & _). done.
  - destruct (revalidate_pool_cases adm s) as (s' & b & Hp). rewrite Hp.
    by apply revalidate_pool_own in Hp as [? _].
Qed.

Lemma runtime_call_step s l s' id :
  runtime_call s l s' → runtime_wf s →
  runtime_wf s' ∧
  (count_event (Guarded id) l + pending id s' <= count_event (Revalidated id) l + pending id s)%nat.
Proof.
  unfold runtime_wf, pending. intros Hc Hwf. destruct Hc as [adm s s' b H|adm s s' r H|adm s s' r H|adm op s s' r H|s e].
  - apply revalidate_own in H. rewrite H. destruct b; [|done].
    split; [by apply NoDup_dict_set|]. rewrite dict_get_set.
    change (count_event (Guarded id) [Revalidated _]) with 0%nat. rewrite count_event_one.
    destruct (decide (admission_id adm = id)) as [<-|Hne].
    + rewrite !bool_decide_true by done. destruct (dict_get _ _); lia.
    + rewrite !bool_decide_false by congruence. lia.
  - pose proof (revalidate_before_own adm s) as Ho. rewrite H in Ho. cbn in Ho. by rewrite Ho.
  - pose proof (execution_completed_own adm s) as Ho. rewrite H in Ho. cbn in Ho. by rewrite Ho.
  - pose proof (execute_own adm op s) as Ho. rewrite H in Ho. cbn in Ho. rewrite Ho.
    destruct (execute_guard rt adm op s) as [s1 [ex|x]] eqn:Hg; cbn [fst snd is_ok].
    + apply execute_guard_Ok in Hg as [[_ _ (rev & Hrev & _) Hdel _] _]. rewrite Hdel.
      split; [by apply NoDup_dict_del|]. rewrite dict_get_del by done.
      change (count_event (Revalidated id) [Guarded _]) with 0%nat. rewrite count_event_one.
      destruct (decide (admission_id adm = id)) as [<-|Hne].
      * rewrite Hrev, !bool_decide_true by done. lia.
      * rewrite !bool_decide_false by congruence. lia.
    + destruct (execute_guard_own adm op s) as (s2 & r2 & Hg2 & Hown).
      rewrite Hg in Hg2. injection Hg2 as <- <-.
      destruct Hown as [-> | ->]; [done|]. split; [by apply NoDup_dict_del|].
      rewrite dict_get_del by done. case_bool_decide; [cbn; lia|done].
  - done.
Qed.

(** A successful revalidation buys at most one execution attempt: over any
    run of calls on a fresh runtime object, with any interleaving and any
    change of the environment, the executions of an admission id that get
    past the guard never outnumber its successful revalidations. *)
Theorem revalidation_single_use s l s' id :
  _revalidated s.2 = [] → runtime_run s l s' →
  (count_event (Guarded id) l <= count_event (Revalidated id) l)%nat.
Proof.
  intros Hs Hrun.
  assert (Hgen : runtime_wf s →
    (count_event (Guarded id) l + pending id s' <= count_event (Revalidated id) l + pending id s)%nat).
  { clear Hs. induction Hrun as [s|s1 l1 s2 l2 s3 Hc _ IH]; intros Hwf; [done|].
    destruct (runtime_call_step _ _ _ id Hc Hwf) as [Hwf2 Hle].
    rewrite !count_event_app. specialize (IH Hwf2). lia. }
  unfold runtime_wf, pending in Hgen. rewrite Hs in Hgen. cbn in Hgen.
  specialize (Hgen (NoDup_nil_2)). lia.
Qed.

(** Nothing reaches the executor without the guard: an execution that
    returns a value was for an admission in state [EXECUTING] with an
    acceptable operation, revalidated at a strictly smaller revision, whose
    pool binding (if any) a fresh reader call confirmed, the value is the
    mapping the injected executor returned, and afterwards the same admission
    id is refused as not revalidated, whatever its record and the operation. *)
Theorem execute_requires_guard adm op s s' d :
  runtime_wf s → execute rt adm op s = (s', Ok d) →
  ∃ s1 ex e', guard_passed adm op s s1 ∧ _execute rt = Some ex ∧
    ex adm op s1.1 = (e', Ok (VDict d)) ∧
    ∀ adm' op', admission_id adm' = admission_id adm → state adm' = EXECUTING →
      operation_ok op' = true →
      execute rt adm' op' s' = (s', Err (AdmissionRuntimeError "runtime_not_revalidated")).
Proof.
  intros Hwf H. pose proof (execute_own adm op s) as Hown. rewrite H in Hown. cbn in Hown.
  unfold execute in H. apply st_bind_Ok in H as (s1 & ex & Hg & H).
  rewrite Hg in Hown. cbn in Hown.
  apply execute_guard_Ok in Hg as [Hgp Hex].
  apply st_bind_Ok in H as (s2 & v & Hv & H).
  unfold env in Hv. destruct (ex adm op s1.1) as [e' [v'|x]] eqn:Hcall; [|done].
  injection Hv as <- ->. destruct v as [| | | | | |d']; try done.
  apply st_bind_Ok in H as (s3 & ? & _ & [= <- <-]).
  exists s1, ex, e'. split_and!; try done.
  intros adm' op' Hid Hst Hop. unfold execute, execute_guard. rewrite !st_bind_eq.
  unfold st_lift, own. rewrite bool_decide_true by done. cbn. rewrite st_bind_eq, Hop. cbn.
  rewrite !st_bind_eq. rewrite Hown, (gp_consumed _ _ _ _ Hgp), dict_get_del by done.
  by rewrite bool_decide_true.
Qed.
End proofs.

(** ** Samples *)

Definition allow_gate (_ : AdmissionRecord) : ST () (option RuntimeGateDecision) :=
  mret (Some {| allowed := true; reason_code := "ok" |}).

(** A complete reader snapshot with the authority of the sample's binding. *)
Definition sample_evidence : UsageEvidenceV2 :=
  {| ue_status := "complete"; ue_captured_at := None; ue_generated_at := None;
     ue_pool_authorities :=
       match account_pool_binding sample_resource with
       | Some b => [ {| pa_account_id := account_id b; pa_pool_id := pool_id b;
                        pa_provider := authority_provider b; pa_allowed_lifecycles := [];
                        pa_allowed_model_families := []; pa_hive_available := true;
                        pa_persistent_leadership_eligible := false;
                        pa_long_running_leadership_eligible := false;
                        pa_reasoning_minimum := "low"; pa_reasoning_maximum := "high" |} ]
       | None => []
       end;
     ue_generation_id := None |}.

Definition sample_runtime : ServerAdmissionRuntime () :=
  {| _gates := (λ name, (name, allow_gate)) <$> ADMISSION_RUNTIME_GATES;
     _execute := Some (λ _ _, mret (VDict [("done", VBool true)]));
     _execution_completed := None;
     _completion_journal := None;
     _pool_authority_reader := mret sample_evidence;
     _now := mret sample_later |}.

Definition empty_runtime_state : RuntimeState :=
  {| _revalidated := []; _last_failure := None |}.

Definition revalidating_record : AdmissionRecord := with_state sample_record REVALIDATING 2.
Definition executing_record : AdmissionRecord := with_state sample_record EXECUTING 4.

Definition revalidated_state : RuntimeState :=
  {| _revalidated := [("adm-1", 2)]; _last_failure := None |}.

Lemma revalidate_fail_closed_witness :
  ∃ s' b, revalidate sample_runtime revalidating_record ((), empty_runtime_state) = (s', Ok b) ∧
    (b = true → _revalidated s'.2 = [("adm-1", 2)]).
Proof.
  destruct (revalidate_fail_closed sample_runtime revalidating_record ((), empty_runtime_state))
    as (s' & b & H & Ht & _); [intros e e' x Hx; discriminate Hx|].
  exists s', b. split; [exact H|]. intros Hb. exact (proj1 (proj2 (proj2 (proj2 (Ht Hb))))).
Defined.

Lemma revalidation_single_use_witness :
  (count_event (Guarded "adm-1") ([Revalidated "adm-1"] ++ [Guarded "adm-1"] ++ [])
   <= count_event (Revalidated "adm-1") ([Revalidated "adm-1"] ++ [Guarded "adm-1"] ++ []))%nat.
Proof.
  refine (revalidation_single_use sample_runtime ((), empty_runtime_state) _
            ((), empty_runtime_state) "adm-1" eq_refl _).
  apply (rr_cons _ _ [Revalidated "adm-1"] ((), revalidated_state)).
  - exact (rc_revalidate sample_runtime revalidating_record ((), empty_runtime_state) _ true eq_refl).
  - apply (rr_cons _ _ [Guarded "adm-1"] ((), empty_runtime_state)); [|apply rr_nil].
    exact (rc_execute sample_runtime executing_record "op" ((), revalidated_state) _ _ eq_refl).
Defined.

Lemma execute_requires_guard_witness :
  execute sample_runtime executing_record "op" ((), revalidated_state)
    = (((), empty_runtime_state), Ok [("done", VBool true)]) ∧
  execute sample_runtime executing_record "again" ((), empty_runtime_state)
    = (((), empty_runtime_state), Err (AdmissionRuntimeError "runtime_not_revalidated")).
Proof.
  split; [reflexivity|].
  destruct (execute_requires_guard sample_runtime executing_record "op" ((), revalidated_state)
              ((), empty_runtime_state) [("done", VBool true)])
    as (s1 & ex & e' & _ & _ & _ & H).
  - apply NoDup_singleton.
  - reflexivity.
  - apply H; reflexivity.
Defined.
