(* ===== verification/SelectionService.v ===== *)
(** * The selection service

    [src/src/the_hive/selection_service.py]: the hand-off between a planned
    admission and an execution runtime, with bounded retry, compensation of
    failed attempts and reconciliation after a crash.  The runtime is the
    interface [SelectionRuntime]; [admission_runtime.ServerAdmissionRuntime]
    implements it.  The injected callables act on an environment [E]; the
    admission store is the service's own. *)

From S2P Require Import Prelude PyTime DynamicPool Admission AdmissionStore.
From S2P Require Import Order Usage Fairness Selection AdmissionRuntime.

Definition MAX_EXECUTION_ATTEMPTS : nat := 3.
(** Delays in microseconds: 0.05, 0.1 and 0.2 seconds. *)
Definition RETRY_BACKOFF_SECONDS : list Z := [50000; 100000; 200000].
Definition MAX_OPERATION_LENGTH : Z := 128.

(** ** The runtime interface *)

(** [Protocol SelectionRuntime]; [revalidate_before_begin_execution] is looked
    up with [getattr] and may be missing. *)
Class SelectionRuntime (E : Type) := {
  rt_revalidate : AdmissionRecord → ST E bool;
  rt_fresh_check : option (AdmissionRecord → ST E bool);
  rt_execute : AdmissionRecord → string → ST E pyval;
  rt_execution_completed : AdmissionRecord → ST E bool;
}.

(** The server's adapter is such a runtime. *)
#[export] Instance server_runtime {E} (rt : ServerAdmissionRuntime E)
  : SelectionRuntime (E * RuntimeState) := {|
  rt_revalidate := AdmissionRuntime.revalidate rt;
  rt_fresh_check := Some (revalidate_before_begin_execution rt);
  rt_execute := λ adm op, d ← AdmissionRuntime.execute rt adm op; mret (VDict d);
  rt_execution_completed := AdmissionRuntime.execution_completed rt;
|}.

(** ** The service *)

Record SelectionRequest := {
  candidates : list SelectionCandidate;
  selection_policy : SelectionPolicy;
  request_now : datetime;
  request_ledger : option FairnessLedger;
}.

Definition SelectionRequest_new (cs : list SelectionCandidate) (p : SelectionPolicy)
  (now : datetime) (l : option FairnessLedger) : result SelectionRequest :=
  _ ← require (dt_aware now) (SelectionServiceError "selection time must be timezone-aware");
  Ok {| candidates := cs; selection_policy := p; request_now := now; request_ledger := l |}.

Record SelectionService (E : Type) := {
  svc_runtime : option (SelectionRuntime E);
  svc_now : ST E datetime;
  svc_sleep : Z → ST E ();
  svc_backoff : list Z;
}.
Arguments svc_runtime {_}.
Arguments svc_now {_}.
Arguments svc_sleep {_}.
Arguments svc_backoff {_}.

Definition SelectionService_new {E} (runtime : option (SelectionRuntime E)) (now : ST E datetime)
  (sleeper : Z → ST E ()) (backoff : list Z) : result (SelectionService E) :=
  _ ← require (forallb (λ d, 0 <=? d) backoff) (SelectionServiceError "invalid retry backoff");
  _ ← require (bool_decide (length backoff = MAX_EXECUTION_ATTEMPTS))
        (SelectionServiceError "retry backoff must contain three delays");
  Ok {| svc_runtime := runtime; svc_now := now; svc_sleep := sleeper; svc_backoff := backoff |}.

Definition preview (r : SelectionRequest) : result SelectionPreview :=
  preview_selection (candidates r) (selection_policy r) (request_now r) (request_ledger r).

Definition admission_preview (r : SelectionRequest) (ap : AdmissionPolicy)
  : result AdmissionPreview :=
  preview_selection_admission (candidates r) (selection_policy r) ap (request_now r)
    (request_ledger r).

(** A marker [m in str(exc)]. *)
Definition _is_retryable_admission_error (msg : string) : bool :=
  existsb (λ marker, contains marker msg)
    ["conflict"; "capacity"; "stale_admission_revision"; "admission_expired"].

(** [except AdmissionError], [except SelectionDeniedError] and
    [except RetryableSelectionError]. *)
Definition is_admission_error (e : exn) : bool :=
  match e with AdmissionError _ => true | _ => false end.
Definition is_denied (e : exn) : bool :=
  match e with SelectionDeniedError _ => true | _ => false end.
Definition is_retryable (e : exn) : bool :=
  match e with RetryableSelectionError _ => true | _ => false end.

Section service.
Context {E : Type} (svc : SelectionService E).

Definition World : Type := AdmissionStore * E.
Abbreviation ServiceM := (ST World).

Definition on_store {A} (m : StoreM A) : ServiceM A := λ w,
  match m w.1 with (st, r) => ((st, w.2), r) end.

Definition on_env {A} (m : ST E A) : ServiceM A := λ w,
  match m w.2 with (e, r) => ((w.1, e), r) end.

(** [op(current.admission_id, expected_revision=current.revision, now=self._now())]. *)
Definition at_now (op : string → pyval → datetime → StoreM AdmissionRecord)
  (r : AdmissionRecord) : ServiceM AdmissionRecord :=
  now ← on_env (svc_now svc);
  on_store (op (admission_id r) (VInt (revision r)) now).

Definition plan_admission (plan_factory : ST E AdmissionRecord) : ServiceM AdmissionRecord :=
  record ← on_env plan_factory;
  if bool_decide (state record = PLANNED) then mret record
  else st_lift (Err (SelectionServiceError "admission plan must be planned")).

(** ** Cleanup *)

(** The last two steps of the cleanup: a failed execution. *)
Definition compensate_tail (current : AdmissionRecord) : ServiceM () :=
  current ← (if bool_decide (state current = EXECUTION_FAILED)
             then at_now begin_compensation current else mret current);
  if bool_decide (state current = COMPENSATING)
  then _ ← at_now finish_compensation current; mret ()
  else mret ().

(** The steps after an admission that had not started was cancelled. *)
Definition compensate_rest (current : AdmissionRecord) : ServiceM () :=
  current ← (if bool_decide (state current ∈ [CANCELLED; CONFLICT; EXPIRED; DENIED])
             then at_now compensate current
             else if bool_decide (state current ∈ [EXECUTING; ADMITTED])
             then at_now mark_execution_failed current else mret current);
  compensate_tail current.

Definition compensate_steps (record : AdmissionRecord) : ServiceM () :=
  current ← (if bool_decide (state record ∈ [RESERVED; REVALIDATING; ADMITTED])
             then at_now cancel record else mret record);
  compensate_rest current.

Definition _compensate (record : option AdmissionRecord) : ServiceM () :=
  match record with
  | None => mret ()
  | Some record =>
      st_catch (compensate_steps record)
        (λ e, if is_admission_error e then mret () else st_lift (Err e))
  end.

(** ** One attempt

    The body of the [try] statement.  Its state carries the local variable
    [current], which the handlers read. *)

Abbreviation AttemptM := (ST (World * option AdmissionRecord)).

Definition in_world {A} (m : ServiceM A) : AttemptM A := λ s,
  match m s.1 with (w, r) => ((w, s.2), r) end.

Definition set_current (r : AdmissionRecord) : AttemptM () := λ s, ((s.1, Some r), Ok ()).

(** [current = self._store.op(current...)]. *)
Definition advance_current (op : string → pyval → datetime → StoreM AdmissionRecord)
  (current : AdmissionRecord) : AttemptM AdmissionRecord :=
  updated ← in_world (at_now op current);
  _ ← set_current updated;
  mret updated.

Definition pool_check (runtime : SelectionRuntime E) (current : AdmissionRecord) : AttemptM () :=
  match account_pool_binding (resource current) with
  | None => mret ()
  | Some _ =>
      fresh ← match rt_fresh_check with
              | None => mret false
              | Some fresh_check => in_world (on_env (fresh_check current))
              end;
      if fresh : bool then mret ()
      else
        current ← advance_current cancel current;
        _ ← in_world (at_now compensate current);
        st_lift (Err (SelectionDeniedError "pool authority revalidation denied"))
  end.

Definition attempt (runtime : SelectionRuntime E) (plan_factory : ST E AdmissionRecord)
  (operation : string) (attempt_no : nat) : AttemptM pyval :=
  planned ← in_world (plan_admission plan_factory);
  now ← in_world (on_env (svc_now svc));
  current ← in_world (on_store (reserve planned now));
  _ ← set_current current;
  current ← advance_current begin_revalidation current;
  valid ← in_world (on_env (rt_revalidate current));
  if negb valid then
    current ← advance_current (λ id rev, complete_revalidation id rev (VBool false)) current;
    current ← advance_current compensate current;
    st_lift (Err (SelectionDeniedError "admission revalidation denied"))
  else
    current ← advance_current (λ id rev, complete_revalidation id rev (VBool true)) current;
    _ ← pool_check runtime current;
    current ← advance_current begin_execution current;
    result ← in_world (on_env (rt_execute current operation));
    match result with
    | VDict d =>
        current ← advance_current finalize current;
        mret (VDict [ ("result", VDict d); ("admission", public current);
                      ("attempt", VInt (Z.of_nat attempt_no + 1));
                      ("raw_output", VStr "not_returned") ])
    | _ => st_lift (Err (SelectionServiceError "runtime result must be a mapping"))
    end.

(** How the loop goes on after an attempt. *)
Inductive outcome :=
  | Returned (v : pyval)
  | Retry
  | Raised (e : exn).

(** The [except] clauses, on the exception and the value of [current]. *)
Definition handle (e : exn) (current : option AdmissionRecord) : ServiceM outcome :=
  match e with
  | RetryableSelectionError _ => _ ← _compensate current; mret Retry
  | SelectionDeniedError _ => mret (Raised e)
  | AdmissionError m =>
      if bool_decide (current = None) && _is_retryable_admission_error m then mret Retry
      else _ ← _compensate current;
           mret (Raised (SelectionServiceError "admission execution failed"))
  | _ => _ ← _compensate current; mret (Raised e)
  end.

Definition run_attempt (runtime : SelectionRuntime E) (plan_factory : ST E AdmissionRecord)
  (operation : string) (attempt_no : nat) : ServiceM outcome := λ w,
  match attempt runtime plan_factory operation attempt_no (w, None) with
  | ((w', _), Ok v) => (w', Ok (Returned v))
  | ((w', current), Err e) => handle e current w'
  end.

(** [for attempt in range(MAX_EXECUTION_ATTEMPTS)]: [remaining] attempts are left,
    numbered from [attempt_no]. *)
Fixpoint attempts (runtime : SelectionRuntime E) (plan_factory : ST E AdmissionRecord)
  (operation : string) (attempt_no remaining : nat) : ServiceM pyval :=
  match remaining with
  | O => st_lift (Err (SelectionServiceError "admission retry exhausted"))
  | S remaining =>
      o ← run_attempt runtime plan_factory operation attempt_no;
      match o with
      | Returned v => mret v
      | Raised e => st_lift (Err e)
      | Retry =>
          _ ← (if bool_decide (attempt_no < MAX_EXECUTION_ATTEMPTS - 1)%nat
               then match svc_backoff svc !! attempt_no with
                    | Some delay => on_env (svc_sleep svc delay)
                    | None => st_lift (Err (IndexError "tuple index out of range"))
                    end
               else mret ());
          attempts runtime plan_factory operation (S attempt_no) remaining
      end
  end.

Definition execute_with_retry (plan_factory : ST E AdmissionRecord) (operation : string)
  : ServiceM pyval :=
  _ ← st_lift (require ((1 <=? py_len operation) && (py_len operation <=? MAX_OPERATION_LENGTH))
                 (SelectionServiceError "invalid operation"));
  match svc_runtime svc with
  | None => st_lift (Err (SelectionServiceError "selection runtime is unavailable"))
  | Some runtime => attempts runtime plan_factory operation 0 MAX_EXECUTION_ATTEMPTS
  end.

(** ** Reconciliation *)

Record Reconciled := { recovered : Z; compensated : Z; unresolved : Z }.

Definition reconcile_record (runtime : SelectionRuntime E) (record : AdmissionRecord)
  (acc : Reconciled) : ServiceM Reconciled :=
  if bool_decide (state record = EXECUTING) then
    completed ← on_env (rt_execution_completed record);
    if completed : bool then
      recovered_record ← at_now recover_after_crash record;
      _ ← at_now finalize recovered_record;
      mret {| recovered := recovered acc + 1; compensated := compensated acc;
              unresolved := unresolved acc |}
    else mret {| recovered := recovered acc; compensated := compensated acc;
                 unresolved := unresolved acc + 1 |}
  else if bool_decide (state record ∈ [CONFLICT; EXPIRED; DENIED; CANCELLED]) then
    _ ← at_now compensate record;
    mret {| recovered := recovered acc; compensated := compensated acc + 1;
            unresolved := unresolved acc |}
  else mret acc.

Fixpoint reconcile_loop (runtime : SelectionRuntime E) (records : list AdmissionRecord)
  (acc : Reconciled) : ServiceM Reconciled :=
  match records with
  | [] => mret acc
  | r :: records => acc ← reconcile_record runtime r acc; reconcile_loop runtime records acc
  end.

Definition reconcile_incomplete : ServiceM Reconciled :=
  match svc_runtime svc with
  | None => st_lift (Err (SelectionServiceError "selection runtime is unavailable"))
  | Some runtime =>
      records ← on_store records_snapshot;
      reconcile_loop runtime records {| recovered := 0; compensated := 0; unresolved := 0 |}
  end.

End service.

(** ** Operations that act as one transition *)

Section acts.
Context (origin : string → AdmissionRecord → Prop).

(** [op] moves an owned record that is not there yet to [tgt]. *)
Definition acts_as (op : string → pyval → datetime → StoreM AdmissionRecord)
  (tgt : AdmissionState) : Prop :=
  ∀ n c st now, Busy origin n c st → state c ≠ tgt →
    op (admission_id c) (VInt (revision c)) now st
    = transition (admission_id c) tgt (VInt (revision c)) now st.

Lemma acts_transition tgt : acts_as (λ id rev now, transition id tgt rev now) tgt.
Proof. by intros ? ? ? ? ?. Qed.
Lemma acts_begin_revalidation : acts_as begin_revalidation REVALIDATING.
Proof. apply acts_transition. Qed.
Lemma acts_valid : acts_as (λ id rev, complete_revalidation id rev (VBool true)) ADMITTED.
Proof. apply acts_transition. Qed.
Lemma acts_invalid : acts_as (λ id rev, complete_revalidation id rev (VBool false)) DENIED.
Proof. apply acts_transition. Qed.
Lemma acts_begin_execution : acts_as begin_execution EXECUTING.
Proof. apply acts_transition. Qed.
Lemma acts_mark_failed : acts_as mark_execution_failed EXECUTION_FAILED.
Proof. apply acts_transition. Qed.
Lemma acts_cancel : acts_as cancel CANCELLED.
Proof. apply acts_transition. Qed.
Lemma acts_compensate : acts_as compensate COMPENSATED.
Proof. apply acts_transition. Qed.
Lemma acts_recover : acts_as recover_after_crash RECOVERED_AFTER_CRASH.
Proof. apply acts_transition. Qed.

Lemma acts_finalize : acts_as finalize FINALIZED.
Proof.
  intros n c st now [_ _ Hc _] Hne. unfold finalize, get. rewrite !st_bind_eq.
  unfold st_get, st_lift. rewrite Hc. by rewrite bool_decide_false.
Qed.
End acts.

Create HintDb acts.
#[export] Hint Resolve acts_begin_revalidation acts_valid acts_invalid acts_begin_execution
  acts_mark_failed acts_cancel acts_compensate acts_recover acts_finalize : acts.

(** ** Hypotheses on the injected callables *)

Section contracts.
Context {E : Type} (svc : SelectionService E).

(** The clock answers, with aware readings: [datetime.now(timezone.utc)]. *)
Definition clock_ok : Prop :=
  ∀ e, ∃ e' t, svc_now svc e = (e', Ok t) ∧ dt_aware t = true.

(** A callable does not itself raise [SelectionDeniedError]. *)
Definition never_denies {A} (m : ST E A) : Prop :=
  ∀ e e' x, m e = (e', Err x) → is_denied x = false.

Definition runtime_never_denies (runtime : SelectionRuntime E) : Prop :=
  (∀ r, never_denies (rt_revalidate r)) ∧
  (∀ check r, rt_fresh_check = Some check → never_denies (check r)) ∧
  (∀ r op, never_denies (rt_execute r op)).

(** The plans are valid records with room for their life's revisions. *)
Definition plans_ok (plan_factory : ST E AdmissionRecord) : Prop :=
  never_denies plan_factory ∧
  ∀ e e' r, plan_factory e = (e', Ok r) → record_wf r ∧ revision r + 16 <= 10 ^ 12.

(** Some reading of the clock shows the record past its deadline. *)
Definition clock_expired (r : AdmissionRecord) : Prop :=
  ∃ e e' t, svc_now svc e = (e', Ok t) ∧ expired_at t r = true.

(** The active records a call may leave: those of the store it started from,
    and those that have outlived their reservation. *)
Definition accounted (st0 : AdmissionStore) (k : string) (r : AdmissionRecord) : Prop :=
  dict_get k (_records st0) = Some r ∨ clock_expired r.
End contracts.

(** ** Compensation *)

Section compensation.
Context {E : Type} (svc : SelectionService E) (origin : string → AdmissionRecord → Prop).
Hypothesis Hclock : clock_ok svc.
Hypothesis Horigin : ∀ k r, clock_expired svc r → origin k r.

Lemma at_now_eq op r w :
  ∃ e t, svc_now svc w.2 = (e, Ok t) ∧ dt_aware t = true ∧
    at_now svc op r w = match op (admission_id r) (VInt (revision r)) t w.1 with
                        | (st, res) => ((st, e), res)
                        end.
Proof using Hclock.
  destruct (Hclock w.2) as (e & t & Hn & Ht). exists e, t. split_and!; [done..|].
  unfold at_now. rewrite st_bind_eq. unfold on_env. rewrite Hn. done.
Qed.

Lemma at_now_busy op tgt n c :
  acts_as origin op tgt → 0 <= n → state c ≠ tgt →
  triple (λ w, Busy origin (n + 1) c w.1) (at_now svc op c)
    (λ c' w, Busy origin n c' w.1 ∧ state c' = tgt ∧ admission_id c' = admission_id c
             ∧ resource c' = resource c)
    (λ e w, Busy origin (n + 1) c w.1 ∧ is_admission_error e = true ∧
            (tgt ∈ _ALLOWED_TRANSITIONS (state c) → clock_expired svc c)).
Proof using Hclock.
  intros Hop Hn Hne w Hb. destruct (at_now_eq op c w) as (e & t & Hnow & Ht & ->).
  rewrite (Hop _ _ _ t Hb Hne).
  pose proof (transition_busy origin n c tgt t w.1 Hb Hn) as H.
  destruct (transition _ _ _ _ _) as [st' [c'|x]]; [done|].
  destruct H as (-> & [m ->] & Hx). split_and!; [done..|].
  intros Ha. exists w.2, e, t. split; [done|]. by apply Hx.
Qed.

Lemma at_now_done id tgt r :
  admission_id r = id →
  triple (λ w : World (E:=E), Done origin id w.1) (at_now svc (λ id rev now, transition id tgt rev now) r)
    (λ r' w, Done origin id w.1 ∧ admission_id r' = id)
    (λ e w, Done origin id w.1 ∧ is_admission_error e = true).
Proof using Hclock.
  intros <- w Hd. destruct (at_now_eq (λ id rev now, transition id tgt rev now) r w)
    as (e & t & _ & _ & ->).
  pose proof (transition_done origin (admission_id r) tgt (VInt (revision r)) t w.1 Hd) as H.
  destruct (transition _ _ _ _ _) as [st' [c'|x]]; [done|]. by destruct H as [? [m ->]].
Qed.

(** Once the admission is inactive, the rest of the cleanup keeps it so. *)
Lemma compensate_tail_done id c :
  admission_id c = id →
  triple (λ w : World (E:=E), Done origin id w.1) (compensate_tail svc c)
    (λ _ w, Done origin id w.1) (λ e w, Done origin id w.1 ∧ is_admission_error e = true).
Proof using Hclock.
  intros Hid. unfold compensate_tail.
  eapply (triple_bind _ _ _ (λ c' w, Done origin id w.1 ∧ admission_id c' = id)).
  { case_bool_decide; [by apply at_now_done|]. by apply triple_ret. }
  intros c2 w2 [Hd2 Hc2]. case_bool_decide; [|done].
  eapply (triple_bind (λ w, Done origin id w.1) _ _
            (λ c' w, Done origin id w.1 ∧ admission_id c' = id)); [..|exact Hd2].
  { by apply at_now_done. }
  intros c3 w3 [Hd3 _]. done.
Qed.

Lemma compensate_rest_done id c :
  admission_id c = id →
  triple (λ w : World (E:=E), Done origin id w.1) (compensate_rest svc c)
    (λ _ w, Done origin id w.1) (λ e w, Done origin id w.1 ∧ is_admission_error e = true).
Proof using Hclock.
  intros Hid. unfold compensate_rest.
  eapply (triple_bind _ _ _ (λ c' w, Done origin id w.1 ∧ admission_id c' = id)).
  { case_bool_decide; [by apply at_now_done|]. case_bool_decide; [by apply at_now_done|].
    by apply triple_ret. }
  intros c1 w1 [Hd1 Hc1]. by apply (compensate_tail_done id c1).
Qed.

(** An owned record an operation could not move although its state allows it
    has expired. *)
Lemma busy_expired_idle n c st :
  Busy origin n c st → clock_expired svc c → Idle origin st.
Proof using Horigin.
  intros [Hinv Ht Hs _] Hexp. split; [done|].
  intros k r Hk Hr. right. destruct (Ht k r Hk Hr) as [[= <-]|?]; [|done].
  rewrite Hs in Hk. injection Hk as <-. by apply Horigin.
Qed.

(** One cleanup step that takes an owned record out of the active states. *)
Lemma leave_active op tgt c (rest : AdmissionRecord → ST (World (E:=E)) ()) :
  acts_as origin op tgt → tgt ∈ _ALLOWED_TRANSITIONS (state c) → state c ≠ tgt →
  bool_decide (tgt ∈ _ACTIVE_STATES) = false →
  (∀ c', triple (λ w, Done origin (admission_id c') w.1) (rest c')
           (λ _ w, Done origin (admission_id c') w.1)
           (λ e w, Done origin (admission_id c') w.1 ∧ is_admission_error e = true)) →
  triple (λ w, Busy origin 4 c w.1) (c' ← at_now svc op c; rest c')
    (λ _ w, Idle origin w.1) (λ e w, Idle origin w.1 ∧ is_admission_error e = true).
Proof using Hclock Horigin.
  intros Hop Ha Hne Hin Hrest w Hb. rewrite st_bind_eq.
  pose proof (at_now_busy op tgt 3 c Hop ltac:(lia) Hne w Hb) as H.
  destruct (at_now svc op c w) as [w1 [c1|x]].
  - destruct H as (Hb1 & Hs1 & Hid & _).
    assert (Done origin (admission_id c1) w1.1) as Hd.
    { eapply busy_done; [exact Hb1|]. unfold active. by rewrite Hs1. }
    specialize (Hrest c1 w1 Hd).
    destruct (rest c1 w1) as [w2 [u|x]]; [by destruct Hrest|]. by destruct Hrest as [[? _] ?].
  - destruct H as (Hb1 & Hx & Hexp). split; [|done].
    by eapply busy_expired_idle; [|apply Hexp].
Qed.

Lemma compensate_steps_settle c :
  state c ∉ [PLANNED; PAUSED] →
  triple (λ w, Busy origin 4 c w.1) (compensate_steps svc c)
    (λ _ w, Idle origin w.1) (λ e w, Idle origin w.1 ∧ is_admission_error e = true).
Proof using Hclock Horigin.
  intros Hst. unfold compensate_steps. case_bool_decide as Hc.
  - assert (CANCELLED ∈ _ALLOWED_TRANSITIONS (state c) ∧ state c ≠ CANCELLED) as [Ha Hne].
    { apply (bool_decide_eq_true (state c ∈ _)) in Hc. destruct (state c); try done;
        (split; [by apply (bool_decide_eq_true (CANCELLED ∈ _))|done]). }
    exact (leave_active cancel CANCELLED c (compensate_rest svc) (acts_cancel origin) Ha Hne
             eq_refl (λ c', compensate_rest_done (admission_id c') c' eq_refl)).
  - intros w Hb. rewrite st_bind_eq. unfold mret at 1, st_ret at 1.
    destruct (decide (state c = EXECUTING)) as [He|He].
    + assert (EXECUTION_FAILED ∈ _ALLOWED_TRANSITIONS (state c)) as Ha
        by (rewrite He; by apply (bool_decide_eq_true (_ ∈ _))).
      assert (compensate_rest svc c = (c' ← at_now svc mark_execution_failed c;
                                       compensate_tail svc c')) as ->.
      { unfold compensate_rest. by rewrite He. }
      assert (Hne : state c ≠ EXECUTION_FAILED) by congruence.
      exact (leave_active mark_execution_failed EXECUTION_FAILED c (compensate_tail svc)
               (acts_mark_failed origin) Ha Hne eq_refl
               (λ c', compensate_tail_done (admission_id c') c' eq_refl) w Hb).
    + assert (Done origin (admission_id c) w.1) as Hd.
      { eapply busy_done; [exact Hb|]. unfold active. apply bool_decide_eq_false.
        intros Ha. apply (bool_decide_eq_true (state c ∈ _)) in Ha.
        apply (bool_decide_eq_false (state c ∈ _)) in Hst.
        apply (bool_decide_eq_false (state c ∈ _)) in Hc. by destruct (state c). }
      pose proof (compensate_rest_done (admission_id c) c eq_refl w Hd) as H.
      destruct (compensate_rest svc c w) as [w2 [u|x]]; [by destruct H|].
      by destruct H as [[? _] ?].
Qed.

(** [_compensate] never raises and leaves nothing active that is not
    accounted for. *)
Lemma compensate_settles c w :
  Busy origin 4 c w.1 → state c ∉ [PLANNED; PAUSED] →
  ∃ w', _compensate svc (Some c) w = (w', Ok ()) ∧ Idle origin w'.1.
Proof using Hclock Horigin.
  intros Hb Hst. pose proof (compensate_steps_settle c Hst w Hb) as H.
  unfold _compensate, st_catch.
  destruct (compensate_steps svc c w) as [w' [[]|x]]; [by exists w'|].
  destruct H as [Hi Hx]. rewrite Hx. by exists w'.
Qed.

(** ** The body of the loop *)

Implicit Types (s : World (E:=E) * option AdmissionRecord).

(** The attempt owns [c]: the stored version and the local variable agree. *)
Definition holds (n : Z) (c : AdmissionRecord) s : Prop :=
  Busy origin n c s.1.1 ∧ s.2 = Some c ∧ state c ∉ [PLANNED; PAUSED].

(** What an exception out of the body finds. *)
Definition failing (x : exn) s : Prop :=
  match s.2 with
  | None => Idle origin s.1.1
  | Some c => if is_denied x then Idle origin s.1.1
              else Busy origin 4 c s.1.1 ∧ state c ∉ [PLANNED; PAUSED]
  end.

Lemma holds_failing n c s x : holds n c s → 4 <= n → is_denied x = false → failing x s.
Proof.
  intros (Hb & Hs & Hst) Hn Hx. unfold failing. rewrite Hs, Hx. split; [|done].
  by eapply busy_weaken.
Qed.

Lemma advance_current_holds op tgt n c :
  acts_as origin op tgt → 4 <= n → state c ≠ tgt → tgt ∉ [PLANNED; PAUSED] →
  triple (holds (n + 1) c) (advance_current svc op c)
    (λ c' s, holds n c' s ∧ state c' = tgt ∧ resource c' = resource c
             ∧ admission_id c' = admission_id c)
    failing.
Proof using Hclock.
  intros Hop Hn Hne Htgt s Hh. pose proof Hh as (Hb & Hs & Hst).
  unfold advance_current. rewrite st_bind_eq. unfold in_world.
  pose proof (at_now_busy op tgt n c Hop ltac:(lia) Hne s.1 Hb) as H.
  destruct (at_now svc op c s.1) as [w' [c'|x]].
  - destruct H as (Hb' & Hst' & Hid & Hres). rewrite st_bind_eq. unfold set_current. cbn.
    split_and!; try done. unfold holds. cbn. by rewrite Hst'.
  - destruct H as (Hb' & Hx & _). unfold failing. cbn. rewrite Hs.
    destruct x; try done. cbn. split; [|done]. eapply busy_weaken; [exact Hb'|lia].
Qed.

Lemma env_holds {A} (m : ST E A) n c :
  never_denies m → 4 <= n →
  triple (holds n c) (in_world (on_env m))
    (λ a s, holds n c s ∧ ∃ e e', m e = (e', Ok a)) failing.
Proof.
  intros Hm Hn s Hh. unfold in_world, on_env. destruct (m s.1.2) as [e' [a|x]] eqn:He.
  - split; [done|]. by do 2 eexists.
  - eapply (holds_failing n c); [done|done|by eapply Hm].
Qed.

Lemma pool_check_holds runtime n c :
  runtime_never_denies runtime → 6 <= n → state c = ADMITTED →
  triple (holds n c) (pool_check svc runtime c) (λ _ s, holds n c s) failing.
Proof using Hclock.
  intros (_ & Hfresh & _) Hn Hst. unfold pool_check.
  destruct (account_pool_binding (resource c)) as [b|]; [|by apply triple_ret].
  eapply (triple_bind _ _ _ (λ _ s, holds n c s)).
  - destruct rt_fresh_check as [check|] eqn:Hc; [|by apply triple_ret].
    eapply triple_conseq; [eapply (env_holds (check c) n c); [by eapply Hfresh|lia]| | |]; naive_solver.
  - intros fresh. destruct fresh; [by apply triple_ret|].
    replace n with ((n - 1) + 1) by lia.
    eapply triple_bind; [eapply (advance_current_holds cancel CANCELLED (n - 1) c);
      [apply acts_cancel|lia|by rewrite Hst|by apply (bool_decide_eq_false (_ ∈ _))]|].
    intros c1 s (Hh & Hst1 & _ & Hid). pose proof Hh as (Hb & Hs & _).
    rewrite st_bind_eq. unfold in_world.
    pose proof (at_now_busy compensate COMPENSATED (n - 2) c1 (acts_compensate origin)
      ltac:(lia) ltac:(by rewrite Hst1) s.1) as H.
    replace (n - 2 + 1) with (n - 1) in H by lia. specialize (H Hb).
    destruct (at_now svc compensate c1 s.1) as [w' [c2|x]].
    + destruct H as (Hb2 & Hst2 & _ & _). unfold failing, st_lift. cbn. rewrite Hs.
      assert (Done origin (admission_id c2) w'.1) as [? _]; [|done].
      eapply busy_done; [exact Hb2|]. unfold active. by rewrite Hst2.
    + destruct H as (Hb2 & Hx & _). unfold failing. cbn. rewrite Hs.
      destruct x; try done. cbn. split; [eapply busy_weaken; [exact Hb2|lia]|].
      rewrite Hst1. by apply (bool_decide_eq_false (_ ∈ _)).
Qed.

(** A successful attempt: the stored record is final and the result is the
    mapping the runtime returned for its executing version. *)
Definition finished (runtime : SelectionRuntime E) (operation : string) (k : nat) (v : pyval) s
  : Prop :=
  ∃ c cx d e e', Busy origin 0 c s.1.1 ∧ state c = FINALIZED ∧
    state cx = EXECUTING ∧ admission_id cx = admission_id c ∧
    rt_execute cx operation e = (e', Ok (VDict d)) ∧
    v = VDict [ ("result", VDict d); ("admission", public c);
                ("attempt", VInt (Z.of_nat k + 1)); ("raw_output", VStr "not_returned") ].

Lemma attempt_execute_holds runtime operation k c :
  runtime_never_denies runtime → state c = ADMITTED →
  triple (holds 12 c)
    (_ ← pool_check svc runtime c;
     current ← advance_current svc begin_execution c;
     result ← in_world (on_env (rt_execute current operation));
     match result with
     | VDict d =>
         current ← advance_current svc finalize current;
         mret (VDict [ ("result", VDict d); ("admission", public current);
                       ("attempt", VInt (Z.of_nat k + 1));
                       ("raw_output", VStr "not_returned") ])
     | _ => st_lift (Err (SelectionServiceError "runtime result must be a mapping"))
     end)
    (finished runtime operation k) failing.
Proof using Hclock.
  intros Hrt Hst.
  eapply triple_bind; [apply (pool_check_holds runtime 12 c); [done|lia|done]|]. intros u.
  eapply triple_bind; [apply (advance_current_holds begin_execution EXECUTING 11 c);
    [apply acts_begin_execution|lia|by rewrite Hst|by apply (bool_decide_eq_false (_ ∈ _))]|].
  intros cx s (Hh & Hstx & _ & Hidx). rewrite st_bind_eq.
  pose proof (env_holds (rt_execute cx operation) 11 cx (proj2 (proj2 Hrt) _ _) ltac:(lia) s Hh) as H.
  destruct (in_world (on_env (rt_execute cx operation)) s) as [s1 [v|x]]; [|done].
  destruct H as (Hh1 & e & e' & He).
  destruct v as [| | | | | |d]; try (by apply (holds_failing 11 cx)).
  rewrite st_bind_eq.
  pose proof (advance_current_holds finalize FINALIZED 10 cx (acts_finalize origin) ltac:(lia)
    ltac:(by rewrite Hstx) ltac:(by apply (bool_decide_eq_false (_ ∈ _))) s1 Hh1) as H.
  destruct (advance_current svc finalize cx s1) as [s2 [c2|x]]; [|done].
  destruct H as ((Hb2 & _ & _) & Hst2 & _ & Hid2). unfold mret, st_ret.
  exists c2, cx, d, e, e'. split_and!; try done.
  eapply busy_weaken; [exact Hb2|lia].
Qed.

Lemma holds_weaken n m c s : holds n c s → m <= n → holds m c s.
Proof. intros (Hb & ? & ?) ?. split; [by eapply busy_weaken|done]. Qed.

Lemma deny_path n c :
  6 <= n → state c = REVALIDATING →
  triple (holds n c)
    (current ← advance_current svc (λ id rev, complete_revalidation id rev (VBool false)) c;
     current ← advance_current svc compensate current;
     st_lift (Err (SelectionDeniedError "admission revalidation denied")))
    (λ (_ : pyval) _, False) failing.
Proof using Hclock.
  intros Hn Hst. replace n with (n - 2 + 1 + 1) by lia.
  eapply triple_bind; [apply (advance_current_holds _ DENIED (n - 2 + 1) c);
    [apply acts_invalid|lia|by rewrite Hst|by apply (bool_decide_eq_false (_ ∈ _))]|].
  intros c1 s (Hh & Hst1 & _ & Hid1). rewrite st_bind_eq.
  pose proof (advance_current_holds compensate COMPENSATED (n - 2) c1 (acts_compensate origin)
    ltac:(lia) ltac:(by rewrite Hst1) ltac:(by apply (bool_decide_eq_false (_ ∈ _))) s Hh) as H.
  destruct (advance_current svc compensate c1 s) as [s2 [c2|x]]; [|done].
  destruct H as ((Hb2 & Hs2 & _) & Hst2 & _). unfold failing, st_lift. rewrite Hs2. cbn.
  assert (Done origin (admission_id c2) s2.1.1) as [? _]; [|done].
  eapply busy_done; [exact Hb2|]. unfold active. by rewrite Hst2.
Qed.

Lemma attempt_spec runtime plan_factory operation k :
  plans_ok plan_factory → runtime_never_denies runtime →
  triple (λ s, Idle origin s.1.1 ∧ s.2 = None)
    (attempt svc runtime plan_factory operation k) (finished runtime operation k) failing.
Proof using Hclock.
  intros [Hpd Hplan] Hrt [[st e] cur] [Hidle Hcur]. cbn in Hidle, Hcur. subst cur.
  unfold attempt. rewrite st_bind_eq. unfold in_world at 1, plan_admission.
  rewrite st_bind_eq. unfold on_env at 1. cbn [fst snd].
  destruct (plan_factory e) as [e1 [r|x]] eqn:Hp; [|done].
  destruct (Hplan _ _ _ Hp) as [Hwf Hrev].
  destruct (bool_decide (state r = PLANNED)); [|done]. unfold mret at 1, st_ret at 1.
  rewrite st_bind_eq. unfold in_world at 1, on_env at 1. cbn [fst snd].
  destruct (Hclock e1) as (e2 & t & Hnow & Ht). rewrite Hnow.
  rewrite st_bind_eq. unfold in_world at 1, on_store at 1. cbn [fst snd].
  pose proof (reserve_busy origin 15 r t st Hidle Hwf ltac:(lia)) as H.
  destruct (reserve r t st) as [st1 [c|x]]; [|by destruct H].
  destruct H as (Hb & Hst & _). rewrite st_bind_eq. unfold set_current at 1. cbn [fst snd].
  assert (Hh : holds (14 + 1) c ((st1, e2), Some c)).
  { split_and!; [done..|]. rewrite Hst. by apply (bool_decide_eq_false (_ ∈ _)). }
  rewrite st_bind_eq.
  pose proof (advance_current_holds begin_revalidation REVALIDATING 14 c
    (acts_begin_revalidation origin) ltac:(lia) ltac:(by rewrite Hst)
    ltac:(by apply (bool_decide_eq_false (_ ∈ _))) _ Hh) as H.
  destruct (advance_current svc begin_revalidation c _) as [s [c1|x]]; [|done].
  destruct H as (Hh1 & Hst1 & _). rewrite st_bind_eq.
  pose proof (env_holds (rt_revalidate c1) 14 c1 (proj1 Hrt c1) ltac:(lia) s Hh1) as H.
  destruct (in_world (on_env (rt_revalidate c1)) s) as [s2 [valid|x]]; [|done].
  destruct H as (Hh2 & _). destruct valid; cbn [negb].
  - rewrite st_bind_eq.
    pose proof (advance_current_holds (λ id rev, complete_revalidation id rev (VBool true))
      ADMITTED 13 c1 (acts_valid origin) ltac:(lia) ltac:(by rewrite Hst1)
      ltac:(by apply (bool_decide_eq_false (_ ∈ _))) s2 Hh2) as H.
    destruct (advance_current svc _ c1 s2) as [s3 [c3|x]]; [|done].
    destruct H as (Hh3 & Hst3 & _).
    apply (attempt_execute_holds runtime operation k c3 Hrt Hst3 s3).
    by eapply holds_weaken.
  - pose proof (deny_path 14 c1 ltac:(lia) Hst1 s2 Hh2) as H.
    match goal with |- match ?m with _ => _ end => destruct m as [s3 [v|x]] end; done.
Qed.

(** One turn of the loop. *)
Lemma run_attempt_spec runtime plan_factory operation k :
  plans_ok plan_factory → runtime_never_denies runtime →
  triple (λ w : World (E:=E), Idle origin w.1)
    (run_attempt svc runtime plan_factory operation k)
    (λ o w, match o with
            | Returned v => ∃ cur, finished runtime operation k v (w, cur)
            | _ => Idle origin w.1
            end)
    (λ _ _, False).
Proof using Hclock Horigin.
  intros Hplan Hrt w Hidle. unfold run_attempt.
  pose proof (attempt_spec runtime plan_factory operation k Hplan Hrt (w, None)
                (conj Hidle eq_refl)) as H.
  destruct (attempt svc runtime plan_factory operation k (w, None)) as [[w' cur] [v|x]];
    [by exists cur|].
  unfold failing in H. cbn [fst snd] in H.
  assert (Hcomp : is_denied x = false →
    ∃ w2, _compensate svc cur w' = (w2, Ok ()) ∧ Idle origin w2.1).
  { intros Hx. destruct cur as [c|]; [|by exists w'].
    rewrite Hx in H. destruct H as [Hb Hst]. by apply compensate_settles. }
  destruct x; cbn [handle];
    try (destruct (Hcomp eq_refl) as (w2 & Hc & Hi); rewrite st_bind_eq, Hc; done).
  - destruct (bool_decide (cur = None) && _) eqn:Hr.
    + apply andb_true_iff in Hr as [->%bool_decide_eq_true _]. done.
    + destruct (Hcomp eq_refl) as (w2 & Hc & Hi). by rewrite st_bind_eq, Hc.
  - by destruct cur.
Qed.
End compensation.

(** ** The whole loop *)

Section loop.
Context {E : Type} (svc : SelectionService E) (origin : string → AdmissionRecord → Prop).
Hypothesis Hclock : clock_ok svc.
Hypothesis Horigin : ∀ k r, clock_expired svc r → origin k r.

Lemma attempts_spec runtime plan_factory operation k remaining :
  plans_ok plan_factory → runtime_never_denies runtime →
  triple (λ w : World (E:=E), Idle origin w.1)
    (attempts svc runtime plan_factory operation k remaining)
    (λ v w, ∃ k' cur, (k <= k' < k + remaining)%nat ∧
              finished origin runtime operation k' v (w, cur))
    (λ _ w, Idle origin w.1).
Proof using Hclock Horigin.
  intros Hplan Hrt. revert k; induction remaining as [|n IH]; intros k w Hidle; [done|].
  cbn [attempts]. rewrite st_bind_eq.
  pose proof (run_attempt_spec svc origin Hclock Horigin runtime plan_factory operation k
                Hplan Hrt w Hidle) as H.
  destruct (run_attempt svc runtime plan_factory operation k w) as [w1 [o|x]]; [|done].
  destruct o as [v| |x]; [|..|done].
  - destruct H as [cur H]. exists k, cur. split; [lia|done].
  - rewrite st_bind_eq.
    assert (Hnext : ∀ w2 : World (E:=E), w2.1 = w1.1 →
      match attempts svc runtime plan_factory operation (S k) n w2 with
      | (w', Ok v) => ∃ k' cur, (k <= k' < k + S n)%nat ∧
                        finished origin runtime operation k' v (w', cur)
      | (w', Err _) => Idle origin w'.1
      end).
    { intros w2 Hw2. assert (Hi : Idle origin w2.1) by (by rewrite Hw2).
      specialize (IH (S k) w2 Hi).
      destruct (attempts _ _ _ _ _ _ w2) as [w3 [v|x]]; [|done].
      destruct IH as (k' & cur & ? & ?). exists k', cur. split; [lia|done]. }
    destruct (bool_decide (k < MAX_EXECUTION_ATTEMPTS - 1)%nat); [|by apply Hnext].
    destruct (svc_backoff svc !! k) as [delay|]; [|done].
    unfold on_env. destruct (svc_sleep svc delay w1.2) as [e [u|x]]; [|done].
    by apply Hnext.
Qed.
End loop.

(** C2: Execution under bounded retry is accounted for: with a clock that
    answers, valid plans and a runtime that does not itself raise
    [SelectionDeniedError], the call either returns the mapping the runtime
    produced for an executing admission, with that admission stored as
    finalized and an attempt number between 1 and 3, or it raises; in both
    cases every active record of the final store was active in the initial one
    or has outlived its reservation, so no failed attempt keeps its agent,
    capacity or scope. *)
Theorem execute_with_retry_accounted {E} (svc : SelectionService E) runtime plan_factory operation
    st0 e0 st e r :
  clock_ok svc → svc_runtime svc = Some runtime → runtime_never_denies runtime →
  plans_ok plan_factory → store_inv st0 →
  execute_with_retry svc plan_factory operation (st0, e0) = ((st, e), r) →
  store_inv st ∧
  (∀ k c, dict_get k (_records st) = Some c → active c = true →
     dict_get k (_records st0) = Some c ∨ clock_expired svc c) ∧
  (∀ v, r = Ok v → ∃ c cx d e1 e2 attempt_no,
     dict_get (admission_id c) (_records st) = Some c ∧ state c = FINALIZED ∧
     state cx = EXECUTING ∧ admission_id cx = admission_id c ∧
     rt_execute cx operation e1 = (e2, Ok (VDict d)) ∧ 1 <= attempt_no <= 3 ∧
     v = VDict [ ("result", VDict d); ("admission", public c);
                 ("attempt", VInt attempt_no); ("raw_output", VStr "not_returned") ]).
Proof.
  intros Hclock Hsvc Hrt Hplan Hinv H.
  assert (Hidle : Idle (accounted svc st0) st0) by (split; [done|]; intros k c Hk _; right; by left).
  unfold execute_with_retry in H. rewrite st_bind_eq in H. unfold st_lift at 1 in H.
  destruct (require _ _) as [u|x]; [|by injection H as <- <- <-; destruct Hidle as [? Ht];
    split_and!; [done|intros k c Hk Ha; by destruct (Ht k c Hk Ha)|done]].
  rewrite Hsvc in H.
  pose proof (attempts_spec svc (accounted svc st0) Hclock (λ k c Hc, or_intror Hc) runtime
    plan_factory operation 0 MAX_EXECUTION_ATTEMPTS Hplan Hrt (st0, e0) Hidle) as Hs.
  rewrite H in Hs.
  assert (Idle (accounted svc st0) st) as [Hinv' Ht].
  { destruct r as [v|x]; [|done].
    destruct Hs as (k' & cur & _ & (c & _ & _ & _ & _ & Hb & Hst & _)).
    assert (Done (accounted svc st0) (admission_id c) st) as [? _]; [|done].
    eapply busy_done; [exact Hb|]. unfold active. by rewrite Hst. }
  split_and!; [done|intros k c Hk Ha; by destruct (Ht k c Hk Ha)|].
  intros v ->. destruct Hs as (k' & cur & Hk & (c & cx & d & e1 & e2 & Hb & Hst & Hx & Hid & Hex & Hv)).
  exists c, cx, d, e1, e2, (Z.of_nat k' + 1).
  split_and!; try done; [by apply Hb|lia|]. unfold MAX_EXECUTION_ATTEMPTS in Hk. lia.
Qed.

(** ** How often the injected callables run *)

(** [m] adds at most [k] to a counter read off the state. *)
Definition bounded {S A} (meas : S → nat) (k : nat) (m : ST S A) : Prop :=
  ∀ s, (meas (m s).1 <= meas s + k)%nat.

Create HintDb bounded.

Section bounded.
Context {S : Type} (meas : S → nat).

Lemma bounded_bind {A B} k1 k2 (m : ST S A) (f : A → ST S B) :
  bounded meas k1 m → (∀ a, bounded meas k2 (f a)) → bounded meas (k1 + k2) (m ≫= f).
Proof.
  intros Hm Hf s. rewrite st_bind_eq. specialize (Hm s).
  destruct (m s) as [s' [a|e]]; cbn in *; [|lia]. specialize (Hf a s'). lia.
Qed.

(** The common cases: one of the two parts does not count. *)
Lemma bounded_bind_l {A B} k (m : ST S A) (f : A → ST S B) :
  bounded meas 0 m → (∀ a, bounded meas k (f a)) → bounded meas k (m ≫= f).
Proof. intros. by apply (bounded_bind 0 k). Qed.

Lemma bounded_bind_r {A B} k (m : ST S A) (f : A → ST S B) :
  bounded meas k m → (∀ a, bounded meas 0 (f a)) → bounded meas k (m ≫= f).
Proof. intros. replace k with (k + 0)%nat by lia. by apply bounded_bind. Qed.

Lemma bounded_ret {A} k (a : A) : bounded meas k (mret a).
Proof. intros s. cbn. lia. Qed.

Lemma bounded_lift {A} k (r : result A) : bounded meas k (st_lift r).
Proof. intros s. cbn. lia. Qed.

Lemma bounded_weaken {A} k k' (m : ST S A) : bounded meas k m → (k <= k')%nat → bounded meas k' m.
Proof. intros Hm ? s. specialize (Hm s). lia. Qed.
End bounded.

#[export] Hint Resolve bounded_ret bounded_lift : bounded.

Section calls.
Context {E : Type} (svc : SelectionService E) (runtime : SelectionRuntime E)
  (plan_factory : ST E AdmissionRecord) (cnt : E → nat) (p x : nat).
Hypothesis Hnow : bounded cnt 0 (svc_now svc).
Hypothesis Hsleep : ∀ d, bounded cnt 0 (svc_sleep svc d).
Hypothesis Hplan : bounded cnt p plan_factory.
Hypothesis Hreval : ∀ r, bounded cnt 0 (rt_revalidate r).
Hypothesis Hfresh : ∀ check r, rt_fresh_check = Some check → bounded cnt 0 (check r).
Hypothesis Hexec : ∀ r op, bounded cnt x (rt_execute r op).

Definition wcnt (w : World (E:=E)) : nat := cnt w.2.
Definition acnt (s : World (E:=E) * option AdmissionRecord) : nat := cnt s.1.2.

Lemma bounded_store {A} k (m : StoreM A) : bounded wcnt k (on_store m).
Proof. intros w. unfold on_store, wcnt. destruct (m w.1). cbn. lia. Qed.

Lemma bounded_env {A} k (m : ST E A) : bounded cnt k m → bounded wcnt k (on_env m).
Proof. intros Hm w. unfold on_env, wcnt. specialize (Hm w.2). by destruct (m w.2). Qed.

Lemma bounded_in_world {A} k (m : ST (World (E:=E)) A) :
  bounded wcnt k m → bounded acnt k (in_world m).
Proof.
  intros Hm s. unfold in_world, acnt. specialize (Hm s.1). unfold wcnt in Hm.
  by destruct (m s.1).
Qed.

Lemma bounded_at_now k op r : bounded wcnt k (at_now svc op r).
Proof using Hnow.
  apply bounded_bind_l; [by apply bounded_env|]. intros t. apply bounded_store.
Qed.

Lemma bounded_advance k op r : bounded acnt k (advance_current svc op r).
Proof using Hnow.
  apply bounded_bind_l; [apply bounded_in_world, bounded_at_now|]. intros c.
  apply bounded_bind_l; [|auto with bounded]. intros s. unfold set_current, acnt. cbn. lia.
Qed.

Lemma bounded_compensate k o : bounded wcnt k (_compensate svc o).
Proof using Hnow.
  destruct o as [c|]; [|apply bounded_ret]. apply (bounded_weaken _ 0); [|lia].
  assert (bounded wcnt 0 (compensate_steps svc c)) as Hs.
  { unfold compensate_steps, compensate_rest, compensate_tail.
    repeat first [ apply bounded_at_now | apply bounded_ret
                 | apply bounded_bind_l; [|intros ?] | case_bool_decide ]. }
  intros w. specialize (Hs w). unfold _compensate, st_catch.
  destruct (compensate_steps svc c w) as [w' [u|e]]; [done|].
  by destruct (is_admission_error e).
Qed.

Lemma bounded_attempt op k : bounded acnt (p + x) (attempt svc runtime plan_factory op k).
Proof using Hnow Hplan Hreval Hfresh Hexec.
  apply bounded_bind.
  { apply bounded_in_world, bounded_bind_r; [by apply bounded_env|].
    intros r. case_bool_decide; auto with bounded. }
  intros planned. apply bounded_bind_l; [by apply bounded_in_world, bounded_env|]. intros t.
  apply bounded_bind_l; [apply bounded_in_world, bounded_store|]. intros c.
  apply bounded_bind_l; [intros s; unfold set_current, acnt; cbn; lia|]. intros _.
  apply bounded_bind_l; [apply bounded_advance|]. intros c1.
  apply bounded_bind_l; [by apply bounded_in_world, bounded_env|]. intros [|]; cbn [negb].
  2:{ do 2 (apply bounded_bind_l; [apply bounded_advance|intros ?]). apply bounded_lift. }
  apply bounded_bind_l; [apply bounded_advance|]. intros c2.
  apply bounded_bind_l.
  { unfold pool_check. destruct (account_pool_binding _); [|apply bounded_ret].
    apply bounded_bind_l.
    { destruct rt_fresh_check as [check|] eqn:Hc; [|apply bounded_ret].
      apply bounded_in_world, bounded_env. by apply Hfresh. }
    intros [|]; [apply bounded_ret|].
    apply bounded_bind_l; [apply bounded_advance|]. intros c3.
    apply bounded_bind_l; [apply bounded_in_world, bounded_at_now|]. intros _. apply bounded_lift. }
  intros _. apply bounded_bind_l; [apply bounded_advance|]. intros c3.
  apply bounded_bind_r; [by apply bounded_in_world, bounded_env|].
  intros [| | | | | |d]; try apply bounded_lift.
  apply bounded_bind_l; [apply bounded_advance|]. intros c4. apply bounded_ret.
Qed.

Lemma bounded_run_attempt op k : bounded wcnt (p + x) (run_attempt svc runtime plan_factory op k).
Proof using Hnow Hplan Hreval Hfresh Hexec.
  intros w. unfold run_attempt. pose proof (bounded_attempt op k (w, None)) as H.
  destruct (attempt svc runtime plan_factory op k (w, None)) as [[w' cur] [v|e]]; [done|].
  assert (bounded wcnt 0 (handle svc e cur)) as Hh.
  { unfold handle. destruct e; auto with bounded;
      try (case_match; auto with bounded); (apply bounded_bind_l; [apply bounded_compensate|]);
      intros ?; apply bounded_ret. }
  specialize (Hh w'). unfold acnt, wcnt in *. cbn in *. lia.
Qed.

Lemma bounded_attempts op k n : bounded wcnt (n * (p + x)) (attempts svc runtime plan_factory op k n).
Proof using Hnow Hplan Hreval Hfresh Hexec Hsleep.
  revert k; induction n as [|n IH]; intros k; [apply bounded_lift|].
  cbn [attempts]. apply bounded_bind; [apply bounded_run_attempt|]. intros [v| |e].
  - apply bounded_ret.
  - apply bounded_bind_l; [|intros _; apply IH]. case_bool_decide; [|apply bounded_ret].
    destruct (svc_backoff svc !! k); [by apply bounded_env|apply bounded_lift].
  - apply bounded_lift.
Qed.
End calls.

(** The number of side effects of one call is bounded: whatever quantity is
    counted in the environment, if a plan adds at most [p] to it, an execution
    at most [x] and no other callable anything, then [execute_with_retry] adds
    at most [3 * (p + x)].  With [p = 0, x = 1] this says that the runtime is
    asked to execute at most three times, with [p = 1, x = 0] that at most
    three fresh plans are made, on every path including the failing ones. *)
Theorem execute_with_retry_bounded {E} (svc : SelectionService E) runtime plan_factory op
    (cnt : E → nat) p x st0 e0 :
  svc_runtime svc = Some runtime →
  bounded cnt 0 (svc_now svc) → (∀ d, bounded cnt 0 (svc_sleep svc d)) →
  bounded cnt p plan_factory → (∀ r, bounded cnt 0 (rt_revalidate r)) →
  (∀ check r, rt_fresh_check = Some check → bounded cnt 0 (check r)) →
  (∀ r op, bounded cnt x (rt_execute r op)) →
  (cnt (execute_with_retry svc plan_factory op (st0, e0)).1.2 <= cnt e0 + 3 * (p + x))%nat.
Proof.
  intros Hsvc Hnow Hsleep Hplan Hreval Hfresh Hexec.
  assert (bounded (wcnt cnt) (3 * (p + x)) (execute_with_retry svc plan_factory op)) as H;
    [|apply (H (st0, e0))].
  unfold execute_with_retry. apply bounded_bind_l; [apply bounded_lift|]. intros _.
  rewrite Hsvc. by apply bounded_attempts.
Qed.

(** ** Reconciliation *)

(** The record a reconciliation may leave for [r]. *)
Definition reconciled_to (r r' : AdmissionRecord) : Prop :=
  if bool_decide (state r = EXECUTING) then
    r' = r ∨ r' = with_state (with_state r RECOVERED_AFTER_CRASH (revision r + 1)) FINALIZED
                    (revision r + 1 + 1)
  else if bool_decide (state r ∈ [CONFLICT; EXPIRED; DENIED; CANCELLED]) then
    r' = with_state r COMPENSATED (revision r + 1)
  else r' = r.

Section reconcile.
Context {E : Type} (svc : SelectionService E) (runtime : SelectionRuntime E).
Hypothesis Hclock : clock_ok svc.
Hypothesis Hevidence : ∀ r e, ∃ e' b, rt_execution_completed r e = (e', Ok b).

(** An allowed step of a stored record that cannot expire. *)
Lemma at_now_step tgt r w :
  store_inv w.1 → dict_get (admission_id r) (_records w.1) = Some r →
  tgt ∈ _ALLOWED_TRANSITIONS (state r) → expirable r = false → revision r < 10 ^ 12 →
  ∃ e, at_now svc (λ id rev now, transition id tgt rev now) r w
    = ((set_records w.1 (dict_set (admission_id r) (with_state r tgt (revision r + 1))
                           (_records w.1)), e),
       Ok (with_state r tgt (revision r + 1))) ∧
    store_inv (set_records w.1 (dict_set (admission_id r) (with_state r tgt (revision r + 1))
                           (_records w.1))).
Proof using Hclock.
  intros Hinv Hget Ha Hx Hrev. destruct (inv_wf _ Hinv _ _ Hget) as [_ Hwf].
  pose proof (record_wf_revision _ Hwf) as Hr.
  destruct (at_now_eq svc Hclock (λ id rev now, transition id tgt rev now) r w)
    as (e & t & _ & Ht & ->).
  pose proof (transition_inv (admission_id r) tgt (VInt (revision r)) t w.1 Hinv) as Hinv'.
  rewrite transition_eq in * by done. unfold transition_result in *.
  rewrite Ht, Hget in *. cbn [negb] in *. unfold _bounded_int in *.
  replace ((0 <=? revision r) && (revision r <=? 10 ^ 12)) with true in * by lia.
  rewrite Z.eqb_refl in *. cbn [negb] in *. unfold advance_result in *.
  rewrite Ht, bool_decide_true, Hx in * by done. cbn [negb andb] in *.
  destruct (Z.eqb_spec (revision r) (10 ^ 12)); [lia|]. by exists e.
Qed.

Definition counts (r : AdmissionRecord) (acc acc' : Reconciled) : Prop :=
  recovered acc' + unresolved acc' = recovered acc + unresolved acc
    + (if bool_decide (state r = EXECUTING) then 1 else 0) ∧
  compensated acc' = compensated acc
    + (if bool_decide (state r ∈ [CONFLICT; EXPIRED; DENIED; CANCELLED]) then 1 else 0).

Lemma reconcile_record_spec r acc w :
  store_inv w.1 → dict_get (admission_id r) (_records w.1) = Some r → revision r + 2 <= 10 ^ 12 →
  ∃ w' acc' r', reconcile_record svc runtime r acc w = (w', Ok acc') ∧
    store_inv w'.1 ∧ reconciled_to r r' ∧ counts r acc acc' ∧
    _records w'.1 = dict_set (admission_id r) r' (_records w.1).
Proof using Hclock Hevidence.
  intros Hinv Hget Hrev. unfold reconcile_record, reconciled_to, counts.
  assert (Hid : dict_set (admission_id r) r (_records w.1) = _records w.1).
  { clear -Hget. induction (_records w.1) as [|[k v] d IH]; cbn in *; [done|].
    case_bool_decide; [naive_solver|]. f_equal. auto. }
  case_bool_decide as Hex.
  - rewrite (bool_decide_false (state r ∈ _)) by (rewrite Hex; by apply (bool_decide_eq_false (_ ∈ _))).
    rewrite st_bind_eq. unfold on_env.
    destruct (Hevidence r w.2) as (e' & b & Hb). rewrite Hb. destruct b.
    + destruct (at_now_step RECOVERED_AFTER_CRASH r (w.1, e')) as (e2 & H2 & Hinv2);
        [done|done|rewrite Hex; by apply (bool_decide_eq_true (_ ∈ _))
        |unfold expirable; by rewrite Hex|lia|].
      cbn [fst snd] in *. rewrite st_bind_eq.
      change recover_after_crash with (λ id rev now, transition id RECOVERED_AFTER_CRASH rev now).
      rewrite H2. set (r2 := with_state r RECOVERED_AFTER_CRASH (revision r + 1)) in *.
      set (st2 := set_records w.1 _) in *.
      assert (Hget2 : dict_get (admission_id r2) (_records st2) = Some r2)
        by (cbn; by rewrite dict_get_set_eq).
      destruct (at_now_step FINALIZED r2 (st2, e2)) as (e3 & H3 & Hinv3);
        [done|done|by apply (bool_decide_eq_true (_ ∈ _))|done|cbn; lia|].
      rewrite st_bind_eq.
      assert (at_now svc finalize r2 (st2, e2)
              = at_now svc (λ id rev now, transition id FINALIZED rev now) r2 (st2, e2)) as ->.
      { unfold at_now. rewrite !st_bind_eq.
        destruct (on_env (svc_now svc) (st2, e2)) as [w3 [t|x]] eqn:Hn; [|done].
        assert (w3.1 = st2) as Hw3.
        { revert Hn. unfold on_env. destruct (svc_now svc _). by intros [= <- _]. }
        unfold on_store, finalize, get. rewrite !st_bind_eq. unfold st_get, st_lift.
        rewrite Hw3. change (dict_get _ (_records st2)) with (dict_get (admission_id r2) (_records st2)).
        rewrite Hget2. by rewrite bool_decide_false. }
      rewrite H3. do 3 eexists. split; [reflexivity|]. split; [exact Hinv3|].
      split; [right; reflexivity|]. cbn [fst recovered unresolved compensated].
      split; [split; lia|]. cbn. clear -Hget.
      induction (_records w.1) as [|[k v] d IH]; cbn in *; [done|].
      case_bool_decide; cbn; simpl_bd; [done|]. f_equal. auto.
    + do 3 eexists. split; [reflexivity|]. cbn. rewrite Hid.
      split_and!; [done|by left|lia|lia|done].
  - case_bool_decide as Hc.
    + rewrite st_bind_eq.
      destruct (at_now_step COMPENSATED r w) as (e2 & H2 & Hinv2); [done|done| | |lia|].
      { apply (bool_decide_eq_true (_ ∈ _)) in Hc. apply (bool_decide_eq_true (_ ∈ _)).
        by destruct (state r). }
      { apply (bool_decide_eq_true (_ ∈ _)) in Hc. unfold expirable. by destruct (state r). }
      change compensate with (λ id rev now, transition id COMPENSATED rev now).
      rewrite H2. do 3 eexists. split; [reflexivity|]. cbn [fst recovered unresolved compensated].
      split_and!; [done|reflexivity|lia|lia|done].
    + do 3 eexists. split; [reflexivity|]. rewrite Hid. split_and!; [done|done|lia|lia|done].
Qed.

Definition is_executing (r : AdmissionRecord) : bool := bool_decide (state r = EXECUTING).
Definition needs_compensation (r : AdmissionRecord) : bool :=
  bool_decide (state r ∈ [CONFLICT; EXPIRED; DENIED; CANCELLED]).

Lemma reconcile_loop_spec snap acc w :
  store_inv w.1 → NoDup (admission_id <$> snap) →
  (∀ r, r ∈ snap → dict_get (admission_id r) (_records w.1) = Some r ∧ revision r + 2 <= 10 ^ 12) →
  ∃ w' acc', reconcile_loop svc runtime snap acc w = (w', Ok acc') ∧ store_inv w'.1 ∧
    dict_keys (_records w'.1) = dict_keys (_records w.1) ∧
    (∀ r, r ∈ snap → ∃ r', dict_get (admission_id r) (_records w'.1) = Some r' ∧ reconciled_to r r') ∧
    (∀ k, k ∉ (admission_id <$> snap) → dict_get k (_records w'.1) = dict_get k (_records w.1)) ∧
    recovered acc' + unresolved acc' = recovered acc + unresolved acc + count_if is_executing snap ∧
    compensated acc' = compensated acc + count_if needs_compensation snap.
Proof using Hclock Hevidence.
  revert acc w; induction snap as [|r snap IH]; intros acc w Hinv Hnd Hin; cbn [reconcile_loop].
  { exists w, acc. unfold count_if. cbn. split_and!; try done; try lia. by intros r ?%elem_of_nil. }
  cbn in Hnd. apply NoDup_cons in Hnd as [Hni Hnd].
  destruct (Hin r ltac:(by left)) as [Hget Hrev]. rewrite st_bind_eq.
  destruct (reconcile_record_spec r acc w Hinv Hget Hrev)
    as (w1 & acc1 & r' & -> & Hinv1 & Hrec & [Hc1 Hc2] & Hst).
  destruct (IH acc1 w1 Hinv1 Hnd) as (w2 & acc2 & -> & Hinv2 & Hk & Hsnap & Hother & H1 & H2).
  { intros r0 Hr0. rewrite Hst, dict_get_set_ne.
    - apply Hin. by right.
    - intros Heq. apply Hni. rewrite Heq. by apply list_elem_of_fmap_2. }
  exists w2, acc2. split_and!; try done.
  - rewrite Hk, Hst, dict_keys_set_in; [done|]. apply elem_of_dict_keys. by eexists.
  - intros r0 [->|Hr0]%elem_of_cons; [|by apply Hsnap].
    exists r'. rewrite Hother by done. split; [|done]. by rewrite Hst, dict_get_set_eq.
  - intros k. cbn. rewrite not_elem_of_cons. intros [Hne Hk0].
    rewrite Hother, Hst by done. by apply dict_get_set_ne.
  - rewrite H1, Hc1. unfold count_if, is_executing. cbn [List.filter].
    destruct (bool_decide (state r = EXECUTING)); cbn [length]; lia.
  - rewrite H2, Hc2. unfold count_if, needs_compensation. cbn [List.filter].
    destruct (bool_decide (state r ∈ _)); cbn [length]; lia.
Qed.
End reconcile.

(** Reconciliation settles a store without executing anything: given a
    clock and completion evidence that answer, it returns, keeps the set of
    admissions, moves every conflicting, expired, denied or cancelled record
    to [COMPENSATED], leaves an executing record as it is or, on positive
    evidence, finalizes it through [RECOVERED_AFTER_CRASH], changes no other
    record, and its counts are the numbers of such records. *)
Theorem reconcile_incomplete_exact {E} (svc : SelectionService E) runtime st e :
  clock_ok svc → svc_runtime svc = Some runtime →
  (∀ r e, ∃ e' b, rt_execution_completed r e = (e', Ok b)) →
  store_inv st → (∀ r, r ∈ values st → revision r + 2 <= 10 ^ 12) →
  ∃ st' e' acc, reconcile_incomplete svc (st, e) = ((st', e'), Ok acc) ∧ store_inv st' ∧
    dict_keys (_records st') = dict_keys (_records st) ∧
    (∀ k r, dict_get k (_records st) = Some r →
       ∃ r', dict_get k (_records st') = Some r' ∧ reconciled_to r r') ∧
    recovered acc + unresolved acc = count_if is_executing (values st) ∧
    compensated acc = count_if needs_compensation (values st).
Proof.
  intros Hclock Hsvc Hev Hinv Hrev. unfold reconcile_incomplete. rewrite Hsvc, st_bind_eq.
  change (on_store records_snapshot (st, e)) with ((st, e), Ok (values st)).
  destruct (reconcile_loop_spec svc runtime Hclock Hev (values st)
    {| recovered := 0; compensated := 0; unresolved := 0 |} (st, e))
    as ([st' e'] & acc & H & Hinv' & Hk & Hsnap & _ & H1 & H2); cbn [fst] in *.
  - done.
  - by apply inv_ids.
  - intros r Hr. split; [by apply inv_snapshot|by apply Hrev].
  - exists st', e', acc. split_and!; try done. intros k r Hr.
    destruct (inv_wf _ Hinv _ _ Hr) as [-> _]. apply Hsnap. by eapply values_elem_of.
Qed.

(** ** Samples *)

Definition sample_selection_runtime : SelectionRuntime nat := {|
  rt_revalidate := λ _, mret true;
  rt_fresh_check := Some (λ _, mret true);
  rt_execute := λ _ _ n, (S n, Ok (VDict [("done", VBool true)]));
  rt_execution_completed := λ _, mret true;
|}.

Definition sample_service : SelectionService nat :=
  {| svc_runtime := Some sample_selection_runtime; svc_now := mret sample_later;
     svc_sleep := λ _, mret (); svc_backoff := RETRY_BACKOFF_SECONDS |}.

Definition sample_plan : ST nat AdmissionRecord := mret sample_record.

Lemma sample_store_inv : store_inv sample_store.
Proof. apply (new_store_inv (VInt 2) (VInt 1) (VInt 1)). reflexivity. Defined.

Lemma sample_clock_ok : clock_ok sample_service.
Proof. intros e. exists e, sample_later. split; reflexivity. Defined.

Lemma sample_runtime_never_denies : runtime_never_denies sample_selection_runtime.
Proof.
  split; [|split]; [intros r e e' x H; discriminate H| |intros r op e e' x H; discriminate H].
  intros check r [= <-] e e' x H. discriminate H.
Defined.

Lemma sample_plans_ok : plans_ok sample_plan.
Proof.
  split; [intros e e' x H; discriminate H|].
  intros e e' r [= _ <-]. split; [exact sample_record_wf|]. apply Z.leb_le. reflexivity.
Defined.

Definition sample_finalized_store : AdmissionStore :=
  set_records sample_store [("adm-1", with_state sample_record FINALIZED 5)].

Lemma outcome_eta {A B C} (o : (A * B) * C) : o = ((o.1.1, o.1.2), o.2).
Proof. by destruct o as [[? ?] ?]. Qed.

Lemma execute_with_retry_accounted_witness :
  store_inv (execute_with_retry sample_service sample_plan "op" (sample_store, O)).1.1 ∧
  (execute_with_retry sample_service sample_plan "op" (sample_store, O)).1
    = (sample_finalized_store, 1%nat).
Proof.
  split; [|reflexivity].
  exact (proj1 (execute_with_retry_accounted sample_service sample_selection_runtime sample_plan
    "op" sample_store O _ _ _ sample_clock_ok eq_refl sample_runtime_never_denies
    sample_plans_ok sample_store_inv (outcome_eta _))).
Defined.

Lemma execute_with_retry_bounded_witness :
  ((execute_with_retry sample_service sample_plan "op" (sample_store, O)).1.2 <= 0 + 3 * (0 + 1))%nat.
Proof.
  apply (execute_with_retry_bounded sample_service sample_selection_runtime sample_plan "op"
    (λ n, n) 0 1); [reflexivity|intros n; cbn; lia|intros d n; cbn; lia
    |intros n; cbn; lia|intros r n; cbn; lia| |intros r op n; cbn; lia].
  intros check r [= <-] n. cbn. lia.
Defined.

Definition sample_executing_store : AdmissionStore :=
  set_records sample_store [("adm-1", with_state sample_record EXECUTING 4)].

Lemma sample_executing_inv : store_inv sample_executing_store.
Proof.
  change sample_executing_store with
    (set_records sample_busy_store
       (dict_set "adm-1" (with_state sample_record EXECUTING 4) (_records sample_busy_store))).
  apply (inv_update sample_busy_store "adm-1" sample_reserved); [exact sample_busy_inv|reflexivity|].
  split; [|repeat split; done].
  apply record_wf_with_state; [exact sample_record_wf|].
  split; apply Z.leb_le; reflexivity.
Defined.

Lemma reconcile_incomplete_exact_witness :
  ∃ st' e' acc, reconcile_incomplete sample_service (sample_executing_store, O)
      = ((st', e'), Ok acc) ∧ recovered acc + unresolved acc = 1.
Proof.
  destruct (reconcile_incomplete_exact sample_service sample_selection_runtime
    sample_executing_store O sample_clock_ok eq_refl) as (st' & e' & acc & H & _ & _ & _ & Hc & _).
  - intros r e. exists e, true. reflexivity.
  - exact sample_executing_inv.
  - intros r Hr. apply list_elem_of_singleton in Hr. subst r. apply Z.leb_le. reflexivity.
  - exists st', e', acc. split; [exact H|]. rewrite Hc. reflexivity.
Defined.

(** *** A runtime that raises [SelectionDeniedError] *)

Definition denying_runtime : SelectionRuntime nat := {|
  rt_revalidate := λ _, mret true;
  rt_fresh_check := Some (λ _, mret true);
  rt_execute := λ _ _, st_lift (Err (SelectionDeniedError "provider refused"));
  rt_execution_completed := λ _, mret false;
|}.

Definition denying_service : SelectionService nat :=
  {| svc_runtime := Some denying_runtime; svc_now := mret sample_later;
     svc_sleep := λ _, mret (); svc_backoff := RETRY_BACKOFF_SECONDS |}.

(** A failed attempt is not always compensated: when the runtime itself
    raises [SelectionDeniedError] out of [execute], the exception passes
    through without cleanup and the admission stays [EXECUTING] in the store,
    still holding its agent, capacity and scope; a later reconciliation
    without completion evidence leaves it there. *)
Theorem runtime_denial_not_compensated :
  ∃ st e, execute_with_retry denying_service sample_plan "op" (sample_store, O)
      = ((st, e), Err (SelectionDeniedError "provider refused")) ∧
    dict_get "adm-1" (_records st) = Some (with_state sample_record EXECUTING 4) ∧
    active (with_state sample_record EXECUTING 4) = true ∧
    reconcile_incomplete denying_service (st, e)
      = ((st, e), Ok {| recovered := 0; compensated := 0; unresolved := 1 |}).
Proof. exists sample_executing_store, O. split_and!; reflexivity. Qed.
