(* ===== verification/SparkRetry.v ===== *)
(** * Resume capsules

    [src/src/the_hive/spark_retry.py]: the versioned resume capsule, its
    strict reader and serializer, the event reader and the transition a
    capsule makes on one event.  Payloads are decoded JSON ([pyval]). *)

From S2P Require Import Prelude PyTime DynamicPool.

Definition _SCHEMA_VERSION : Z := 1.
Definition _CAPACITY_RETRY_LIMIT : Z := 50.
Definition _ACTIVE_WINDOW_MS : Z := 300000.
Definition _ACCOUNT_BINDING_RE : string → bool := is_sha256_digest.
Definition _SPARK_REQUIREMENT_TOKEN : string := "explicit_spark".
Definition _ACTIVE_EVENT_TYPES : list string := ["provider"; "tool"; "progress"].
Definition _ZERO_DURATION_EVENTS : list string := ["wait"; "backoff"; "poll"; "liveness"].
Definition _KNOWN_EVENT_TYPES : list string :=
  _ACTIVE_EVENT_TYPES ++ _ZERO_DURATION_EVENTS ++ ["capacity"].
Definition _CAPSULE_KEYS : list string :=
  [ "schema_version"; "retry_count"; "event_sequence"; "active_window_ms"; "bee_id";
    "session_id"; "spark_requirement"; "model"; "provider"; "effort"; "account_binding" ].
Definition _BINDING_KEYS : list string :=
  [ "bee_id"; "session_id"; "spark_requirement"; "model"; "provider"; "effort";
    "account_binding" ].

(** Retired Spark requests never qualify. *)
Definition is_capacity_retry_code (code : string) : bool := false.

Record ResumeCapsuleV1 := {
  bee_id : string;
  session_id : string;
  spark_requirement : string;
  model : string;
  provider : string;
  effort : string;
  account_binding : string;
  retry_count : Z;
  event_sequence : Z;
  active_window_ms : Z;
}.

#[export] Instance ResumeCapsuleV1_eq_dec : EqDecision ResumeCapsuleV1.
Proof. solve_decision. Defined.

(** ** Readers of single fields *)

Abbreviation mapping := (list (string * pyval)).

Definition _require_str (raw : mapping) (key : string) : result string :=
  match dict_get key raw with
  | Some (VStr s) =>
      if bool_decide (s = "") then Err (ValueError ("missing or invalid " +:+ key)) else Ok s
  | _ => Err (ValueError ("missing or invalid " +:+ key))
  end.

Definition _require_int (raw : mapping) (key : string) : result Z :=
  match dict_get key raw with
  | Some (VInt z) => Ok z
  | _ => Err (ValueError ("missing or invalid " +:+ key))
  end.

Definition _require_non_negative_int (raw : mapping) (key : string) : result Z :=
  value ← _require_int raw key;
  _ ← require (0 <=? value) (ValueError ("negative " +:+ key));
  Ok value.

Definition _require_account_binding (raw : mapping) (key : string) : result string :=
  value ← _require_str raw key;
  _ ← require (_ACCOUNT_BINDING_RE value) (ValueError ("invalid " +:+ key));
  Ok value.

Definition _require_explicit_spark_requirement (raw : mapping) (key : string) : result string :=
  value ← _require_str raw key;
  _ ← require (bool_decide (value = _SPARK_REQUIREMENT_TOKEN)) (ValueError ("invalid " +:+ key));
  Ok value.

Definition _require_exact_keys (raw : mapping) (allowed : list string) : result () :=
  require (keys_exactly raw allowed) (ValueError "unexpected fields present").

(** The seven identity fields, as a capsule without progress. *)
Definition _require_binding (v : pyval) : result ResumeCapsuleV1 :=
  match v with
  | VDict raw =>
      _ ← _require_exact_keys raw _BINDING_KEYS;
      bee ← _require_str raw "bee_id";
      session ← _require_str raw "session_id";
      spark ← _require_explicit_spark_requirement raw "spark_requirement";
      mo ← _require_str raw "model";
      pr ← _require_str raw "provider";
      ef ← _require_str raw "effort";
      ac ← _require_account_binding raw "account_binding";
      Ok {| bee_id := bee; session_id := session; spark_requirement := spark; model := mo;
            provider := pr; effort := ef; account_binding := ac; retry_count := 0;
            event_sequence := 0; active_window_ms := 0 |}
  | _ => Err (ValueError "binding must be mapping")
  end.

(** ** Capsules *)

Definition normalize_resume_capsule (v : pyval) : result ResumeCapsuleV1 :=
  match v with
  | VDict raw =>
      _ ← _require_exact_keys raw _CAPSULE_KEYS;
      version ← _require_int raw "schema_version";
      _ ← require (version =? _SCHEMA_VERSION) (ValueError "unsupported schema_version");
      retry ← _require_non_negative_int raw "retry_count";
      _ ← require (retry <=? _CAPACITY_RETRY_LIMIT) (ValueError "retry_count out of range");
      seqno ← _require_non_negative_int raw "event_sequence";
      window ← _require_non_negative_int raw "active_window_ms";
      _ ← require (window <? _ACTIVE_WINDOW_MS) (ValueError "active_window_ms out of range");
      bee ← _require_str raw "bee_id";
      session ← _require_str raw "session_id";
      spark ← _require_explicit_spark_requirement raw "spark_requirement";
      mo ← _require_str raw "model";
      pr ← _require_str raw "provider";
      ef ← _require_str raw "effort";
      ac ← _require_account_binding raw "account_binding";
      Ok {| bee_id := bee; session_id := session; spark_requirement := spark; model := mo;
            provider := pr; effort := ef; account_binding := ac; retry_count := retry;
            event_sequence := seqno; active_window_ms := window |}
  | _ => Err (TypeError "capsule must be mapping")
  end.

Definition _validate_capsule (c : ResumeCapsuleV1) : result () :=
  _ ← normalize_resume_capsule (VDict
        [ ("schema_version", VInt _SCHEMA_VERSION); ("retry_count", VInt (retry_count c));
          ("event_sequence", VInt (event_sequence c));
          ("active_window_ms", VInt (active_window_ms c)); ("bee_id", VStr (bee_id c));
          ("session_id", VStr (session_id c));
          ("spark_requirement", VStr (spark_requirement c)); ("model", VStr (model c));
          ("provider", VStr (provider c)); ("effort", VStr (effort c));
          ("account_binding", VStr (account_binding c)) ]);
  Ok ().

Definition capsule_payload (c : ResumeCapsuleV1) : mapping :=
  [ ("schema_version", VInt _SCHEMA_VERSION); ("bee_id", VStr (bee_id c));
    ("session_id", VStr (session_id c)); ("spark_requirement", VStr (spark_requirement c));
    ("model", VStr (model c)); ("provider", VStr (provider c)); ("effort", VStr (effort c));
    ("account_binding", VStr (account_binding c)); ("retry_count", VInt (retry_count c));
    ("event_sequence", VInt (event_sequence c));
    ("active_window_ms", VInt (active_window_ms c)) ].

(** The argument is a capsule or a mapping. *)
Definition serialize_resume_capsule (capsule : ResumeCapsuleV1 + pyval) : result mapping :=
  match capsule with
  | inr (VDict raw) => c ← normalize_resume_capsule (VDict raw); Ok (capsule_payload c)
  | inr _ => Err (TypeError "capsule must be ResumeCapsuleV1 or mapping")
  | inl c => _ ← _validate_capsule c; Ok (capsule_payload c)
  end.

(** ** Events *)

Record _ResumeEvent := {
  ev_sequence : Z;
  ev_type : string;
  ev_active_duration_ms : Z;
  ev_error_code : option string;
}.

Definition capacity_fields : list string :=
  ["event_sequence"; "event_type"; "binding"; "error_code"].
Definition active_fields : list string :=
  ["event_sequence"; "event_type"; "binding"; "active_duration_ms"].
Definition idle_fields : list string := ["event_sequence"; "event_type"; "binding"].

Definition _normalize_event (v : pyval) : result _ResumeEvent :=
  match v with
  | VDict payload =>
      event_type ← _require_str payload "event_type";
      _ ← require (bool_decide (event_type ∈ _KNOWN_EVENT_TYPES)) (ValueError "unknown event type");
      seqno ← _require_non_negative_int payload "event_sequence";
      if bool_decide (event_type = "capacity") then
        _ ← _require_exact_keys payload capacity_fields;
        code ← _require_str payload "error_code";
        binding ← getitem "binding" payload;
        _ ← _require_binding binding;
        Ok {| ev_sequence := seqno; ev_type := event_type; ev_active_duration_ms := 0;
              ev_error_code := Some code |}
      else if bool_decide (event_type ∈ _ACTIVE_EVENT_TYPES) then
        _ ← _require_exact_keys payload active_fields;
        duration ← _require_non_negative_int payload "active_duration_ms";
        binding ← getitem "binding" payload;
        _ ← _require_binding binding;
        Ok {| ev_sequence := seqno; ev_type := event_type; ev_active_duration_ms := duration;
              ev_error_code := None |}
      else if bool_decide (event_type ∈ _ZERO_DURATION_EVENTS) then
        _ ← require (keys_exactly payload active_fields || keys_exactly payload idle_fields)
              (ValueError "unexpected fields present");
        _ ← (if dict_mem "active_duration_ms" payload
             then d ← _require_non_negative_int payload "active_duration_ms";
                  require (0 <=? d) (ValueError "negative active_duration_ms")
             else Ok ());
        binding ← getitem "binding" payload;
        _ ← _require_binding binding;
        Ok {| ev_sequence := seqno; ev_type := event_type; ev_active_duration_ms := 0;
              ev_error_code := None |}
      else Err (ValueError "unknown event type")
  | _ => Err (TypeError "event must be mapping")
  end.

Definition _apply_active_window (window retry : Z) : result (Z * Z) :=
  if window <? 0 then Err (ValueError "invalid active window")
  else if window <? _ACTIVE_WINDOW_MS then Ok (window, retry)
  else Ok (0, 0).

(** [except (TypeError, ValueError, KeyError)]. *)
Definition resume_handled (e : exn) : bool :=
  is_type_error e || is_value_error e || is_key_error e.

Definition _matching_binding (c : ResumeCapsuleV1) (v : pyval) : result bool :=
  let body :=
    match v with
    | VDict payload =>
        binding ← getitem "binding" payload;
        source ← _require_binding binding;
        Ok (bool_decide (bee_id c = bee_id source)
            && bool_decide (session_id c = session_id source)
            && bool_decide (spark_requirement c = spark_requirement source)
            && bool_decide (model c = model source)
            && bool_decide (provider c = provider source)
            && bool_decide (effort c = effort source)
            && bool_decide (account_binding c = account_binding source))
    | _ => Err (TypeError "object is not subscriptable")
    end in
  match body with
  | Ok b => Ok b
  | Err e => if resume_handled e then Ok false else Err e
  end.

(** The guarded part of [apply_resume_event]: the event to apply, or [None]
    for a no-op. *)
Definition accept_event (c : ResumeCapsuleV1) (event : pyval) : result (option _ResumeEvent) :=
  let body :=
    _ ← _validate_capsule c;
    ev ← _normalize_event event;
    matching ← _matching_binding c event;
    if negb matching then Ok None
    else if ev_sequence ev <=? event_sequence c then Ok None
    else Ok (Some ev) in
  match body with
  | Ok o => Ok o
  | Err e => if resume_handled e then Ok None else Err e
  end.

Definition apply_resume_event (c : ResumeCapsuleV1) (event : pyval) : result ResumeCapsuleV1 :=
  accepted ← accept_event c event;
  match accepted with
  | None => Ok c
  | Some ev =>
      progress ← (if bool_decide (ev_type ev ∈ _ACTIVE_EVENT_TYPES)
                  then _apply_active_window (active_window_ms c + ev_active_duration_ms ev)
                         (retry_count c)
                  else Ok (active_window_ms c, retry_count c));
      Ok {| bee_id := bee_id c; session_id := session_id c;
            spark_requirement := spark_requirement c; model := model c;
            provider := provider c; effort := effort c;
            account_binding := account_binding c; retry_count := progress.2;
            event_sequence := ev_sequence ev; active_window_ms := progress.1 |}
  end.

(** ** Valid capsules *)

Record capsule_wf (c : ResumeCapsuleV1) : Prop := {
  cwf_texts : Forall (λ s, s ≠ "") [bee_id c; session_id c; model c; provider c; effort c];
  cwf_spark : spark_requirement c = _SPARK_REQUIREMENT_TOKEN;
  cwf_account : _ACCOUNT_BINDING_RE (account_binding c) = true;
  cwf_retry : 0 <= retry_count c <= _CAPACITY_RETRY_LIMIT;
  cwf_sequence : 0 <= event_sequence c;
  cwf_window : 0 <= active_window_ms c < _ACTIVE_WINDOW_MS;
}.

Lemma require_str_Ok raw k s :
  _require_str raw k = Ok s ↔ dict_get k raw = Some (VStr s) ∧ s ≠ "".
Proof.
  unfold _require_str. destruct (dict_get k raw) as [[]|]; try naive_solver.
  case_bool_decide; naive_solver.
Qed.

Lemma require_nat_Ok raw k z :
  _require_non_negative_int raw k = Ok z ↔ dict_get k raw = Some (VInt z) ∧ 0 <= z.
Proof.
  unfold _require_non_negative_int, _require_int.
  destruct (dict_get k raw) as [[]|]; cbn; try naive_solver.
  destruct (Z.leb_spec 0 z0); cbn; naive_solver lia.
Qed.

Lemma require_account_Ok raw k s :
  _require_account_binding raw k = Ok s ↔
  dict_get k raw = Some (VStr s) ∧ s ≠ "" ∧ _ACCOUNT_BINDING_RE s = true.
Proof.
  unfold _require_account_binding. rewrite bind_Ok. split.
  - intros (s' & [Hg Hs]%require_str_Ok & (u & Hr%require_Ok & [= ->])%bind_Ok). done.
  - intros (Hg & Hs & Hr). exists s. rewrite require_str_Ok. by rewrite Hr.
Qed.

Lemma require_spark_Ok raw k s :
  _require_explicit_spark_requirement raw k = Ok s ↔
  dict_get k raw = Some (VStr s) ∧ s = _SPARK_REQUIREMENT_TOKEN.
Proof.
  unfold _require_explicit_spark_requirement. rewrite bind_Ok. split.
  - intros (s' & [Hg Hs]%require_str_Ok & (u & Hr%require_Ok & [= ->])%bind_Ok).
    by apply bool_decide_eq_true in Hr.
  - intros [Hg ->]. exists _SPARK_REQUIREMENT_TOKEN. rewrite require_str_Ok. done.
Qed.

(** A successful read gives a valid capsule and fixes every field of the
    mapping. *)
Lemma normalize_Ok raw c :
  normalize_resume_capsule (VDict raw) = Ok c →
  capsule_wf c ∧ (∀ k v, dict_get k (capsule_payload c) = Some v → dict_get k raw = Some v).
Proof.
  unfold normalize_resume_capsule. intros H.
  apply bind_Ok in H as (? & _ & H). apply bind_Ok in H as (ver & Hver & H).
  apply bind_Ok in H as (? & Hv1%require_Ok & H).
  apply bind_Ok in H as (retry & [Hr1 Hr2]%require_nat_Ok & H).
  apply bind_Ok in H as (? & Hr3%require_Ok & H).
  apply bind_Ok in H as (seqno & [Hs1 Hs2]%require_nat_Ok & H).
  apply bind_Ok in H as (window & [Hw1 Hw2]%require_nat_Ok & H).
  apply bind_Ok in H as (? & Hw3%require_Ok & H).
  apply bind_Ok in H as (bee & [Hb1 Hb2]%require_str_Ok & H).
  apply bind_Ok in H as (session & [He1 He2]%require_str_Ok & H).
  apply bind_Ok in H as (spark & [Hp1 Hp2]%require_spark_Ok & H).
  apply bind_Ok in H as (mo & [Hm1 Hm2]%require_str_Ok & H).
  apply bind_Ok in H as (pr & [Ho1 Ho2]%require_str_Ok & H).
  apply bind_Ok in H as (ef & [Hf1 Hf2]%require_str_Ok & H).
  apply bind_Ok in H as (ac & (Ha1 & _ & Ha2)%require_account_Ok & [= <-]).
  split.
  - split; cbn; try done; try lia. by repeat constructor.
  - apply Z.eqb_eq in Hv1. subst ver.
    assert (dict_get "schema_version" raw = Some (VInt _SCHEMA_VERSION)) as Hver'.
    { unfold _require_int in Hver. destruct (dict_get "schema_version" raw) as [[]|]; naive_solver. }
    intros k v. cbn. repeat case_bool_decide; intros [= <-]; by subst.
Qed.

Lemma normalize_valid c raw :
  capsule_wf c → keys_exactly raw _CAPSULE_KEYS = true →
  (∀ k v, dict_get k (capsule_payload c) = Some v → dict_get k raw = Some v) →
  normalize_resume_capsule (VDict raw) = Ok c.
Proof.
  intros [Ht Hsp Hac Hr Hs Hw] Hkeys Hget. unfold normalize_resume_capsule, _require_exact_keys.
  rewrite Hkeys. cbn [require]. rewrite bind_ret.
  repeat rewrite Forall_cons in Ht. destruct Ht as (H1 & H2 & H3 & H4 & H5 & _).
  assert (Hint : ∀ k z, dict_get k (capsule_payload c) = Some (VInt z) → 0 <= z →
    _require_non_negative_int raw k = Ok z) by (intros; apply require_nat_Ok; auto).
  assert (Hstr : ∀ k s, dict_get k (capsule_payload c) = Some (VStr s) → s ≠ "" →
    _require_str raw k = Ok s) by (intros; apply require_str_Ok; auto).
  unfold _require_int at 1. rewrite (Hget "schema_version" (VInt 1)) by done. rewrite bind_ret.
  cbn [require Z.eqb _SCHEMA_VERSION Pos.eqb]. rewrite bind_ret.
  rewrite (Hint "retry_count" (retry_count c)), bind_ret by (done || lia).
  replace (retry_count c <=? _CAPACITY_RETRY_LIMIT) with true by lia. cbn [require].
  rewrite bind_ret, (Hint "event_sequence" (event_sequence c)), bind_ret by (done || lia).
  rewrite (Hint "active_window_ms" (active_window_ms c)), bind_ret by (done || lia).
  replace (active_window_ms c <? _ACTIVE_WINDOW_MS) with true by lia. cbn [require].
  rewrite bind_ret, (Hstr "bee_id" (bee_id c)), bind_ret by done.
  rewrite (Hstr "session_id" (session_id c)), bind_ret by done.
  rewrite (proj2 (require_spark_Ok raw "spark_requirement" (spark_requirement c))), bind_ret
    by (split; [by apply Hget|done]).
  rewrite (Hstr "model" (model c)), bind_ret by done.
  rewrite (Hstr "provider" (provider c)), bind_ret by done.
  rewrite (Hstr "effort" (effort c)), bind_ret by done.
  rewrite (proj2 (require_account_Ok raw "account_binding" (account_binding c))), bind_ret.
  - by destruct c.
  - split; [by apply Hget|]. split; [|done]. intros Hnil. by rewrite Hnil in Hac.
Qed.

Lemma validate_Ok c u : _validate_capsule c = Ok u ↔ capsule_wf c.
Proof.
  unfold _validate_capsule. split.
  - intros (c' & H & _)%bind_Ok. apply normalize_Ok in H as [Hwf Hget].
    assert (c' = c) as <-; [|done].
    assert (K0 : Some (VStr (bee_id c)) = Some (VStr (bee_id c')))
      by exact (Hget "bee_id" _ eq_refl).
    assert (K1 : Some (VStr (session_id c)) = Some (VStr (session_id c')))
      by exact (Hget "session_id" _ eq_refl).
    assert (K2 : Some (VStr (spark_requirement c)) = Some (VStr (spark_requirement c')))
      by exact (Hget "spark_requirement" _ eq_refl).
    assert (K3 : Some (VStr (model c)) = Some (VStr (model c')))
      by exact (Hget "model" _ eq_refl).
    assert (K4 : Some (VStr (provider c)) = Some (VStr (provider c')))
      by exact (Hget "provider" _ eq_refl).
    assert (K5 : Some (VStr (effort c)) = Some (VStr (effort c')))
      by exact (Hget "effort" _ eq_refl).
    assert (K6 : Some (VStr (account_binding c)) = Some (VStr (account_binding c')))
      by exact (Hget "account_binding" _ eq_refl).
    assert (K7 : Some (VInt (retry_count c)) = Some (VInt (retry_count c')))
      by exact (Hget "retry_count" _ eq_refl).
    assert (K8 : Some (VInt (event_sequence c)) = Some (VInt (event_sequence c')))
      by exact (Hget "event_sequence" _ eq_refl).
    assert (K9 : Some (VInt (active_window_ms c)) = Some (VInt (active_window_ms c')))
      by exact (Hget "active_window_ms" _ eq_refl).
    destruct c, c'; cbn in *; congruence.
  - intros Hwf. erewrite (normalize_valid c); [by destruct u|done|done|].
    intros k v. cbn. repeat case_bool_decide; subst; try done; naive_solver.
Qed.

(** ** Exceptions *)

Lemma raises_require_str raw k : raises_only resume_handled (_require_str raw k).
Proof. unfold _require_str. raises_cases. Qed.
Lemma raises_require_int raw k : raises_only resume_handled (_require_int raw k).
Proof. unfold _require_int. raises_cases. Qed.
#[export] Hint Resolve raises_require_str raises_require_int : raises.
Lemma raises_require_nat raw k : raises_only resume_handled (_require_non_negative_int raw k).
Proof. unfold _require_non_negative_int. raises_cases. Qed.
Lemma raises_require_account raw k : raises_only resume_handled (_require_account_binding raw k).
Proof. unfold _require_account_binding. raises_cases. Qed.
Lemma raises_require_spark raw k :
  raises_only resume_handled (_require_explicit_spark_requirement raw k).
Proof. unfold _require_explicit_spark_requirement. raises_cases. Qed.
Lemma raises_exact_keys raw l : raises_only resume_handled (_require_exact_keys raw l).
Proof. unfold _require_exact_keys. raises_cases. Qed.
Lemma raises_resume_getitem k d : raises_only resume_handled (getitem k d).
Proof. unfold getitem. raises_cases. Qed.
#[export] Hint Resolve raises_require_nat raises_require_account raises_require_spark
  raises_exact_keys raises_resume_getitem : raises.
Lemma raises_require_binding v : raises_only resume_handled (_require_binding v).
Proof. unfold _require_binding. raises_cases. Qed.
Lemma raises_normalize v : raises_only resume_handled (normalize_resume_capsule v).
Proof. unfold normalize_resume_capsule. raises_cases. Qed.
#[export] Hint Resolve raises_require_binding raises_normalize : raises.
Lemma raises_normalize_event v : raises_only resume_handled (_normalize_event v).
Proof. unfold _normalize_event. raises_cases. Qed.
#[export] Hint Resolve raises_normalize_event : raises.

Lemma matching_total c v : ∃ b, _matching_binding c v = Ok b.
Proof.
  unfold _matching_binding. cbv zeta.
  set (body := match v with VDict _ => _ | _ => _ end).
  assert (raises_only resume_handled body) as Hb by (unfold body; raises_cases).
  destruct body as [b|e]; [by eexists|]. rewrite (Hb e) by done. by eexists.
Qed.

(** ** Properties *)

Lemma accept_event_spec c event :
  ∃ o, accept_event c event = Ok o ∧
    (∀ ev, o = Some ev → capsule_wf c ∧ _normalize_event event = Ok ev ∧
       _matching_binding c event = Ok true ∧ event_sequence c < ev_sequence ev).
Proof.
  unfold accept_event. cbv zeta.
  destruct (_validate_capsule c) as [u|e] eqn:Hval.
  2:{ cbn. assert (raises_only resume_handled (_validate_capsule c)) as Hv
        by (unfold _validate_capsule; raises_cases).
      rewrite (Hv e) by done. by eexists. }
  cbn. apply validate_Ok in Hval.
  destruct (_normalize_event event) as [ev|e] eqn:Hev.
  2:{ cbn. rewrite (raises_normalize_event event e) by done. by eexists. }
  cbn. destruct (matching_total c event) as [b Hb]. rewrite Hb. cbn.
  destruct b; cbn; [|by eexists].
  destruct (Z.leb_spec (ev_sequence ev) (event_sequence c)); eexists; (split; [done|]); [done|].
  by intros ev' [= <-].
Qed.

Lemma normalize_event_nonneg v ev :
  _normalize_event v = Ok ev → 0 <= ev_sequence ev ∧ 0 <= ev_active_duration_ms ev.
Proof.
  unfold _normalize_event. destruct v as [| | | | | |d]; try done. intros H.
  apply bind_Ok in H as (ty & _ & H). apply bind_Ok in H as (? & _ & H).
  apply bind_Ok in H as (seqno & [_ Hs]%require_nat_Ok & H).
  repeat case_match; try done;
    repeat match type of H with
    | _require_non_negative_int _ _ ≫= _ = _ =>
        let Hd := fresh "Hd" in
        apply bind_Ok in H as (? & Hd & H); apply require_nat_Ok in Hd as [_ Hd]
    | _ ≫= _ = _ => apply bind_Ok in H as (? & _ & H)
    end; injection H as <-; cbn; split; lia.
Qed.

(** The state after one event, or the capsule itself when it is refused. *)
Lemma apply_resume_event_spec c event :
  ∃ c', apply_resume_event c event = Ok c' ∧
    (c' = c ∨
     capsule_wf c ∧ ∃ ev, _normalize_event event = Ok ev ∧ event_sequence c < ev_sequence ev ∧
       _matching_binding c event = Ok true ∧
       event_sequence c' = ev_sequence ev ∧
       bee_id c' = bee_id c ∧ session_id c' = session_id c ∧
       spark_requirement c' = spark_requirement c ∧ model c' = model c ∧
       provider c' = provider c ∧ effort c' = effort c ∧ account_binding c' = account_binding c ∧
       (if bool_decide (ev_type ev ∈ _ACTIVE_EVENT_TYPES)
              && (_ACTIVE_WINDOW_MS <=? active_window_ms c + ev_active_duration_ms ev)
        then active_window_ms c' = 0 ∧ retry_count c' = 0
        else retry_count c' = retry_count c ∧
             active_window_ms c' = active_window_ms c
               + (if bool_decide (ev_type ev ∈ _ACTIVE_EVENT_TYPES)
                  then ev_active_duration_ms ev else 0))).
Proof.
  unfold apply_resume_event.
  destruct (accept_event_spec c event) as (o & -> & Ho). rewrite bind_ret.
  destruct o as [ev|]; [|exists c; auto].
  destruct (Ho ev eq_refl) as (Hwf & Hev & Hm & Hlt). pose proof (normalize_event_nonneg _ _ Hev).
  pose proof (cwf_window c Hwf) as Hw.
  destruct (bool_decide (ev_type ev ∈ _ACTIVE_EVENT_TYPES)) eqn:Ht; cbn [andb].
  - unfold _apply_active_window.
    destruct (Z.ltb_spec (active_window_ms c + ev_active_duration_ms ev) 0); [lia|].
    destruct (Z.ltb_spec (active_window_ms c + ev_active_duration_ms ev) _ACTIVE_WINDOW_MS);
      rewrite bind_ret; (eexists; split; [reflexivity|]); right; (split; [done|]); exists ev;
      rewrite Ht; cbn [andb];
      [replace (_ACTIVE_WINDOW_MS <=? _) with false by lia
      |replace (_ACTIVE_WINDOW_MS <=? _) with true by lia]; split_and!; done.
  - rewrite bind_ret. eexists; split; [reflexivity|]. right; split; [done|]. exists ev.
    rewrite Ht. cbn. split_and!; try done. lia.
Qed.

(** C32: Applying an event never raises, whatever the payload, and keeps a
    valid capsule valid: the retry counter stays in [0, 50] and the active
    window below 300000 ms.  The seven identity fields (bee, session, spark
    requirement, model, provider, effort, account binding) are those of the
    capsule it was given; the event sequence never decreases and strictly
    increases when anything changes; and the retry counter is kept or reset to
    zero, never increased. *)
Theorem apply_resume_event_invariant c event :
  ∃ c', apply_resume_event c event = Ok c' ∧
    (capsule_wf c → capsule_wf c') ∧
    (bee_id c' = bee_id c ∧ session_id c' = session_id c ∧
     spark_requirement c' = spark_requirement c ∧ model c' = model c ∧
     provider c' = provider c ∧ effort c' = effort c ∧ account_binding c' = account_binding c) ∧
    event_sequence c <= event_sequence c' ∧
    (c' ≠ c → event_sequence c < event_sequence c') ∧
    (retry_count c' = retry_count c ∨ retry_count c' = 0).
Proof.
  destruct (apply_resume_event_spec c event) as (c' & Hc & Hspec). exists c'. split; [done|].
  destruct Hspec as [->|(Hwf & ev & Hev & Hlt & _ & Hseq & H1 & H2 & H3 & H4 & H5 & H6 & H7 & Hp)].
  { split_and!; try done. by left. }
  pose proof (normalize_event_nonneg _ _ Hev) as [Hs Hd].
  pose proof (cwf_window c Hwf) as Hw. pose proof (cwf_retry c Hwf) as Hr.
  assert (0 <= active_window_ms c' < _ACTIVE_WINDOW_MS ∧
          (retry_count c' = retry_count c ∨ retry_count c' = 0)) as [Hw' Hr'].
  { destruct (bool_decide (ev_type ev ∈ _ACTIVE_EVENT_TYPES)); cbn [andb] in Hp;
      [destruct (Z.leb_spec _ACTIVE_WINDOW_MS (active_window_ms c + ev_active_duration_ms ev))|];
      destruct Hp as [Ha Hb]; split; auto; unfold _ACTIVE_WINDOW_MS in *; lia. }
  split_and!; try done; [|lia|lia]. intros _. destruct Hwf as [Ht Hsp Hac _ _ _].
  split; [|congruence|congruence| |lia|done].
  - by rewrite H1, H2, H4, H5, H6.
  - unfold _CAPACITY_RETRY_LIMIT in *. lia.
Qed.

(** Events are applied at most once and in order: after an event was
    applied, delivering it again (or any event that carries the same or an
    older sequence number) leaves the capsule unchanged. *)
Theorem resume_replay_noop c event c' event' ev ev' :
  apply_resume_event c event = Ok c' → c' ≠ c →
  _normalize_event event = Ok ev → _normalize_event event' = Ok ev' →
  ev_sequence ev' <= ev_sequence ev →
  apply_resume_event c' event' = Ok c'.
Proof.
  intros H Hne Hev Hev' Hle.
  destruct (apply_resume_event_spec c event) as (c1 & Hc & Hspec).
  rewrite Hc in H. injection H as ->.
  destruct Hspec as [->|(_ & ev1 & Hev1 & _ & _ & Hseq & _)]; [done|].
  rewrite Hev in Hev1. injection Hev1 as <-.
  destruct (apply_resume_event_spec c' event') as (c2 & Hc2 & Hspec2). rewrite Hc2.
  destruct Hspec2 as [->|(_ & ev2 & Hev2 & Hlt & _)]; [done|].
  rewrite Hev' in Hev2. injection Hev2 as <-. lia.
Qed.

(** Serialising and reading a capsule is the identity on valid capsules,
    and an invalid capsule is never serialised: [serialize_resume_capsule]
    succeeds exactly on valid capsules, its output is read back as the same
    capsule, and re-serialising a mapping it accepts gives the canonical
    payload of the capsule read. *)
Theorem resume_capsule_roundtrip c :
  (∀ d, serialize_resume_capsule (inl c) = Ok d →
     capsule_wf c ∧ normalize_resume_capsule (VDict d) = Ok c ∧
     serialize_resume_capsule (inr (VDict d)) = Ok d) ∧
  (capsule_wf c → serialize_resume_capsule (inl c) = Ok (capsule_payload c)).
Proof.
  assert (Hread : capsule_wf c → normalize_resume_capsule (VDict (capsule_payload c)) = Ok c).
  { intros Hwf. by apply normalize_valid. }
  split.
  - unfold serialize_resume_capsule. intros d (u & Hval & [= <-])%bind_Ok.
    apply validate_Ok in Hval. rewrite Hread by done. done.
  - intros Hwf. unfold serialize_resume_capsule. by rewrite (proj2 (validate_Ok c ()) Hwf).
Qed.

(** *** Samples *)

Definition sample_account : string :=
  "sha256:0123456789abcdef0123456789abcdef0123456789abcdef0123456789abcdef".

Definition sample_capsule : ResumeCapsuleV1 :=
  {| bee_id := "bee"; session_id := "s"; spark_requirement := "explicit_spark"; model := "m";
     provider := "p"; effort := "high"; account_binding := sample_account; retry_count := 3;
     event_sequence := 7; active_window_ms := 1000 |}.

Definition sample_event (n : Z) : pyval :=
  VDict [ ("event_sequence", VInt n); ("event_type", VStr "tool");
          ("binding", VDict
             [ ("bee_id", VStr "bee"); ("session_id", VStr "s");
               ("spark_requirement", VStr "explicit_spark"); ("model", VStr "m");
               ("provider", VStr "p"); ("effort", VStr "high");
               ("account_binding", VStr sample_account) ]);
          ("active_duration_ms", VInt 500) ].

Definition sample_capsule_after : ResumeCapsuleV1 :=
  {| bee_id := "bee"; session_id := "s"; spark_requirement := "explicit_spark"; model := "m";
     provider := "p"; effort := "high"; account_binding := sample_account; retry_count := 3;
     event_sequence := 8; active_window_ms := 1500 |}.

Lemma resume_replay_noop_witness :
  apply_resume_event sample_capsule (sample_event 8) = Ok sample_capsule_after ∧
  apply_resume_event sample_capsule_after (sample_event 8) = Ok sample_capsule_after.
Proof.
  split; [reflexivity|].
  refine (resume_replay_noop sample_capsule (sample_event 8) sample_capsule_after (sample_event 8)
    {| ev_sequence := 8; ev_type := "tool"; ev_active_duration_ms := 500; ev_error_code := None |}
    {| ev_sequence := 8; ev_type := "tool"; ev_active_duration_ms := 500; ev_error_code := None |}
    _ _ _ _ _); [reflexivity|discriminate|reflexivity|reflexivity|lia].
Defined.

Lemma resume_capsule_roundtrip_witness :
  normalize_resume_capsule (VDict (capsule_payload sample_capsule)) = Ok sample_capsule.
Proof.
  refine (proj1 (proj2 (proj1 (resume_capsule_roundtrip sample_capsule)
    (capsule_payload sample_capsule) _))). reflexivity.
Defined.
