(* ===== verification/Sha256.v ===== *)
(** * SHA-256

    [hashlib.sha256(text.encode("utf-8")).hexdigest()], as FIPS 180-4 defines
    it: the code uses it to derive request and dispatch identifiers and
    payload digests.  Words are 32-bit integers in [Z]. *)

From S2P Require Import Prelude.
#[local] Open Scope Z_scope.

(** [text.encode("utf-8")], for code points below 256. *)
Fixpoint utf8 (s : string) : list Z :=
  match s with
  | EmptyString => []
  | String c s =>
      let n := ord c in
      if n <? 128 then n :: utf8 s
      else (192 + n / 64) :: (128 + n mod 64) :: utf8 s
  end.

Definition WORD : Z := 2 ^ 32.
(** The low 32 bits. *)
Definition MASK : Z := Eval vm_compute in WORD - 1.
Definition add32 (a b : Z) : Z := Z.land (a + b) MASK.
Definition rotr (n x : Z) : Z :=
  Z.lor (Z.shiftr x n) (Z.land (Z.shiftl x (32 - n)) MASK).
Definition xor3 (a b c : Z) : Z := Z.lxor a (Z.lxor b c).
Definition not32 (x : Z) : Z := Z.lxor x MASK.

Definition sigma0 (x : Z) : Z := xor3 (rotr 7 x) (rotr 18 x) (Z.shiftr x 3).
Definition sigma1 (x : Z) : Z := xor3 (rotr 17 x) (rotr 19 x) (Z.shiftr x 10).
Definition Sigma0 (x : Z) : Z := xor3 (rotr 2 x) (rotr 13 x) (rotr 22 x).
Definition Sigma1 (x : Z) : Z := xor3 (rotr 6 x) (rotr 11 x) (rotr 25 x).
Definition Ch (x y z : Z) : Z := Z.lxor (Z.land x y) (Z.land (not32 x) z).
Definition Maj (x y z : Z) : Z := xor3 (Z.land x y) (Z.land x z) (Z.land y z).

(** The constants are the leading 32 bits of the fractional parts of the
    square and cube roots of the first primes; they are computed from that
    definition. *)
Definition is_prime (n : nat) : bool :=
  (2 <=? n)%nat && forallb (fun d => negb (n mod d =? 0)%nat) (List.seq 2 (n - 2)).

Definition primes : list Z := Z.of_nat <$> List.filter is_prime (List.seq 2 310).

(** The largest [r < 2 ^ bits + acc] with [r ^ 3 <= z], bit by bit. *)
Fixpoint cube_root (bits : nat) (acc z : Z) : Z :=
  match bits with
  | O => acc
  | S bits =>
      let next := acc + 2 ^ Z.of_nat bits in
      cube_root bits (if next ^ 3 <=? z then next else acc) z
  end.

Definition cube_fraction (p : Z) : Z := cube_root 36 0 (p * 2 ^ 96) mod WORD.
Definition square_fraction (p : Z) : Z := Z.sqrt (p * 2 ^ 64) mod WORD.

Definition round_constants : list Z :=
  Eval vm_compute in cube_fraction <$> take 64 primes.

Record hash := { h0 : Z; h1 : Z; h2 : Z; h3 : Z; h4 : Z; h5 : Z; h6 : Z; h7 : Z }.

Definition initial_words : list Z :=
  Eval vm_compute in square_fraction <$> take 8 primes.

Definition initial_hash : hash :=
  let w i := default 0 (initial_words !! i) in
  {| h0 := w 0%nat; h1 := w 1%nat; h2 := w 2%nat; h3 := w 3%nat;
     h4 := w 4%nat; h5 := w 5%nat; h6 := w 6%nat; h7 := w 7%nat |}.

(** The message schedule, newest word first. *)
Fixpoint extend_schedule (n : nat) (ws : list Z) : list Z :=
  match n with
  | O => ws
  | S n =>
      let w i := default 0 (ws !! i) in
      extend_schedule n
        (add32 (add32 (sigma1 (w 1%nat)) (w 6%nat)) (add32 (sigma0 (w 14%nat)) (w 15%nat)) :: ws)
  end.

Definition round (h : hash) (kw : Z * Z) : hash :=
  let t1 := add32 (add32 (add32 (h7 h) (Sigma1 (h4 h))) (Ch (h4 h) (h5 h) (h6 h)))
                  (add32 kw.1 kw.2) in
  let t2 := add32 (Sigma0 (h0 h)) (Maj (h0 h) (h1 h) (h2 h)) in
  {| h0 := add32 t1 t2; h1 := h0 h; h2 := h1 h; h3 := h2 h;
     h4 := add32 (h3 h) t1; h5 := h4 h; h6 := h5 h; h7 := h6 h |}.

Definition hash_add (a b : hash) : hash :=
  {| h0 := add32 (h0 a) (h0 b); h1 := add32 (h1 a) (h1 b); h2 := add32 (h2 a) (h2 b);
     h3 := add32 (h3 a) (h3 b); h4 := add32 (h4 a) (h4 b); h5 := add32 (h5 a) (h5 b);
     h6 := add32 (h6 a) (h6 b); h7 := add32 (h7 a) (h7 b) |}.

(** Big-endian words of a block. *)
Fixpoint words (bs : list Z) : list Z :=
  match bs with
  | a :: b :: c :: d :: bs => (a * 2 ^ 24 + b * 2 ^ 16 + c * 2 ^ 8 + d) :: words bs
  | _ => []
  end.

Definition compress (h : hash) (block : list Z) : hash :=
  let ws := List.rev (extend_schedule 48 (List.rev (words block))) in
  hash_add h (List.fold_left round (zip round_constants ws) h).

Fixpoint big_endian (n : nat) (z : Z) : list Z :=
  match n with
  | O => []
  | S n => ((z / 2 ^ (8 * Z.of_nat n)) mod 256) :: big_endian n z
  end.

Definition pad (bs : list Z) : list Z :=
  let len := Z.of_nat (length bs) in
  bs ++ 128 :: replicate (Z.to_nat ((55 - len) mod 64)) 0 ++ big_endian 8 (8 * len).

Fixpoint absorb (blocks : nat) (h : hash) (bs : list Z) : hash :=
  match blocks with
  | O => h
  | S n => absorb n (compress h (take 64 bs)) (drop 64 bs)
  end.

Definition sha256 (bs : list Z) : hash :=
  let padded := pad bs in absorb (length padded / 64) initial_hash padded.

Definition hex_char (n : Z) : ascii :=
  Ascii.ascii_of_N (Z.to_N (if n <? 10 then 48 + n else 87 + n)).

Fixpoint hex_word (n : nat) (w : Z) : string :=
  match n with
  | O => ""
  | S n => String (hex_char ((w / 16 ^ Z.of_nat n) mod 16)) (hex_word n w)
  end.

Definition hexdigest (h : hash) : string :=
  hex_word 8 (h0 h) +:+ (hex_word 8 (h1 h) +:+ (hex_word 8 (h2 h) +:+ (hex_word 8 (h3 h) +:+
  (hex_word 8 (h4 h) +:+ (hex_word 8 (h5 h) +:+ (hex_word 8 (h6 h) +:+ hex_word 8 (h7 h))))))).

Definition sha256_hex (s : string) : string := hexdigest (sha256 (utf8 s)).

(** The published test vectors. *)
Example sha256_abc :
  sha256_hex "abc" = "ba7816bf8f01cfea414140de5dae2223b00361a396177a9cb410ff61f20015ad".
Proof. vm_compute. reflexivity. Qed.

Example sha256_two_blocks :
  sha256_hex "abcdbcdecdefdefgefghfghighijhijkijkljklmklmnlmnomnopnopq"
  = "248d6a61d20638b8e5c026930c3e6039a33ce45964ff2167f6ecedd419db06c1".
Proof. vm_compute. reflexivity. Qed.

(** ** The digest is 64 lower-case hexadecimal digits *)

Lemma hex_char_hex n : 0 <= n < 16 → is_hex_lower (hex_char n) = true.
Proof.
  intros Hn.
  assert (In n [0;1;2;3;4;5;6;7;8;9;10;11;12;13;14;15]) as H by (cbn; lia).
  repeat (destruct H as [<-|H]; [reflexivity|]). done.
Qed.

Lemma hex_word_hex n w : string_forallb is_hex_lower (hex_word n w) = true.
Proof.
  induction n as [|n IH]; [done|]. cbn [hex_word string_forallb].
  rewrite hex_char_hex, IH; [done|]. apply Z.mod_pos_bound. lia.
Qed.

Lemma length_hex_word n w : String.length (hex_word n w) = n.
Proof. induction n as [|n IH]; [done|]. cbn. by rewrite IH. Qed.

Lemma hexdigest_digits h : string_forallb is_hex_lower (hexdigest h) = true.
Proof. unfold hexdigest. by rewrite !string_forallb_app, !hex_word_hex. Qed.

Lemma length_hexdigest h : String.length (hexdigest h) = 64%nat.
Proof. unfold hexdigest. by rewrite !length_append, !length_hex_word. Qed.

Lemma sha256_hex_digits s : string_forallb is_hex_lower (sha256_hex s) = true.
Proof. apply hexdigest_digits. Qed.

Lemma length_sha256_hex s : String.length (sha256_hex s) = 64%nat.
Proof. apply length_hexdigest. Qed.

(** [sha256(raw).hexdigest()] of a byte string. *)
Fixpoint byte_values (raw : string) : list Z :=
  match raw with EmptyString => [] | String c raw => ord c :: byte_values raw end.

Definition sha256_bytes (raw : string) : string := hexdigest (sha256 (byte_values raw)).

Lemma sha256_bytes_digits raw : string_forallb is_hex_lower (sha256_bytes raw) = true.
Proof. apply hexdigest_digits. Qed.

Lemma length_sha256_bytes raw : String.length (sha256_bytes raw) = 64%nat.
Proof. apply length_hexdigest. Qed.

#[global] Opaque sha256_hex sha256_bytes.
