(* ===== verification/Json.v ===== *)
(** * Text and JSON output

    The string methods and the [json.dumps] call the Hive modules use, for
    text whose code points are below 256. *)

From stdpp Require Import pretty.
From S2P Require Import Prelude PyTime Order.
#[local] Open Scope Z_scope.

(** ** String methods *)

Fixpoint string_map (f : ascii → ascii) (s : string) : string :=
  match s with
  | EmptyString => EmptyString
  | String c s => String (f c) (string_map f s)
  end.

Definition char_at (n : Z) : ascii := Ascii.ascii_of_N (Z.to_N n).

Definition lower_char (c : ascii) : ascii :=
  let n := ord c in
  if is_upper c || (in_range 192 222 c && negb (n =? 215)) then char_at (n + 32) else c.

(** [s.lower()]. *)
Definition py_lower : string → string := string_map lower_char.

(** [s.casefold()]: the sharp s folds to [ss].  (The micro sign folds to a
    code point above 255; it is left in place, and matches no marker.) *)
Fixpoint py_casefold (s : string) : string :=
  match s with
  | EmptyString => EmptyString
  | String c s =>
      if ord c =? 223 then "ss" +:+ py_casefold s
      else String (lower_char c) (py_casefold s)
  end.

(** [char.isalnum()]. *)
Definition py_isalnum (c : ascii) : bool :=
  let n := ord c in
  is_lower c || is_upper c || is_digit_char c
  || bool_decide (n ∈ [170; 178; 179; 181; 185; 186; 188; 189; 190])
  || ((192 <=? n) && negb (n =? 215) && negb (n =? 247)).

(** ** [json.dumps(value, ensure_ascii=True, sort_keys=True,
       separators=(",", ":"))] *)

Definition hex4 (n : Z) : string :=
  let h i := let x := (n / 16 ^ i) mod 16 in
             if x <? 10 then digit_char x else char_at (87 + x) in
  String (h 3) (String (h 2) (String (h 1) (String (h 0) ""))).

Definition json_char (c : ascii) : string :=
  let n := ord c in
  let esc d := String "\" (String d "") in
  if n =? 34 then esc (char_at 34)
  else if n =? 92 then esc "\"%char
  else if n =? 10 then esc "n"%char
  else if n =? 13 then esc "r"%char
  else if n =? 9 then esc "t"%char
  else if n =? 12 then esc "f"%char
  else if n =? 8 then esc "b"%char
  else if (32 <=? n) && (n <=? 126) then String c ""
  else "\u" +:+ hex4 n.

Fixpoint json_chars (s : string) : string :=
  match s with
  | EmptyString => EmptyString
  | String c s => json_char c +:+ json_chars s
  end.

Definition quote : string := String (char_at 34) "".
Definition json_string (s : string) : string := quote +:+ (json_chars s +:+ quote).

Fixpoint json_dumps (v : pyval) : string :=
  match v with
  | VNone => "null"
  | VBool b => if b then "true" else "false"
  | VInt z => pretty z
  | VFloat lit => lit
  | VStr s => json_string s
  | VList l => "[" +:+ (py_join "," (json_dumps <$> l) +:+ "]")
  | VDict d =>
      let items := (λ kv, (kv.1, json_dumps kv.2)) <$> d in
      let text := (λ kv, json_string kv.1 +:+ (":" +:+ kv.2))
                    <$> sort_by str_cmp fst items in
      "{" +:+ (py_join "," text +:+ "}")
  end.

(** ** [str(value)] and [repr(value)] *)

Definition hex_digit (x : Z) : ascii := if x <? 10 then digit_char x else char_at (87 + x).

Definition repr_char (q : ascii) (c : ascii) : string :=
  let n := ord c in
  if bool_decide (c = q) || (n =? 92) then String "\" (String c "")
  else if n =? 10 then "\n"
  else if n =? 13 then "\r"
  else if n =? 9 then "\t"
  else if (n <? 32) || ((127 <=? n) && (n <=? 160)) || (n =? 173)
  then "\x" +:+ String (hex_digit (n / 16)) (String (hex_digit (n mod 16)) "")
  else String c "".

Fixpoint repr_chars (q : ascii) (s : string) : string :=
  match s with
  | EmptyString => EmptyString
  | String c s => repr_char q c +:+ repr_chars q s
  end.

(** Single quotes, unless the text has one and no double quote. *)
Definition repr_str (s : string) : string :=
  let q := if has_char "'" s && negb (has_char (char_at 34) s) then char_at 34 else "'"%char in
  String q (repr_chars q s +:+ String q "").

Fixpoint py_repr (v : pyval) : string :=
  match v with
  | VNone => "None"
  | VBool b => if b then "True" else "False"
  | VInt z => pretty z
  | VFloat lit => lit
  | VStr s => repr_str s
  | VList l => "[" +:+ (py_join ", " (py_repr <$> l) +:+ "]")
  | VDict d =>
      "{" +:+ (py_join ", " ((λ kv, repr_str kv.1 +:+ (": " +:+ py_repr kv.2)) <$> d) +:+ "}")
  end.

Definition py_str (v : pyval) : string := match v with VStr s => s | _ => py_repr v end.

Definition sample_json_string : string :=
  String "a" (String (char_at 34) (String (char_at 10) (String (char_at 233) ""))).

Example json_dumps_sample :
  json_dumps (VDict [("b", VList [VInt (-3); VNone]); ("a", VStr sample_json_string)])
  = "{" +:+ quote +:+ "a" +:+ quote +:+ ":" +:+ quote +:+ "a\" +:+ quote +:+ "\n\u00e9"
    +:+ quote +:+ "," +:+ quote +:+ "b" +:+ quote +:+ ":[-3,null]}".
Proof. vm_compute. reflexivity. Qed.
