(* ===== verification/JsonText.v ===== *)
(** * Reading JSON text

    [json.loads], the parser the file-backed stores use, for text whose code
    points are below 256: an escape of a larger code point is outside the
    model and is rejected like malformed text.  Floats are parsed to the
    nearest binary64 number and kept as the literal [repr] gives it.  A text
    nested deeper than the interpreter's recursion limit makes the parser raise
    [RecursionError]: [json_loads_within n] is the parser with [n] levels left,
    which is the interpreter's to choose at each call; [json_loads] is the
    parser on a text that does not reach the limit.  The parser inverts [json.dumps(..., sort_keys=True)] up to the order of
    dictionary keys. *)

From stdpp Require Import pretty.
From S2P Require Import Prelude PyTime Order Json.
#[local] Open Scope Z_scope.

(** ** Floating-point literals *)

Definition pow_ratio (base e : Z) : Z * Z :=
  if 0 <=? e then (base ^ e, 1) else (1, base ^ (- e)).

(** [p / q] rounded to binary64: [k * 2 ^ x], with [None] for infinity. *)
Definition binary64 (p q : Z) : option (Z * Z) :=
  if p =? 0 then Some (0, 0)
  else
    let x := Z.max (-1074) (ratio_log2 p q - 52) in
    let '(up, down) := pow_ratio 2 x in
    let k := half_even (p * down) (q * up) in
    let '(k, x) := if k =? 2 ^ 53 then (2 ^ 52, x + 1) else (k, x) in
    if 971 <? x then None else Some (k, x).

Fixpoint decimal_exponent (fuel : nat) (d p q : Z) : Z :=
  match fuel with
  | O => d
  | S fuel =>
      let '(up, down) := pow_ratio 10 d in
      if p * down <? q * up then
        let '(up, down) := pow_ratio 10 (d - 1) in
        if p * down <? q * up then decimal_exponent fuel (d - 1) p q else d
      else decimal_exponent fuel (d + 1) p q
  end.

(** The shortest decimal [c * 10 ^ (d - n)] that rounds to [k * 2 ^ x]. *)
Fixpoint shortest (tries : nat) (n d p q : Z) (kx : Z * Z) : Z * Z :=
  match tries with
  | O => (0, n)
  | S tries =>
      let '(up, down) := pow_ratio 10 (d - n) in
      let rounds c := bool_decide (binary64 (c * up) down = Some kx) in
      let low := p * down / (q * up) in
      let near := half_even (p * down) (q * up) in
      let other := if near =? low then low + 1 else low in
      if rounds near then (near, n)
      else if rounds other then (other, n)
      else shortest tries (n + 1) d p q kx
  end.

Fixpoint strip_zeros (fuel : nat) (c n : Z) : Z * Z :=
  match fuel with
  | O => (c, n)
  | S fuel => if (c mod 10 =? 0) && (1 <? n) then strip_zeros fuel (c / 10) (n - 1) else (c, n)
  end.

Definition zeros (n : Z) : string := digits (Z.to_nat n) 0.

(** [repr] of a positive float with digits [ds] and decimal point [decpt]. *)
Definition format_float (ds : string) (decpt : Z) : string :=
  let n := py_len ds in
  if (-4 <? decpt) && (decpt <=? 16) then
    if decpt <=? 0 then "0." +:+ (zeros (- decpt) +:+ ds)
    else if n <=? decpt then ds +:+ (zeros (decpt - n) +:+ ".0")
    else String.substring 0 (Z.to_nat decpt) ds
         +:+ ("." +:+ String.substring (Z.to_nat decpt) (Z.to_nat (n - decpt)) ds)
  else
    let e := decpt - 1 in
    let mantissa :=
      match ds with
      | String c EmptyString => String c EmptyString
      | String c rest => String c ("." +:+ rest)
      | EmptyString => ""
      end in
    let width := if Z.abs e <? 10 then "0" +:+ pretty (Z.abs e) else pretty (Z.abs e) in
    mantissa +:+ ((if e <? 0 then "e-" else "e+") +:+ width).

(** [repr(float(text))] for the decimal [m * 10 ^ e]. *)
Definition float_repr (neg : bool) (m e : Z) : string :=
  let sign := if neg then "-" else "" in
  let '(up, down) := pow_ratio 10 e in
  match binary64 (m * up) down with
  | None => sign +:+ "inf"
  | Some (k, x) =>
      if k =? 0 then sign +:+ "0.0"
      else
        let '(up, down) := pow_ratio 2 x in
        let p := k * up in
        let d := decimal_exponent 400 ((ratio_log2 p down) * 30103 / 100000) p down in
        let '(c, n) := shortest 17 1 d p down (k, x) in
        let '(c, d) := if 10 ^ n <=? c then (c / 10, d + 1) else (c, d) in
        let '(c, n) := strip_zeros 17 c n in
        sign +:+ format_float (digits (Z.to_nat n) c) d
  end.

Example float_repr_samples :
  float_repr false 1 0 = "1.0" ∧ float_repr false 1 (-1) = "0.1"
  ∧ float_repr true 150 (-2) = "-1.5" ∧ float_repr false 1 16 = "1e+16"
  ∧ float_repr false 123456789012345678 0 = "1.2345678901234568e+17"
  ∧ float_repr false 5 (-324) = "5e-324" ∧ float_repr false 1 (-5) = "1e-05"
  ∧ float_repr false 2 308 = "inf" ∧ float_repr false 9999999999999999 (-1) = "999999999999999.9"
  ∧ float_repr false 1 (-400) = "0.0" ∧ float_repr false 17976931348623157 292 = "1.7976931348623157e+308".
Proof. vm_compute. repeat split. Qed.

(** ** The scanner *)

Definition decode_error {A} : result A := Err (JSONDecodeError "malformed JSON").

Definition is_ws (c : ascii) : bool := bool_decide (ord c ∈ [32; 9; 10; 13]).

Fixpoint skip_ws (s : string) : string :=
  match s with
  | String c rest => if is_ws c then skip_ws rest else s
  | EmptyString => EmptyString
  end.

(** The longest prefix whose characters satisfy [p], and the rest. *)
Fixpoint span (p : ascii → bool) (s : string) : string * string :=
  match s with
  | String c rest =>
      if p c then let '(a, b) := span p rest in (String c a, b) else ("", s)
  | EmptyString => ("", "")
  end.

Definition hex_value (c : ascii) : option Z :=
  if is_digit_char c then Some (ord c - 48)
  else if in_range 97 102 c then Some (ord c - 87)
  else if in_range 65 70 c then Some (ord c - 55)
  else None.

Definition hex4_char (a b c d : ascii) : result ascii :=
  match hex_value a, hex_value b, hex_value c, hex_value d with
  | Some a, Some b, Some c, Some d =>
      let n := ((a * 16 + b) * 16 + c) * 16 + d in
      if n <? 256 then Ok (char_at n) else decode_error
  | _, _, _, _ => decode_error
  end.

Definition escape_char (c : ascii) : result ascii :=
  let n := ord c in
  if bool_decide (n ∈ [34; 92; 47]) then Ok c
  else if n =? 98 then Ok (char_at 8)
  else if n =? 102 then Ok (char_at 12)
  else if n =? 110 then Ok (char_at 10)
  else if n =? 114 then Ok (char_at 13)
  else if n =? 116 then Ok (char_at 9)
  else decode_error.

Definition cons_char (c : ascii) (r : result (string * string)) : result (string * string) :=
  '(s, rest) ← r; Ok (String c s, rest).

(** The text after an opening quote, up to the closing one. *)
Fixpoint scanstring (s : string) : result (string * string) :=
  match s with
  | EmptyString => decode_error
  | String c s1 =>
      if ord c =? 34 then Ok ("", s1)
      else if ord c <? 32 then decode_error
      else if ord c =? 92 then
        match s1 with
        | EmptyString => decode_error
        | String e s2 =>
            if ord e =? 117 then
              match s2 with
              | String h1 (String h2 (String h3 (String h4 s3))) =>
                  c ← hex4_char h1 h2 h3 h4; cons_char c (scanstring s3)
              | _ => decode_error
              end
            else c ← escape_char e; cons_char c (scanstring s2)
        end
      else cons_char c (scanstring s1)
  end.

Fixpoint digits_value (acc : Z) (s : string) : Z :=
  match s with
  | String c s => digits_value (acc * 10 + (ord c - 48)) s
  | EmptyString => acc
  end.

(** [\.\d+]. *)
Definition scan_frac (s : string) : option string * string :=
  match s with
  | String c rest =>
      if ord c =? 46 then
        match span is_digit_char rest with
        | (EmptyString, _) => (None, s)
        | (ds, rest) => (Some ds, rest)
        end
      else (None, s)
  | EmptyString => (None, s)
  end.

(** An optional sign. *)
Definition scan_sign (s : string) : bool * string :=
  match s with
  | String c rest =>
      if ord c =? 45 then (true, rest) else if ord c =? 43 then (false, rest) else (false, s)
  | EmptyString => (false, s)
  end.

(** [[eE][-+]?\d+]. *)
Definition scan_exp (s : string) : option Z * string :=
  match s with
  | String c rest =>
      if bool_decide (ord c ∈ [101; 69]) then
        let '(neg, digits) := scan_sign rest in
        match span is_digit_char digits with
        | (EmptyString, _) => (None, s)
        | (ds, rest) => (Some (if neg then - digits_value 0 ds else digits_value 0 ds), rest)
        end
      else (None, s)
  | EmptyString => (None, s)
  end.

(** The fraction and the exponent after the integer part [whole].  [int]
    refuses more than 4300 digits. *)
Definition scan_tail (neg : bool) (whole rest : string) : result (pyval * string) :=
  let '(frac, rest) := scan_frac rest in
  let '(exponent, rest) := scan_exp rest in
  match frac, exponent with
  | None, None =>
      if 4300 <? py_len whole then Err (ValueError "Exceeds the limit for integer string conversion")
      else let n := digits_value 0 whole in Ok (VInt (if neg then - n else n), rest)
  | _, _ =>
      let fr := default "" frac in
      Ok (VFloat (float_repr neg (digits_value 0 (whole +:+ fr))
                    (default 0 exponent - py_len fr)), rest)
  end.

(** A number after its minus sign: [0|[1-9]\d*] comes first. *)
Definition scan_magnitude (neg : bool) (s : string) : result (pyval * string) :=
  match span is_digit_char s with
  | (EmptyString, _) => decode_error
  | (String c ds, rest) =>
      if ord c =? 48 then scan_tail neg "0" (ds +:+ rest) else scan_tail neg (String c ds) rest
  end.

Definition scan_number (s : string) : result (pyval * string) :=
  match s with
  | String c rest => if ord c =? 45 then scan_magnitude true rest else scan_magnitude false s
  | EmptyString => decode_error
  end.

(** The constants, [NaN] and the infinities included. *)
Definition constants : list (string * pyval) :=
  [("null", VNone); ("true", VBool true); ("false", VBool false); ("NaN", VFloat "nan");
   ("Infinity", VFloat "inf"); ("-Infinity", VFloat "-inf")].

(** What follows the prefix [p] of [s]. *)
Fixpoint strip_prefix (p s : string) : option string :=
  match p, s with
  | EmptyString, _ => Some s
  | String a p, String b s => if bool_decide (a = b) then strip_prefix p s else None
  | _, _ => None
  end.

Fixpoint scan_constant (l : list (string * pyval)) (s : string) : option (pyval * string) :=
  match l with
  | [] => None
  | (text, v) :: l =>
      match strip_prefix text s with
      | Some rest => Some (v, rest)
      | None => scan_constant l s
      end
  end.

Definition out_of_fuel {A} : result A := Err (AssertionError "fuel").

(** The scanner recurses into each object and each array it meets, and raises
    [RecursionError] when the interpreter's limit is reached.  [Some n]: [n]
    more levels are left; [None]: no limit is met. *)
Definition descend (container : string) (depth : option nat) : result (option nat) :=
  match depth with
  | None => Ok None
  | Some O => Err (RecursionError ("maximum recursion depth exceeded while decoding a JSON "
                                   +:+ (container +:+ " from a unicode string")))
  | Some (S n) => Ok (Some n)
  end.

Fixpoint scan_once (fuel : nat) (depth : option nat) (s : string) : result (pyval * string) :=
  match fuel with
  | O => out_of_fuel
  | S fuel =>
      match s with
      | EmptyString => decode_error
      | String c rest =>
          if ord c =? 34 then '(text, rest) ← scanstring rest; Ok (VStr text, rest)
          else if ord c =? 123 then
            depth ← descend "object" depth;
            match skip_ws rest with
            | String d rest' =>
                if ord d =? 125 then Ok (VDict [], rest')
                else '(members, rest) ← scan_members fuel depth [] (String d rest');
                     Ok (VDict members, rest)
            | EmptyString => decode_error
            end
          else if ord c =? 91 then
            depth ← descend "array" depth;
            match skip_ws rest with
            | String d rest' =>
                if ord d =? 93 then Ok (VList [], rest')
                else '(elements, rest) ← scan_elements fuel depth (String d rest');
                     Ok (VList elements, rest)
            | EmptyString => decode_error
            end
          else
            match scan_constant constants s with
            | Some found => Ok found
            | None => scan_number s
            end
      end
  end
with scan_elements (fuel : nat) (depth : option nat) (s : string) : result (list pyval * string) :=
  match fuel with
  | O => out_of_fuel
  | S fuel =>
      '(v, rest) ← scan_once fuel depth s;
      match skip_ws rest with
      | String c rest =>
          if ord c =? 93 then Ok ([v], rest)
          else if ord c =? 44 then
            '(vs, rest) ← scan_elements fuel depth (skip_ws rest); Ok (v :: vs, rest)
          else decode_error
      | EmptyString => decode_error
      end
  end
with scan_members (fuel : nat) (depth : option nat) (acc : list (string * pyval)) (s : string)
  : result (list (string * pyval) * string) :=
  match fuel with
  | O => out_of_fuel
  | S fuel =>
      match s with
      | EmptyString => decode_error
      | String c rest =>
          if ord c =? 34 then
            '(key, rest) ← scanstring rest;
            match skip_ws rest with
            | EmptyString => decode_error
            | String c rest =>
                if ord c =? 58 then
                  '(v, rest) ← scan_once fuel depth (skip_ws rest);
                  let acc := dict_set key v acc in
                  match skip_ws rest with
                  | EmptyString => decode_error
                  | String c rest =>
                      if ord c =? 125 then Ok (acc, rest)
                      else if ord c =? 44 then scan_members fuel depth acc (skip_ws rest)
                      else decode_error
                  end
                else decode_error
            end
          else decode_error
      end
  end.

(** [json.loads(text)].  A level of nesting costs two steps and at least one
    character. *)
Definition json_loads_at (depth : option nat) (s : string) : result pyval :=
  '(v, rest) ← scan_once (2 * String.length s + 1) depth (skip_ws s);
  match skip_ws rest with
  | EmptyString => Ok v
  | _ => decode_error
  end.

Definition json_loads_within (nesting : nat) (s : string) : result pyval := json_loads_at (Some nesting) s.
Definition json_loads (s : string) : result pyval := json_loads_at None s.

(** ** Scanning what [json.dumps] wrote *)

Lemma scanstring_char c t : scanstring (json_char c +:+ t) = cons_char c (scanstring t).
Proof. destruct c as [[] [] [] [] [] [] [] []]; reflexivity. Qed.

Lemma scanstring_chars s rest :
  scanstring (json_chars s +:+ (quote +:+ rest)) = Ok (s, rest).
Proof.
  induction s as [|c s IH]; [reflexivity|].
  cbn [json_chars]. rewrite append_assoc, scanstring_char, IH. done.
Qed.

Definition stops (p : ascii → bool) (s : string) : bool :=
  match s with String c _ => negb (p c) | EmptyString => true end.

Lemma span_app p s rest :
  stops p rest = true ∨ (span p s).2 ≠ "" →
  span p (s +:+ rest) = ((span p s).1, (span p s).2 +:+ rest).
Proof.
  intros Hr. induction s as [|c s IH]; rewrite ?append_cons, ?append_nil_l; cbn in *;
    rewrite ?append_nil_l.
  - destruct Hr as [Hr|[]]; [|done]. destruct rest as [|d rest]; cbn in *; [done|].
    by destruct (p d).
  - destruct (p c); cbn in *; [|done]. destruct (span p s) as [a b]. by rewrite IH.
Qed.

Lemma span_forallb p s : string_forallb p s = true → span p s = (s, "").
Proof.
  induction s as [|c s IH]; cbn; [done|]. intros [-> Hs]%andb_true_iff. by rewrite IH.
Qed.

(** What may follow a number: not a character that would extend it. *)
Definition extends_number (c : ascii) : bool :=
  is_digit_char c || bool_decide (ord c ∈ [46; 101; 69]).

Definition follow (rest : string) : Prop := stops extends_number rest = true.

Lemma follow_digit rest : follow rest → stops is_digit_char rest = true.
Proof.
  unfold follow, extends_number. destruct rest as [|c rest]; cbn; [done|].
  by destruct (is_digit_char c).
Qed.

Lemma scan_frac_app s rest :
  follow rest → scan_frac (s +:+ rest) = ((scan_frac s).1, (scan_frac s).2 +:+ rest).
Proof.
  intros Hf. destruct s as [|c s]; rewrite ?append_cons, ?append_nil_l; cbn;
    rewrite ?append_nil_l.
  - destruct rest as [|d rest]; cbn; [done|]. case_match eqn:Hd; [|done].
    exfalso. apply Z.eqb_eq in Hd. revert Hf. unfold follow, stops, extends_number.
    rewrite Hd. by rewrite (bool_decide_eq_true_2 (46 ∈ _)), orb_true_r by set_solver.
  - case_match; [|done]. rewrite span_app by (left; by apply follow_digit).
    by destruct (span is_digit_char s) as [[|d ds] r].
Qed.

Lemma scan_sign_app s rest :
  s ≠ "" → scan_sign (s +:+ rest) = ((scan_sign s).1, (scan_sign s).2 +:+ rest).
Proof. destruct s as [|c s]; [done|]. rewrite append_cons. cbn. intros _. by repeat case_match. Qed.

Lemma scan_exp_app s rest :
  (scan_exp s).2 = "" → follow rest → scan_exp (s +:+ rest) = ((scan_exp s).1, rest).
Proof.
  intros He Hf. destruct s as [|c s]; rewrite ?append_cons, ?append_nil_l; cbn in *.
  - destruct rest as [|d rest]; cbn; [done|]. case_match eqn:Hd; [|done].
    exfalso. apply bool_decide_eq_true in Hd. revert Hf. unfold follow, stops, extends_number.
    by rewrite (bool_decide_eq_true_2 (ord d ∈ [46; 101; 69])), orb_true_r by set_solver.
  - case_match; [|done]. destruct s as [|d s]; [done|].
    rewrite scan_sign_app by done.
    destruct (scan_sign (String d s)) as [neg s'] eqn:Hs. cbn [fst snd].
    rewrite span_app by (left; by apply follow_digit).
    destruct (span is_digit_char s') as [[|e ds] r]; cbn in *; [done|]. by subst r.
Qed.

Lemma scan_tail_app neg whole s v rest :
  scan_tail neg whole s = Ok (v, "") → follow rest →
  scan_tail neg whole (s +:+ rest) = Ok (v, rest).
Proof.
  unfold scan_tail. intros Hs Hf. rewrite scan_frac_app by done.
  destruct (scan_frac s) as [fr r1]. cbn [fst snd].
  pose proof (scan_exp_app r1 rest) as He.
  destruct (scan_exp r1) as [ex r2]; cbn [fst snd] in He.
  assert (r2 = "") as -> by (destruct fr, ex; try case_match; by simplify_eq).
  rewrite He by done. destruct fr, ex; try case_match; by simplify_eq.
Qed.

Lemma scan_magnitude_app neg s v rest :
  scan_magnitude neg s = Ok (v, "") → follow rest →
  scan_magnitude neg (s +:+ rest) = Ok (v, rest).
Proof.
  unfold scan_magnitude. intros Hs Hf.
  rewrite span_app by (left; by apply follow_digit).
  destruct (span is_digit_char s) as [[|c ds] r]; [done|]. cbn [fst snd].
  destruct (ord c =? 48); [rewrite <- append_assoc|]; by apply scan_tail_app.
Qed.

Lemma scan_number_app s v rest :
  scan_number s = Ok (v, "") → follow rest → scan_number (s +:+ rest) = Ok (v, rest).
Proof.
  destruct s as [|c s]; [done|]. unfold scan_number.
  change (String c s +:+ rest) with (String c (s +:+ rest)). cbv iota beta.
  destruct (ord c =? 45); [apply scan_magnitude_app|].
  change (String c (s +:+ rest)) with (String c s +:+ rest). apply scan_magnitude_app.
Qed.

(** *** Integers *)

Lemma pretty_N_go_ind (P : N → string → string → Prop) :
  (∀ s, P 0%N s s) →
  (∀ x s r, (0 < x)%N → P (x `div` 10)%N (String (pretty_N_char (x `mod` 10)) s) r → P x s r) →
  ∀ x s, P x s (pretty_N_go x s).
Proof.
  intros H0 HS x. induction (N.lt_wf_0 x) as [x _ IH]; intros s.
  destruct (decide (x = 0)%N) as [->|Hx]; [apply H0|].
  rewrite pretty_N_go_step by lia. apply HS; [lia|]. apply IH, N.div_lt; lia.
Qed.

Lemma pretty_N_char_spec x :
  (x < 10)%N → is_digit_char (pretty_N_char x) = true ∧ ord (pretty_N_char x) = 48 + Z.of_N x.
Proof.
  intros Hx. assert (x ∈ [0; 1; 2; 3; 4; 5; 6; 7; 8; 9])%N as H.
  { assert (x = 0 ∨ x = 1 ∨ x = 2 ∨ x = 3 ∨ x = 4 ∨ x = 5 ∨ x = 6 ∨ x = 7 ∨ x = 8 ∨ x = 9)%N
      by lia. set_solver. }
  repeat (apply elem_of_cons in H as [->|H]; [done|]). by apply not_elem_of_nil in H.
Qed.

Lemma pretty_N_go_digits x s :
  string_forallb is_digit_char s = true → string_forallb is_digit_char (pretty_N_go x s) = true.
Proof.
  revert x s. apply (pretty_N_go_ind (λ _ s r, string_forallb is_digit_char s = true →
    string_forallb is_digit_char r = true)); [done|].
  intros x s r _ IH Hs. apply IH. cbn.
  by rewrite (proj1 (pretty_N_char_spec (x `mod` 10) ltac:(by apply N.mod_lt))).
Qed.

Lemma pretty_N_go_value x s :
  digits_value 0 (pretty_N_go x s) = digits_value (Z.of_N x) s.
Proof.
  revert x s. apply (pretty_N_go_ind (λ x s r, digits_value 0 r = digits_value (Z.of_N x) s));
    [done|].
  intros x s r _ ->. cbn.
  rewrite (proj2 (pretty_N_char_spec (x `mod` 10) ltac:(by apply N.mod_lt))). f_equal.
  rewrite (N.div_mod x 10) at 3 by done. lia.
Qed.

Lemma pretty_N_go_head x s :
  (0 < x)%N → ∃ c r, pretty_N_go x s = String c r ∧ ord c ≠ 48.
Proof.
  revert s. induction (N.lt_wf_0 x) as [x _ IH]; intros s Hx.
  rewrite pretty_N_go_step by done.
  destruct (decide (x < 10)%N) as [Hlt|Hge].
  - rewrite N.div_small, N.mod_small, pretty_N_go_0 by done.
    eexists _, _. split; [done|]. rewrite (proj2 (pretty_N_char_spec x Hlt)). lia.
  - apply IH; [apply N.div_lt; lia|]. apply N.div_str_pos. lia.
Qed.

Lemma pretty_N_go_length x k s :
  (x < 10 ^ N.of_nat k)%N → (String.length (pretty_N_go x s) <= k + String.length s)%nat.
Proof.
  revert x s. induction k as [|k IH]; intros x s Hx.
  - assert (x = 0)%N as -> by lia. by rewrite pretty_N_go_0.
  - destruct (decide (x = 0)%N) as [->|Hne]; [rewrite pretty_N_go_0; lia|].
    rewrite pretty_N_go_step by lia. etrans; [apply IH|cbn; lia].
    apply N.Div0.div_lt_upper_bound. rewrite Nat2N.inj_succ, N.pow_succ_r' in Hx. lia.
Qed.

Lemma scan_magnitude_digits neg ds c r :
  ds = String c r → string_forallb is_digit_char ds = true → (ord c ≠ 48 ∨ r = "") →
  py_len ds <= 4300 →
  scan_magnitude neg ds = Ok (VInt (if neg then - digits_value 0 ds else digits_value 0 ds), "").
Proof.
  intros Hds Hall Hc Hlen. unfold scan_magnitude. rewrite span_forallb by done. rewrite Hds.
  destruct (Z.eqb_spec (ord c) 48) as [H48|H48].
  - destruct Hc as [Hc|Hc]; [done|subst r].
    assert (c = "0"%char) as -> by (by apply ord_inj). reflexivity.
  - unfold scan_tail. cbn [scan_frac scan_exp]. rewrite <- Hds.
    destruct (Z.ltb_spec 4300 (py_len ds)); [lia|]. done.
Qed.

Definition INT_BOUND : Z := 10 ^ 19.

Lemma scan_magnitude_N neg n :
  Z.of_N n < INT_BOUND →
  scan_magnitude neg (pretty n) = Ok (VInt (if neg then - Z.of_N n else Z.of_N n), "").
Proof.
  intros Hb. unfold pretty, pretty_N. case_decide as Hn.
  { subst. destruct neg; reflexivity. }
  assert (0 < n)%N as Hpos by (clear Hb; lia).
  destruct (pretty_N_go_head n "" Hpos) as (c & r & Hcr & Hc).
  rewrite (scan_magnitude_digits neg _ c r Hcr);
    [|by apply pretty_N_go_digits|by left|].
  - by rewrite pretty_N_go_value.
  - unfold py_len. pose proof (pretty_N_go_length n 19 "") as H. cbn [String.length] in H.
    assert (n < 10 ^ N.of_nat 19)%N by (unfold INT_BOUND in Hb; lia).
    specialize (H ltac:(done)). lia.
Qed.

Lemma pretty_N_head (n : N) : ∃ c r, pretty n = String c r ∧ is_digit_char c = true.
Proof.
  unfold pretty, pretty_N. case_decide; [by eexists _, _|].
  destruct (pretty_N_go_head n "") as (c & r & Hcr & _); [lia|].
  exists c, r. split; [done|]. pose proof (pretty_N_go_digits n "" eq_refl) as Hds.
  rewrite Hcr in Hds. cbn in Hds. by apply andb_true_iff in Hds as [? _].
Qed.

Lemma is_digit_char_ord c : is_digit_char c = true ↔ 48 <= ord c <= 57.
Proof. unfold is_digit_char, in_range. rewrite andb_true_iff, !Z.leb_le. done. Qed.

Lemma scan_number_int z : Z.abs z < INT_BOUND → scan_number (pretty z) = Ok (VInt z, "").
Proof.
  intros Hz. destruct z as [|p|p]; [reflexivity|..].
  - change (pretty (Z.pos p)) with (pretty (N.pos p)).
    destruct (pretty_N_head (N.pos p)) as (c & r & Hcr & Hd).
    rewrite Hcr. unfold scan_number. apply is_digit_char_ord in Hd.
    destruct (Z.eqb_spec (ord c) 45); [lia|]. rewrite <- Hcr.
    by rewrite scan_magnitude_N.
  - change (pretty (Z.neg p)) with (String "-" (pretty (N.pos p))).
    unfold scan_number. change (ord "-" =? 45) with true. cbv iota.
    by rewrite scan_magnitude_N.
Qed.

(** *** Values *)

(** [v] as [json.dumps] can write it and [json.loads] reads it back: keys are
    distinct, integers and float literals are in range. *)
Fixpoint jsonable (v : pyval) : Prop :=
  match v with
  | VNone | VBool _ | VStr _ => True
  | VInt z => Z.abs z < INT_BOUND
  | VFloat lit => scan_number lit = Ok (VFloat lit, "")
  | VList l => foldr (λ v P, jsonable v ∧ P) True l
  | VDict d => NoDup d.*1 ∧ foldr (λ kv P, jsonable kv.2 ∧ P) True d
  end.

(** The value read back: the keys of every dictionary in order. *)
Fixpoint json_canonical (v : pyval) : pyval :=
  match v with
  | VList l => VList (json_canonical <$> l)
  | VDict d => VDict (sort_by str_cmp fst ((λ kv, (kv.1, json_canonical kv.2)) <$> d))
  | v => v
  end.

Lemma foldr_and_Forall {A} (P : A → Prop) l : foldr (λ v Q, P v ∧ Q) True l ↔ Forall P l.
Proof.
  induction l as [|x l IH]; cbn; [split; [constructor|done]|]. rewrite Forall_cons. tauto.
Qed.

Lemma insert_by_map_snd {V W} (f : V → W) (x : string * V) l :
  insert_by str_cmp fst (x.1, f x.2) ((λ kv, (kv.1, f kv.2)) <$> l)
  = (λ kv, (kv.1, f kv.2)) <$> insert_by str_cmp fst x l.
Proof. induction l as [|y l IH]; [done|]. cbn. destruct (cmp_ltb _ _ _); [done|]. cbn. by f_equal. Qed.

Lemma sort_by_map_snd {V W} (f : V → W) (l : list (string * V)) :
  sort_by str_cmp fst ((λ kv, (kv.1, f kv.2)) <$> l)
  = (λ kv, (kv.1, f kv.2)) <$> sort_by str_cmp fst l.
Proof.
  unfold sort_by. change (@nil (string * W)) with ((λ kv : string * V, (kv.1, f kv.2)) <$> []).
  generalize (@nil (string * V)). induction l as [|x l IH]; intros acc; [done|].
  cbn [foldl fmap list_fmap]. by rewrite insert_by_map_snd, IH.
Qed.

(** Nothing [json.dumps] writes starts with white space or a closing bracket. *)
Definition opens (s : string) : Prop :=
  ∃ c r, s = String c r ∧ is_ws c = false ∧ ord c ≠ 93 ∧ ord c ≠ 125.

Lemma digit_or_minus_opens c r : is_digit_char c = true ∨ ord c = 45 → opens (String c r).
Proof.
  intros H. exists c, r. rewrite is_digit_char_ord in H. split_and!; [done| |lia..].
  unfold is_ws. apply bool_decide_eq_false_2. set_unfold. lia.
Qed.

(** A whole number starts with a digit, or with a minus sign and a digit. *)
Lemma scan_magnitude_head neg s v r :
  scan_magnitude neg s = Ok (v, r) → ∃ c s', s = String c s' ∧ is_digit_char c = true.
Proof.
  unfold scan_magnitude. destruct s as [|c s]; [done|]. cbn.
  destruct (is_digit_char c) eqn:Hc; [|done]. destruct (span _ s). by eauto.
Qed.

Lemma scan_number_head s v r :
  scan_number s = Ok (v, r) →
  (∃ c s', s = String c s' ∧ is_digit_char c = true)
  ∨ (∃ c s', s = String "-" (String c s') ∧ is_digit_char c = true).
Proof.
  unfold scan_number. destruct s as [|c s]; [done|].
  destruct (Z.eqb_spec (ord c) 45) as [H45|]; intros H%scan_magnitude_head; [|by left].
  assert (c = "-"%char) as -> by (by apply ord_inj).
  right. destruct H as (d & s' & -> & ?). by exists d, s'.
Qed.

Lemma is_digit_char_cases c : is_digit_char c = true → c ∈ ["0"; "1"; "2"; "3"; "4"; "5"; "6"; "7"; "8"; "9"]%char.
Proof. destruct c as [[] [] [] [] [] [] [] []]; intros H; first [discriminate H|set_solver]. Qed.

Lemma scan_constant_number s v r rest :
  scan_number s = Ok (v, r) → scan_constant constants (s +:+ rest) = None.
Proof.
  intros [(c & s' & -> & Hc)|(c & s' & -> & Hc)]%scan_number_head;
    apply is_digit_char_cases in Hc; rewrite !append_cons;
    repeat (apply elem_of_cons in Hc as [->|Hc]; [reflexivity|]); by apply not_elem_of_nil in Hc.
Qed.

Lemma scan_once_number fuel depth lit v rest :
  scan_number lit = Ok (v, "") → follow rest → scan_once (S fuel) depth (lit +:+ rest) = Ok (v, rest).
Proof.
  intros Hs Hf. pose proof (scan_constant_number _ _ _ rest Hs) as Hc.
  pose proof (scan_number_app _ _ rest Hs Hf) as Hn.
  apply scan_number_head in Hs as [(c & s' & -> & Hd)|(c & s' & -> & Hd)];
    rewrite !append_cons in *; cbn [scan_once]; rewrite Hc, Hn; [|reflexivity].
  apply is_digit_char_ord in Hd.
  by rewrite !(proj2 (Z.eqb_neq _ _)) by lia.
Qed.

Lemma json_dumps_opens v : jsonable v → opens (json_dumps v).
Proof.
  destruct v as [|b|z|lit|s|l|d]; cbn [jsonable json_dumps]; intros Hj.
  - by eexists _, _.
  - destruct b; by eexists _, _.
  - apply scan_number_int, scan_number_head in Hj as [(c & r & -> & Hc)|(c & r & -> & _)];
      apply digit_or_minus_opens; auto.
  - apply scan_number_head in Hj as [(c & r & -> & Hc)|(c & r & -> & _)];
      apply digit_or_minus_opens; auto.
  - by eexists _, _.
  - by eexists _, _.
  - by eexists _, _.
Qed.

Lemma skip_ws_opens s t : opens s → skip_ws (s +:+ t) = s +:+ t.
Proof. intros (c & r & -> & Hc & _). rewrite append_cons. cbn. by rewrite Hc. Qed.

(** The objects and arrays a value is nested in at its deepest. *)
Fixpoint nesting (v : pyval) : nat :=
  match v with
  | VList l => S (foldr (λ v n, max (nesting v) n) 0%nat l)
  | VDict d => S (foldr (λ kv n, max (nesting kv.2) n) 0%nat d)
  | _ => 0
  end.

Definition admits (depth : option nat) (n : nat) : Prop :=
  match depth with None => True | Some m => (n <= m)%nat end.

Lemma admits_le depth n m : admits depth n → (m <= n)%nat → admits depth m.
Proof. destruct depth; cbn; [lia|done]. Qed.

Lemma descend_admits c depth n : admits depth (S n) →
  ∃ depth', descend c depth = Ok depth' ∧ admits depth' n.
Proof. destruct depth as [[|m]|]; cbn; [lia|..]; intros H; eexists; (split; [done|]); cbn; [lia|done]. Qed.

Lemma foldr_max_le {A} (f : A → nat) l n : (foldr (λ v n, max (f v) n) 0%nat l <= n)%nat ↔ Forall (λ v, (f v <= n)%nat) l.
Proof. induction l as [|v l IH]; cbn; rewrite ?Forall_nil, ?Forall_cons, <-?IH; [split; [done|lia]|lia]. Qed.

Definition scans (v : pyval) : Prop := ∀ fuel depth rest,
  (String.length (json_dumps v) <= fuel)%nat → admits depth (nesting v) → follow rest →
  scan_once fuel depth (json_dumps v +:+ rest) = Ok (json_canonical v, rest).

Lemma py_join_cons sep p q ps : py_join sep (p :: q :: ps) = p +:+ (sep +:+ py_join sep (q :: ps)).
Proof. done. Qed.

Lemma scan_elements_join v l fuel depth rest :
  Forall scans (v :: l) → Forall (opens ∘ json_dumps) (v :: l) →
  Forall (λ v, admits depth (nesting v)) (v :: l) →
  (String.length (py_join "," (json_dumps <$> v :: l)) < fuel)%nat →
  scan_elements fuel depth (py_join "," (json_dumps <$> v :: l) +:+ String "]" rest)
  = Ok (json_canonical <$> v :: l, rest).
Proof.
  revert v fuel. induction l as [|w l IH]; intros v fuel [Hv Hs]%Forall_cons [Ho Hos]%Forall_cons [Hn Hns]%Forall_cons Hl;
    (destruct fuel as [|fuel]; [lia|]); cbn [scan_elements].
  - cbn [fmap list_fmap py_join] in *. rewrite (Hv fuel depth) by (done || lia). reflexivity.
  - rewrite !fmap_cons, py_join_cons in *. rewrite <- !fmap_cons in *.
    rewrite !length_append in Hl. cbn [String.length] in Hl.
    rewrite !append_assoc, append_cons, append_nil_l. rewrite (Hv fuel depth) by (done || lia).
    rewrite bind_ret. cbn [skip_ws]. change (is_ws ",") with false. cbv iota.
    change (ord "," =? 93) with false. change (ord "," =? 44) with true. cbv iota.
    assert (∀ t, skip_ws (py_join "," (json_dumps <$> w :: l) +:+ t)
      = py_join "," (json_dumps <$> w :: l) +:+ t) as ->.
    { intros t. apply Forall_cons in Hos as [Hw _]. destruct l as [|x l]; [by apply skip_ws_opens|].
      rewrite !fmap_cons, py_join_cons, append_assoc. by apply skip_ws_opens. }
    rewrite IH by (done || lia). done.
Qed.

Definition member_text (kv : string * pyval) : string :=
  json_string kv.1 +:+ (":" +:+ json_dumps kv.2).

Lemma dict_set_fresh {V} k (v : V) d : k ∉ d.*1 → dict_set k v d = d ++ [(k, v)].
Proof.
  induction d as [|[k' v'] d IH]; cbn; [done|]. rewrite not_elem_of_cons. intros [Hne Hni].
  simpl_bd. by rewrite IH.
Qed.

Definition canonical_member (kv : string * pyval) : string * pyval :=
  (kv.1, json_canonical kv.2).

(** One member: its key, the colon and the value. *)
Lemma scan_members_step kv acc fuel depth rest :
  scans kv.2 → opens (json_dumps kv.2) →
  (String.length (member_text kv) <= fuel)%nat → admits depth (nesting kv.2) → follow rest →
  scan_members (S fuel) depth acc (member_text kv +:+ rest) =
    (let acc := dict_set kv.1 (json_canonical kv.2) acc in
     match skip_ws rest with
     | EmptyString => decode_error
     | String c rest =>
         if ord c =? 125 then Ok (acc, rest)
         else if ord c =? 44 then scan_members fuel depth acc (skip_ws rest)
         else decode_error
     end).
Proof.
  intros Hv Ho Hl Hn Hf. unfold member_text, json_string, quote in *.
  rewrite !length_append in Hl. cbn [String.length] in Hl.
  rewrite !append_cons, !append_nil_l, !append_assoc, !append_cons, !append_nil_l.
  cbn [scan_members]. change (ord (char_at 34) =? 34) with true. cbv iota.
  pose proof (scanstring_chars kv.1 (String ":" (json_dumps kv.2 +:+ rest))) as Hk.
  unfold quote in Hk. rewrite append_cons, append_nil_l in Hk. rewrite Hk, bind_ret.
  cbn [skip_ws]. change (is_ws ":") with false. cbv iota.
  change (ord ":" =? 58) with true. cbv iota.
  rewrite skip_ws_opens by done. rewrite (Hv fuel depth) by (done || lia). done.
Qed.

Lemma scan_members_join kv d acc fuel depth rest :
  Forall (scans ∘ snd) (kv :: d) → Forall (opens ∘ json_dumps ∘ snd) (kv :: d) →
  NoDup (acc.*1 ++ (kv :: d).*1) → Forall (λ kv, admits depth (nesting kv.2)) (kv :: d) →
  (String.length (py_join "," (member_text <$> kv :: d)) < fuel)%nat →
  scan_members fuel depth acc (py_join "," (member_text <$> kv :: d) +:+ String "}" rest)
  = Ok (acc ++ (canonical_member <$> kv :: d), rest).
Proof.
  revert kv acc fuel.
  induction d as [|kw d IH]; intros kv acc fuel [Hv Hs]%Forall_cons [Ho Hos]%Forall_cons Hnd [Hn Hns]%Forall_cons Hl;
    (destruct fuel as [|fuel]; [lia|]).
  - cbn [fmap list_fmap py_join] in *. rewrite scan_members_step by (done || lia).
    cbn [skip_ws]. change (is_ws "}") with false. cbv iota zeta.
    rewrite dict_set_fresh; [done|]. apply NoDup_app in Hnd as (_ & Hni & _).
    intros Hin. by apply (Hni _ Hin), list_elem_of_singleton.
  - assert (kv.1 ∉ acc.*1) as Hfresh.
    { apply NoDup_app in Hnd as (_ & Hni & _). intros Hin. apply (Hni _ Hin). by left. }
    rewrite !fmap_cons, py_join_cons in *. rewrite <- !fmap_cons in *.
    rewrite !length_append in Hl. cbn [String.length] in Hl.
    rewrite !append_assoc, append_cons, append_nil_l.
    rewrite scan_members_step by (done || lia).
    cbn [skip_ws]. change (is_ws ",") with false. cbv iota zeta.
    change (ord "," =? 125) with false. change (ord "," =? 44) with true. cbv iota.
    assert (∀ t, skip_ws (py_join "," (member_text <$> kw :: d) +:+ t)
      = py_join "," (member_text <$> kw :: d) +:+ t) as ->.
    { intros t. destruct d; reflexivity. }
    rewrite dict_set_fresh, IH by (try done; try lia;
      rewrite fmap_app, <- app_assoc; exact Hnd).
    by rewrite <- app_assoc.
Qed.

Lemma json_dumps_dict d :
  json_dumps (VDict d)
  = "{" +:+ (py_join "," (member_text <$> sort_by str_cmp fst d) +:+ "}").
Proof.
  cbn [json_dumps]. rewrite sort_by_map_snd, <- list_fmap_compose. done.
Qed.

Lemma json_canonical_dict d :
  json_canonical (VDict d) = VDict (canonical_member <$> sort_by str_cmp fst d).
Proof. cbn [json_canonical]. by rewrite sort_by_map_snd. Qed.

Lemma scans_jsonable v : jsonable v → scans v.
Proof.
  induction v as [|b|z|lit|s|l IH|d IH] using pyval_ind; intros Hj [|fuel] depth rest Hl Hd Hf;
    try (destruct (json_dumps_opens _ Hj) as (c & r & Hc & _); rewrite Hc in Hl; cbn in Hl; lia).
  - reflexivity.
  - by destruct b.
  - by apply scan_once_number; [apply scan_number_int|].
  - by apply scan_once_number.
  - cbn [json_dumps]. unfold json_string, quote. rewrite !append_cons, !append_nil_l, append_assoc.
    cbn [scan_once]. change (ord (char_at 34) =? 34) with true. cbv iota.
    pose proof (scanstring_chars s rest) as Hs. unfold quote in Hs. by rewrite Hs.
  - destruct (descend_admits "array" depth _ Hd) as (depth' & Hdep & Hd').
    destruct l as [|v l].
    { cbn [json_dumps fmap list_fmap py_join]. rewrite append_assoc, append_cons, append_nil_l.
      cbn [scan_once]. change (ord "[" =? 34) with false. change (ord "[" =? 123) with false.
      change (ord "[" =? 91) with true. cbv iota. rewrite Hdep. reflexivity. }
    cbn [jsonable] in Hj. rewrite foldr_and_Forall in Hj.
    cbn [json_dumps] in *. rewrite !append_cons, !append_nil_l, append_assoc in *.
    cbn [String.length] in Hl. rewrite length_append in Hl. cbn [String.length] in Hl.
    assert (Forall (opens ∘ json_dumps) (v :: l)) as Ho
      by (eapply Forall_impl; [exact Hj|]; apply json_dumps_opens).
    assert (∃ c t, py_join "," (json_dumps <$> v :: l) +:+ String "]" rest = String c t
      ∧ is_ws c = false ∧ ord c ≠ 93) as (c & t & Ht & Hws & H93).
    { apply Forall_cons in Ho as [(c & t & Hc & Hw & H93 & _) _]. cbn in Hc.
      destruct l as [|w l]; [|rewrite !fmap_cons, py_join_cons]; cbn [fmap list_fmap py_join];
        rewrite Hc, !append_cons; by eexists _, _. }
    cbn [scan_once]. change (ord "[" =? 34) with false. change (ord "[" =? 123) with false.
    change (ord "[" =? 91) with true. cbv iota.
    rewrite Hdep, bind_ret.
    rewrite append_cons, append_nil_l. rewrite Ht. cbn [skip_ws]. rewrite Hws.
    rewrite (proj2 (Z.eqb_neq _ _)) by done. rewrite <- Ht.
    rewrite scan_elements_join; [done| |done| |lia].
    + rewrite Forall_forall in IH, Hj |- *. auto.
    + eapply Forall_impl; [exact (proj1 (foldr_max_le nesting (v :: l) _) (le_n _))|].
      intros w Hw. by eapply admits_le.
  - cbn [jsonable] in Hj. rewrite foldr_and_Forall in Hj. destruct Hj as [Hnd Hj].
    rewrite json_canonical_dict. rewrite json_dumps_dict in *.
    pose proof (sort_by_perm str_cmp fst d) as Hp.
    pose proof (proj1 (foldr_max_le (nesting ∘ snd) d _) (le_n _)) as Hn.
    destruct (descend_admits "object" depth _ Hd) as (depth' & Hdep & Hd').
    rewrite <- Hp in Hn at 1.
    rewrite <- Hp in Hnd. rewrite <- Hp in Hj. rewrite <- Hp in IH.
    destruct (sort_by str_cmp fst d) as [|kv sorted].
    { cbn [scan_once]. change (ord "{" =? 34) with false. cbn. change (ord "{" =? 123) with true. cbv iota.
      rewrite Hdep. reflexivity. }
    rewrite !append_cons, !append_nil_l, append_assoc in *.
    cbn [String.length] in Hl. rewrite length_append in Hl. cbn [String.length] in Hl.
    rewrite append_cons, append_nil_l.
    assert (∃ t, py_join "," (member_text <$> kv :: sorted) +:+ String "}" rest
      = String (char_at 34) t) as [t Ht] by (destruct sorted; by eexists).
    cbn [scan_once]. change (ord "{" =? 34) with false. change (ord "{" =? 123) with true.
    cbv iota. rewrite Hdep, bind_ret. rewrite Ht. cbn [skip_ws]. change (is_ws (char_at 34)) with false. cbv iota.
    change (ord (char_at 34) =? 125) with false. cbv iota. rewrite <- Ht.
    rewrite scan_members_join; [done|..|done| |lia].
    + rewrite Forall_forall in IH, Hj |- *. intros x Hx. by apply IH, Hj.
    + eapply Forall_impl; [exact Hj|]. intros x. apply json_dumps_opens.
    + eapply Forall_impl; [exact Hn|]. intros x Hx. by eapply admits_le.
Qed.

(** [json.loads(json.dumps(v, sort_keys=True) + "\n")] *)
Lemma json_loads_at_dumps depth v rest :
  jsonable v → admits depth (nesting v) → string_forallb is_ws rest = true →
  json_loads_at depth (json_dumps v +:+ rest) = Ok (json_canonical v).
Proof.
  intros Hj Hd Hr. unfold json_loads_at. rewrite skip_ws_opens by (by apply json_dumps_opens).
  assert (follow rest) as Hf.
  { unfold follow. destruct rest as [|c rest]; [done|]. cbn in *.
    apply andb_true_iff in Hr as [Hc _]. apply bool_decide_eq_true in Hc.
    unfold extends_number. destruct (is_digit_char c) eqn:Hdc.
    - apply is_digit_char_ord in Hdc. set_unfold. lia.
    - cbn. rewrite bool_decide_eq_false_2; [done|]. set_unfold. lia. }
  rewrite scans_jsonable by (try done; rewrite length_append; lia). rewrite bind_ret.
  replace (skip_ws rest) with ""; [done|]. clear Hf.
  induction rest as [|c rest IH]; [done|]. cbn in *.
  apply andb_true_iff in Hr as [-> Hr]. auto.
Qed.

Lemma json_loads_dumps v rest :
  jsonable v → string_forallb is_ws rest = true →
  json_loads (json_dumps v +:+ rest) = Ok (json_canonical v).
Proof. intros Hj Hr. by apply json_loads_at_dumps. Qed.

(** ** Termination

    The fuel is never exhausted: [json.loads] returns a value or raises one of
    its two errors. *)

Definition json_error (e : exn) : bool :=
  match e with JSONDecodeError _ | ValueError _ => true | _ => false end.

Section termination.
(** Whether the recursion limit can be met. *)
Context (limited : bool).

Definition scan_error (e : exn) : bool := json_error e || limited && is_recursion_error e.

(** A scan that consumes at least [n] characters of [s] and raises only the
    scanner's errors. *)
Definition consumes {A} (n : nat) (s : string) (r : result (A * string)) : Prop :=
  match r with
  | Ok (_, rest) => (String.length rest + n <= String.length s)%nat
  | Err e => scan_error e = true
  end.

Lemma consumes_error {A} n s : @consumes A n s decode_error.
Proof. done. Qed.

Lemma skip_ws_length s : (String.length (skip_ws s) <= String.length s)%nat.
Proof. induction s as [|c s IH]; cbn; [done|]. case_match; cbn; lia. Qed.

Lemma span_length p s : (String.length (span p s).1 + String.length (span p s).2 = String.length s)%nat.
Proof.
  induction s as [|c s IH]; cbn; [done|]. destruct (p c); cbn; [|lia].
  destruct (span p s). cbn in *. lia.
Qed.

Lemma scanstring_consumes s : consumes 1 s (scanstring s).
Proof.
  assert (∀ n, (String.length s <= n)%nat → consumes 1 s (scanstring s)) as H; [|by eapply H].
  intros n. revert s. induction n as [|n IH]; intros [|c s]; cbn; try done; try lia.
  intros Hn.
  assert (∀ d t, (String.length t <= String.length s)%nat →
    consumes 1 (String c s) (cons_char d (scanstring t))) as Hc.
  { intros d t Ht. specialize (IH t ltac:(lia)). unfold consumes, cons_char in *.
    destruct (scanstring t) as [[x r]|e]; cbn in *; [lia|done]. }
  repeat (case_match; try done); subst; cbn in *; try lia.
  - unfold hex4_char. repeat (case_match; try done). apply Hc. cbn. lia.
  - unfold escape_char. repeat (case_match; try done); apply Hc; cbn; lia.
  - by apply Hc.
Qed.

Lemma scan_frac_length s : (String.length (scan_frac s).2 <= String.length s)%nat.
Proof.
  destruct s as [|c s]; [done|]. cbn. case_match; [|done].
  pose proof (span_length is_digit_char s) as Hs.
  destruct (span is_digit_char s) as [[|d ds] r]; cbn in *; lia.
Qed.

Lemma scan_exp_length s : (String.length (scan_exp s).2 <= String.length s)%nat.
Proof.
  destruct s as [|c s]; [done|]. cbn. case_match; [|done].
  assert (String.length (scan_sign s).2 <= String.length s)%nat as Hg
    by (destruct s as [|d s]; cbn; repeat case_match; cbn; lia).
  destruct (scan_sign s) as [neg t].
  pose proof (span_length is_digit_char t) as Hs.
  destruct (span is_digit_char t) as [[|d ds] r]; cbn in *; lia.
Qed.

Lemma scan_tail_consumes neg whole s : consumes 0 s (scan_tail neg whole s).
Proof.
  unfold scan_tail. pose proof (scan_frac_length s) as Hf.
  destruct (scan_frac s) as [fr r1]. pose proof (scan_exp_length r1) as He.
  destruct (scan_exp r1) as [ex r2]. cbn in *.
  destruct fr, ex; [..|case_match; [done|]]; cbn; lia.
Qed.

Lemma consumes_weaken {A} n m s t (r : result (A * string)) :
  consumes n s r → (String.length s + m <= String.length t + n)%nat → consumes m t r.
Proof. destruct r as [[a rest]|e]; cbn; [lia|done]. Qed.

Lemma scan_magnitude_consumes neg s : consumes 1 s (scan_magnitude neg s).
Proof.
  unfold scan_magnitude. pose proof (span_length is_digit_char s) as Hs.
  destruct (span is_digit_char s) as [[|c ds] r]; [done|]. cbn in Hs.
  case_match; (eapply consumes_weaken; [apply scan_tail_consumes|rewrite ?length_append; lia]).
Qed.

Lemma scan_number_consumes s : consumes 1 s (scan_number s).
Proof.
  unfold scan_number. destruct s as [|c s]; [done|].
  case_match; [|apply scan_magnitude_consumes].
  eapply consumes_weaken; [apply scan_magnitude_consumes|cbn; lia].
Qed.

Lemma strip_prefix_length p s r :
  strip_prefix p s = Some r → (String.length r + String.length p = String.length s)%nat.
Proof.
  revert s. induction p as [|a p IH]; intros [|b s]; cbn; intros; simplify_eq; cbn; try lia.
  case_bool_decide; [|done]. apply IH in H. lia.
Qed.

Lemma scan_constant_length l s v r :
  Forall (λ e, e.1 ≠ "") l → scan_constant l s = Some (v, r) →
  (String.length r + 1 <= String.length s)%nat.
Proof.
  induction 1 as [|[text w] l Hne _ IH]; cbn in *; [done|].
  destruct (strip_prefix text s) as [t|] eqn:Ht; [|exact IH].
  intros [= -> ->]. apply strip_prefix_length in Ht.
  destruct text; [done|cbn in Ht; lia].
Qed.

Lemma consumes_bind {A B} n s t (r : result (A * string)) (f : A * string → result (B * string)) :
  consumes n s r →
  (∀ a rest, (String.length rest + n <= String.length s)%nat → consumes 1 t (f (a, rest))) →
  consumes 1 t (r ≫= f).
Proof. destruct r as [[a rest]|e]; cbn; auto. Qed.

Lemma descend_limited c depth : (is_Some depth → limited = true) →
  match descend c depth with
  | Ok depth' => is_Some depth' → limited = true
  | Err e => scan_error e = true
  end.
Proof.
  destruct depth as [[|n]|]; cbn; intros Hl; [|intros _; apply Hl; by eexists|by intros []].
  unfold scan_error. by rewrite Hl by by eexists.
Qed.

Lemma scanner_consumes fuel depth s : (is_Some depth → limited = true) →
  ((2 * String.length s < fuel)%nat → consumes 1 s (scan_once fuel depth s))
  ∧ ((2 * String.length s + 1 < fuel)%nat → consumes 1 s (scan_elements fuel depth s))
  ∧ (∀ acc, (2 * String.length s + 1 < fuel)%nat → consumes 1 s (scan_members fuel depth acc s)).
Proof.
  revert depth s. induction fuel as [|fuel IH]; intros depth s Hdepth; [split_and!; intros; lia|].
  split_and!; [intros Hf|intros Hf|intros acc Hf]; cbn [scan_once scan_elements scan_members].
  - destruct s as [|c s]; [done|]. cbn [String.length] in Hf.
    pose proof (skip_ws_length s) as Hw.
    case_match.
    { apply (consumes_bind 1 _ _ _ _ (scanstring_consumes s)).
      intros a rest Hr. cbn in *. lia. }
    case_match.
    { pose proof (descend_limited "object" depth Hdepth) as Hdesc.
      destruct (descend "object" depth) as [depth'|]; [rewrite bind_ret|exact Hdesc].
      destruct (skip_ws s) as [|d s']; [done|]. cbn [String.length] in Hw.
      case_match; [cbn; lia|].
      pose proof (proj2 (proj2 (IH depth' (String d s') Hdesc)) [] ltac:(cbn; lia)) as Hm.
      apply (consumes_bind 1 _ _ _ _ Hm).
      intros a rest Hr. cbn in *. lia. }
    case_match.
    { pose proof (descend_limited "array" depth Hdepth) as Hdesc.
      destruct (descend "array" depth) as [depth'|]; [rewrite bind_ret|exact Hdesc].
      destruct (skip_ws s) as [|d s']; [done|]. cbn [String.length] in Hw.
      case_match; [cbn; lia|].
      pose proof (proj1 (proj2 (IH depth' (String d s') Hdesc)) ltac:(cbn; lia)) as Hm.
      apply (consumes_bind 1 _ _ _ _ Hm).
      intros a rest Hr. cbn in *. lia. }
    destruct (scan_constant constants (String c s)) as [[v r]|] eqn:Hc;
      [|apply scan_number_consumes].
    apply scan_constant_length in Hc; [done|]. by repeat constructor.
  - apply (consumes_bind 1 _ _ _ _ (proj1 (IH depth s Hdepth) ltac:(lia))). intros v rest Hr.
    pose proof (skip_ws_length rest) as Hw.
    destruct (skip_ws rest) as [|c r]; [done|]. cbn [String.length] in Hw.
    case_match; [cbn; lia|]. case_match; [|done].
    pose proof (skip_ws_length r) as Hw'.
    pose proof (proj1 (proj2 (IH depth (skip_ws r) Hdepth)) ltac:(lia)) as Hm.
    apply (consumes_bind 1 _ _ _ _ Hm).
    intros a t Ht. cbn in *. lia.
  - destruct s as [|c s]; [done|]. cbn [String.length] in Hf. case_match; [|done].
    apply (consumes_bind 1 _ _ _ _ (scanstring_consumes s)).
    intros key rest Hr. cbn [String.length] in Hr.
    pose proof (skip_ws_length rest) as Hw.
    destruct (skip_ws rest) as [|d r]; [done|]. cbn [String.length] in Hw.
    case_match; [|done]. pose proof (skip_ws_length r) as Hw'.
    pose proof (proj1 (IH depth (skip_ws r) Hdepth) ltac:(lia)) as Hm.
    apply (consumes_bind 1 _ _ _ _ Hm).
    intros v t Ht. cbn [String.length] in Ht. cbv zeta.
    pose proof (skip_ws_length t) as Hw2.
    destruct (skip_ws t) as [|e u]; [done|]. cbn [String.length] in Hw2.
    case_match; [cbn; lia|]. case_match; [|done].
    pose proof (skip_ws_length u) as Hw3.
    eapply consumes_weaken; [apply IH; done || lia|cbn; lia].
Qed.

Lemma json_loads_at_total depth text : (is_Some depth → limited = true) →
  (∃ v, json_loads_at depth text = Ok v) ∨ (∃ e, json_loads_at depth text = Err e ∧ scan_error e = true).
Proof.
  intros Hd. unfold json_loads_at. pose proof (skip_ws_length text) as Hw.
  pose proof (proj1 (scanner_consumes (2 * String.length text + 1) depth (skip_ws text) Hd) ltac:(lia)) as H.
  destruct (scan_once _ _ _) as [[v r]|e]; cbn in *; [|by eauto].
  destruct (skip_ws r); [by eauto|]. right. by eexists.
Qed.
End termination.

Lemma json_loads_total text :
  (∃ v, json_loads text = Ok v) ∨ (∃ e, json_loads text = Err e ∧ json_error e = true).
Proof.
  destruct (json_loads_at_total false None text ltac:(by intros [])) as [?|(e & He & Hs)]; [by left|right].
  exists e. split; [done|]. unfold scan_error in Hs. by rewrite orb_false_r in Hs.
Qed.

(** Within a limit there is one more error. *)
Lemma json_loads_within_total n text :
  (∃ v, json_loads_within n text = Ok v)
  ∨ (∃ e, json_loads_within n text = Err e ∧ (json_error e = true ∨ is_recursion_error e = true)).
Proof.
  destruct (json_loads_at_total true (Some n) text ltac:(done)) as [?|(e & He & Hs)]; [by left|right].
  exists e. split; [done|]. by apply orb_true_iff in Hs.
Qed.

(** ** The limit

    A parse within a limit is the parse without one, or fails for the limit. *)

Definition cut {A} (r r' : result A) : Prop := r = r' ∨ ∃ m, r = Err (RecursionError m).

Lemma cut_bind {A B} (r r' : result A) (f f' : A → result B) :
  cut r r' → (∀ a, cut (f a) (f' a)) → cut (r ≫= f) (r' ≫= f').
Proof. intros [->|[m ->]] Hf; [destruct r'; cbn; [apply Hf|by left]|right; by eexists]. Qed.

Lemma cut_same {A} (r : result A) : cut r r.
Proof. by left. Qed.

(** [depth] leaves no more levels than [depth']. *)
Definition shallower (depth depth' : option nat) : Prop :=
  match depth', depth with
  | None, _ => True
  | Some n', Some n => (n <= n')%nat
  | Some _, None => False
  end.

Lemma descend_shallower c depth depth' : shallower depth depth' →
  (∃ m, descend c depth = Err (RecursionError m))
  ∨ ∃ d d', descend c depth = Ok d ∧ descend c depth' = Ok d' ∧ shallower d d'.
Proof.
  destruct depth as [[|n]|], depth' as [[|n']|]; cbn; intros H; try lia; try (left; by eexists);
    right; eexists _, _; (split; [done|]); (split; [done|]); cbn; lia || done.
Qed.

Lemma scanner_cut fuel depth depth' s : shallower depth depth' →
  cut (scan_once fuel depth s) (scan_once fuel depth' s)
  ∧ cut (scan_elements fuel depth s) (scan_elements fuel depth' s)
  ∧ ∀ acc, cut (scan_members fuel depth acc s) (scan_members fuel depth' acc s).
Proof.
  revert depth depth' s. induction fuel as [|fuel IH]; intros depth depth' s Hd; [split_and!; intros; apply cut_same|].
  split_and!; [| |intros acc]; cbn [scan_once scan_elements scan_members].
  - destruct s as [|c s]; [apply cut_same|]. case_match; [apply cut_same|].
    case_match; [|case_match; [|apply cut_same]];
      (match goal with |- cut (descend ?k _ ≫= _) _ =>
         destruct (descend_shallower k depth depth' Hd) as [[m ->]|(d1 & d2 & -> & -> & Hs)] end; [right; by eexists|]);
      rewrite !bind_ret; (destruct (skip_ws s) as [|d s']; [apply cut_same|]); (case_match; [apply cut_same|]);
      (apply cut_bind; [by apply IH|intros [? ?]; apply cut_same]).
  - apply cut_bind; [by apply IH|]. intros [v rest]. destruct (skip_ws rest); [apply cut_same|].
    case_match; [apply cut_same|]. case_match; [|apply cut_same].
    apply cut_bind; [by apply IH|intros [? ?]; apply cut_same].
  - destruct s as [|c s]; [apply cut_same|]. case_match; [|apply cut_same].
    apply cut_bind; [apply cut_same|]. intros [key rest]. destruct (skip_ws rest); [apply cut_same|].
    case_match; [|apply cut_same]. apply cut_bind; [by apply IH|]. intros [v t]. cbv zeta.
    destruct (skip_ws t); [apply cut_same|]. case_match; [apply cut_same|].
    case_match; [by apply IH|apply cut_same].
Qed.

Lemma json_loads_within_cut n s : cut (json_loads_within n s) (json_loads s).
Proof. apply cut_bind; [by apply scanner_cut|]. intros [v rest]. apply cut_same. Qed.

Lemma json_loads_within_mono n m s : (n <= m)%nat → cut (json_loads_within n s) (json_loads_within m s).
Proof. intros H. apply cut_bind; [by apply scanner_cut|]. intros [v rest]. apply cut_same. Qed.

(** The limit is met exactly by the nesting of the text. *)
Example nested_text :
  json_loads_within 2 "[[1], []]" = Ok (VList [VList [VInt 1]; VList []])
  ∧ json_loads_within 1 "[[1], []]"
    = Err (RecursionError "maximum recursion depth exceeded while decoding a JSON array from a unicode string")
  ∧ json_loads_within 1 "[x, []]" = decode_error.
Proof. vm_compute. repeat split. Qed.

(** ** Dictionaries read back

    [json.loads] returns a dictionary with its keys in order; lookups do not
    see the difference. *)

Definition canonical_dict (d : list (string * pyval)) : list (string * pyval) :=
  canonical_member <$> sort_by str_cmp fst d.

Lemma canonical_VDict d : json_canonical (VDict d) = VDict (canonical_dict d).
Proof. apply json_canonical_dict. Qed.

Lemma canonical_dict_perm d : canonical_dict d ≡ₚ canonical_member <$> d.
Proof. unfold canonical_dict. by rewrite (sort_by_perm str_cmp). Qed.

Lemma canonical_keys d : dict_keys (canonical_dict d) ≡ₚ dict_keys d.
Proof.
  unfold dict_keys. rewrite canonical_dict_perm, <- list_fmap_compose.
  by rewrite (list_fmap_ext (fst ∘ canonical_member) fst).
Qed.

Lemma canonical_get k d :
  NoDup d.*1 → dict_get k (canonical_dict d) = json_canonical <$> dict_get k d.
Proof.
  intros Hnd. destruct (dict_get k d) as [v|] eqn:Hg; cbn.
  - apply elem_of_dict_get; [by rewrite canonical_keys|].
    rewrite canonical_dict_perm. apply dict_get_elem_of in Hg.
    by apply (list_elem_of_fmap_2 canonical_member) in Hg.
  - rewrite dict_get_None in *. by rewrite canonical_keys.
Qed.

Lemma keys_exactly_perm {V W} (d : list (string * V)) (e : list (string * W)) fields :
  dict_keys d ≡ₚ dict_keys e → keys_exactly d fields = keys_exactly e fields.
Proof.
  intros Hp. apply eq_true_iff_eq. rewrite !keys_exactly_true. by setoid_rewrite Hp.
Qed.

Lemma canonical_VStr s : json_canonical (VStr s) = VStr s.
Proof. done. Qed.
Lemma canonical_VInt z : json_canonical (VInt z) = VInt z.
Proof. done. Qed.

Lemma canonical_strings l : json_canonical (VList (VStr <$> l)) = VList (VStr <$> l).
Proof.
  cbn [json_canonical]. f_equal. rewrite <- list_fmap_compose.
  apply list_fmap_ext. done.
Qed.

(** The keys of a literal mapping are distinct. *)
Ltac nodup_keys :=
  match goal with |- NoDup ?l => apply (@bool_decide_unpack (NoDup l) _); vm_compute; exact I end.

(** The payloads of a dictionary's values, read back. *)
Lemma canonical_payloads {A} (g : A → list (string * pyval)) (d : list (string * A)) :
  json_canonical <$> (VDict ∘ g <$> dict_values d)
  = (λ p : string * A, VDict (canonical_dict (g p.2))) <$> d.
Proof.
  unfold dict_values. rewrite <- !list_fmap_compose. apply list_fmap_ext.
  intros i [k a] _. cbn -[json_canonical canonical_dict]. apply canonical_VDict.
Qed.
