(* ===== verification/StrictJson.v ===== *)
(** * Strict JSON

    The readers of attested documents call [json.loads] with an
    [object_pairs_hook] that refuses a member written twice and, in the probe,
    a [parse_constant] that refuses [NaN] and the infinities
    ([hive/hourly_probe.py], [runtime_status.py]).  The scanner is the one of
    JsonText with the two hooks: the members of an object are collected in the
    order of the text and handed to the hook at its closing brace, a constant
    is handed over where it is met.  The reader returns exactly what the plain
    [json.loads] returns, or raises a [ValueError]. *)

From S2P Require Import Prelude Order DynamicPool Json JsonText.
#[local] Open Scope Z_scope.

Section strict.
(** What the two hooks answer. *)
Context (pairs_hook : list (string * pyval) → result (list (string * pyval)))
        (constant_hook : string → pyval → result pyval).

Definition hooked_constant (found : string) (v : pyval) : result pyval :=
  match v with VFloat _ => constant_hook found v | _ => Ok v end.

Fixpoint strict_once (depth : option nat) (fuel : nat) (s : string) {struct fuel} : result (pyval * string) :=
  match fuel with
  | O => out_of_fuel
  | S fuel =>
      match s with
      | EmptyString => decode_error
      | String c rest =>
          if ord c =? 34 then '(text, rest) ← scanstring rest; Ok (VStr text, rest)
          else if ord c =? 123 then
            depth ← descend "object" depth;
            match skip_ws rest with
            | String d rest' =>
                if ord d =? 125 then d ← pairs_hook []; Ok (VDict d, rest')
                else '(pairs, rest) ← strict_members depth fuel (String d rest');
                     d ← pairs_hook pairs;
                     Ok (VDict d, rest)
            | EmptyString => decode_error
            end
          else if ord c =? 91 then
            depth ← descend "array" depth;
            match skip_ws rest with
            | String d rest' =>
                if ord d =? 93 then Ok (VList [], rest')
                else '(elements, rest) ← strict_elements depth fuel (String d rest');
                     Ok (VList elements, rest)
            | EmptyString => decode_error
            end
          else
            match scan_constant constants s with
            | Some (v, rest) => w ← hooked_constant s v; Ok (w, rest)
            | None => scan_number s
            end
      end
  end
with strict_elements (depth : option nat) (fuel : nat) (s : string) {struct fuel} : result (list pyval * string) :=
  match fuel with
  | O => out_of_fuel
  | S fuel =>
      '(v, rest) ← strict_once depth fuel s;
      match skip_ws rest with
      | String c rest =>
          if ord c =? 93 then Ok ([v], rest)
          else if ord c =? 44 then
            '(vs, rest) ← strict_elements depth fuel (skip_ws rest); Ok (v :: vs, rest)
          else decode_error
      | EmptyString => decode_error
      end
  end
with strict_members (depth : option nat) (fuel : nat) (s : string) {struct fuel}
  : result (list (string * pyval) * string) :=
  match fuel with
  | O => out_of_fuel
  | S fuel =>
      match s with
      | EmptyString => decode_error
      | String c rest =>
          if ord c =? 34 then
            '(key, rest) ← scanstring rest;
            match skip_ws rest with
            | EmptyString => decode_error
            | String c rest =>
                if ord c =? 58 then
                  '(v, rest) ← strict_once depth fuel (skip_ws rest);
                  match skip_ws rest with
                  | EmptyString => decode_error
                  | String c rest =>
                      if ord c =? 125 then Ok ([(key, v)], rest)
                      else if ord c =? 44 then
                        '(pairs, rest) ← strict_members depth fuel (skip_ws rest);
                        Ok ((key, v) :: pairs, rest)
                      else decode_error
                  end
                else decode_error
            end
          else decode_error
      end
  end.

(** [json.loads(text, object_pairs_hook=..., parse_constant=...)]. *)
Definition hooked_loads_at (depth : option nat) (s : string) : result pyval :=
  '(v, rest) ← strict_once depth (2 * String.length s + 1) (skip_ws s);
  match skip_ws rest with
  | EmptyString => Ok v
  | _ => decode_error
  end.
Definition hooked_loads (s : string) : result pyval := hooked_loads_at None s.
End strict.

(** ** The hooks *)

Definition duplicate_member : exn := ValueError "duplicate JSON member".

(** The loop of [_unique_json_object]. *)
Fixpoint unique_members (result : list (string * pyval)) (pairs : list (string * pyval))
  : Prelude.result (list (string * pyval)) :=
  match pairs with
  | [] => Ok result
  | (name, value) :: pairs =>
      if dict_mem name result then Err duplicate_member
      else unique_members (dict_set name value result) pairs
  end.

Definition _unique_json_object (pairs : list (string * pyval)) : result (list (string * pyval)) :=
  unique_members [] pairs.

Definition _reject_nonfinite (value : string) (v : pyval) : result pyval :=
  Err (ValueError "nonfinite JSON number").

(** Without a [parse_constant]. *)
Definition keep_constant (value : string) (v : pyval) : result pyval := Ok v.

(** [hive/hourly_probe.py], with [nesting] levels left of the recursion limit. *)
Definition _strict_json_loads (nesting : nat) (s : string) : result pyval :=
  hooked_loads_at _unique_json_object _reject_nonfinite (Some nesting) s.

(** [runtime_status.py] refuses duplicates only. *)
Definition unique_json_loads (nesting : nat) (s : string) : result pyval :=
  hooked_loads_at _unique_json_object keep_constant (Some nesting) s.

(** A text written with apostrophes for the quotes. *)
Definition quoted (s : string) : string :=
  string_map (λ c, if ord c =? 39 then char_at 34 else c) s.

Example strict_samples :
  _strict_json_loads 2 (quoted "{'a': [1, true], 'b': {}}")
    = Ok (VDict [("a", VList [VInt 1; VBool true]); ("b", VDict [])])
  ∧ _strict_json_loads 2 (quoted "{'a': 1, 'a': 1}") = Err duplicate_member
  ∧ _strict_json_loads 2 "[1, NaN]" = Err (ValueError "nonfinite JSON number")
  ∧ unique_json_loads 2 "[1, NaN]" = Ok (VList [VInt 1; VFloat "nan"])
  ∧ _strict_json_loads 2 (quoted "{'a': 1, 'a': 1") = decode_error.
Proof. vm_compute. repeat split. Qed.

(** ** Agreement with the plain reader

    The scanner with hooks either answers as the plain one, or fails with one
    of the errors of the hooks. *)

Definition hook_error (e : exn) : Prop :=
  e = duplicate_member ∨ e = ValueError "nonfinite JSON number".

(** [f] maps what the scanner with hooks collects to what the plain one does. *)
Definition agrees {A B} (f : A → option B) (strict : result (A * string)) (plain : result (B * string))
  : Prop :=
  match strict with
  | Ok (a, rest) => ∀ b, f a = Some b → plain = Ok (b, rest)
  | Err e => plain = Err e ∨ hook_error e
  end.

Definition add_members (acc pairs : list (string * pyval)) : list (string * pyval) :=
  foldl (λ acc kv, dict_set kv.1 kv.2 acc) acc pairs.

Lemma unique_members_spec acc pairs :
  match unique_members acc pairs with
  | Ok d => d = add_members acc pairs
  | Err e => hook_error e
  end.
Proof.
  revert acc. induction pairs as [|[k v] pairs IH]; intros acc; cbn; [done|].
  destruct (dict_mem k acc); [by left|]. apply IH.
Qed.

Section agreement.
Context (constant_hook : string → pyval → result pyval).
Context (constant_ok : ∀ s v, constant_hook s v = Ok v ∨ ∃ e, constant_hook s v = Err e ∧ hook_error e).

Lemma hooked_constant_ok s v :
  hooked_constant constant_hook s v = Ok v
  ∨ ∃ e, hooked_constant constant_hook s v = Err e ∧ hook_error e.
Proof using constant_ok. destruct v; try (by left). apply constant_ok. Qed.

Lemma agrees_bind {A B C D} (f : A → option B) (g : C → option D) r r' k k' :
  agrees f r r' → (∀ a, is_Some (f a)) →
  (∀ a b rest, f a = Some b → agrees g (k (a, rest)) (k' (b, rest))) →
  agrees g (r ≫= k) (r' ≫= k').
Proof.
  intros H Hf Hk. destruct r as [[a rest]|e]; cbn in *.
  - destruct (Hf a) as [b Hb]. rewrite (H b Hb). by apply Hk.
  - destruct H as [->|H]; [by left|by right].
Qed.

Lemma agrees_same {A C D} (g : C → option D) (r : result (A * string)) k k' :
  (∀ a rest, agrees g (k (a, rest)) (k' (a, rest))) → agrees g (r ≫= k) (r ≫= k').
Proof. destruct r as [[a rest]|e]; cbn; [auto|by left]. Qed.

#[local] Notation once := (strict_once _unique_json_object constant_hook).
#[local] Notation elements := (strict_elements _unique_json_object constant_hook).
#[local] Notation members := (strict_members _unique_json_object constant_hook).

Lemma strict_agrees depth fuel s :
  agrees Some (once depth fuel s) (scan_once fuel depth s)
  ∧ agrees Some (elements depth fuel s) (scan_elements fuel depth s)
  ∧ ∀ acc, agrees (λ pairs, Some (add_members acc pairs)) (members depth fuel s) (scan_members fuel depth acc s).
Proof using constant_ok.
  revert depth s. induction fuel as [|fuel IH]; intros depth s; [by split_and!; try intros acc; left|].
  split_and!; [| |intros acc]; cbn [strict_once strict_elements strict_members scan_once scan_elements scan_members].
  - destruct s as [|c s]; [by left|].
    case_match. { apply agrees_same. intros a rest b [= <-]. done. }
    case_match.
    { destruct (descend "object" depth) as [depth'|]; [rewrite !bind_ret|by left].
      destruct (skip_ws s) as [|d s']; [by left|]. case_match; [by intros b [= <-]|].
      eapply (agrees_bind _ _ _ _ _ _ (proj2 (proj2 (IH depth' (String d s'))) [])); [by eexists|].
      intros pairs b rest [= <-]. unfold _unique_json_object.
      pose proof (unique_members_spec [] pairs) as Hu.
      destruct (unique_members [] pairs); cbn; [|by right]. subst. by intros b [= <-]. }
    case_match.
    { destruct (descend "array" depth) as [depth'|]; [rewrite !bind_ret|by left].
      destruct (skip_ws s) as [|d s']; [by left|]. case_match; [by intros b [= <-]|].
      eapply (agrees_bind _ _ _ _ _ _ (proj1 (proj2 (IH depth' (String d s'))))); [by eexists|].
      intros vs b rest [= <-]. by intros b [= <-]. }
    destruct (scan_constant constants (String c s)) as [[v r]|].
    + destruct (hooked_constant_ok (String c s) v) as [->|(e & -> & He)]; cbn; [by intros b [= <-]|by right].
    + destruct (scan_number (String c s)) as [[v r]|e]; [by intros b [= <-]|by left].
  - eapply (agrees_bind _ _ _ _ _ _ (proj1 (IH depth s))); [by eexists|]. intros v b rest [= <-].
    destruct (skip_ws rest) as [|c r]; [by left|]. case_match; [by intros b [= <-]|].
    case_match; [|by left].
    eapply (agrees_bind _ _ _ _ _ _ (proj1 (proj2 (IH depth (skip_ws r))))); [by eexists|].
    intros vs b t [= <-]. by intros b [= <-].
  - destruct s as [|c s]; [by left|]. case_match; [|by left].
    apply agrees_same. intros key rest.
    destruct (skip_ws rest) as [|d r]; [by left|]. case_match; [|by left].
    eapply (agrees_bind _ _ _ _ _ _ (proj1 (IH depth (skip_ws r)))); [by eexists|]. intros v b t [= <-].
    destruct (skip_ws t) as [|e u]; [by left|]. case_match; [by intros b [= <-]|].
    case_match; [|by left].
    pose proof (proj2 (proj2 (IH depth (skip_ws u))) (dict_set key v acc)) as Hm.
    destruct (members depth fuel (skip_ws u)) as [[pairs q]|e']; cbn in *; [|done].
    intros b [= <-]. by apply Hm.
Qed.

Lemma hooked_loads_agrees depth s :
  match hooked_loads_at _unique_json_object constant_hook depth s with
  | Ok v => json_loads_at depth s = Ok v
  | Err e => json_loads_at depth s = Err e ∨ hook_error e
  end.
Proof using constant_ok.
  unfold hooked_loads_at, json_loads_at.
  pose proof (proj1 (strict_agrees depth (2 * String.length s + 1) (skip_ws s))) as H.
  destruct (once _ _ _) as [[v rest]|e]; cbn in *.
  - rewrite (H v eq_refl). cbn. destruct (skip_ws rest); [done|by left].
  - destruct H as [->|H]; [by left|by right].
Qed.
End agreement.

(** The strict readers return a value only where [json.loads] returns the same,
    and otherwise raise a [ValueError], or meet the recursion limit where
    [json.loads] does. *)
Lemma limited_error_cases n s e : json_loads_within n s = Err e ∨ hook_error e →
  is_value_error e = true ∨ is_recursion_error e = true ∧ json_loads_within n s = Err e.
Proof.
  intros [H|[-> | ->]]; [|by left..].
  destruct (json_loads_within_total n s) as [[v Hv]|(e' & He & Hj)]; [congruence|].
  assert (e = e') as -> by congruence. destruct Hj as [Hj|Hj]; [left|by right]. by destruct e'.
Qed.

Lemma strict_json_loads_spec n s :
  match _strict_json_loads n s with
  | Ok v => json_loads_within n s = Ok v
  | Err e => is_value_error e = true ∨ is_recursion_error e = true ∧ json_loads_within n s = Err e
  end.
Proof.
  pose proof (hooked_loads_agrees _reject_nonfinite
                (λ _ _, or_intror (ex_intro _ _ (conj eq_refl (or_intror eq_refl)))) (Some n) s) as H.
  unfold _strict_json_loads. destruct (hooked_loads_at _ _ _ s) as [v|e]; [done|by apply limited_error_cases].
Qed.

Lemma unique_json_loads_spec n s :
  match unique_json_loads n s with
  | Ok v => json_loads_within n s = Ok v
  | Err e => is_value_error e = true ∨ is_recursion_error e = true ∧ json_loads_within n s = Err e
  end.
Proof.
  pose proof (hooked_loads_agrees keep_constant (λ _ _, or_introl eq_refl) (Some n) s) as H.
  unfold unique_json_loads. destruct (hooked_loads_at _ _ _ s) as [v|e]; [done|by apply limited_error_cases].
Qed.

(** ** Writing JSON

    [json.dumps(value, separators=(",", ":"), ...)] with the two options the
    callers vary: [enc] is the escaping of one character, of [ensure_ascii] or
    not, and [sorted] is [sort_keys]. *)

(** [ensure_ascii=False]: only the quote, the backslash and the controls are
    escaped. *)
Definition json_char_raw (c : ascii) : string :=
  if (ord c <? 32) || (ord c =? 34) || (ord c =? 92) then json_char c else String c "".

Definition ordered {V} (sorted : bool) (d : list (string * V)) : list (string * V) :=
  if sorted then sort_by str_cmp fst d else d.

Fixpoint chars_with (enc : ascii → string) (s : string) : string :=
  match s with
  | EmptyString => EmptyString
  | String c s => enc c +:+ chars_with enc s
  end.

Definition string_with (enc : ascii → string) (s : string) : string :=
  quote +:+ (chars_with enc s +:+ quote).

Fixpoint dumps_with (enc : ascii → string) (sorted : bool) (v : pyval) : string :=
  match v with
  | VStr s => string_with enc s
  | VList l => "[" +:+ (py_join "," (dumps_with enc sorted <$> l) +:+ "]")
  | VDict d =>
      let items := (λ kv, (kv.1, dumps_with enc sorted kv.2)) <$> d in
      let text := (λ kv, string_with enc kv.1 +:+ (":" +:+ kv.2)) <$> ordered sorted items in
      "{" +:+ (py_join "," text +:+ "}")
  | v => json_dumps v
  end.

(** The value read back: the keys in the order they were written. *)
Fixpoint canonical_with (sorted : bool) (v : pyval) : pyval :=
  match v with
  | VList l => VList (canonical_with sorted <$> l)
  | VDict d => VDict (ordered sorted ((λ kv, (kv.1, canonical_with sorted kv.2)) <$> d))
  | v => v
  end.

Lemma ordered_map_snd {V W} sorted (f : V → W) (l : list (string * V)) :
  ordered sorted ((λ kv, (kv.1, f kv.2)) <$> l) = (λ kv, (kv.1, f kv.2)) <$> ordered sorted l.
Proof. unfold ordered. destruct sorted; [apply sort_by_map_snd|done]. Qed.

Lemma ordered_perm {V} sorted (d : list (string * V)) : ordered sorted d ≡ₚ d.
Proof. unfold ordered. destruct sorted; [apply (sort_by_perm str_cmp)|done]. Qed.

Lemma dumps_with_json v : dumps_with json_char true v = json_dumps v.
Proof.
  induction v as [|b|z|lit|s|l IH|d IH] using pyval_ind; try done.
  - cbn. unfold string_with, json_string. f_equal. f_equal. induction s as [|c s IH]; [done|].
    cbn. by rewrite IH.
  - cbn. do 3 f_equal. induction IH as [|v l Hv _ IH]; [done|]. cbn. by rewrite Hv, IH.
  - cbn [dumps_with json_dumps]. do 3 f_equal.
    assert ((λ kv : string * pyval, (kv.1, dumps_with json_char true kv.2)) <$> d
      = (λ kv, (kv.1, json_dumps kv.2)) <$> d) as ->.
    { induction IH as [|kv d Hv _ IH]; [done|]. cbn. by rewrite Hv, IH. }
    apply list_fmap_ext. intros i kv _. f_equal. unfold string_with, json_string. f_equal. f_equal.
    induction kv.1 as [|c s IHs]; [done|]. cbn. by rewrite IHs.
Qed.

Lemma scanstring_raw c t : scanstring (json_char_raw c +:+ t) = cons_char c (scanstring t).
Proof. destruct c as [[] [] [] [] [] [] [] []]; reflexivity. Qed.

(** ** Reading back what was written

    The texts written have distinct members and no constant a [parse_constant]
    is called for, so a reader whose pairs hook keeps distinct members reads the
    value back. *)

Lemma follow_ws rest : string_forallb is_ws rest = true → follow rest.
Proof.
  unfold follow. destruct rest as [|c rest]; [done|]. cbn.
  intros [Hc _]%andb_true_iff. apply bool_decide_eq_true in Hc.
  unfold extends_number. destruct (is_digit_char c) eqn:Hd.
  - apply is_digit_char_ord in Hd. set_unfold. lia.
  - cbn. rewrite bool_decide_eq_false_2; [done|]. set_unfold. lia.
Qed.

Lemma skip_ws_all rest : string_forallb is_ws rest = true → skip_ws rest = "".
Proof. induction rest as [|c rest IH]; [done|]. cbn. intros [-> H]%andb_true_iff. auto. Qed.

Section dumped.
Context (enc : ascii → string) (sorted : bool).
Context (enc_ok : ∀ c t, scanstring (enc c +:+ t) = cons_char c (scanstring t)).
Context (pairs_hook : list (string * pyval) → result (list (string * pyval)))
        (constant_hook : string → pyval → result pyval).
Context (keeps : ∀ d, NoDup d.*1 → pairs_hook d = Ok d).

#[local] Notation once := (strict_once pairs_hook constant_hook None).
#[local] Notation elements := (strict_elements pairs_hook constant_hook None).
#[local] Notation members := (strict_members pairs_hook constant_hook None).
#[local] Notation dumps := (dumps_with enc sorted).
#[local] Notation canonical := (canonical_with sorted).

Definition strict_scans (v : pyval) : Prop := ∀ fuel rest,
  (String.length (dumps v) <= fuel)%nat → follow rest →
  once fuel (dumps v +:+ rest) = Ok (canonical v, rest).

Definition member_with (kv : string * pyval) : string :=
  string_with enc kv.1 +:+ (":" +:+ dumps kv.2).

Definition canonical_member_with (kv : string * pyval) : string * pyval := (kv.1, canonical kv.2).

Lemma dumps_with_dict d :
  dumps (VDict d) = "{" +:+ (py_join "," (member_with <$> ordered sorted d) +:+ "}").
Proof. cbn [dumps_with]. rewrite ordered_map_snd, <- list_fmap_compose. done. Qed.

Lemma canonical_with_dict d :
  canonical (VDict d) = VDict (canonical_member_with <$> ordered sorted d).
Proof. cbn [canonical_with]. by rewrite ordered_map_snd. Qed.

Lemma scanstring_with s rest : scanstring (chars_with enc s +:+ (quote +:+ rest)) = Ok (s, rest).
Proof using enc_ok.
  induction s as [|c s IH]; [reflexivity|].
  cbn [chars_with]. rewrite append_assoc, enc_ok, IH. done.
Qed.

Lemma dumps_with_opens v : jsonable v → opens (dumps v).
Proof.
  destruct v; try (by eexists _, _); apply json_dumps_opens.
Qed.

Lemma strict_once_number fuel lit v rest :
  scan_number lit = Ok (v, "") → follow rest → once (S fuel) (lit +:+ rest) = Ok (v, rest).
Proof.
  intros Hs Hf. pose proof (scan_constant_number _ _ _ rest Hs) as Hc.
  pose proof (scan_number_app _ _ rest Hs Hf) as Hn.
  apply scan_number_head in Hs as [(c & s' & -> & Hd)|(c & s' & -> & Hd)];
    rewrite !append_cons in *; cbn [strict_once]; rewrite Hc, Hn; [|reflexivity].
  apply is_digit_char_ord in Hd.
  by rewrite !(proj2 (Z.eqb_neq _ _)) by lia.
Qed.

Lemma strict_elements_join v l fuel rest :
  Forall strict_scans (v :: l) → Forall (opens ∘ dumps) (v :: l) →
  (String.length (py_join "," (dumps <$> v :: l)) < fuel)%nat →
  elements fuel (py_join "," (dumps <$> v :: l) +:+ String "]" rest) = Ok (canonical <$> v :: l, rest).
Proof.
  revert v fuel. induction l as [|w l IH]; intros v fuel [Hv Hs]%Forall_cons [Ho Hos]%Forall_cons Hl;
    (destruct fuel as [|fuel]; [lia|]); cbn [strict_elements].
  - cbn [fmap list_fmap py_join] in *. rewrite (Hv fuel) by (done || lia). reflexivity.
  - rewrite !fmap_cons, py_join_cons in *. rewrite <- !fmap_cons in *.
    rewrite !length_append in Hl. cbn [String.length] in Hl.
    rewrite !append_assoc, append_cons, append_nil_l. rewrite (Hv fuel) by (done || lia).
    rewrite bind_ret. cbn [skip_ws]. change (is_ws ",") with false. cbv iota.
    change (ord "," =? 93) with false. change (ord "," =? 44) with true. cbv iota.
    rewrite skip_ws_opens by (apply Forall_cons in Hos as [(c & r & Hc & Hw) _];
      destruct l as [|x l]; [|rewrite !fmap_cons, py_join_cons]; cbn [fmap list_fmap py_join];
      cbn [compose] in Hc; rewrite Hc, ?append_cons; by eexists _, _).
    rewrite IH by (done || lia). done.
Qed.

(** One member: its key, the colon and the value. *)
Lemma strict_members_step kv fuel rest :
  strict_scans kv.2 → opens (dumps kv.2) →
  (String.length (member_with kv) <= fuel)%nat → follow rest →
  members (S fuel) (member_with kv +:+ rest) =
    match skip_ws rest with
    | EmptyString => decode_error
    | String c rest =>
        if ord c =? 125 then Ok ([canonical_member_with kv], rest)
        else if ord c =? 44 then
          '(pairs, rest) ← members fuel (skip_ws rest); Ok (canonical_member_with kv :: pairs, rest)
        else decode_error
    end.
Proof using enc_ok.
  intros Hv Ho Hl Hf. unfold member_with, string_with, quote in *.
  rewrite !length_append in Hl. cbn [String.length] in Hl.
  rewrite !append_cons, !append_nil_l, !append_assoc, !append_cons, !append_nil_l.
  cbn [strict_members]. change (ord (char_at 34) =? 34) with true. cbv iota.
  pose proof (scanstring_with kv.1 (String ":" (dumps kv.2 +:+ rest))) as Hk.
  unfold quote in Hk. rewrite append_cons, append_nil_l in Hk. rewrite Hk, bind_ret.
  cbn [skip_ws]. change (is_ws ":") with false. cbv iota.
  change (ord ":" =? 58) with true. cbv iota.
  rewrite skip_ws_opens by done. rewrite (Hv fuel) by (done || lia). done.
Qed.

Lemma strict_members_join kv d fuel rest :
  Forall (strict_scans ∘ snd) (kv :: d) → Forall (opens ∘ dumps ∘ snd) (kv :: d) →
  (String.length (py_join "," (member_with <$> kv :: d)) < fuel)%nat →
  members fuel (py_join "," (member_with <$> kv :: d) +:+ String "}" rest)
  = Ok (canonical_member_with <$> kv :: d, rest).
Proof using enc_ok.
  revert kv fuel.
  induction d as [|kw d IH]; intros kv fuel [Hv Hs]%Forall_cons [Ho Hos]%Forall_cons Hl;
    (destruct fuel as [|fuel]; [lia|]).
  - cbn [fmap list_fmap py_join] in *. rewrite strict_members_step by (done || lia). done.
  - rewrite !fmap_cons, py_join_cons in *. rewrite <- !fmap_cons in *.
    rewrite !length_append in Hl. cbn [String.length] in Hl.
    rewrite !append_assoc, append_cons, append_nil_l.
    rewrite strict_members_step by (done || lia).
    cbn [skip_ws]. change (is_ws ",") with false. cbv iota.
    change (ord "," =? 125) with false. change (ord "," =? 44) with true. cbv iota.
    assert (∀ t, skip_ws (py_join "," (member_with <$> kw :: d) +:+ t)
      = py_join "," (member_with <$> kw :: d) +:+ t) as -> by (intros t; destruct d; reflexivity).
    rewrite IH by (done || lia). done.
Qed.

Lemma strict_scans_jsonable v : jsonable v → strict_scans v.
Proof using keeps enc_ok.
  induction v as [|b|z|lit|s|l IH|d IH] using pyval_ind; intros Hj [|fuel] rest Hl Hf;
    try (destruct (dumps_with_opens _ Hj) as (c & r & Hc & _); rewrite Hc in Hl; cbn in Hl; lia).
  - reflexivity.
  - by destruct b.
  - by apply strict_once_number; [apply scan_number_int|].
  - by apply strict_once_number.
  - cbn [dumps_with]. unfold string_with, quote. rewrite !append_cons, !append_nil_l, append_assoc.
    cbn [strict_once]. change (ord (char_at 34) =? 34) with true. cbv iota.
    pose proof (scanstring_with s rest) as Hs. unfold quote in Hs. by rewrite Hs.
  - destruct l as [|v l]; [reflexivity|].
    cbn [jsonable] in Hj. rewrite foldr_and_Forall in Hj.
    cbn [dumps_with] in *. rewrite !append_cons, !append_nil_l, append_assoc in *.
    cbn [String.length] in Hl. rewrite length_append in Hl. cbn [String.length] in Hl.
    assert (Forall (opens ∘ dumps) (v :: l)) as Ho
      by (eapply Forall_impl; [exact Hj|]; apply dumps_with_opens).
    assert (opens (py_join "," (dumps <$> v :: l) +:+ String "]" rest)) as (c & t & Ht & Hws & H93 & _).
    { apply Forall_cons in Ho as [(c & t & Hc & Hw) _]. cbn [compose] in Hc.
      destruct l as [|w l]; [|rewrite !fmap_cons, py_join_cons]; cbn [fmap list_fmap py_join];
        rewrite Hc, !append_cons; by eexists _, _. }
    cbn [strict_once]. change (ord "[" =? 34) with false. change (ord "[" =? 123) with false.
    change (ord "[" =? 91) with true. cbv iota. cbn [descend]. rewrite bind_ret.
    rewrite append_cons, append_nil_l. rewrite Ht. cbn [skip_ws]. rewrite Hws.
    rewrite (proj2 (Z.eqb_neq _ _)) by done. rewrite <- Ht.
    rewrite strict_elements_join; [done| |done|lia].
    rewrite Forall_forall in IH, Hj |- *. auto.
  - cbn [jsonable] in Hj. rewrite foldr_and_Forall in Hj. destruct Hj as [Hnd Hj].
    rewrite canonical_with_dict. rewrite dumps_with_dict in *.
    pose proof (ordered_perm sorted d) as Hp.
    rewrite <- Hp in Hnd. rewrite <- Hp in Hj. rewrite <- Hp in IH.
    destruct (ordered sorted d) as [|kv items].
    { rewrite !append_cons, !append_nil_l. cbn. by rewrite keeps by constructor. }
    rewrite !append_cons, !append_nil_l, append_assoc in *.
    cbn [String.length] in Hl. rewrite length_append in Hl. cbn [String.length] in Hl.
    rewrite append_cons, append_nil_l.
    assert (∃ t, py_join "," (member_with <$> kv :: items) +:+ String "}" rest
      = String (char_at 34) t) as [t Ht] by (destruct items; by eexists).
    cbn [strict_once]. change (ord "{" =? 34) with false. change (ord "{" =? 123) with true.
    cbv iota. cbn [descend]. rewrite bind_ret, Ht. cbn [skip_ws]. change (is_ws (char_at 34)) with false. cbv iota.
    change (ord (char_at 34) =? 125) with false. cbv iota. rewrite <- Ht.
    rewrite strict_members_join; [..|lia].
    + rewrite bind_ret. rewrite keeps; [done|]. by rewrite <- list_fmap_compose.
    + rewrite Forall_forall in IH, Hj |- *. intros x Hx. by apply IH, Hj.
    + eapply Forall_impl; [exact Hj|]. intros x. apply dumps_with_opens.
Qed.

(** [json.loads(json.dumps(v, ...) + white space, hooks)]. *)
Lemma hooked_loads_dumps v rest :
  jsonable v → string_forallb is_ws rest = true →
  hooked_loads pairs_hook constant_hook (dumps v +:+ rest) = Ok (canonical v).
Proof using keeps enc_ok.
  intros Hj Hr. unfold hooked_loads, hooked_loads_at. rewrite skip_ws_opens by (by apply dumps_with_opens).
  rewrite strict_scans_jsonable; [|done|rewrite length_append; lia|by apply follow_ws].
  rewrite bind_ret. by rewrite skip_ws_all.
Qed.
End dumped.

Lemma unique_members_fresh acc d :
  NoDup (acc ++ d).*1 → unique_members acc d = Ok (acc ++ d).
Proof.
  revert acc. induction d as [|[k v] d IH]; intros acc Hnd; cbn; [by rewrite app_nil_r|].
  assert (k ∉ acc.*1) as Hk.
  { rewrite fmap_app in Hnd. apply NoDup_app in Hnd as (_ & Hni & _). intros Hin. apply (Hni _ Hin). by left. }
  assert (dict_mem k acc = false) as ->.
  { apply bool_decide_eq_false. intros Hs. apply Hk. by apply elem_of_dict_keys. }
  rewrite dict_set_fresh by done. rewrite IH by (by rewrite <- app_assoc). by rewrite <- app_assoc.
Qed.

Lemma unique_json_object_keeps d : NoDup d.*1 → _unique_json_object d = Ok d.
Proof. intros H. by apply unique_members_fresh. Qed.

(** ** Members of a document read back *)

(** The members of a document, in the order they were written. *)
Definition arranged (sorted : bool) (d : list (string * pyval)) : list (string * pyval) :=
  ordered sorted ((λ kv, (kv.1, canonical_with sorted kv.2)) <$> d).

Lemma arranged_perm sorted d : arranged sorted d ≡ₚ (λ kv, (kv.1, canonical_with sorted kv.2)) <$> d.
Proof. apply ordered_perm. Qed.

Lemma arranged_keys sorted d : dict_keys (arranged sorted d) ≡ₚ dict_keys d.
Proof.
  unfold dict_keys. rewrite arranged_perm, <- list_fmap_compose. done.
Qed.

Lemma arranged_get sorted k d :
  NoDup d.*1 → dict_get k (arranged sorted d) = canonical_with sorted <$> dict_get k d.
Proof.
  intros Hnd. destruct (dict_get k d) as [v|] eqn:Hg; cbn.
  - apply elem_of_dict_get; [by rewrite arranged_keys|]. rewrite arranged_perm.
    apply dict_get_elem_of in Hg.
    by apply (list_elem_of_fmap_2 (λ kv, (kv.1, canonical_with sorted kv.2))) in Hg.
  - rewrite dict_get_None in *. by rewrite arranged_keys.
Qed.
