(* ===== verification/PyEq.v ===== *)
(** * Python values: equality and sequences

    [a == b] on decoded JSON: numbers compare by value across [bool], [int] and
    [float], lists element by element, and dictionaries by key, whatever the
    order of their keys. *)

From S2P Require Import Prelude PyTime Order Json JsonText.
#[local] Open Scope Z_scope.

(** The decimal [m * 10 ^ e] a float literal denotes, without its sign. *)
Definition literal_decimal (s : string) : option (Z * Z) :=
  match span is_digit_char s with
  | (EmptyString, _) => None
  | (whole, rest) =>
      let '(frac, rest) := scan_frac rest in
      let '(exponent, rest) := scan_exp rest in
      match rest with
      | EmptyString =>
          let fr := default "" frac in
          Some (digits_value 0 (whole +:+ fr), default 0 exponent - py_len fr)
      | _ => None
      end
  end.

(** The exact value [k * 2 ^ x] of a finite float, from its literal. *)
Definition float_value (lit : string) : option (Z * Z) :=
  let '(neg, magnitude) := scan_sign lit in
  match literal_decimal magnitude with
  | None => None
  | Some (m, e) =>
      let '(up, down) := pow_ratio 10 e in
      match binary64 (m * up) down with
      | Some (k, x) => Some ((if neg then - k else k), x)
      | None => None
      end
  end.

Definition float_eq_int (lit : string) (z : Z) : bool :=
  match float_value lit with
  | Some (k, x) => if 0 <=? x then k * 2 ^ x =? z else k =? z * 2 ^ (- x)
  | None => false
  end.

(** Literals are canonical: equal floats have the same literal, zeros apart;
    [nan] is not equal to itself. *)
Definition float_eq (a b : string) : bool :=
  (bool_decide (a = b) && negb (bool_decide (a = "nan")))
  || (bool_decide (a ∈ ["0.0"; "-0.0"]) && bool_decide (b ∈ ["0.0"; "-0.0"])).

(** The number a value is, a Boolean being 0 or 1. *)
Definition as_number (v : pyval) : option (Z + string) :=
  match v with
  | VBool b => Some (inl (if b then 1 else 0))
  | VInt z => Some (inl z)
  | VFloat lit => Some (inr lit)
  | _ => None
  end.

Definition number_eq (a b : Z + string) : bool :=
  match a, b with
  | inl m, inl n => m =? n
  | inl n, inr lit | inr lit, inl n => float_eq_int lit n
  | inr a, inr b => float_eq a b
  end.

Fixpoint py_eq (a b : pyval) : bool :=
  match a, b with
  | VNone, VNone => true
  | VStr s, VStr t => bool_decide (s = t)
  | VList l, VList k =>
      (fix eqs l k := match l, k with
                      | [], [] => true
                      | a :: l, b :: k => py_eq a b && eqs l k
                      | _, _ => false
                      end) l k
  | VDict d, VDict e =>
      Nat.eqb (length d) (length e)
      && forallb (λ kv : string * pyval, match dict_get kv.1 e with
                                         | Some b => py_eq kv.2 b
                                         | None => false
                                         end) d
  | _, _ => match as_number a, as_number b with
            | Some m, Some n => number_eq m n
            | _, _ => false
            end
  end.

Example py_eq_samples :
  py_eq (VInt 1) (VBool true) = true ∧ py_eq (VInt 1) (VFloat "1.0") = true
  ∧ py_eq (VFloat "-0.0") (VInt 0) = true ∧ py_eq (VInt (10 ^ 23)) (VFloat "1e+23") = false
  ∧ py_eq (VInt 99999999999999991611392) (VFloat "1e+23") = true
  ∧ py_eq (VFloat "0.5") (VInt 0) = false
  ∧ py_eq (VDict [("a", VList [VInt 0]); ("b", VNone)]) (VDict [("b", VNone); ("a", VList [VBool false])])
    = true
  ∧ py_eq (VList [VInt 1]) (VList [VInt 1; VInt 2]) = false.
Proof. vm_compute. repeat split. Qed.

(** Values without floats are equal to themselves. *)
Fixpoint no_floats (v : pyval) : Prop :=
  match v with
  | VFloat _ => False
  | VList l => foldr (λ v P, no_floats v ∧ P) True l
  | VDict d => NoDup d.*1 ∧ foldr (λ kv P, no_floats kv.2 ∧ P) True d
  | _ => True
  end.

Lemma foldr_no_floats (d : list (string * pyval)) kv :
  foldr (λ kv P, no_floats kv.2 ∧ P) True d → kv ∈ d → no_floats kv.2.
Proof. intros H Hin. revert H. induction Hin; cbn; naive_solver. Qed.

Lemma py_eq_refl v : no_floats v → py_eq v v = true.
Proof.
  induction v as [|b|z|lit|s|l IH|d IH]; intros H; cbn.
  - done.
  - by destruct b.
  - apply Z.eqb_refl.
  - done.
  - by apply bool_decide_eq_true.
  - cbn in H. induction IH as [|v l Hv _ IH]; [done|]. cbn in H. destruct H as [H1 H2].
    by rewrite Hv, IH.
  - cbn in H. destruct H as [Hnd H]. rewrite Nat.eqb_refl. cbn [andb].
    apply forallb_forall. intros [k v] Hin%list_elem_of_In. cbn [fst snd].
    rewrite (elem_of_dict_get k v d) by done. rewrite Forall_forall in IH.
    apply (IH _ Hin). exact (foldr_no_floats d (k, v) H Hin).
Qed.

(** ** Sequences *)

(** [tuple(v)]. *)
Fixpoint characters (s : string) : list pyval :=
  match s with
  | EmptyString => []
  | String c s => VStr (String c "") :: characters s
  end.

Definition py_tuple (v : pyval) : result (list pyval) :=
  match v with
  | VList l => Ok l
  | VDict d => Ok (VStr <$> dict_keys d)
  | VStr s => Ok (characters s)
  | _ => Err (TypeError "object is not iterable")
  end.

(** [len(set(values)) == len(values)]: hashing comes first. *)
Fixpoint no_repetition (l : list pyval) : bool :=
  match l with
  | [] => true
  | v :: l => negb (existsb (py_eq v) l) && no_repetition l
  end.

Definition all_distinct (l : list pyval) : result bool :=
  _ ← require (forallb py_hashable l) (TypeError "unhashable type");
  Ok (no_repetition l).

Lemma no_repetition_texts (l : list string) : no_repetition (VStr <$> l) = bool_decide (NoDup l).
Proof.
  induction l as [|s l IH]; [done|]. cbn [fmap list_fmap no_repetition]. rewrite IH.
  rewrite (bool_decide_ext (NoDup (s :: l)) (s ∉ l ∧ NoDup l)) by apply NoDup_cons.
  rewrite bool_decide_and, bool_decide_not. do 2 f_equal.
  rewrite eq_iff_eq_true, existsb_exists, bool_decide_eq_true. split.
  - intros (v & (t & -> & Ht)%list_elem_of_In%list_elem_of_fmap & Heq). cbn in Heq.
    by apply bool_decide_eq_true in Heq as ->.
  - intros Hs. exists (VStr s). split; [apply list_elem_of_In, list_elem_of_fmap; by exists s|].
    cbn. by apply bool_decide_eq_true.
Qed.

Lemma all_distinct_texts (l : list string) : all_distinct (VStr <$> l) = Ok (bool_decide (NoDup l)).
Proof.
  unfold all_distinct. replace (forallb py_hashable (VStr <$> l)) with true.
  { cbn [require]. by rewrite bind_ret, no_repetition_texts. }
  symmetry. apply forallb_forall. intros v (s & -> & _)%list_elem_of_In%list_elem_of_fmap. done.
Qed.
