(* ===== verification/ModelPolicy.v ===== *)
(** * The model policy registry

    [src/src/the_hive/selection/model_policy.py]: the definitions of the models
    an agent may be given, their lookup by identifier and alias, and the reader
    of the policy document.  The text of the file, or the reason it could not be
    read, is an argument of the reader. *)

From S2P Require Import Prelude PyTime Order DynamicPool Json JsonText PyEq.
#[local] Open Scope Z_scope.

Definition RETIRED_MODEL_SELECTORS : list string := ["gpt-5.3-codex-spark"; "spark"].

Record ModelDefinition := {
  md_model_id : string;
  md_aliases : list string;
  md_role : string;
  md_provider : string;
  md_capabilities : list string;
  md_budget_key : string;
  md_enabled : bool;
  md_family : string;
  md_rank : Z;
  md_reasoning_levels : list string;
  md_default_reasoning : string;
  md_cost_tier : string;
  md_spawn_behavior : string;
}.

Definition policy_text_ok (s : string) : bool :=
  (1 <=? py_len s) && (py_len s <=? 128) && negb (has_control s).

Definition policy_text (code : string) (v : pyval) : result string :=
  match v with
  | VStr s => if policy_text_ok s then Ok s else Err (ModelPolicyError code)
  | _ => Err (ModelPolicyError code)
  end.

(** [if v not in {...}: raise ModelPolicyError(code)]. *)
Definition policy_choice (code : string) (l : list string) (v : pyval) : result string :=
  known ← py_in_set v l;
  match v with
  | VStr s => _ ← require known (ModelPolicyError code); Ok s
  | _ => Err (ModelPolicyError code)
  end.

Definition policy_rank (v : pyval) : result Z :=
  match v with
  | VInt z => if (0 <=? z) && (z <=? 10000) then Ok z else Err (ModelPolicyError "invalid_model_rank")
  | _ => Err (ModelPolicyError "invalid_model_rank")
  end.

Definition VALID_REASONING : list string := ["low"; "medium"; "high"; "xhigh"; "max"].

(** The condition stops at the first clause that holds, so a level that cannot
    be hashed raises before the levels are looked up. *)
Definition policy_reasoning (levels : list pyval) (default : pyval) : result (list string * string) :=
  let invalid := ModelPolicyError "invalid_model_reasoning" in
  _ ← require (negb (bool_decide (length levels = 0%nat))) invalid;
  distinct ← all_distinct levels;
  _ ← require distinct invalid;
  names ← mapM_result (λ v, policy_choice "invalid_model_reasoning" VALID_REASONING v) levels;
  match default with
  | VStr s => _ ← require (bool_decide (s ∈ names)) invalid; Ok (names, s)
  | _ => Err invalid
  end.

(** [ModelDefinition(...)] with its [__post_init__]. *)
Definition ModelDefinition_new (model_id : pyval) (aliases : list pyval) (role provider : pyval)
  (capabilities : list pyval) (budget_key enabled family rank : pyval) (levels : list pyval)
  (default_reasoning cost_tier spawn_behavior : pyval) : result ModelDefinition :=
  model_id ← policy_text "invalid_model_id" model_id;
  provider ← policy_text "invalid_provider" provider;
  budget_key ← policy_text "invalid_budget_key" budget_key;
  family ← policy_text "invalid_family" family;
  cost_tier ← policy_text "invalid_cost_tier" cost_tier;
  role ← policy_choice "unknown_model_role" ["primary"; "secondary_simple"] role;
  _ ← require (Z.of_nat (length aliases) <=? 32) (ModelPolicyError "invalid_model_aliases");
  distinct ← all_distinct aliases;
  _ ← require distinct (ModelPolicyError "invalid_model_aliases");
  _ ← require (Z.of_nat (length capabilities) <=? 64) (ModelPolicyError "invalid_model_capabilities");
  aliases ← mapM_result (policy_text "invalid_model_value") aliases;
  capabilities ← mapM_result (policy_text "invalid_model_value") capabilities;
  enabled ← match enabled with
            | VBool b => Ok b
            | _ => Err (ModelPolicyError "invalid_model_enabled")
            end;
  rank ← policy_rank rank;
  '(levels, default_reasoning) ← policy_reasoning levels default_reasoning;
  spawn_behavior ← policy_choice "invalid_model_spawn_behavior" ["manual"; "autonomous"; "required"]
                     spawn_behavior;
  Ok {| md_model_id := model_id; md_aliases := aliases; md_role := role; md_provider := provider;
        md_capabilities := capabilities; md_budget_key := budget_key; md_enabled := enabled;
        md_family := family; md_rank := rank; md_reasoning_levels := levels;
        md_default_reasoning := default_reasoning; md_cost_tier := cost_tier;
        md_spawn_behavior := spawn_behavior |}.

(** ** The registry *)

(** Both dictionaries, in the order of the definitions. *)
Record ModelPolicyRegistry := {
  _definitions : list (string * ModelDefinition);
  _aliases : list (string * ModelDefinition);
}.

Definition model_ids (ds : list ModelDefinition) : list string := md_model_id <$> ds.
Definition model_aliases (ds : list ModelDefinition) : list string := ds ≫= md_aliases.

Definition ModelPolicyRegistry_new (ds : list ModelDefinition) : result ModelPolicyRegistry :=
  _ ← require (bool_decide (NoDup (model_ids ds)) && bool_decide (NoDup (model_aliases ds))
               && negb (existsb (λ i, bool_decide (i ∈ model_aliases ds)) (model_ids ds))
               && bool_decide (NoDup (md_budget_key <$> ds)))
        (ModelPolicyError "duplicate_model_id_or_alias");
  _ ← require (existsb (λ d, bool_decide (md_role d = "primary")) ds)
        (ModelPolicyError "primary_model_required");
  Ok {| _definitions := (λ d, (md_model_id d, d)) <$> ds;
        _aliases := ds ≫= (λ d, (λ a, (a, d)) <$> md_aliases d) |}.

Definition not_spark (d : ModelDefinition) : option ModelDefinition :=
  if bool_decide (md_family d = "spark") then None else Some d.

Definition get_exact (r : ModelPolicyRegistry) (model_id : string) : option ModelDefinition :=
  if bool_decide (model_id ∈ RETIRED_MODEL_SELECTORS) then None
  else d ← dict_get model_id (_definitions r); not_spark d.

Definition resolve_alias (r : ModelPolicyRegistry) (alias : string) : option ModelDefinition :=
  if bool_decide (alias ∈ RETIRED_MODEL_SELECTORS) then None
  else d ← dict_get alias (_aliases r); not_spark d.

Definition definition_public (d : ModelDefinition) : list (string * pyval) :=
  [ ("model_id", VStr (md_model_id d)); ("aliases", VList (VStr <$> md_aliases d));
    ("role", VStr (md_role d)); ("provider", VStr (md_provider d));
    ("capabilities", VList (VStr <$> md_capabilities d)); ("budget_key", VStr (md_budget_key d));
    ("enabled", VBool (md_enabled d)); ("family", VStr (md_family d)); ("rank", VInt (md_rank d));
    ("reasoning_levels", VList (VStr <$> md_reasoning_levels d));
    ("default_reasoning", VStr (md_default_reasoning d)); ("cost_tier", VStr (md_cost_tier d));
    ("spawn_behavior", VStr (md_spawn_behavior d)) ].

(** What the registry hands out. *)
Definition offered (d : ModelDefinition) : bool :=
  negb (bool_decide (md_model_id d ∈ RETIRED_MODEL_SELECTORS)) && negb (bool_decide (md_family d = "spark")).

Definition registry_public (r : ModelPolicyRegistry) : list (list (string * pyval)) :=
  definition_public <$> filter offered (dict_values (_definitions r)).

(** ** The document *)

Definition definition_fields : list string :=
  [ "model_id"; "aliases"; "role"; "provider"; "capabilities"; "budget_key"; "enabled"; "family";
    "rank"; "reasoning_levels"; "default_reasoning"; "cost_tier"; "spawn_behavior" ].

(** [raw.get(k, d)]. *)
Definition field_or (d : pyval) (k : string) (raw : list (string * pyval)) : pyval :=
  default d (dict_get k raw).

(** The call's arguments, evaluated in the order they are written. *)
Definition definition_call (raw : list (string * pyval)) : result ModelDefinition :=
  model_id ← getitem "model_id" raw;
  aliases ← py_tuple (field_or (VList []) "aliases" raw);
  role ← getitem "role" raw;
  provider ← getitem "provider" raw;
  capabilities ← py_tuple (field_or (VList []) "capabilities" raw);
  budget_key ← getitem "budget_key" raw;
  let secondary := py_eq_str role "secondary_simple" in
  levels ← py_tuple (field_or (VList (VStr <$> ["low"; "medium"; "high"; "xhigh"]))
                       "reasoning_levels" raw);
  ModelDefinition_new model_id aliases role provider capabilities budget_key
    (field_or (VBool true) "enabled" raw)
    (field_or (VStr (if secondary then "spark" else "primary")) "family" raw)
    (field_or (VInt (if secondary then 10 else 100)) "rank" raw) levels
    (field_or (VStr "medium") "default_reasoning" raw) (field_or budget_key "cost_tier" raw)
    (field_or (VStr "manual") "spawn_behavior" raw).

Definition definition_handled (e : exn) : bool := is_key_error e || is_type_error e.

Definition definition_of_payload (raw : pyval) : result ModelDefinition :=
  match raw with
  | VDict d =>
      _ ← require (keys_within d definition_fields) (ModelPolicyError "invalid_model_definition");
      reraise definition_handled (λ _, ModelPolicyError "invalid_model_definition") (definition_call d)
  | _ => Err (ModelPolicyError "invalid_model_definition")
  end.

Definition _registry_from_payload (payload : pyval) : result ModelPolicyRegistry :=
  match payload with
  | VDict d =>
      _ ← require (py_eq_int (field_or VNone "schema_version" d) 1
                   && keys_within d ["schema_version"; "models"]) (ModelPolicyError "invalid_model_policy");
      match field_or VNone "models" d with
      | VList raws => ds ← mapM_result definition_of_payload raws; ModelPolicyRegistry_new ds
      | _ => Err (ModelPolicyError "invalid_model_policy")
      end
  | _ => Err (ModelPolicyError "invalid_model_policy")
  end.

Definition read_handled (e : exn) : bool :=
  match e with OSError _ | UnicodeError _ | JSONDecodeError _ => true | _ => false end.

(** [usable] is the test of the path: absolute and no link; [text] is what
    reading the file answered. *)
Definition load_model_policy (usable : bool) (text : result string) : result ModelPolicyRegistry :=
  _ ← require usable (ModelPolicyError "invalid_model_policy_path");
  payload ← reraise read_handled (λ _, ModelPolicyError "model_policy_unavailable")
              (text ≫= json_loads);
  _registry_from_payload payload.

(** [text] is what decoding the bytes answered. *)
Definition load_model_policy_bytes (text : result string) : result ModelPolicyRegistry :=
  payload ← reraise (λ e, match e with UnicodeError _ | JSONDecodeError _ => true | _ => false end)
              (λ _, ModelPolicyError "invalid_model_policy") (text ≫= json_loads);
  _registry_from_payload payload.

(** ** Lookups *)

Lemma registry_Ok ds r :
  ModelPolicyRegistry_new ds = Ok r ↔
  (NoDup (model_ids ds) ∧ NoDup (model_aliases ds) ∧ (∀ i, i ∈ model_ids ds → i ∉ model_aliases ds)
   ∧ NoDup (md_budget_key <$> ds) ∧ ∃ d, d ∈ ds ∧ md_role d = "primary")
  ∧ r = {| _definitions := (λ d, (md_model_id d, d)) <$> ds;
           _aliases := ds ≫= (λ d, (λ a, (a, d)) <$> md_aliases d) |}.
Proof.
  assert (negb (existsb (λ i, bool_decide (i ∈ model_aliases ds)) (model_ids ds)) = true
          ↔ ∀ i, i ∈ model_ids ds → i ∉ model_aliases ds) as Hdisj.
  { rewrite negb_true_iff, <- not_true_iff_false, existsb_exists. setoid_rewrite bool_decide_eq_true.
    setoid_rewrite <- list_elem_of_In. naive_solver. }
  assert (existsb (λ d, bool_decide (md_role d = "primary")) ds = true
          ↔ ∃ d, d ∈ ds ∧ md_role d = "primary") as Hprim.
  { rewrite existsb_exists. setoid_rewrite bool_decide_eq_true. by setoid_rewrite <- list_elem_of_In. }
  unfold ModelPolicyRegistry_new. split.
  - intros H. inv_result. rewrite !andb_true_iff, Hdisj, !bool_decide_eq_true in *. naive_solver.
  - intros ((H1 & H2 & H3%Hdisj & H4 & H5%Hprim) & ->).
    rewrite H3, H5, !bool_decide_eq_true_2 by done. done.
Qed.

Lemma not_spark_Some d e : not_spark d = Some e ↔ e = d ∧ md_family d ≠ "spark".
Proof. unfold not_spark. case_bool_decide; naive_solver. Qed.

Lemma alias_keys ds :
  dict_keys (ds ≫= (λ d, (λ a, (a, d)) <$> md_aliases d)) = model_aliases ds.
Proof.
  induction ds as [|d ds IH]; [done|]. unfold dict_keys in *. cbn [mbind list_bind model_aliases].
  rewrite fmap_app, IH. f_equal. rewrite <- list_fmap_compose. apply list_fmap_id.
Qed.

Lemma definition_keys ds : dict_keys ((λ d, (md_model_id d, d)) <$> ds) = model_ids ds.
Proof. unfold dict_keys. by rewrite <- list_fmap_compose. Qed.

Lemma dict_get_NoDup {V} (d : list (string * V)) k v :
  NoDup (dict_keys d) → dict_get k d = Some v ↔ (k, v) ∈ d.
Proof. intros Hd. split; [apply dict_get_elem_of|by apply elem_of_dict_get]. Qed.

(** A registry that was built answers [get_exact i] exactly with the one
    listed definition of that identifier, and [resolve_alias a] exactly with the
    one listed definition that has that alias; neither answers for a retired
    selector or a definition of the spark family, and no text is both the
    identifier of a model and the alias of one. *)
Lemma model_policy_lookup ds r :
  ModelPolicyRegistry_new ds = Ok r →
  (∀ i d, get_exact r i = Some d ↔
     d ∈ ds ∧ md_model_id d = i ∧ md_family d ≠ "spark" ∧ i ∉ RETIRED_MODEL_SELECTORS)
  ∧ (∀ a d, resolve_alias r a = Some d ↔
     d ∈ ds ∧ a ∈ md_aliases d ∧ md_family d ≠ "spark" ∧ a ∉ RETIRED_MODEL_SELECTORS)
  ∧ (∀ i a d e, get_exact r i = Some d → resolve_alias r a = Some e → i ≠ a).
Proof.
  intros [(H1 & H2 & H3 & H4 & H5) ->]%registry_Ok. set (r := Build_ModelPolicyRegistry _ _).
  assert (∀ i d, dict_get i (_definitions r) = Some d ↔ d ∈ ds ∧ md_model_id d = i) as Hid.
  { intros i d. rewrite dict_get_NoDup by (rewrite <- definition_keys in H1; exact H1).
    change (_definitions r) with ((λ d, (md_model_id d, d)) <$> ds). rewrite list_elem_of_fmap.
    naive_solver. }
  assert (∀ a d, dict_get a (_aliases r) = Some d ↔ d ∈ ds ∧ a ∈ md_aliases d) as Hal.
  { intros a d. rewrite dict_get_NoDup by (rewrite <- alias_keys in H2; exact H2).
    change (_aliases r) with (ds ≫= (λ d, (λ a, (a, d)) <$> md_aliases d)). rewrite list_elem_of_bind. setoid_rewrite list_elem_of_fmap. naive_solver. }
  assert (∀ i d, get_exact r i = Some d ↔
    d ∈ ds ∧ md_model_id d = i ∧ md_family d ≠ "spark" ∧ i ∉ RETIRED_MODEL_SELECTORS) as Hget.
  { intros i d. unfold get_exact. case_bool_decide; [naive_solver|].
    rewrite bind_Some. setoid_rewrite not_spark_Some. setoid_rewrite Hid. naive_solver. }
  assert (∀ a d, resolve_alias r a = Some d ↔
    d ∈ ds ∧ a ∈ md_aliases d ∧ md_family d ≠ "spark" ∧ a ∉ RETIRED_MODEL_SELECTORS) as Hres.
  { intros a d. unfold resolve_alias. case_bool_decide; [naive_solver|].
    rewrite bind_Some. setoid_rewrite not_spark_Some. setoid_rewrite Hal. naive_solver. }
  split_and!; [done..|]. intros i a d e (Hd & <- & _)%Hget (He & Ha & _)%Hres <-.
  apply (H3 (md_model_id d)); [by apply list_elem_of_fmap_2|].
  apply list_elem_of_bind. by exists e.
Qed.
