(* ===== verification/HiveState.v ===== *)
(** * Private Hive state files

    [src/src/the_hive/hive/state.py]: JSON documents and bounded JSONL logs
    under a private root, replaced atomically under one cross-process lock.
    A state is the files below the root; what the operating system answers to
    the lock, directory and write calls is an argument.  Bytes are characters
    of a string, decoded as UTF-8 up to code point 255. *)

From S2P Require Import Prelude PyTime Order Json JsonText Sha256.
#[local] Open Scope Z_scope.

Definition MAX_HIVE_STATE_BYTES : Z := 4 * 1024 * 1024.
Definition MAX_HIVE_JSONL_RECORDS : Z := 4096.
Definition MAX_RELATIVE_STATE_PART : Z := 128.

(** ** Bytes *)

(** [raw.decode("utf-8")]: a sequence for a code point above 255 is outside
    the model and is rejected like an invalid one. *)
Fixpoint utf8_decode (s : string) : option string :=
  match s with
  | EmptyString => Some ""
  | String c rest =>
      if ord c <? 128 then String c <$> utf8_decode rest
      else if (194 <=? ord c) && (ord c <=? 195) then
        match rest with
        | String d rest =>
            if (128 <=? ord d) && (ord d <? 192)
            then String (char_at ((ord c - 192) * 64 + (ord d - 128))) <$> utf8_decode rest
            else None
        | EmptyString => None
        end
      else None
  end.

(** [raw.splitlines()] for bytes: lines end in [\n], [\r] or [\r\n], and there
    is no empty last line. *)
Fixpoint split_lines (s : string) : list string :=
  match s with
  | EmptyString => []
  | String c rest =>
      if ord c =? 10 then "" :: split_lines rest
      else if ord c =? 13 then
        "" :: match rest with
              | String d rest' => if ord d =? 10 then split_lines rest' else split_lines rest
              | EmptyString => []
              end
      else match split_lines rest with
           | [] => [String c ""]
           | line :: lines => String c line :: lines
           end
  end.

(** [line.strip()] is empty. *)
Definition blank (line : string) : bool :=
  string_forallb (λ c, bool_decide (ord c ∈ [32; 9; 10; 11; 12; 13])) line.

(** ** Files *)

(** What a path holds: nothing, a node [lstat] and [open] fail on, a link, a
    node of some size that is not a regular file with one link, or a regular
    file, which is [trusted] when its owner and mode are the store's. *)
Inductive node :=
  | Missing
  | Inaccessible
  | Symlink
  | Irregular (size : Z)
  | Regular (trusted : bool) (bytes : string).

Abbreviation files := (list (string * node)).
Abbreviation FilesM := (ST files).

(** The outcome of a replacement: done, refused with the old file in place,
    or done but with a failing [fsync] of the directory. *)
Inductive write_answer := Written | WriteRefused | WrittenUnsynced.

(** What the operating system answers during one call: taking the lock (with
    the checks on the root it holds), preparing and resolving the parent
    directory, and replacing a file. *)
Record answers := {
  lock_answer : result ();
  directory_answer : result ();
  write_answered : write_answer;
}.

Record HiveStateStore := { _read_only : bool }.

Section state.
Context (self : HiveStateStore).

Definition part_ok (part : string) : bool :=
  (1 <=? py_len part) && (py_len part <=? MAX_RELATIVE_STATE_PART)
  && negb (bool_decide (part ∈ ["."; ".."])) && negb (has_control part).

(** A relative path is its parts; [None] is an absolute path or another
    value. *)
Definition _validate_relative (relative : option (list string)) : result (list string) :=
  match relative with
  | Some (part :: parts) =>
      if forallb part_ok (part :: parts) then Ok (part :: parts)
      else Err (HiveStateError "invalid_state_path")
  | _ => Err (HiveStateError "invalid_state_path")
  end.

Definition _path (os : answers) (relative : option (list string)) : result string :=
  parts ← _validate_relative relative;
  _ ← directory_answer os;
  Ok (py_join "/" parts).

Definition _ensure_writable : result () :=
  require (negb (_read_only self)) (HiveStateError "state_read_only").

Definition _validate_limit (max_bytes : Z) : result () :=
  require ((1 <=? max_bytes) && (max_bytes <=? MAX_HIVE_STATE_BYTES))
    (HiveStateError "invalid_state_limit").

Definition _validate_jsonl_limits (max_records max_bytes : Z) : result () :=
  _ ← require ((1 <=? max_records) && (max_records <=? MAX_HIVE_JSONL_RECORDS))
        (HiveStateError "invalid_state_limit");
  _validate_limit max_bytes.

Definition node_at (fs : files) (path : string) : node := default Missing (dict_get path fs).

Definition _read_bytes (n : node) (max_bytes : Z) : result string :=
  match n with
  | Missing => Err (HiveStateError "state_not_found")
  | Inaccessible | Symlink => Err (HiveStateError "state_unavailable")
  | Irregular size =>
      Err (HiveStateError (if size <=? max_bytes then "state_file_untrusted" else "state_oversize"))
  | Regular trusted raw =>
      if max_bytes <? py_len raw then Err (HiveStateError "state_oversize")
      else if _read_only self && negb trusted then Err (HiveStateError "state_file_untrusted")
      else Ok raw
  end.

Definition _exists (n : node) : result bool :=
  match n with
  | Missing => Ok false
  | Inaccessible => Err (HiveStateError "state_unavailable")
  | Symlink | Irregular _ => Err (HiveStateError "state_file_untrusted")
  | Regular _ _ => Ok true
  end.

(** [json.dumps] with sorted keys and a newline, as bytes. *)
Definition _encode (payload : pyval) : result string :=
  let encoded := json_dumps payload +:+ String (char_at 10) "" in
  if MAX_HIVE_STATE_BYTES <? py_len encoded then Err (HiveStateError "state_oversize")
  else Ok encoded.

(** The [except] clauses around [json.loads]. *)
Definition json_handled (e : exn) : bool :=
  match e with UnicodeError _ | JSONDecodeError _ => true | _ => false end.

(** [json.loads(raw.decode("utf-8"))], a mapping. *)
Definition decode_mapping (malformed not_mapping : string) (raw : string)
  : result (list (string * pyval)) :=
  payload ← reraise json_handled (λ _, HiveStateError malformed)
    (match utf8_decode raw with
     | Some text => json_loads text
     | None => Err (UnicodeError "utf-8")
     end);
  match payload with
  | VDict d => Ok d
  | _ => Err (HiveStateError not_mapping)
  end.

Definition _atomic_replace (os : answers) (path encoded : string) : FilesM () := λ fs,
  match _ensure_writable with
  | Err e => (fs, Err e)
  | Ok _ =>
      if MAX_HIVE_STATE_BYTES <? py_len encoded then (fs, Err (HiveStateError "state_oversize"))
      else
        let replaced := dict_set path (Regular true encoded) fs in
        match node_at fs path with
        | Inaccessible => (fs, Err (HiveStateError "state_write_failed"))
        | Symlink | Irregular _ => (fs, Err (HiveStateError "state_file_untrusted"))
        | Missing | Regular _ _ =>
            match write_answered os with
            | Written => (replaced, Ok ())
            | WriteRefused => (fs, Err (HiveStateError "state_write_failed"))
            | WrittenUnsynced => (replaced, Err (HiveStateError "state_write_failed"))
            end
        end
  end.

(** [with self._lock()]. *)
Definition locked {A} (os : answers) (body : FilesM A) : FilesM A :=
  _ ← st_lift (lock_answer os); body.

(** ** Documents *)

Definition read_json_locked (os : answers) (relative : option (list string)) (max_bytes : Z)
  : FilesM (list (string * pyval)) :=
  path ← st_lift (_path os relative);
  _ ← st_lift (_validate_limit max_bytes);
  fs ← st_get;
  raw ← st_lift (_read_bytes (node_at fs path) max_bytes);
  st_lift (decode_mapping "invalid_state_json" "invalid_state_document" raw).

Definition read_json os relative max_bytes : FilesM (list (string * pyval)) :=
  _ ← st_lift (_validate_limit max_bytes);
  locked os (read_json_locked os relative max_bytes).

(** [encoded] is the text [replace_json] computed before taking the lock. *)
Definition replace_json_locked (os : answers) (relative : option (list string)) (payload : pyval)
  (encoded : option string) : FilesM () :=
  _ ← st_lift _ensure_writable;
  path ← st_lift (_path os relative);
  match payload with
  | VDict _ =>
      text ← st_lift (match encoded with Some text => Ok text | None => _encode payload end);
      _atomic_replace os path text
  | _ => st_lift (Err (HiveStateError "invalid_state_document"))
  end.

Definition replace_json os relative (payload : pyval) : FilesM () :=
  _ ← st_lift _ensure_writable;
  match payload with
  | VDict _ =>
      encoded ← st_lift (_encode payload);
      locked os (replace_json_locked os relative payload (Some encoded))
  | _ => st_lift (Err (HiveStateError "invalid_state_document"))
  end.

(** ** Bounded JSONL logs *)

(** [[line for line in raw.splitlines() if line.strip()]]. *)
Definition log_lines (raw : string) : list string :=
  List.filter (λ line, negb (blank line)) (split_lines raw).

(** [lines[-n:]]: the whole list when [n] is zero. *)
Definition last_lines {A} (n : Z) (lines : list A) : list A :=
  if n =? 0 then lines else drop (length lines - Z.to_nat n) lines.

Definition newline : string := String (char_at 10) "".

Definition append_lines (existing : string) (encoded_line : string) (max_records : Z) : string :=
  let lines := log_lines existing in
  let lines := if max_records <=? Z.of_nat (length lines)
               then last_lines (max_records - 1) lines else lines in
  py_join newline (lines ++ [encoded_line]) +:+ newline.

Definition append_bounded_jsonl (os : answers) (relative : option (list string)) (payload : pyval)
  (max_records max_bytes : Z) : FilesM () :=
  _ ← st_lift _ensure_writable;
  path ← st_lift (_path os relative);
  match payload with
  | VDict _ =>
      _ ← st_lift (_validate_jsonl_limits max_records max_bytes);
      _ ← st_lift (_encode payload);
      locked os
        (fs ← st_get;
         present ← st_lift (_exists (node_at fs path));
         existing ← st_lift (match present with
                             | true => _read_bytes (node_at fs path) max_bytes
                             | false => Ok ""
                             end);
         let candidate := append_lines existing (json_dumps payload) max_records in
         if max_bytes <? py_len candidate then st_lift (Err (HiveStateError "state_oversize"))
         else _atomic_replace os path candidate)
  | _ => st_lift (Err (HiveStateError "invalid_state_document"))
  end.

Fixpoint parse_lines (count max_records : Z) (lines : list string)
  : result (list (list (string * pyval))) :=
  match lines with
  | [] => Ok []
  | line :: lines =>
      if blank line then parse_lines count max_records lines
      else
        record ← decode_mapping "invalid_state_jsonl" "invalid_state_jsonl" line;
        _ ← require (count + 1 <=? max_records) (HiveStateError "state_jsonl_full");
        records ← parse_lines (count + 1) max_records lines;
        Ok (record :: records)
  end.

Definition read_bounded_jsonl_locked (os : answers) (relative : option (list string))
  (max_records max_bytes : Z) : FilesM (list (list (string * pyval))) :=
  _ ← st_lift (_validate_jsonl_limits max_records max_bytes);
  path ← st_lift (_path os relative);
  fs ← st_get;
  present ← st_lift (_exists (node_at fs path));
  match present with
  | false => mret []
  | true =>
      raw ← st_lift (_read_bytes (node_at fs path) max_bytes);
      st_lift (parse_lines 0 max_records (split_lines raw))
  end.

Definition read_bounded_jsonl os relative max_records max_bytes
  : FilesM (list (list (string * pyval))) :=
  _ ← st_lift (_validate_jsonl_limits max_records max_bytes);
  locked os (read_bounded_jsonl_locked os relative max_records max_bytes).

(** ** Private bytes *)

(** [_validate_private_file] on what [lstat] reports of a node. *)
Definition _validate_private_file (n : node) (max_bytes : Z) : result () :=
  match n with
  | Irregular size =>
      Err (HiveStateError (if size <=? max_bytes then "state_file_untrusted" else "state_oversize"))
  | Regular trusted raw =>
      _ ← require (py_len raw <=? max_bytes) (HiveStateError "state_oversize");
      require trusted (HiveStateError "state_file_untrusted")
  | _ => Err (HiveStateError "state_file_untrusted")
  end.

Definition _read_private_bytes_locked (os : answers) (relative : option (list string))
  (max_bytes : Z) : FilesM string :=
  path ← st_lift (_path os relative);
  fs ← st_get;
  match node_at fs path with
  | Missing => st_lift (Err (HiveStateError "state_not_found"))
  | Inaccessible | Symlink => st_lift (Err (HiveStateError "state_unavailable"))
  | Irregular _ as n => _ ← st_lift (_validate_private_file n max_bytes); mret ""
  | Regular _ raw as n => _ ← st_lift (_validate_private_file n max_bytes); mret raw
  end.

Definition read_private_bytes os relative (max_bytes : Z) : FilesM string :=
  _ ← st_lift (_validate_limit max_bytes);
  locked os (_read_private_bytes_locked os relative max_bytes).

Definition _replace_private_bytes_locked (os : answers) (relative : option (list string))
  (payload : string) : FilesM () :=
  _ ← st_lift _ensure_writable;
  path ← st_lift (_path os relative);
  fs ← st_get;
  _ ← st_lift (match node_at fs path with
               | Missing => Ok ()
               | Inaccessible => Err (HiveStateError "state_unavailable")
               | existing => _validate_private_file existing MAX_HIVE_STATE_BYTES
               end);
  let replaced := dict_set path (Regular true payload) fs in
  match write_answered os with
  | Written => st_put replaced
  | WriteRefused => st_lift (Err (HiveStateError "state_write_failed"))
  | WrittenUnsynced =>
      _ ← st_put replaced;
      st_lift (Err (HiveStateError "state_write_failed"))
  end.

Definition replace_private_bytes os relative (payload : string) : FilesM () :=
  _ ← st_lift _ensure_writable;
  _ ← st_lift (require (py_len payload <=? MAX_HIVE_STATE_BYTES) (HiveStateError "state_oversize"));
  locked os (_replace_private_bytes_locked os relative payload).

Definition _remove_private_bytes_locked (os : answers) (relative : option (list string))
  : FilesM () :=
  _ ← st_lift _ensure_writable;
  path ← st_lift (_path os relative);
  fs ← st_get;
  match node_at fs path with
  | Missing => mret ()
  | Inaccessible => st_lift (Err (HiveStateError "state_unavailable"))
  | current =>
      _ ← st_lift (_validate_private_file current MAX_HIVE_STATE_BYTES);
      match write_answered os with
      | Written => st_put (dict_del path fs)
      | WriteRefused => st_lift (Err (HiveStateError "state_unavailable"))
      | WrittenUnsynced =>
          _ ← st_put (dict_del path fs);
          st_lift (Err (HiveStateError "state_unavailable"))
      end
  end.

Definition remove_private_bytes os relative : FilesM () :=
  _ ← st_lift _ensure_writable;
  locked os (_remove_private_bytes_locked os relative).
End state.

(** Whatever the operating system answers, a replacement that returns stored
    the payload, which is what the next read finds, and any other outcome
    either left the files alone or stored the payload without a durable
    directory. *)
Lemma replace_private_bytes_effect self os relative payload fs :
  let path := py_join "/" (default [] relative) in
  let '(fs', r) := replace_private_bytes self os relative payload fs in
  (fs' = fs ∧ ∃ e, r = Err e)
  ∨ (fs' = dict_set path (Regular true payload) fs
     ∧ py_len payload <= MAX_HIVE_STATE_BYTES
     ∧ (r = Ok () ∨ r = Err (HiveStateError "state_write_failed"))).
Proof.
  intros path. unfold replace_private_bytes.
  destruct (_ensure_writable self) as [[]|e] eqn:Hw;
    [|rewrite run_lift_err; left; split; [done|by eexists]].
  rewrite run_lift. destruct (Z.leb_spec (py_len payload) MAX_HIVE_STATE_BYTES);
    [|left; split; [done|by eexists]].
  cbn [require]. rewrite run_lift. unfold locked.
  destruct (lock_answer os) as [[]|e]; [|rewrite run_lift_err; left; split; [done|by eexists]].
  rewrite run_lift. unfold _replace_private_bytes_locked. rewrite Hw, run_lift.
  destruct (_path os relative) as [p|e] eqn:Hp;
    [|rewrite run_lift_err; left; split; [done|by eexists]].
  rewrite run_lift, run_get.
  assert (p = path) as ->.
  { unfold _path in Hp. apply bind_Ok in Hp as (parts & Hv & Hp).
    apply bind_Ok in Hp as (? & _ & [= <-]). unfold _validate_relative in Hv.
    subst path. destruct relative as [[|? ?]|]; try done. case_match; [|done].
    by injection Hv as <-. }
  destruct (match node_at fs path with Missing => _ | _ => _ end) as [[]|e];
    [|rewrite run_lift_err; left; split; [done|by eexists]].
  rewrite run_lift. destruct (write_answered os).
  - right. by auto.
  - left. split; [done|by eexists].
  - right. by auto.
Qed.

Lemma read_private_bytes_set os relative payload max_bytes fs :
  _validate_relative (Some relative) = Ok relative →
  directory_answer os = Ok () → lock_answer os = Ok () →
  _validate_limit max_bytes = Ok () → py_len payload <= max_bytes →
  let fs' := dict_set (py_join "/" relative) (Regular true payload) fs in
  read_private_bytes os (Some relative) max_bytes fs' = (fs', Ok payload).
Proof.
  intros Hv Hd Hl Hlim Hsize fs'. unfold read_private_bytes, locked, _read_private_bytes_locked, _path.
  rewrite Hlim, run_lift, Hl, run_lift, Hv, bind_ret, Hd, bind_ret, run_lift, run_get.
  subst fs'. unfold node_at. rewrite dict_get_set, bool_decide_eq_true_2 by done. cbn [default from_option].
  cbv beta iota. unfold _validate_private_file, id. rewrite (proj2 (Z.leb_le _ _)) by done. done.
Qed.

(** ** Text that [json.dumps] writes *)

Definition printable (c : ascii) : bool := (32 <=? ord c) && (ord c <? 127).

(** Values without floats: what the stores write. *)
Fixpoint float_free (v : pyval) : bool :=
  match v with
  | VFloat _ => false
  | VList l => forallb float_free l
  | VDict d => forallb (λ kv, float_free kv.2) d
  | _ => true
  end.

Lemma json_char_printable c : string_forallb printable (json_char c) = true.
Proof. destruct c as [[] [] [] [] [] [] [] []]; reflexivity. Qed.

Lemma json_string_printable s : string_forallb printable (json_string s) = true.
Proof.
  unfold json_string. rewrite !string_forallb_app. change (string_forallb printable quote) with true.
  rewrite andb_true_r. cbn [andb]. induction s as [|c s IH]; [done|]. cbn [json_chars].
  by rewrite string_forallb_app, json_char_printable.
Qed.

Lemma join_forallb p sep l :
  string_forallb p sep = true → Forall (λ s, string_forallb p s = true) l →
  string_forallb p (py_join sep l) = true.
Proof.
  intros Hsep. induction 1 as [|s l Hs Hl IH]; [done|]. destruct l as [|t l]; [done|].
  rewrite py_join_cons, !string_forallb_app, Hs, Hsep. done.
Qed.

Lemma string_forallb_impl (p q : ascii → bool) s :
  (∀ c, p c = true → q c = true) → string_forallb p s = true → string_forallb q s = true.
Proof.
  intros Hpq. induction s as [|c s IH]; cbn; [done|]. rewrite !andb_true_iff. naive_solver.
Qed.

Lemma pretty_Z_printable (z : Z) : string_forallb printable (pretty.pretty z) = true.
Proof.
  assert (∀ n : N, string_forallb printable (pretty.pretty n) = true) as Hn.
  { intros n. unfold pretty.pretty, pretty.pretty_N. case_decide; [done|].
    apply (string_forallb_impl is_digit_char); [|by apply pretty_N_go_digits].
    intros c Hc%is_digit_char_ord. unfold printable. lia. }
  destruct z as [|p|p]; [done|apply (Hn (N.pos p))|]. exact (Hn (N.pos p)).
Qed.

Lemma json_dumps_printable v :
  float_free v = true → string_forallb printable (json_dumps v) = true.
Proof.
  induction v as [|b|z|lit|s|l IH|d IH] using pyval_ind; intros Hf; try done.
  - by destruct b.
  - apply pretty_Z_printable.
  - apply json_string_printable.
  - cbn [json_dumps float_free] in *. rewrite !string_forallb_app.
    rewrite join_forallb; [done|done|]. apply Forall_fmap.
    rewrite forallb_forall in Hf. rewrite Forall_forall in IH |- *. intros x Hx.
    by apply IH, Hf, list_elem_of_In.
  - rewrite json_dumps_dict. cbn [float_free] in Hf. rewrite !string_forallb_app.
    rewrite join_forallb; [done|done|]. apply Forall_fmap.
    rewrite forallb_forall in Hf. rewrite Forall_forall in IH |- *. intros x Hx.
    rewrite (sort_by_perm str_cmp) in Hx. unfold compose, member_text.
    rewrite !string_forallb_app, json_string_printable.
    change (string_forallb printable ":") with true. cbn [andb].
    by apply IH, Hf, list_elem_of_In.
Qed.

Lemma ascii_decode s : string_forallb (λ c, ord c <? 128) s = true → utf8_decode s = Some s.
Proof.
  induction s as [|c s IH]; cbn; [done|]. intros [Hc Hs]%andb_true_iff. by rewrite Hc, IH.
Qed.

Lemma printable_ascii c : printable c = true → (ord c <? 128) = true.
Proof. unfold printable. lia. Qed.

(** ** Lines *)

(** A line of a log: it holds no line break and is not blank. *)
Definition log_line (line : string) : Prop :=
  string_forallb (λ c, negb (bool_decide (ord c ∈ [10; 13]))) line = true ∧ blank line = false.

Lemma split_lines_app line rest :
  string_forallb (λ c, negb (bool_decide (ord c ∈ [10; 13]))) line = true →
  split_lines (line +:+ (newline +:+ rest)) = line :: split_lines rest.
Proof.
  induction line as [|c line IH]; [done|]. cbn [string_forallb].
  intros [Hc Hl]%andb_true_iff. rewrite append_cons. cbn [split_lines].
  rewrite IH by done. apply negb_true_iff, bool_decide_eq_false in Hc. set_unfold.
  destruct (Z.eqb_spec (ord c) 10); [naive_solver|].
  destruct (Z.eqb_spec (ord c) 13); [naive_solver|]. done.
Qed.

(** The text of a log. *)
Definition log_text (lines : list string) : string :=
  match lines with [] => "" | _ => py_join newline lines +:+ newline end.

Lemma log_text_cons line lines : log_text (line :: lines) = line +:+ (newline +:+ log_text lines).
Proof.
  destruct lines as [|l lines]; cbn [log_text]; [by rewrite append_nil_r|].
  rewrite py_join_cons. by rewrite !append_assoc.
Qed.

Lemma split_log_text lines : Forall log_line lines → split_lines (log_text lines) = lines.
Proof.
  induction 1 as [|line lines [Hl _] _ IH]; [done|].
  rewrite log_text_cons, split_lines_app by done. by rewrite IH.
Qed.

Lemma log_lines_text lines : Forall log_line lines → log_lines (log_text lines) = lines.
Proof.
  intros H. unfold log_lines. rewrite split_log_text by done.
  induction H as [|line lines [_ Hb] _ IH]; [done|]. cbn. by rewrite Hb, IH.
Qed.

Lemma append_lines_text lines line max_records :
  Forall log_line lines →
  append_lines (log_text lines) line max_records =
  log_text ((if max_records <=? Z.of_nat (length lines)
             then last_lines (max_records - 1) lines else lines) ++ [line]).
Proof.
  intros H. unfold append_lines. rewrite log_lines_text by done.
  set (kept := if max_records <=? _ then _ else _).
  destruct (kept ++ [line]) eqn:E; [by apply app_nil in E as [_ ?]|]. done.
Qed.

(** ** Records of a log *)

Definition record_ok (d : list (string * pyval)) : Prop :=
  jsonable (VDict d) ∧ float_free (VDict d) = true.

Definition record_line (d : list (string * pyval)) : string := json_dumps (VDict d).

Lemma record_line_ok d : record_ok d → log_line (record_line d).
Proof.
  intros [Hj Hf]. pose proof (json_dumps_printable _ Hf) as Hp. split.
  - apply (string_forallb_impl printable); [|done]. unfold printable. intros c Hc.
    apply negb_true_iff, bool_decide_eq_false. set_unfold. lia.
  - unfold record_line. rewrite json_dumps_dict. done.
Qed.

(** Decoding a document [_encode] or a line [append_bounded_jsonl] wrote. *)
Lemma decode_document a b d rest :
  record_ok d → string_forallb is_ws rest = true →
  decode_mapping a b (json_dumps (VDict d) +:+ rest) = Ok (canonical_dict d).
Proof.
  intros [Hj Hf] Hr. unfold decode_mapping. rewrite ascii_decode.
  - rewrite json_loads_dumps by done. cbn [reraise]. by rewrite bind_ret, canonical_VDict.
  - rewrite string_forallb_app. apply andb_true_iff. split.
    + apply (string_forallb_impl printable); [apply printable_ascii|].
      by apply json_dumps_printable.
    + apply (string_forallb_impl is_ws); [|done]. unfold is_ws.
      intros c Hc%bool_decide_eq_true. set_unfold. lia.
Qed.

(** ** Documents written and read back *)

Definition document_text (d : list (string * pyval)) : string := json_dumps (VDict d) +:+ newline.

(** What a replacement that returned has stored. *)
Lemma replace_json_stored self os relative d fs fs' :
  replace_json_locked self os (Some relative) (VDict d) None fs = (fs', Ok ()) →
  _validate_relative (Some relative) = Ok relative ∧ _read_only self = false
  ∧ fs' = dict_set (py_join "/" relative) (Regular true (document_text d)) fs
  ∧ py_len (document_text d) <= MAX_HIVE_STATE_BYTES.
Proof.
  unfold replace_json_locked. intros (? & [] & [-> Hw]%st_lift_Ok & H)%st_bind_Ok.
  apply st_bind_Ok in H as (? & path & [-> Hp]%st_lift_Ok & H).
  apply st_bind_Ok in H as (? & text & [-> He]%st_lift_Ok & H).
  unfold _path in Hp. apply bind_Ok in Hp as (parts & Hv & Hp).
  apply bind_Ok in Hp as (? & _ & [= <-]).
  assert (parts = relative) as ->.
  { unfold _validate_relative in Hv. destruct relative; [done|]. case_match; [|done].
    by injection Hv. }
  unfold _encode in He. fold newline in He. fold (document_text d) in He.
  destruct (Z.ltb_spec MAX_HIVE_STATE_BYTES (py_len (document_text d))); [done|].
  injection He as <-. unfold _atomic_replace in H. rewrite Hw, (proj2 (Z.ltb_ge _ _)) in H by done.
  unfold _ensure_writable in Hw. destruct (_read_only self); [done|].
  split_and!; [done..| |done].
  by destruct (node_at fs _), (write_answered os); simplify_eq.
Qed.

(** A replacement leaves the files as they are, and then it raises, or has stored
    the document; it may have stored it and raise. *)
Lemma replace_json_cases self os relative d fs :
  let '(fs', r) := replace_json_locked self os (Some relative) (VDict d) None fs in
  (fs' = fs ∧ ∃ e, r = Err e)
  ∨ (fs' = dict_set (py_join "/" relative) (Regular true (document_text d)) fs
     ∧ py_len (document_text d) <= MAX_HIVE_STATE_BYTES).
Proof.
  destruct (replace_json_locked _ _ _ _ _ _) as [fs' [[]|e]] eqn:H.
  { right. by apply replace_json_stored in H as (_ & _ & ? & ?). }
  unfold replace_json_locked in H.
  destruct (_ensure_writable self) eqn:Hw; [|injection H as <- <-; left; eauto].
  rewrite run_lift in H. unfold _path in H.
  destruct (_validate_relative (Some relative)) as [parts|] eqn:Hv;
    [|injection H as <- <-; left; eauto].
  assert (parts = relative) as ->.
  { unfold _validate_relative in Hv. destruct relative; [done|]. case_match; [|done].
    by injection Hv. }
  rewrite bind_ret in H. destruct (directory_answer os); [|injection H as <- <-; left; eauto].
  rewrite bind_ret, run_lift in H. unfold _encode in H. fold newline in H.
  fold (document_text d) in H.
  destruct (Z.ltb_spec MAX_HIVE_STATE_BYTES (py_len (document_text d))) as [|Hsize].
  { injection H as <- <-. left. eauto. }
  rewrite run_lift in H. unfold _atomic_replace in H. rewrite Hw, (proj2 (Z.ltb_ge _ _)) in H by done.
  destruct (node_at fs _), (write_answered os); simplify_eq; eauto.
Qed.

(** Reading a stored document. *)
Lemma read_json_stored self os relative d max_bytes fs t :
  _validate_relative (Some relative) = Ok relative → directory_answer os = Ok () →
  _validate_limit max_bytes = Ok () → (_read_only self = true → t = true) →
  node_at fs (py_join "/" relative) = Regular t (document_text d) →
  py_len (document_text d) <= max_bytes → record_ok d →
  read_json_locked self os (Some relative) max_bytes fs = (fs, Ok (canonical_dict d)).
Proof.
  intros Hv Hd Hlim Ht Hn Hsize Hok. unfold read_json_locked, _path.
  rewrite Hv, bind_ret, Hd, bind_ret, run_lift, Hlim, run_lift, run_get, Hn. unfold _read_bytes.
  rewrite (proj2 (Z.ltb_ge _ _)) by done.
  assert (_read_only self && negb t = false) as ->.
  { destruct (_read_only self); [|done]. by rewrite Ht. }
  rewrite run_lift. unfold document_text. by rewrite decode_document.
Qed.

Lemma decode_record_line a b d :
  record_ok d → decode_mapping a b (record_line d) = Ok (canonical_dict d).
Proof.
  intros Hd. pose proof (decode_document a b d "" Hd eq_refl) as H.
  by rewrite append_nil_r in H.
Qed.

Lemma parse_record_lines n max_records ds :
  Forall record_ok ds →
  parse_lines n max_records (record_line <$> ds) =
  if n + Z.of_nat (length ds) <=? Z.max n max_records then Ok (canonical_dict <$> ds)
  else Err (HiveStateError "state_jsonl_full").
Proof.
  intros H. revert n. induction H as [|d ds Hd _ IH]; intros n; cbn [fmap list_fmap parse_lines].
  { by rewrite (proj2 (Z.leb_le _ _)) by (cbn; lia). }
  rewrite (proj2 (record_line_ok d Hd)), decode_record_line, bind_ret by done.
  fold (record_line <$> ds). rewrite IH. cbn [length].
  destruct (Z.leb_spec (n + 1) max_records) as [Hn|Hn]; cbn [require]; rewrite ?bind_ret.
  - destruct (Z.leb_spec (n + 1 + Z.of_nat (length ds)) (Z.max (n + 1) max_records)),
      (Z.leb_spec (n + Z.of_nat (S (length ds))) (Z.max n max_records)); done || lia.
  - destruct (Z.leb_spec (n + Z.of_nat (S (length ds))) (Z.max n max_records)); [lia|done].
Qed.

Definition all_granted : answers :=
  {| lock_answer := Ok (); directory_answer := Ok (); write_answered := Written |}.

(** The records a log keeps when [d] is appended. *)
Definition kept_records {A} (max_records : Z) (ds : list A) (d : A) : list A :=
  (if max_records <=? Z.of_nat (length ds) then last_lines (max_records - 1) ds else ds) ++ [d].

(** The file at [path] is the log of [ds]. *)
Definition log_at (fs : files) (path : string) (ds : list (list (string * pyval))) : Prop :=
  (node_at fs path = Missing ∧ ds = [])
  ∨ ∃ trusted, node_at fs path = Regular trusted (log_text (record_line <$> ds)).

Lemma last_lines_fmap {A B} (f : A → B) n l : last_lines n (f <$> l) = f <$> last_lines n l.
Proof. unfold last_lines. case_match; [done|]. by rewrite length_fmap, fmap_drop. Qed.

Lemma kept_records_fmap {A B} (f : A → B) n l x :
  kept_records n (f <$> l) (f x) = f <$> kept_records n l x.
Proof.
  unfold kept_records. rewrite length_fmap, fmap_app. case_match; by rewrite ?last_lines_fmap.
Qed.

Lemma kept_records_length {A} n (l : list A) x :
  1 < n → Z.of_nat (length l) <= n → Z.of_nat (length (kept_records n l x)) <= n.
Proof.
  intros Hn Hl. unfold kept_records, last_lines. rewrite length_app. cbn.
  destruct (Z.leb_spec n (Z.of_nat (length l))); [|lia].
  destruct (Z.eqb_spec (n - 1) 0); [lia|]. rewrite length_drop. lia.
Qed.

Lemma kept_records_Forall {A} (P : A → Prop) n l x :
  Forall P l → P x → Forall P (kept_records n l x).
Proof.
  intros Hl Hx. unfold kept_records, last_lines. apply Forall_app. split; [|by repeat constructor].
  repeat case_match; try done. by apply Forall_drop.
Qed.

Section log.
Context (self : HiveStateStore) (relative : list string).
Abbreviation path := (py_join "/" relative).

Lemma path_granted os :
  _validate_relative (Some relative) = Ok relative → directory_answer os = Ok () →
  _path os (Some relative) = Ok path.
Proof. intros Hv Hd. unfold _path. by rewrite Hv, bind_ret, Hd, bind_ret. Qed.

Lemma read_log os fs ds max_records max_bytes :
  _validate_relative (Some relative) = Ok relative → directory_answer os = Ok () →
  _validate_jsonl_limits max_records max_bytes = Ok () →
  log_at fs path ds → Forall record_ok ds →
  py_len (log_text (record_line <$> ds)) <= max_bytes →
  (∀ t raw, node_at fs path = Regular t raw → _read_only self = true → t = true) →
  read_bounded_jsonl_locked self os (Some relative) max_records max_bytes fs =
    (fs, if Z.of_nat (length ds) <=? max_records then Ok (canonical_dict <$> ds)
         else Err (HiveStateError "state_jsonl_full")).
Proof.
  intros Hv Hd Hlim Hlog Hds Hsize Ht. unfold read_bounded_jsonl_locked.
  rewrite Hlim, (path_granted os) by done. rewrite !st_bind_eq. unfold st_lift at 1.
  rewrite !st_bind_eq. unfold st_lift at 1. rewrite !st_bind_eq. unfold st_get at 1.
  rewrite !st_bind_eq.
  assert (1 <= max_records) as Hmax.
  { unfold _validate_jsonl_limits in Hlim. inv_result. lia. }
  destruct Hlog as [[-> ->]|[t Hn]]; cbn [_exists].
  { unfold st_lift. rewrite (proj2 (Z.leb_le _ _)) by (cbn; lia). reflexivity. }
  rewrite Hn. cbn [_exists]. unfold st_lift at 1. rewrite st_bind_eq. unfold _read_bytes.
  rewrite (proj2 (Z.ltb_ge _ _)) by done.
  assert (_read_only self && negb t = false) as ->.
  { destruct (_read_only self); [|done]. by rewrite (Ht t _ Hn). }
  unfold st_lift. rewrite split_log_text.
  2: { apply Forall_fmap. eapply Forall_impl; [exact Hds|]. apply record_line_ok. }
  rewrite parse_record_lines by done. by rewrite Z.max_r by lia.
Qed.

Lemma append_log os fs ds d max_records max_bytes :
  _validate_relative (Some relative) = Ok relative →
  lock_answer os = Ok () → directory_answer os = Ok () → write_answered os = Written →
  _read_only self = false → _validate_jsonl_limits max_records max_bytes = Ok () →
  log_at fs path ds → Forall record_ok ds → record_ok d →
  py_len (log_text (record_line <$> ds)) <= max_bytes →
  py_len (record_line d) < MAX_HIVE_STATE_BYTES →
  append_bounded_jsonl self os (Some relative) (VDict d) max_records max_bytes fs =
    (let text := log_text (record_line <$> kept_records max_records ds d) in
     if max_bytes <? py_len text then (fs, Err (HiveStateError "state_oversize"))
     else (dict_set path (Regular true text) fs, Ok ())).
Proof.
  intros Hv Hl Hd Hw Hro Hlim Hlog Hds Hok Hsize Hrec. unfold append_bounded_jsonl.
  assert (Forall log_line (record_line <$> ds)) as Hlines.
  { apply Forall_fmap. eapply Forall_impl; [exact Hds|]. apply record_line_ok. }
  assert (max_bytes <= MAX_HIVE_STATE_BYTES) as Hmax.
  { unfold _validate_jsonl_limits, _validate_limit in Hlim. inv_result. lia. }
  unfold _ensure_writable. rewrite Hro, Hlim, (path_granted os) by done. cbn [negb require].
  assert (_encode (VDict d) = Ok (record_line d +:+ newline)) as He.
  { unfold _encode. fold (record_line d) newline. unfold py_len in *. rewrite length_append.
    cbn [String.length newline]. by rewrite (proj2 (Z.ltb_ge _ _)) by lia. }
  rewrite He. do 4 (rewrite !st_bind_eq; unfold st_lift at 1). unfold locked. rewrite Hl.
  do 2 (rewrite !st_bind_eq; unfold st_lift at 1). unfold st_get at 1.
  assert (∃ existing, (match node_at fs path with Regular t raw => True | _ => ds = [] end)
    ∧ _exists (node_at fs path) = Ok existing
    ∧ (if existing then _read_bytes self (node_at fs path) max_bytes else Ok "")
      = Ok (log_text (record_line <$> ds))
    ∧ (∀ r, node_at fs path ≠ Inaccessible ∧ node_at fs path ≠ Symlink
         ∧ node_at fs path ≠ Irregular r)) as (existing & _ & Hex & Hread & Hnode).
  { destruct Hlog as [[Hn ->]|[t Hn]]; rewrite Hn; eexists; split_and!; try done.
    unfold _read_bytes. by rewrite (proj2 (Z.ltb_ge _ _)), Hro by done. }
  rewrite st_bind_eq. unfold st_lift at 1. rewrite Hex, st_bind_eq. unfold st_lift at 1.
  replace (match existing with true => _ | false => _ end)
    with (Ok (log_text (record_line <$> ds))) by (destruct existing; congruence).
  cbv zeta. fold (record_line d). rewrite append_lines_text by done.
  fold (kept_records max_records (record_line <$> ds) (record_line d)).
  rewrite kept_records_fmap.
  destruct (Z.ltb_spec max_bytes
    (py_len (log_text (record_line <$> kept_records max_records ds d)))) as [|Hnew]; [done|].
  unfold _atomic_replace, _ensure_writable. rewrite Hro. cbn [negb require].
  rewrite (proj2 (Z.ltb_ge _ _)) by lia. rewrite Hw.
  destruct (node_at fs path) as [| | |r|]; try done; exfalso; naive_solver.
Qed.
End log.

(** ** Properties *)

Lemma node_at_set fs path n : node_at (dict_set path n fs) path = n.
Proof. unfold node_at. by rewrite dict_get_set_eq. Qed.

(** A bounded log keeps its most recent records: appending a record to a
    log of [ds] succeeds, and reading it back then gives the last
    [max_records - 1] of [ds] (all of them while there is room) followed by
    the new record, as [json] reads them back.  With [max_records = 1] the
    slice [lines[-0:]] keeps every line, so the second record makes the log
    unreadable instead of replacing the first. *)
Theorem jsonl_append_read self relative os fs ds d max_records max_bytes :
  _validate_relative (Some relative) = Ok relative →
  lock_answer os = Ok () → directory_answer os = Ok () → write_answered os = Written →
  _read_only self = false → _validate_jsonl_limits max_records max_bytes = Ok () →
  log_at fs (py_join "/" relative) ds → Forall record_ok ds → record_ok d →
  Z.of_nat (length ds) <= max_records →
  py_len (log_text (record_line <$> ds)) <= max_bytes →
  py_len (log_text (record_line <$> kept_records max_records ds d)) <= max_bytes →
  py_len (record_line d) < MAX_HIVE_STATE_BYTES →
  let '(fs', appended) :=
    append_bounded_jsonl self os (Some relative) (VDict d) max_records max_bytes fs in
  appended = Ok ()
  ∧ read_bounded_jsonl_locked self os (Some relative) max_records max_bytes fs' =
      (fs', if (1 <? max_records) || bool_decide (ds = [])
            then Ok (canonical_dict <$> kept_records max_records ds d)
            else Err (HiveStateError "state_jsonl_full")).
Proof.
  intros Hv Hl Hd Hw Hro Hlim Hlog Hds Hok Hlen Hsize Hnew Hrec.
  rewrite (append_log self relative os fs ds d) by done. cbv zeta.
  rewrite (proj2 (Z.ltb_ge _ _)) by done. split; [done|].
  set (fs' := dict_set _ _ fs).
  assert (1 <= max_records) as Hmax by (unfold _validate_jsonl_limits in Hlim; inv_result; lia).
  assert (node_at fs' (py_join "/" relative)
    = Regular true (log_text (record_line <$> kept_records max_records ds d))) as Hn'
    by apply node_at_set.
  rewrite (read_log self relative os fs' (kept_records max_records ds d)); try done.
  - f_equal. destruct (Z.ltb_spec 1 max_records) as [Hlt|Hge]; cbn [orb].
    + by rewrite (proj2 (Z.leb_le _ _)) by (by apply kept_records_length).
    + assert (max_records = 1) as -> by lia. destruct ds as [|x ds]; [done|].
      assert (ds = []) as -> by (destruct ds; [done|cbn in Hlen; lia]). done.
  - right. by exists true.
  - by apply kept_records_Forall.
  - intros t raw Ht. rewrite Hn' in Ht. by injection Ht as <-.
Qed.

Definition sample_store : HiveStateStore := {| _read_only := false |}.
Definition sample_log_record (n : string) : list (string * pyval) :=
  [("event_id", VStr n); ("schema_version", VInt 1)].

Lemma sample_log_record_ok n : record_ok (sample_log_record n).
Proof. split; [split; [nodup_keys|]; split; [done|]; split; [|done]|done]. reflexivity. Qed.

(** A log for two records: the third replaces the first. *)
Definition sample_log : list (list (string * pyval)) :=
  [sample_log_record "a"; sample_log_record "b"].
Definition sample_files : files :=
  [("events.jsonl", Regular true (log_text (record_line <$> sample_log)))].

Lemma jsonl_append_read_witness :
  ∃ fs', append_bounded_jsonl sample_store all_granted (Some ["events.jsonl"])
           (VDict (sample_log_record "c")) 2 4096 sample_files = (fs', Ok ())
  ∧ (read_bounded_jsonl_locked sample_store all_granted (Some ["events.jsonl"]) 2 4096 fs').2
    = Ok [sample_log_record "b"; sample_log_record "c"].
Proof.
  assert (Forall record_ok sample_log) as Hds 
    by (repeat (apply Forall_cons_2; [apply sample_log_record_ok|]); apply Forall_nil_2).
  assert (log_at sample_files "events.jsonl" sample_log) as Hlog by (right; by exists true).
  pose proof (jsonl_append_read sample_store ["events.jsonl"] all_granted sample_files sample_log
    (sample_log_record "c") 2 4096 eq_refl eq_refl eq_refl eq_refl eq_refl eq_refl Hlog Hds
    (sample_log_record_ok "c") ltac:(by vm_compute) ltac:(by vm_compute) ltac:(by vm_compute)
    ltac:(by vm_compute)) as H.
  destruct (append_bounded_jsonl _ _ _ _ _ _ _) as [fs' r]. destruct H as [-> H].
  exists fs'. split; [done|]. rewrite H. reflexivity.
Defined.
