(* ===== verification/HiveConfig.v ===== *)
(** * The Hive configuration

    [src/src/the_hive/hive/config.py]: the catalog of agent classes and the
    configuration of repositories and principals that refers to it.  Documents
    are read from their bytes or from what reading the file answered; a class
    profile and a configuration are typed once their constructors have accepted
    them, the entries of the configuration stay the decoded mappings. *)

From S2P Require Import Prelude Order DynamicPool Json JsonText PyEq Sha256 ModelPolicy HiveState.
#[local] Open Scope Z_scope.

(** ** Class profiles *)

Record AgentClassProfile := {
  cp_class_id : string;
  cp_role_kind : string;
  cp_worker_kind : string;
  cp_scope_kind : string;
  cp_authority_profile : string;
  cp_identity_lifetime : string;
  cp_memory_lifetime : string;
  cp_home_policy : string;
  cp_session_policy : string;
  cp_write_mode : string;
  cp_capabilities : list string;
  cp_delegation_targets : list string;
  cp_max_delegation_depth : Z;
  cp_public_lifecycle : string;
  cp_allowed_lifecycles : list string;
  cp_allowed_model_families : list string;
  cp_allowed_model_ids : list string;
  cp_min_reasoning : string;
  cp_max_reasoning : string;
  cp_introduces_to_user : bool;
}.

Definition config_error {A} (code : string) : result A := Err (HiveConfigError code).

Definition profile_text (f : string) (v : pyval) : result string :=
  match v with
  | VStr s => if (1 <=? py_len s) && (py_len s <=? 128) && negb (has_control s) then Ok s
              else config_error ("invalid_" +:+ f)
  | _ => config_error ("invalid_" +:+ f)
  end.

(** A tuple of texts, as the texts. *)
Definition _is_string_tuple (l : list pyval) : option (list string) :=
  mapM (λ v, match v with VStr s => Some s | _ => None end) l.

Definition string_tuple (code : string) (l : list pyval) : result (list string) :=
  match _is_string_tuple l with Some texts => Ok texts | None => config_error code end.

(** [value in {...}], where the value may be of any type. *)
Definition known_text (code : string) (known : list string) (v : pyval) : result string :=
  found ← py_in_set v known;
  match v with VStr s => if (found : bool) then Ok s else config_error code | _ => config_error code end.

Definition LIFECYCLES : list string := ["ephemeral"; "binding"; "persistent"].
Definition EFFORTS : list string := ["low"; "medium"; "high"; "xhigh"; "max"].

(** The last check of the constructor: its clauses are evaluated in order, and
    a value that cannot be hashed raises where it is looked up. *)
Definition resolver_part (public_lifecycle : pyval) (allowed_lifecycles families ids : list pyval)
  (min_reasoning max_reasoning introduces : pyval)
  : result (string * list string * list string * list string * string * string * bool) :=
  let code := "invalid_class_resolver_profile" in
  lifecycle ← known_text code LIFECYCLES public_lifecycle;
  allowed ← string_tuple code allowed_lifecycles;
  families ← string_tuple code families;
  ids ← string_tuple code ids;
  _ ← require (bool_decide (lifecycle ∈ allowed) && negb (bool_decide (families = []))
               && negb (bool_decide ("" ∈ ids)) && bool_decide (NoDup ids)) (HiveConfigError code);
  low ← known_text code EFFORTS min_reasoning;
  high ← known_text code EFFORTS max_reasoning;
  match introduces with
  | VBool b => Ok (lifecycle, allowed, families, ids, low, high, b)
  | _ => config_error code
  end.

Definition AgentClassProfile_new (class_id role_kind worker_kind scope_kind authority_profile
  identity_lifetime memory_lifetime home_policy session_policy write_mode : pyval)
  (capabilities delegation_targets : list pyval) (max_delegation_depth public_lifecycle : pyval)
  (allowed_lifecycles families ids : list pyval) (min_reasoning max_reasoning introduces : pyval)
  : result AgentClassProfile :=
  class_id ← profile_text "class_id" class_id;
  role_kind ← profile_text "role_kind" role_kind;
  worker_kind ← profile_text "worker_kind" worker_kind;
  scope_kind ← profile_text "scope_kind" scope_kind;
  authority_profile ← profile_text "authority_profile" authority_profile;
  identity_lifetime ← profile_text "identity_lifetime" identity_lifetime;
  memory_lifetime ← profile_text "memory_lifetime" memory_lifetime;
  home_policy ← profile_text "home_policy" home_policy;
  session_policy ← profile_text "session_policy" session_policy;
  write_mode ← profile_text "write_mode" write_mode;
  _ ← require (bool_decide (scope_kind ∈ ["global"; "repository"; "read"; "write"])
               && bool_decide (write_mode ∈ ["none"; "scoped"; "integration"]))
        (HiveConfigError "invalid_class_scope");
  capabilities ← string_tuple "invalid_class_lists" capabilities;
  delegation_targets ← string_tuple "invalid_class_lists" delegation_targets;
  depth ← (match max_delegation_depth with
           | VInt z => if (0 <=? z) && (z <=? 32) then Ok z else config_error "invalid_delegation_depth"
           | _ => config_error "invalid_delegation_depth"
           end : result Z);
  '(lifecycle, allowed, families, ids, low, high, introduces) ←
    resolver_part public_lifecycle allowed_lifecycles families ids min_reasoning max_reasoning introduces;
  Ok {| cp_class_id := class_id; cp_role_kind := role_kind; cp_worker_kind := worker_kind;
        cp_scope_kind := scope_kind; cp_authority_profile := authority_profile;
        cp_identity_lifetime := identity_lifetime; cp_memory_lifetime := memory_lifetime;
        cp_home_policy := home_policy; cp_session_policy := session_policy; cp_write_mode := write_mode;
        cp_capabilities := capabilities; cp_delegation_targets := delegation_targets;
        cp_max_delegation_depth := depth; cp_public_lifecycle := lifecycle;
        cp_allowed_lifecycles := allowed; cp_allowed_model_families := families;
        cp_allowed_model_ids := ids; cp_min_reasoning := low; cp_max_reasoning := high;
        cp_introduces_to_user := introduces |}.

(** ** The catalog *)

Record AgentClassCatalogSnapshot := {
  cs_classes : list (string * AgentClassProfile);
  cs_digest : string;
}.

Definition profile_fields : list string :=
  [ "class_id"; "role_kind"; "worker_kind"; "scope_kind"; "authority_profile"; "identity_lifetime";
    "memory_lifetime"; "home_policy"; "session_policy"; "write_mode"; "capabilities";
    "delegation_targets"; "max_delegation_depth" ].
Definition resolver_fields : list string :=
  [ "public_lifecycle"; "allowed_lifecycles"; "allowed_model_families"; "allowed_model_ids";
    "min_reasoning"; "max_reasoning"; "introduces_to_user" ].

Definition texts (l : list string) : pyval := VList (VStr <$> l).

(** The call's arguments, evaluated in the order they are written. *)
Definition profile_call (raw : list (string * pyval)) : result AgentClassProfile :=
  class_id ← getitem "class_id" raw;
  role_kind ← getitem "role_kind" raw;
  worker_kind ← getitem "worker_kind" raw;
  scope_kind ← getitem "scope_kind" raw;
  authority_profile ← getitem "authority_profile" raw;
  identity_lifetime ← getitem "identity_lifetime" raw;
  memory_lifetime ← getitem "memory_lifetime" raw;
  home_policy ← getitem "home_policy" raw;
  session_policy ← getitem "session_policy" raw;
  write_mode ← getitem "write_mode" raw;
  capabilities ← (getitem "capabilities" raw ≫= py_tuple);
  delegation_targets ← (getitem "delegation_targets" raw ≫= py_tuple);
  max_delegation_depth ← getitem "max_delegation_depth" raw;
  lifecycles ← py_tuple (field_or (texts ["ephemeral"]) "allowed_lifecycles" raw);
  families ← py_tuple (field_or (texts ["luna"]) "allowed_model_families" raw);
  ids ← py_tuple (field_or (texts []) "allowed_model_ids" raw);
  AgentClassProfile_new class_id role_kind worker_kind scope_kind authority_profile identity_lifetime
    memory_lifetime home_policy session_policy write_mode capabilities delegation_targets
    max_delegation_depth (field_or (VStr "ephemeral") "public_lifecycle" raw) lifecycles families ids
    (field_or (VStr "low") "min_reasoning" raw) (field_or (VStr "xhigh") "max_reasoning" raw)
    (field_or (VBool false) "introduces_to_user" raw).

Definition profile_of_payload (raw : pyval) : result AgentClassProfile :=
  match raw with
  | VDict d =>
      _ ← require (has_keys d profile_fields && keys_within d (profile_fields ++ resolver_fields))
            (HiveConfigError "invalid_class_profile");
      reraise (λ e, is_key_error e || is_type_error e) (λ _, HiveConfigError "invalid_class_profile")
        (profile_call d)
  | _ => config_error "invalid_class_profile"
  end.

(** The loop over the classes; [result] is the dictionary built so far. *)
Fixpoint add_profiles (result : list (string * AgentClassProfile)) (raws : list pyval)
  : Prelude.result (list (string * AgentClassProfile)) :=
  match raws with
  | [] => Ok result
  | raw :: raws =>
      item ← profile_of_payload raw;
      _ ← require (negb (dict_mem (cp_class_id item) result)) (HiveConfigError "duplicate_class_id");
      add_profiles (dict_set (cp_class_id item) item result) raws
  end.

Definition _parse_agent_class_catalog (payload : list (string * pyval))
  : result (list (string * AgentClassProfile)) :=
  _ ← require (keys_exactly payload ["schema_version"; "classes"]
               && py_eq_int (field_or VNone "schema_version" payload) 1)
        (HiveConfigError "invalid_class_catalog");
  match field_or VNone "classes" payload with
  | VList raws => add_profiles [] raws
  | _ => config_error "invalid_class_catalog"
  end.

(** [json.loads(raw.decode("utf-8"))] behind its handler. *)
Definition decoded_mapping (unavailable invalid : string) (raw : string) : result (list (string * pyval)) :=
  payload ← reraise (λ e, match e with UnicodeError _ | JSONDecodeError _ => true | _ => false end)
              (λ _, HiveConfigError unavailable)
              (match utf8_decode raw with
               | Some text => json_loads text
               | None => Err (UnicodeError "invalid start byte")
               end);
  match payload with VDict d => Ok d | _ => config_error invalid end.

Definition _decode_catalog_mapping (raw : string) : result (list (string * pyval)) :=
  decoded_mapping "class_catalog_unavailable" "invalid_class_catalog" raw.

(** The snapshot copies the classes it is given; every profile of the typed
    catalog is deeply immutable, and its digest is a digest. *)
Definition load_agent_class_catalog_snapshot_bytes (raw : string) : result AgentClassCatalogSnapshot :=
  let digest := "sha256:" +:+ sha256_bytes raw in
  payload ← _decode_catalog_mapping raw;
  classes ← _parse_agent_class_catalog payload;
  Ok {| cs_classes := classes; cs_digest := digest |}.

(** [usable]: the path is absolute and no link; [bytes]: what reading it
    answered. *)
Definition _read_catalog_bytes (usable : bool) (bytes : result string) : result string :=
  _ ← require usable (HiveConfigError "invalid_class_catalog_path");
  reraise (λ e, match e with OSError _ | UnicodeError _ => true | _ => false end)
    (λ _, HiveConfigError "class_catalog_unavailable") bytes.

Definition load_agent_class_catalog_snapshot (usable : bool) (bytes : result string)
  : result AgentClassCatalogSnapshot :=
  raw ← _read_catalog_bytes usable bytes;
  load_agent_class_catalog_snapshot_bytes raw.

Definition load_agent_class_catalog (usable : bool) (bytes : result string)
  : result (list (string * AgentClassProfile)) :=
  cs_classes <$> load_agent_class_catalog_snapshot usable bytes.

(** ** The configuration *)

Record HiveConfig := {
  hc_mode : string;
  hc_repositories : list (list (string * pyval));
  hc_principals : list (list (string * pyval));
  hc_feature_flags : list (string * bool);
  hc_digest : string;
}.

Definition _strict_mapping (fields : list string) (v : pyval) : result (list (string * pyval)) :=
  match v with
  | VDict d => if keys_exactly d fields then Ok d else config_error "invalid_hive_config_entry"
  | _ => config_error "invalid_hive_config_entry"
  end.

Definition entry (k : string) (d : list (string * pyval)) : pyval := field_or VNone k d.

(** One turn of the loop over the principals. *)
Definition principal_rule (classes : list (string * AgentClassProfile)) (repo_ids : list pyval)
  (d : list (string * pyval)) : result () :=
  profile ← (if py_hashable (entry "class_id" d) then
               match entry "class_id" d with
               | VStr c => match dict_get c classes with
                           | Some profile => Ok profile
                           | None => config_error "unknown_principal_class"
                           end
               | _ => config_error "unknown_principal_class"
               end
             else Err (TypeError "unhashable type"));
  let repo_id := entry "repo_id" d in
  _ ← require (negb (bool_decide (cp_scope_kind profile = "global") && negb (is_VNone repo_id)))
        (HiveConfigError "global_principal_has_repository");
  require (negb (bool_decide (cp_scope_kind profile = "repository")
                 && (is_VNone repo_id || negb (existsb (py_eq repo_id) repo_ids))))
    (HiveConfigError "repository_principal_missing_repository").

(** The flags, when every one is a boolean. *)
Definition bool_flags (d : list (string * pyval)) : option (list (string * bool)) :=
  mapM (λ kv, match kv.2 with VBool b => Some (kv.1, b) | _ => None end) d.

Definition REPOSITORY_FIELDS : list string := ["repo_id"; "remote_identity"; "default_branch"; "config_digest"].
Definition PRINCIPAL_FIELDS : list string := ["principal_id"; "class_id"; "parent_principal_id"; "repo_id"].

(** What follows the first check of the payload. *)
Definition config_of_lists (payload : list (string * pyval)) (classes : list (string * AgentClassProfile))
  (raw_repositories raw_principals : list pyval) (raw_flags : list (string * pyval)) : result HiveConfig :=
  repositories ← mapM_result (_strict_mapping REPOSITORY_FIELDS) raw_repositories;
  let repo_ids := entry "repo_id" <$> repositories in
  distinct ← all_distinct repo_ids;
  _ ← require (distinct && forallb (λ v, match v with VStr s => negb (bool_decide (s = "")) | _ => false end)
                             repo_ids) (HiveConfigError "invalid_hive_repositories");
  principals ← mapM_result (_strict_mapping PRINCIPAL_FIELDS) raw_principals;
  distinct ← all_distinct (entry "principal_id" <$> principals);
  _ ← require distinct (HiveConfigError "duplicate_principal_id");
  _ ← mapM_result (principal_rule classes repo_ids) principals;
  match bool_flags raw_flags with
  | None => config_error "invalid_hive_feature_flags"
  | Some flags =>
      mode ← known_text "invalid_hive_config" ["disabled"; "shadow"; "enforced"] (entry "mode" payload);
      Ok {| hc_mode := mode; hc_repositories := repositories; hc_principals := principals;
            hc_feature_flags := flags;
            hc_digest := "sha256:" +:+ sha256_hex (json_dumps (VDict payload)) |}
  end.

Definition load_hive_config_payload (payload : list (string * pyval))
  (classes : list (string * AgentClassProfile)) : result HiveConfig :=
  _ ← require (keys_exactly payload ["schema_version"; "mode"; "repositories"; "principals"; "feature_flags"]
               && py_eq_int (entry "schema_version" payload) 1) (HiveConfigError "invalid_hive_config");
  match entry "repositories" payload, entry "principals" payload, entry "feature_flags" payload with
  | VList repositories, VList principals, VDict flags =>
      config_of_lists payload classes repositories principals flags
  | _, _, _ => config_error "invalid_hive_config"
  end.

Definition load_hive_config_bytes (raw : string) (classes : list (string * AgentClassProfile))
  : result HiveConfig :=
  payload ← decoded_mapping "hive_config_unavailable" "invalid_hive_config" raw;
  load_hive_config_payload payload classes.

(** [text]: what reading the file answered. *)
Definition _load (usable : bool) (text : result string) (name : string) : result (list (string * pyval)) :=
  _ ← require usable (HiveConfigError ("invalid_" +:+ (name +:+ "_path")));
  payload ← reraise read_handled (λ _, HiveConfigError (name +:+ "_unavailable")) (text ≫= json_loads);
  match payload with VDict d => Ok d | _ => config_error ("invalid_" +:+ name) end.

Definition load_hive_config (usable : bool) (text : result string)
  (classes : list (string * AgentClassProfile)) : result HiveConfig :=
  payload ← _load usable text "hive_config";
  load_hive_config_payload payload classes.

(** ** What a loaded configuration refers to *)

Lemma known_text_Ok code known v s : known_text code known v = Ok s → v = VStr s ∧ s ∈ known.
Proof.
  unfold known_text, py_in_set. intros (found & Hf & H)%bind_Ok. destruct v; try done. cbn in Hf.
  injection Hf as <-. case_bool_decide; [|done]. by injection H as <-.
Qed.

Lemma principal_rule_Ok classes repo_ids d :
  principal_rule classes repo_ids d = Ok () →
  ∃ class_id profile, entry "class_id" d = VStr class_id ∧ dict_get class_id classes = Some profile
    ∧ (cp_scope_kind profile = "global" → entry "repo_id" d = VNone)
    ∧ (cp_scope_kind profile = "repository" → entry "repo_id" d ≠ VNone
         ∧ ∃ repo_id, repo_id ∈ repo_ids ∧ py_eq (entry "repo_id" d) repo_id = true).
Proof.
  unfold principal_rule. intros (profile & Hp & H)%bind_Ok.
  apply bind_Ok in H as (? & Hg%require_Ok%negb_true_iff & Hr%require_Ok%negb_true_iff).
  destruct (py_hashable (entry "class_id" d)); [|done]. destruct (entry "class_id" d) as [| | | |c| |]; try done.
  destruct (dict_get c classes) as [p|] eqn:Hc; [|done]. injection Hp as ->. exists c, profile.
  split_and!; [done|done| |].
  - intros Hs. rewrite bool_decide_eq_true_2 in Hg by done. cbn in Hg. apply negb_false_iff in Hg.
    by destruct (entry "repo_id" d).
  - intros Hs. rewrite bool_decide_eq_true_2 in Hr by done. cbn [andb] in Hr.
    apply orb_false_iff in Hr as [Hn He%negb_false_iff]. split; [by intros E; rewrite E in Hn|].
    apply existsb_exists in He as (v & Hv%list_elem_of_In & ?). by exists v.
Qed.

(** The mode is known, no repository or principal is listed twice, and every
    principal has a class of the catalog and the repository its class is
    scoped to. *)
Lemma hive_config_refers payload classes c :
  load_hive_config_payload payload classes = Ok c →
  hc_mode c ∈ ["disabled"; "shadow"; "enforced"]
  ∧ no_repetition (entry "repo_id" <$> hc_repositories c) = true
  ∧ no_repetition (entry "principal_id" <$> hc_principals c) = true
  ∧ ∀ p, p ∈ hc_principals c →
      principal_rule classes (entry "repo_id" <$> hc_repositories c) p = Ok ().
Proof.
  unfold load_hive_config_payload. intros (? & _ & H)%bind_Ok.
  destruct (entry "repositories" payload) as [| | | | |rs|]; try done.
  destruct (entry "principals" payload) as [| | | | |ps|]; try done.
  destruct (entry "feature_flags" payload) as [| | | | | |fs]; try done. unfold config_of_lists in H.
  apply bind_Ok in H as (repos & _ & H). apply bind_Ok in H as (b & Hb & H).
  apply bind_Ok in H as (? & [-> _]%require_Ok%andb_true_iff & H). apply bind_Ok in H as (prs & _ & H).
  apply bind_Ok in H as (b' & Hb' & H). apply bind_Ok in H as (? & ->%require_Ok & H).
  apply bind_Ok in H as (us & Hus%mapM_result_Ok_Forall2 & H). destruct (bool_flags fs); [|done].
  apply bind_Ok in H as (mode & [_ Hmode]%known_text_Ok & [= <-]). cbn [hc_mode hc_repositories hc_principals].
  unfold all_distinct in Hb, Hb'. apply bind_Ok in Hb as (? & _ & [= Hb]). apply bind_Ok in Hb' as (? & _ & [= Hb']).
  split_and!; try done. intros p Hp. clear -Hus Hp. induction Hus as [|x u l us Hx _ IH]; [by apply elem_of_nil in Hp|].
  apply elem_of_cons in Hp as [->|Hp]; [by destruct u|by apply IH].
Qed.

(** A mode or an identifier that cannot be hashed leaves the loader as a
    [TypeError], not as a [HiveConfigError]. *)
Example unhashable_mode_escapes :
  load_hive_config_payload
    [("schema_version", VInt 1); ("mode", VList []); ("repositories", VList []); ("principals", VList []);
     ("feature_flags", VDict [])] []
  = Err (TypeError "unhashable type").
Proof. vm_compute. reflexivity. Qed.
