(* ===== verification/AgentResolver.v ===== *)
(** * The agent resolver

    [src/src/the_hive/agent_resolver.py]: which class, lifecycle, model and
    reasoning effort an agent gets for a request, the offer of every valid
    combination, and the check of a decision against an offer.  Arguments that
    are iterables are lists; the fields of a dataclass have the types of their
    annotations.  The loops of the code that append to [reasons] return the
    reasons they add. *)

From stdpp Require Import pretty.
From S2P Require Import Prelude Order DynamicPool Json JsonText StrictJson PyEq Sha256 ModelPolicy HiveState HiveConfig.
#[local] Open Scope Z_scope.

Definition REASONING_RANK : list (string * Z) :=
  [("low", 10); ("medium", 20); ("high", 30); ("xhigh", 40); ("max", 50)].
Definition LIFECYCLE_ALIASES : list (string * string) := [("invocation", "ephemeral")].
Definition LEADERSHIP_CLASS_IDS : list string := ["goettin"; "gottbiene"; "koenigin"; "teamleiterin"].
Definition LIFECYCLE_RANK : list (string * Z) := [("ephemeral", 10); ("binding", 20); ("persistent", 30)].
Definition _MAX_RESOLUTION_TEXT_LENGTH : Z := 256.
Definition _MAX_REASON_CODES : nat := 64.
Definition _MAX_SELECTION_OPTIONS : nat := 4096.

(** ** Data *)

Record ModelPolicy := {
  mp_model_id : string;
  mp_family : string;
  mp_rank : Z;
  mp_reasoning_levels : list string;
  mp_capabilities : list string;
}.

Record AgentClassPolicy := {
  ap_class_id : string;
  ap_default_lifecycle : string;
  ap_allowed_lifecycles : list string;
  ap_allowed_families : list string;
  ap_min_reasoning : string;
  ap_max_reasoning : string;
  ap_supported_scopes : list string;
  ap_allowed_model_ids : list string;
}.

Record ResolutionRequest := {
  rq_scope_kind : string;
  rq_complexity : string;
  rq_requested_class : option string;
  rq_requested_lifecycle : option string;
  rq_requested_model : option string;
  rq_requested_reasoning : option string;
  rq_required_capabilities : list string;
  rq_spark_eligible : bool;
}.

Record ResolutionDecision := {
  dn_class_id : string;
  dn_lifecycle : string;
  dn_model : string;
  dn_reasoning : string;
  dn_reason_codes : list string;
  dn_fallback : bool;
  dn_requested_class : option string;
  dn_requested_lifecycle : option string;
  dn_requested_model : option string;
  dn_requested_reasoning : option string;
}.

Record SelectionOption := {
  so_class_id : string;
  so_lifecycle : string;
  so_model : string;
  so_reasoning : string;
}.

Record SelectionOffer := {
  so_generation : string;
  so_classes : list string;
  so_lifecycles : list string;
  so_models : list string;
  so_reasoning_levels : list string;
  so_options : list SelectionOption;
}.

#[export] Instance ResolutionDecision_eq_dec : EqDecision ResolutionDecision.
Proof. solve_decision. Defined.
#[export] Instance SelectionOption_eq_dec : EqDecision SelectionOption.
Proof. solve_decision. Defined.
#[export] Instance SelectionOffer_eq_dec : EqDecision SelectionOffer.
Proof. solve_decision. Defined.

(** [level in REASONING_RANK], and the rank of a level; the constructors only
    accept levels that have one. *)
Definition known_effort (level : string) : bool := dict_mem level REASONING_RANK.
Definition effort (level : string) : Z := default 0 (dict_get level REASONING_RANK).

Definition capabilities_ok (l : list string) : bool :=
  bool_decide (length l <= 64)%nat && negb (bool_decide ("" ∈ l)) && bool_decide (NoDup l).

Definition ModelPolicy_new (m : ModelPolicy) : result ModelPolicy :=
  _ ← require (negb (bool_decide (mp_model_id m = "")) && negb (bool_decide (mp_family m = ""))
               && (0 <=? mp_rank m)) (ValueError "invalid_model_policy");
  _ ← require (negb (bool_decide (mp_reasoning_levels m = [])) && forallb known_effort (mp_reasoning_levels m))
        (ValueError "invalid_model_reasoning_levels");
  _ ← require (capabilities_ok (mp_capabilities m)) (ValueError "invalid_model_capabilities");
  Ok m.

Definition AgentClassPolicy_new (c : AgentClassPolicy) : result AgentClassPolicy :=
  _ ← require (negb (bool_decide (ap_class_id c = ""))
               && bool_decide (ap_default_lifecycle c ∈ ap_allowed_lifecycles c)
               && known_effort (ap_min_reasoning c) && known_effort (ap_max_reasoning c)
               && (effort (ap_min_reasoning c) <=? effort (ap_max_reasoning c))
               && negb (bool_decide ("" ∈ ap_allowed_model_ids c))
               && bool_decide (NoDup (ap_allowed_model_ids c))) (ValueError "invalid_agent_class_policy");
  Ok c.

Definition ResolutionRequest_new (r : ResolutionRequest) : result ResolutionRequest :=
  _ ← require (bool_decide (rq_scope_kind r ∈ ["read"; "write"; "unknown"])) (ValueError "invalid_scope_kind");
  _ ← require (bool_decide (rq_complexity r ∈ ["simple"; "medium"; "complex"; "unknown"]))
        (ValueError "invalid_complexity");
  _ ← require (capabilities_ok (rq_required_capabilities r)) (ValueError "invalid_required_capabilities");
  _ ← require (negb (bool_decide (rq_requested_reasoning r = Some "ultra")))
        (ValueError "invalid_requested_reasoning");
  Ok r.

(** ** Decisions and offers *)

(** [LIFECYCLE_ALIASES.get(lifecycle, lifecycle)]. *)
Definition alias_of (lifecycle : string) : string := default lifecycle (dict_get lifecycle LIFECYCLE_ALIASES).

Definition canonical_worker_lifecycle (lifecycle : string) : result string :=
  let canonical := alias_of lifecycle in
  _ ← require (dict_mem canonical LIFECYCLE_RANK) (ValueError "invalid_worker_lifecycle");
  Ok canonical.

Definition resolution_text (s : string) : bool :=
  negb (bool_decide (s = "")) && (py_len s <=? _MAX_RESOLUTION_TEXT_LENGTH).

Definition optional_text (o : option string) : bool :=
  match o with None => true | Some s => resolution_text s end.

Definition optional_value (o : option string) : pyval := match o with None => VNone | Some s => VStr s end.

Definition decision_document (d : ResolutionDecision) : pyval :=
  VDict [ ("class_id", VStr (dn_class_id d)); ("lifecycle", VStr (dn_lifecycle d));
          ("model", VStr (dn_model d)); ("reasoning", VStr (dn_reasoning d));
          ("reason_codes", VList (VStr <$> dn_reason_codes d)); ("fallback", VBool (dn_fallback d));
          ("requested_class", optional_value (dn_requested_class d));
          ("requested_lifecycle", optional_value (dn_requested_lifecycle d));
          ("requested_model", optional_value (dn_requested_model d));
          ("requested_reasoning", optional_value (dn_requested_reasoning d)) ].

(** The clauses of the digest's checks that raise [invalid_resolution_decision]. *)
Definition decision_ok (d : ResolutionDecision) : bool :=
  known_effort (dn_reasoning d)
  && bool_decide (length (dn_reason_codes d) <= _MAX_REASON_CODES)%nat
  && forallb resolution_text (dn_reason_codes d) && bool_decide (NoDup (dn_reason_codes d))
  && forallb optional_text [dn_requested_class d; dn_requested_lifecycle d; dn_requested_model d;
                            dn_requested_reasoning d].

Definition canonical_resolution_decision_digest (d : ResolutionDecision) : result string :=
  let invalid := ValueError "invalid_resolution_decision" in
  _ ← require (forallb resolution_text [dn_class_id d; dn_lifecycle d; dn_model d; dn_reasoning d]) invalid;
  canonical ← canonical_worker_lifecycle (dn_lifecycle d);
  _ ← require (bool_decide (canonical = dn_lifecycle d)) invalid;
  _ ← require (decision_ok d) invalid;
  Ok ("sha256:" +:+ sha256_hex (json_dumps (decision_document d))).

(** [tuple(dict.fromkeys(values))]: the first of equal elements. *)
Definition fromkeys (l : list string) : list string := reverse (remove_dups (reverse l)).

Definition option_row (o : SelectionOption) : pyval :=
  VList [VStr (so_class_id o); VStr (so_lifecycle o); VStr (so_model o); VStr (so_reasoning o)].

(** [json.dumps(rows, ensure_ascii=True, separators=(",", ":"))] and its digest. *)
Definition options_digest (options : list SelectionOption) : string :=
  "sha256:" +:+ sha256_hex (dumps_with json_char false (VList (option_row <$> options))).

Definition public_lists (options : list SelectionOption) : list (list string) :=
  [ fromkeys (so_class_id <$> options); fromkeys (so_lifecycle <$> options);
    fromkeys (so_model <$> options); fromkeys (so_reasoning <$> options) ].

Definition offer_lists (o : SelectionOffer) : list (list string) :=
  [so_classes o; so_lifecycles o; so_models o; so_reasoning_levels o].

Definition public_list_ok (l : list string) : bool :=
  bool_decide (length l <= _MAX_SELECTION_OPTIONS)%nat && forallb resolution_text l && bool_decide (NoDup l).

(** One turn of the loop over the options. *)
Definition option_rule (o : SelectionOption) : result () :=
  let invalid := ValueError "invalid_selection_offer" in
  _ ← require (forallb resolution_text [so_class_id o; so_lifecycle o; so_model o; so_reasoning o]) invalid;
  canonical ← canonical_worker_lifecycle (so_lifecycle o);
  _ ← require (bool_decide (canonical = so_lifecycle o)) invalid;
  require (known_effort (so_reasoning o)) invalid.

Definition lifecycle_rule (lifecycle : string) : result () :=
  canonical ← canonical_worker_lifecycle lifecycle;
  require (bool_decide (canonical = lifecycle)) (ValueError "invalid_selection_offer").

Definition decision_option (d : ResolutionDecision) : SelectionOption :=
  {| so_class_id := dn_class_id d; so_lifecycle := dn_lifecycle d; so_model := dn_model d;
     so_reasoning := dn_reasoning d |}.

Definition validate_resolution_decision_offer (d : ResolutionDecision) (o : SelectionOffer) : result () :=
  let invalid := ValueError "invalid_selection_offer" in
  _ ← canonical_resolution_decision_digest d;
  _ ← require ((py_len (so_generation o) =? 71) && startswith "sha256:" (so_generation o)
               && string_forallb is_hex_lower (String.substring 7 64 (so_generation o))) invalid;
  _ ← require (forallb public_list_ok (offer_lists o)) invalid;
  _ ← require (bool_decide (length (so_options o) <= _MAX_SELECTION_OPTIONS)%nat) invalid;
  _ ← mapM_result option_rule (so_options o);
  _ ← require (bool_decide (NoDup (so_options o))) invalid;
  _ ← mapM_result lifecycle_rule (so_lifecycles o);
  _ ← require (bool_decide (offer_lists o = public_lists (so_options o))) invalid;
  _ ← require (bool_decide (so_generation o = options_digest (so_options o))) invalid;
  require (bool_decide (decision_option d ∈ so_options o)) (ValueError "resolution_decision_not_offered").

(** ** Class, model and effort *)

(** [{key(item): item for item in items}]: the last of equal keys. *)
Definition dict_of {A} (key : A → string) (items : list A) : list (string * A) :=
  foldl (λ d item, dict_set (key item) item d) [] items.

Definition class_key (preferred : string) (c : AgentClassPolicy) : Z * (Z * (Z * (Z * string))) :=
  ((if bool_decide (ap_class_id c = preferred) then 0 else 1),
   (default 100 (dict_get (ap_default_lifecycle c) LIFECYCLE_RANK),
    (effort (ap_min_reasoning c), (effort (ap_max_reasoning c), ap_class_id c)))).

Definition class_cmp : Z * (Z * (Z * (Z * string))) → Z * (Z * (Z * (Z * string))) → comparison :=
  pair_cmp Z.compare (pair_cmp Z.compare (pair_cmp Z.compare (pair_cmp Z.compare str_cmp))).

#[export] Instance class_cmp_total : TotalCmp class_cmp := _.

Definition class_candidate (r : ResolutionRequest) (c : AgentClassPolicy) : bool :=
  negb (bool_decide (ap_class_id c ∈ LEADERSHIP_CLASS_IDS))
  && (bool_decide (rq_scope_kind r ∈ ap_supported_scopes c) || bool_decide (rq_scope_kind r = "unknown")).

Definition requested_class_policy (r : ResolutionRequest) (classes : list AgentClassPolicy)
  : option AgentClassPolicy :=
  c ← rq_requested_class r; dict_get c (dict_of ap_class_id classes).

Definition _select_class (r : ResolutionRequest) (classes : list AgentClassPolicy)
  : result (AgentClassPolicy * list string) :=
  match requested_class_policy r classes with
  | Some c => Ok (c, [])
  | None =>
      let reasons := match rq_requested_class r with Some _ => ["requested_class_unavailable"] | None => [] end in
      match List.filter (class_candidate r) classes with
      | [] => Err (ValueError "no_compatible_class")
      | c :: rest =>
          let preferred := if bool_decide (rq_complexity r ∈ ["medium"; "complex"])
                           then "spezialistin" else "arbeitsbiene" in
          Ok (min_by class_cmp (class_key preferred) c rest, reasons ++ ["class_auto_selected"])
      end
  end.

Definition _default_model_family (r : ResolutionRequest) (lifecycle : string) : string := "luna".

Definition _default_reasoning (m : ModelPolicy) (lifecycle : string) : string :=
  if bool_decide (lifecycle = "persistent") then "xhigh"
  else if bool_decide (lifecycle = "binding") then "high" else "medium".

Definition _model_allowed_for_class (m : ModelPolicy) (c : AgentClassPolicy) : bool :=
  bool_decide (mp_family m ∈ ap_allowed_families c)
  && (bool_decide (ap_allowed_model_ids c = []) || bool_decide (mp_model_id m ∈ ap_allowed_model_ids c)).

Definition _model_supports_task (m : ModelPolicy) (r : ResolutionRequest) : bool :=
  forallb (λ x, bool_decide (x ∈ mp_capabilities m)) (rq_required_capabilities r).

Definition _allowed_reasoning_levels (m : ModelPolicy) (c : AgentClassPolicy) (lifecycle : string)
  : list string :=
  let minimum_rank := if bool_decide (lifecycle = "persistent")
                      then Z.max (effort (ap_min_reasoning c)) (effort "xhigh")
                      else effort (ap_min_reasoning c) in
  let maximum_rank := effort (ap_max_reasoning c) in
  List.filter (λ level, (minimum_rank <=? effort level) && (effort level <=? maximum_rank))
    (mp_reasoning_levels m).

Definition _clamp_reasoning (requested : string) (m : ModelPolicy) (c : AgentClassPolicy)
  (lifecycle : string) : result (string * list string) :=
  match _allowed_reasoning_levels m c lifecycle with
  | [] => Err (ValueError "no_compatible_reasoning_level")
  | level :: levels =>
      let unsupported := negb (known_effort requested) in
      let requested := if unsupported then _default_reasoning m lifecycle else requested in
      let target_rank := effort requested in
      let selected := min_by (pair_cmp Z.compare Z.compare)
                        (λ level, (Z.abs (effort level - target_rank), effort level)) level levels in
      Ok (selected, (if unsupported then ["requested_reasoning_unsupported"] else [])
                    ++ (if bool_decide (selected = requested) then [] else ["requested_reasoning_outside_limits"]))
  end.

Definition validate_canonical_agent_tuple (c : AgentClassPolicy) (m : ModelPolicy)
  (lifecycle reasoning : string) : result () :=
  require (bool_decide (lifecycle ∈ ap_allowed_lifecycles c) && _model_allowed_for_class m c
           && bool_decide (reasoning ∈ _allowed_reasoning_levels m c lifecycle))
    (ValueError "invalid_canonical_agent_tuple").

(** ** Resolution *)

Definition retired (m : ModelPolicy) : bool :=
  bool_decide (mp_model_id m ∈ RETIRED_MODEL_SELECTORS) || bool_decide (mp_family m = "spark").

(** The test at the start: a request for a retired model is not resolved to
    another one. *)
Definition requests_retired (r : ResolutionRequest) (source_models : list ModelPolicy) : bool :=
  match rq_requested_model r with
  | None => false
  | Some m => bool_decide (m ∈ RETIRED_MODEL_SELECTORS)
              || existsb (λ item, bool_decide (mp_model_id item = m) && bool_decide (mp_family item = "spark"))
                   source_models
  end.

Definition leadership_error {A} : result A := Err (ValueError "leadership_explicit_tuple_required").

Definition explicit_leadership (r : ResolutionRequest) (c : AgentClassPolicy) : bool :=
  bool_decide (rq_requested_class r = Some (ap_class_id c))
  && bool_decide (ap_class_id c ∈ LEADERSHIP_CLASS_IDS).

Definition resolve_lifecycle (r : ResolutionRequest) (c : AgentClassPolicy) : result (string * list string) :=
  let lifecycle := alias_of <$> rq_requested_lifecycle r in
  let normalized := if bool_decide (lifecycle = rq_requested_lifecycle r) then []
                    else ["lifecycle_alias_normalized"] in
  if explicit_leadership r c
     && (negb (bool_decide (length (ap_allowed_lifecycles c) = 1%nat))
         || negb (bool_decide (ap_default_lifecycle c = "persistent"))
         || negb (bool_decide (lifecycle ∈ [None; Some (ap_default_lifecycle c)])))
  then leadership_error
  else Ok match lifecycle with
          | None => (ap_default_lifecycle c, normalized ++ ["lifecycle_defaulted"])
          | Some l => if bool_decide (l ∈ ap_allowed_lifecycles c) then (l, normalized)
                      else (ap_default_lifecycle c, normalized ++ ["requested_lifecycle_outside_class"])
          end.

Definition available (available_models : list string) (m : ModelPolicy) : bool :=
  bool_decide (mp_model_id m ∈ available_models).

(** One of the three conditions under which a requested model is dropped. *)
Definition drop_when (explicit : bool) (rejected : ModelPolicy → bool) (code : string)
  (state : option ModelPolicy * list string) : option ModelPolicy * list string :=
  match state.1 with
  | Some m => if negb explicit && rejected m then (None, state.2 ++ [code]) else state
  | None => state
  end.

Definition requested_model_policy (r : ResolutionRequest) (c : AgentClassPolicy)
  (model_values : list ModelPolicy) (available_models : list string)
  : result (option ModelPolicy * list string) :=
  let explicit := explicit_leadership r c in
  let found := dict_get (default "" (rq_requested_model r)) (dict_of mp_model_id model_values) in
  let acceptable := match found with
                    | None => false
                    | Some m => _model_allowed_for_class m c && available available_models m
                                && _model_supports_task m r
                    end in
  if explicit && negb (bool_decide (rq_requested_model r = None)) && negb acceptable then leadership_error
  else
    let unknown := match rq_requested_model r, found with
                   | Some _, None => ["requested_model_unknown"]
                   | _, _ => []
                   end in
    Ok (drop_when explicit (λ m, negb (_model_supports_task m r)) "requested_model_capability_mismatch"
         (drop_when explicit (λ m, negb (available available_models m)) "requested_model_unavailable"
           (drop_when explicit (λ m, negb (_model_allowed_for_class m c)) "requested_model_outside_class"
             (found, unknown)))).

(** The least rank a model may have, and the family it is taken from. *)
Definition minimum_family_of (r : ResolutionRequest) (c : AgentClassPolicy) (lifecycle : string)
  (rejected : bool) : string :=
  match ap_allowed_families c with
  | [family] => family
  | _ => if rejected then "luna" else _default_model_family r lifecycle
  end.

Definition minimum_rank_of (c : AgentClassPolicy) (model_values : list ModelPolicy) (minimum_family : string) : Z :=
  match ap_allowed_model_ids c with
  | [] => default 0 (mp_rank <$> dict_get minimum_family (dict_of mp_family model_values))
  | ids => match mp_rank <$> List.filter (λ m, bool_decide (mp_model_id m ∈ ids)) model_values with
           | [] => 0
           | rank :: ranks => foldl Z.min rank ranks
           end
  end.

Definition model_candidates (r : ResolutionRequest) (c : AgentClassPolicy) (model_values : list ModelPolicy)
  (available_models : list string) (minimum_rank : Z) : list ModelPolicy :=
  sort_by Z.compare mp_rank
    (List.filter (λ m, _model_allowed_for_class m c && available available_models m
                       && (minimum_rank <=? mp_rank m) && _model_supports_task m r) model_values).

Definition required_model_unavailable {A} (c : AgentClassPolicy) : result A :=
  Err (ValueError ("required_model_unavailable:" +:+ py_join "," (ap_allowed_model_ids c))).

Definition resolve_model (r : ResolutionRequest) (c : AgentClassPolicy) (lifecycle : string)
  (model_values : list ModelPolicy) (available_models : list string) : result (ModelPolicy * list string) :=
  '(requested_model, reasons) ← requested_model_policy r c model_values available_models;
  let rejected := negb (bool_decide (rq_requested_model r = None))
                  && match requested_model with None => true | Some _ => false end in
  let minimum_family := minimum_family_of r c lifecycle rejected in
  let minimum_rank := minimum_rank_of c model_values minimum_family in
  let candidates := model_candidates r c model_values available_models minimum_rank in
  let default_model (reasons : list string) : result (ModelPolicy * list string) :=
    match candidates with
    | [] => match ap_allowed_model_ids c with
            | [] => Err (ValueError "no_compatible_model")
            | _ => required_model_unavailable c
            end
    | m :: _ =>
        Ok (m, reasons ++
               match rq_requested_model r with
               | Some _ => []
               | None => "model_defaulted" :: (if bool_decide (mp_family m = minimum_family) then []
                                               else ["default_model_unavailable"])
               end)
    end in
  match requested_model with
  | Some m => if minimum_rank <=? mp_rank m then Ok (m, reasons)
              else default_model (reasons ++ ["requested_model_below_task_minimum"])
  | None => default_model reasons
  end.

Definition effort_unavailable {A} (c : AgentClassPolicy) (m : ModelPolicy) : result A :=
  Err (ValueError ("required_model_effort_unavailable:" +:+ (mp_model_id m +:+ (":" +:+ ap_min_reasoning c)))).

Definition resolve_reasoning (r : ResolutionRequest) (c : AgentClassPolicy) (m : ModelPolicy)
  (lifecycle : string) : result (string * list string) :=
  _ ← match rq_requested_reasoning r with
      | Some reasoning =>
          if explicit_leadership r c
          then reraise is_value_error (λ _, ValueError "leadership_explicit_tuple_required")
                 (validate_canonical_agent_tuple c m lifecycle reasoning)
          else Ok ()
      | None => Ok ()
      end;
  if bool_decide (ap_min_reasoning c = ap_max_reasoning c) then
    if bool_decide (ap_min_reasoning c ∈ _allowed_reasoning_levels m c lifecycle) then
      Ok (ap_min_reasoning c,
          match rq_requested_reasoning r with
          | Some reasoning => if bool_decide (reasoning = ap_min_reasoning c) then []
                              else ["requested_reasoning_outside_limits"]
          | None => []
          end)
    else if bool_decide (ap_allowed_model_ids c = []) then Err (ValueError "no_compatible_reasoning_level")
    else effort_unavailable c m
  else
    match rq_requested_reasoning r with
    | Some reasoning => _clamp_reasoning reasoning m c lifecycle
    | None =>
        '(reasoning, reasons) ← _clamp_reasoning (_default_reasoning m lifecycle) m c lifecycle;
        Ok (reasoning, "reasoning_defaulted" :: reasons)
    end.

Definition fallback_codes : list string :=
  [ "requested_class_unavailable"; "requested_lifecycle_outside_class"; "requested_model_unknown";
    "requested_model_outside_class"; "requested_model_unavailable"; "requested_model_capability_mismatch";
    "requested_model_below_task_minimum"; "requested_reasoning_unsupported";
    "requested_reasoning_outside_limits"; "default_model_unavailable" ].

Definition resolve_agent_selection (r : ResolutionRequest) (classes : list AgentClassPolicy)
  (source_models : list ModelPolicy) (available_models : list string) : result ResolutionDecision :=
  _ ← require (negb (requests_retired r source_models)) (ValueError "retired_model_unavailable");
  let model_values := List.filter (λ m, negb (retired m)) source_models in
  '(class_policy, class_reasons) ← _select_class r classes;
  '(lifecycle, lifecycle_reasons) ← resolve_lifecycle r class_policy;
  '(model, model_reasons) ← resolve_model r class_policy lifecycle model_values available_models;
  '(reasoning, effort_reasons) ← resolve_reasoning r class_policy model lifecycle;
  _ ← validate_canonical_agent_tuple class_policy model lifecycle reasoning;
  let reasons := class_reasons ++ lifecycle_reasons ++ model_reasons ++ effort_reasons in
  Ok {| dn_class_id := ap_class_id class_policy; dn_lifecycle := lifecycle; dn_model := mp_model_id model;
        dn_reasoning := reasoning; dn_reason_codes := fromkeys reasons;
        dn_fallback := existsb (λ code, bool_decide (code ∈ reasons)) fallback_codes;
        dn_requested_class := rq_requested_class r; dn_requested_lifecycle := rq_requested_lifecycle r;
        dn_requested_model := rq_requested_model r; dn_requested_reasoning := rq_requested_reasoning r |}.

(** ** The offer *)

(** The options of one class, lifecycle and model. *)
Definition level_options (c : AgentClassPolicy) (lifecycle : string) (m : ModelPolicy)
  : result (list SelectionOption) :=
  let allowed := _allowed_reasoning_levels m c lifecycle in
  if bool_decide (ap_min_reasoning c = ap_max_reasoning c) && bool_decide (allowed = [])
  then if bool_decide (ap_allowed_model_ids c = []) then Ok [] else effort_unavailable c m
  else mapM_result (λ reasoning,
         _ ← validate_canonical_agent_tuple c m lifecycle reasoning;
         Ok {| so_class_id := ap_class_id c; so_lifecycle := lifecycle; so_model := mp_model_id m;
               so_reasoning := reasoning |}) allowed.

Definition concat_result {A B} (f : A → result (list B)) (l : list A) : result (list B) :=
  @List.concat B <$> mapM_result f l.

Definition compatible (available_models : list string) (c : AgentClassPolicy) (m : ModelPolicy) : bool :=
  available available_models m && negb (retired m) && _model_allowed_for_class m c.

Definition class_options (models : list ModelPolicy) (available_models : list string) (c : AgentClassPolicy)
  : result (list SelectionOption) :=
  let compatible_models := List.filter (compatible available_models c) (sort_by Z.compare mp_rank models) in
  if negb (bool_decide (ap_allowed_model_ids c = [])) && bool_decide (length compatible_models = 0%nat)
  then required_model_unavailable c
  else concat_result (λ lifecycle, concat_result (level_options c lifecycle) compatible_models)
         (ap_allowed_lifecycles c).

Definition build_selection_offer (classes : list AgentClassPolicy) (models : list ModelPolicy)
  (available_models : list string) : result SelectionOffer :=
  options ← concat_result (class_options models available_models) (sort_by str_cmp ap_class_id classes);
  Ok {| so_generation := options_digest options;
        so_classes := fromkeys (so_class_id <$> options);
        so_lifecycles := fromkeys (so_lifecycle <$> options);
        so_models := fromkeys (so_model <$> options);
        so_reasoning_levels := fromkeys (so_reasoning <$> options); so_options := options |}.

(** ** The catalogs *)

Definition class_policy_of (profile : AgentClassProfile) : result AgentClassPolicy :=
  AgentClassPolicy_new
    {| ap_class_id := cp_class_id profile; ap_default_lifecycle := cp_public_lifecycle profile;
       ap_allowed_lifecycles := cp_allowed_lifecycles profile;
       ap_allowed_families := cp_allowed_model_families profile;
       ap_min_reasoning := cp_min_reasoning profile; ap_max_reasoning := cp_max_reasoning profile;
       ap_supported_scopes := if bool_decide (cp_write_mode profile = "none") then ["read"] else ["read"; "write"];
       ap_allowed_model_ids := cp_allowed_model_ids profile |}.

(** The fields of an item of [model_registry.public()], which always has them. *)
Definition item_text (k : string) (item : list (string * pyval)) : string :=
  match dict_get k item with Some (VStr s) => s | _ => "" end.
Definition item_int (k : string) (item : list (string * pyval)) : Z :=
  match dict_get k item with Some (VInt z) => z | _ => 0 end.
Definition item_texts (k : string) (item : list (string * pyval)) : list string :=
  match dict_get k item with Some (VList l) => default [] (_is_string_tuple l) | _ => [] end.
Definition item_flag (k : string) (item : list (string * pyval)) : bool :=
  match dict_get k item with Some (VBool b) => b | _ => false end.

Definition item_offered (item : list (string * pyval)) : bool :=
  item_flag "enabled" item && bool_decide (item_text "spawn_behavior" item = "manual")
  && negb (bool_decide (item_text "model_id" item ∈ RETIRED_MODEL_SELECTORS))
  && negb (bool_decide (item_text "family" item = "spark")).

Definition model_policy_of (item : list (string * pyval)) : result ModelPolicy :=
  ModelPolicy_new
    {| mp_model_id := item_text "model_id" item; mp_family := item_text "family" item;
       mp_rank := item_int "rank" item; mp_reasoning_levels := item_texts "reasoning_levels" item;
       mp_capabilities := item_texts "capabilities" item |}.

Definition policies_from_catalogs (class_catalog : list (string * AgentClassProfile))
  (model_registry : ModelPolicyRegistry) : result (list AgentClassPolicy * list ModelPolicy) :=
  classes ← mapM_result class_policy_of (dict_values class_catalog);
  models ← mapM_result model_policy_of (List.filter item_offered (registry_public model_registry));
  Ok (classes, models).

(** ** What the offer holds *)

(** Elements are told apart by a key that does not repeat. *)
Lemma NoDup_key {A B} (key : A → B) l x y : NoDup (key <$> l) → x ∈ l → y ∈ l → key x = key y → x = y.
Proof.
  intros Hnd [i Hi]%list_elem_of_lookup [j Hj]%list_elem_of_lookup E. assert (i = j) as <-; [|congruence].
  eapply NoDup_lookup; [exact Hnd|by rewrite list_lookup_fmap, Hi|]. rewrite list_lookup_fmap, Hj. cbn. by rewrite E.
Qed.

Lemma Forall2_partner {A B} (P : A → B → Prop) l k x : Forall2 P l k → x ∈ l → ∃ y, y ∈ k ∧ P x y.
Proof.
  induction 1 as [|x0 y0 l k H _ IH]; [by intros ?%elem_of_nil|]. intros [->|Hx]%elem_of_cons.
  - exists y0. by rewrite elem_of_cons; auto.
  - destruct (IH Hx) as (y & Hy & ?). exists y. by rewrite elem_of_cons; auto.
Qed.

Lemma concat_result_Ok {A B} (f : A → result (list B)) l k :
  concat_result f l = Ok k → ∃ ks, Forall2 (λ x kx, f x = Ok kx) l ks ∧ k = List.concat ks.
Proof.
  unfold concat_result. destruct (mapM_result f l) as [ks|] eqn:H; [|done]. intros [= <-].
  exists ks. split; [by apply mapM_result_Ok_Forall2|done].
Qed.

Lemma elem_of_concat_result {A B} (f : A → result (list B)) l k y :
  concat_result f l = Ok k → y ∈ k ↔ ∃ x kx, x ∈ l ∧ f x = Ok kx ∧ y ∈ kx.
Proof.
  intros (ks & H & ->)%concat_result_Ok. induction H as [|x kx l ks Hx _ IH]; cbn.
  - split; [by intros ?%elem_of_nil|by intros (? & ? & ?%elem_of_nil & _)].
  - rewrite elem_of_app, IH. split.
    + intros [Hy|(z & kz & Hz & Hf & Hy)]; [exists x, kx|exists z, kz]; rewrite elem_of_cons; auto.
    + intros (z & kz & [->|Hz]%elem_of_cons & Hf & Hy); [left; congruence|right; eauto].
Qed.

Lemma NoDup_concat_result {A B} (f : A → result (list B)) l k :
  concat_result f l = Ok k → NoDup l → (∀ x kx, x ∈ l → f x = Ok kx → NoDup kx) →
  (∀ x x' kx kx' y, x ∈ l → x' ∈ l → f x = Ok kx → f x' = Ok kx' → y ∈ kx → y ∈ kx' → x = x') → NoDup k.
Proof.
  intros (ks & H & ->)%concat_result_Ok. induction H as [|x kx l ks Hx Hl IH]; intros Hl' Hk Hd; cbn; [constructor|].
  apply NoDup_cons in Hl' as [Hni Hl']. apply NoDup_app. split_and!.
  - eapply (Hk x); [by left|done].
  - intros y Hy Hy'. apply Hni. assert (∃ x' kx', x' ∈ l ∧ f x' = Ok kx' ∧ y ∈ kx') as (x' & kx' & Hx' & Hf & Hin).
    { clear -Hl Hy'. induction Hl as [|x0 k0 l ks H _ IH]; [by apply elem_of_nil in Hy'|].
      apply elem_of_app in Hy' as [?|?]; [exists x0, k0; by rewrite elem_of_cons; auto|].
      destruct IH as (x' & kx' & ? & ? & ?); [done|]. exists x', kx'. by rewrite elem_of_cons; auto. }
    rewrite (Hd x x' kx kx' y); [done|by left|by right|done..].
  - apply IH; [done| |].
    + intros z kz Hz. apply Hk. by right.
    + intros z z' kz kz' y Hz Hz'. apply Hd; by right.
Qed.

(** The option of a class, a lifecycle, a model and an effort. *)
Definition option_of (c : AgentClassPolicy) (lifecycle : string) (m : ModelPolicy) (level : string)
  : SelectionOption :=
  {| so_class_id := ap_class_id c; so_lifecycle := lifecycle; so_model := mp_model_id m;
     so_reasoning := level |}.

Lemma level_options_Ok c lifecycle m k :
  level_options c lifecycle m = Ok k → k = option_of c lifecycle m <$> _allowed_reasoning_levels m c lifecycle.
Proof.
  unfold level_options. intros H. destruct (_ && _) eqn:Hb.
  - apply andb_true_iff in Hb as [_ ->%bool_decide_eq_true]. case_bool_decide; [by injection H as <-|done].
  - apply mapM_result_Ok_Forall2 in H. symmetry. apply list_eq_Forall2.
    apply Forall2_fmap_l. eapply Forall2_impl; [exact H|]. intros level o Ho. apply bind_Ok in Ho as (u & _ & [= <-]). done.
Qed.

(** An option of the offer. *)
Definition offers (classes : list AgentClassPolicy) (models : list ModelPolicy) (available_models : list string)
  (o : SelectionOption) : Prop :=
  ∃ c lifecycle m level, c ∈ classes ∧ lifecycle ∈ ap_allowed_lifecycles c ∧ m ∈ models
    ∧ compatible available_models c m = true ∧ level ∈ _allowed_reasoning_levels m c lifecycle
    ∧ o = option_of c lifecycle m level.

Lemma class_options_elem models available_models c k o :
  class_options models available_models c = Ok k → o ∈ k ↔ offers [c] models available_models o.
Proof.
  unfold class_options. destruct (_ && _); [done|]. intros H. rewrite (elem_of_concat_result _ _ _ _ H).
  unfold offers. setoid_rewrite list_elem_of_singleton. split.
  - intros (lifecycle & kl & Hl & Hf & Ho). rewrite (elem_of_concat_result _ _ _ _ Hf) in Ho.
    destruct Ho as (m & km & Hm & ->%level_options_Ok & (level & -> & Hlevel)%list_elem_of_fmap).
    apply list_elem_of_In, filter_In in Hm as [Hm%list_elem_of_In Hc].
    rewrite (sort_by_perm Z.compare mp_rank) in Hm. exists c, lifecycle, m, level. done.
  - intros (c' & lifecycle & m & level & -> & Hl & Hm & Hc & Hlevel & ->).
    destruct (concat_result_Ok _ _ _ H) as (ks & Hks & _).
    destruct (Forall2_partner _ _ _ _ Hks Hl) as (kl & _ & Hkl).
    exists lifecycle, kl. split; [done|]. split; [done|]. rewrite (elem_of_concat_result _ _ _ _ Hkl).
    destruct (concat_result_Ok _ _ _ Hkl) as (kms & Hkms & _).
    assert (m ∈ List.filter (compatible available_models c) (sort_by Z.compare mp_rank models)) as Hin.
    { apply list_elem_of_In, filter_In. split; [|done]. apply list_elem_of_In.
      by rewrite (sort_by_perm Z.compare mp_rank). }
    destruct (Forall2_partner _ _ _ _ Hkms Hin) as (km & _ & Hkm). exists m, km.
    split; [done|]. split; [done|]. apply level_options_Ok in Hkm as ->. by apply list_elem_of_fmap_2.
Qed.

Lemma build_offer_Ok classes models available_models o :
  build_selection_offer classes models available_models = Ok o →
  concat_result (class_options models available_models) (sort_by str_cmp ap_class_id classes) = Ok (so_options o)
  ∧ so_generation o = options_digest (so_options o) ∧ offer_lists o = public_lists (so_options o).
Proof. unfold build_selection_offer. intros (options & H & [= <-])%bind_Ok. done. Qed.

Lemma offer_elem classes models available_models offer o :
  build_selection_offer classes models available_models = Ok offer →
  o ∈ so_options offer ↔ offers classes models available_models o.
Proof.
  intros (H & _)%build_offer_Ok. rewrite (elem_of_concat_result _ _ _ _ H). split.
  - intros (c & k & Hc & Hk & Ho). rewrite (class_options_elem _ _ _ _ _ Hk) in Ho.
    destruct Ho as (c' & l & m & level & ->%list_elem_of_singleton & Ho). exists c, l, m, level.
    split; [|done]. by rewrite (sort_by_perm str_cmp ap_class_id) in Hc.
  - intros (c & l & m & level & Hc & Ho). destruct (concat_result_Ok _ _ _ H) as (ks & Hks & _).
    rewrite <- (sort_by_perm str_cmp ap_class_id) in Hc.
    destruct (Forall2_partner _ _ _ _ Hks Hc) as (k & _ & Hk). exists c, k. split; [done|]. split; [done|].
    rewrite (class_options_elem _ _ _ _ _ Hk). exists c, l, m, level. by rewrite list_elem_of_singleton.
Qed.

(** ** What a resolution decides *)

Lemma dict_of_snoc {A} (key : A → string) items x :
  dict_of key (items ++ [x]) = dict_set (key x) x (dict_of key items).
Proof. unfold dict_of. by rewrite foldl_app. Qed.

Lemma dict_of_Some {A} (key : A → string) items k x :
  dict_get k (dict_of key items) = Some x → x ∈ items ∧ key x = k.
Proof.
  induction items as [|y items IH] using rev_ind; [done|]. rewrite dict_of_snoc, dict_get_set, elem_of_app.
  case_bool_decide as Hk; [intros [= <-]; rewrite list_elem_of_singleton; auto|]. intros [? ?]%IH. auto.
Qed.

Lemma dict_of_None {A} (key : A → string) items k x :
  dict_get k (dict_of key items) = None → x ∈ items → key x ≠ k.
Proof.
  induction items as [|y items IH] using rev_ind; [by intros _ ?%elem_of_nil|].
  rewrite dict_of_snoc, dict_get_set, elem_of_app. case_bool_decide as Hk; [done|].
  intros H [Hx| ->%list_elem_of_singleton]; [by apply IH|done].
Qed.

Definition faulty (reasons : list string) : bool :=
  existsb (λ code, bool_decide (code ∈ reasons)) fallback_codes.

Lemma faulty_app l k : faulty (l ++ k) = faulty l || faulty k.
Proof.
  unfold faulty. induction fallback_codes as [|code codes IH]; cbn; [done|].
  rewrite (bool_decide_ext _ _ (elem_of_app l k code)), bool_decide_or, IH.
  destruct (bool_decide (code ∈ l)), (bool_decide (code ∈ k)); cbn; rewrite ?orb_true_r; done.
Qed.

(** What a requested value is, when it is given. *)
Definition honours (o : option string) (s : string) : bool :=
  match o with Some x => bool_decide (s = x) | None => true end.

Lemma select_class_Ok r classes c reasons :
  _select_class r classes = Ok (c, reasons) →
  c ∈ classes ∧ faulty reasons = negb (honours (rq_requested_class r) (ap_class_id c))
  ∧ (ap_class_id c ∈ LEADERSHIP_CLASS_IDS → rq_requested_class r = Some (ap_class_id c)).
Proof.
  unfold _select_class, requested_class_policy.
  destruct (rq_requested_class r) as [x|]; cbn [mbind option_bind honours].
  - destruct (dict_get x (dict_of ap_class_id classes)) as [c'|] eqn:Hd.
    + intros [= <- <-]. apply dict_of_Some in Hd as [? <-]. split; [done|].
      rewrite bool_decide_eq_true_2 by done. done.
    + pose proof (λ y, dict_of_None _ _ _ y Hd) as Hn. clear Hd.
      destruct (List.filter _ classes) as [|c0 rest] eqn:Hf; [done|]. intros H.
      injection H as <- <-. set (m := min_by _ _ _ _).
      assert (m ∈ List.filter (class_candidate r) classes) as Hm by (rewrite Hf; apply min_by_elem, _).
      apply list_elem_of_In, filter_In in Hm as [Hm%list_elem_of_In Hc].
      split; [done|]. rewrite bool_decide_eq_false_2 by (by apply Hn). split; [done|].
      unfold class_candidate in Hc. apply andb_true_iff in Hc as [Hc%negb_true_iff%bool_decide_eq_false _]. done.
  - destruct (List.filter _ classes) as [|c0 rest] eqn:Hf; [done|]. intros H.
    injection H as <- <-. set (m := min_by _ _ _ _).
    assert (m ∈ List.filter (class_candidate r) classes) as Hm by (rewrite Hf; apply min_by_elem, _).
    apply list_elem_of_In, filter_In in Hm as [Hm%list_elem_of_In Hc].
    split; [done|]. split; [done|].
    unfold class_candidate in Hc. apply andb_true_iff in Hc as [Hc%negb_true_iff%bool_decide_eq_false _]. done.
Qed.

Lemma resolve_lifecycle_Ok r c lifecycle reasons :
  ap_default_lifecycle c ∈ ap_allowed_lifecycles c →
  resolve_lifecycle r c = Ok (lifecycle, reasons) →
  lifecycle ∈ ap_allowed_lifecycles c
  ∧ faulty reasons = negb (honours (alias_of <$> rq_requested_lifecycle r) lifecycle).
Proof.
  unfold resolve_lifecycle. intros Hd. destruct (_ && _); [done|].
  assert (faulty (if bool_decide (alias_of <$> rq_requested_lifecycle r = rq_requested_lifecycle r)
                  then [] else ["lifecycle_alias_normalized"]) = false) as Hn by (by case_bool_decide).
  set (normalized := if bool_decide _ then _ else _) in *. clearbody normalized.
  destruct (rq_requested_lifecycle r) as [x|]; cbn [fmap option_fmap option_map honours].
  - case_bool_decide as Hx; intros H; injection H as <- <-.
    + split; [done|]. by rewrite Hn, bool_decide_eq_true_2.
    + split; [done|]. rewrite faulty_app, Hn, bool_decide_eq_false_2; [done|congruence].
  - intros H; injection H as <- <-. split; [done|]. by rewrite faulty_app, Hn.
Qed.

(** A model the resolver may choose. *)
Definition suitable (r : ResolutionRequest) (c : AgentClassPolicy) (available_models : list string)
  (m : ModelPolicy) : bool :=
  _model_allowed_for_class m c && available available_models m && _model_supports_task m r.

Lemma suitable_unique models r c available_models m x :
  NoDup (mp_model_id <$> models) → m ∈ models → mp_model_id m = x → suitable r c available_models m = false →
  ∀ m', m' ∈ models → suitable r c available_models m' = true → mp_model_id m' ≠ x.
Proof.
  intros Hnd Hm <- Hs m' Hm' Hs' E. apply (NoDup_key _ _ _ _ Hnd) in E as ->; [congruence|done..].
Qed.

Lemma requested_model_Ok r c models available_models o reasons :
  NoDup (mp_model_id <$> models) → Forall (λ m, mp_model_id m ≠ "") models →
  requested_model_policy r c models available_models = Ok (o, reasons) →
  match o with
  | Some m => m ∈ models ∧ rq_requested_model r = Some (mp_model_id m)
              ∧ suitable r c available_models m = true ∧ faulty reasons = false
  | None => faulty reasons = negb (bool_decide (rq_requested_model r = None))
            ∧ ∀ x m, rq_requested_model r = Some x → m ∈ models → suitable r c available_models m = true →
                mp_model_id m ≠ x
  end.
Proof.
  intros Hnd Hne. unfold requested_model_policy. destruct (_ && _) eqn:Hb; [done|].
  destruct (dict_get _ _) as [m|] eqn:Hd; intros H.
  - apply dict_of_Some in Hd as [Hm Hid]. destruct (rq_requested_model r) as [x|] eqn:Hx; cbn [default] in Hid.
    2: { rewrite Forall_forall in Hne. by apply Hne in Hm. }
    change (bool_decide (Some x = None)) with false in Hb |- *. cbn [negb] in Hb |- *.
    rewrite andb_true_r in Hb. fold (suitable r c available_models m) in Hb. cbn [id default] in Hid.
    pose proof (suitable_unique models r c available_models m x Hnd Hm Hid) as Hu.
    destruct (suitable r c available_models m) eqn:Hs.
    + unfold suitable in Hs. rewrite !andb_true_iff in Hs. destruct Hs as [[H1 H2] H3].
      unfold drop_when in H. cbn [fst snd] in H.
      destruct (explicit_leadership r c); cbn [fst snd negb andb] in H; rewrite ?H1 in H; cbn [fst snd negb] in H;
        rewrite ?H2 in H; cbn [fst snd negb] in H; rewrite ?H3 in H; cbn [fst snd negb] in H;
        injection H as <- <-; (split_and!; [done|by rewrite Hid|unfold suitable; by rewrite H1, H2, H3|done]).
    + rewrite andb_true_r in Hb. rewrite Hb in H. cbn [negb andb] in H.
      assert (o = None ∧ faulty reasons = true) as [-> Hr].
      { revert Hs H. unfold suitable, drop_when. cbn [fst snd negb andb].
        destruct (_model_allowed_for_class m c); cbn [fst snd negb]; [|intros _ H; by injection H as <- <-].
        destruct (available available_models m); cbn [fst snd negb]; [|intros _ H; by injection H as <- <-].
        destruct (_model_supports_task m r); cbn [fst snd negb]; [done|intros _ H; by injection H as <- <-]. }
      split; [done|]. intros y m' [= <-]. by apply Hu.
  - cbn [drop_when fst snd] in H. injection H as <- <-. split.
    + by destruct (rq_requested_model r).
    + intros x m Hx Hm _. rewrite Hx in Hd. cbn in Hd. by apply (dict_of_None _ _ _ _ Hd).
Qed.

Lemma model_candidates_elem r c models available_models minimum_rank m :
  m ∈ model_candidates r c models available_models minimum_rank →
  m ∈ models ∧ suitable r c available_models m = true ∧ minimum_rank <= mp_rank m.
Proof.
  unfold model_candidates. rewrite (sort_by_perm Z.compare mp_rank).
  intros [Hm%list_elem_of_In H]%list_elem_of_In%filter_In. rewrite !andb_true_iff, Z.leb_le in H.
  unfold suitable. rewrite !andb_true_iff. naive_solver.
Qed.

(** The model is suitable; the reasons are faulty exactly when a requested
    model was not chosen. *)
Lemma resolve_model_Ok r c lifecycle models available_models m reasons :
  NoDup (mp_model_id <$> models) → Forall (λ m, mp_model_id m ≠ "") models →
  resolve_model r c lifecycle models available_models = Ok (m, reasons) →
  m ∈ models ∧ suitable r c available_models m = true
  ∧ ∀ x, rq_requested_model r = Some x → faulty reasons = negb (bool_decide (mp_model_id m = x)).
Proof.
  intros Hnd Hne H. unfold resolve_model in H. apply bind_Ok in H as ([o rs] & Ho & H).
  apply requested_model_Ok in Ho; [|done..]. cbv zeta in H.
  set (low := minimum_rank_of c models _) in *. set (family := minimum_family_of _ _ _ _) in *.
  clearbody low family.
  assert (∀ rs', match model_candidates r c models available_models low with
          | [] => match ap_allowed_model_ids c with
                  | [] => Err (ValueError "no_compatible_model")
                  | _ => required_model_unavailable c
                  end
          | m :: _ => Ok (m, rs' ++ match rq_requested_model r with
                     | Some _ => []
                     | None => "model_defaulted" :: (if bool_decide (mp_family m = family) then []
                                                     else ["default_model_unavailable"]) end)
          end = Ok (m, reasons) →
          m ∈ models ∧ suitable r c available_models m = true ∧ low <= mp_rank m
          ∧ ∀ x, rq_requested_model r = Some x → reasons = rs') as Hdefault.
  { intros rs'. destruct (model_candidates _ _ _ _ _) as [|m' rest] eqn:Hc.
    - by destruct (ap_allowed_model_ids c).
    - intros E. injection E as -> <-. destruct (model_candidates_elem r c models available_models low m) as (?&?&?).
      { rewrite Hc. by left. }
      split_and!; [done..|]. intros x Hx. by rewrite Hx, app_nil_r. }
  destruct o as [m'|].
  - destruct Ho as (Hm & Hr & Hs & Hf). destruct (low <=? mp_rank m') eqn:Hlow.
    + injection H as <- <-. split_and!; [done..|]. intros x Hx. rewrite Hx in Hr. injection Hr as ->.
      by rewrite Hf, bool_decide_eq_true_2.
    + apply Hdefault in H as (Hm' & Hs' & Hlow' & Hx'). split_and!; [done..|]. intros x Hx.
      rewrite (Hx' x Hx), faulty_app, Hf. rewrite Hx in Hr. injection Hr as ->.
      rewrite bool_decide_eq_false_2; [done|]. intros E. apply Z.leb_gt in Hlow.
      apply (NoDup_key _ _ _ _ Hnd) in E as ->; [lia|done..].
  - destruct Ho as [Hf Hn]. apply Hdefault in H as (Hm & Hs & _ & Hx). split_and!; [done..|]. intros x E.
    rewrite (Hx x E), Hf, E, (bool_decide_eq_false_2 (mp_model_id m = x)) by (by apply Hn). done.
Qed.

Lemma clamp_Ok requested m c lifecycle level reasons :
  Forall (λ level, known_effort level = true) (mp_reasoning_levels m) →
  _clamp_reasoning requested m c lifecycle = Ok (level, reasons) →
  faulty reasons = negb (bool_decide (level = requested)).
Proof.
  intros Hk. unfold _clamp_reasoning. destruct (_allowed_reasoning_levels m c lifecycle) as [|l ls] eqn:Ha; [done|].
  intros H. injection H as <- <-. set (key := λ level : string, _). set (best := min_by _ _ _ _).
  assert (best ∈ l :: ls) as Hin by apply min_by_elem, _. clearbody best.
  rewrite faulty_app. destruct (known_effort requested) eqn:Hr; cbn [negb].
  - by case_bool_decide.
  - rewrite (bool_decide_eq_false_2 (best = requested)); [done|]. intros ->. rewrite <- Ha in Hin.
    apply list_elem_of_In, filter_In in Hin as [Hin%list_elem_of_In _]. rewrite Forall_forall in Hk.
    by rewrite (Hk _ Hin) in Hr.
Qed.

Lemma resolve_reasoning_Ok r c m lifecycle level reasons :
  Forall (λ level, known_effort level = true) (mp_reasoning_levels m) →
  resolve_reasoning r c m lifecycle = Ok (level, reasons) →
  ∀ x, rq_requested_reasoning r = Some x → faulty reasons = negb (bool_decide (level = x)).
Proof.
  intros Hk H x Hx. unfold resolve_reasoning in H. apply bind_Ok in H as (? & _ & H). rewrite Hx in H.
  case_bool_decide; [|by eapply clamp_Ok].
  case_bool_decide; [|case_bool_decide; done]. injection H as <- <-.
  rewrite (bool_decide_ext (ap_min_reasoning c = x) (x = ap_min_reasoning c)) by done. by case_bool_decide.
Qed.

(** Catalogs whose entries the resolver and the offer can tell apart and that
    name what they offer by texts a decision may carry. *)
Definition class_ok (c : AgentClassPolicy) : Prop :=
  resolution_text (ap_class_id c) = true ∧ ap_default_lifecycle c ∈ ap_allowed_lifecycles c
  ∧ NoDup (ap_allowed_lifecycles c) ∧ Forall (λ l, lifecycle_rule l = Ok ()) (ap_allowed_lifecycles c).

Definition model_ok (m : ModelPolicy) : Prop :=
  resolution_text (mp_model_id m) = true ∧ NoDup (mp_reasoning_levels m)
  ∧ Forall (λ level, known_effort level = true) (mp_reasoning_levels m).

Record catalog_ok (classes : list AgentClassPolicy) (models : list ModelPolicy) : Prop := {
  classes_distinct : NoDup (ap_class_id <$> classes);
  classes_ok : Forall class_ok classes;
  models_distinct : NoDup (mp_model_id <$> models);
  models_ok : Forall model_ok models;
}.

(** Every requested value is the one decided on, up to the alias of a
    lifecycle. *)
Definition honoured (r : ResolutionRequest) (d : ResolutionDecision) : bool :=
  honours (rq_requested_class r) (dn_class_id d)
  && honours (alias_of <$> rq_requested_lifecycle r) (dn_lifecycle d)
  && honours (rq_requested_model r) (dn_model d) && honours (rq_requested_reasoning r) (dn_reasoning d).

(** The class, model and stages behind a decision. *)
Lemma resolution_parts r classes models available_models d :
  catalog_ok classes models →
  resolve_agent_selection r classes models available_models = Ok d →
  ∃ c m, c ∈ classes ∧ m ∈ models ∧ retired m = false ∧ suitable r c available_models m = true
    ∧ decision_option d = option_of c (dn_lifecycle d) m (dn_reasoning d)
    ∧ dn_lifecycle d ∈ ap_allowed_lifecycles c
    ∧ dn_reasoning d ∈ _allowed_reasoning_levels m c (dn_lifecycle d)
    ∧ (ap_class_id c ∈ LEADERSHIP_CLASS_IDS → rq_requested_class r = Some (ap_class_id c))
    ∧ ∃ model_reasons effort_reasons,
        dn_fallback d = negb (honours (rq_requested_class r) (ap_class_id c))
                        || (negb (honours (alias_of <$> rq_requested_lifecycle r) (dn_lifecycle d))
                            || (faulty model_reasons || faulty effort_reasons))
        ∧ (∀ x, rq_requested_model r = Some x →
             faulty model_reasons = negb (bool_decide (mp_model_id m = x)))
        ∧ (∀ x, rq_requested_reasoning r = Some x →
             faulty effort_reasons = negb (bool_decide (dn_reasoning d = x))).
Proof.
  intros [_ Hc Hnd Hm] H. rewrite Forall_forall in Hc. rewrite Forall_forall in Hm. unfold resolve_agent_selection in H.
  apply bind_Ok in H as (? & _ & H). cbv zeta in H. set (values := List.filter _ models) in H.
  assert (∀ m, m ∈ values ↔ m ∈ models ∧ retired m = false) as Hv.
  { intros m. unfold values. rewrite list_elem_of_In, filter_In, <- list_elem_of_In, negb_true_iff. done. }
  assert (NoDup (mp_model_id <$> values)) as Hnd'.
  { unfold values. clear -Hnd. induction models as [|m models IH]; [done|].
    apply NoDup_cons in Hnd as [Hni Hnd]. cbn. destruct (negb (retired m)); [|by apply IH].
    apply NoDup_cons. split; [|by apply IH]. intros (m' & E & [Hin _]%list_elem_of_In%filter_In)%list_elem_of_fmap.
    apply Hni, list_elem_of_fmap. exists m'. by rewrite list_elem_of_In. }
  assert (Forall (λ m, mp_model_id m ≠ "") values) as Hne.
  { apply Forall_forall. intros m [[Hid _]%Hm _]%Hv E. by rewrite E in Hid. }
  apply bind_Ok in H as ([c rc] & Hsc%select_class_Ok & H). destruct Hsc as (Hin & Hfc & Hl).
  apply bind_Ok in H as ([l rl] & Hsl & H). apply resolve_lifecycle_Ok in Hsl as [Hal Hfl]; [|apply Hc, Hin].
  apply bind_Ok in H as ([m rm] & Hsm & H). apply resolve_model_Ok in Hsm as (Hmv & Hs & Hfm); [|done..].
  apply bind_Ok in H as ([level re] & Hsr & H). apply Hv in Hmv as [Hmv Hret].
  pose proof (resolve_reasoning_Ok _ _ _ _ _ _ (proj2 (proj2 (Hm _ Hmv))) Hsr) as Hfr.
  apply bind_Ok in H as (? & Ht & [= <-]). unfold validate_canonical_agent_tuple in Ht.
  apply require_Ok in Ht. rewrite !andb_true_iff, !bool_decide_eq_true in Ht. destruct Ht as [[_ _] Hlevel].
  exists c, m. split_and!; try done. exists rm, re. split_and!; [|done..]. cbn [dn_fallback dn_lifecycle].
  rewrite <- Hfc, <- Hfl, <- !faulty_app. done.
Qed.

(** ** Decisions are offered *)

Lemma fromkeys_elem l x : x ∈ fromkeys l ↔ x ∈ l.
Proof. unfold fromkeys. by rewrite elem_of_reverse, elem_of_remove_dups, elem_of_reverse. Qed.

Lemma fromkeys_NoDup l : NoDup (fromkeys l).
Proof. unfold fromkeys. rewrite reverse_Permutation. apply NoDup_remove_dups. Qed.

Lemma fromkeys_length l : (length (fromkeys l) <= length l)%nat.
Proof.
  apply submseteq_length, NoDup_submseteq; [apply fromkeys_NoDup|]. intros x. apply fromkeys_elem.
Qed.

Definition reason_codes : list string :=
  fallback_codes ++ ["class_auto_selected"; "lifecycle_alias_normalized"; "lifecycle_defaulted";
                     "model_defaulted"; "reasoning_defaulted"].

Definition known_codes (l : list string) : bool := forallb (λ code, bool_decide (code ∈ reason_codes)) l.

Lemma known_codes_app l k : known_codes (l ++ k) = known_codes l && known_codes k.
Proof. apply forallb_app. Qed.

Ltac known := repeat first [case_match | done | progress simplify_eq/= | progress rewrite ?known_codes_app].

Lemma class_codes r classes c reasons : _select_class r classes = Ok (c, reasons) → known_codes reasons = true.
Proof. unfold _select_class. intros H. known. Qed.

Lemma lifecycle_codes r c l reasons : resolve_lifecycle r c = Ok (l, reasons) → known_codes reasons = true.
Proof. unfold resolve_lifecycle. intros H. known. Qed.

Lemma drop_codes e p code st :
  known_codes [code] = true → known_codes st.2 = true → known_codes (drop_when e p code st).2 = true.
Proof.
  intros H1 H2. unfold drop_when. destruct st.1; [|done]. destruct (_ && _); [|done].
  cbn [snd]. by rewrite known_codes_app, H1, H2.
Qed.

Lemma requested_codes r c models available_models o reasons :
  requested_model_policy r c models available_models = Ok (o, reasons) → known_codes reasons = true.
Proof.
  unfold requested_model_policy. destruct (_ && _); [done|]. intros H. injection H as H.
  replace reasons with (o, reasons).2 by done. rewrite <- H. repeat apply drop_codes; try done. by repeat case_match.
Qed.

Lemma model_codes r c l models available_models m reasons :
  resolve_model r c l models available_models = Ok (m, reasons) → known_codes reasons = true.
Proof.
  unfold resolve_model. intros ([o rs] & Ho%requested_codes & H)%bind_Ok. cbv zeta in H.
  destruct (model_candidates _ _ _ _ _); known; by rewrite ?Ho.
Qed.

Lemma clamp_codes requested m c l level reasons :
  _clamp_reasoning requested m c l = Ok (level, reasons) → known_codes reasons = true.
Proof. unfold _clamp_reasoning. intros H. known. Qed.

Lemma effort_codes r c m l level reasons :
  resolve_reasoning r c m l = Ok (level, reasons) → known_codes reasons = true.
Proof.
  unfold resolve_reasoning. intros (? & _ & H)%bind_Ok. case_bool_decide.
  - known.
  - destruct (rq_requested_reasoning r); [by apply clamp_codes in H|].
    apply bind_Ok in H as ([lv rs] & Hc%clamp_codes & H). injection H as <- <-. cbn. exact Hc.
Qed.

Lemma resolution_codes r classes models available_models d :
  resolve_agent_selection r classes models available_models = Ok d →
  ∃ reasons, dn_reason_codes d = fromkeys reasons ∧ known_codes reasons = true.
Proof.
  unfold resolve_agent_selection. intros (? & _ & H)%bind_Ok.
  apply bind_Ok in H as ([c rc] & H1%class_codes & H). apply bind_Ok in H as ([l rl] & H2%lifecycle_codes & H).
  apply bind_Ok in H as ([m rm] & H3%model_codes & H). apply bind_Ok in H as ([e re] & H4%effort_codes & H).
  apply bind_Ok in H as (? & _ & [= <-]). eexists. split; [done|]. by rewrite !known_codes_app, H1, H2, H3, H4.
Qed.

Lemma codes_ok reasons :
  known_codes reasons = true →
  (length (fromkeys reasons) <= _MAX_REASON_CODES)%nat ∧ forallb resolution_text (fromkeys reasons) = true.
Proof.
  unfold known_codes. rewrite forallb_forall. intros H.
  assert (∀ x, x ∈ fromkeys reasons → x ∈ reason_codes) as Hsub.
  { intros x Hx. rewrite fromkeys_elem, list_elem_of_In in Hx. by apply H, bool_decide_eq_true in Hx. }
  split.
  - etrans; [|apply (Nat.leb_le (length reason_codes)); reflexivity].
    apply submseteq_length, NoDup_submseteq; [apply fromkeys_NoDup|done].
  - apply forallb_forall. intros x Hx%list_elem_of_In%Hsub.
    assert (forallb resolution_text reason_codes = true) as Hall by reflexivity.
    rewrite forallb_forall in Hall. by apply Hall, list_elem_of_In.
Qed.

Lemma lifecycle_rule_Ok l : lifecycle_rule l = Ok () → canonical_worker_lifecycle l = Ok l ∧ resolution_text l = true.
Proof.
  unfold lifecycle_rule. intros (c & Hc & ->%require_Ok%bool_decide_eq_true)%bind_Ok. split; [done|].
  unfold canonical_worker_lifecycle in Hc. apply bind_Ok in Hc as (? & Hm%require_Ok & [= E]). rewrite E in Hm.
  unfold dict_mem in Hm. apply bool_decide_eq_true, elem_of_dict_keys in Hm.
  unfold LIFECYCLE_RANK, dict_keys in Hm. cbn in Hm. rewrite !elem_of_cons in Hm.
  destruct Hm as [-> | [-> | [-> | []%elem_of_nil]]]; reflexivity.
Qed.

Lemma known_effort_text level : known_effort level = true → resolution_text level = true.
Proof.
  unfold known_effort, dict_mem. intros Hm%bool_decide_eq_true%elem_of_dict_keys.
  unfold REASONING_RANK, dict_keys in Hm. cbn in Hm. rewrite !elem_of_cons in Hm.
  destruct Hm as [-> | [-> | [-> | [-> | [-> | []%elem_of_nil]]]]]; reflexivity.
Qed.

(** The texts of a request, as the digest of a decision wants them. *)
Definition request_texts (r : ResolutionRequest) : bool :=
  forallb optional_text [rq_requested_class r; rq_requested_lifecycle r; rq_requested_model r;
                         rq_requested_reasoning r].

Lemma option_parts classes models available_models o :
  catalog_ok classes models → offers classes models available_models o →
  option_rule o = Ok () ∧ lifecycle_rule (so_lifecycle o) = Ok ()
  ∧ forallb resolution_text [so_class_id o; so_lifecycle o; so_model o; so_reasoning o] = true.
Proof.
  intros [_ Hcs _ Hms] (c & l & m & level & Hc & Hl & Hm & _ & Hlevel & ->).
  rewrite Forall_forall in Hcs. rewrite Forall_forall in Hms.
  destruct (Hcs c Hc) as (H1 & _ & _ & Hls), (Hms m Hm) as (H2 & _ & Hks).
  rewrite Forall_forall in Hls. rewrite Forall_forall in Hks. specialize (Hls l Hl).
  apply list_elem_of_In, filter_In in Hlevel as [Hlevel%list_elem_of_In _]. specialize (Hks _ Hlevel).
  apply lifecycle_rule_Ok in Hls as Hls'. destruct Hls' as [Hcan H3]. pose proof (known_effort_text _ Hks) as H4.
  assert (forallb resolution_text [ap_class_id c; l; mp_model_id m; level] = true) as Htexts.
  { cbn. by rewrite H1, H2, H3, H4. }
  split_and!; [|done|done]. unfold option_rule. cbn [so_class_id so_lifecycle so_model so_reasoning option_of].
  rewrite Htexts. cbn [require mbind result_bind]. rewrite Hcan. cbn [mbind result_bind].
  by rewrite bool_decide_eq_true_2, Hks.
Qed.

Lemma offer_options_NoDup classes models available_models offer :
  catalog_ok classes models → build_selection_offer classes models available_models = Ok offer →
  NoDup (so_options offer).
Proof.
  intros [Hcd Hcs Hmd Hms] (H & _)%build_offer_Ok. rewrite Forall_forall in Hcs. rewrite Forall_forall in Hms.
  pose proof (sort_by_perm Z.compare mp_rank models) as Hperm.
  assert (∀ c k o, class_options models available_models c = Ok k → o ∈ k → so_class_id o = ap_class_id c) as Hclass.
  { intros c k o Hk Ho. rewrite (class_options_elem _ _ _ _ _ Hk) in Ho.
    by destruct Ho as (c' & l & m & level & ->%list_elem_of_singleton & _ & _ & _ & _ & ->). }
  apply (NoDup_concat_result _ _ _ H).
  - rewrite (sort_by_perm str_cmp ap_class_id). by eapply NoDup_fmap_1.
  - intros c k Hc Hk. rewrite (sort_by_perm str_cmp ap_class_id) in Hc. unfold class_options in Hk.
    destruct (_ && _); [done|]. apply (NoDup_concat_result _ _ _ Hk); [apply Hcs, Hc| |].
    + intros l kl _ Hkl. apply (NoDup_concat_result _ _ _ Hkl).
      * apply NoDup_ListNoDup, List.NoDup_filter, NoDup_ListNoDup. rewrite Hperm. by eapply NoDup_fmap_1.
      * intros m km [Hm _]%list_elem_of_In%filter_In ->%level_options_Ok. rewrite <- list_elem_of_In, Hperm in Hm.
        apply NoDup_fmap_2; [by intros ? ? [=]|]. apply NoDup_ListNoDup, List.NoDup_filter, NoDup_ListNoDup.
        apply Hms, Hm.
      * intros m m' km km' o [Hm _]%list_elem_of_In%filter_In [Hm' _]%list_elem_of_In%filter_In
          ->%level_options_Ok ->%level_options_Ok (e & -> & _)%list_elem_of_fmap (e' & E & _)%list_elem_of_fmap.
        rewrite <- list_elem_of_In, Hperm in Hm, Hm'. injection E as E _.
        by apply (NoDup_key _ _ _ _ Hmd).
    + intros l l' kl kl' o _ _ Hkl Hkl' Ho Ho'.
      rewrite (elem_of_concat_result _ _ _ _ Hkl) in Ho. rewrite (elem_of_concat_result _ _ _ _ Hkl') in Ho'.
      destruct Ho as (m & km & _ & ->%level_options_Ok & (e & -> & _)%list_elem_of_fmap).
      by destruct Ho' as (m' & km' & _ & ->%level_options_Ok & (e' & [=] & _)%list_elem_of_fmap).
  - intros c c' k k' o Hc Hc' Hk Hk' Ho Ho'. rewrite (sort_by_perm str_cmp ap_class_id) in Hc, Hc'.
    pose proof (Hclass _ _ _ Hk Ho) as E. rewrite (Hclass _ _ _ Hk' Ho') in E.
    by apply (NoDup_key _ _ _ _ Hcd).
Qed.

Lemma substring_whole s : String.substring 0 (String.length s) s = s.
Proof. induction s as [|c s IH]; cbn; [done|]. by rewrite IH. Qed.

Lemma options_digest_text options :
  py_len (options_digest options) = 71 ∧ startswith "sha256:" (options_digest options) = true
  ∧ string_forallb is_hex_lower (String.substring 7 64 (options_digest options)) = true.
Proof.
  unfold options_digest. set (text := dumps_with _ _ _). clearbody text. split_and!.
  - unfold py_len. by rewrite length_append, length_sha256_hex.
  - by apply startswith_true; exists (sha256_hex text).
  - change (String.substring 7 64 ("sha256:" +:+ sha256_hex text)) with (String.substring 0 64 (sha256_hex text)). rewrite <- (length_sha256_hex text), substring_whole. apply sha256_hex_digits.
Qed.

Lemma public_lists_ok options :
  (length options <= _MAX_SELECTION_OPTIONS)%nat →
  Forall (λ o, forallb resolution_text [so_class_id o; so_lifecycle o; so_model o; so_reasoning o] = true) options →
  forallb public_list_ok (public_lists options) = true.
Proof.
  intros Hlen Htexts. rewrite Forall_forall in Htexts.
  assert (∀ f : SelectionOption → string, (∀ o, o ∈ options → resolution_text (f o) = true) →
    public_list_ok (fromkeys (f <$> options)) = true) as Hone.
  { intros f Hf. unfold public_list_ok. rewrite !andb_true_iff, !bool_decide_eq_true. split_and!.
    - etrans; [apply fromkeys_length|]. by rewrite length_fmap.
    - apply forallb_forall. intros x Hx. apply list_elem_of_In in Hx. rewrite fromkeys_elem, list_elem_of_fmap in Hx.
      destruct Hx as (o & -> & Ho). by apply Hf.
    - apply fromkeys_NoDup. }
  cbn. rewrite !Hone; [done|intros o Ho; specialize (Htexts o Ho); cbn in Htexts; rewrite !andb_true_iff in Htexts;
    naive_solver..].
Qed.

Lemma decision_digest_Ok d lifecycle :
  forallb resolution_text [dn_class_id d; dn_lifecycle d; dn_model d; dn_reasoning d] = true →
  canonical_worker_lifecycle (dn_lifecycle d) = Ok lifecycle → lifecycle = dn_lifecycle d → decision_ok d = true →
  is_ok (canonical_resolution_decision_digest d) = true.
Proof.
  intros H1 H2 -> H3. unfold canonical_resolution_decision_digest. rewrite H1. cbn [require mbind result_bind].
  rewrite H2. cbn [mbind result_bind]. by rewrite bool_decide_eq_true_2, H3.
Qed.

Lemma resolution_decision_ok r classes models available_models d :
  catalog_ok classes models → request_texts r = true →
  resolve_agent_selection r classes models available_models = Ok d → decision_ok d = true.
Proof.
  intros Hok Htexts Hd. destruct (resolution_codes _ _ _ _ _ Hd) as (reasons & Hr & [H1 H2]%codes_ok).
  destruct (resolution_parts _ _ _ _ _ Hok Hd) as (c & m & _ & Hm & _ & _ & _ & _ & Hlevel & _).
  apply list_elem_of_In, filter_In in Hlevel as [Hlevel%list_elem_of_In _].
  destruct Hok as [_ _ _ Hms]. rewrite Forall_forall in Hms. destruct (Hms m Hm) as (_ & _ & Hks).
  rewrite Forall_forall in Hks. unfold decision_ok. rewrite (Hks _ Hlevel), Hr, H2, bool_decide_eq_true_2 by done.
  rewrite bool_decide_eq_true_2 by apply fromkeys_NoDup. cbn [andb]. unfold resolve_agent_selection in Hd.
  repeat (apply bind_Ok in Hd as ([] & _ & Hd)). by injection Hd as <-.
Qed.

Lemma mapM_units {A} (f : A → result ()) l : (∀ x, x ∈ l → f x = Ok ()) → is_ok (mapM_result f l) = true.
Proof. intros H. rewrite (mapM_result_all f (λ _, ())); [done|]. by apply Forall_forall. Qed.

(** What the resolver decides is on offer.  Over catalogs whose entries are
    told apart and named by texts of the permitted length, any decision for a
    request with such texts passes the check against the offer built from the
    same catalogs and models, whatever models are available: the digest of the
    decision exists, the offer is well formed and the decision's class,
    lifecycle, model and effort are one of its options. *)
Lemma resolution_offered r classes models available_models d offer :
  catalog_ok classes models → request_texts r = true →
  (length (so_options offer) <= _MAX_SELECTION_OPTIONS)%nat →
  resolve_agent_selection r classes models available_models = Ok d →
  build_selection_offer classes models available_models = Ok offer →
  validate_resolution_decision_offer d offer = Ok ().
Proof.
  intros Hok Htexts Hlen Hd Ho. pose proof (offer_options_NoDup _ _ _ _ Hok Ho) as Hnd.
  destruct (resolution_parts _ _ _ _ _ Hok Hd) as (c & m & Hc & Hm & Hr & Hs & Hopt & Hl & Hlevel & _).
  assert (decision_option d ∈ so_options offer) as Hin.
  { rewrite (offer_elem _ _ _ _ _ Ho), Hopt. exists c, (dn_lifecycle d), m, (dn_reasoning d).
    unfold suitable in Hs. rewrite !andb_true_iff in Hs. unfold compatible. rewrite !andb_true_iff, Hr.
    split_and!; naive_solver. }
  assert (∀ o, o ∈ so_options offer → option_rule o = Ok () ∧ lifecycle_rule (so_lifecycle o) = Ok ()
    ∧ forallb resolution_text [so_class_id o; so_lifecycle o; so_model o; so_reasoning o] = true) as Hall.
  { intros o Hoo. rewrite (offer_elem _ _ _ _ _ Ho) in Hoo. by eapply option_parts. }
  destruct (build_offer_Ok _ _ _ _ Ho) as (_ & Hg & Hlists).
  destruct (options_digest_text (so_options offer)) as (Hg1 & Hg2 & Hg3).
  destruct (Hall _ Hin) as (Hrule & Hlrule & Ht). apply lifecycle_rule_Ok in Hlrule as [Hcan _].
  assert (is_ok (canonical_resolution_decision_digest d) = true) as Hdigest.
  { eapply decision_digest_Ok; [exact Ht|exact Hcan|done|]. by eapply resolution_decision_ok. }
  unfold validate_resolution_decision_offer.
  destruct (canonical_resolution_decision_digest d); [|done]. cbn [mbind result_bind].
  rewrite Hg, Hg1, Hg2, Hg3, Z.eqb_refl. cbn [require andb mbind result_bind].
  rewrite Hlists, public_lists_ok; [|done|apply Forall_forall; intros o Hoo; by apply Hall].
  rewrite bool_decide_eq_true_2 by done. cbn [require andb mbind result_bind].
  assert (is_ok (mapM_result option_rule (so_options offer)) = true) as Hm1 by (apply mapM_units; apply Hall).
  destruct (mapM_result option_rule _); [|done]. cbn [mbind result_bind].
  rewrite bool_decide_eq_true_2 by done. cbn [require mbind result_bind].
  assert (is_ok (mapM_result lifecycle_rule (so_lifecycles offer)) = true) as Hm2.
  { apply mapM_units. intros l Hll. injection Hlists as _ E _ _. rewrite E, fromkeys_elem, list_elem_of_fmap in Hll.
    destruct Hll as (o & -> & Hoo). by apply Hall. }
  destruct (mapM_result lifecycle_rule _); [|done]. cbn [mbind result_bind].
  rewrite !bool_decide_eq_true_2 by done. done.
Qed.

(** ** Loaded catalogs *)

Lemma profile_text_Ok f v s : profile_text f v = Ok s → 1 <= py_len s <= 128.
Proof.
  unfold profile_text. destruct v; try done. destruct (_ && _) eqn:H; [|done]. intros [= <-].
  rewrite !andb_true_iff, !Z.leb_le in H. lia.
Qed.

Lemma policy_text_Ok code v s : policy_text code v = Ok s → 1 <= py_len s <= 128.
Proof.
  unfold policy_text, policy_text_ok. destruct v; try done. destruct (_ && _) eqn:H; [|done]. intros [= <-].
  rewrite !andb_true_iff, !Z.leb_le in H. lia.
Qed.

Lemma short_text s : 1 <= py_len s <= 128 → resolution_text s = true.
Proof.
  intros [H1 H2]. unfold resolution_text, _MAX_RESOLUTION_TEXT_LENGTH. rewrite bool_decide_eq_false_2 by (by intros ->).
  cbn [negb andb]. apply Z.leb_le. lia.
Qed.

Lemma loaded_profile raw p : profile_of_payload raw = Ok p → resolution_text (cp_class_id p) = true.
Proof.
  unfold profile_of_payload. destruct raw; try done. intros (? & _ & H%reraise_Ok)%bind_Ok.
  unfold profile_call in H. do 16 (apply bind_Ok in H as (? & _ & H)). unfold AgentClassProfile_new in H.
  apply bind_Ok in H as (class_id & Hid%profile_text_Ok%short_text & H).
  do 13 (apply bind_Ok in H as (? & _ & H)). apply bind_Ok in H as ([[[[[[??]?]?]?]?]?] & _ & [= <-]). done.
Qed.

Lemma add_profiles_Ok result raws classes :
  add_profiles result raws = Ok classes →
  NoDup (dict_keys result) → Forall (λ kp, kp.1 = cp_class_id kp.2 ∧ resolution_text kp.1 = true) result →
  NoDup (dict_keys classes) ∧ Forall (λ kp, kp.1 = cp_class_id kp.2 ∧ resolution_text kp.1 = true) classes.
Proof.
  revert result. induction raws as [|raw raws IH]; intros result; cbn [add_profiles]; [by intros [= <-]|].
  intros (p & Hp%loaded_profile & H)%bind_Ok Hnd Hall. apply bind_Ok in H as (? & Hn%require_Ok & H).
  apply (IH _ H); [by apply NoDup_dict_set|]. unfold dict_mem in Hn.
  apply negb_true_iff, bool_decide_eq_false in Hn.
  assert (dict_set (cp_class_id p) p result = result ++ [(cp_class_id p, p)]) as ->.
  { apply dict_set_fresh. intros Hk. by apply Hn, elem_of_dict_keys. }
  apply Forall_app. split; [done|]. by repeat constructor.
Qed.

Lemma class_policy_of_Ok p c :
  class_policy_of p = Ok c →
  ap_class_id c = cp_class_id p ∧ ap_default_lifecycle c ∈ ap_allowed_lifecycles c.
Proof.
  unfold class_policy_of, AgentClassPolicy_new. intros (? & H%require_Ok & [= <-])%bind_Ok.
  rewrite !andb_true_iff, !bool_decide_eq_true in H. cbn in H. naive_solver.
Qed.

Lemma policy_choice_Ok code l v s : policy_choice code l v = Ok s → v = VStr s.
Proof. unfold policy_choice. intros (? & _ & H)%bind_Ok. destruct v; try done. inv_result. done. Qed.

Lemma loaded_definition raw d :
  definition_of_payload raw = Ok d → resolution_text (md_model_id d) = true ∧ NoDup (md_reasoning_levels d).
Proof.
  unfold definition_of_payload. destruct raw; try done. intros (? & _ & H%reraise_Ok)%bind_Ok.
  unfold definition_call in H. do 7 (apply bind_Ok in H as (? & _ & H)). unfold ModelDefinition_new in H.
  apply bind_Ok in H as (model_id & Hid%policy_text_Ok%short_text & H).
  do 13 (apply bind_Ok in H as (? & _ & H)).
  apply bind_Ok in H as ([levels low] & Hl & H). apply bind_Ok in H as (? & _ & [= <-]). split; [done|]. cbn.
  unfold policy_reasoning in Hl. apply bind_Ok in Hl as (? & _ & Hl). apply bind_Ok in Hl as (distinct & Hd & Hl).
  apply bind_Ok in Hl as (? & ->%require_Ok & Hl). apply bind_Ok in Hl as (names & Hn & Hl).
  assert (levels = names) as -> by (clear -Hl; repeat case_match; inv_result; done).
  apply mapM_result_Ok_Forall2 in Hn. match type of Hd with all_distinct ?l = _ => replace l with (VStr <$> names) in Hd end.
  - rewrite all_distinct_texts in Hd. injection Hd as Hd. by apply bool_decide_eq_true in Hd.
  - clear -Hn. induction Hn as [|v s vs ss ->%policy_choice_Ok _ IH]; [done|]. cbn. by f_equal.
Qed.

Lemma texts_of_strings l : _is_string_tuple (VStr <$> l) = Some l.
Proof.
  unfold _is_string_tuple. apply mapM_Some, Forall2_fmap_l. induction l; by constructor.
Qed.

Lemma model_policy_of_Ok d m :
  model_policy_of (definition_public d) = Ok m →
  mp_model_id m = md_model_id d ∧ mp_reasoning_levels m = md_reasoning_levels d
  ∧ Forall (λ level, known_effort level = true) (mp_reasoning_levels m).
Proof.
  unfold model_policy_of, ModelPolicy_new. intros (? & _ & H)%bind_Ok.
  apply bind_Ok in H as (? & H1%require_Ok & H). apply bind_Ok in H as (? & _ & [= <-]).
  cbn [mp_model_id mp_reasoning_levels] in *. apply andb_true_iff in H1 as [_ Hk].
  assert (item_texts "reasoning_levels" (definition_public d) = md_reasoning_levels d) as El.
  { change (default [] (_is_string_tuple (VStr <$> md_reasoning_levels d)) = md_reasoning_levels d).
    by rewrite texts_of_strings. }
  split_and!; [done|done|]. rewrite forallb_forall in Hk. apply Forall_forall. intros level Hl%list_elem_of_In.
  by apply Hk.
Qed.

Lemma loaded_registry text registry :
  load_model_policy_bytes text = Ok registry →
  ∃ ds, dict_values (_definitions registry) = ds ∧ NoDup (model_ids ds)
    ∧ Forall (λ d, resolution_text (md_model_id d) = true ∧ NoDup (md_reasoning_levels d)) ds.
Proof.
  unfold load_model_policy_bytes. intros (payload & _ & H)%bind_Ok. unfold _registry_from_payload in H.
  destruct payload; try done. apply bind_Ok in H as (? & _ & H). destruct (field_or _ _ _) as [| | | | |raws|]; try done.
  apply bind_Ok in H as (ds & Hds%mapM_result_Ok_Forall2 & H). apply registry_Ok in H as [(Hnd & _) ->].
  exists ds. cbn [_definitions]. split_and!.
  - unfold dict_values. rewrite <- list_fmap_compose. apply list_fmap_id.
  - done.
  - clear -Hds. induction Hds as [|raw d raws ds Hd%loaded_definition _ IH]; by constructor.
Qed.

Lemma Forall2_key {A B C} (f : A → result B) (ka : A → C) (kb : B → C) l k :
  Forall2 (λ a b, f a = Ok b) l k → (∀ a b, f a = Ok b → kb b = ka a) → kb <$> k = ka <$> l.
Proof. intros H Hf. induction H as [|a b l k Hab _ IH]; cbn; [done|]. rewrite IH. f_equal. by apply Hf. Qed.

(** Catalogs that were loaded have what the resolver needs of them, but for
    their lifecycles, which the loader does not look at. *)
Lemma loaded_catalogs raw snapshot text registry classes models :
  load_agent_class_catalog_snapshot_bytes raw = Ok snapshot → load_model_policy_bytes text = Ok registry →
  policies_from_catalogs (cs_classes snapshot) registry = Ok (classes, models) →
  Forall (λ c, NoDup (ap_allowed_lifecycles c)
               ∧ Forall (λ l, lifecycle_rule l = Ok ()) (ap_allowed_lifecycles c)) classes →
  catalog_ok classes models.
Proof.
  intros Hs (ds & Hds & Hnd & Hall)%loaded_registry Hp Hlife.
  unfold load_agent_class_catalog_snapshot_bytes in Hs. apply bind_Ok in Hs as (payload & _ & Hs).
  apply bind_Ok in Hs as (cs & Hcs & [= <-]). cbn [cs_classes] in Hp. unfold _parse_agent_class_catalog in Hcs.
  apply bind_Ok in Hcs as (? & _ & Hcs). destruct (field_or _ _ _) as [| | | | |raws|]; try done.
  apply add_profiles_Ok in Hcs as [Hk Hcs]; [|constructor|constructor].
  unfold policies_from_catalogs in Hp. apply bind_Ok in Hp as (cls & Hc%mapM_result_Ok_Forall2 & Hp).
  apply bind_Ok in Hp as (mds & Hm%mapM_result_Ok_Forall2 & [= -> ->]). rewrite Forall_forall in Hlife.
  assert (ap_class_id <$> classes = cp_class_id <$> dict_values cs) as Eids.
  { eapply Forall2_key; [exact Hc|]. by intros a b [? _]%class_policy_of_Ok. }
  assert (cp_class_id <$> dict_values cs = dict_keys cs) as Ekeys.
  { unfold dict_values, dict_keys. rewrite <- list_fmap_compose. apply Forall_fmap_ext_1.
    eapply Forall_impl; [exact Hcs|]. by intros [k p] [? _]. }
  unfold registry_public in Hm. rewrite Hds in Hm. set (offered_ds := filter offered ds) in Hm.
  assert (List.filter item_offered (definition_public <$> offered_ds)
          = definition_public <$> List.filter (λ d, item_offered (definition_public d)) offered_ds) as Ef.
  { clear. induction offered_ds as [|d l IH]; [done|]. cbn. destruct (item_offered _); cbn; by rewrite IH. }
  rewrite Ef in Hm. apply Forall2_fmap_l in Hm. set (kept := List.filter _ offered_ds) in Hm.
  assert (∀ d, d ∈ kept → d ∈ ds) as Hsub.
  { intros d [Hd%list_elem_of_In _]%list_elem_of_In%filter_In. by apply list_elem_of_filter in Hd as [_ ?]. }
  assert (NoDup (md_model_id <$> kept)) as Hkept.
  { apply NoDup_fmap_2_strong.
    - intros d d' Hd%Hsub Hd'%Hsub. by apply (NoDup_key _ _ _ _ Hnd).
    - apply NoDup_ListNoDup, List.NoDup_filter, NoDup_ListNoDup, NoDup_filter. by eapply NoDup_fmap_1. }
  rewrite Forall_forall in Hall. split.
  - by rewrite Eids, Ekeys.
  - apply Forall_forall. intros c Hin. destruct (Hlife c Hin) as [Hl1 Hl2].
    apply list_elem_of_lookup in Hin as [i Hi]. destruct (Forall2_lookup_r _ _ _ _ _ Hc Hi) as (p & Hi' & Hcp).
    apply class_policy_of_Ok in Hcp as [Eid Hdef]. split_and!; [|done..]. rewrite Eid.
    unfold dict_values in Hi'. apply list_lookup_fmap_Some in Hi' as ([k p'] & -> & Hkp).
    rewrite Forall_forall in Hcs. apply list_elem_of_lookup_2, Hcs in Hkp as [Hkid ?]. cbn in *. congruence.
  - erewrite (Forall2_key _ md_model_id); [exact Hkept|exact Hm|]. by intros d m [? _]%model_policy_of_Ok.
  - apply Forall_forall. intros m Hin. apply list_elem_of_lookup in Hin as [i Hi].
    destruct (Forall2_lookup_r _ _ _ _ _ Hm Hi) as (d & Hd%list_elem_of_lookup_2%Hsub & Hdm).
    apply model_policy_of_Ok in Hdm as (E1 & E2 & Hk'). destruct (Hall d Hd) as [H1 H2].
    split_and!; [by rewrite E1|by rewrite E2|done].
Qed.

(** C9: a decision is always on offer.  Whatever class catalog and model policy
    were loaded, if no class names a lifecycle twice or one the workers do not
    know (which the loader does not check), then a decision for a request whose
    texts have the permitted length, taken from the same catalogs as an offer,
    whatever models are available, passes the check against the offer exactly
    when the offer has 4096 options at most (neither the loader nor the offer's
    builder checks that): its digest exists, the offer is well formed, and
    class, lifecycle, model and effort are one of the options. *)
Theorem loaded_decisions_offered raw snapshot text registry classes models available_models r d offer :
  load_agent_class_catalog_snapshot_bytes raw = Ok snapshot → load_model_policy_bytes text = Ok registry →
  policies_from_catalogs (cs_classes snapshot) registry = Ok (classes, models) →
  Forall (λ c, NoDup (ap_allowed_lifecycles c)
               ∧ Forall (λ l, lifecycle_rule l = Ok ()) (ap_allowed_lifecycles c)) classes →
  request_texts r = true →
  resolve_agent_selection r classes models available_models = Ok d →
  build_selection_offer classes models available_models = Ok offer →
  validate_resolution_decision_offer d offer = Ok () ↔ (length (so_options offer) <= _MAX_SELECTION_OPTIONS)%nat.
Proof.
  intros H1 H2 H3 H4 Hr Hd Ho. split.
  - unfold validate_resolution_decision_offer. cbv zeta. intros H.
    do 3 (apply bind_Ok in H as (? & _ & H)). by apply bind_Ok in H as (? & Hl%require_Ok%bool_decide_eq_true & _).
  - intros Hl. revert Hr Hl Hd Ho. apply resolution_offered. by eapply loaded_catalogs.
Qed.

(** C10: a resolution keeps to its catalogs and owns up to what it changes.  Over
    catalogs whose entries are told apart, a decision names a class of the
    catalog with a lifecycle the class allows, and a model that is neither
    retired nor unavailable, that the class allows, has every capability
    required and supports the effort within the limits of the class; a
    leadership class only if it was asked for by name; and a decision without
    the fallback mark gives every value that was requested, while one with the
    mark fails to give some, when both a model and an effort were requested. *)
Theorem resolution_faithful r classes models available_models d :
  catalog_ok classes models →
  resolve_agent_selection r classes models available_models = Ok d →
  (∃ c m, c ∈ classes ∧ m ∈ models ∧ dn_class_id d = ap_class_id c ∧ dn_model d = mp_model_id m
     ∧ retired m = false ∧ suitable r c available_models m = true
     ∧ dn_lifecycle d ∈ ap_allowed_lifecycles c
     ∧ dn_reasoning d ∈ _allowed_reasoning_levels m c (dn_lifecycle d))
  ∧ (dn_class_id d ∈ LEADERSHIP_CLASS_IDS → rq_requested_class r = Some (dn_class_id d))
  ∧ (dn_fallback d = false → honoured r d = true)
  ∧ (is_Some (rq_requested_model r) → is_Some (rq_requested_reasoning r) →
       dn_fallback d = negb (honoured r d)).
Proof.
  intros Hok H. destruct (resolution_parts _ _ _ _ _ Hok H)
    as (c & m & Hc & Hm & Hr & Hs & [= Ec Em] & Hl & Hlevel & Hlead & rm & re & Hf & Hfm & Hfe).
  unfold honoured. rewrite Ec, Em. split_and!; [by exists c, m|done| |].
  - rewrite Hf. intros [H1 [H2 [H3 H4]%orb_false_iff]%orb_false_iff]%orb_false_iff.
    apply negb_false_iff in H1, H2. rewrite H1, H2. cbn [andb].
    destruct (rq_requested_model r) as [x|]; cbn [honours].
    + rewrite (Hfm x) in H3 by done. apply negb_false_iff in H3. rewrite H3. cbn [andb].
      destruct (rq_requested_reasoning r) as [y|]; [|done]. cbn. rewrite (Hfe y) in H4 by done.
      by apply negb_false_iff.
    + destruct (rq_requested_reasoning r) as [y|]; [|done]. cbn. rewrite (Hfe y) in H4 by done.
      by apply negb_false_iff.
  - intros [x Hx] [y Hy]. rewrite Hf, (Hfm x Hx), (Hfe y Hy), Hx, Hy. cbn [honours].
    by rewrite !negb_andb, !orb_assoc.
Qed.

(** ** Samples *)

Definition ok_or {A} (d : A) (r : result A) : A := match r with Ok a => a | Err _ => d end.

Definition sample_class_text : string :=
  quoted ("{'schema_version':1,'classes':[{'class_id':'arbeitsbiene','role_kind':'worker','worker_kind':'pooled',"
  +:+ ("'scope_kind':'write','authority_profile':'worker','identity_lifetime':'lease','memory_lifetime':'none',"
  +:+ ("'home_policy':'pooled','session_policy':'lease','write_mode':'scoped','capabilities':[],"
  +:+ "'delegation_targets':[],'max_delegation_depth':0,'allowed_lifecycles':['ephemeral','binding']}]}"))).

Definition sample_model_text : string :=
  quoted ("{'schema_version':1,'models':[{'model_id':'gpt-5.6-luna','role':'primary','provider':'openai',"
  +:+ "'budget_key':'luna','family':'luna','rank':20,'reasoning_levels':['low','high'],'default_reasoning':'low'}]}").

Definition sample_snapshot : AgentClassCatalogSnapshot :=
  ok_or {| cs_classes := []; cs_digest := "" |} (load_agent_class_catalog_snapshot_bytes sample_class_text).
Definition sample_registry : ModelPolicyRegistry :=
  ok_or {| _definitions := []; _aliases := [] |} (load_model_policy_bytes (Ok sample_model_text)).

Definition sample_class_policy : AgentClassPolicy :=
  {| ap_class_id := "arbeitsbiene"; ap_default_lifecycle := "ephemeral";
     ap_allowed_lifecycles := ["ephemeral"; "binding"]; ap_allowed_families := ["luna"];
     ap_min_reasoning := "low"; ap_max_reasoning := "xhigh"; ap_supported_scopes := ["read"; "write"];
     ap_allowed_model_ids := [] |}.
Definition sample_model_policy : ModelPolicy :=
  {| mp_model_id := "gpt-5.6-luna"; mp_family := "luna"; mp_rank := 20; mp_reasoning_levels := ["low"; "high"];
     mp_capabilities := [] |}.

Definition sample_request : ResolutionRequest :=
  {| rq_scope_kind := "write"; rq_complexity := "simple"; rq_requested_class := None;
     rq_requested_lifecycle := Some "invocation"; rq_requested_model := Some "gpt-5.6-luna";
     rq_requested_reasoning := Some "high"; rq_required_capabilities := []; rq_spark_eligible := false |}.

Definition sample_decision : ResolutionDecision :=
  {| dn_class_id := "arbeitsbiene"; dn_lifecycle := "ephemeral"; dn_model := "gpt-5.6-luna";
     dn_reasoning := "high"; dn_reason_codes := ["class_auto_selected"; "lifecycle_alias_normalized"];
     dn_fallback := false; dn_requested_class := None; dn_requested_lifecycle := Some "invocation";
     dn_requested_model := Some "gpt-5.6-luna"; dn_requested_reasoning := Some "high" |}.

Definition sample_offer : SelectionOffer :=
  ok_or {| so_generation := ""; so_classes := []; so_lifecycles := []; so_models := [];
           so_reasoning_levels := []; so_options := [] |}
    (build_selection_offer [sample_class_policy] [sample_model_policy] ["gpt-5.6-luna"]).

(** Asked for nothing, the resolver reports that a requested effort was outside
    the limits when the default effort of the lifecycle is. *)
Example default_effort_reported_as_request :
  (λ d, (dn_requested_reasoning d, dn_reason_codes d, dn_fallback d)) <$>
    resolve_agent_selection
      {| rq_scope_kind := "write"; rq_complexity := "simple"; rq_requested_class := None;
         rq_requested_lifecycle := None; rq_requested_model := None; rq_requested_reasoning := None;
         rq_required_capabilities := []; rq_spark_eligible := false |}
      [sample_class_policy] [sample_model_policy] ["gpt-5.6-luna"]
  = Ok (None, ["class_auto_selected"; "lifecycle_defaulted"; "model_defaulted"; "reasoning_defaulted";
               "requested_reasoning_outside_limits"], true).
Proof. vm_compute. reflexivity. Qed.

Lemma loaded_decisions_offered_witness :
  resolve_agent_selection sample_request [sample_class_policy] [sample_model_policy] ["gpt-5.6-luna"]
  = Ok sample_decision
  ∧ validate_resolution_decision_offer sample_decision sample_offer = Ok ().
Proof.
  assert (resolve_agent_selection sample_request [sample_class_policy] [sample_model_policy] ["gpt-5.6-luna"]
          = Ok sample_decision) as Hd by (vm_compute; reflexivity).
  split; [exact Hd|].
  apply (loaded_decisions_offered sample_class_text sample_snapshot (Ok sample_model_text) sample_registry
           [sample_class_policy] [sample_model_policy] ["gpt-5.6-luna"] sample_request sample_decision sample_offer).
  - vm_compute. reflexivity.
  - vm_compute. reflexivity.
  - vm_compute. reflexivity.
  - constructor; [|constructor]. split; [apply (bool_decide_unpack _); vm_compute; exact I|].
    repeat constructor; vm_compute; reflexivity.
  - vm_compute. reflexivity.
  - exact Hd.
  - vm_compute. reflexivity.
  - apply Nat.leb_le. vm_compute. reflexivity.
Defined.

Lemma resolution_faithful_witness :
  resolve_agent_selection sample_request [sample_class_policy] [sample_model_policy] ["gpt-5.6-luna"]
  = Ok sample_decision ∧ (dn_fallback sample_decision = false → honoured sample_request sample_decision = true).
Proof.
  assert (resolve_agent_selection sample_request [sample_class_policy] [sample_model_policy] ["gpt-5.6-luna"]
          = Ok sample_decision) as Hd by (vm_compute; reflexivity).
  split; [exact Hd|].
  apply (resolution_faithful sample_request [sample_class_policy] [sample_model_policy] ["gpt-5.6-luna"]
           sample_decision); [|exact Hd].
  split; [apply NoDup_singleton| |apply NoDup_singleton|]; (constructor; [|constructor]).
  - split; [vm_compute; reflexivity|]. split; [left|].
    split; [apply (bool_decide_unpack _); vm_compute; exact I|]. repeat constructor; vm_compute; reflexivity.
  - split; [vm_compute; reflexivity|]. split; [apply (bool_decide_unpack _); vm_compute; exact I|].
    repeat constructor; vm_compute; reflexivity.
Defined.
