(* ===== verification/AccountAllocator.v ===== *)
(** * The runtime account allocator

    [src/src/the_hive/runtime_account_allocator.py]: credential leases over the
    reservations of an injected provider, their receipts and verifications, and
    the release of reservations that failed or were revoked.  Objects the code
    compares with [is] are references, an address and what it points to.  The
    fields that come from a caller or the provider hold any value until they
    are checked.  The provider, the clock and the source of tokens act on the
    allocator's state and the world behind it, so that the calls of other
    threads between two locked regions are among their effects. *)

From stdpp Require Import pretty.
From S2P Require Import Prelude PyTime Order DynamicPool Json JsonText StrictJson PyEq Sha256 ModelPolicy AgentResolver.
#[local] Open Scope Z_scope.

(** ** Values *)

Record ref (A : Type) := Ref { address : Z; content : A }.
Arguments Ref {A}. Arguments address {A}. Arguments content {A}.

(** [a is b]. *)
Definition is_same {A} (a b : ref A) : bool := address a =? address b.

(** A field annotated [datetime]; [None] is a value of another type. *)
Definition moment : Type := option datetime.

Definition aware (m : moment) : bool := match m with Some d => dt_aware d | None => false end.

(** [a == b] for two moments: an aware and a naive one differ. *)
Definition moment_eq (a b : moment) : bool :=
  match a, b with
  | Some a, Some b => Bool.eqb (dt_aware a) (dt_aware b) && (dt_utc a =? dt_utc b)
  | _, _ => false
  end.

(** [type(value) is _OpaqueText and bool(value)]: every text field is made
    opaque by the constructor. *)
Definition opaque (v : pyval) : bool := match v with VStr s => negb (bool_decide (s = "")) | _ => false end.
(** [type(value) is int and value > 0]. *)
Definition positive (v : pyval) : bool := match v with VInt z => 0 <? z | _ => false end.
Definition int_of (v : pyval) : Z := match v with VInt z => z | _ => 0 end.
Definition text_of (v : pyval) : string := match v with VStr s => s | _ => "" end.

Record ValidatedAllocationTicket := {
  vt_ticket_id : pyval;
  vt_resolution_decision : ResolutionDecision;
  vt_selection_offer : SelectionOffer;
  vt_resolver_offer_generation : pyval;
  vt_policy_generation : pyval;
  vt_policy_digest : pyval;
  vt_capability_binding_digest : pyval;
  vt_ledger_revision : pyval;
  vt_phase : pyval;
  vt_fencing_token : pyval;
  vt_fence_epoch : pyval;
}.

Record CapacityEvidence := {
  ce_ticket_id : pyval;
  ce_resolver_offer_generation : pyval;
  ce_policy_generation : pyval;
  ce_capability_binding_digest : pyval;
  ce_ledger_revision : pyval;
  ce_fencing_token : pyval;
  ce_fence_epoch : pyval;
  ce_provider_adapter_id : pyval;
  ce_capacity_units : pyval;
  ce_quota_units : pyval;
  ce_cost_units : pyval;
  ce_resource_units : pyval;
  ce_evidence_revision : pyval;
  ce_observed_at_utc : moment;
  ce_expires_at_utc : moment;
}.

Record TransactionEvidence := {
  te_ticket_id : pyval;
  te_lease_id : pyval;
  te_lease_revision : pyval;
  te_ledger_revision : pyval;
  te_capability_binding_digest : pyval;
  te_account_binding_digest : pyval;
  te_profile_binding_digest : pyval;
  te_provider_adapter_id : pyval;
  te_fencing_token : pyval;
  te_phase : pyval;
}.

Record AccountReservation := {
  ar_reservation_id : pyval;
  ar_account_binding_digest : pyval;
  ar_profile_binding_digest : pyval;
  ar_provider_adapter_id : pyval;
  ar_capacity_evidence : option (ref CapacityEvidence);
  ar_lease_revision : pyval;
  ar_evidence_revision : pyval;
  ar_fencing_token : pyval;
  ar_fence_epoch : pyval;
  ar_expires_at_utc : moment;
}.

Record CredentialLease := {
  cl_lease_id : pyval;
  cl_account_binding_digest : pyval;
  cl_profile_binding_digest : pyval;
  cl_provider_adapter_id : pyval;
  cl_lease_revision : pyval;
  cl_expires_at_utc : moment;
}.

Inductive LeaseState := LEASE_RESERVED | LEASE_RELEASE_PENDING | LEASE_REVOKED.
#[export] Instance LeaseState_eq_dec : EqDecision LeaseState.
Proof. solve_decision. Defined.

Record LeaseBindingReceiptV1 := { lb_digest : string }.
Record LeaseBindingReferenceV1 := { lr_digest : string }.
#[export] Instance LeaseBindingReferenceV1_eq_dec : EqDecision LeaseBindingReferenceV1.
Proof. solve_decision. Defined.

(** A verification is its identity. *)
Definition LeaseBindingVerificationV1 : Type := ref ().

Record LeaseRecord := {
  lc_lease : ref CredentialLease;
  lc_reservation : ref AccountReservation;
  lc_ticket : ref ValidatedAllocationTicket;
  lc_capacity_evidence : ref CapacityEvidence;
  lc_adapter_id : pyval;
  lc_account_binding_digest : pyval;
  lc_profile_binding_digest : pyval;
  lc_ticket_id : pyval;
  lc_resolution_decision_digest : string;
  lc_resolver_offer_generation : pyval;
  lc_policy_generation : pyval;
  lc_policy_digest : pyval;
  lc_ledger_revision : pyval;
  lc_capability_binding_digest : pyval;
  lc_fencing_token : pyval;
  lc_fence_epoch : pyval;
  lc_ticket_phase : pyval;
  lc_phase : string;
  lc_capacity_units : pyval;
  lc_quota_units : pyval;
  lc_cost_units : pyval;
  lc_resource_units : pyval;
  lc_evidence_revision : pyval;
  lc_evidence_observed_at_utc : string;
  lc_evidence_expires_at_utc : string;
  lc_reservation_id : pyval;
  lc_lease_id : string;
  lc_lease_revision : pyval;
  lc_lease_expires_at_utc : string;
  lc_reservation_key : string;
  lc_state : LeaseState;
  lc_pending_release_id : option string;
  lc_receipt : option (ref LeaseBindingReceiptV1);
}.

Record LeaseBindingVerificationRecord := {
  vr_verification : LeaseBindingVerificationV1;
  vr_lease_record : ref LeaseRecord;
  vr_receipt : ref LeaseBindingReceiptV1;
  vr_lease : ref CredentialLease;
  vr_ticket : ref ValidatedAllocationTicket;
  vr_capacity_evidence : ref CapacityEvidence;
  vr_binding_reference : LeaseBindingReferenceV1;
}.

Record PendingRelease := {
  pr_pending_release_id : string;
  pr_reservation_key : string;
  pr_reservation : ref AccountReservation;
  pr_active_account_key : option string;
  pr_active_key : option string;
  pr_fencing_token : pyval;
  pr_lease_id : option string;
}.

Record ReservationOwner := {
  ro_reservation_key : string;
  ro_owner_id : string;
  ro_reservation : ref AccountReservation;
  ro_fencing_token : pyval;
  ro_phase : LeaseState;
  ro_lease_id : option string;
}.

(** The attributes of the allocator, and the next address a new object gets.
    The verifications are keyed by their identity. *)
Record AllocatorState := {
  _active_by_account : list (string * list (string * (Z * Z)));
  _active_lease_binding_verifications : list (Z * ref LeaseBindingVerificationRecord);
  _deferred_lease_binding_revokes : list (string * ref LeaseRecord);
  _latest_by_account : list (string * (Z * Z));
  _pending_releases : list (string * ref PendingRelease);
  _records : list (string * ref LeaseRecord);
  _reservation_owners : list (string * ReservationOwner);
  _next_address : Z;
}.

Definition empty_allocator : AllocatorState :=
  {| _active_by_account := []; _active_lease_binding_verifications := [];
     _deferred_lease_binding_revokes := []; _latest_by_account := []; _pending_releases := [];
     _records := []; _reservation_owners := []; _next_address := 0 |}.

Definition allocation_denied : exn := AllocationDenied "runtime account allocation denied".

(** ** Checks *)

(** [normalized.strftime("%Y-%m-%dT%H:%M:%S.%fZ")], for years of four digits. *)
Definition strftime_utc (d : datetime) : string :=
  let us := dt_local d mod US_PER_DAY in
  let '(y, m, day) := civil_of_days (dt_local d / US_PER_DAY) in
  digits 4 y +:+ ("-" +:+ (digits 2 m +:+ ("-" +:+ (digits 2 day +:+ ("T"
  +:+ (digits 2 (us / US_PER_HOUR) +:+ (":" +:+ (digits 2 ((us / US_PER_MINUTE) mod 60) +:+ (":"
  +:+ (digits 2 ((us / US_PER_SECOND) mod 60) +:+ ("." +:+ (digits 6 (us mod US_PER_SECOND) +:+ "Z")))))))))))).

Definition _canonical_utc (m : moment) : result string :=
  match m with
  | Some d => if dt_aware d then utc ← dt_astimezone_utc d; Ok (strftime_utc utc)
              else Err (ValueError "invalid_lease_expiry")
  | None => Err (ValueError "invalid_lease_expiry")
  end.

Definition nonempty (s : string) : bool := negb (bool_decide (s = "")).

Definition _central_resolution_offer_invariant (t : ValidatedAllocationTicket) : bool :=
  let d := vt_resolution_decision t in
  let o := vt_selection_offer t in
  forallb nonempty [dn_class_id d; dn_lifecycle d; dn_model d; dn_reasoning d]
  && forallb nonempty (dn_reason_codes d)
  && forallb (λ v, match v with None => true | Some s => nonempty s end)
       [dn_requested_class d; dn_requested_lifecycle d; dn_requested_model d; dn_requested_reasoning d]
  && forallb (λ o, forallb nonempty [so_class_id o; so_lifecycle o; so_model o; so_reasoning o]) (so_options o)
  && bool_decide (so_generation o = options_digest (so_options o))
  && py_eq_str (vt_resolver_offer_generation t) (options_digest (so_options o))
  && bool_decide (offer_lists o = public_lists (so_options o))
  && bool_decide (decision_option d ∈ so_options o).

(** The values of a ticket and its evidence that must be positive integers,
    and the texts that must not be empty. *)
Definition allocation_integers (t : ValidatedAllocationTicket) (e : CapacityEvidence) : list pyval :=
  [ vt_policy_generation t; vt_fence_epoch t; vt_ledger_revision t; ce_policy_generation e; ce_fence_epoch e;
    ce_ledger_revision e; ce_capacity_units e; ce_quota_units e; ce_cost_units e; ce_resource_units e;
    ce_evidence_revision e ].

Definition allocation_texts (t : ValidatedAllocationTicket) (e : CapacityEvidence) : list pyval :=
  [ vt_ticket_id t; vt_resolver_offer_generation t; vt_policy_digest t; vt_capability_binding_digest t;
    vt_phase t; vt_fencing_token t; ce_ticket_id e; ce_resolver_offer_generation e;
    ce_capability_binding_digest e; ce_fencing_token e; ce_provider_adapter_id e ].

(** The two tuples compared at the end. *)
Definition evidence_of_ticket (t : ValidatedAllocationTicket) (e : CapacityEvidence) : bool :=
  py_eq (ce_ticket_id e) (vt_ticket_id t)
  && py_eq (ce_resolver_offer_generation e) (vt_resolver_offer_generation t)
  && py_eq (ce_policy_generation e) (vt_policy_generation t)
  && py_eq (ce_fence_epoch e) (vt_fence_epoch t)
  && py_eq (ce_capability_binding_digest e) (vt_capability_binding_digest t)
  && py_eq (ce_ledger_revision e) (vt_ledger_revision t)
  && py_eq (ce_fencing_token e) (vt_fencing_token t).

(** The checks before the clock is read, and the one with its reading. *)
Definition allocation_bound (t : ValidatedAllocationTicket) (e : CapacityEvidence) : bool :=
  _central_resolution_offer_invariant t && py_eq_str (vt_phase t) "OFFER_VALIDATED"
  && forallb positive (allocation_integers t e) && forallb opaque (allocation_texts t e)
  && aware (ce_observed_at_utc e) && aware (ce_expires_at_utc e).

Definition fresh_at (now : datetime) (e : CapacityEvidence) : bool :=
  match ce_observed_at_utc e, ce_expires_at_utc e with
  | Some observed, Some expires => dt_leb observed now && dt_leb now expires
  | _, _ => false
  end.

Definition _transaction_evidence_is_valid (e : TransactionEvidence) : bool :=
  positive (te_lease_revision e) && positive (te_ledger_revision e)
  && forallb opaque [te_ticket_id e; te_lease_id e; te_capability_binding_digest e; te_account_binding_digest e;
                     te_profile_binding_digest e; te_provider_adapter_id e; te_fencing_token e; te_phase e].

Definition _lease_is_well_formed (l : CredentialLease) : bool :=
  forallb opaque [cl_lease_id l; cl_account_binding_digest l; cl_profile_binding_digest l; cl_provider_adapter_id l]
  && positive (cl_lease_revision l) && aware (cl_expires_at_utc l).

Definition _reservation_is_well_formed (r : AccountReservation) : bool :=
  forallb opaque [ar_reservation_id r; ar_account_binding_digest r; ar_profile_binding_digest r;
                  ar_provider_adapter_id r; ar_fencing_token r]
  && bool_decide (is_Some (ar_capacity_evidence r)) && positive (ar_lease_revision r)
  && positive (ar_evidence_revision r) && positive (ar_fence_epoch r) && aware (ar_expires_at_utc r).

Definition _reservation_matches_evidence (r : AccountReservation) (e : ref CapacityEvidence) : bool :=
  _reservation_is_well_formed r
  && match ar_capacity_evidence r with Some e' => is_same e' e | None => false end
  && py_eq (ar_provider_adapter_id r) (ce_provider_adapter_id (content e))
  && py_eq (ar_evidence_revision r) (ce_evidence_revision (content e))
  && py_eq (ar_fencing_token r) (ce_fencing_token (content e))
  && py_eq (ar_fence_epoch r) (ce_fence_epoch (content e))
  && moment_eq (ar_expires_at_utc r) (ce_expires_at_utc (content e)).

(** The key of a reservation; one without a readable identifier is known by
    its own identity. *)
Definition _reservation_key (r : ref AccountReservation) : string :=
  "sha256:" +:+ sha256_hex (match ar_reservation_id (content r) with
                            | VStr s => if nonempty s then s else "reply-object:" +:+ pretty (address r)
                            | _ => "reply-object:" +:+ pretty (address r)
                            end).

Definition _reservation_owner_invariant (owner : option ReservationOwner) (reservation_key owner_id : string)
  (reservation : ref AccountReservation) (fencing_token : pyval) (phase : LeaseState)
  (lease_id : option string) : bool :=
  match owner with
  | None => false
  | Some o =>
      bool_decide (ro_reservation_key o = reservation_key) && bool_decide (ro_owner_id o = owner_id)
      && is_same (ro_reservation o) reservation && py_eq (ro_fencing_token o) fencing_token
      && bool_decide (ro_phase o = phase) && bool_decide (ro_lease_id o = lease_id)
  end.

Definition lease_binding_document (r : LeaseRecord) : pyval :=
  VDict [ ("adapter_id", lc_adapter_id r); ("account_binding_digest", lc_account_binding_digest r);
          ("binding_schema", VStr "codex-master/lease-binding/v1");
          ("capability_binding_digest", lc_capability_binding_digest r);
          ("capacity_evidence_revision", lc_evidence_revision r); ("fence_epoch", lc_fence_epoch r);
          ("fencing_token", lc_fencing_token r); ("lease_expires_at_utc", VStr (lc_lease_expires_at_utc r));
          ("lease_id", VStr (lc_lease_id r)); ("lease_revision", lc_lease_revision r);
          ("ledger_revision", lc_ledger_revision r); ("policy_digest", lc_policy_digest r);
          ("policy_generation", lc_policy_generation r);
          ("profile_binding_digest", lc_profile_binding_digest r); ("reservation_id", lc_reservation_id r);
          ("resolution_decision_digest", VStr (lc_resolution_decision_digest r));
          ("resolver_offer_generation", lc_resolver_offer_generation r); ("ticket_id", lc_ticket_id r) ].

Definition _lease_binding_canonical_json (r : LeaseRecord) : string := json_dumps (lease_binding_document r).

Definition lease_binding_digest (r : LeaseRecord) : string :=
  "sha256:" +:+ sha256_hex (_lease_binding_canonical_json r).

Definition _is_binding_digest (s : string) : bool :=
  (py_len s =? 71) && startswith "sha256:" s && string_forallb is_hex_lower (String.substring 7 64 s).

Definition _lease_binding_reference_from_document (v : pyval) : result LeaseBindingReferenceV1 :=
  match v with
  | VStr s => if _is_binding_digest s then Ok {| lr_digest := s |} else Err allocation_denied
  | _ => Err allocation_denied
  end.

Definition _lease_binding_reference_to_document (r : LeaseBindingReferenceV1) : result string :=
  if _is_binding_digest (lr_digest r) then Ok (lr_digest r) else Err allocation_denied.

Definition _lease_binding_reference_for_record (r : LeaseRecord) : result LeaseBindingReferenceV1 :=
  _lease_binding_reference_from_document (VStr (lease_binding_digest r)).

(** ** State *)

(** What the allocator is given: the provider's three members, the clock and
    [secrets.token_urlsafe(18)], over the allocator's state and a world. *)
Record AllocatorOperations (W : Type) := {
  adapter_id : ST (AllocatorState * W) pyval;
  reserve_capability_atomically :
    pyval → ref CapacityEvidence → ST (AllocatorState * W) (option (ref AccountReservation));
  release_reservation : ref AccountReservation → ST (AllocatorState * W) pyval;
  datetime_now : W → W * datetime;
  token_urlsafe : W → W * string;
}.
Arguments adapter_id {W}. Arguments reserve_capability_atomically {W}. Arguments release_reservation {W}.
Arguments datetime_now {W}. Arguments token_urlsafe {W}.

Definition with_active x (s : AllocatorState) : AllocatorState :=
  {| _active_by_account := x; _active_lease_binding_verifications := _active_lease_binding_verifications s;
     _deferred_lease_binding_revokes := _deferred_lease_binding_revokes s;
     _latest_by_account := _latest_by_account s; _pending_releases := _pending_releases s;
     _records := _records s; _reservation_owners := _reservation_owners s; _next_address := _next_address s |}.
Definition with_verifications x (s : AllocatorState) : AllocatorState :=
  {| _active_by_account := _active_by_account s; _active_lease_binding_verifications := x;
     _deferred_lease_binding_revokes := _deferred_lease_binding_revokes s;
     _latest_by_account := _latest_by_account s; _pending_releases := _pending_releases s;
     _records := _records s; _reservation_owners := _reservation_owners s; _next_address := _next_address s |}.
Definition with_deferred x (s : AllocatorState) : AllocatorState :=
  {| _active_by_account := _active_by_account s;
     _active_lease_binding_verifications := _active_lease_binding_verifications s;
     _deferred_lease_binding_revokes := x;
     _latest_by_account := _latest_by_account s; _pending_releases := _pending_releases s;
     _records := _records s; _reservation_owners := _reservation_owners s; _next_address := _next_address s |}.
Definition with_latest x (s : AllocatorState) : AllocatorState :=
  {| _active_by_account := _active_by_account s;
     _active_lease_binding_verifications := _active_lease_binding_verifications s;
     _deferred_lease_binding_revokes := _deferred_lease_binding_revokes s;
     _latest_by_account := x; _pending_releases := _pending_releases s;
     _records := _records s; _reservation_owners := _reservation_owners s; _next_address := _next_address s |}.
Definition with_pending x (s : AllocatorState) : AllocatorState :=
  {| _active_by_account := _active_by_account s;
     _active_lease_binding_verifications := _active_lease_binding_verifications s;
     _deferred_lease_binding_revokes := _deferred_lease_binding_revokes s;
     _latest_by_account := _latest_by_account s; _pending_releases := x;
     _records := _records s; _reservation_owners := _reservation_owners s; _next_address := _next_address s |}.
Definition with_records x (s : AllocatorState) : AllocatorState :=
  {| _active_by_account := _active_by_account s;
     _active_lease_binding_verifications := _active_lease_binding_verifications s;
     _deferred_lease_binding_revokes := _deferred_lease_binding_revokes s;
     _latest_by_account := _latest_by_account s; _pending_releases := _pending_releases s;
     _records := x; _reservation_owners := _reservation_owners s; _next_address := _next_address s |}.
Definition with_owners x (s : AllocatorState) : AllocatorState :=
  {| _active_by_account := _active_by_account s;
     _active_lease_binding_verifications := _active_lease_binding_verifications s;
     _deferred_lease_binding_revokes := _deferred_lease_binding_revokes s;
     _latest_by_account := _latest_by_account s; _pending_releases := _pending_releases s;
     _records := _records s; _reservation_owners := x; _next_address := _next_address s |}.
Definition with_next x (s : AllocatorState) : AllocatorState :=
  {| _active_by_account := _active_by_account s;
     _active_lease_binding_verifications := _active_lease_binding_verifications s;
     _deferred_lease_binding_revokes := _deferred_lease_binding_revokes s;
     _latest_by_account := _latest_by_account s; _pending_releases := _pending_releases s;
     _records := _records s; _reservation_owners := _reservation_owners s; _next_address := x |}.

Section operations.
Context {W : Type} (operations : AllocatorOperations W).
#[local] Notation M := (ST (AllocatorState * W)).

Definition state : M AllocatorState := λ s, (s, Ok s.1).
Definition update (f : AllocatorState → AllocatorState) : M () := λ s, ((f s.1, s.2), Ok ()).
Definition now : M datetime := λ s, let (w, d) := datetime_now operations s.2 in ((s.1, w), Ok d).
Definition token : M string := λ s, let (w, t) := token_urlsafe operations s.2 in ((s.1, w), Ok t).
Definition denied {A} : M A := st_lift (Err allocation_denied).
Definition guarded (b : bool) : M () := st_lift (require b allocation_denied).

(** A new object. *)
Definition new {A} (a : A) : M (ref A) := λ s,
  ((with_next (_next_address s.1 + 1) s.1, s.2), Ok (Ref (_next_address s.1) a)).

(** [try: ... except Exception: raise AllocationDenied]. *)
Definition or_denied {A} (m : M A) : M A := st_catch m (λ _, denied).

(** [datetime.now(UTC)] is read only when everything before holds. *)
Definition _allocation_binding_invariant (t : ValidatedAllocationTicket) (e : CapacityEvidence) : M bool :=
  if allocation_bound t e
  then d ← now; mret (fresh_at d e && evidence_of_ticket t e)
  else mret false.

Definition owner_of (key : string) (s : AllocatorState) : option ReservationOwner :=
  dict_get key (_reservation_owners s).

Definition _queue_new_pending_release_locked (r : ref AccountReservation) (key : string) (fencing_token : pyval)
  : M string :=
  pending_release_id ← token;
  let well_formed := _reservation_is_well_formed (content r) in
  let account := text_of (ar_account_binding_digest (content r)) in
  pending ← new {| pr_pending_release_id := pending_release_id; pr_reservation_key := key;
                   pr_reservation := r; pr_active_account_key := if well_formed then Some account else None;
                   pr_active_key := if well_formed then Some pending_release_id else None;
                   pr_fencing_token := fencing_token; pr_lease_id := None |};
  _ ← update (λ s, with_pending (dict_set pending_release_id pending (_pending_releases s)) s);
  _ ← update (λ s, with_owners
        (dict_set key {| ro_reservation_key := key; ro_owner_id := pending_release_id; ro_reservation := r;
                         ro_fencing_token := fencing_token; ro_phase := LEASE_RELEASE_PENDING;
                         ro_lease_id := None |} (_reservation_owners s)) s);
  _ ← (if well_formed
       then update (λ s, with_active
              (dict_set account
                 (dict_set pending_release_id
                    (int_of (ar_evidence_revision (content r)), int_of (ar_lease_revision (content r)))
                    (default [] (dict_get account (_active_by_account s)))) (_active_by_account s)) s)
       else mret ());
  mret pending_release_id.

(** The revisions of the account's last lease, and the units that bound its
    leases. *)
Definition superseded (latest : option (Z * Z)) (e : CapacityEvidence) (r : AccountReservation) : bool :=
  match latest with
  | None => false
  | Some (evidence, lease) =>
      (int_of (ce_evidence_revision e) <=? evidence) || (int_of (ar_lease_revision r) <=? lease)
  end.

Definition units (e : CapacityEvidence) : Z :=
  Z.min (Z.min (Z.min (int_of (ce_capacity_units e)) (int_of (ce_quota_units e))) (int_of (ce_cost_units e)))
    (int_of (ce_resource_units e)).

Definition exhausted {A} (active : list A) (e : CapacityEvidence) : bool :=
  negb (bool_decide (length active = 0%nat)) && (units e <=? Z.of_nat (length active)).

(** The texts of a record that have to be made before it is stored. *)
Definition record_texts (t : ValidatedAllocationTicket) (e : CapacityEvidence) (l : CredentialLease)
  : result (string * string * string * string) :=
  decision ← canonical_resolution_decision_digest (vt_resolution_decision t);
  expires ← _canonical_utc (cl_expires_at_utc l);
  evidence_observed ← _canonical_utc (ce_observed_at_utc e);
  evidence_expires ← _canonical_utc (ce_expires_at_utc e);
  Ok (decision, expires, evidence_observed, evidence_expires).

Definition lease_record (t : ref ValidatedAllocationTicket) (e : ref CapacityEvidence) (adapter : pyval)
  (r : ref AccountReservation) (key lease_id : string) (lease : ref CredentialLease)
  (texts : string * string * string * string) : LeaseRecord :=
  let '(decision, expires, evidence_observed, evidence_expires) := texts in
  {| lc_lease := lease; lc_reservation := r; lc_ticket := t; lc_capacity_evidence := e; lc_adapter_id := adapter;
     lc_account_binding_digest := cl_account_binding_digest (content lease);
     lc_profile_binding_digest := cl_profile_binding_digest (content lease);
     lc_ticket_id := vt_ticket_id (content t); lc_resolution_decision_digest := decision;
     lc_resolver_offer_generation := vt_resolver_offer_generation (content t);
     lc_policy_generation := vt_policy_generation (content t); lc_policy_digest := vt_policy_digest (content t);
     lc_ledger_revision := vt_ledger_revision (content t);
     lc_capability_binding_digest := vt_capability_binding_digest (content t);
     lc_fencing_token := vt_fencing_token (content t); lc_fence_epoch := vt_fence_epoch (content t);
     lc_ticket_phase := vt_phase (content t); lc_phase := "LEASE_RESERVED";
     lc_capacity_units := ce_capacity_units (content e); lc_quota_units := ce_quota_units (content e);
     lc_cost_units := ce_cost_units (content e); lc_resource_units := ce_resource_units (content e);
     lc_evidence_revision := ce_evidence_revision (content e);
     lc_evidence_observed_at_utc := evidence_observed; lc_evidence_expires_at_utc := evidence_expires;
     lc_reservation_id := ar_reservation_id (content r); lc_lease_id := lease_id;
     lc_lease_revision := cl_lease_revision (content lease); lc_lease_expires_at_utc := expires;
     lc_reservation_key := key; lc_state := LEASE_RESERVED; lc_pending_release_id := None; lc_receipt := None |}.

(** The entries a new lease makes. *)
Definition store_lease (record : ref LeaseRecord) (key account : string) (fencing_token : pyval)
  (revisions : Z * Z) (s : AllocatorState) : AllocatorState :=
  let lease_id := lc_lease_id (content record) in
  with_latest (dict_set account revisions (_latest_by_account s))
  (with_active (dict_set account (dict_set lease_id revisions (default [] (dict_get account (_active_by_account s))))
                  (_active_by_account s))
  (with_owners (dict_set key {| ro_reservation_key := key; ro_owner_id := lease_id;
                                ro_reservation := lc_reservation (content record);
                                ro_fencing_token := fencing_token; ro_phase := LEASE_RESERVED;
                                ro_lease_id := Some lease_id |} (_reservation_owners s))
  (with_records (dict_set lease_id record (_records s)) s))).

Definition _bind_reservation_locked (t : ref ValidatedAllocationTicket) (e : ref CapacityEvidence) (adapter : pyval)
  (reservation : option (ref AccountReservation)) : M (option (ref CredentialLease) * option string) :=
  match reservation with
  | None => mret (None, None)
  | Some r =>
      let key := _reservation_key r in
      let queue : M (option (ref CredentialLease) * option string) :=
        id ← _queue_new_pending_release_locked r key (vt_fencing_token (content t)); mret (None, Some id) in
      s ← state;
      if bool_decide (is_Some (owner_of key s)) then mret (None, None)
      else
        bound ← _allocation_binding_invariant (content t) (content e);
        if negb (bound && py_eq adapter (ce_provider_adapter_id (content e))
                 && _reservation_matches_evidence (content r) e) then queue
        else
          let account := text_of (ar_account_binding_digest (content r)) in
          let active := default [] (dict_get account (_active_by_account s)) in
          if superseded (dict_get account (_latest_by_account s)) (content e) (content r)
             || exhausted active (content e) then queue
          else
            lease_id ← token;
            lease ← new {| cl_lease_id := VStr lease_id;
                           cl_account_binding_digest := ar_account_binding_digest (content r);
                           cl_profile_binding_digest := ar_profile_binding_digest (content r);
                           cl_provider_adapter_id := adapter; cl_lease_revision := ar_lease_revision (content r);
                           cl_expires_at_utc := ar_expires_at_utc (content r) |};
            match record_texts (content t) (content e) (content lease) with
            | Err _ => queue
            | Ok texts =>
                record ← new (lease_record t e adapter r key lease_id lease texts);
                _ ← update (store_lease record key account (vt_fencing_token (content t))
                              (int_of (ce_evidence_revision (content e)), int_of (ar_lease_revision (content r))));
                mret (Some lease, None)
            end
  end.

(** The release of a reservation: [false] for an exception as well. *)
Definition _release_reservation (r : ref AccountReservation) : M bool :=
  released ← st_catch (release_reservation operations r) (λ _, mret (VBool false));
  mret (match released with VBool b => b | _ => false end).

Definition pending_owned (p : PendingRelease) (s : AllocatorState) : bool :=
  _reservation_owner_invariant (owner_of (pr_reservation_key p) s) (pr_reservation_key p)
    (pr_pending_release_id p) (pr_reservation p) (pr_fencing_token p) LEASE_RELEASE_PENDING (pr_lease_id p).

(** [replace(record, state=..., phase=..., pending_release_id=...)]. *)
Definition record_with (st : LeaseState) (phase : string) (pending : option string) (r : LeaseRecord) : LeaseRecord :=
  {| lc_lease := lc_lease r; lc_reservation := lc_reservation r; lc_ticket := lc_ticket r;
     lc_capacity_evidence := lc_capacity_evidence r; lc_adapter_id := lc_adapter_id r;
     lc_account_binding_digest := lc_account_binding_digest r;
     lc_profile_binding_digest := lc_profile_binding_digest r; lc_ticket_id := lc_ticket_id r;
     lc_resolution_decision_digest := lc_resolution_decision_digest r;
     lc_resolver_offer_generation := lc_resolver_offer_generation r;
     lc_policy_generation := lc_policy_generation r; lc_policy_digest := lc_policy_digest r;
     lc_ledger_revision := lc_ledger_revision r; lc_capability_binding_digest := lc_capability_binding_digest r;
     lc_fencing_token := lc_fencing_token r; lc_fence_epoch := lc_fence_epoch r;
     lc_ticket_phase := lc_ticket_phase r; lc_phase := phase; lc_capacity_units := lc_capacity_units r;
     lc_quota_units := lc_quota_units r; lc_cost_units := lc_cost_units r;
     lc_resource_units := lc_resource_units r; lc_evidence_revision := lc_evidence_revision r;
     lc_evidence_observed_at_utc := lc_evidence_observed_at_utc r;
     lc_evidence_expires_at_utc := lc_evidence_expires_at_utc r; lc_reservation_id := lc_reservation_id r;
     lc_lease_id := lc_lease_id r; lc_lease_revision := lc_lease_revision r;
     lc_lease_expires_at_utc := lc_lease_expires_at_utc r; lc_reservation_key := lc_reservation_key r;
     lc_state := st; lc_pending_release_id := pending; lc_receipt := lc_receipt r |}.

Definition with_receipt (receipt : ref LeaseBindingReceiptV1) (r : LeaseRecord) : LeaseRecord :=
  {| lc_lease := lc_lease r; lc_reservation := lc_reservation r; lc_ticket := lc_ticket r;
     lc_capacity_evidence := lc_capacity_evidence r; lc_adapter_id := lc_adapter_id r;
     lc_account_binding_digest := lc_account_binding_digest r;
     lc_profile_binding_digest := lc_profile_binding_digest r; lc_ticket_id := lc_ticket_id r;
     lc_resolution_decision_digest := lc_resolution_decision_digest r;
     lc_resolver_offer_generation := lc_resolver_offer_generation r;
     lc_policy_generation := lc_policy_generation r; lc_policy_digest := lc_policy_digest r;
     lc_ledger_revision := lc_ledger_revision r; lc_capability_binding_digest := lc_capability_binding_digest r;
     lc_fencing_token := lc_fencing_token r; lc_fence_epoch := lc_fence_epoch r;
     lc_ticket_phase := lc_ticket_phase r; lc_phase := lc_phase r; lc_capacity_units := lc_capacity_units r;
     lc_quota_units := lc_quota_units r; lc_cost_units := lc_cost_units r;
     lc_resource_units := lc_resource_units r; lc_evidence_revision := lc_evidence_revision r;
     lc_evidence_observed_at_utc := lc_evidence_observed_at_utc r;
     lc_evidence_expires_at_utc := lc_evidence_expires_at_utc r; lc_reservation_id := lc_reservation_id r;
     lc_lease_id := lc_lease_id r; lc_lease_revision := lc_lease_revision r;
     lc_lease_expires_at_utc := lc_lease_expires_at_utc r; lc_reservation_key := lc_reservation_key r;
     lc_state := lc_state r; lc_pending_release_id := lc_pending_release_id r; lc_receipt := Some receipt |}.

(** [record.lease.lease_id]. *)
Definition lease_id_of (r : LeaseRecord) : string := text_of (cl_lease_id (content (lc_lease r))).

Definition lease_owned (id : string) (r : LeaseRecord) (s : AllocatorState) : bool :=
  _reservation_owner_invariant (owner_of (lc_reservation_key r) s) (lc_reservation_key r) id
    (lc_reservation r) (lc_fencing_token r) LEASE_RESERVED (Some id).

(** [replace(owner, owner_id=..., phase=LeaseState.RELEASE_PENDING)]. *)
Definition owner_releasing (id : string) (o : ReservationOwner) : ReservationOwner :=
  {| ro_reservation_key := ro_reservation_key o; ro_owner_id := id; ro_reservation := ro_reservation o;
     ro_fencing_token := ro_fencing_token o; ro_phase := LEASE_RELEASE_PENDING; ro_lease_id := ro_lease_id o |}.

(** The entries the release of a lease makes. *)
Definition store_release (id : string) (r : LeaseRecord) (owner : ReservationOwner) (pending_release_id : string)
  (pending : ref PendingRelease) (record : ref LeaseRecord) (s : AllocatorState) : AllocatorState :=
  with_records (dict_set id record (_records s))
  (with_owners (dict_set (lc_reservation_key r) (owner_releasing pending_release_id owner) (_reservation_owners s))
  (with_pending (dict_set pending_release_id pending (_pending_releases s)) s)).

Definition lease_pending (id pending_release_id : string) (r : LeaseRecord) : PendingRelease :=
  {| pr_pending_release_id := pending_release_id; pr_reservation_key := lc_reservation_key r;
     pr_reservation := lc_reservation r;
     pr_active_account_key := Some (text_of (cl_account_binding_digest (content (lc_lease r))));
     pr_active_key := Some id; pr_fencing_token := lc_fencing_token r; pr_lease_id := Some id |}.

Definition _transition_lease_release_locked (record : ref LeaseRecord) : M (option string) :=
  let r := content record in
  let id := lease_id_of r in
  s ← state;
  match owner_of (lc_reservation_key r) s with
  | Some owner =>
      if lease_owned id r s then
        pending_release_id ← token;
        pending ← new (lease_pending id pending_release_id r);
        record' ← new (record_with LEASE_RELEASE_PENDING "RELEASE_PENDING" (Some pending_release_id) r);
        _ ← update (store_release id r owner pending_release_id pending record');
        mret (Some pending_release_id)
      else mret None
  | None => mret None
  end.

(** What is removed once the provider has released the reservation. *)
Definition drop_pending (id : string) (p : PendingRelease) (s : AllocatorState) : AllocatorState :=
  let s := with_owners (dict_del (pr_reservation_key p) (_reservation_owners s))
             (with_pending (dict_del id (_pending_releases s)) s) in
  match pr_active_account_key p, pr_active_key p with
  | Some account, Some key =>
      match dict_get account (_active_by_account s) with
      | Some active => with_active (dict_set account (dict_del key active) (_active_by_account s)) s
      | None => s
      end
  | _, _ => s
  end.

(** The record of the lease whose release is finished. *)
Definition released_record (id : string) (p : PendingRelease) (s : AllocatorState) : option (string * ref LeaseRecord) :=
  lease_id ← pr_lease_id p;
  record ← dict_get lease_id (_records s);
  if is_same (lc_reservation (content record)) (pr_reservation p)
     && bool_decide (lc_reservation_key (content record) = pr_reservation_key p)
     && bool_decide (lc_pending_release_id (content record) = Some id)
  then Some (lease_id, record) else None.

Definition _retry_pending_release (pending_release_id : string) : M bool :=
  s ← state;
  match dict_get pending_release_id (_pending_releases s) with
  | None => mret true
  | Some pending =>
      if negb (pending_owned (content pending) s) then mret false
      else
        released ← _release_reservation (pr_reservation (content pending));
        if negb released then mret false
        else
          s ← state;
          let current := match dict_get pending_release_id (_pending_releases s) with
                         | Some p => is_same p pending
                         | None => false
                         end in
          if negb current || negb (pending_owned (content pending) s) then mret false
          else
            _ ← update (drop_pending pending_release_id (content pending));
            s ← state;
            _ ← match released_record pending_release_id (content pending) s with
                | None => mret ()
                | Some (lease_id, record) =>
                    record' ← new (record_with LEASE_REVOKED "LEASE_REVOKED" None (content record));
                    update (λ s, with_records (dict_set lease_id record' (_records s)) s)
                end;
            mret true
  end.

(** Continue a release that was queued; its answer is not used. *)
Definition retry_queued (pending_release_id : option string) : M () :=
  match pending_release_id with
  | Some id => _ ← _retry_pending_release id; mret ()
  | None => mret ()
  end.

(** ** Receipts and verifications *)

Definition canonical_is (m : moment) (text : string) : bool :=
  match _canonical_utc m with Ok s => bool_decide (s = text) | Err _ => false end.

(** The comparisons with the record, without the owner and the clock. *)
Definition lease_matches (r : LeaseRecord) (l : CredentialLease) : bool :=
  py_eq (cl_lease_id l) (VStr (lc_lease_id r))
  && py_eq (cl_account_binding_digest l) (lc_account_binding_digest r)
  && py_eq (cl_profile_binding_digest l) (lc_profile_binding_digest r)
  && py_eq (cl_provider_adapter_id l) (lc_adapter_id r) && py_eq (cl_lease_revision l) (lc_lease_revision r)
  && canonical_is (cl_expires_at_utc l) (lc_lease_expires_at_utc r).

Definition ticket_matches (r : LeaseRecord) (t : ValidatedAllocationTicket) : bool :=
  py_eq (vt_ticket_id t) (lc_ticket_id r)
  && match canonical_resolution_decision_digest (vt_resolution_decision t) with
     | Ok digest => bool_decide (digest = lc_resolution_decision_digest r)
     | Err _ => false
     end
  && py_eq (vt_resolver_offer_generation t) (lc_resolver_offer_generation r)
  && py_eq (vt_policy_generation t) (lc_policy_generation r) && py_eq (vt_policy_digest t) (lc_policy_digest r)
  && py_eq (vt_capability_binding_digest t) (lc_capability_binding_digest r)
  && py_eq (vt_ledger_revision t) (lc_ledger_revision r) && py_eq (vt_fencing_token t) (lc_fencing_token r)
  && py_eq (vt_fence_epoch t) (lc_fence_epoch r) && py_eq (vt_phase t) (lc_ticket_phase r).

Definition evidence_matches (r : LeaseRecord) (e : CapacityEvidence) : bool :=
  py_eq (ce_ticket_id e) (lc_ticket_id r)
  && py_eq (ce_resolver_offer_generation e) (lc_resolver_offer_generation r)
  && py_eq (ce_policy_generation e) (lc_policy_generation r)
  && py_eq (ce_capability_binding_digest e) (lc_capability_binding_digest r)
  && py_eq (ce_ledger_revision e) (lc_ledger_revision r) && py_eq (ce_fencing_token e) (lc_fencing_token r)
  && py_eq (ce_fence_epoch e) (lc_fence_epoch r) && py_eq (ce_provider_adapter_id e) (lc_adapter_id r)
  && py_eq (ce_capacity_units e) (lc_capacity_units r) && py_eq (ce_quota_units e) (lc_quota_units r)
  && py_eq (ce_cost_units e) (lc_cost_units r) && py_eq (ce_resource_units e) (lc_resource_units r)
  && py_eq (ce_evidence_revision e) (lc_evidence_revision r)
  && canonical_is (ce_observed_at_utc e) (lc_evidence_observed_at_utc r)
  && canonical_is (ce_expires_at_utc e) (lc_evidence_expires_at_utc r).

Definition reservation_matches (record : LeaseRecord) (r : AccountReservation) : bool :=
  py_eq (ar_reservation_id r) (lc_reservation_id record)
  && py_eq (ar_account_binding_digest r) (lc_account_binding_digest record)
  && py_eq (ar_profile_binding_digest r) (lc_profile_binding_digest record)
  && py_eq (ar_provider_adapter_id r) (lc_adapter_id record)
  && py_eq (ar_lease_revision r) (lc_lease_revision record)
  && py_eq (ar_evidence_revision r) (lc_evidence_revision record)
  && py_eq (ar_fencing_token r) (lc_fencing_token record) && py_eq (ar_fence_epoch r) (lc_fence_epoch record)
  && canonical_is (ar_expires_at_utc r) (lc_lease_expires_at_utc record).

(** The checks before the clock is read. *)
Definition record_current (record : LeaseRecord) (lease : ref CredentialLease) (t : ref ValidatedAllocationTicket)
  (e : ref CapacityEvidence) : bool :=
  bool_decide (lc_state record = LEASE_RESERVED) && bool_decide (lc_pending_release_id record = None)
  && is_same (lc_lease record) lease && is_same (lc_ticket record) t && is_same (lc_capacity_evidence record) e
  && _lease_is_well_formed (content lease).

Definition _receipt_binding_invariant (record : option (ref LeaseRecord)) (lease : ref CredentialLease)
  (t : ref ValidatedAllocationTicket) (e : ref CapacityEvidence) : M bool :=
  match record with
  | None => mret false
  | Some record =>
      let r := content record in
      if record_current r lease t e then
        bound ← _allocation_binding_invariant (content t) (content e);
        s ← state;
        mret (bound && _reservation_matches_evidence (content (lc_reservation r)) e
              && lease_owned (lc_lease_id r) r s && lease_matches r (content lease)
              && ticket_matches r (content t) && evidence_matches r (content e)
              && reservation_matches r (content (lc_reservation r)))
      else mret false
  end.

Definition _has_active_lease_binding_verification (record : ref LeaseRecord) (s : AllocatorState) : bool :=
  existsb (λ active, is_same (vr_lease_record (content active)) record)
    ((_active_lease_binding_verifications s).*2).

Definition verification_of (v : LeaseBindingVerificationV1) (s : AllocatorState)
  : option (ref LeaseBindingVerificationRecord) :=
  snd <$> List.find (λ kv, kv.1 =? address v) (_active_lease_binding_verifications s).

Definition same_receipt (a b : option (ref LeaseBindingReceiptV1)) : bool :=
  match a, b with Some a, Some b => is_same a b | _, _ => false end.

Definition _active_lease_binding_verification_invariant (active : option (ref LeaseBindingVerificationRecord))
  : M bool :=
  match active with
  | None => mret false
  | Some active =>
      let a := content active in
      let r := content (vr_lease_record a) in
      s ← state;
      if match verification_of (vr_verification a) s with Some a' => is_same a' active | None => false end
         && match dict_get (lc_lease_id r) (_records s) with
            | Some r' => is_same r' (vr_lease_record a)
            | None => false
            end
         && same_receipt (lc_receipt r) (Some (vr_receipt a)) && is_same (lc_lease r) (vr_lease a)
         && is_same (lc_ticket r) (vr_ticket a) && is_same (lc_capacity_evidence r) (vr_capacity_evidence a)
      then _receipt_binding_invariant (Some (vr_lease_record a)) (vr_lease a) (vr_ticket a) (vr_capacity_evidence a)
      else mret false
  end.

(** ** The operations *)

(** [self._records.get(value)]: a value that cannot be hashed raises. *)
Definition records_get (v : pyval) (s : AllocatorState) : result (option (ref LeaseRecord)) :=
  if py_hashable v then Ok match v with VStr id => dict_get id (_records s) | _ => None end
  else Err (TypeError "unhashable type").

(** The arguments a caller may give anything for: [None] is an object of
    another class. *)
Definition allocate (ticket : option (ref ValidatedAllocationTicket)) (evidence : option (ref CapacityEvidence))
  : M (ref CredentialLease) :=
  match ticket, evidence with
  | Some t, Some e =>
      bound ← _allocation_binding_invariant (content t) (content e);
      _ ← guarded bound;
      adapter ← or_denied (adapter_id operations);
      _ ← guarded (match adapter with VStr s => nonempty s | _ => false end
                   && py_eq adapter (ce_provider_adapter_id (content e)));
      reservation ← or_denied (reserve_capability_atomically operations
                                 (vt_capability_binding_digest (content t)) e);
      '(lease, pending_release_id) ← _bind_reservation_locked t e adapter reservation;
      _ ← retry_queued pending_release_id;
      match lease with Some l => mret l | None => denied end
  | _, _ => denied
  end.

(** The locked part of [revoke]: the release to go on with. *)
Definition revoke_locked (lease : ref CredentialLease) : M (option string) :=
  s ← state;
  record ← st_lift (records_get (cl_lease_id (content lease)) s);
  match record with
  | None => mret None
  | Some record =>
      let r := content record in
      if negb (is_same (lc_lease r) lease) then mret None
      else
        match lc_state r with
        | LEASE_REVOKED => mret None
        | LEASE_RELEASE_PENDING => mret (lc_pending_release_id r)
        | LEASE_RESERVED =>
            if _has_active_lease_binding_verification record s then
              _ ← match dict_get (lc_lease_id r) (_deferred_lease_binding_revokes s) with
                  | Some _ => mret ()
                  | None => update (λ s, with_deferred (dict_set (lc_lease_id r) record
                                                          (_deferred_lease_binding_revokes s)) s)
                  end;
              mret None
            else _transition_lease_release_locked record
        end
  end.

Definition revoke (lease : option (ref CredentialLease)) : M () :=
  match lease with
  | None => mret ()
  | Some lease => pending_release_id ← revoke_locked lease; retry_queued pending_release_id
  end.

Definition transaction_of (e : TransactionEvidence) (l : CredentialLease) (r : LeaseRecord) : bool :=
  py_eq (te_ticket_id e) (lc_ticket_id r) && py_eq (te_lease_id e) (cl_lease_id l)
  && py_eq (te_lease_revision e) (cl_lease_revision (content (lc_lease r)))
  && py_eq (te_ledger_revision e) (lc_ledger_revision r)
  && py_eq (te_capability_binding_digest e) (lc_capability_binding_digest r)
  && py_eq (te_account_binding_digest e) (cl_account_binding_digest l)
  && py_eq (te_profile_binding_digest e) (cl_profile_binding_digest l)
  && py_eq (te_provider_adapter_id e) (cl_provider_adapter_id l)
  && py_eq (te_fencing_token e) (lc_fencing_token r) && py_eq_str (te_phase e) (lc_phase r).

(** The locked part of [recover]: the state it answers at once, or the release
    to go on with. *)
Definition recover_locked (lease : ref CredentialLease) (e : TransactionEvidence) : M (LeaseState + string) :=
  s ← state;
  match dict_get (text_of (te_lease_id e)) (_records s) with
  | None => denied
  | Some record =>
      let r := content record in
      _ ← guarded (is_same (lc_lease r) lease && transaction_of e (content lease) r);
      match lc_state r with
      | LEASE_RESERVED => _ ← guarded (py_eq_str (te_phase e) "LEASE_RESERVED"); mret (inl LEASE_RESERVED)
      | LEASE_RELEASE_PENDING =>
          _ ← guarded (py_eq_str (te_phase e) "RELEASE_PENDING");
          match lc_pending_release_id r with Some id => mret (inr id) | None => denied end
      | LEASE_REVOKED => denied
      end
  end.

Definition recover (lease : option (ref CredentialLease)) (evidence : option TransactionEvidence) : M LeaseState :=
  match lease, evidence with
  | Some lease, Some e =>
      _ ← guarded (_transaction_evidence_is_valid e);
      answer ← recover_locked lease e;
      match answer with
      | inl st => mret st
      | inr id =>
          _ ← _retry_pending_release id;
          s ← state;
          record ← st_lift (records_get (cl_lease_id (content lease)) s);
          match record with
          | Some record => _ ← guarded (is_same (lc_lease (content record)) lease); mret (lc_state (content record))
          | None => denied
          end
      end
  | _, _ => denied
  end.

Fixpoint retry_each (ids : list string) : M () :=
  match ids with
  | [] => mret ()
  | id :: ids => _ ← _retry_pending_release id; retry_each ids
  end.

Definition recover_pending_releases : M Z :=
  s ← state;
  _ ← retry_each (dict_keys (_pending_releases s));
  s ← state;
  mret (Z.of_nat (length (_pending_releases s))).

Definition issue_lease_binding_receipt (lease : option (ref CredentialLease))
  (ticket : option (ref ValidatedAllocationTicket)) (evidence : option (ref CapacityEvidence))
  : M (ref LeaseBindingReceiptV1) :=
  match lease, ticket, evidence with
  | Some lease, Some t, Some e =>
      s ← state;
      record ← st_lift (records_get (cl_lease_id (content lease)) s);
      current ← _receipt_binding_invariant record lease t e;
      _ ← guarded current;
      match record with
      | None => denied
      | Some record =>
          match lc_receipt (content record) with
          | Some receipt => mret receipt
          | None =>
              receipt ← new {| lb_digest := lease_binding_digest (content record) |};
              record' ← new (with_receipt receipt (content record));
              _ ← update (λ s, with_records (dict_set (lc_lease_id (content record)) record' (_records s)) s);
              mret receipt
          end
      end
  | _, _, _ => denied
  end.

Definition verify_lease_binding_receipt (receipt : option (ref LeaseBindingReceiptV1))
  (expected_lease : option (ref CredentialLease)) (expected_ticket : option (ref ValidatedAllocationTicket))
  (expected_evidence : option (ref CapacityEvidence)) : M LeaseBindingVerificationV1 :=
  match receipt, expected_lease, expected_ticket, expected_evidence with
  | Some receipt, Some lease, Some t, Some e =>
      or_denied (
        s ← state;
        record ← st_lift (records_get (cl_lease_id (content lease)) s);
        match record with
        | None => denied
        | Some record =>
            _ ← guarded (same_receipt (lc_receipt (content record)) (Some receipt));
            current ← _receipt_binding_invariant (Some record) lease t e;
            _ ← guarded (current && negb (_has_active_lease_binding_verification record s));
            verification ← new ();
            reference ← st_lift (_lease_binding_reference_for_record (content record));
            active ← new {| vr_verification := verification; vr_lease_record := record; vr_receipt := receipt;
                            vr_lease := lease; vr_ticket := t; vr_capacity_evidence := e;
                            vr_binding_reference := reference |};
            _ ← update (λ s, with_verifications
                  (_active_lease_binding_verifications s ++ [(address verification, active)]) s);
            mret verification
        end)
  | _, _, _, _ => denied
  end.

Definition lease_binding_reference_for (verification : option LeaseBindingVerificationV1)
  : M LeaseBindingReferenceV1 :=
  or_denied (
    s ← state;
    let active := v ← verification; verification_of v s in
    current ← _active_lease_binding_verification_invariant active;
    _ ← guarded current;
    match active with Some active => mret (vr_binding_reference (content active)) | None => denied end).

Definition forget_verification (v : LeaseBindingVerificationV1) (s : AllocatorState) : AllocatorState :=
  with_verifications (List.filter (λ kv, negb (kv.1 =? address v)) (_active_lease_binding_verifications s)) s.

(** The locked part: the release of a revoke that waited for the verification,
    and whether closing is denied. *)
Definition close_locked (verification : option LeaseBindingVerificationV1) : M (option string * bool) :=
  s ← state;
  match v ← verification; verification_of v s with
  | None => mret (None, true)
  | Some active =>
      let v := vr_verification (content active) in
      if match verification with Some v' => is_same v v' | None => false end then
        let record := vr_lease_record (content active) in
        let id := lc_lease_id (content record) in
        let waiting := match dict_get id (_deferred_lease_binding_revokes s) with
                       | Some deferred => is_same deferred record
                       | None => false
                       end in
        current ← _active_lease_binding_verification_invariant (Some active);
        _ ← update (forget_verification v);
        _ ← (if waiting then update (λ s, with_deferred (dict_del id (_deferred_lease_binding_revokes s)) s)
             else mret ());
        if negb current then mret (None, true)
        else if waiting then id ← _transition_lease_release_locked record; mret (id, false)
        else mret (None, false)
      else mret (None, true)
  end.

Definition close_lease_binding_verification (verification : option LeaseBindingVerificationV1) : M () :=
  '(pending_release_id, close_denied) ← or_denied (close_locked verification);
  _ ← guarded (negb close_denied);
  retry_queued pending_release_id.
End operations.
