(* ===== verification/AllocatorProofs.v ===== *)
(** * What the account allocator guarantees

    Over [AccountAllocator]: the entries of its dictionaries stay consistent
    under every operation, no reservation is lost, and what a lease was bound
    to.  The provider, the clock and the other threads are described by
    [lawful_surroundings], of which a concrete one is given at the end. *)

From S2P Require Import Prelude PyTime Order DynamicPool Json JsonText StrictJson PyEq Sha256 ModelPolicy AgentResolver AccountAllocator.
#[local] Open Scope Z_scope.

(** ** Reservations are accounted for *)

Definition record_ok (r : LeaseRecord) : Prop :=
  _reservation_key (lc_reservation r) = lc_reservation_key r ∧ lease_id_of r = lc_lease_id r.

(** The owner of a key, a pending release and a record in a state: each points
    to the one it stands for. *)
Definition owner_entry (s : AllocatorState) (k : string) (o : ReservationOwner) : Prop :=
  ro_reservation_key o = k ∧
  match ro_phase o with
  | LEASE_RESERVED => ∃ record, dict_get (ro_owner_id o) (_records s) = Some record
      ∧ lc_state (content record) = LEASE_RESERVED ∧ lc_reservation_key (content record) = k
  | LEASE_RELEASE_PENDING => ∃ p, dict_get (ro_owner_id o) (_pending_releases s) = Some p
      ∧ pr_reservation_key (content p) = k
  | LEASE_REVOKED => False
  end.

Definition pending_entry (s : AllocatorState) (id : string) (p : PendingRelease) : Prop :=
  pr_pending_release_id p = id ∧ _reservation_key (pr_reservation p) = pr_reservation_key p
  ∧ pending_owned p s = true.

Definition record_entry (s : AllocatorState) (id : string) (r : LeaseRecord) : Prop :=
  lc_lease_id r = id ∧ record_ok r
  ∧ match lc_state r with
    | LEASE_RESERVED => lc_pending_release_id r = None ∧ lease_owned id r s = true
    | LEASE_RELEASE_PENDING => ∃ pid p, lc_pending_release_id r = Some pid
        ∧ dict_get pid (_pending_releases s) = Some p ∧ pr_lease_id (content p) = Some id
        ∧ pr_reservation (content p) = lc_reservation r ∧ pr_reservation_key (content p) = lc_reservation_key r
    | LEASE_REVOKED => lc_pending_release_id r = None
    end.

Record accounted (s : AllocatorState) : Prop := {
  ac_owners_distinct : NoDup (dict_keys (_reservation_owners s));
  ac_pending_distinct : NoDup (dict_keys (_pending_releases s));
  ac_owner : ∀ k o, owner_of k s = Some o → owner_entry s k o;
  ac_pending : ∀ id p, dict_get id (_pending_releases s) = Some p → pending_entry s id (content p);
  ac_record : ∀ id r, dict_get id (_records s) = Some r → record_entry s id (content r);
  ac_verification : ∀ v a, (v, a) ∈ _active_lease_binding_verifications s →
                           record_ok (content (vr_lease_record (content a)));
}.

Lemma owner_invariant_true owner key id r token phase lease :
  _reservation_owner_invariant owner key id r token phase lease = true ↔
  ∃ o, owner = Some o ∧ ro_reservation_key o = key ∧ ro_owner_id o = id ∧ is_same (ro_reservation o) r = true
    ∧ py_eq (ro_fencing_token o) token = true ∧ ro_phase o = phase ∧ ro_lease_id o = lease.
Proof.
  unfold _reservation_owner_invariant. destruct owner as [o|]; [|naive_solver].
  rewrite !andb_true_iff, !bool_decide_eq_true. naive_solver.
Qed.

Lemma is_same_refl {A} (r : ref A) : is_same r r = true.
Proof. apply Z.eqb_refl. Qed.

Lemma is_same_trans {A} (a b c : ref A) : is_same a b = true → is_same a c = true → is_same b c = true.
Proof. unfold is_same. lia. Qed.

(** Owners, pending releases and records of one key are read from the same
    entries: what two states agree on carries an entry over. *)
Lemma pending_owned_frame p s s' :
  owner_of (pr_reservation_key p) s' = owner_of (pr_reservation_key p) s → pending_owned p s' = pending_owned p s.
Proof. unfold pending_owned. by intros ->. Qed.

Lemma lease_owned_frame id r s s' :
  owner_of (lc_reservation_key r) s' = owner_of (lc_reservation_key r) s → lease_owned id r s' = lease_owned id r s.
Proof. unfold lease_owned. by intros ->. Qed.

Lemma pending_is_owned p s : pending_owned p s = true → is_Some (owner_of (pr_reservation_key p) s).
Proof. intros (o & -> & _)%owner_invariant_true. by eexists. Qed.

Lemma lease_is_owned id r s : lease_owned id r s = true → is_Some (owner_of (lc_reservation_key r) s).
Proof. intros (o & -> & _)%owner_invariant_true. by eexists. Qed.

(** A reservation without an owner is queued for its release. *)
Lemma queue_accounted s k id o p :
  accounted s → owner_of k s = None → dict_get id (_pending_releases s) = None →
  ro_phase o = LEASE_RELEASE_PENDING → ro_owner_id o = id → ro_reservation_key o = k →
  pr_reservation_key (content p) = k → pr_pending_release_id (content p) = id →
  _reservation_key (pr_reservation (content p)) = k →
  pending_owned (content p) (with_owners (dict_set k o (_reservation_owners s)) s) = true →
  accounted (with_owners (dict_set k o (_reservation_owners s))
               (with_pending (dict_set id p (_pending_releases s)) s)).
Proof.
  intros [Hod Hpd Ho Hp Hr Hv] Hk Hid Hph Hoid Hok Hpk Hpid Hkey Hown.
  set (s' := with_owners _ _). assert (∀ k', k' ≠ k → owner_of k' s' = owner_of k' s) as Hne.
  { intros k' Hk'. unfold owner_of. cbn. by apply dict_get_set_ne. }
  assert (∀ id' p', dict_get id' (_pending_releases s) = Some p' → dict_get id' (_pending_releases s') = Some p') as Hold.
  { intros id' p' Hp'. cbn. rewrite dict_get_set_ne; [done|]. intros ->. congruence. }
  split; [by apply NoDup_dict_set|by apply NoDup_dict_set| | | |exact Hv].
  - intros k' o'. destruct (decide (k' = k)) as [->|Hk'].
    + unfold owner_of. cbn. rewrite dict_get_set_eq. intros [= <-]. split; [done|]. rewrite Hph.
      exists p. cbn. subst id. by rewrite dict_get_set_eq.
    + rewrite Hne by done. intros [E Hm]%Ho. split; [done|]. destruct (ro_phase o'); [exact Hm| |done].
      destruct Hm as (p' & Hp' & ?). exists p'. auto.
  - intros id' p'. destruct (decide (id' = id)) as [->|Hid'].
    + cbn. rewrite dict_get_set_eq. intros [= <-]. split_and!; congruence || done.
    + intros Hp'. cbn in Hp'. rewrite dict_get_set_ne in Hp' by done. apply Hp in Hp' as (? & ? & Hown').
      split_and!; [done|done|]. rewrite <- Hown'. apply pending_owned_frame, Hne.
      intros E. apply pending_is_owned in Hown' as [? Hs]. congruence.
  - intros id' r Hr'. apply Hr in Hr' as (? & ? & Hm). split_and!; [done|done|].
    destruct (lc_state (content r)); [| |exact Hm].
    + destruct Hm as [? Hl]. split; [done|]. rewrite <- Hl. apply lease_owned_frame, Hne.
      intros E. apply lease_is_owned in Hl as [? Hs]. congruence.
    + destruct Hm as (pid & p' & ? & ? & ?). exists pid, p'. auto.
Qed.

(** Parts of the state the entries do not look at. *)
Lemma accounted_frame s s' :
  _reservation_owners s' = _reservation_owners s → _pending_releases s' = _pending_releases s →
  _records s' = _records s →
  (∀ v a, (v, a) ∈ _active_lease_binding_verifications s' → record_ok (content (vr_lease_record (content a)))) →
  accounted s → accounted s'.
Proof.
  destruct s, s'. cbn. intros -> -> -> Hv' [Hod Hpd Ho Hp Hr _]. by split.
Qed.

(** A new lease. *)
Lemma store_accounted s k account token revisions record :
  accounted s → owner_of k s = None → dict_get (lc_lease_id (content record)) (_records s) = None →
  record_ok (content record) → lc_state (content record) = LEASE_RESERVED →
  lc_pending_release_id (content record) = None → lc_reservation_key (content record) = k →
  py_eq token (lc_fencing_token (content record)) = true →
  accounted (store_lease record k account token revisions s).
Proof.
  intros [Hod Hpd Ho Hp Hr Hv] Hk Hid Hrec Hst Hpend Hkey Htok. set (id := lc_lease_id (content record)) in *.
  set (s' := store_lease _ _ _ _ _ _). assert (∀ k', k' ≠ k → owner_of k' s' = owner_of k' s) as Hne.
  { intros k' Hk'. unfold owner_of. cbn. by apply dict_get_set_ne. }
  assert (∀ id' r, dict_get id' (_records s) = Some r → dict_get id' (_records s') = Some r) as Hold.
  { intros id' r Hr'. cbn. rewrite dict_get_set_ne; [done|]. intros E. subst id. congruence. }
  split; [by apply NoDup_dict_set|exact Hpd| | | |exact Hv].
  - intros k' o'. destruct (decide (k' = k)) as [->|Hk'].
    + unfold owner_of. cbn. rewrite dict_get_set_eq. intros [= <-]. split; [done|]. cbn.
      exists record. subst id. by rewrite dict_get_set_eq.
    + rewrite Hne by done. intros [E Hm]%Ho. split; [done|]. destruct (ro_phase o'); [|exact Hm|done].
      destruct Hm as (r & Hr' & ? & ?). exists r. auto.
  - intros id' p' Hp'. apply Hp in Hp' as (? & ? & Hown). split_and!; [done|done|]. rewrite <- Hown.
    apply pending_owned_frame, Hne. intros E. apply pending_is_owned in Hown as [? Hs]. congruence.
  - intros id' r. destruct (decide (id' = id)) as [->|Hid'].
    + cbn. subst id. rewrite dict_get_set_eq. intros [= <-]. split_and!; [done|done|]. rewrite Hst. split; [done|].
      apply owner_invariant_true. rewrite Hkey. unfold owner_of. cbn. rewrite dict_get_set_eq.
      eexists. split_and!; try done. apply is_same_refl.
    + intros Hr'. cbn in Hr'. rewrite dict_get_set_ne in Hr' by done. apply Hr in Hr' as (? & ? & Hm).
      split_and!; [done|done|]. destruct (lc_state (content r)); [|exact Hm|exact Hm].
      destruct Hm as [? Hl]. split; [done|]. rewrite <- Hl. apply lease_owned_frame, Hne.
      intros E. apply lease_is_owned in Hl as [? Hs]. congruence.
Qed.

(** A lease whose release begins. *)
Lemma release_accounted s id r owner pid pending record :
  accounted s → record_ok r → id = lease_id_of r → owner_of (lc_reservation_key r) s = Some owner →
  lease_owned id r s = true → dict_get pid (_pending_releases s) = None →
  content pending = lease_pending id pid r → content record = record_with LEASE_RELEASE_PENDING "RELEASE_PENDING" (Some pid) r →
  accounted (store_release id r owner pid pending record s).
Proof.
  intros [Hod Hpd Ho Hp Hr Hv] [Hkey Hid] -> Hown Hl Hpid Hpc Hrc.
  pose proof Hl as (o & E & Hok & Hoid & Hsame & Htok & Hph & Hlease)%owner_invariant_true.
  rewrite Hown in E. injection E as <-. set (k := lc_reservation_key r) in *. set (id := lease_id_of r) in *.
  set (s' := store_release _ _ _ _ _ _ _). assert (∀ k', k' ≠ k → owner_of k' s' = owner_of k' s) as Hne.
  { intros k' Hk'. unfold owner_of. cbn. by apply dict_get_set_ne. }
  assert (∀ id' p', dict_get id' (_pending_releases s) = Some p' → dict_get id' (_pending_releases s') = Some p') as Hold.
  { intros id' p' Hp'. cbn. rewrite dict_get_set_ne; [done|]. intros ->. congruence. }
  split; [by apply NoDup_dict_set|by apply NoDup_dict_set| | | |exact Hv].
  - intros k' o'. destruct (decide (k' = k)) as [->|Hk'].
    + unfold owner_of. cbn. rewrite dict_get_set_eq. intros [= <-]. split; [done|]. cbn.
      exists pending. rewrite dict_get_set_eq. by rewrite Hpc.
    + rewrite Hne by done. intros Hs. pose proof Hs as [E Hm]%Ho. split; [done|].
      destruct (ro_phase o') eqn:Hph'; [| |done].
      * destruct Hm as (r' & Hr' & Hst & Hk''). exists r'. cbn. rewrite dict_get_set_ne; [done|]. intros Hi.
        pose proof (Ho k owner Hown) as [_ Hmo]. rewrite Hph in Hmo. destruct Hmo as (r2 & Hr2 & _ & Hk2). congruence.
      * destruct Hm as (p' & Hp' & ?). exists p'. auto.
  - intros id' p'. destruct (decide (id' = pid)) as [->|Hid'].
    + cbn. rewrite dict_get_set_eq. intros [= <-]. rewrite Hpc. split_and!; [done|done|].
      apply owner_invariant_true. cbn. unfold owner_of. cbn. fold k. rewrite dict_get_set_eq.
      eexists. by split_and!.
    + intros Hp'. cbn in Hp'. rewrite dict_get_set_ne in Hp' by done. apply Hp in Hp' as (? & ? & Hown').
      split_and!; [done|done|]. rewrite <- Hown'. apply pending_owned_frame, Hne. intros E.
      apply owner_invariant_true in Hown' as (o' & Eo & _ & _ & _ & _ & Hph' & _). congruence.
  - intros id' r'. destruct (decide (id' = id)) as [->|Hid'].
    + cbn. rewrite dict_get_set_eq. intros [= <-]. rewrite Hrc. split_and!; [done|by split|]. cbn.
      exists pid, pending. rewrite dict_get_set_eq, Hpc. by cbn.
    + intros Hr'. cbn in Hr'. rewrite dict_get_set_ne in Hr' by done. pose proof Hr' as (Hi' & ? & Hm)%Hr.
      split_and!; [done|done|]. destruct (lc_state (content r')); [| |exact Hm].
      * destruct Hm as [? Hl']. split; [done|]. rewrite <- Hl'. apply lease_owned_frame, Hne. intros E.
        apply owner_invariant_true in Hl' as (o' & Eo & _ & Hoid' & _). rewrite E in Eo. congruence.
      * destruct Hm as (pid' & p' & ? & ? & ?). exists pid', p'. auto.
Qed.

(** The entries of a release that is finished.  [p] is what was read before the
    provider was asked: it still owns its key. *)
Definition finish_release (id : string) (p : PendingRelease) (record : LeaseRecord → ref LeaseRecord)
  (s : AllocatorState) : AllocatorState :=
  let s := drop_pending id p s in
  match released_record id p s with
  | None => s
  | Some (lease_id, r) =>
      with_records (dict_set lease_id (record (record_with LEASE_REVOKED "LEASE_REVOKED" None (content r))) (_records s)) s
  end.

Lemma drop_pending_parts id p s :
  _reservation_owners (drop_pending id p s) = dict_del (pr_reservation_key p) (_reservation_owners s)
  ∧ _pending_releases (drop_pending id p s) = dict_del id (_pending_releases s)
  ∧ _records (drop_pending id p s) = _records s
  ∧ _active_lease_binding_verifications (drop_pending id p s) = _active_lease_binding_verifications s.
Proof. unfold drop_pending. destruct (pr_active_account_key p), (pr_active_key p); cbn; try done. by case_match. Qed.

Lemma released_record_Some id p s lease_id r :
  released_record id p s = Some (lease_id, r) ↔
  pr_lease_id p = Some lease_id ∧ dict_get lease_id (_records s) = Some r
  ∧ is_same (lc_reservation (content r)) (pr_reservation p) = true
  ∧ lc_reservation_key (content r) = pr_reservation_key p ∧ lc_pending_release_id (content r) = Some id.
Proof.
  unfold released_record. destruct (pr_lease_id p) as [l|]; cbn; [|naive_solver].
  destruct (dict_get l (_records s)) as [r'|] eqn:E; cbn; [|naive_solver].
  destruct (_ && _) eqn:Hb; [|split; [done|]].
  - rewrite !andb_true_iff, !bool_decide_eq_true in Hb. naive_solver.
  - intros ([= <-] & E' & H1 & H2 & H3). rewrite E in E'. injection E' as ->. rewrite H1, H2, H3 in Hb.
    by rewrite !bool_decide_eq_true_2 in Hb.
Qed.

(** The record that is finished, when some record waits for the release. *)
Lemma waiting_record_released s id p q lease_id r :
  accounted s → dict_get id (_pending_releases s) = Some q → pending_owned p s = true →
  pr_pending_release_id p = id → dict_get lease_id (_records s) = Some r →
  lc_pending_release_id (content r) = Some id → released_record id p (drop_pending id p s) = Some (lease_id, r).
Proof.
  intros Hs Hq Hown Hid Hr Hpid. apply released_record_Some. destruct (drop_pending_parts id p s) as (_ & _ & -> & _).
  pose proof (ac_record s Hs _ _ Hr) as (_ & _ & Hm).
  destruct (lc_state (content r)); [destruct Hm; congruence| |congruence].
  destruct Hm as (pid & q' & Hpid' & Hq' & Hl & Hres & Hkey). assert (pid = id) as -> by congruence.
  rewrite Hq in Hq'. injection Hq' as <-. pose proof (ac_pending s Hs _ _ Hq) as (_ & _ & Hownq).
  apply owner_invariant_true in Hown as (o & Ho & Hok & Hoi & Hsame & _ & Hph & Hol).
  pose proof (ac_owner s Hs _ _ Ho) as [_ Hm]. rewrite Hph in Hm. destruct Hm as (q2 & Hq2 & Hk2).
  rewrite Hoi, Hid, Hq in Hq2. injection Hq2 as <-.
  apply owner_invariant_true in Hownq as (o2 & Ho2 & _ & _ & Hsame2 & _ & _ & Hol2).
  assert (o2 = o) as -> by congruence. split_and!; [congruence|done| |congruence|done].
  rewrite <- Hres. by apply (is_same_trans (ro_reservation o)).
Qed.

Lemma finish_accounted s id p q record :
  accounted s → dict_get id (_pending_releases s) = Some q → pending_owned p s = true →
  pr_pending_release_id p = id → (∀ r, content (record r) = r) → accounted (finish_release id p record s).
Proof.
  intros Hs Hq Hown Hid Hrec. pose proof (λ l r, waiting_record_released s id p q l r Hs Hq Hown Hid) as Hwait.
  destruct (drop_pending_parts id p s) as (Eo & Ep & Er & Ev). pose proof Hs as [Hod Hpd Ho Hp Hr Hv].
  set (k := pr_reservation_key p) in *. set (s1 := drop_pending id p s) in *.
  assert (∃ o, owner_of k s = Some o ∧ ro_phase o = LEASE_RELEASE_PENDING ∧ ro_owner_id o = id) as (o & Hko & Hph & Hoid).
  { apply owner_invariant_true in Hown as (o & ? & _ & ? & _ & _ & ? & _). exists o. split_and!; [done|done|congruence]. }
  (* every other owner, pending release and record stays *)
  assert (∀ s', _reservation_owners s' = _reservation_owners s1 → ∀ k',
            owner_of k' s' = if bool_decide (k = k') then None else owner_of k' s) as Hown'.
  { intros s' E k'. unfold owner_of. rewrite E, Eo. by apply dict_get_del. }
  assert (∀ id', dict_get id' (_pending_releases s1) = if bool_decide (id = id') then None else dict_get id' (_pending_releases s)) as Hpend'.
  { intros id'. rewrite Ep. by apply dict_get_del. }
  set (s' := finish_release id p record s).
  assert (_reservation_owners s' = _reservation_owners s1 ∧ _pending_releases s' = _pending_releases s1
          ∧ _active_lease_binding_verifications s' = _active_lease_binding_verifications s1) as (Eo' & Ep' & Ev').
  { unfold s', finish_release. fold s1. by destruct (released_record id p s1) as [[??]|]. }
  assert (∀ l, (∃ r, released_record id p s1 = Some (l, r)
                ∧ dict_get l (_records s') = Some (record (record_with LEASE_REVOKED "LEASE_REVOKED" None (content r))))
               ∨ (dict_get l (_records s') = dict_get l (_records s)
                  ∧ ∀ r, dict_get l (_records s) = Some r → lc_pending_release_id (content r) ≠ Some id)) as Hrecs.
  { intros l. unfold s', finish_release. fold s1. destruct (released_record id p s1) as [[l' r]|] eqn:El.
    - cbn. rewrite dict_get_set. case_bool_decide as Hl; [subst; left; by exists r|]. right. rewrite Er.
      split; [done|]. intros r' Hr' Hpid. pose proof (Hwait l r' Hr' Hpid). congruence.
    - right. rewrite Er. split; [done|]. intros r' Hr' Hpid. by pose proof (Hwait l r' Hr' Hpid). }
  split.
  - rewrite Eo', Eo. by apply NoDup_dict_del.
  - rewrite Ep', Ep. by apply NoDup_dict_del.
  - intros k' o'. rewrite (Hown' s' Eo'). case_bool_decide as Hk; [done|]. intros Hs'. pose proof Hs' as [E Hm]%Ho.
    split; [done|]. destruct (ro_phase o') eqn:Hph'; [| |done].
    + destruct Hm as (r & Hr' & Hst & Hk'). exists r. split_and!; [|done|done].
      destruct (Hrecs (ro_owner_id o')) as [(r2 & (_ & Hr2 & _ & _ & Hpid)%released_record_Some & _)|[-> _]]; [|done].
      rewrite Er, Hr' in Hr2. injection Hr2 as <-. apply Hr in Hr' as (_ & _ & Hm). rewrite Hst in Hm.
      destruct Hm. congruence.
    + destruct Hm as (p' & Hp' & Hk'). exists p'. split; [|done]. rewrite Ep', Hpend'. case_bool_decide as Hi; [|done].
      exfalso. apply Hk. pose proof (Ho k o Hko) as [_ Hm]. rewrite Hph, Hoid in Hm. destruct Hm as (p2 & ? & ?).
      rewrite <- Hi in Hp'. congruence.
  - intros id' p'. rewrite Ep', Hpend'. case_bool_decide as Hi; [done|]. intros (Hpid & Hkey & Hown2)%Hp.
    split_and!; [done|done|]. rewrite <- Hown2. apply pending_owned_frame. rewrite (Hown' s' Eo').
    rewrite bool_decide_eq_false_2; [done|]. intros E. apply owner_invariant_true in Hown2 as (o2 & Ho2 & _ & Hoi2 & _).
    rewrite <- E in Ho2. congruence.
  - intros l r Hl. destruct (Hrecs l) as [(r2 & Hrel & Hl')|[Hl' Hno]].
    + rewrite Hl in Hl'. injection Hl' as ->. rewrite Hrec. apply released_record_Some in Hrel as (_ & Hr2 & _).
      rewrite Er in Hr2. apply Hr in Hr2 as (? & [??] & _). by split_and!.
    + rewrite Hl in Hl'. symmetry in Hl'. pose proof (Hno r Hl') as Hne. apply Hr in Hl' as (? & ? & Hm).
      split_and!; [done|done|]. destruct (lc_state (content r)) eqn:Hst; [| |exact Hm].
      * destruct Hm as [? Hlo]. split; [done|]. rewrite <- Hlo. apply lease_owned_frame. rewrite (Hown' s' Eo').
        rewrite bool_decide_eq_false_2; [done|]. intros E.
        apply owner_invariant_true in Hlo as (o2 & Ho2 & _ & _ & _ & _ & Hph2 & _). rewrite <- E in Ho2. congruence.
      * destruct Hm as (pid & p' & Hpid & Hp' & ?). exists pid, p'. split_and!; try tauto. rewrite Ep', Hpend'.
        rewrite bool_decide_eq_false_2; [done|]. congruence.
  - rewrite Ev', Ev. exact Hv.
Qed.

(** A record replaced by one for the same reservation in the same state. *)
Lemma receipt_accounted s id r receipt record :
  accounted s → dict_get id (_records s) = Some r → content record = with_receipt receipt (content r) →
  accounted (with_records (dict_set (lc_lease_id (content r)) record (_records s)) s).
Proof.
  intros [Hod Hpd Ho Hp Hr Hv] Hid Hrec. pose proof (Hr id r Hid) as (El & Hok & Hm). rewrite El.
  split; [done|done| |done| |done].
  - intros k o [E Hmo]%Ho. split; [done|]. destruct (ro_phase o); [|exact Hmo|done].
    destruct Hmo as (r' & Hr' & Hst & Hk). cbn. rewrite dict_get_set. case_bool_decide as Hi; [|by exists r'].
    exists record. rewrite Hi, Hr' in Hid. injection Hid as ->. by rewrite Hrec.
  - intros l r'. cbn. rewrite dict_get_set. case_bool_decide as Hi; [|apply Hr].
    intros [= <-]. rewrite Hrec, <- Hi. split; [exact El|]. split; [exact Hok|exact Hm].
Qed.

(** The fencing token of a ticket that passed the checks is a text. *)
Lemma bound_fence t e : allocation_bound t e = true → ∃ fence, vt_fencing_token t = VStr fence.
Proof.
  unfold allocation_bound. rewrite !andb_true_iff. intros [[[_ Ho] _] _]. rewrite forallb_forall in Ho.
  assert (opaque (vt_fencing_token t) = true) as Hop by (apply Ho; cbn; auto 10).
  destruct (vt_fencing_token t); try done. by eexists.
Qed.

(** What the surroundings of the allocator promise.  [issued]: the tokens given
    out; [handed] and [released]: the keys of the reservations the provider has
    given to the calls considered, and of those whose release it confirmed.
    Between two locked regions the allocator may be used by other threads. *)
Section accounting.
Context {W : Type} (operations : AllocatorOperations W) (issued handed released : W → string → Prop).
#[local] Notation M := (ST (AllocatorState * W)).

Definition settled (sw : AllocatorState * W) (k : string) : Prop :=
  released sw.2 k ∨ is_Some (owner_of k sw.1).

(** The state without the promise about what was handed over. *)
Definition kept (sw : AllocatorState * W) : Prop :=
  accounted sw.1
  ∧ ∀ id, is_Some (dict_get id (_records sw.1)) ∨ is_Some (dict_get id (_pending_releases sw.1)) → issued sw.2 id.

Definition all_settled (sw : AllocatorState * W) : Prop := kept sw ∧ ∀ k, handed sw.2 k → settled sw k.

(** All but the reservation that was just handed over. *)
Definition settled_but (r : option (ref AccountReservation)) (sw : AllocatorState * W) : Prop :=
  kept sw ∧ ∀ k, handed sw.2 k → settled sw k ∨ k ∈ _reservation_key <$> option_list r.

Definition quiet (w w' : W) : Prop :=
  (∀ k, issued w k → issued w' k) ∧ (∀ k, handed w' k → handed w k) ∧ (∀ k, released w k → released w' k).

Record lawful_surroundings : Prop := {
  lw_now : ∀ w, quiet w (datetime_now operations w).1;
  lw_token : ∀ w w' t, token_urlsafe operations w = (w', t) → quiet w w' ∧ ¬ issued w t ∧ issued w' t;
  lw_adapter : triple all_settled (adapter_id operations) (λ _, all_settled) (λ _, all_settled);
  lw_reserve : ∀ digest e, triple all_settled (reserve_capability_atomically operations digest e)
                             settled_but (λ _, all_settled);
  lw_release : ∀ r, triple all_settled (release_reservation operations r)
                      (λ v sw, all_settled sw ∧ (v = VBool true → released sw.2 (_reservation_key r)))
                      (λ _, all_settled);
}.

Context (lawful : lawful_surroundings).

Definition preserves {A} (m : M A) : Prop := triple all_settled m (λ _, all_settled) (λ _, all_settled).

Lemma allocator_preserves_bind {A B} (m : M A) (f : A → M B) :
  preserves m → (∀ a, preserves (f a)) → preserves (m ≫= f).
Proof. intros ??. by eapply triple_bind. Qed.

Lemma preserves_pure {A} (m : M A) : (∀ sw, (m sw).1 = sw) → preserves m.
Proof. intros H sw Hs. specialize (H sw). destruct (m sw) as [sw' [a|e]]; cbn in H; by subst. Qed.

Lemma preserves_or_denied {A} (m : M A) : preserves m → preserves (or_denied m).
Proof.
  intros H sw Hs. unfold or_denied, st_catch. specialize (H sw Hs). by destruct (m sw) as [sw' [a|e]].
Qed.

(** A step of the world that keeps the state. *)
Lemma quiet_settled r s w w' : settled_but r (s, w) → quiet w w' → settled_but r (s, w').
Proof.
  intros [[Ha Hi] Hh] (Hq & Hq' & Hq''). split; [split; [exact Ha|]; cbn in *; auto|].
  intros k Hk%Hq'. destruct (Hh k Hk) as [[?|?]|?]; [left; left; by apply Hq''|left; by right|by right].
Qed.

Lemma all_settled_but sw : all_settled sw ↔ settled_but None sw.
Proof.
  unfold all_settled, settled_but. cbn.
  split; intros [H Hh]; (split; [done|]); intros k Hk; [left; by apply Hh|].
  by destruct (Hh k Hk) as [?|?%elem_of_nil].
Qed.

(** The steps that touch no entry. *)
Lemma run_state {A} (f : AllocatorState → M A) sw : (state ≫= f) sw = f sw.1 sw.
Proof. done. Qed.
Lemma run_update {A} g (f : () → M A) s w : (update g ≫= f) (s, w) = f () (g s, w).
Proof. done. Qed.
Lemma run_new {A B} (a : A) (f : ref A → M B) s w :
  (new a ≫= f) (s, w) = f (Ref (_next_address s) a) (with_next (_next_address s + 1) s, w).
Proof. done. Qed.

Lemma settled_frame r s s' w :
  _reservation_owners s' = _reservation_owners s → _pending_releases s' = _pending_releases s →
  _records s' = _records s → _active_lease_binding_verifications s' = _active_lease_binding_verifications s →
  settled_but r (s, w) → settled_but r (s', w).
Proof.
  intros Eo Ep Er Ev [[Ha Hi] Hh]. split; [split|]; cbn in *.
  - apply (accounted_frame s); try done. rewrite Ev. apply (ac_verification s Ha).
  - by rewrite Er, Ep.
  - intros k Hk. unfold settled, owner_of. cbn. rewrite Eo. by apply Hh.
Qed.

Lemma settled_next r s w n : settled_but r (s, w) → settled_but r (with_next n s, w).
Proof. by apply settled_frame. Qed.

Lemma settled_more r r' sw : settled_but r sw → (∀ k, k ∈ _reservation_key <$> option_list r →
  settled sw k ∨ k ∈ _reservation_key <$> option_list r') → settled_but r' sw.
Proof. intros [H Hh] Hm. split; [done|]. intros k Hk. destruct (Hh k Hk); [by left|auto]. Qed.

Lemma now_settled r : triple (settled_but r) (now operations) (λ _, settled_but r) (λ _ _, False).
Proof using lawful.
  intros [s w] Hs. unfold now. cbn. pose proof (lw_now lawful w) as Hq.
  destruct (datetime_now operations w) as [w' d]. by apply (quiet_settled r s w).
Qed.

Lemma binding_settled r t e :
  triple (settled_but r) (_allocation_binding_invariant operations t e) (λ _, settled_but r) (λ _ _, False).
Proof using lawful.
  unfold _allocation_binding_invariant. destruct (allocation_bound t e); [|by apply triple_ret].
  eapply triple_bind; [apply now_settled|]. intros d. by apply triple_ret.
Qed.

Definition unused (t : string) (s : AllocatorState) : Prop :=
  dict_get t (_records s) = None ∧ dict_get t (_pending_releases s) = None.

Lemma token_settled r s w w' t :
  settled_but r (s, w) → token_urlsafe operations w = (w', t) →
  settled_but r (s, w') ∧ unused t s ∧ issued w' t.
Proof using lawful.
  intros Hs (Hq & Hnew & Hi)%(lw_token lawful). split_and!; [by apply (quiet_settled r s w)| |done].
  destruct Hs as [[_ Hu] _]. cbn in Hu. split; apply eq_None_not_Some; intros ?; apply Hnew, Hu; auto.
Qed.

(** A reservation that is not bound to a lease is queued for its release. *)
Lemma queue_settled r fence :
  triple (λ sw, settled_but (Some r) sw ∧ owner_of (_reservation_key r) sw.1 = None)
    (_queue_new_pending_release_locked operations r (_reservation_key r) (VStr fence))
    (λ _, all_settled) (λ _ _, False).
Proof using lawful.
  intros [s w] [Hs Hown]. unfold _queue_new_pending_release_locked. cbn in Hown.
  rewrite st_bind_eq. unfold token. cbn. destruct (token_urlsafe operations w) as [w' id] eqn:Ht.
  destruct (token_settled (Some r) s w w' id Hs Ht) as (Hs' & [Hr Hp] & Hi). rewrite run_new, !run_update.
  set (p := Ref _ _). set (o := {| ro_reservation_key := _ |}). set (k := _reservation_key r) in *.
  set (s1 := with_owners (dict_set k o (_reservation_owners s)) (with_pending (dict_set id p (_pending_releases s)) s)).
  assert (all_settled (s1, w')) as H1.
  { destruct Hs' as [[Ha Hiss] Hh]. split; [split|]; cbn in *.
    - apply queue_accounted; try done. apply owner_invariant_true. unfold owner_of. cbn. rewrite dict_get_set_eq.
      exists o. split_and!; try done; [apply is_same_refl|cbn; by rewrite bool_decide_eq_true_2].
    - intros id'. rewrite dict_get_set. case_bool_decide as E; [by subst|]. apply Hiss.
    - intros k' Hk'. destruct (decide (k' = k)) as [->|Hne].
      + right. unfold owner_of. cbn. rewrite dict_get_set_eq. by eexists.
      + destruct (Hh k' Hk') as [[?|?]|Hin]; [by left| |].
        * right. unfold owner_of. cbn. by rewrite dict_get_set_ne by done.
        * cbn in Hin. by apply list_elem_of_singleton in Hin. }
  apply all_settled_but in H1.
  destruct (_reservation_is_well_formed (content r)); cbn; apply all_settled_but; by apply (settled_frame None s1).
Qed.

Lemma bind_settled t e adapter r fence :
  vt_fencing_token (content t) = VStr fence →
  triple (settled_but r) (_bind_reservation_locked operations t e adapter r) (λ _, all_settled) (λ _ _, False).
Proof using lawful.
  intros Hf [s w] Hs. unfold _bind_reservation_locked. destruct r as [r|]; [|by apply all_settled_but].
  rewrite run_state. case_bool_decide as Hown.
  - cbn. apply all_settled_but. eapply settled_more; [exact Hs|]. intros k Hk. left.
    apply list_elem_of_singleton in Hk as ->. by right.
  - apply eq_None_not_Some in Hown.
    assert (∀ s1 w1, settled_but (Some r) (s1, w1) → owner_of (_reservation_key r) s1 = None →
              match (id ← _queue_new_pending_release_locked operations r (_reservation_key r)
                            (vt_fencing_token (content t)); mret (@None (ref CredentialLease), Some id)) (s1, w1) with
              | (sw, Ok _) => all_settled sw | (_, Err _) => False end) as Hqueue.
    { intros s1 w1 H1 Ho. rewrite Hf, st_bind_eq. pose proof (queue_settled r fence (s1, w1) (conj H1 Ho)) as H.
      by destruct (_queue_new_pending_release_locked _ _ _ _ _) as [sw [id|]]. }
    rewrite st_bind_eq. pose proof (binding_settled (Some r) (content t) (content e) (s, w) Hs) as Hb.
    assert ((_allocation_binding_invariant operations (content t) (content e) (s, w)).1.1 = s) as Hstate.
    { unfold _allocation_binding_invariant. destruct (allocation_bound _ _); [|done]. rewrite st_bind_eq. unfold now.
      cbn. by destruct (datetime_now operations w). }
    destruct (_allocation_binding_invariant _ _ _ _) as [[s1 w1] [bound|]]; [|done]. cbn in Hstate. subst s1.
    destruct (negb _); [by apply Hqueue|]. destruct (_ || _); [by apply Hqueue|].
    rewrite st_bind_eq. unfold token. cbn. destruct (token_urlsafe operations w1) as [w2 id] eqn:Ht.
    destruct (token_settled (Some r) s w1 w2 id Hb Ht) as (Hs2 & [Hr Hp] & Hi). rewrite run_new.
    set (lease := Ref _ _). destruct (record_texts _ _ _) as [texts|]; [|apply Hqueue; [by apply settled_next|done]].
    rewrite run_new, run_update. cbn [mret st_ret]. apply all_settled_but.
    set (rec := lease_record _ _ _ _ _ _ _ _).
    assert (record_ok rec ∧ lc_state rec = LEASE_RESERVED ∧ lc_pending_release_id rec = None
            ∧ lc_reservation_key rec = _reservation_key r ∧ lc_fencing_token rec = VStr fence ∧ lc_lease_id rec = id)
      as (Hok & Hst & Hpe & Hke & Hfe & Hle).
    { unfold rec, lease_record. destruct texts as [[[??]?]?]. by split_and!. }
    destruct Hs2 as [[Ha Hiss] Hh]. split; [split|]; cbn in *.
    + apply store_accounted; try done; [apply (accounted_frame s); [done..| |done]; apply (ac_verification s Ha)| |].
      * cbn. by rewrite Hle.
      * cbn. rewrite Hf, Hfe. cbn. by rewrite bool_decide_eq_true_2.
    + intros id'. rewrite Hle, dict_get_set. case_bool_decide as E; [by rewrite <- E|]. apply Hiss.
    + intros k Hk. destruct (Hh k Hk) as [[?|?]|Hin%list_elem_of_singleton]; [by left; left| |]; left; right; unfold owner_of; cbn;
        rewrite dict_get_set; case_bool_decide; try done; by eexists.
Qed.

(** The release of a lease begins. *)
Lemma transition_settled record :
  triple (λ sw, all_settled sw ∧ record_ok (content record)) (_transition_lease_release_locked operations record)
    (λ _, all_settled) (λ _ _, False).
Proof using lawful.
  intros [s w] [Hs Hok]. unfold _transition_lease_release_locked. rewrite run_state. cbn [fst].
  destruct (owner_of _ s) as [owner|] eqn:Hown; [|exact Hs].
  destruct (lease_owned _ _ s) eqn:Hl; [|exact Hs]. apply all_settled_but in Hs.
  rewrite st_bind_eq. unfold token. cbn. destruct (token_urlsafe operations w) as [w' id] eqn:Ht.
  destruct (token_settled None s w w' id Hs Ht) as (Hs' & [Hr Hp] & Hi). rewrite !run_new, run_update. cbn [mret st_ret].
  set (pending := Ref _ (lease_pending _ _ _)). set (record' := Ref _ (record_with _ _ _ _)).
  destruct Hs' as [[Ha Hiss] Hh]. set (s0 := with_next _ _).
  assert (accounted s0) as Ha0 by (apply (accounted_frame s); [done..|apply (ac_verification s Ha)|done]).
  split; [split|]; cbn in *.
  - by apply release_accounted.
  - intros id'. rewrite !dict_get_set. case_bool_decide as E1; case_bool_decide as E2; subst; auto.
    intros _. apply Hiss. left. apply owner_invariant_true in Hl as (o & Ho & _ & Hoid & _ & _ & Hph & _).
    pose proof (ac_owner s Ha _ _ Ho) as [_ Hm]. rewrite Hph, Hoid in Hm. destruct Hm as (r2 & Hr2 & _). by eexists.
  - intros k Hk. destruct (Hh k Hk) as [[?|?]|?%elem_of_nil]; [by left| |done]. right. unfold owner_of. cbn.
    rewrite dict_get_set. case_bool_decide; [by eexists|done].
Qed.

Lemma retry_preserves id : preserves (_retry_pending_release operations id).
Proof using lawful.
  intros sw Hs. unfold _retry_pending_release. rewrite run_state.
  destruct (dict_get id (_pending_releases sw.1)) as [pending|] eqn:Hp; [|exact Hs]. set (p := content pending).
  pose proof Hs as [[Ha _] _]. destruct (ac_pending _ Ha _ _ Hp) as (Hid & Hkey & Hown). fold p in Hid, Hkey, Hown.
  rewrite Hown. cbn [negb]. rewrite st_bind_eq. unfold _release_reservation.
  rewrite st_bind_eq. unfold st_catch. pose proof (lw_release lawful (pr_reservation p) sw Hs) as Hrel.
  destruct (release_reservation operations (pr_reservation p) sw) as [sw1 [v|e]]; cbn [mret st_ret negb]; [|exact Hrel].
  destruct Hrel as [Hs1 Hv]. destruct v as [|[]| | | | |]; try exact Hs1. cbn [negb]. rewrite run_state.
  destruct (negb _ || _) eqn:Hcur; [exact Hs1|]. apply orb_false_iff in Hcur as [Hcur%negb_false_iff Hown1%negb_false_iff].
  destruct (dict_get id (_pending_releases sw1.1)) as [q|] eqn:Hq; [|done].
  destruct sw1 as [s1 w1]. rewrite run_update, run_state. cbn [fst snd] in *.
  set (n := _next_address (drop_pending id p s1)). set (rec := λ r, Ref n r : ref LeaseRecord).
  assert (all_settled (finish_release id p rec s1, w1)) as Hfin.
  { destruct Hs1 as [[Ha1 Hi1] Hh1]. destruct (drop_pending_parts id p s1) as (Eo & Ep & Er & _).
    assert (_reservation_owners (finish_release id p rec s1) = dict_del (pr_reservation_key p) (_reservation_owners s1)
            ∧ _pending_releases (finish_release id p rec s1) = dict_del id (_pending_releases s1)) as [Eo' Ep'].
    { unfold finish_release. by destruct (released_record _ _ _) as [[??]|]. }
    split; [split|]; cbn in *.
    - by apply (finish_accounted s1 id p q).
    - intros id' [Hr|Hr]; apply Hi1; [left|right].
      + revert Hr. unfold finish_release. destruct (released_record _ _ _) as [[l r]|] eqn:El; cbn; rewrite Er; [|done].
        rewrite dict_get_set. case_bool_decide as E; [|done]. intros _.
        apply released_record_Some in El as (_ & Hl & _). rewrite Er in Hl. subst. by eexists.
      + rewrite Ep', dict_get_del in Hr by apply Ha1. case_bool_decide; [by destruct Hr|done].
    - intros k Hk. unfold settled, owner_of. cbn. rewrite Eo', dict_get_del by apply Ha1.
      case_bool_decide as E; [|by apply Hh1]. left. rewrite <- E, <- Hkey. by apply Hv. }
  unfold finish_release in Hfin. destruct (released_record _ _ _) as [[l r]|]; [|exact Hfin].
  rewrite st_bind_eq, run_new. cbn [update fst snd mret st_ret].
  apply all_settled_but. apply all_settled_but in Hfin. by eapply (settled_frame None); [..|exact Hfin].
Qed.

Lemma queued_preserves id : preserves (retry_queued operations id).
Proof using lawful.
  destruct id as [id|]; [|by apply triple_ret]. apply allocator_preserves_bind; [apply retry_preserves|]. intros ?. by apply triple_ret.
Qed.

Lemma guarded_preserves b : preserves (guarded b).
Proof. by apply preserves_pure. Qed.

Lemma denied_preserves {A} : preserves (@denied W A).
Proof. by apply preserves_pure. Qed.

Lemma allocate_preserves t e : preserves (allocate operations t e).
Proof using lawful.
  destruct t as [t|]; [|apply denied_preserves]. destruct e as [e|]; [|apply denied_preserves]. cbn.
  intros sw Hs. rewrite st_bind_eq. apply all_settled_but in Hs.
  pose proof (binding_settled None (content t) (content e) sw Hs) as Hb.
  assert (∀ b sw', _allocation_binding_invariant operations (content t) (content e) sw = (sw', Ok b) → b = true →
            ∃ fence, vt_fencing_token (content t) = VStr fence) as Hfence.
  { intros b sw'. unfold _allocation_binding_invariant. destruct (allocation_bound _ _) eqn:Hbound; [|naive_solver].
    intros _ _. by eapply bound_fence. }
  destruct (_allocation_binding_invariant _ _ _ sw) as [sw1 [b|]]; [|done]. specialize (Hfence b sw1 eq_refl).
  apply all_settled_but in Hb. destruct b; [|exact Hb]. destruct (Hfence eq_refl) as [fence Hf]. clear Hfence.
  revert sw1 Hb. change (preserves (adapter ← or_denied (adapter_id operations);
    _ ← guarded (match adapter with VStr s => nonempty s | _ => false end
                 && py_eq adapter (ce_provider_adapter_id (content e)));
    reservation ← or_denied (reserve_capability_atomically operations (vt_capability_binding_digest (content t)) e);
    '(lease, pending_release_id) ← _bind_reservation_locked operations t e adapter reservation;
    _ ← retry_queued operations pending_release_id;
    match lease with Some l => mret l | None => denied end)).
  apply allocator_preserves_bind; [apply preserves_or_denied, (lw_adapter lawful)|]. intros adapter.
  apply allocator_preserves_bind; [apply guarded_preserves|]. intros _.
  eapply triple_bind with (Q := settled_but).
  { intros sw1 H1. unfold or_denied, st_catch. pose proof (lw_reserve lawful (vt_capability_binding_digest (content t)) e sw1 H1) as H.
    by destruct (reserve_capability_atomically _ _ _ sw1) as [sw2 [r|]]. }
  intros r. eapply triple_bind with (Q := λ _, all_settled).
  { eapply triple_conseq; [by eapply bind_settled|done|done|done]. }
  intros [lease id]. apply allocator_preserves_bind; [apply queued_preserves|]. intros _.
  destruct lease; [by apply triple_ret|apply denied_preserves].
Qed.

Lemma records_get_Some v s r : records_get v s = Ok (Some r) → ∃ id, v = VStr id ∧ dict_get id (_records s) = Some r.
Proof. unfold records_get. destruct (py_hashable v); [|done]. destruct v; try done. intros [= ?]. by eexists. Qed.

Lemma revoke_preserves lease : preserves (revoke operations lease).
Proof using lawful.
  destruct lease as [lease|]; [|by apply triple_ret]. apply allocator_preserves_bind; [|intros id; apply queued_preserves].
  intros sw Hs. unfold revoke_locked. rewrite run_state, st_bind_eq. unfold st_lift.
  destruct (records_get _ _) as [[record|]|] eqn:Hg; [|exact Hs..]. apply records_get_Some in Hg as (id & _ & Hid).
  destruct (negb _); [exact Hs|]. destruct (lc_state (content record)); [|exact Hs|exact Hs].
  destruct (_has_active_lease_binding_verification record sw.1).
  - rewrite st_bind_eq. destruct (dict_get (lc_lease_id (content record)) (_deferred_lease_binding_revokes sw.1)); [exact Hs|].
    cbn. apply all_settled_but. apply all_settled_but in Hs.
    destruct sw as [s w]. by apply (settled_frame None s).
  - pose proof (transition_settled record sw) as H.
    assert (all_settled sw ∧ record_ok (content record)) as Hp.
    { split; [exact Hs|]. by destruct (ac_record _ (proj1 (proj1 Hs)) _ _ Hid) as (_ & ? & _). }
    specialize (H Hp). by destruct (_transition_lease_release_locked _ _ _) as [sw' [?|?]].
Qed.

Lemma recover_preserves lease e : preserves (recover operations lease e).
Proof using lawful.
  destruct lease as [lease|]; [|apply denied_preserves]. destruct e as [e|]; [|apply denied_preserves]. cbn.
  apply allocator_preserves_bind; [apply guarded_preserves|]. intros _. apply allocator_preserves_bind.
  - apply preserves_pure. intros sw. unfold recover_locked. rewrite run_state.
    destruct (dict_get _ _) as [record|]; [|done]. unfold guarded. rewrite bind_require.
    destruct (_ && _); [|done]. destruct (lc_state _); rewrite ?bind_require; try done.
    + by destruct (py_eq_str _ _).
    + destruct (py_eq_str _ _); [|done]. by destruct (lc_pending_release_id _).
  - intros [st|id]; [by apply triple_ret|]. apply allocator_preserves_bind; [apply retry_preserves|]. intros _.
    apply preserves_pure. intros sw. rewrite run_state, st_bind_eq. unfold st_lift.
    destruct (records_get _ _) as [[record|]|]; try done. unfold guarded. rewrite bind_require. by destruct (is_same _ _).
Qed.

Lemma recover_pending_preserves : preserves (recover_pending_releases operations).
Proof using lawful.
  apply allocator_preserves_bind; [by apply preserves_pure|]. intros s. apply allocator_preserves_bind.
  - induction (dict_keys _) as [|id ids IH]; [by apply triple_ret|]. apply allocator_preserves_bind; [apply retry_preserves|done].
  - intros _. by apply preserves_pure.
Qed.

(** A read of the clock, and the state it leaves. *)
Lemma receipt_invariant_run record lease t e :
  triple all_settled (_receipt_binding_invariant operations record lease t e) (λ _, all_settled) (λ _ _, False)
  ∧ ∀ s w, (_receipt_binding_invariant operations record lease t e (s, w)).1.1 = s.
Proof using lawful.
  unfold _receipt_binding_invariant. destruct record as [record|]; [|split; [by apply triple_ret|done]].
  destruct (record_current _ _ _ _); [|split; [by apply triple_ret|done]]. split.
  - eapply triple_bind with (Q := λ _, all_settled); [|by intros b sw Hs].
    intros sw Hs. apply all_settled_but in Hs. pose proof (binding_settled None (content t) (content e) sw Hs) as H.
    destruct (_allocation_binding_invariant _ _ _ sw) as [sw' [b|]]; [by apply all_settled_but|done].
  - intros s w. rewrite st_bind_eq. unfold _allocation_binding_invariant. destruct (allocation_bound _ _); [|done].
    rewrite st_bind_eq. unfold now. cbn. by destruct (datetime_now operations w).
Qed.

Lemma active_invariant_run active :
  triple all_settled (_active_lease_binding_verification_invariant operations active) (λ _, all_settled) (λ _ _, False)
  ∧ ∀ s w, (_active_lease_binding_verification_invariant operations active (s, w)).1.1 = s.
Proof using lawful.
  unfold _active_lease_binding_verification_invariant. destruct active as [a|]; [|split; [by apply triple_ret|done]].
  split.
  - intros [s w] Hs. rewrite run_state. destruct (_ && _); [|exact Hs].
    by apply (receipt_invariant_run (Some (vr_lease_record (content a)))).
  - intros s w. rewrite run_state. destruct (_ && _); [|done]. apply receipt_invariant_run.
Qed.

Lemma issue_preserves lease t e : preserves (issue_lease_binding_receipt operations lease t e).
Proof using lawful.
  destruct lease as [lease|]; [|apply denied_preserves]. destruct t as [t|]; [|apply denied_preserves].
  destruct e as [e|]; [|apply denied_preserves]. intros [s w] Hs. cbn. rewrite run_state, st_bind_eq. unfold st_lift.
  destruct (records_get _ _) as [record|] eqn:Hg; [|exact Hs]. rewrite st_bind_eq.
  destruct (receipt_invariant_run record lease t e) as [Ht Hst]. specialize (Ht (s, w) Hs). specialize (Hst s w).
  destruct (_receipt_binding_invariant _ _ _ _ _ _) as [[s1 w1] [b|]]; [|done]. cbn in Hst. subst s1.
  unfold guarded. rewrite bind_require. destruct b; [|exact Ht]. destruct record as [record|]; [|exact Ht].
  destruct (lc_receipt (content record)); [exact Ht|]. rewrite !run_new, run_update. cbn [mret st_ret].
  apply records_get_Some in Hg as (id & _ & Hid). destruct Ht as [[Ha Hi] Hh]. cbn [fst] in Hid.
  pose proof (ac_record s Ha _ _ Hid) as (Hl & _). set (record' := Ref _ (with_receipt _ _)).
  split; [split|]; cbn in *.
  - eapply (accounted_frame (with_records (dict_set (lc_lease_id (content record)) record' (_records s)) s)); try done.
    + apply (ac_verification s Ha).
    + by eapply receipt_accounted.
  - intros id'. rewrite dict_get_set. case_bool_decide as E; [|apply Hi]. intros _. apply Hi. left.
    rewrite <- E, Hl, Hid. by eexists.
  - exact Hh.
Qed.

Lemma verify_preserves receipt lease t e : preserves (verify_lease_binding_receipt operations receipt lease t e).
Proof using lawful.
  destruct receipt as [receipt|]; [|apply denied_preserves]. destruct lease as [lease|]; [|apply denied_preserves].
  destruct t as [t|]; [|apply denied_preserves]. destruct e as [e|]; [|apply denied_preserves].
  apply preserves_or_denied. intros [s w] Hs. rewrite run_state, st_bind_eq. unfold st_lift.
  destruct (records_get _ _) as [[record|]|] eqn:Hg; [|exact Hs..]. unfold guarded. rewrite bind_require.
  destruct (same_receipt _ _); [|exact Hs]. rewrite st_bind_eq.
  destruct (receipt_invariant_run (Some record) lease t e) as [Ht Hst]. specialize (Ht (s, w) Hs). specialize (Hst s w).
  destruct (_receipt_binding_invariant _ _ _ _ _ _) as [[s1 w1] [b|]]; [|done]. cbn in Hst. subst s1.
  rewrite bind_require. destruct (_ && _); [|exact Ht]. rewrite run_new, st_bind_eq. unfold st_lift.
  apply all_settled_but in Ht. destruct (_lease_binding_reference_for_record _) as [ref|].
  - rewrite run_new, run_update. cbn [mret st_ret]. apply all_settled_but. destruct Ht as [[Ha Hi] Hh]. split; [split|]; cbn in *.
    + eapply (accounted_frame s); try done. intros v a [Hin|[= _ ->]%list_elem_of_singleton]%elem_of_app.
      * by apply (ac_verification s Ha v a).
      * cbn. apply records_get_Some in Hg as (id & _ & Hid). by destruct (ac_record s Ha _ _ Hid) as (_ & ? & _).
    + exact Hi.
    + exact Hh.
  - apply all_settled_but. by apply settled_next.
Qed.

Lemma reference_preserves v : preserves (lease_binding_reference_for operations v).
Proof using lawful.
  apply preserves_or_denied. intros [s w] Hs. rewrite run_state, st_bind_eq.
  destruct (active_invariant_run (v' ← v; verification_of v' s)) as [Ht Hst]. specialize (Ht (s, w) Hs). cbn [fst].
  destruct (_active_lease_binding_verification_invariant _ _ _) as [sw [b|]]; [|done]. unfold guarded. rewrite bind_require.
  destruct b; [|exact Ht]. by destruct (_ ≫= _).
Qed.

Lemma verification_of_elem v s a : verification_of v s = Some a → ∃ k, (k, a) ∈ _active_lease_binding_verifications s.
Proof.
  unfold verification_of. destruct (List.find _ _) as [[k a']|] eqn:E; [|done]. intros [= <-]. exists k.
  apply list_elem_of_In. by apply find_some in E as [? _].
Qed.

Lemma close_locked_preserves v : preserves (close_locked operations v).
Proof using lawful.
  intros [s w] Hs. unfold close_locked. rewrite run_state. cbn [fst].
  destruct (v' ← v; verification_of v' s) as [active|] eqn:Hv; [|exact Hs].
  destruct (match v with Some v' => is_same (vr_verification (content active)) v' | None => false end); [|exact Hs].
  rewrite st_bind_eq. destruct (active_invariant_run (Some active)) as [Ht Hst]. specialize (Ht (s, w) Hs). specialize (Hst s w).
  destruct (_active_lease_binding_verification_invariant _ _ _) as [[s1 w1] [current|]]; [|done]. cbn in Hst. subst s1.
  rewrite run_update. set (v0 := vr_verification (content active)).
  assert (all_settled (forget_verification v0 s, w1)) as H1.
  { destruct Ht as [[Ha Hi] Hh]. split; [split|exact Hh]; [|exact Hi]. eapply (accounted_frame s); try done.
    intros k a [Hin%list_elem_of_In _]%list_elem_of_In%filter_In. by apply (ac_verification s Ha k a). }
  assert (record_ok (content (vr_lease_record (content active)))) as Hok.
  { destruct v as [v'|]; [|done]. cbn in Hv. apply verification_of_elem in Hv as [k Hk].
    by apply (ac_verification s (proj1 (proj1 Hs)) k active). }
  destruct (dict_get (lc_lease_id _) (_deferred_lease_binding_revokes s)) as [deferred|];
    [destruct (is_same deferred _)|]; lazy iota; rewrite ?run_update, ?run_ret; destruct (negb current); try exact H1.
  - apply all_settled_but. apply all_settled_but in H1. by apply (settled_frame None (forget_verification v0 s)).
  - rewrite st_bind_eq. set (s2 := with_deferred _ _). assert (all_settled (s2, w1)) as H2.
    { apply all_settled_but. apply all_settled_but in H1. by apply (settled_frame None (forget_verification v0 s)). }
    pose proof (transition_settled _ _ (conj H2 Hok)) as H.
    by destruct (_transition_lease_release_locked _ _ _) as [sw' [?|?]].
Qed.

Lemma close_preserves v : preserves (close_lease_binding_verification operations v).
Proof using lawful.
  apply allocator_preserves_bind; [apply preserves_or_denied, close_locked_preserves|]. intros [id denied].
  apply allocator_preserves_bind; [apply guarded_preserves|]. intros _. apply queued_preserves.
Qed.

(** ** Sequences of calls *)

Inductive call :=
  | CallAllocate (t : option (ref ValidatedAllocationTicket)) (e : option (ref CapacityEvidence))
  | CallRevoke (lease : option (ref CredentialLease))
  | CallRecover (lease : option (ref CredentialLease)) (e : option TransactionEvidence)
  | CallRecoverPending
  | CallIssue (lease : option (ref CredentialLease)) (t : option (ref ValidatedAllocationTicket))
      (e : option (ref CapacityEvidence))
  | CallVerify (receipt : option (ref LeaseBindingReceiptV1)) (lease : option (ref CredentialLease))
      (t : option (ref ValidatedAllocationTicket)) (e : option (ref CapacityEvidence))
  | CallReference (v : option LeaseBindingVerificationV1)
  | CallClose (v : option LeaseBindingVerificationV1).

(** A call, whatever it returns or raises. *)
Definition run_call (sw : AllocatorState * W) (c : call) : AllocatorState * W :=
  match c with
  | CallAllocate t e => (allocate operations t e sw).1
  | CallRevoke lease => (revoke operations lease sw).1
  | CallRecover lease e => (recover operations lease e sw).1
  | CallRecoverPending => (recover_pending_releases operations sw).1
  | CallIssue lease t e => (issue_lease_binding_receipt operations lease t e sw).1
  | CallVerify receipt lease t e => (verify_lease_binding_receipt operations receipt lease t e sw).1
  | CallReference v => (lease_binding_reference_for operations v sw).1
  | CallClose v => (close_lease_binding_verification operations v sw).1
  end.

Lemma preserves_run {A} (m : M A) sw : preserves m → all_settled sw → all_settled (m sw).1.
Proof. intros H Hs. specialize (H sw Hs). by destruct (m sw) as [sw' [a|e]]. Qed.

Lemma run_call_settled sw c : all_settled sw → all_settled (run_call sw c).
Proof using lawful.
  intros Hs. destruct c; cbn; apply preserves_run; try exact Hs.
  - apply allocate_preserves.
  - apply revoke_preserves.
  - apply recover_preserves.
  - apply recover_pending_preserves.
  - apply issue_preserves.
  - apply verify_preserves.
  - apply reference_preserves.
  - apply close_preserves.
Qed.

Lemma run_calls_settled sw calls : all_settled sw → all_settled (foldl run_call sw calls).
Proof using lawful. revert sw. induction calls as [|c calls IH]; [done|]. intros sw Hs. by apply IH, run_call_settled. Qed.

(** Whoever owns a key can be found. *)
Lemma owned_by sw k : all_settled sw → is_Some (owner_of k sw.1) →
  (∃ id record, dict_get id (_records sw.1) = Some record ∧ lc_state (content record) = LEASE_RESERVED
                ∧ lc_reservation_key (content record) = k)
  ∨ (∃ id p, dict_get id (_pending_releases sw.1) = Some p ∧ pr_reservation_key (content p) = k).
Proof.
  intros [[Ha _] _] [o [_ Hm]%(ac_owner _ Ha)]. destruct (ro_phase o); [left|right|done].
  - destruct Hm as (r & ? & ? & ?). by exists (ro_owner_id o), r.
  - destruct Hm as (p & ? & ?). by exists (ro_owner_id o), p.
Qed.

(** A provider that confirms every release, while no other thread uses the
    allocator. *)
Definition confirms : Prop :=
  ∀ r s w, ∃ w', release_reservation operations r (s, w) = ((s, w'), Ok (VBool true)).

Lemma retry_confirmed id sw p : confirms → all_settled sw → dict_get id (_pending_releases sw.1) = Some p →
  ∃ sw', _retry_pending_release operations id sw = (sw', Ok true)
    ∧ _pending_releases sw'.1 = dict_del id (_pending_releases sw.1).
Proof.
  intros Hc Hs Hp. destruct sw as [s w]. cbn in Hp. pose proof Hs as [[Ha _] _].
  destruct (ac_pending _ Ha _ _ Hp) as (_ & _ & Hown). cbn [fst] in Hown. destruct (Hc (pr_reservation (content p)) s w) as [w' Hrel].
  unfold _retry_pending_release. rewrite run_state. cbn [fst]. rewrite Hp, Hown. cbn [negb].
  rewrite st_bind_eq. unfold _release_reservation. rewrite st_bind_eq. unfold st_catch. rewrite Hrel. cbn [mret st_ret negb].
  rewrite run_state. cbn [fst]. rewrite Hp, is_same_refl, Hown. cbn [negb orb]. rewrite run_update, run_state. cbn [fst].
  destruct (drop_pending_parts id (content p) s) as (_ & Ep & _).
  destruct (released_record _ _ _) as [[l r]|]; (eexists; split; [reflexivity|]); exact Ep.
Qed.

Lemma retry_each_confirmed sw : confirms → all_settled sw →
  ∃ sw', retry_each operations (dict_keys (_pending_releases sw.1)) sw = (sw', Ok ())
    ∧ _pending_releases sw'.1 = [] ∧ all_settled sw'.
Proof using lawful.
  intros Hc. remember (_pending_releases sw.1) as ps eqn:E. revert sw E.
  induction ps as [|[id p] ps IH]; intros sw E Hs; [by exists sw|]. cbn [dict_keys fmap list_fmap retry_each fst].
  assert (dict_get id (_pending_releases sw.1) = Some p) as Hp by (rewrite <- E; cbn; by rewrite bool_decide_eq_true_2).
  destruct (retry_confirmed id sw p Hc Hs Hp) as (sw1 & Hr & Ep). rewrite st_bind_eq.
  pose proof (retry_preserves id sw Hs) as Hs1. rewrite Hr in Hs1 |- *. apply (IH sw1); [|exact Hs1].
  rewrite Ep, <- E. cbn. by rewrite bool_decide_eq_true_2.
Qed.

Lemma recovery_drains sw : confirms → all_settled sw →
  ∃ sw', recover_pending_releases operations sw = (sw', Ok 0) ∧ _pending_releases sw'.1 = [] ∧ all_settled sw'.
Proof using lawful.
  intros Hc Hs. destruct (retry_each_confirmed sw Hc Hs) as (sw' & H & Ep & Hs'). exists sw'. split; [|done].
  unfold recover_pending_releases. rewrite run_state, st_bind_eq, H, run_state, Ep. done.
Qed.

(** C11: no reservation is lost.  Whatever the callers do and however their
    calls end, every reservation the provider handed over has been released
    with its confirmation, or belongs to a reserved lease or to a pending
    release; and once the provider confirms releases, recovering the pending
    ones leaves none, so that each reservation is leased or released. *)
Theorem reservations_accounted calls sw :
  all_settled sw →
  let sw1 := foldl run_call sw calls in
  (∀ k, handed sw1.2 k → released sw1.2 k
     ∨ (∃ id record, dict_get id (_records sw1.1) = Some record ∧ lc_state (content record) = LEASE_RESERVED
                     ∧ lc_reservation_key (content record) = k)
     ∨ (∃ id p, dict_get id (_pending_releases sw1.1) = Some p ∧ pr_reservation_key (content p) = k))
  ∧ (confirms → ∃ sw2, recover_pending_releases operations sw1 = (sw2, Ok 0) ∧ _pending_releases sw2.1 = []
     ∧ ∀ k, handed sw2.2 k → released sw2.2 k
         ∨ ∃ id record, dict_get id (_records sw2.1) = Some record ∧ lc_state (content record) = LEASE_RESERVED
                        ∧ lc_reservation_key (content record) = k).
Proof using lawful.
  intros Hs. pose proof (run_calls_settled sw calls Hs) as H1. cbv zeta. split.
  - intros k Hk. destruct (proj2 H1 k Hk) as [?|Ho]; [by left|right]. by apply owned_by.
  - intros Hc. destruct (recovery_drains _ Hc H1) as (sw2 & Hr & Ep & H2). exists sw2. split_and!; [done|done|].
    intros k Hk. destruct (proj2 H2 k Hk) as [?|Ho]; [by left|right].
    destruct (owned_by _ _ H2 Ho) as [?|(id & p & Hp & _)]; [done|]. by rewrite Ep in Hp.
Qed.
End accounting.

(** ** What a lease is bound to *)

(** [s] is the state in which the answer of the provider is bound, [s'] the one
    it leaves. *)
Record bound_to (t : ref ValidatedAllocationTicket) (e : ref CapacityEvidence) (r : ref AccountReservation)
  (lease : ref CredentialLease) (s s' : AllocatorState) : Prop := {
  bt_ticket : allocation_bound (content t) (content e) = true;
  bt_evidence : evidence_of_ticket (content t) (content e) = true;
  bt_reservation : _reservation_matches_evidence (content r) e = true;
  bt_unowned : owner_of (_reservation_key r) s = None;
  bt_newer : ∀ evidence revision,
    dict_get (text_of (ar_account_binding_digest (content r))) (_latest_by_account s) = Some (evidence, revision) →
    evidence < int_of (ce_evidence_revision (content e)) ∧ revision < int_of (ar_lease_revision (content r));
  bt_units : let active := default [] (dict_get (text_of (ar_account_binding_digest (content r))) (_active_by_account s)) in
    active = [] ∨ Z.of_nat (length active) < units (content e);
  bt_latest : dict_get (text_of (ar_account_binding_digest (content r))) (_latest_by_account s')
    = Some (int_of (ce_evidence_revision (content e)), int_of (ar_lease_revision (content r)));
  bt_record : ∃ record, dict_get (lease_id_of (content record)) (_records s') = Some record
    ∧ lc_lease (content record) = lease ∧ lc_reservation (content record) = r ∧ lc_ticket (content record) = t
    ∧ lc_capacity_evidence (content record) = e ∧ lc_state (content record) = LEASE_RESERVED
    ∧ lease_owned (lease_id_of (content record)) (content record) s' = true;
}.

Lemma binding_invariant_true {W} (operations : AllocatorOperations W) t e s w sw :
  _allocation_binding_invariant operations t e (s, w) = (sw, Ok true) →
  sw = (s, (datetime_now operations w).1) ∧ allocation_bound t e = true ∧ evidence_of_ticket t e = true
  ∧ fresh_at (datetime_now operations w).2 e = true.
Proof.
  unfold _allocation_binding_invariant. destruct (allocation_bound t e); [|done]. rewrite st_bind_eq. unfold now. cbn.
  destruct (datetime_now operations w) as [w' d]. intros [= <- [Hf He]%andb_true_iff]. done.
Qed.

Lemma bind_lease {W} (operations : AllocatorOperations W) t e adapter reservation s w sw lease id :
  _bind_reservation_locked operations t e adapter reservation (s, w) = (sw, Ok (Some lease, id)) →
  id = None ∧ ∃ r, reservation = Some r ∧ fresh_at (datetime_now operations w).2 (content e) = true
                   ∧ bound_to t e r lease s sw.1.
Proof.
  unfold _bind_reservation_locked. destruct reservation as [r|]; [|done]. rewrite run_state. cbn [fst].
  destruct (bool_decide (is_Some _)) eqn:Hun; [done|]. apply bool_decide_eq_false, eq_None_not_Some in Hun.
  set (queue := (_ ← _queue_new_pending_release_locked _ _ _ _; _)).
  assert (∀ s1 sw1, queue s1 ≠ (sw1, Ok (Some lease, id))) as Hq.
  { intros s1 sw1. unfold queue. rewrite st_bind_eq. by destruct (_queue_new_pending_release_locked _ _ _ _ s1) as [? [?|?]]. }
  rewrite st_bind_eq. destruct (_allocation_binding_invariant _ _ _ _) as [sw1 [bound|]] eqn:Hb; [|done].
  destruct bound; [|intros H; by apply Hq in H].
  apply binding_invariant_true in Hb as (-> & Ht & He & Hf). cbn [andb].
  destruct (negb _) eqn:Hm; [intros H; by apply Hq in H|]. apply negb_false_iff, andb_true_iff in Hm as [_ Hm].
  destruct (_ || _) eqn:Hn; [intros H; by apply Hq in H|]. apply orb_false_iff in Hn as [Hsup Hex].
  rewrite st_bind_eq. unfold token. cbn. destruct (token_urlsafe operations _) as [w2 tok]. rewrite run_new.
  set (new_lease := Ref _ _). destruct (record_texts _ _ _) as [texts|]; [|intros H; by apply Hq in H].
  rewrite run_new, run_update. cbn [mret st_ret]. intros [= <- <- <-]. split; [done|]. exists r. split_and!; [done|done|].
  set (n := _next_address _). set (rec := lease_record _ _ _ _ _ _ _ _).
  assert (lc_lease_id rec = tok ∧ lc_lease rec = new_lease ∧ lc_reservation rec = r ∧ lc_ticket rec = t
          ∧ lc_capacity_evidence rec = e ∧ lc_state rec = LEASE_RESERVED ∧ lc_reservation_key rec = _reservation_key r
          ∧ lc_fencing_token rec = vt_fencing_token (content t)) as (Hl & Hle & Hr & Htk & Hce & Hst & Hk & Hfe).
  { unfold rec, lease_record. destruct texts as [[[??]?]?]. by split_and!. }
  split; try done.
  - intros ev lr Hlat. unfold superseded in Hsup. rewrite Hlat in Hsup. lia.
  - cbv zeta. unfold exhausted in Hex. apply andb_false_iff in Hex as [Hex%negb_false_iff%bool_decide_eq_true|Hex]; [left|right; lia].
    by apply length_zero_iff_nil.
  - cbn. apply dict_get_set_eq.
  - exists (Ref (n + 1) rec). cbn [content]. assert (lease_id_of rec = tok) as -> by (unfold lease_id_of; by rewrite Hle).
    split_and!; try done; cbn; rewrite ?Hl; [apply dict_get_set_eq|]. apply owner_invariant_true.
    apply bound_fence in Ht as [fence Hfence]. rewrite Hk, Hr, Hfe, Hfence. unfold owner_of. cbn. rewrite dict_get_set_eq.
    eexists. split_and!; try done; cbn; rewrite ?Hl, ?Hr; try done; [apply is_same_refl|by rewrite bool_decide_eq_true_2].
Qed.

(** C12: a lease stands for the ticket and the evidence it was asked with.  When
    allocating returns a lease, the ticket carried a consistent decision and
    offer, the evidence named the same ticket, offer, generation, fence, ledger
    and capabilities and was fresh when the reservation was bound; the
    reservation was made with that very evidence and had no owner; the revisions
    of evidence and lease are newer than the account's last ones, and the
    account's leases and pending releases are fewer than the smallest of its
    units; the record is reserved for exactly these objects. *)
Theorem allocate_bound {W} (operations : AllocatorOperations W) t e sw sw' lease :
  allocate operations (Some t) (Some e) sw = (sw', Ok lease) →
  ∃ sw0 s w r, reserve_capability_atomically operations (vt_capability_binding_digest (content t)) e sw0 = ((s, w), Ok (Some r))
    ∧ fresh_at (datetime_now operations w).2 (content e) = true ∧ bound_to t e r lease s sw'.1
    ∧ ∃ record, dict_get (lease_id_of (content record)) (_records sw'.1) = Some record
        ∧ lc_lease (content record) = lease ∧ lease_owned (lease_id_of (content record)) (content record) sw'.1 = true.
Proof.
  cbn [allocate]. intros (sw1 & b & _ & H)%st_bind_Ok. apply st_bind_Ok in H as (? & ? & _ & H).
  apply st_bind_Ok in H as (sw2 & adapter & _ & H). apply st_bind_Ok in H as (? & ? & _ & H).
  apply st_bind_Ok in H as ([s w] & reservation & Hres & H). apply st_bind_Ok in H as (sw5 & [l id] & Hb & H).
  apply st_bind_Ok in H as (sw6 & [] & Hq & H). destruct l as [l|]; [|done]. injection H as <- <-.
  apply bind_lease in Hb as (-> & r & -> & Hf & Hbt). injection Hq as <-. unfold or_denied, st_catch in Hres.
  destruct (reserve_capability_atomically _ _ _ _) as [sw7 [res|]] eqn:E; [|done]. injection Hres as -> ->.
  eexists _, s, w, r. split_and!; [exact E|exact Hf|exact Hbt|].
  pose proof (bt_record _ _ _ _ _ _ Hbt) as (record & ? & ? & _ & _ & _ & _ & Ho). by exists record.
Qed.

(** ** A concrete provider *)

Record sample_world := {
  sa_readings : Z;
  sa_tokens : nat;
  sa_handed : list string;
  sa_released : list string;
}.

Fixpoint unary (n : nat) : string := match n with O => "" | S n => String "x" (unary n) end.

Lemma unary_length n : String.length (unary n) = n.
Proof. induction n as [|n IH]; [done|]. cbn. by rewrite IH. Qed.

Definition sample_start : Z := 63900000000000000.

Definition sample_account : string :=
  "sha256:aaaaaaaaaaaaaaaaaaaaaaaaaaaaaaaaaaaaaaaaaaaaaaaaaaaaaaaaaaaaaaaa".

Definition sample_reservation (n : nat) (e : ref CapacityEvidence) : ref AccountReservation :=
  Ref (- Z.of_nat (S n))
    {| ar_reservation_id := VStr (unary (S n)); ar_account_binding_digest := VStr sample_account;
       ar_profile_binding_digest := VStr "profile"; ar_provider_adapter_id := VStr "adapter";
       ar_capacity_evidence := Some e; ar_lease_revision := VInt 1;
       ar_evidence_revision := ce_evidence_revision (content e); ar_fencing_token := ce_fencing_token (content e);
       ar_fence_epoch := ce_fence_epoch (content e); ar_expires_at_utc := ce_expires_at_utc (content e) |}.

(** The clock advances by a second with each reading, the tokens are of
    increasing length, and every release is confirmed. *)
Definition sample_operations : AllocatorOperations sample_world :=
  {| adapter_id := mret (VStr "adapter");
     reserve_capability_atomically := λ _ e sw,
       let r := sample_reservation (length (sa_handed sw.2)) e in
       ((sw.1, {| sa_readings := sa_readings sw.2; sa_tokens := sa_tokens sw.2;
                  sa_handed := _reservation_key r :: sa_handed sw.2; sa_released := sa_released sw.2 |}), Ok (Some r));
     release_reservation := λ r sw,
       ((sw.1, {| sa_readings := sa_readings sw.2; sa_tokens := sa_tokens sw.2; sa_handed := sa_handed sw.2;
                  sa_released := _reservation_key r :: sa_released sw.2 |}), Ok (VBool true));
     datetime_now := λ w,
       ({| sa_readings := sa_readings w + 1; sa_tokens := sa_tokens w; sa_handed := sa_handed w;
           sa_released := sa_released w |}, Datetime (sample_start + sa_readings w * US_PER_SECOND) (Some 0));
     token_urlsafe := λ w,
       ({| sa_readings := sa_readings w; sa_tokens := S (sa_tokens w); sa_handed := sa_handed w;
           sa_released := sa_released w |}, unary (S (sa_tokens w))) |}.

Definition sample_issued (w : sample_world) (t : string) : Prop := (String.length t <= sa_tokens w)%nat.
Definition sample_has_handed (w : sample_world) (k : string) : Prop := k ∈ sa_handed w.
Definition sample_has_released (w : sample_world) (k : string) : Prop := k ∈ sa_released w.
Definition sample_begin : sample_world :=
  {| sa_readings := 0; sa_tokens := 0; sa_handed := []; sa_released := [] |}.

Lemma sample_lawful : lawful_surroundings sample_operations sample_issued sample_has_handed sample_has_released.
Proof.
  split.
  - intros w. by split_and!.
  - intros w w' t. cbn. intros [= <- <-]. unfold quiet, sample_issued, sample_has_handed, sample_has_released. cbn.
    rewrite unary_length. split_and!; try done; lia.
  - by intros [s w] Hs.
  - intros d e [s w] [Hk Hh]. cbn. split; [exact Hk|]. intros k [->|Hin]%elem_of_cons; [right; by left|left; by apply Hh].
  - intros r [s w] [Hk Hh]. cbn. split; [|intros _; by left]. split; [exact Hk|].
    intros k Hin. destruct (Hh k Hin) as [?|?]; [left; by right|by right].
Qed.

Lemma sample_settled : all_settled sample_issued sample_has_handed sample_has_released (empty_allocator, sample_begin).
Proof.
  split; [split|].
  - split; cbn; try apply NoDup_nil_2; try done. by intros v a ?%elem_of_nil.
  - by intros id [[? ?]|[? ?]].
  - by intros k ?%elem_of_nil.
Qed.

Lemma sample_confirms : confirms sample_operations.
Proof. intros r s w. by eexists. Qed.

(** A ticket for one option, and evidence that holds for a number of seconds. *)
Definition sample_options : list SelectionOption := [decision_option sample_decision].

Definition sample_allocation_ticket : ref ValidatedAllocationTicket :=
  Ref (-1000)
    {| vt_ticket_id := VStr "ticket"; vt_resolution_decision := sample_decision;
       vt_selection_offer :=
         {| so_generation := options_digest sample_options; so_classes := ["arbeitsbiene"];
            so_lifecycles := ["ephemeral"]; so_models := ["gpt-5.6-luna"]; so_reasoning_levels := ["high"];
            so_options := sample_options |};
       vt_resolver_offer_generation := VStr (options_digest sample_options); vt_policy_generation := VInt 1;
       vt_policy_digest := VStr "policy"; vt_capability_binding_digest := VStr "capability";
       vt_ledger_revision := VInt 1; vt_phase := VStr "OFFER_VALIDATED"; vt_fencing_token := VStr "fence";
       vt_fence_epoch := VInt 1 |}.

Definition sample_capacity_evidence (seconds : Z) : ref CapacityEvidence :=
  Ref (-1001)
    {| ce_ticket_id := VStr "ticket"; ce_resolver_offer_generation := VStr (options_digest sample_options);
       ce_policy_generation := VInt 1; ce_capability_binding_digest := VStr "capability"; ce_ledger_revision := VInt 1;
       ce_fencing_token := VStr "fence"; ce_fence_epoch := VInt 1; ce_provider_adapter_id := VStr "adapter";
       ce_capacity_units := VInt 1; ce_quota_units := VInt 1; ce_cost_units := VInt 1; ce_resource_units := VInt 1;
       ce_evidence_revision := VInt 1; ce_observed_at_utc := Some (Datetime sample_start (Some 0));
       ce_expires_at_utc := Some (Datetime (sample_start + seconds * US_PER_SECOND) (Some 0)) |}.

(** Allocate, verify, revoke while the verification is open, close it. *)
Definition sample_session (seconds : Z) : ST (AllocatorState * sample_world) bool :=
  let t := Some sample_allocation_ticket in
  let e := Some (sample_capacity_evidence seconds) in
  lease ← allocate sample_operations t e;
  receipt ← issue_lease_binding_receipt sample_operations (Some lease) t e;
  v ← verify_lease_binding_receipt sample_operations (Some receipt) (Some lease) t e;
  _ ← revoke sample_operations (Some lease);
  st_catch (_ ← close_lease_binding_verification sample_operations (Some v); mret true) (λ _, mret false).

Definition session_outcome (seconds : Z) : result bool * list LeaseState * nat * bool :=
  let '(sw, r) := sample_session seconds (empty_allocator, sample_begin) in
  (r, (λ record, lc_state (content record)) <$> dict_values (_records sw.1),
   length (_deferred_lease_binding_revokes sw.1), bool_decide (sa_released sw.2 = sa_handed sw.2)).

(** A revoke waits for the verification and is carried out when it closes... *)
Example revoke_waits_for_close : session_outcome 60 = (Ok true, [LEASE_REVOKED], 0%nat, true).
Proof. vm_compute. reflexivity. Qed.

(** ... but is forgotten when the evidence has expired by then: closing is
    denied and the lease stays reserved. *)
Example expired_close_drops_revoke : session_outcome 3 = (Ok false, [LEASE_RESERVED], 0%nat, false).
Proof. vm_compute. reflexivity. Qed.

Lemma reservations_accounted_witness :
  all_settled sample_issued sample_has_handed sample_has_released (empty_allocator, sample_begin)
  ∧ confirms sample_operations
  ∧ let sw1 := foldl (run_call sample_operations) (empty_allocator, sample_begin)
                 [CallAllocate (Some sample_allocation_ticket) (Some (sample_capacity_evidence 60)); CallRevoke None] in
    ∃ sw2, recover_pending_releases sample_operations sw1 = (sw2, Ok 0) ∧ _pending_releases sw2.1 = [].
Proof.
  split; [exact sample_settled|]. split; [exact sample_confirms|].
  destruct (reservations_accounted sample_operations _ _ _ sample_lawful
              [CallAllocate (Some sample_allocation_ticket) (Some (sample_capacity_evidence 60)); CallRevoke None]
              (empty_allocator, sample_begin) sample_settled) as [_ H].
  destruct (H sample_confirms) as (sw2 & Hr & Ep & _). exists sw2. split; [exact Hr|exact Ep].
Defined.

Definition sample_allocated : (AllocatorState * sample_world) * result (ref CredentialLease) :=
  allocate sample_operations (Some sample_allocation_ticket) (Some (sample_capacity_evidence 60))
    (empty_allocator, sample_begin).

Lemma allocate_bound_witness : ∃ lease s w r,
  sample_allocated.2 = Ok lease ∧ fresh_at (datetime_now sample_operations w).2 (content (sample_capacity_evidence 60)) = true
  ∧ bound_to sample_allocation_ticket (sample_capacity_evidence 60) r lease s sample_allocated.1.1.
Proof.
  assert (match sample_allocated.2 with Ok _ => true | Err _ => false end = true) as Hok by (vm_compute; reflexivity).
  destruct (sample_allocated.2) as [lease|] eqn:E; [|done].
  destruct (allocate_bound sample_operations sample_allocation_ticket (sample_capacity_evidence 60)
              (empty_allocator, sample_begin) sample_allocated.1 lease) as (sw0 & s & w & r & _ & Hf & Hb & _).
  - unfold sample_allocated in *. rewrite <- E. apply surjective_pairing.
  - exists lease, s, w, r. exact (conj eq_refl (conj Hf Hb)).
Defined.
