(* ===== verification/WorkerResume.v ===== *)
(** * Worker resume values

    [src/src/the_hive/worker_resume.py]: the capsule a worker leaves when it is
    resumable, the request that resumes it, the checks at the end of a worker,
    and the request over the transaction port.  An argument the code tests with
    [type(value) is C] is an option, [None] for a value of any other class. *)

From S2P Require Import Prelude Json.
#[local] Open Scope Z_scope.

Definition resume_denied {A} (message : string) : result A := Err (ResumeDenied message).

Inductive WorkerLifecycle := EPHEMERAL | INVOCATION | BINDING | PERSISTENT.
#[export] Instance WorkerLifecycle_eq_dec : EqDecision WorkerLifecycle.
Proof. solve_decision. Defined.

Definition WorkerLifecycle_value (l : WorkerLifecycle) : string :=
  match l with
  | EPHEMERAL => "ephemeral" | INVOCATION => "invocation" | BINDING => "binding" | PERSISTENT => "persistent"
  end.

(** [ResumeRequestPhase] has one member. *)
Inductive ResumeRequestPhase := RESUME_REQUESTED.

Definition _require_digest (v : pyval) (f : string) : result string :=
  match v with
  | VStr s => if is_sha256_digest s then Ok s else resume_denied ("invalid " +:+ f)
  | _ => resume_denied ("invalid " +:+ f)
  end.

Definition _require_request_id (v : pyval) : result string :=
  match v with
  | VStr s => if bool_decide (s = "") then resume_denied "invalid new request id" else Ok s
  | _ => resume_denied "invalid new request id"
  end.

(** A [CapsuleGeneration] is its value. *)
Definition CapsuleGeneration : Type := Z.

Definition CapsuleGeneration_new (v : pyval) : result CapsuleGeneration :=
  match v with
  | VInt z => if 1 <=? z then Ok z else resume_denied "invalid capsule generation"
  | _ => resume_denied "invalid capsule generation"
  end.

Record WorkerResumeCapsuleV2 := {
  rc_capsule_digest : string;
  rc_capsule_generation : CapsuleGeneration;
  rc_bee_digest : string;
  rc_session_digest : string;
  rc_topic_digest : string;
  rc_policy_digest : string;
  rc_account_binding_digest : string;
}.

(** What the constructor requires of the digests; [schema_version] is 2. *)
Definition capsule_digests (c : WorkerResumeCapsuleV2) : list string :=
  [ rc_capsule_digest c; rc_bee_digest c; rc_session_digest c; rc_topic_digest c; rc_policy_digest c;
    rc_account_binding_digest c ].

Record WorkerResumeRequestV2 := {
  rr_request_id : string;
  rr_capsule_digest : string;
  rr_capsule_generation : CapsuleGeneration;
  rr_bee_digest : string;
  rr_session_digest : string;
  rr_topic_digest : string;
  rr_policy_digest : string;
  rr_account_binding_digest : string;
  rr_phase : ResumeRequestPhase;
  rr_requested_revision : Z;
  rr_requires_new_lease : bool;
  rr_allows_in_place_credential_rotation : bool;
}.

Definition WorkerResumeRequestV2_new (r : WorkerResumeRequestV2) : result WorkerResumeRequestV2 :=
  _ ← _require_request_id (VStr (rr_request_id r));
  _ ← _require_digest (VStr (rr_capsule_digest r)) "capsule_digest";
  _ ← _require_digest (VStr (rr_bee_digest r)) "bee_digest";
  _ ← _require_digest (VStr (rr_session_digest r)) "session_digest";
  _ ← _require_digest (VStr (rr_topic_digest r)) "topic_digest";
  _ ← _require_digest (VStr (rr_policy_digest r)) "policy_digest";
  _ ← _require_digest (VStr (rr_account_binding_digest r)) "account_binding_digest";
  _ ← require (rr_requested_revision r =? 1) (ResumeDenied "resume must start at revision one");
  _ ← require (rr_requires_new_lease r) (ResumeDenied "resume must require a new lease");
  _ ← require (negb (rr_allows_in_place_credential_rotation r))
        (ResumeDenied "in-place credential rotation forbidden");
  Ok r.

(** The arguments are evaluated, then the constructor checks them once more. *)
Definition create_resume_capsule (capsule_digest : pyval) (capsule_generation : option CapsuleGeneration)
  (bee_digest session_digest topic_digest policy_digest account_binding_digest : pyval)
  : result WorkerResumeCapsuleV2 :=
  match capsule_generation with
  | None => resume_denied "invalid capsule generation"
  | Some generation =>
      capsule_digest ← _require_digest capsule_digest "capsule_digest";
      bee_digest ← _require_digest bee_digest "bee_digest";
      session_digest ← _require_digest session_digest "session_digest";
      topic_digest ← _require_digest topic_digest "topic_digest";
      policy_digest ← _require_digest policy_digest "policy_digest";
      account_binding_digest ← _require_digest account_binding_digest "account_binding_digest";
      Ok {| rc_capsule_digest := capsule_digest; rc_capsule_generation := generation;
            rc_bee_digest := bee_digest; rc_session_digest := session_digest; rc_topic_digest := topic_digest;
            rc_policy_digest := policy_digest; rc_account_binding_digest := account_binding_digest |}
  end.

(** [None], an object of the class, or another object. *)
Inductive given (A : Type) := Absent | Other | Given (a : A).
Arguments Absent {A}. Arguments Other {A}. Arguments Given {A}.

(** [resumable or lifecycle in {BINDING, PERSISTENT}]. *)
Definition capsule_required (resumable : bool) (lifecycle : WorkerLifecycle) : bool :=
  resumable || bool_decide (lifecycle ∈ [BINDING; PERSISTENT]).

Definition require_terminal_capsule (lifecycle : option WorkerLifecycle) (resumable : option bool)
  (capsule : given WorkerResumeCapsuleV2) (topic_digest policy_digest account_binding_digest : pyval)
  : result (option WorkerResumeCapsuleV2) :=
  match lifecycle, resumable with
  | None, _ => resume_denied "invalid lifecycle"
  | _, None => resume_denied "invalid resumable flag"
  | Some lifecycle, Some resumable =>
      topic_digest ← _require_digest topic_digest "topic_digest";
      policy_digest ← _require_digest policy_digest "policy_digest";
      account_binding_digest ← _require_digest account_binding_digest "account_binding_digest";
      match capsule with
      | Absent => if capsule_required resumable lifecycle then resume_denied "terminal capsule required" else Ok None
      | Other => resume_denied "worker resume capsule v2 required"
      | Given c =>
          _ ← require (bool_decide (rc_topic_digest c = topic_digest) && bool_decide (rc_policy_digest c = policy_digest)
                       && bool_decide (rc_account_binding_digest c = account_binding_digest))
                (ResumeDenied "terminal capsule binding drift");
          Ok (Some c)
      end
  end.

(** The port's method over a world [W]; [T] and [P] are its tickets and its
    principals. *)
Record ResumeTransactionPort (W T P : Type) := {
  claim_resume_capsule_port :
    option T → option WorkerResumeCapsuleV2 → pyval → option Z → option Z → option CapsuleGeneration → option P →
    ST W (option WorkerResumeRequestV2);
}.
Arguments claim_resume_capsule_port {W T P}.

Definition begin_resume_request {W T P} (ledger : option (ResumeTransactionPort W T P)) (source_ticket : option T)
  (capsule : option WorkerResumeCapsuleV2) (new_request_id : pyval) (new_fence_epoch expected_revision : option Z)
  (expected_capsule_generation : option CapsuleGeneration) (teamlead : option P) : ST W WorkerResumeRequestV2 :=
  match ledger with
  | None => st_lift (resume_denied "resume transaction port required")
  | Some port =>
      _ ← st_lift (require (bool_decide (is_Some capsule)) (ResumeDenied "worker resume capsule v2 required"));
      _ ← st_lift (require (bool_decide (is_Some expected_capsule_generation))
                     (ResumeDenied "invalid expected capsule generation"));
      _ ← st_lift (_require_request_id new_request_id);
      answer ← st_catch
        (claim_resume_capsule_port port source_ticket capsule new_request_id new_fence_epoch expected_revision
           expected_capsule_generation teamlead)
        (λ e, st_lift (if is_type_error e || is_value_error e then resume_denied "resume transaction denied" else Err e));
      match answer with
      | Some request => mret request
      | None => st_lift (resume_denied "invalid resume transaction result")
      end
  end.
