(* ===== verification/WorkerLedger.v ===== *)
(** * The worker spawn ledger

    [src/src/the_hive/worker_spawn_ledger.py]: tickets of workers from the
    request to the end, over a port that reads the ledger's state and swaps it
    if its revision is the expected one.  The verification of leases is reached
    through the class [LeaseVerification], which the account allocator
    implements.  A [LedgerRevision], [FenceEpoch] or [Generation] is its value;
    an argument tested with [type(value) is C] is an option. *)

From S2P Require Import Prelude Json StrictJson PyEq Order ModelPolicy AgentResolver AccountAllocator WorkerResume.
#[local] Open Scope Z_scope.

Definition spawn_denied {A} (message : string) : result A := Err (SpawnDenied message).

Definition _require_text (v : pyval) (f : string) : result string :=
  match v with
  | VStr s => if bool_decide (s = "") then spawn_denied ("invalid " +:+ f) else Ok s
  | _ => spawn_denied ("invalid " +:+ f)
  end.

Definition _require_digest (v : pyval) (f : string) : result string :=
  value ← _require_text v f;
  if is_sha256_digest value then Ok value else spawn_denied ("invalid " +:+ f).

Definition _require_counter (v : pyval) (f : string) : result Z :=
  match v with
  | VInt z => if 0 <=? z then Ok z else spawn_denied ("invalid " +:+ f)
  | _ => spawn_denied ("invalid " +:+ f)
  end.

(** ** Values *)

Definition LedgerRevision_new (v : pyval) : result Z := _require_counter v "ledger revision".
Definition FenceEpoch_new (v : pyval) : result Z := _require_counter v "fence epoch".
Definition Generation_new (v : pyval) : result Z := _require_counter v "generation".

Inductive PrincipalRole := NON_LEADERSHIP | TEAMLEADER | QUEEN.
#[export] Instance PrincipalRole_eq_dec : EqDecision PrincipalRole.
Proof. solve_decision. Defined.

Inductive WorkerFailureCodeV1 := PRE_A3_FAILURE | A3_EXECUTION_FAILED_OR_UNKNOWN | START_STATE_UNKNOWN.
#[export] Instance WorkerFailureCodeV1_eq_dec : EqDecision WorkerFailureCodeV1.
Proof. solve_decision. Defined.

Inductive WorkerFailureOriginV1 := PRE_A3 | A3_ENTERED | RECOVERY_UNKNOWN.
#[export] Instance WorkerFailureOriginV1_eq_dec : EqDecision WorkerFailureOriginV1.
Proof. solve_decision. Defined.

Inductive CompensationStatusV1 :=
  | NO_COMPENSATION | REGISTRY_RELEASE_PENDING | REGISTRY_RELEASED | HOME_RELEASE_FAILED | LEASE_RELEASE_FAILED
  | COMPENSATED | COMPENSATION_QUARANTINED.
#[export] Instance CompensationStatusV1_eq_dec : EqDecision CompensationStatusV1.
Proof. solve_decision. Defined.

Inductive SpawnPhase :=
  | REQUESTED | CLAIMED | OFFER_VALIDATED | LEASE_RESERVED | PROJECTED | HOME_COMMITTED | REGISTRY_RESERVED
  | START_GRANTED | RUNNING | DRAINING | CHECKPOINTED | STOPPED | DENIED | ROLLED_BACK | QUARANTINED.
#[export] Instance SpawnPhase_eq_dec : EqDecision SpawnPhase.
Proof. solve_decision. Defined.

(** [_NEXT_PHASES.get(phase, frozenset())]. *)
Definition _NEXT_PHASES (phase : SpawnPhase) : list SpawnPhase :=
  match phase with
  | REQUESTED => [DENIED]
  | CLAIMED => [OFFER_VALIDATED; DENIED]
  | OFFER_VALIDATED => [LEASE_RESERVED; DENIED]
  | LEASE_RESERVED => [PROJECTED; ROLLED_BACK; QUARANTINED]
  | PROJECTED => [HOME_COMMITTED; ROLLED_BACK; QUARANTINED]
  | HOME_COMMITTED => [REGISTRY_RESERVED; ROLLED_BACK; QUARANTINED]
  | REGISTRY_RESERVED => [START_GRANTED; ROLLED_BACK; QUARANTINED]
  | START_GRANTED => [RUNNING; ROLLED_BACK; QUARANTINED]
  | RUNNING => [DRAINING; QUARANTINED]
  | DRAINING => [CHECKPOINTED; QUARANTINED]
  | CHECKPOINTED => [STOPPED; QUARANTINED]
  | STOPPED | DENIED | ROLLED_BACK | QUARANTINED => []
  end.

Record WorkerRegistryIntentV1 := {
  ri_ticket_id : string;
  ri_ledger_revision : Z;
  ri_fence_epoch : Z;
}.

Record WorkerFailureJournalV1 := {
  fj_primary_failure_code : WorkerFailureCodeV1;
  fj_primary_failure_origin : WorkerFailureOriginV1;
  fj_compensation_status : CompensationStatusV1;
  fj_ticket_id : string;
  fj_ledger_revision : Z;
  fj_fence_epoch : Z;
}.

Record VerifiedPrincipalV2 := {
  vp_principal_id : string;
  vp_role : PrincipalRole;
  vp_authority_digest : string;
}.

Definition VerifiedPrincipalV2_new (principal_id : pyval) (role : option PrincipalRole) (authority_digest : pyval)
  : result VerifiedPrincipalV2 :=
  principal_id ← _require_text principal_id "principal_id";
  match role with
  | None => spawn_denied "invalid principal role"
  | Some role =>
      authority_digest ← _require_digest authority_digest "authority_digest";
      Ok {| vp_principal_id := principal_id; vp_role := role; vp_authority_digest := authority_digest |}
  end.

Record LeaseBindingConsumerInputV1 := {
  li_receipt : ref LeaseBindingReceiptV1;
  li_lease : ref CredentialLease;
  li_allocation_ticket : ref ValidatedAllocationTicket;
  li_capacity_evidence : ref CapacityEvidence;
}.

Record WorkerSpawnTicketV2 := {
  wt_ticket_id : string;
  wt_request_id : string;
  wt_requester_principal_id : string;
  wt_requester_authority_digest : string;
  wt_work_package_id : string;
  wt_topic_digest : string;
  wt_target_class_id : string;
  wt_authorized_teamlead_id : string;
  wt_authorized_teamlead_authority_digest : string;
  wt_resolution_decision_digest : string;
  wt_resolution_generation : Z;
  wt_policy_digest : string;
  wt_policy_generation : Z;
  wt_lifecycle : WorkerLifecycle;
  wt_resume_requirement : bool;
  wt_fence_epoch : Z;
  wt_ledger_revision : Z;
  wt_phase : SpawnPhase;
  wt_claimed_by_principal_id : option string;
  wt_lease_binding_reference : option LeaseBindingReferenceV1;
  wt_account_binding_digest : option string;
  wt_source_resume_capsule_digest : option string;
  wt_source_resume_capsule_generation : option CapsuleGeneration;
  wt_topic_resume_binding : option string;
  wt_source_resume_policy_digest : option string;
  wt_source_resume_account_binding_digest : option string;
  wt_resume_capsule_digest : option string;
  wt_resume_capsule_generation : option CapsuleGeneration;
}.
#[export] Instance WorkerSpawnTicketV2_eq_dec : EqDecision WorkerSpawnTicketV2.
Proof. solve_decision. Defined.

Definition text_check (s f : string) : result () := _ ← _require_text (VStr s) f; Ok ().
Definition digest_check (s f : string) : result () := _ ← _require_digest (VStr s) f; Ok ().
Definition optional_digest (o : option string) (f : string) : result () :=
  match o with Some s => digest_check s f | None => spawn_denied ("invalid " +:+ f) end.

Definition is_None {A} (o : option A) : bool := match o with None => true | Some _ => false end.

(** A pair of which neither or both are given. *)
Definition _validate_optional_binding_pair {A B} (reference : option A) (binding : option B) (f : string)
  : result () :=
  require (Bool.eqb (is_None reference) (is_None binding)) (SpawnDenied ("incomplete " +:+ (f +:+ " binding"))).

(** The constructor's checks; the types of the fields are the record's. *)
Definition WorkerSpawnTicketV2_new (t : WorkerSpawnTicketV2) : result WorkerSpawnTicketV2 :=
  _ ← text_check (wt_ticket_id t) "ticket_id";
  _ ← text_check (wt_request_id t) "request_id";
  _ ← text_check (wt_requester_principal_id t) "requester_principal_id";
  _ ← digest_check (wt_requester_authority_digest t) "requester_authority_digest";
  _ ← text_check (wt_work_package_id t) "work_package_id";
  _ ← digest_check (wt_topic_digest t) "topic_digest";
  _ ← text_check (wt_target_class_id t) "target_class_id";
  _ ← text_check (wt_authorized_teamlead_id t) "authorized_teamlead_id";
  _ ← digest_check (wt_authorized_teamlead_authority_digest t) "authorized_teamlead_authority_digest";
  _ ← digest_check (wt_resolution_decision_digest t) "resolution_decision_digest";
  _ ← digest_check (wt_policy_digest t) "policy_digest";
  _ ← require (1 <=? wt_ledger_revision t) (SpawnDenied "invalid ledger revision");
  _ ← match wt_claimed_by_principal_id t with
      | Some principal => text_check principal "claimed_by_principal_id"
      | None => Ok ()
      end;
  _ ← _validate_optional_binding_pair (wt_lease_binding_reference t) (wt_account_binding_digest t) "lease";
  _ ← match wt_account_binding_digest t with
      | Some digest => digest_check digest "account_binding_digest"
      | None => Ok ()
      end;
  _ ← _validate_optional_binding_pair (wt_source_resume_capsule_digest t) (wt_source_resume_capsule_generation t)
        "source resume capsule";
  _ ← match wt_source_resume_capsule_digest t with
      | None =>
          require (is_None (wt_topic_resume_binding t) && is_None (wt_source_resume_policy_digest t)
                   && is_None (wt_source_resume_account_binding_digest t))
            (SpawnDenied "orphan source resume binding")
      | Some _ =>
          _ ← optional_digest (wt_topic_resume_binding t) "topic_resume_binding";
          _ ← optional_digest (wt_source_resume_policy_digest t) "source_resume_policy_digest";
          optional_digest (wt_source_resume_account_binding_digest t) "source_resume_account_binding_digest"
      end;
  _ ← _validate_optional_binding_pair (wt_resume_capsule_digest t) (wt_resume_capsule_generation t) "resume capsule";
  Ok t.

Record SpawnLedgerStateV2 := {
  sl_state_revision : Z;
  sl_tickets : list WorkerSpawnTicketV2;
  sl_consumed_capsule_digests : list string;
  sl_used_lease_binding_references : list LeaseBindingReferenceV1;
  sl_registry_intents : list WorkerRegistryIntentV1;
  sl_failure_journals : list WorkerFailureJournalV1;
}.

Definition distinct `{EqDecision A} (l : list A) (message : string) : result () :=
  require (bool_decide (NoDup l)) (SpawnDenied message).

Definition SpawnLedgerStateV2_new (s : SpawnLedgerStateV2) : result SpawnLedgerStateV2 :=
  _ ← distinct (wt_request_id <$> sl_tickets s) "duplicate request in ledger state";
  _ ← mapM_result (λ d, digest_check d "consumed capsule digests") (sl_consumed_capsule_digests s);
  _ ← distinct (sl_consumed_capsule_digests s) "duplicate consumed capsule digests";
  _ ← distinct (sl_used_lease_binding_references s) "duplicate used lease binding references";
  _ ← distinct (ri_ticket_id <$> sl_registry_intents s) "duplicate registry intents";
  _ ← distinct (fj_ticket_id <$> sl_failure_journals s) "duplicate failure journals";
  Ok s.

Definition SpawnLedgerStateV2_empty : SpawnLedgerStateV2 :=
  {| sl_state_revision := 0; sl_tickets := []; sl_consumed_capsule_digests := [];
     sl_used_lease_binding_references := []; sl_registry_intents := []; sl_failure_journals := [] |}.

(** ** What the ledger is given *)

Record SpawnLedgerStatePort (W : Type) := {
  read_port : ST W (option SpawnLedgerStateV2);
  compare_and_swap : Z → SpawnLedgerStateV2 → ST W pyval;
}.
Arguments read_port {W}. Arguments compare_and_swap {W}.

(** The part of the allocator the ledger uses. *)
Class LeaseVerification (W : Type) := {
  lv_verify : ref LeaseBindingReceiptV1 → ref CredentialLease → ref ValidatedAllocationTicket →
              ref CapacityEvidence → ST W LeaseBindingVerificationV1;
  lv_reference_for : LeaseBindingVerificationV1 → ST W LeaseBindingReferenceV1;
  lv_close : LeaseBindingVerificationV1 → ST W ();
}.

Definition allocator_verification {W} (operations : AllocatorOperations W) : LeaseVerification (AllocatorState * W) :=
  {| lv_verify := λ receipt lease t e,
       verify_lease_binding_receipt operations (Some receipt) (Some lease) (Some t) (Some e);
     lv_reference_for := λ v, lease_binding_reference_for operations (Some v);
     lv_close := λ v, close_lease_binding_verification operations (Some v) |}.

Record WorkerSpawnLedger (W : Type) := {
  _state_port : SpawnLedgerStatePort W;
  _delegable_class_ids : list string;
}.
Arguments _state_port {W}. Arguments _delegable_class_ids {W}.

(** [None]: an object of another class; the class set is a frozenset of any
    values. *)
Definition WorkerSpawnLedger_new {W} (state_port : option (SpawnLedgerStatePort W)) (class_ids : option (list pyval))
  (allocator : bool) : result (WorkerSpawnLedger W) :=
  match state_port with
  | None => spawn_denied "nominal spawn ledger state port required"
  | Some port =>
      class_ids ← match class_ids with
                  | None | Some [] => spawn_denied "invalid delegable class set"
                  | Some ids =>
                      reraise is_value_error (λ _, SpawnDenied "invalid delegable class set")
                        (mapM_result (λ v, _require_text v "class_id") ids)
                  end;
      _ ← require allocator (SpawnDenied "runtime account allocator required");
      Ok {| _state_port := port; _delegable_class_ids := class_ids |}
  end.

Definition is_allocation_denied (e : exn) : bool := match e with AllocationDenied _ => true | _ => false end.

(** ** Tickets and records *)

Definition _find_ticket (s : SpawnLedgerStateV2) (request_id : string) : option WorkerSpawnTicketV2 :=
  List.find (λ t, bool_decide (wt_request_id t = request_id)) (sl_tickets s).

Definition _find_registry_intent (s : SpawnLedgerStateV2) (ticket_id : string) : option WorkerRegistryIntentV1 :=
  List.find (λ i, bool_decide (ri_ticket_id i = ticket_id)) (sl_registry_intents s).

Definition _find_failure_journal (s : SpawnLedgerStateV2) (ticket_id : string) : option WorkerFailureJournalV1 :=
  List.find (λ j, bool_decide (fj_ticket_id j = ticket_id)) (sl_failure_journals s).

Definition _require_ticket (s : SpawnLedgerStateV2) (request_id : string) : result WorkerSpawnTicketV2 :=
  match _find_ticket s request_id with Some t => Ok t | None => spawn_denied "unknown request" end.

Definition _require_ticket_value (t : option WorkerSpawnTicketV2) : result WorkerSpawnTicketV2 :=
  match t with Some t => Ok t | None => spawn_denied "invalid ticket" end.

Definition _require_current_ticket (s : SpawnLedgerStateV2) (t : WorkerSpawnTicketV2) : result WorkerSpawnTicketV2 :=
  current ← _require_ticket s (wt_request_id t);
  _ ← require (bool_decide (current = t)) (SpawnDenied "ticket revision or phase drift");
  Ok current.

Definition _require_principal (p : option VerifiedPrincipalV2) (role : PrincipalRole) (f : string)
  : result VerifiedPrincipalV2 :=
  match p with
  | Some p => if bool_decide (vp_role p = role) then Ok p else spawn_denied ("invalid " +:+ (f +:+ " authority"))
  | None => spawn_denied ("invalid " +:+ (f +:+ " authority"))
  end.

Definition _require_teamlead (t : WorkerSpawnTicketV2) (teamlead : VerifiedPrincipalV2) : result () :=
  _ ← require (bool_decide (vp_principal_id teamlead = wt_authorized_teamlead_id t)
               && bool_decide (vp_authority_digest teamlead = wt_authorized_teamlead_authority_digest t))
        (SpawnDenied "teamlead authority denied");
  require (match wt_claimed_by_principal_id t with
           | Some principal => bool_decide (principal = vp_principal_id teamlead)
           | None => true
           end) (SpawnDenied "ticket owner drift").

Definition _require_revision (t : WorkerSpawnTicketV2) (revision : Z) : result () :=
  require (wt_ledger_revision t =? revision) (SpawnDenied "ledger revision drift").

Definition _require_fence (t : WorkerSpawnTicketV2) (fence : Z) : result () :=
  require (wt_fence_epoch t =? fence) (SpawnDenied "fence drift").

Definition _replace_ticket (s : SpawnLedgerStateV2) (replacement : WorkerSpawnTicketV2) : list WorkerSpawnTicketV2 :=
  (λ t, if bool_decide (wt_request_id t = wt_request_id replacement) then replacement else t) <$> sl_tickets s.

Definition _replace_failure_journal (s : SpawnLedgerStateV2) (replacement : WorkerFailureJournalV1)
  : list WorkerFailureJournalV1 :=
  (λ j, if bool_decide (fj_ticket_id j = fj_ticket_id replacement) then replacement else j) <$> sl_failure_journals s.

(** What [replace] changes of a ticket: the fields of [**changes]. *)
Record ticket_changes := {
  tc_phase : option SpawnPhase;
  tc_claimed_by : option string;
  tc_lease : option (LeaseBindingReferenceV1 * string);
  tc_resume : option (string * CapsuleGeneration);
}.
Definition no_changes : ticket_changes :=
  {| tc_phase := None; tc_claimed_by := None; tc_lease := None; tc_resume := None |}.

Definition or_keep {A} (change : option A) (old : option A) : option A :=
  match change with Some a => Some a | None => old end.

Definition changed_ticket (t : WorkerSpawnTicketV2) (c : ticket_changes) : WorkerSpawnTicketV2 :=
  {| wt_ticket_id := wt_ticket_id t; wt_request_id := wt_request_id t;
     wt_requester_principal_id := wt_requester_principal_id t;
     wt_requester_authority_digest := wt_requester_authority_digest t; wt_work_package_id := wt_work_package_id t;
     wt_topic_digest := wt_topic_digest t; wt_target_class_id := wt_target_class_id t;
     wt_authorized_teamlead_id := wt_authorized_teamlead_id t;
     wt_authorized_teamlead_authority_digest := wt_authorized_teamlead_authority_digest t;
     wt_resolution_decision_digest := wt_resolution_decision_digest t;
     wt_resolution_generation := wt_resolution_generation t; wt_policy_digest := wt_policy_digest t;
     wt_policy_generation := wt_policy_generation t; wt_lifecycle := wt_lifecycle t;
     wt_resume_requirement := wt_resume_requirement t; wt_fence_epoch := wt_fence_epoch t;
     wt_ledger_revision := wt_ledger_revision t + 1; wt_phase := default (wt_phase t) (tc_phase c);
     wt_claimed_by_principal_id := or_keep (tc_claimed_by c) (wt_claimed_by_principal_id t);
     wt_lease_binding_reference := or_keep (fst <$> tc_lease c) (wt_lease_binding_reference t);
     wt_account_binding_digest := or_keep (snd <$> tc_lease c) (wt_account_binding_digest t);
     wt_source_resume_capsule_digest := wt_source_resume_capsule_digest t;
     wt_source_resume_capsule_generation := wt_source_resume_capsule_generation t;
     wt_topic_resume_binding := wt_topic_resume_binding t;
     wt_source_resume_policy_digest := wt_source_resume_policy_digest t;
     wt_source_resume_account_binding_digest := wt_source_resume_account_binding_digest t;
     wt_resume_capsule_digest := or_keep (fst <$> tc_resume c) (wt_resume_capsule_digest t);
     wt_resume_capsule_generation := or_keep (snd <$> tc_resume c) (wt_resume_capsule_generation t) |}.

Definition _advance_ticket (t : WorkerSpawnTicketV2) (c : ticket_changes) : result WorkerSpawnTicketV2 :=
  WorkerSpawnTicketV2_new (changed_ticket t c).

Definition _require_terminal_binding (t : WorkerSpawnTicketV2) : result () :=
  require (negb (capsule_required (wt_resume_requirement t) (wt_lifecycle t)
                 && (is_None (wt_resume_capsule_digest t) || is_None (wt_resume_capsule_generation t))))
    (SpawnDenied "terminal capsule binding required").

Definition _require_allocation_ticket (current : WorkerSpawnTicketV2) (binding : LeaseBindingConsumerInputV1) : result () :=
  let allocation := content (li_allocation_ticket binding) in
  let evidence := content (li_capacity_evidence binding) in
  let denied := SpawnDenied "lease binding verification denied" in
  decision_digest ← reraise is_value_error (λ _, denied)
    (canonical_resolution_decision_digest (vt_resolution_decision allocation));
  require (bool_decide (wt_phase current = OFFER_VALIDATED)
           && py_eq_str (vt_phase allocation) "OFFER_VALIDATED"
           && py_eq_str (vt_ticket_id allocation) (wt_ticket_id current)
           && py_eq (vt_ledger_revision allocation) (VInt (wt_ledger_revision current))
           && py_eq (vt_fence_epoch allocation) (VInt (wt_fence_epoch current))
           && bool_decide (decision_digest = wt_resolution_decision_digest current)
           && py_eq_str (vt_resolver_offer_generation allocation) (so_generation (vt_selection_offer allocation))
           && bool_decide (dn_class_id (vt_resolution_decision allocation) = wt_target_class_id current)
           && py_eq (vt_policy_generation allocation) (VInt (wt_policy_generation current))
           && py_eq_str (vt_policy_digest allocation) (wt_policy_digest current)
           && py_eq (ce_ticket_id evidence) (vt_ticket_id allocation)
           && py_eq (ce_ledger_revision evidence) (vt_ledger_revision allocation)
           && py_eq (ce_fence_epoch evidence) (vt_fence_epoch allocation)) denied.

(** ** Reading and committing *)

Section ledger.
Context {W : Type} `{LeaseVerification W} (ledger : WorkerSpawnLedger W).
#[local] Notation M := (ST W).

Definition _read_state : M SpawnLedgerStateV2 :=
  state ← st_catch (read_port (_state_port ledger)) (λ _, st_lift (spawn_denied "ledger read failed"));
  match state with
  | Some s => mret s
  | None => st_lift (spawn_denied "invalid ledger state")
  end.

(** The parts of the state a commit replaces; [None] keeps the part. *)
Record replacements := {
  rp_tickets : list WorkerSpawnTicketV2;
  rp_consumed : option (list string);
  rp_used : option (list LeaseBindingReferenceV1);
  rp_intents : option (list WorkerRegistryIntentV1);
  rp_journals : option (list WorkerFailureJournalV1);
}.
Definition only_tickets (tickets : list WorkerSpawnTicketV2) : replacements :=
  {| rp_tickets := tickets; rp_consumed := None; rp_used := None; rp_intents := None; rp_journals := None |}.

Definition replaced (s : SpawnLedgerStateV2) (r : replacements) : SpawnLedgerStateV2 :=
  {| sl_state_revision := sl_state_revision s + 1; sl_tickets := rp_tickets r;
     sl_consumed_capsule_digests := default (sl_consumed_capsule_digests s) (rp_consumed r);
     sl_used_lease_binding_references := default (sl_used_lease_binding_references s) (rp_used r);
     sl_registry_intents := default (sl_registry_intents s) (rp_intents r);
     sl_failure_journals := default (sl_failure_journals s) (rp_journals r) |}.

Definition _commit (s : SpawnLedgerStateV2) (r : replacements) : M () :=
  replacement ← st_lift (SpawnLedgerStateV2_new (replaced s r));
  committed ← st_catch (compare_and_swap (_state_port ledger) (sl_state_revision s) replacement)
                (λ _, st_lift (spawn_denied "ledger CAS failed"));
  match committed with
  | VBool true => mret ()
  | _ => st_lift (spawn_denied "ledger CAS conflict")
  end.

Definition len : M Z := s ← _read_state; mret (Z.of_nat (length (sl_tickets s))).

Definition read (request_id : pyval) : M (option WorkerSpawnTicketV2) :=
  request_id ← st_lift (_require_text request_id "request_id");
  s ← _read_state;
  mret (_find_ticket s request_id).

(** [if type(value) is not C: raise SpawnDenied(message)]. *)
Definition of_class {A} (o : option A) (message : string) : result A :=
  match o with Some a => Ok a | None => spawn_denied message end.

(** ** Requests *)

Definition requested_ticket (request_id : string) (requester teamlead : VerifiedPrincipalV2)
  (work_package_id topic_digest target_class_id resolution_decision_digest : string) (resolution_generation : Z)
  (policy_digest : string) (policy_generation : Z) (lifecycle : WorkerLifecycle) (resume_requirement : bool)
  (fence_epoch : Z) : WorkerSpawnTicketV2 :=
  {| wt_ticket_id := "ticket:" +:+ request_id; wt_request_id := request_id;
     wt_requester_principal_id := vp_principal_id requester;
     wt_requester_authority_digest := vp_authority_digest requester; wt_work_package_id := work_package_id;
     wt_topic_digest := topic_digest; wt_target_class_id := target_class_id;
     wt_authorized_teamlead_id := vp_principal_id teamlead;
     wt_authorized_teamlead_authority_digest := vp_authority_digest teamlead;
     wt_resolution_decision_digest := resolution_decision_digest;
     wt_resolution_generation := resolution_generation; wt_policy_digest := policy_digest;
     wt_policy_generation := policy_generation; wt_lifecycle := lifecycle;
     wt_resume_requirement := resume_requirement; wt_fence_epoch := fence_epoch; wt_ledger_revision := 1;
     wt_phase := REQUESTED; wt_claimed_by_principal_id := None; wt_lease_binding_reference := None;
     wt_account_binding_digest := None; wt_source_resume_capsule_digest := None;
     wt_source_resume_capsule_generation := None; wt_topic_resume_binding := None;
     wt_source_resume_policy_digest := None; wt_source_resume_account_binding_digest := None;
     wt_resume_capsule_digest := None; wt_resume_capsule_generation := None |}.

Definition publish_requested (request_id : pyval) (requester : option VerifiedPrincipalV2)
  (work_package_id topic_digest target_class_id : pyval) (authorized_teamlead : option VerifiedPrincipalV2)
  (resolution_decision_digest : pyval) (resolution_generation : option Z) (policy_digest : pyval)
  (policy_generation : option Z) (lifecycle : option WorkerLifecycle) (resume_requirement : option bool)
  (fence_epoch : option Z) : M WorkerSpawnTicketV2 :=
  request_id ← st_lift (_require_text request_id "request_id");
  requester ← st_lift (_require_principal requester NON_LEADERSHIP "requester");
  teamlead ← st_lift (_require_principal authorized_teamlead TEAMLEADER "teamlead");
  target_class_id ← st_lift (_require_text target_class_id "target_class_id");
  _ ← st_lift (require (bool_decide (target_class_id ∈ _delegable_class_ids ledger))
                 (SpawnDenied "leadership target forbidden"));
  resolution_generation ← st_lift (of_class resolution_generation "invalid resolution generation");
  policy_generation ← st_lift (of_class policy_generation "invalid policy generation");
  lifecycle ← st_lift (of_class lifecycle "invalid lifecycle");
  resume_requirement ← st_lift (of_class resume_requirement "invalid resume requirement");
  fence_epoch ← st_lift (of_class fence_epoch "invalid fence epoch");
  s ← _read_state;
  _ ← st_lift (require (is_None (_find_ticket s request_id)) (SpawnDenied "request replay"));
  work_package_id ← st_lift (_require_text work_package_id "work_package_id");
  topic_digest ← st_lift (_require_digest topic_digest "topic_digest");
  resolution_decision_digest ← st_lift (_require_digest resolution_decision_digest "resolution_decision_digest");
  policy_digest ← st_lift (_require_digest policy_digest "policy_digest");
  ticket ← st_lift (WorkerSpawnTicketV2_new
    (requested_ticket request_id requester teamlead work_package_id topic_digest target_class_id
       resolution_decision_digest resolution_generation policy_digest policy_generation lifecycle
       resume_requirement fence_epoch));
  _ ← _commit s (only_tickets (sl_tickets s ++ [ticket]));
  mret ticket.

Definition claim (request_id : pyval) (teamlead : option VerifiedPrincipalV2) (expected_revision : option Z)
  : M WorkerSpawnTicketV2 :=
  request_id ← st_lift (_require_text request_id "request_id");
  teamlead ← st_lift (_require_principal teamlead TEAMLEADER "teamlead");
  expected_revision ← st_lift (of_class expected_revision "invalid expected revision");
  s ← _read_state;
  ticket ← st_lift (_require_ticket s request_id);
  _ ← st_lift (_require_revision ticket expected_revision);
  _ ← st_lift (_require_teamlead ticket teamlead);
  _ ← st_lift (require (bool_decide (wt_phase ticket = REQUESTED))
                 (SpawnDenied "request already claimed or terminal"));
  claimed ← st_lift (_advance_ticket ticket
    {| tc_phase := Some CLAIMED; tc_claimed_by := Some (vp_principal_id teamlead); tc_lease := None;
       tc_resume := None |});
  _ ← _commit s (only_tickets (_replace_ticket s claimed));
  mret claimed.

(** What the operations on a current ticket check first: the ticket is the
    ledger's, the revision and the fence are the expected ones, and the
    teamlead is the one the ticket names. *)
Definition current_ticket (ticket : WorkerSpawnTicketV2) (expected_revision : Z) (expected_fence_epoch : option Z)
  (teamlead : VerifiedPrincipalV2) : M (SpawnLedgerStateV2 * WorkerSpawnTicketV2) :=
  s ← _read_state;
  current ← st_lift (_require_current_ticket s ticket);
  _ ← st_lift (_require_revision current expected_revision);
  _ ← st_lift (match expected_fence_epoch with Some fence => _require_fence current fence | None => Ok () end);
  _ ← st_lift (_require_teamlead current teamlead);
  mret (s, current).

Definition with_intents (s : SpawnLedgerStateV2) (t : WorkerSpawnTicketV2) (intent : WorkerRegistryIntentV1) : replacements :=
  {| rp_tickets := _replace_ticket s t; rp_consumed := None; rp_used := None;
     rp_intents := Some (sl_registry_intents s ++ [intent]); rp_journals := None |}.
Definition with_journals (s : SpawnLedgerStateV2) (t : WorkerSpawnTicketV2) (journals : list WorkerFailureJournalV1)
  : replacements :=
  {| rp_tickets := _replace_ticket s t; rp_consumed := None; rp_used := None; rp_intents := None;
     rp_journals := Some journals |}.

Definition record_registry_intent (ticket : option WorkerSpawnTicketV2) (expected_revision expected_fence_epoch : option Z)
  (teamlead : option VerifiedPrincipalV2) : M WorkerSpawnTicketV2 :=
  ticket ← st_lift (_require_ticket_value ticket);
  expected_revision ← st_lift (of_class expected_revision "invalid expected revision");
  expected_fence_epoch ← st_lift (of_class expected_fence_epoch "invalid expected fence");
  teamlead ← st_lift (_require_principal teamlead TEAMLEADER "teamlead");
  '(s, current) ← current_ticket ticket expected_revision (Some expected_fence_epoch) teamlead;
  _ ← st_lift (require (is_None (_find_registry_intent s (wt_ticket_id current))) (SpawnDenied "intent replay"));
  advanced ← st_lift (_advance_ticket current no_changes);
  _ ← _commit s (with_intents s advanced
        {| ri_ticket_id := wt_ticket_id advanced; ri_ledger_revision := wt_ledger_revision advanced;
           ri_fence_epoch := wt_fence_epoch advanced |});
  mret advanced.

(** ** Failures and compensation *)

Definition expected_origin (code : WorkerFailureCodeV1) : WorkerFailureOriginV1 :=
  match code with
  | PRE_A3_FAILURE => PRE_A3
  | A3_EXECUTION_FAILED_OR_UNKNOWN => A3_ENTERED
  | START_STATE_UNKNOWN => RECOVERY_UNKNOWN
  end.

Definition initial_compensation (origin : WorkerFailureOriginV1) : CompensationStatusV1 :=
  match origin with PRE_A3 => REGISTRY_RELEASE_PENDING | _ => COMPENSATION_QUARANTINED end.

Definition record_failure (ticket : option WorkerSpawnTicketV2) (primary_failure_code : option WorkerFailureCodeV1)
  (primary_failure_origin : option WorkerFailureOriginV1) (compensation_status : option CompensationStatusV1)
  (expected_revision expected_fence_epoch : option Z) (teamlead : option VerifiedPrincipalV2) : M WorkerSpawnTicketV2 :=
  ticket ← st_lift (_require_ticket_value ticket);
  code ← st_lift (of_class primary_failure_code "invalid primary failure code");
  origin ← st_lift (of_class primary_failure_origin "invalid primary failure origin");
  status ← st_lift (of_class compensation_status "invalid compensation status");
  expected_revision ← st_lift (of_class expected_revision "invalid expected revision");
  expected_fence_epoch ← st_lift (of_class expected_fence_epoch "invalid expected fence");
  teamlead ← st_lift (_require_principal teamlead TEAMLEADER "teamlead");
  '(s, current) ← current_ticket ticket expected_revision (Some expected_fence_epoch) teamlead;
  _ ← st_lift (require (is_None (_find_failure_journal s (wt_ticket_id current))) (SpawnDenied "failure journal replay"));
  _ ← st_lift (require (bool_decide (origin = expected_origin code)) (SpawnDenied "primary failure binding denied"));
  _ ← st_lift (require (bool_decide (status = initial_compensation origin))
                 (SpawnDenied "invalid initial compensation status"));
  advanced ← st_lift (_advance_ticket current no_changes);
  _ ← _commit s (with_journals s advanced (sl_failure_journals s ++
        [{| fj_primary_failure_code := code; fj_primary_failure_origin := origin; fj_compensation_status := status;
            fj_ticket_id := wt_ticket_id advanced; fj_ledger_revision := wt_ledger_revision advanced;
            fj_fence_epoch := wt_fence_epoch advanced |}]));
  mret advanced.

Definition allowed_statuses (status : CompensationStatusV1) : list CompensationStatusV1 :=
  match status with
  | REGISTRY_RELEASE_PENDING => [REGISTRY_RELEASED; COMPENSATION_QUARANTINED]
  | REGISTRY_RELEASED => [COMPENSATED; HOME_RELEASE_FAILED; LEASE_RELEASE_FAILED; COMPENSATION_QUARANTINED]
  | HOME_RELEASE_FAILED | LEASE_RELEASE_FAILED => [COMPENSATION_QUARANTINED]
  | _ => []
  end.

(** [replace(journal, ...)]. *)
Definition journal_with (j : WorkerFailureJournalV1) (status : CompensationStatusV1) (t : WorkerSpawnTicketV2)
  : WorkerFailureJournalV1 :=
  {| fj_primary_failure_code := fj_primary_failure_code j; fj_primary_failure_origin := fj_primary_failure_origin j;
     fj_compensation_status := status; fj_ticket_id := fj_ticket_id j; fj_ledger_revision := wt_ledger_revision t;
     fj_fence_epoch := wt_fence_epoch t |}.

Definition advance_compensation_status (ticket : option WorkerSpawnTicketV2)
  (compensation_status : option CompensationStatusV1) (expected_revision expected_fence_epoch : option Z)
  (teamlead : option VerifiedPrincipalV2) : M WorkerSpawnTicketV2 :=
  ticket ← st_lift (_require_ticket_value ticket);
  status ← st_lift (of_class compensation_status "invalid compensation status");
  expected_revision ← st_lift (of_class expected_revision "invalid expected revision");
  expected_fence_epoch ← st_lift (of_class expected_fence_epoch "invalid expected fence");
  teamlead ← st_lift (_require_principal teamlead TEAMLEADER "teamlead");
  '(s, current) ← current_ticket ticket expected_revision (Some expected_fence_epoch) teamlead;
  journal ← st_lift (of_class (_find_failure_journal s (wt_ticket_id current)) "failure journal required");
  _ ← st_lift (require ((fj_fence_epoch journal =? wt_fence_epoch current)
                        && (fj_ledger_revision journal <=? wt_ledger_revision current))
                 (SpawnDenied "failure journal drift"));
  _ ← st_lift (require (bool_decide (status ∈ allowed_statuses (fj_compensation_status journal)))
                 (SpawnDenied "illegal compensation transition"));
  advanced ← st_lift (_advance_ticket current no_changes);
  _ ← _commit s (with_journals s advanced (_replace_failure_journal s (journal_with journal status advanced)));
  mret advanced.

(** ** Phases *)

(** The two conditions on the failure journal. *)
Definition rollback_allowed (phase : SpawnPhase) (t : WorkerSpawnTicketV2) (journal : option WorkerFailureJournalV1) : bool :=
  match journal with
  | Some j =>
      negb (bool_decide (phase = ROLLED_BACK))
      || ((fj_ledger_revision j =? wt_ledger_revision t) && (fj_fence_epoch j =? wt_fence_epoch t)
          && bool_decide (fj_primary_failure_origin j = PRE_A3)
          && bool_decide (fj_compensation_status j = COMPENSATED))
  | None => true
  end.

Definition quarantine_allowed (phase : SpawnPhase) (t : WorkerSpawnTicketV2) (journal : option WorkerFailureJournalV1) : bool :=
  match journal with
  | Some j =>
      negb (bool_decide (phase = QUARANTINED))
      || ((fj_ledger_revision j =? wt_ledger_revision t) && (fj_fence_epoch j =? wt_fence_epoch t)
          && bool_decide (fj_compensation_status j = COMPENSATION_QUARANTINED))
  | None => true
  end.

Definition with_used (s : SpawnLedgerStateV2) (t : WorkerSpawnTicketV2) (used : list LeaseBindingReferenceV1) : replacements :=
  {| rp_tickets := _replace_ticket s t; rp_consumed := None; rp_used := Some used; rp_intents := None;
     rp_journals := None |}.

(** The end of the guarded block: the binding a final phase needs, the new
    ticket and its commit. *)
Definition commit_phase (s : SpawnLedgerStateV2) (current : WorkerSpawnTicketV2) (phase : SpawnPhase)
  (lease : option (LeaseBindingReferenceV1 * string)) (used : list LeaseBindingReferenceV1) : M WorkerSpawnTicketV2 :=
  _ ← st_lift (if bool_decide (phase ∈ [ROLLED_BACK; CHECKPOINTED; STOPPED]) then _require_terminal_binding current
               else Ok ());
  advanced ← st_lift (_advance_ticket current
    {| tc_phase := Some phase; tc_claimed_by := None; tc_lease := lease; tc_resume := None |});
  _ ← _commit s (with_used s advanced used);
  mret advanced.

(** [except AllocationDenied as exc: raise SpawnDenied]. *)
Definition denied_as_spawn {A} (m : M A) : M A :=
  st_catch m (λ e, st_lift (if is_allocation_denied e then spawn_denied "lease binding verification denied" else Err e)).

(** The [finally] clause: the verification is closed; when closing is denied,
    an earlier exception is kept. *)
Definition closing {A} (verification : LeaseBindingVerificationV1) (m : M A) : M A := λ w,
  match m w with
  | (w, Ok a) =>
      match lv_close verification w with
      | (w, Ok _) => (w, Ok a)
      | (w, Err e) =>
          (w, if is_allocation_denied e then spawn_denied "lease binding verification denied" else Err e)
      end
  | (w, Err primary) =>
      match lv_close verification w with
      | (w, Ok _) => (w, Err primary)
      | (w, Err e) => (w, if is_allocation_denied e then Err primary else Err e)
      end
  end.

Definition reserve_lease (s : SpawnLedgerStateV2) (current : WorkerSpawnTicketV2)
  (binding : LeaseBindingConsumerInputV1) : M WorkerSpawnTicketV2 :=
  _ ← st_lift (_require_allocation_ticket current binding);
  verification ← denied_as_spawn
    (lv_verify (li_receipt binding) (li_lease binding) (li_allocation_ticket binding) (li_capacity_evidence binding));
  closing verification (
    reference ← denied_as_spawn (lv_reference_for verification);
    let used := sl_used_lease_binding_references s in
    _ ← st_lift (require (negb (bool_decide (reference ∈ used))) (SpawnDenied "lease binding replay"));
    commit_phase s current LEASE_RESERVED
      (Some (reference, text_of (cl_account_binding_digest (content (li_lease binding))))) (used ++ [reference])).

Definition append_phase (ticket : option WorkerSpawnTicketV2) (phase : option SpawnPhase)
  (expected_revision expected_fence_epoch : option Z) (teamlead : option VerifiedPrincipalV2)
  (lease_binding : given LeaseBindingConsumerInputV1) : M WorkerSpawnTicketV2 :=
  ticket ← st_lift (_require_ticket_value ticket);
  phase ← st_lift (of_class phase "unknown phase");
  expected_revision ← st_lift (of_class expected_revision "invalid expected revision");
  expected_fence_epoch ← st_lift (of_class expected_fence_epoch "invalid expected fence");
  teamlead ← st_lift (_require_principal teamlead TEAMLEADER "teamlead");
  '(s, current) ← current_ticket ticket expected_revision (Some expected_fence_epoch) teamlead;
  _ ← st_lift (require (bool_decide (phase ∈ _NEXT_PHASES (wt_phase current))) (SpawnDenied "illegal phase transition"));
  let failure_journal := _find_failure_journal s (wt_ticket_id current) in
  _ ← st_lift (require (rollback_allowed phase current failure_journal) (SpawnDenied "rollback failure journal denied"));
  _ ← st_lift (require (quarantine_allowed phase current failure_journal)
                 (SpawnDenied "quarantine failure journal denied"));
  if bool_decide (phase = LEASE_RESERVED) then
    match lease_binding with
    | Given binding => reserve_lease s current binding
    | _ => st_lift (spawn_denied "lease binding verification denied")
    end
  else
    match lease_binding with
    | Absent => commit_phase s current phase None (sl_used_lease_binding_references s)
    | _ => st_lift (spawn_denied "unexpected lease binding")
    end.

(** ** Resume capsules *)

Definition bindable_phases : list SpawnPhase :=
  [LEASE_RESERVED; PROJECTED; HOME_COMMITTED; REGISTRY_RESERVED; START_GRANTED; RUNNING; DRAINING].

Definition bind_resume_capsule (ticket : option WorkerSpawnTicketV2) (capsule : option WorkerResumeCapsuleV2)
  (expected_revision expected_fence_epoch : option Z) (teamlead : option VerifiedPrincipalV2) : M WorkerSpawnTicketV2 :=
  ticket ← st_lift (_require_ticket_value ticket);
  capsule ← st_lift (of_class capsule "worker resume capsule v2 required");
  expected_revision ← st_lift (of_class expected_revision "invalid expected revision");
  expected_fence_epoch ← st_lift (of_class expected_fence_epoch "invalid expected fence");
  teamlead ← st_lift (_require_principal teamlead TEAMLEADER "teamlead");
  '(s, current) ← current_ticket ticket expected_revision (Some expected_fence_epoch) teamlead;
  _ ← st_lift (require (bool_decide (wt_phase current ∈ bindable_phases))
                 (SpawnDenied "capsule cannot bind in current phase"));
  account ← st_lift (of_class (wt_account_binding_digest current) "account binding required before capsule");
  _ ← st_lift (reraise (λ e, match e with ResumeDenied _ => true | _ => false end)
                 (λ _, SpawnDenied "resume capsule binding denied")
                 (require_terminal_capsule (Some (wt_lifecycle current)) (Some (wt_resume_requirement current))
                    (Given capsule) (VStr (wt_topic_digest current)) (VStr (wt_policy_digest current)) (VStr account)));
  _ ← st_lift (require (is_None (wt_resume_capsule_digest current)) (SpawnDenied "ticket already has resume capsule"));
  _ ← st_lift (require (negb (bool_decide (rc_capsule_digest capsule ∈ sl_consumed_capsule_digests s)
                              || existsb (λ t, bool_decide (wt_resume_capsule_digest t = Some (rc_capsule_digest capsule)))
                                   (sl_tickets s)))
                 (SpawnDenied "resume capsule replay"));
  bound ← st_lift (_advance_ticket current
    {| tc_phase := None; tc_claimed_by := None; tc_lease := None;
       tc_resume := Some (rc_capsule_digest capsule, rc_capsule_generation capsule) |});
  _ ← _commit s (only_tickets (_replace_ticket s bound));
  mret bound.

(** The ticket that resumes another one. *)
Definition resumed_ticket (current : WorkerSpawnTicketV2) (capsule : WorkerResumeCapsuleV2) (new_request_id : string)
  (new_fence_epoch : Z) : WorkerSpawnTicketV2 :=
  {| wt_ticket_id := "ticket:" +:+ new_request_id; wt_request_id := new_request_id;
     wt_requester_principal_id := wt_requester_principal_id current;
     wt_requester_authority_digest := wt_requester_authority_digest current;
     wt_work_package_id := wt_work_package_id current; wt_topic_digest := wt_topic_digest current;
     wt_target_class_id := wt_target_class_id current;
     wt_authorized_teamlead_id := wt_authorized_teamlead_id current;
     wt_authorized_teamlead_authority_digest := wt_authorized_teamlead_authority_digest current;
     wt_resolution_decision_digest := wt_resolution_decision_digest current;
     wt_resolution_generation := wt_resolution_generation current; wt_policy_digest := wt_policy_digest current;
     wt_policy_generation := wt_policy_generation current; wt_lifecycle := wt_lifecycle current;
     wt_resume_requirement := wt_resume_requirement current; wt_fence_epoch := new_fence_epoch;
     wt_ledger_revision := 1; wt_phase := REQUESTED; wt_claimed_by_principal_id := None;
     wt_lease_binding_reference := None; wt_account_binding_digest := None;
     wt_source_resume_capsule_digest := Some (rc_capsule_digest capsule);
     wt_source_resume_capsule_generation := Some (rc_capsule_generation capsule);
     wt_topic_resume_binding := Some (rc_topic_digest capsule);
     wt_source_resume_policy_digest := Some (rc_policy_digest capsule);
     wt_source_resume_account_binding_digest := Some (rc_account_binding_digest capsule);
     wt_resume_capsule_digest := None; wt_resume_capsule_generation := None |}.

(** The capsule is the one the ticket carries. *)
Definition capsule_of_ticket (current : WorkerSpawnTicketV2) (capsule : WorkerResumeCapsuleV2)
  (expected_generation : CapsuleGeneration) : bool :=
  bool_decide (wt_resume_capsule_digest current = Some (rc_capsule_digest capsule))
  && bool_decide (wt_resume_capsule_generation current = Some (rc_capsule_generation capsule))
  && (expected_generation =? rc_capsule_generation capsule)
  && bool_decide (wt_topic_digest current = rc_topic_digest capsule)
  && bool_decide (wt_policy_digest current = rc_policy_digest capsule)
  && bool_decide (wt_account_binding_digest current = Some (rc_account_binding_digest capsule)).

Definition claim_resume_capsule (source_ticket : option WorkerSpawnTicketV2) (capsule : option WorkerResumeCapsuleV2)
  (new_request_id : pyval) (new_fence_epoch expected_revision : option Z)
  (expected_capsule_generation : option CapsuleGeneration) (teamlead : option VerifiedPrincipalV2)
  : M WorkerResumeRequestV2 :=
  source_ticket ← st_lift (_require_ticket_value source_ticket);
  capsule ← st_lift (of_class capsule "worker resume capsule v2 required");
  new_request_id ← st_lift (_require_text new_request_id "new_request_id");
  new_fence_epoch ← st_lift (of_class new_fence_epoch "invalid new fence");
  expected_revision ← st_lift (of_class expected_revision "invalid expected revision");
  generation ← st_lift (of_class expected_capsule_generation "invalid expected capsule generation");
  teamlead ← st_lift (_require_principal teamlead TEAMLEADER "teamlead");
  '(s, current) ← current_ticket source_ticket expected_revision None teamlead;
  _ ← st_lift (require (bool_decide (wt_phase current = CHECKPOINTED))
                 (SpawnDenied "resume requires checkpointed source"));
  _ ← st_lift (require (wt_fence_epoch current <? new_fence_epoch) (SpawnDenied "resume fence must advance"));
  _ ← st_lift (require (is_None (_find_ticket s new_request_id)) (SpawnDenied "new request replay"));
  _ ← st_lift (require (capsule_of_ticket current capsule generation) (SpawnDenied "resume capsule binding drift"));
  _ ← st_lift (require (negb (bool_decide (rc_capsule_digest capsule ∈ sl_consumed_capsule_digests s)))
                 (SpawnDenied "resume capsule already consumed"));
  requested ← st_lift (WorkerSpawnTicketV2_new (resumed_ticket current capsule new_request_id new_fence_epoch));
  _ ← _commit s {| rp_tickets := sl_tickets s ++ [requested];
                   rp_consumed := Some (sl_consumed_capsule_digests s ++ [rc_capsule_digest capsule]);
                   rp_used := None; rp_intents := None; rp_journals := None |};
  st_lift (WorkerResumeRequestV2_new
    {| rr_request_id := wt_request_id requested; rr_capsule_digest := rc_capsule_digest capsule;
       rr_capsule_generation := rc_capsule_generation capsule; rr_bee_digest := rc_bee_digest capsule;
       rr_session_digest := rc_session_digest capsule; rr_topic_digest := rc_topic_digest capsule;
       rr_policy_digest := rc_policy_digest capsule;
       rr_account_binding_digest := rc_account_binding_digest capsule; rr_phase := RESUME_REQUESTED;
       rr_requested_revision := 1; rr_requires_new_lease := true; rr_allows_in_place_credential_rotation := false |}).

(** The ledger as the port of [begin_resume_request]. *)
Definition resume_port : ResumeTransactionPort W WorkerSpawnTicketV2 VerifiedPrincipalV2 :=
  {| claim_resume_capsule_port := λ source capsule id fence revision generation teamlead,
       request ← claim_resume_capsule source capsule id fence revision generation teamlead; mret (Some request) |}.
End ledger.
