(* ===== verification/LedgerProofs.v ===== *)
(** * What the spawn ledger guarantees

    Over [WorkerLedger]: the legal steps of a ledger as a relation, the
    refinement of every operation by them over a port that other clients use as
    well, and the invariant of the states they reach. *)

From stdpp Require Import relations.
From S2P Require Import Prelude Json StrictJson PyEq Order ModelPolicy AgentResolver AccountAllocator AllocatorProofs WorkerResume WorkerLedger.
#[local] Open Scope Z_scope.

(** ** The legal steps *)

(** A team leader who may act on a ticket. *)
Definition authorized (t : WorkerSpawnTicketV2) (p : VerifiedPrincipalV2) : Prop :=
  vp_role p = TEAMLEADER ∧ _require_teamlead t p = Ok ().

Definition phase_change (phase : SpawnPhase) (claimed_by : option string) (lease : option (LeaseBindingReferenceV1 * string))
  : ticket_changes :=
  {| tc_phase := Some phase; tc_claimed_by := claimed_by; tc_lease := lease; tc_resume := None |}.
Definition capsule_change (digest : string) (generation : CapsuleGeneration) : ticket_changes :=
  {| tc_phase := None; tc_claimed_by := None; tc_lease := None; tc_resume := Some (digest, generation) |}.

Definition kept_parts (tickets : list WorkerSpawnTicketV2) (used : option (list LeaseBindingReferenceV1))
  (intents : option (list WorkerRegistryIntentV1)) (journals : option (list WorkerFailureJournalV1)) : replacements :=
  {| rp_tickets := tickets; rp_consumed := None; rp_used := used; rp_intents := intents; rp_journals := journals |}.

(** What may happen to a ticket: the changes and the other parts that change
    with it; [t'] is the ticket after the changes. *)
Inductive advancement (s : SpawnLedgerStateV2) (t : WorkerSpawnTicketV2) (p : VerifiedPrincipalV2)
  : ticket_changes → (WorkerSpawnTicketV2 → replacements) → Prop :=
  | advance_claim : wt_phase t = REQUESTED →
      advancement s t p (phase_change CLAIMED (Some (vp_principal_id p)) None)
        (λ t', kept_parts (_replace_ticket s t') None None None)
  | advance_intent : _find_registry_intent s (wt_ticket_id t) = None →
      advancement s t p no_changes (λ t', kept_parts (_replace_ticket s t') None
        (Some (sl_registry_intents s ++ [{| ri_ticket_id := wt_ticket_id t'; ri_ledger_revision := wt_ledger_revision t';
                                            ri_fence_epoch := wt_fence_epoch t' |}])) None)
  | advance_failure code : _find_failure_journal s (wt_ticket_id t) = None →
      advancement s t p no_changes (λ t', kept_parts (_replace_ticket s t') None None
        (Some (sl_failure_journals s ++
          [{| fj_primary_failure_code := code; fj_primary_failure_origin := expected_origin code;
              fj_compensation_status := initial_compensation (expected_origin code);
              fj_ticket_id := wt_ticket_id t'; fj_ledger_revision := wt_ledger_revision t';
              fj_fence_epoch := wt_fence_epoch t' |}])))
  | advance_compensation j status : _find_failure_journal s (wt_ticket_id t) = Some j →
      status ∈ allowed_statuses (fj_compensation_status j) → fj_ledger_revision j <= wt_ledger_revision t →
      advancement s t p no_changes (λ t', kept_parts (_replace_ticket s t') None None
        (Some (_replace_failure_journal s (journal_with j status t'))))
  | advance_phase phase : phase ∈ _NEXT_PHASES (wt_phase t) → phase ≠ LEASE_RESERVED →
      rollback_allowed phase t (_find_failure_journal s (wt_ticket_id t)) = true →
      quarantine_allowed phase t (_find_failure_journal s (wt_ticket_id t)) = true →
      (phase ∈ [ROLLED_BACK; CHECKPOINTED; STOPPED] → _require_terminal_binding t = Ok ()) →
      advancement s t p (phase_change phase None None)
        (λ t', kept_parts (_replace_ticket s t') (Some (sl_used_lease_binding_references s)) None None)
  | advance_lease reference account : wt_phase t = OFFER_VALIDATED → reference ∉ sl_used_lease_binding_references s →
      advancement s t p (phase_change LEASE_RESERVED None (Some (reference, account)))
        (λ t', kept_parts (_replace_ticket s t') (Some (sl_used_lease_binding_references s ++ [reference])) None None)
  | advance_capsule digest generation : wt_phase t ∈ bindable_phases → is_Some (wt_account_binding_digest t) →
      wt_resume_capsule_digest t = None → digest ∉ sl_consumed_capsule_digests s →
      (∀ t0, t0 ∈ sl_tickets s → wt_resume_capsule_digest t0 ≠ Some digest) →
      advancement s t p (capsule_change digest generation) (λ t', kept_parts (_replace_ticket s t') None None None).

(** A ticket as it is published. *)
Record published (t : WorkerSpawnTicketV2) : Prop := {
  pb_id : wt_ticket_id t = "ticket:" +:+ wt_request_id t;
  pb_revision : wt_ledger_revision t = 1;
  pb_phase : wt_phase t = REQUESTED;
  pb_claimed : wt_claimed_by_principal_id t = None;
  pb_lease : wt_lease_binding_reference t = None;
  pb_account : wt_account_binding_digest t = None;
  pb_capsule : wt_resume_capsule_digest t = None;
}.

Section steps.
Context (delegable : list string).

Inductive ledger_step (s : SpawnLedgerStateV2) : SpawnLedgerStateV2 → Prop :=
  | step_publish t s' : published t → wt_source_resume_capsule_digest t = None →
      wt_target_class_id t ∈ delegable → _find_ticket s (wt_request_id t) = None →
      SpawnLedgerStateV2_new (replaced s (only_tickets (sl_tickets s ++ [t]))) = Ok s' → ledger_step s s'
  | step_advance t p c parts t' s' : _find_ticket s (wt_request_id t) = Some t → authorized t p →
      advancement s t p c parts → _advance_ticket t c = Ok t' →
      SpawnLedgerStateV2_new (replaced s (parts t')) = Ok s' → ledger_step s s'
  | step_resume t p capsule id fence s' : _find_ticket s (wt_request_id t) = Some t → authorized t p →
      wt_phase t = CHECKPOINTED → wt_fence_epoch t < fence → _find_ticket s id = None →
      capsule_of_ticket t capsule (rc_capsule_generation capsule) = true →
      rc_capsule_digest capsule ∉ sl_consumed_capsule_digests s →
      SpawnLedgerStateV2_new (replaced s
        {| rp_tickets := sl_tickets s ++ [resumed_ticket t capsule id fence];
           rp_consumed := Some (sl_consumed_capsule_digests s ++ [rc_capsule_digest capsule]);
           rp_used := None; rp_intents := None; rp_journals := None |}) = Ok s' → ledger_step s s'.

Lemma state_new_Ok s s' : SpawnLedgerStateV2_new s = Ok s' →
  s' = s ∧ NoDup (wt_request_id <$> sl_tickets s) ∧ NoDup (sl_consumed_capsule_digests s)
  ∧ NoDup (sl_used_lease_binding_references s) ∧ NoDup (ri_ticket_id <$> sl_registry_intents s)
  ∧ NoDup (fj_ticket_id <$> sl_failure_journals s).
Proof.
  unfold SpawnLedgerStateV2_new, distinct. intros (u & H1 & H)%bind_Ok. apply bind_Ok in H as (? & _ & H).
  apply bind_Ok in H as (? & H2 & H). apply bind_Ok in H as (? & H3 & H). apply bind_Ok in H as (? & H4 & H).
  apply bind_Ok in H as (? & H5 & [= <-]). apply require_Ok, bool_decide_eq_true in H1.
  apply require_Ok, bool_decide_eq_true in H2. apply require_Ok, bool_decide_eq_true in H3.
  apply require_Ok, bool_decide_eq_true in H4. apply require_Ok, bool_decide_eq_true in H5. done.
Qed.

(** Every step raises the revision by one. *)
Lemma step_revision s s' : ledger_step s s' → sl_state_revision s' = sl_state_revision s + 1.
Proof. by intros [? ? _ _ _ _ [-> _]%state_new_Ok|? ? ? ? ? ? _ _ _ _ [-> _]%state_new_Ok|? ? ? ? ? ? _ _ _ _ _ _ _ [-> _]%state_new_Ok]. Qed.

Lemma steps_revision s s' : rtc ledger_step s s' → sl_state_revision s <= sl_state_revision s'
  ∧ (sl_state_revision s' = sl_state_revision s → s' = s).
Proof.
  induction 1 as [s|s s1 s' H _ [IH1 IH2]]; [done|]. apply step_revision in H. split; [lia|]. intros E. lia.
Qed.
End steps.

(** ** Sound ledgers *)

Definition leased_phases : list SpawnPhase :=
  [ LEASE_RESERVED; PROJECTED; HOME_COMMITTED; REGISTRY_RESERVED; START_GRANTED; RUNNING; DRAINING; CHECKPOINTED;
    STOPPED; ROLLED_BACK; QUARANTINED ].

Record ticket_sound (t : WorkerSpawnTicketV2) : Prop := {
  ts_id : wt_ticket_id t = "ticket:" +:+ wt_request_id t;
  ts_unclaimed : wt_phase t = REQUESTED → wt_claimed_by_principal_id t = None;
  ts_claimed : wt_phase t ∉ [REQUESTED; DENIED] → wt_claimed_by_principal_id t = Some (wt_authorized_teamlead_id t);
  ts_lease : is_Some (wt_lease_binding_reference t) ↔ wt_phase t ∈ leased_phases;
  ts_account : is_Some (wt_account_binding_digest t) ↔ is_Some (wt_lease_binding_reference t);
  ts_capsule : is_Some (wt_resume_capsule_digest t) → is_Some (wt_lease_binding_reference t);
  ts_terminal : wt_phase t ∈ [CHECKPOINTED; STOPPED; ROLLED_BACK] →
    capsule_required (wt_resume_requirement t) (wt_lifecycle t) = true → is_Some (wt_resume_capsule_digest t);
}.

(** [t] was requested to resume what [t0] left under the capsule [d]. *)
Record resumes (t0 t : WorkerSpawnTicketV2) (d : string) : Prop := {
  rs_capsule : wt_resume_capsule_digest t0 = Some d;
  rs_phase : wt_phase t0 ∈ [CHECKPOINTED; STOPPED; QUARANTINED];
  rs_fence : wt_fence_epoch t0 < wt_fence_epoch t;
  rs_teamlead : wt_authorized_teamlead_id t = wt_authorized_teamlead_id t0
    ∧ wt_authorized_teamlead_authority_digest t = wt_authorized_teamlead_authority_digest t0;
  rs_class : wt_target_class_id t = wt_target_class_id t0;
  rs_topic : wt_topic_digest t = wt_topic_digest t0 ∧ wt_topic_resume_binding t = Some (wt_topic_digest t0);
  rs_policy : wt_policy_digest t = wt_policy_digest t0 ∧ wt_source_resume_policy_digest t = Some (wt_policy_digest t0);
  rs_account : wt_account_binding_digest t0 = wt_source_resume_account_binding_digest t;
}.

Record ledger_sound (s : SpawnLedgerStateV2) : Prop := {
  so_requests : NoDup (wt_request_id <$> sl_tickets s);
  so_tickets : Forall ticket_sound (sl_tickets s);
  so_leases : omap wt_lease_binding_reference (sl_tickets s) ≡ₚ sl_used_lease_binding_references s;
  so_leases_once : NoDup (sl_used_lease_binding_references s);
  so_capsules_once : NoDup (omap wt_resume_capsule_digest (sl_tickets s));
  so_sources : omap wt_source_resume_capsule_digest (sl_tickets s) = sl_consumed_capsule_digests s;
  so_sources_once : NoDup (sl_consumed_capsule_digests s);
  so_resumes : ∀ t d, t ∈ sl_tickets s → wt_source_resume_capsule_digest t = Some d →
    ∃ t0, t0 ∈ sl_tickets s ∧ resumes t0 t d;
}.

Lemma find_ticket_Some s id t : _find_ticket s id = Some t → t ∈ sl_tickets s ∧ wt_request_id t = id.
Proof.
  unfold _find_ticket. intros [Hin E]%find_some. apply bool_decide_eq_true in E. split; [by apply list_elem_of_In|done].
Qed.

(** A found ticket splits the list, and replacing it puts the new one in its
    place. *)
Lemma replace_split s t : NoDup (wt_request_id <$> sl_tickets s) → t ∈ sl_tickets s →
  ∃ l1 l2, sl_tickets s = l1 ++ t :: l2
    ∧ ∀ t', wt_request_id t' = wt_request_id t → _replace_ticket s t' = l1 ++ t' :: l2.
Proof.
  intros Hnd [l1 [l2 E]]%list_elem_of_split. exists l1, l2. split; [done|]. intros t' Ht'. unfold _replace_ticket.
  rewrite E in Hnd |- *. rewrite fmap_app, fmap_cons in Hnd. rewrite fmap_app, fmap_cons. apply NoDup_app in Hnd as (_ & Hd & [Hni _]%NoDup_cons).
  rewrite bool_decide_eq_true_2 by done. f_equal; [|f_equal]; (etrans; [|apply list_fmap_id]).
  - apply list_fmap_ext. intros i x Hx%list_elem_of_lookup_2. cbn. rewrite bool_decide_eq_false_2; [done|].
    intros Ex. apply (Hd (wt_request_id x)); [by apply list_elem_of_fmap_2|]. rewrite Ex, Ht'. by left.
  - apply list_fmap_ext. intros i x Hx%list_elem_of_lookup_2. cbn. rewrite bool_decide_eq_false_2; [done|].
    intros Ex. apply Hni. rewrite <- Ht', <- Ex. by apply list_elem_of_fmap_2.
Qed.

Lemma ticket_new_Ok t t' : WorkerSpawnTicketV2_new t = Ok t' → t' = t.
Proof. unfold WorkerSpawnTicketV2_new. intros H. repeat (apply bind_Ok in H as (? & _ & H)). by injection H as <-. Qed.

Lemma authorized_claim t p : authorized t p → vp_principal_id p = wt_authorized_teamlead_id t.
Proof. intros [_ (? & [E%bool_decide_eq_true _]%require_Ok%andb_true_iff & _)%bind_Ok]. done. Qed.

Lemma terminal_binding_Ok t : _require_terminal_binding t = Ok () →
  capsule_required (wt_resume_requirement t) (wt_lifecycle t) = true → is_Some (wt_resume_capsule_digest t).
Proof.
  unfold _require_terminal_binding. intros H%require_Ok Hc. rewrite Hc in H. cbn in H.
  destruct (wt_resume_capsule_digest t); [by eexists|done].
Qed.

(** What an advancement does to the parts the ledger's soundness looks at. *)
Record advanced (s : SpawnLedgerStateV2) (t t' : WorkerSpawnTicketV2) (r : replacements) : Prop := {
  ad_sound : ticket_sound t';
  ad_tickets : rp_tickets r = _replace_ticket s t' ∧ rp_consumed r = None;
  ad_lease : (wt_lease_binding_reference t' = wt_lease_binding_reference t
              ∧ default (sl_used_lease_binding_references s) (rp_used r) = sl_used_lease_binding_references s)
    ∨ ∃ reference, wt_lease_binding_reference t = None ∧ wt_lease_binding_reference t' = Some reference
        ∧ rp_used r = Some (sl_used_lease_binding_references s ++ [reference])
        ∧ reference ∉ sl_used_lease_binding_references s;
  ad_capsule : wt_resume_capsule_digest t' = wt_resume_capsule_digest t
    ∨ ∃ d, wt_resume_capsule_digest t = None ∧ wt_resume_capsule_digest t' = Some d
        ∧ ∀ t0, t0 ∈ sl_tickets s → wt_resume_capsule_digest t0 ≠ Some d;
  ad_phase : wt_phase t ∈ [CHECKPOINTED; STOPPED; QUARANTINED] →
    wt_phase t' ∈ [CHECKPOINTED; STOPPED; QUARANTINED] ∧ wt_account_binding_digest t' = wt_account_binding_digest t
    ∧ wt_resume_capsule_digest t' = wt_resume_capsule_digest t;
}.

(** Decide what is known of phases. *)
Ltac phases :=
  unfold leased_phases, bindable_phases in *; cbn in *;
  repeat match goal with
  | H : _ ∈ _ :: _ |- _ => apply elem_of_cons in H as [H|H]
  | H : _ ∈ [] |- _ => by apply elem_of_nil in H
  end; subst; try congruence.

Lemma advance_sound s t p c parts : ticket_sound t → authorized t p → advancement s t p c parts →
  ticket_sound (changed_ticket t c).
Proof.
  intros Hs Hp Ha. pose proof (authorized_claim t p Hp) as Hclaim. destruct Hs as [Hid Hun Hcl Hle Hac Hca Hte].
  destruct Ha as [Hph| | |j status _ _ _|phase Hn Hne _ _ Hterm|reference account Hph Hni|digest generation Hb Ha Hnone _ Hfresh].
  - rewrite Hph in Hle. split; cbn; try done; [by rewrite Hclaim|rewrite Hle|by intros ?; phases].
    split; intros ?; phases.
  - done.
  - done.
  - done.
  - split; cbn; try done.
    + intros ->. destruct (wt_phase t); phases.
    + intros Hphase. apply Hcl. intros Ht. apply Hphase. destruct (wt_phase t); phases; by repeat (left || right).
    + rewrite Hle. destruct (wt_phase t) eqn:E; phases; split; intros ?; phases; by repeat (left || right).
    + intros Hp3. apply terminal_binding_Ok, Hterm.
      clear -Hp3. phases; by repeat (left || right).
  - rewrite Hph in *. split; cbn; try done.
    + intros _. apply Hcl. intros ?; phases.
    + split; [intros _; by repeat (left || right)|by eexists].
    + intros ?; phases.
  - split; cbn; try done. intros _. by apply Hac.
Qed.

Lemma advance_advanced s t p c parts : ticket_sound t → authorized t p → advancement s t p c parts →
  advanced s t (changed_ticket t c) (parts (changed_ticket t c)).
Proof.
  intros Hs Hp Ha. pose proof (advance_sound s t p c parts Hs Hp Ha) as Ht'.
  destruct Ha as [Hph| | |j status _ _ _|phase Hn Hne _ _ Hterm|reference account Hph Hni|digest generation Hb Ha Hnone _ Hfresh].
  all: split; cbn; try done; try (left; done); try by left.
  - intros ?; phases.
  - intros Hq. split; [|done]. destruct (wt_phase t); phases; by repeat (left || right).
  - right. exists reference. split_and!; try done. destruct (wt_lease_binding_reference t) eqn:E; [|done].
    assert (wt_phase t ∈ leased_phases) as Hl by (apply (ts_lease t Hs); by rewrite E). rewrite Hph in Hl. phases.
  - intros ?; phases.
  - right. by exists digest.
  - intros Hq. exfalso. destruct (wt_phase t); phases.
Qed.

(** Who resumes whom survives an advancement of either ticket. *)
Lemma resumes_advance s t t' r t0 t1 c d : advanced s t t' r → t' = changed_ticket t c → resumes t0 t1 d →
  (t0 = t → resumes t' t1 d) ∧ (t1 = t → resumes t0 t' d) ∧ (t0 = t → t1 = t → resumes t' t' d).
Proof.
  intros Ha E [Hc Hp Hf Ht Hk [To Tr] [Po Pr] Hacc]. pose proof (ad_phase _ _ _ _ Ha) as Hph. rewrite E in Hph |- *. split_and!.
  - intros ->. destruct (Hph Hp) as (Hp' & Ha' & Hc'). split; cbn in *; congruence || done.
  - intros ->. by split.
  - intros -> ->. lia.
Qed.

Lemma advanced_sound s t t' c r s' : ledger_sound s → t ∈ sl_tickets s → advanced s t t' r → t' = changed_ticket t c →
  SpawnLedgerStateV2_new (replaced s r) = Ok s' → ledger_sound s'.
Proof.
  intros Hs Ht Ha Ec (-> & Hreq & Hcons & Hused & _)%state_new_Ok.
  destruct (ad_tickets _ _ _ _ Ha) as [Et Eco]. cbn in *. rewrite Et in Hreq. rewrite Eco in Hcons. cbn in Hcons.
  destruct (replace_split s t (so_requests s Hs) Ht) as (l1 & l2 & E & Hrep). specialize (Hrep t').
  rewrite Hrep in Et, Hreq by (by rewrite Ec).
  assert (Hin : ∀ x, x ∈ l1 ++ t' :: l2 ↔ x = t' ∨ x ∈ l1 ++ l2) by (intros x; rewrite !elem_of_app, elem_of_cons; tauto).
  assert (Hin0 : ∀ x, x ∈ sl_tickets s ↔ x = t ∨ x ∈ l1 ++ l2) by (intros x; rewrite E, !elem_of_app, elem_of_cons; tauto).
  pose proof (so_leases s Hs) as Hl. pose proof (so_capsules_once s Hs) as Hc. pose proof (so_sources s Hs) as Hso.
  rewrite E, omap_app in Hl. rewrite E, omap_app in Hc. rewrite E, omap_app in Hso. cbn in Hl, Hc, Hso.
  split; cbn; rewrite ?Et, ?Eco; try done.
  - apply Forall_forall. intros x [->|Hx]%Hin; [apply (ad_sound _ _ _ _ Ha)|].
    apply (proj1 (Forall_forall _ _) (so_tickets s Hs)). apply Hin0. by right.
  - rewrite omap_app. cbn. destruct (ad_lease _ _ _ _ Ha) as [[-> ->]|(reference & Hn & Hr & -> & _)]; [exact Hl|].
    rewrite Hr. rewrite Hn in Hl. cbn. rewrite <- Hl. rewrite <- Permutation_middle.
    apply Permutation_cons_append.
  - rewrite omap_app. cbn. destruct (ad_capsule _ _ _ _ Ha) as [->|(d & Hn & Hd & Hfresh)]; [exact Hc|].
    rewrite Hd. rewrite Hn in Hc. cbn. rewrite <- Permutation_middle. apply NoDup_cons. split; [|exact Hc].
    intros Hd'. rewrite <- omap_app in Hd'. apply list_elem_of_omap in Hd' as (x & Hx & Ex).
    apply (Hfresh x); [apply Hin0; by right|done].
  - rewrite omap_app. cbn. rewrite Ec. exact Hso.
  - intros x d Hx Hd. assert (∃ y, y ∈ sl_tickets s ∧ wt_source_resume_capsule_digest y = Some d
                                ∧ (x = y ∨ y = t ∧ x = t')) as (y & Hy & Hyd & Hxy).
    { apply Hin in Hx as [->|Hx]; [exists t|exists x; split_and!; [apply Hin0; by right|done|by left]].
      rewrite Ec in Hd. by split_and!; [|exact Hd|right]. }
    destruct (so_resumes s Hs y d Hy Hyd) as (t0 & Ht0 & Hr0).
    destruct (resumes_advance s t t' r t0 y c d Ha Ec Hr0) as (H1 & H2 & H3).
    destruct (decide (t0 = t)) as [E0|Hne].
    + exists t'. split; [apply Hin; by left|]. destruct Hxy as [->|[-> ->]]; auto.
    + exists t0. split; [apply Hin; right; by apply Hin0 in Ht0 as [?|?]|]. destruct Hxy as [->|[-> ->]]; auto.
Qed.

(** A ticket added at the end. *)
Lemma added_sound s t s' r : ledger_sound s → published t → rp_tickets r = sl_tickets s ++ [t] → rp_used r = None →
  default (sl_consumed_capsule_digests s) (rp_consumed r)
    = sl_consumed_capsule_digests s ++ option_list (wt_source_resume_capsule_digest t) →
  (∀ d, wt_source_resume_capsule_digest t = Some d → ∃ t0, t0 ∈ sl_tickets s ∧ resumes t0 t d) →
  SpawnLedgerStateV2_new (replaced s r) = Ok s' → ledger_sound s'.
Proof.
  intros Hs [Pid Prev Pph Pcl Ple Pac Pca] Et Eu Eco Hres (-> & Hreq & Hcons & Hused & _)%state_new_Ok. cbn in *.
  rewrite Et in Hreq. rewrite Eu in Hused. cbn in Hused. split; cbn; rewrite ?Et, ?Eu, ?Eco; try done.
  - apply Forall_app. split; [apply (so_tickets s Hs)|]. constructor; [|constructor].
    split; try done; rewrite ?Pph, ?Ple, ?Pac, ?Pca.
    + intros Hn. exfalso. apply Hn. by left.
    + split; [by intros []|intros ?; phases].
    + done.
    + done.
    + intros ?; phases.
  - rewrite omap_app. cbn. rewrite Ple, app_nil_r. apply (so_leases s Hs).
  - rewrite omap_app. cbn. rewrite Pca, app_nil_r. apply (so_capsules_once s Hs).
  - rewrite omap_app, (so_sources s Hs). cbn. by destruct (wt_source_resume_capsule_digest t).
  - by rewrite Eco in Hcons.
  - intros x d [Hx | ->%list_elem_of_singleton]%elem_of_app Hd.
    + destruct (so_resumes s Hs x d Hx Hd) as (t0 & ? & ?). exists t0. rewrite elem_of_app. auto.
    + destruct (Hres d Hd) as (t0 & ? & ?). exists t0. rewrite elem_of_app. auto.
Qed.

Lemma step_sound delegable s s' : ledger_sound s → ledger_step delegable s s' → ledger_sound s'.
Proof.
  intros Hs Hstep. destruct Hstep as [t s' Hp Hso _ _ Hnew|t p c parts t' s' Hf Hau Ha Ht' Hnew|t p capsule id fence s' Hf Hau Hph Hfe _ Hc _ Hnew].
  - refine (added_sound s t s' (only_tickets (sl_tickets s ++ [t])) Hs Hp eq_refl eq_refl _ _ Hnew); rewrite Hso; [cbn; by rewrite app_nil_r|done].
  - apply find_ticket_Some in Hf as [Hin _]. apply ticket_new_Ok in Ht'. subst t'.
    assert (ticket_sound t) as Ht by by apply (proj1 (Forall_forall _ _) (so_tickets s Hs)).
    by eapply (advanced_sound s t); [..|apply (advance_advanced s t p c parts)| |].
  - apply find_ticket_Some in Hf as [Hin _]. refine (added_sound s (resumed_ticket t capsule id fence) s' _ Hs _ _ _ _ _ Hnew); [by split|done|done|done|].
    intros d [= <-]. exists t. split; [done|]. unfold capsule_of_ticket in Hc. rewrite !andb_true_iff in Hc.
    destruct Hc as [[[[[Hd%bool_decide_eq_true _] _] Ht%bool_decide_eq_true] Hp%bool_decide_eq_true] Hac%bool_decide_eq_true].
    split; cbn; try done; [rewrite Hph; by left|by rewrite Ht|by rewrite Hp].
Qed.

Lemma empty_sound : ledger_sound SpawnLedgerStateV2_empty.
Proof. split; cbn; try constructor; by intros t d ?%elem_of_nil. Qed.

Lemma steps_sound delegable s s' : ledger_sound s → rtc (ledger_step delegable) s s' → ledger_sound s'.
Proof. intros Hs H. induction H as [|s s1 s' H1 _ IH]; [done|]. apply IH. by eapply step_sound. Qed.

(** ** The operations take legal steps *)

Section operations.
Context {W : Type} `{LeaseVerification W} (ledger : WorkerSpawnLedger W) (contents : W → SpawnLedgerStateV2).
#[local] Notation M := (ST W).
#[local] Notation step := (ledger_step (_delegable_class_ids ledger)).

(** The state a call leaves is reached from the one it found. *)
Definition moves {A} (m : M A) : Prop := ∀ w, rtc step (contents w) (contents (m w).1).

(** The port is used by other ledgers as well: between two of its effects the
    contents move by legal steps.  Reading answers what the contents were at
    some moment of the call; swapping replaces them only when their revision is
    the expected one, and answers [True] only if it did. *)
Record lawful_port : Prop := {
  lp_read : ∀ w, ∃ s, rtc step (contents w) s ∧ rtc step s (contents (read_port (_state_port ledger) w).1)
    ∧ ∀ s', (read_port (_state_port ledger) w).2 = Ok (Some s') → s' = s;
  lp_swap : ∀ expected s' w, let '(w', r) := compare_and_swap (_state_port ledger) expected s' w in
    (∃ s, rtc step (contents w) s ∧ sl_state_revision s = expected ∧ rtc step s' (contents w'))
    ∨ (rtc step (contents w) (contents w') ∧ r ≠ Ok (VBool true));
  lp_verify : ∀ receipt lease t e, moves (lv_verify receipt lease t e);
  lp_reference : ∀ v, moves (lv_reference_for v);
  lp_close : ∀ v, moves (lv_close v);
}.
Context (lawful : lawful_port).

(** A call that commits one legal step when it returns. *)
Definition takes_step {A} (pick : A → SpawnLedgerStateV2 → Prop) (m : M A) : Prop :=
  ∀ w, let '(w', r) := m w in rtc step (contents w) (contents w')
    ∧ ∀ a, r = Ok a → ∃ s s', rtc step (contents w) s ∧ step s s' ∧ pick a s' ∧ rtc step s' (contents w').

(** The same after the state [s] was read. *)
Definition after {A} (s : SpawnLedgerStateV2) (pick : A → SpawnLedgerStateV2 → Prop) (m : M A) : Prop :=
  ∀ w, rtc step s (contents w) → let '(w', r) := m w in rtc step (contents w) (contents w')
    ∧ ∀ a, r = Ok a → ∃ s', step s s' ∧ pick a s' ∧ rtc step s' (contents w').

Lemma takes_lift {A B} (pick : B → _ → Prop) (r : result A) f :
  (∀ a, r = Ok a → takes_step pick (f a)) → takes_step pick (st_lift r ≫= f).
Proof. intros Hf w. destruct r as [a|e]; [by apply Hf|done]. Qed.

Lemma after_lift {A B} s (pick : B → _ → Prop) (r : result A) f :
  (∀ a, r = Ok a → after s pick (f a)) → after s pick (st_lift r ≫= f).
Proof. intros Hf w Hw. destruct r as [a|e]; [by apply Hf|done]. Qed.

Lemma after_error {A} s (pick : A → _ → Prop) e : after s pick (st_lift (Err e)).
Proof. intros w Hw. done. Qed.

Lemma after_move {A B} s (pick : B → _ → Prop) (m : M A) f :
  moves m → (∀ a, after s pick (f a)) → after s pick (m ≫= f).
Proof.
  intros Hm Hf w Hw. rewrite st_bind_eq. specialize (Hm w). destruct (m w) as [w1 [a|e]]; cbn in Hm; [|done].
  assert (rtc step s (contents w1)) as Hw1 by by etrans. specialize (Hf a w1 Hw1). destruct (f a w1) as [w2 r]. destruct Hf as [Hr Ha].
  split; [by etrans|done].
Qed.

Lemma read_state_run w : ∃ s, rtc step (contents w) s ∧ rtc step s (contents (_read_state ledger w).1)
  ∧ ∀ s', (_read_state ledger w).2 = Ok s' → s' = s.
Proof using lawful.
  destruct (lp_read lawful w) as (s & H1 & H2 & H3). exists s. unfold _read_state. rewrite st_bind_eq.
  unfold st_catch. destruct (read_port _ w) as [w1 [[s'|]|e]]; cbn in *; split_and!; try done.
  intros ? [= <-]. by apply H3.
Qed.

Lemma takes_read {B} (pick : B → _ → Prop) f : (∀ s, after s pick (f s)) → takes_step pick (_read_state ledger ≫= f).
Proof using lawful.
  intros Hf w. rewrite st_bind_eq. destruct (read_state_run w) as (s & H1 & H2 & H3).
  destruct (_read_state ledger w) as [w1 [s'|e]]; cbn in *; [|split; [by etrans|done]].
  specialize (H3 s' eq_refl). subst s'. specialize (Hf s w1 H2). destruct (f s w1) as [w2 r].
  destruct Hf as [Hr Ha]. split; [by etrans; [|etrans]|]. intros a E. destruct (Ha a E) as (s' & ? & ? & ?). by exists s, s'.
Qed.

(** A commit replaces exactly the state that was read. *)
Lemma commit_run s r w : rtc step s (contents w) → (∀ s', SpawnLedgerStateV2_new (replaced s r) = Ok s' → step s s') →
  let '(w', res) := _commit ledger s r w in rtc step (contents w) (contents w')
    ∧ (res = Ok () → ∃ s', SpawnLedgerStateV2_new (replaced s r) = Ok s' ∧ rtc step s' (contents w')).
Proof using lawful.
  intros Hw Hstep. unfold _commit. rewrite st_bind_eq. unfold st_lift.
  destruct (SpawnLedgerStateV2_new (replaced s r)) as [s'|e] eqn:Hnew; [|done]. rewrite st_bind_eq. unfold st_catch.
  pose proof (lp_swap lawful (sl_state_revision s) s' w) as Hswap.
  destruct (compare_and_swap _ _ _ w) as [w' res].
  assert (rtc step (contents w) (contents w') ∧ (res = Ok (VBool true) → rtc step s' (contents w'))) as [H1 H2].
  { destruct Hswap as [(s1 & Hs1 & Hrev & Hs')|[Hr Hne]]; [|by split].
    assert (s1 = s) as ->.
    { apply (steps_revision (_delegable_class_ids ledger) s s1); [by etrans|done]. }
    split; [|done]. etrans; [exact Hs1|]. etrans; [apply rtc_once, Hstep; reflexivity|exact Hs']. }
  destruct res as [v|e]; [|done]. destruct v as [|[]| | | | |]; try (split; [exact H1|done]).
  split; [exact H1|]. intros _. exists s'. auto.
Qed.

Lemma after_commit {A} s (pick : A → _ → Prop) r (answer : result A) :
  (∀ s', SpawnLedgerStateV2_new (replaced s r) = Ok s' → step s s' ∧ ∀ a, answer = Ok a → pick a s') →
  after s pick (_ ← _commit ledger s r; st_lift answer).
Proof using lawful.
  intros Hs w Hw. rewrite st_bind_eq. pose proof (commit_run s r w Hw (λ s' E, proj1 (Hs s' E))) as Hc.
  destruct (_commit ledger s r w) as [w1 [[]|e]]; destruct Hc as [H1 H2]; [|done].
  split; [exact H1|]. intros a E. destruct (H2 eq_refl) as (s' & Hnew & Hs'). exists s'.
  destruct (Hs s' Hnew) as [? Hp]. split_and!; [done|by apply Hp|done].
Qed.

(** The ticket in question is one of the ledger's. *)
Definition holds (t : WorkerSpawnTicketV2) (s : SpawnLedgerStateV2) : Prop := t ∈ sl_tickets s.

Lemma after_commit_ticket s r t :
  (∀ s', SpawnLedgerStateV2_new (replaced s r) = Ok s' → step s s' ∧ holds t s') →
  after s holds (_ ← _commit ledger s r; mret t).
Proof using lawful. intros Hs. apply (after_commit s holds r (Ok t)). intros s' E. split; [by apply Hs|]. intros a [= <-]. by apply Hs. Qed.

(** What [current_ticket] has checked when it returns. *)
Lemma takes_current {B} (pick : B → _ → Prop) ticket revision fence p f :
  (∀ s t, _find_ticket s (wt_request_id t) = Some t → _require_teamlead t p = Ok () → after s pick (f (s, t))) →
  takes_step pick (current_ticket ledger ticket revision fence p ≫= f).
Proof using lawful.
  intros Hf w.
  assert ((current_ticket ledger ticket revision fence p ≫= f) w = (s ← _read_state ledger;
    current ← st_lift (_require_current_ticket s ticket);
    _ ← st_lift (_require_revision current revision);
    _ ← st_lift (match fence with Some fence => _require_fence current fence | None => Ok () end);
    _ ← st_lift (_require_teamlead current p); f (s, current)) w) as ->.
  { unfold current_ticket, mbind, st_bind, st_lift, mret, st_ret. destruct (_read_state ledger w) as [w1 [s|]]; [|done].
    destruct (_require_current_ticket s ticket); [|done]. destruct (_require_revision _ _); [|done].
    destruct (match fence with Some _ => _ | None => _ end); [|done]. by destruct (_require_teamlead _ _). }
  revert w. change (takes_step pick (s ← _read_state ledger;
    current ← st_lift (_require_current_ticket s ticket);
    _ ← st_lift (_require_revision current revision);
    _ ← st_lift (match fence with Some fence => _require_fence current fence | None => Ok () end);
    _ ← st_lift (_require_teamlead current p); f (s, current))).
  apply takes_read. intros s. apply after_lift. intros current Hc. apply after_lift. intros _ _. apply after_lift. intros _ _.
  apply after_lift. intros [] Hp. unfold _require_current_ticket, _require_ticket in Hc.
  apply bind_Ok in Hc as (current' & Hfind & Hc). destruct (_find_ticket s (wt_request_id ticket)) as [t|] eqn:E; [|done].
  injection Hfind as <-. apply bind_Ok in Hc as (? & He%require_Ok%bool_decide_eq_true & [= <-]). subst t. by apply Hf.
Qed.

(** An advancement of the current ticket, committed. *)
Lemma after_advance s t p c parts t' : _find_ticket s (wt_request_id t) = Some t → vp_role p = TEAMLEADER →
  _require_teamlead t p = Ok () → advancement s t p c parts → _advance_ticket t c = Ok t' →
  after s holds (_ ← _commit ledger s (parts t'); mret t').
Proof using lawful.
  intros Hf Hr Hp Ha Ht. apply after_commit_ticket. intros s' Hnew. split; [by eapply step_advance|].
  apply state_new_Ok in Hnew as [-> _]. unfold holds. cbn. apply ticket_new_Ok in Ht. subst t'.
  assert (rp_tickets (parts (changed_ticket t c)) = _replace_ticket s (changed_ticket t c)) as -> by by destruct Ha.
  unfold _replace_ticket. apply list_elem_of_fmap. exists t. apply find_ticket_Some in Hf as [? _].
  by rewrite bool_decide_eq_true_2.
Qed.

Lemma require_principal_Ok p role f q : _require_principal p role f = Ok q → p = Some q ∧ vp_role q = role.
Proof. unfold _require_principal. destruct p as [p|]; [|done]. case_bool_decide; [|done]. by intros [= <-]. Qed.

(** [lifts]: go through the checks that are lifted results. *)
Ltac lifts := repeat (apply takes_lift; intros ? ?).
Ltac after_lifts := repeat (apply after_lift; intros ? ?).
Ltac role_of_teamlead :=
  match goal with H : _require_principal _ TEAMLEADER _ = Ok ?p |- vp_role ?p = TEAMLEADER =>
    by apply require_principal_Ok in H as [_ ?] end.

Lemma publish_takes_step id requester wp td tc teamlead rdd rg pd pg lc rr fe :
  takes_step holds (publish_requested ledger id requester wp td tc teamlead rdd rg pd pg lc rr fe).
Proof using lawful.
  unfold publish_requested. lifts. apply takes_read. intros s. after_lifts. apply after_commit_ticket. intros s' Hnew.
  repeat match goal with H : require _ _ = Ok _ |- _ => apply require_Ok in H end.
  match goal with H : WorkerSpawnTicketV2_new _ = Ok ?t |- _ => apply ticket_new_Ok in H; subst t end.
  split.
  - refine (step_publish _ s _ s' _ _ _ _ Hnew); [by split|done| |].
    + by match goal with H : bool_decide (_ ∈ _) = true |- _ => apply bool_decide_eq_true in H end.
    + cbn. by destruct (_find_ticket s _).
  - apply state_new_Ok in Hnew as [-> _]. apply elem_of_app. right. by left.
Qed.

Lemma claim_takes_step id teamlead revision : takes_step holds (claim ledger id teamlead revision).
Proof using lawful.
  unfold claim. lifts. apply takes_read. intros s. apply after_lift. intros t Ht. after_lifts.
  unfold _require_ticket in Ht. destruct (_find_ticket s _) as [t'|] eqn:E; [|done]. injection Ht as ->.
  pose proof E as [_ Hid]%find_ticket_Some. rewrite <- Hid in E.
  match goal with HP : _require_principal _ TEAMLEADER _ = Ok ?p, H : _advance_ticket t _ = Ok ?c |- _ =>
    eapply (after_advance s t p _ (λ t', kept_parts (_replace_ticket s t') None None None) c E);
      [role_of_teamlead| | |exact H] end.
  { by match goal with H : _require_teamlead t _ = Ok ?u |- _ => destruct u end. }
  apply advance_claim. by match goal with H : require (bool_decide (wt_phase t = _)) _ = Ok _ |- _ => apply require_Ok, bool_decide_eq_true in H end.
Qed.

Lemma intent_takes_step ticket revision fence teamlead : takes_step holds (record_registry_intent ledger ticket revision fence teamlead).
Proof using lawful.
  unfold record_registry_intent. lifts. apply takes_current. intros s t Hf Hp. after_lifts.
  match goal with HP : _require_principal _ TEAMLEADER _ = Ok ?p, H : _advance_ticket t _ = Ok ?t' |- _ =>
    eapply (after_advance s t p _ (λ t', kept_parts (_replace_ticket s t') None (Some _) None) t' Hf); [role_of_teamlead|exact Hp| |exact H] end.
  apply advance_intent. match goal with H : require (is_None ?o) _ = Ok _ |- _ => apply require_Ok in H; by destruct o end.
Qed.

Lemma failure_takes_step ticket code origin status revision fence teamlead :
  takes_step holds (record_failure ledger ticket code origin status revision fence teamlead).
Proof using lawful.
  unfold record_failure. lifts. apply takes_current. intros s t Hf Hp. apply after_lift. intros ? Hn%require_Ok.
  apply after_lift. intros ? Ho%require_Ok%bool_decide_eq_true. apply after_lift. intros ? Hs%require_Ok%bool_decide_eq_true.
  rewrite Hs, Ho. after_lifts.
  match goal with HP : _require_principal _ TEAMLEADER _ = Ok ?p, H : _advance_ticket t _ = Ok ?t' |- _ =>
    eapply (after_advance s t p _ (λ t', kept_parts (_replace_ticket s t') None None (Some _)) t' Hf); [role_of_teamlead|exact Hp| |exact H] end.
  apply advance_failure. by destruct (_find_failure_journal s (wt_ticket_id t)).
Qed.

Lemma compensation_takes_step ticket status revision fence teamlead :
  takes_step holds (advance_compensation_status ledger ticket status revision fence teamlead).
Proof using lawful.
  unfold advance_compensation_status. lifts. apply takes_current. intros s t Hf Hp. apply after_lift. intros j Hj.
  apply after_lift. intros ? [_ Hr]%require_Ok%andb_true_iff. apply after_lift. intros ? Hs%require_Ok%bool_decide_eq_true. after_lifts.
  match goal with HP : _require_principal _ TEAMLEADER _ = Ok ?p, H : _advance_ticket t _ = Ok ?t' |- _ =>
    eapply (after_advance s t p _ (λ t', kept_parts (_replace_ticket s t') None None (Some (_replace_failure_journal s (journal_with j _ t')))) t' Hf);
      [role_of_teamlead|exact Hp| |exact H] end.
  apply advance_compensation; [|exact Hs|lia]. destruct (_find_failure_journal s (wt_ticket_id t)); [|done]. by injection Hj as ->.
Qed.

Lemma moves_denied {A} (m : M A) : moves m → moves (denied_as_spawn m).
Proof.
  intros Hm w. unfold denied_as_spawn, st_catch. specialize (Hm w). destruct (m w) as [w' [a|e]]; [done|]. exact Hm.
Qed.

Lemma after_closing {A} s (pick : A → _ → Prop) v (m : M A) : after s pick m → after s pick (closing v m).
Proof using lawful.
  intros Hm w Hw. specialize (Hm w Hw). unfold closing. destruct (m w) as [w1 [a|e]]; destruct Hm as [H1 H2].
  - pose proof (lp_close lawful v w1) as Hc. destruct (lv_close v w1) as [w2 [[]|e']]; cbn in Hc.
    + split; [by etrans|]. intros ? [= <-]. destruct (H2 a eq_refl) as (s' & ? & ? & ?). exists s'. split_and!; [done|done|by etrans].
    + split; [by etrans|]. by destruct (is_allocation_denied e').
  - pose proof (lp_close lawful v w1) as Hc. destruct (lv_close v w1) as [w2 [[]|e']]; cbn in Hc; (split; [by etrans|]); [done|].
    by destruct (is_allocation_denied e').
Qed.

Lemma append_takes_step ticket phase revision fence teamlead binding :
  takes_step holds (append_phase ledger ticket phase revision fence teamlead binding).
Proof using lawful.
  unfold append_phase. lifts. apply takes_current. intros s t Hf Hp. apply after_lift. intros ? Hn%require_Ok%bool_decide_eq_true.
  apply after_lift. intros ? Hro%require_Ok. apply after_lift. intros ? Hqu%require_Ok.
  case_bool_decide as Hph.
  - subst. destruct binding as [| |binding]; try apply after_error. unfold reserve_lease. apply after_lift. intros ? _.
    apply after_move; [apply moves_denied, (lp_verify lawful)|]. intros v. apply after_closing.
    apply after_move; [apply moves_denied, (lp_reference lawful)|]. intros reference. apply after_lift.
    intros ? Hfresh%require_Ok%negb_true_iff%bool_decide_eq_false. unfold commit_phase. after_lifts.
    match goal with HP : _require_principal _ TEAMLEADER _ = Ok ?p, H : _advance_ticket t _ = Ok ?t' |- _ =>
      eapply (after_advance s t p _ (λ t', kept_parts (_replace_ticket s t') (Some _) None None) t' Hf); [role_of_teamlead|exact Hp| |exact H] end.
    apply advance_lease; [|exact Hfresh]. destruct (wt_phase t); phases.
  - destruct binding as [| |binding]; try apply after_error. unfold commit_phase. apply after_lift. intros [] Hterm. after_lifts.
    match goal with HP : _require_principal _ TEAMLEADER _ = Ok ?p, H : _advance_ticket t _ = Ok ?t' |- _ =>
      eapply (after_advance s t p _ (λ t', kept_parts (_replace_ticket s t') (Some _) None None) t' Hf); [role_of_teamlead|exact Hp| |exact H] end.
    apply advance_phase; try done. intros Hfin. by rewrite bool_decide_eq_true_2 in Hterm.
Qed.

Lemma bind_takes_step ticket capsule revision fence teamlead : takes_step holds (bind_resume_capsule ledger ticket capsule revision fence teamlead).
Proof using lawful.
  unfold bind_resume_capsule. lifts. apply takes_current. intros s t Hf Hp. apply after_lift. intros ? Hb%require_Ok%bool_decide_eq_true.
  apply after_lift. intros account Ha. apply after_lift. intros ? _. apply after_lift. intros ? Hn%require_Ok.
  apply after_lift. intros ? Hfr%require_Ok%negb_true_iff. apply orb_false_iff in Hfr as [Hc%bool_decide_eq_false Ho]. after_lifts.
  match goal with HP : _require_principal _ TEAMLEADER _ = Ok ?p, H : _advance_ticket t _ = Ok ?t' |- _ =>
    eapply (after_advance s t p _ (λ t', kept_parts (_replace_ticket s t') None None None) t' Hf); [role_of_teamlead|exact Hp| |exact H] end.
  apply advance_capsule; try done.
  - destruct (wt_account_binding_digest t); [by eexists|done].
  - by destruct (wt_resume_capsule_digest t).
  - intros t0 Hin E. apply not_true_iff_false in Ho. apply Ho, existsb_exists. exists t0.
    split; [by apply list_elem_of_In|by apply bool_decide_eq_true].
Qed.

Definition answers (r : WorkerResumeRequestV2) (s : SpawnLedgerStateV2) : Prop :=
  ∃ t, holds t s ∧ wt_request_id t = rr_request_id r ∧ wt_source_resume_capsule_digest t = Some (rr_capsule_digest r).

Lemma resume_takes_step source capsule id fence revision generation teamlead :
  takes_step answers (claim_resume_capsule ledger source capsule id fence revision generation teamlead).
Proof using lawful.
  unfold claim_resume_capsule. lifts. apply takes_current. intros s t Hf Hp. apply after_lift. intros ? Hph%require_Ok%bool_decide_eq_true.
  apply after_lift. intros ? Hfe%require_Ok. apply after_lift. intros ? Hid%require_Ok. apply after_lift. intros ? Hc%require_Ok.
  apply after_lift. intros ? Hni%require_Ok%negb_true_iff%bool_decide_eq_false. apply after_lift. intros t' Ht'%ticket_new_Ok. subst t'.
  apply after_commit. intros s' Hnew. split.
  - eapply step_resume; [exact Hf|refine (conj _ Hp); role_of_teamlead|exact Hph| | | |exact Hni|exact Hnew].
    + lia.
    + revert Hid. match goal with |- context [is_None ?o] => by destruct o end.
    + unfold capsule_of_ticket in Hc |- *. rewrite Z.eqb_refl. rewrite !andb_true_iff in Hc |- *. tauto.
  - intros r Hr. unfold WorkerResumeRequestV2_new in Hr. repeat (apply bind_Ok in Hr as (? & _ & Hr)). injection Hr as <-.
    apply state_new_Ok in Hnew as [-> _]. eexists. split; [apply elem_of_app; right; by left|done].
Qed.

(** ** Sequences of calls *)

Inductive spawn_call :=
  | CallPublish (id : pyval) (requester : option VerifiedPrincipalV2) (work_package topic class : pyval)
      (teamlead : option VerifiedPrincipalV2) (decision : pyval) (generation : option Z) (policy : pyval)
      (policy_generation : option Z) (lifecycle : option WorkerLifecycle) (resume : option bool) (fence : option Z)
  | CallClaim (id : pyval) (teamlead : option VerifiedPrincipalV2) (revision : option Z)
  | CallIntent (t : option WorkerSpawnTicketV2) (revision fence : option Z) (teamlead : option VerifiedPrincipalV2)
  | CallFailure (t : option WorkerSpawnTicketV2) (code : option WorkerFailureCodeV1)
      (origin : option WorkerFailureOriginV1) (status : option CompensationStatusV1) (revision fence : option Z)
      (teamlead : option VerifiedPrincipalV2)
  | CallCompensation (t : option WorkerSpawnTicketV2) (status : option CompensationStatusV1) (revision fence : option Z)
      (teamlead : option VerifiedPrincipalV2)
  | CallPhase (t : option WorkerSpawnTicketV2) (phase : option SpawnPhase) (revision fence : option Z)
      (teamlead : option VerifiedPrincipalV2) (binding : given LeaseBindingConsumerInputV1)
  | CallBind (t : option WorkerSpawnTicketV2) (capsule : option WorkerResumeCapsuleV2) (revision fence : option Z)
      (teamlead : option VerifiedPrincipalV2)
  | CallResume (source : option WorkerSpawnTicketV2) (capsule : option WorkerResumeCapsuleV2) (id : pyval)
      (fence revision : option Z) (generation : option CapsuleGeneration) (teamlead : option VerifiedPrincipalV2).

(** What a call answers: the ticket, or for a resumption the request. *)
Definition run_spawn (c : spawn_call) : M (WorkerSpawnTicketV2 + WorkerResumeRequestV2) :=
  match c with
  | CallPublish id rq wp tp cl tl d g p pg lc rs f => t ← publish_requested ledger id rq wp tp cl tl d g p pg lc rs f; mret (inl t)
  | CallClaim id tl r => t ← claim ledger id tl r; mret (inl t)
  | CallIntent t r f tl => t ← record_registry_intent ledger t r f tl; mret (inl t)
  | CallFailure t c o st r f tl => t ← record_failure ledger t c o st r f tl; mret (inl t)
  | CallCompensation t st r f tl => t ← advance_compensation_status ledger t st r f tl; mret (inl t)
  | CallPhase t ph r f tl b => t ← append_phase ledger t ph r f tl b; mret (inl t)
  | CallBind t c r f tl => t ← bind_resume_capsule ledger t c r f tl; mret (inl t)
  | CallResume t c id f r g tl => q ← claim_resume_capsule ledger t c id f r g tl; mret (inr q)
  end.

Definition answered (a : WorkerSpawnTicketV2 + WorkerResumeRequestV2) (s : SpawnLedgerStateV2) : Prop :=
  match a with inl t => holds t s | inr r => answers r s end.

Lemma takes_answer {A} (pick : A → SpawnLedgerStateV2 → Prop) (m : M A) (f : A → WorkerSpawnTicketV2 + WorkerResumeRequestV2) :
  (∀ a s, pick a s → answered (f a) s) → takes_step pick m → takes_step answered (a ← m; mret (f a)).
Proof.
  intros Hf Hm w. rewrite st_bind_eq. specialize (Hm w). destruct (m w) as [w' [a|e]]; destruct Hm as [Hr Ha]; (split; [done|]).
  - intros ? [= <-]. destruct (Ha a eq_refl) as (s & s' & ? & ? & ? & ?). exists s, s'. auto.
  - done.
Qed.

Lemma run_spawn_takes_step c : takes_step answered (run_spawn c).
Proof using lawful.
  destruct c; cbn [run_spawn].
  - apply (takes_answer holds); [done|apply publish_takes_step].
  - apply (takes_answer holds); [done|apply claim_takes_step].
  - apply (takes_answer holds); [done|apply intent_takes_step].
  - apply (takes_answer holds); [done|apply failure_takes_step].
  - apply (takes_answer holds); [done|apply compensation_takes_step].
  - apply (takes_answer holds); [done|apply append_takes_step].
  - apply (takes_answer holds); [done|apply bind_takes_step].
  - apply (takes_answer answers); [done|apply resume_takes_step].
Qed.

Lemma run_spawns_move calls w : rtc step (contents w) (contents (foldl (λ w c, (run_spawn c w).1) w calls)).
Proof using lawful.
  revert w. induction calls as [|c calls IH]; intros w; [done|]. cbn. etrans; [|apply IH].
  pose proof (run_spawn_takes_step c w) as Hc. by destruct (run_spawn c w) as [w' r], Hc.
Qed.

(** C13: the operations refine the legal steps.  Over a port that other ledgers
    use as well and that swaps by revision, whatever calls are made and however
    they end, the contents only move by legal steps; and a call that returns
    has committed one legal step, on a state reached from the one it found,
    after which the ticket it returns is in the ledger (for a resumption: the
    ticket of the request it returns, which names the capsule). *)
Theorem spawn_calls_refine calls w c :
  let w1 := foldl (λ w c, (run_spawn c w).1) w calls in
  rtc step (contents w) (contents w1)
  ∧ let '(w2, r) := run_spawn c w1 in
    rtc step (contents w1) (contents w2)
    ∧ ∀ a, r = Ok a → ∃ s s', rtc step (contents w1) s ∧ step s s' ∧ answered a s' ∧ rtc step s' (contents w2).
Proof using lawful. split; [apply run_spawns_move|apply run_spawn_takes_step]. Qed.
End operations.

(** C14: what holds in every ledger that legal steps reach from the empty one.
    Requests and tickets are told apart; beyond a request every ticket that was
    not denied is claimed by its own team leader; a ticket has a lease exactly
    from the reservation on, the lease references in use are those of the
    tickets, and no two tickets share one; a worker that has to be resumable
    leaves a capsule before it is checkpointed, stopped or rolled back, no two
    tickets carry one capsule, and each capsule resumes at most one request,
    with a higher fence and the class, team leader, topic, policy and account
    of the ticket that left it. *)
Theorem reachable_ledger_sound delegable s :
  rtc (ledger_step delegable) SpawnLedgerStateV2_empty s →
  ledger_sound s
  ∧ ∀ t1 t2, t1 ∈ sl_tickets s → t2 ∈ sl_tickets s → wt_request_id t1 ≠ wt_request_id t2 →
      (is_Some (wt_lease_binding_reference t1) → wt_lease_binding_reference t1 ≠ wt_lease_binding_reference t2)
      ∧ (is_Some (wt_source_resume_capsule_digest t1) →
         wt_source_resume_capsule_digest t1 ≠ wt_source_resume_capsule_digest t2).
Proof.
  intros H. pose proof (steps_sound delegable _ s empty_sound H) as Hs. split; [exact Hs|]. intros t1 t2 H1 H2 Hne.
  assert (∀ {A} (f : WorkerSpawnTicketV2 → option A), NoDup (omap f (sl_tickets s)) → is_Some (f t1) → f t1 ≠ f t2) as Hinj.
  { intros A f Hnd [a Ha] E. rewrite Ha in E. apply list_elem_of_split in H1 as (l1 & l2 & El). rewrite El in Hnd, H2.
    rewrite omap_app in Hnd. cbn in Hnd. rewrite Ha in Hnd. apply NoDup_app in Hnd as (_ & Hd & [Hn _]%NoDup_cons).
    apply elem_of_app in H2 as [H2|[->|H2]%elem_of_cons]; [|done|].
    - apply (Hd a); [apply list_elem_of_omap; by exists t2|by left].
    - apply Hn, list_elem_of_omap. by exists t2. }
  split; apply Hinj.
  - rewrite (so_leases s Hs). apply (so_leases_once s Hs).
  - rewrite (so_sources s Hs). apply (so_sources_once s Hs).
Qed.

(** ** A failure journal that falls behind *)

(** A ticket whose failure is compensated or quarantined, and that has advanced
    since. *)
Definition outdated (id : string) (s : SpawnLedgerStateV2) : Prop :=
  ∃ t j, t ∈ sl_tickets s ∧ wt_request_id t = id ∧ wt_phase t ∉ [ROLLED_BACK; QUARANTINED]
    ∧ _find_failure_journal s (wt_ticket_id t) = Some j
    ∧ fj_compensation_status j ∈ [COMPENSATED; COMPENSATION_QUARANTINED]
    ∧ fj_ledger_revision j < wt_ledger_revision t.

Lemma same_request s t1 t2 : ledger_sound s → t1 ∈ sl_tickets s → t2 ∈ sl_tickets s →
  wt_request_id t1 = wt_request_id t2 → t1 = t2.
Proof. intros Hs. apply (NoDup_key wt_request_id), (so_requests s Hs). Qed.

(** The journal of another ticket, added or replaced, leaves the first one found. *)
Lemma find_journal_added l k id j :
  List.find (λ j, bool_decide (fj_ticket_id j = id)) l = Some j →
  List.find (λ j, bool_decide (fj_ticket_id j = id)) (l ++ k) = Some j.
Proof. induction l as [|j0 l IH]; cbn; [done|]. destruct (bool_decide _); auto. Qed.

Lemma find_journal_replaced s id r : fj_ticket_id r ≠ id →
  List.find (λ j, bool_decide (fj_ticket_id j = id)) (_replace_failure_journal s r) = _find_failure_journal s id.
Proof.
  intros Hne. unfold _replace_failure_journal, _find_failure_journal. induction (sl_failure_journals s) as [|j l IH]; [done|].
  cbn. destruct (decide (fj_ticket_id j = fj_ticket_id r)) as [E|Hn].
  - rewrite (bool_decide_eq_true_2 (fj_ticket_id j = fj_ticket_id r)) by done. rewrite E.
    rewrite (bool_decide_eq_false_2 (fj_ticket_id r = id)) by done. exact IH.
  - rewrite (bool_decide_eq_false_2 (fj_ticket_id j = fj_ticket_id r)) by done. destruct (bool_decide _); [done|exact IH].
Qed.

Lemma final_status j : fj_compensation_status j ∈ [COMPENSATED; COMPENSATION_QUARANTINED] →
  allowed_statuses (fj_compensation_status j) = [].
Proof. intros Hj. destruct (fj_compensation_status j); by phases. Qed.

Lemma final_needs_current phase t j : phase ∈ [ROLLED_BACK; QUARANTINED] →
  rollback_allowed phase t (Some j) = true → quarantine_allowed phase t (Some j) = true →
  fj_ledger_revision j = wt_ledger_revision t.
Proof.
  unfold rollback_allowed, quarantine_allowed.
  intros [->|[->|[]%elem_of_nil]%elem_of_cons]%elem_of_cons Hr Hq; [clear Hq|clear Hr].
  - rewrite bool_decide_eq_true_2 in Hr by done. cbn [negb orb] in Hr. rewrite !andb_true_iff in Hr. lia.
  - rewrite bool_decide_eq_true_2 in Hq by done. cbn [negb orb] in Hq. rewrite !andb_true_iff in Hq. lia.
Qed.

Lemma outdated_step delegable id s s' : ledger_sound s → outdated id s → ledger_step delegable s s' → outdated id s'.
Proof.
  intros Hs (t & j & Ht & Hid & Hph & Hj & Hst & Hrev) Hstep.
  destruct Hstep as [t2 s' _ _ _ _ [-> _]%state_new_Ok|t2 p c parts t' s' Hf Hau Ha Ht' [-> _]%state_new_Ok|t2 p capsule id2 fence s' _ _ _ _ _ _ _ [-> _]%state_new_Ok].
  1,3: exists t, j; split_and!; try done; apply elem_of_app; by left.
  pose proof Hf as [Hin2 _]%find_ticket_Some. apply ticket_new_Ok in Ht'. subst t'.
  destruct (replace_split s t2 (so_requests s Hs) Hin2) as (l1 & l2 & E & Hrep).
  destruct (decide (wt_request_id t2 = id)) as [E2|Hne].
  - assert (t2 = t) as -> by (apply (same_request s); congruence).
    exists (changed_ticket t c), j. specialize (Hrep (changed_ticket t c) eq_refl).
    assert (Hin : changed_ticket t c ∈ rp_tickets (parts (changed_ticket t c))).
    { assert (rp_tickets (parts (changed_ticket t c)) = _replace_ticket s (changed_ticket t c)) as -> by by destruct Ha.
      rewrite Hrep. apply elem_of_app. right. by left. }
    split_and!; try done; [| |cbn; lia].
    + destruct Ha as [Hp| | |j' status _ _ _|phase Hn _ Hro Hqu _|reference account Hp _|]; cbn; try done; try (intros ?; by phases).
      intros Hfin. rewrite Hj in Hro, Hqu. pose proof (final_needs_current phase t j Hfin Hro Hqu). lia.
    + destruct Ha as [| |code Hnone|j' status Hj' Hal _| | |]; try exact Hj; [congruence|].
      assert (j' = j) as -> by congruence. rewrite (final_status j Hst) in Hal. by apply elem_of_nil in Hal.
  - assert (wt_ticket_id t ≠ wt_ticket_id t2) as Hne2.
    { pose proof (proj1 (Forall_forall _ _) (so_tickets s Hs)) as Hall. rewrite (ts_id t (Hall t Ht)), (ts_id t2 (Hall t2 Hin2)).
      intros Eq%(inj (String.append "ticket:")). congruence. }
    exists t, j. split_and!; try done.
    + assert (rp_tickets (parts (changed_ticket t2 c)) = _replace_ticket s (changed_ticket t2 c)) as Er by by destruct Ha.
      cbn. rewrite Er, (Hrep (changed_ticket t2 c) eq_refl). rewrite E in Ht.
      apply elem_of_app in Ht as [Ht|[->|Ht]%elem_of_cons]; [by apply elem_of_app; left|congruence|].
      apply elem_of_app. right. by right.
    + destruct Ha as [| |code Hnone|j' status Hj' Hal _| | |]; try exact Hj.
      * by apply find_journal_added.
      * unfold _find_failure_journal. cbn. rewrite find_journal_replaced; [exact Hj|]. cbn.
        apply find_some in Hj' as [_ Ej%bool_decide_eq_true]. congruence.
Qed.

(** Such a ticket can no longer be rolled back or quarantined, by whatever
    steps: its journal has no further status, and both need a journal of the
    ticket's own revision. *)
Lemma outdated_forever delegable id s s' : ledger_sound s → outdated id s → rtc (ledger_step delegable) s s' →
  ∀ t, t ∈ sl_tickets s' → wt_request_id t = id → wt_phase t ∉ [ROLLED_BACK; QUARANTINED].
Proof.
  intros Hs Ho Hsteps. assert (ledger_sound s' ∧ outdated id s') as [Hs' (t0 & j & Ht0 & Hid0 & Hph & _)].
  { induction Hsteps as [s|s s1 s' H1 _ IH]; [done|]. apply IH; [by eapply step_sound|by eapply outdated_step]. }
  intros t Ht Hid. by rewrite (same_request s' t t0 Hs' Ht Ht0) by congruence.
Qed.

(** ** A concrete ledger *)

(** The state of one ledger beside the allocator and its provider. *)
Definition sample_spawn_world : Type := SpawnLedgerStateV2 * (AllocatorState * sample_world).

Definition beside {L V A} (m : ST V A) : ST (L * V) A := λ w, let '(v, r) := m w.2 in ((w.1, v), r).

Definition sample_verification : LeaseVerification sample_spawn_world :=
  let allocator := allocator_verification sample_operations in
  {| lv_verify := λ receipt lease t e, beside (lv_verify (LeaseVerification := allocator) receipt lease t e);
     lv_reference_for := λ v, beside (lv_reference_for (LeaseVerification := allocator) v);
     lv_close := λ v, beside (lv_close (LeaseVerification := allocator) v) |}.
#[local] Existing Instance sample_verification.

Definition sample_port : SpawnLedgerStatePort sample_spawn_world :=
  {| read_port := λ w, (w, Ok (Some w.1));
     compare_and_swap := λ expected s w,
       if sl_state_revision w.1 =? expected then ((s, w.2), Ok (VBool true)) else (w, Ok (VBool false)) |}.

Definition sample_ledger : WorkerSpawnLedger sample_spawn_world :=
  {| _state_port := sample_port; _delegable_class_ids := ["arbeitsbiene"] |}.

Lemma beside_moves {A} (m : ST (AllocatorState * sample_world) A) : moves sample_ledger fst (beside m).
Proof. intros w. unfold beside. by destruct (m w.2). Qed.

Lemma sample_port_lawful : lawful_port sample_ledger fst.
Proof.
  split.
  - intros w. exists w.1. split_and!; [done|done|]. by intros s' [= <-].
  - intros expected s w. cbn. destruct (Z.eqb_spec (sl_state_revision w.1) expected) as [E|Hne]; [left|right; done].
    exists w.1. by split_and!.
  - intros. apply beside_moves.
  - intros. apply beside_moves.
  - intros. apply beside_moves.
Qed.

Definition sample_digest : string :=
  "sha256:0000000000000000000000000000000000000000000000000000000000000000".
Definition sample_requester : VerifiedPrincipalV2 :=
  {| vp_principal_id := "bee"; vp_role := NON_LEADERSHIP; vp_authority_digest := sample_digest |}.
Definition sample_teamlead : VerifiedPrincipalV2 :=
  {| vp_principal_id := "lead"; vp_role := TEAMLEADER; vp_authority_digest := sample_digest |}.

Definition sample_publish : spawn_call :=
  CallPublish (VStr "r") (Some sample_requester) (VStr "package") (VStr sample_digest) (VStr "arbeitsbiene")
    (Some sample_teamlead) (VStr sample_digest) (Some 1) (VStr sample_digest) (Some 1) (Some EPHEMERAL) (Some false) (Some 1).
Definition sample_claim : spawn_call := CallClaim (VStr "r") (Some sample_teamlead) (Some 1).
Definition sample_spawn_begin : sample_spawn_world := (SpawnLedgerStateV2_empty, (empty_allocator, sample_begin)).
Definition sample_claimed : sample_spawn_world * result (WorkerSpawnTicketV2 + WorkerResumeRequestV2) :=
  run_spawn sample_ledger sample_claim (run_spawn sample_ledger sample_publish sample_spawn_begin).1.

(** The request is published, then claimed. *)
Lemma spawn_calls_refine_witness : ∃ a s s',
  sample_claimed.2 = Ok a ∧ rtc (ledger_step ["arbeitsbiene"]) SpawnLedgerStateV2_empty s
  ∧ ledger_step ["arbeitsbiene"] s s' ∧ answered a s' ∧ rtc (ledger_step ["arbeitsbiene"]) s' sample_claimed.1.1.
Proof.
  assert (match sample_claimed.2 with Ok _ => true | Err _ => false end = true) as Hok by (vm_compute; reflexivity).
  destruct (spawn_calls_refine sample_ledger fst sample_port_lawful [sample_publish] sample_spawn_begin sample_claim)
    as [Hmoves H].
  change (foldl _ _ _) with ((run_spawn sample_ledger sample_publish sample_spawn_begin).1) in H, Hmoves.
  fold sample_claimed in H. destruct sample_claimed as [w2 [a|e]]; [|discriminate Hok].
  destruct H as [_ H]. destruct (H a eq_refl) as (s & s' & H1 & H2 & H3 & H4). exists a, s, s'.
  refine (conj eq_refl (conj _ (conj H2 (conj H3 H4)))). exact (transitivity Hmoves H1).
Defined.

Lemma sample_claimed_reachable : rtc (ledger_step ["arbeitsbiene"]) SpawnLedgerStateV2_empty sample_claimed.1.1.
Proof. exact (run_spawns_move sample_ledger fst sample_port_lawful [sample_publish; sample_claim] sample_spawn_begin). Qed.

Lemma reachable_ledger_sound_witness :
  wt_phase <$> sl_tickets sample_claimed.1.1 = [CLAIMED] ∧ ledger_sound sample_claimed.1.1.
Proof.
  split; [vm_compute; reflexivity|].
  exact (proj1 (reachable_ledger_sound ["arbeitsbiene"] sample_claimed.1.1 sample_claimed_reachable)).
Defined.

(** A ticket from the request to the lease it runs under, and its failure.  The
    decision is the one the allocation ticket carries; the evidence holds for a
    number of seconds, and each look at the clock takes one. *)
Definition spawn_allocation_ticket : ref ValidatedAllocationTicket :=
  let t := content sample_allocation_ticket in
  Ref (-2000)
    {| vt_ticket_id := VStr "ticket:r"; vt_resolution_decision := vt_resolution_decision t;
       vt_selection_offer := vt_selection_offer t;
       vt_resolver_offer_generation := vt_resolver_offer_generation t; vt_policy_generation := VInt 1;
       vt_policy_digest := VStr sample_digest; vt_capability_binding_digest := vt_capability_binding_digest t;
       vt_ledger_revision := VInt 3; vt_phase := VStr "OFFER_VALIDATED"; vt_fencing_token := vt_fencing_token t;
       vt_fence_epoch := VInt 1 |}.

Definition spawn_capacity_evidence (seconds : Z) : ref CapacityEvidence :=
  let e := content (sample_capacity_evidence seconds) in
  Ref (-2001)
    {| ce_ticket_id := VStr "ticket:r"; ce_resolver_offer_generation := ce_resolver_offer_generation e;
       ce_policy_generation := VInt 1; ce_capability_binding_digest := ce_capability_binding_digest e;
       ce_ledger_revision := VInt 3; ce_fencing_token := ce_fencing_token e; ce_fence_epoch := VInt 1;
       ce_provider_adapter_id := ce_provider_adapter_id e; ce_capacity_units := VInt 1; ce_quota_units := VInt 1;
       ce_cost_units := VInt 1; ce_resource_units := VInt 1; ce_evidence_revision := VInt 1;
       ce_observed_at_utc := ce_observed_at_utc e; ce_expires_at_utc := ce_expires_at_utc e |}.

Definition phase_of (t : WorkerSpawnTicketV2) (p : SpawnPhase) (b : given LeaseBindingConsumerInputV1)
  : ST sample_spawn_world WorkerSpawnTicketV2 :=
  append_phase sample_ledger (Some t) (Some p) (Some (wt_ledger_revision t)) (Some (wt_fence_epoch t))
    (Some sample_teamlead) b.

Definition spawn_session (seconds : Z) : ST sample_spawn_world WorkerSpawnTicketV2 :=
  decision ← st_lift (canonical_resolution_decision_digest sample_decision);
  _ ← publish_requested sample_ledger (VStr "r") (Some sample_requester) (VStr "package") (VStr sample_digest)
        (VStr "arbeitsbiene") (Some sample_teamlead) (VStr decision) (Some 1) (VStr sample_digest) (Some 1)
        (Some EPHEMERAL) (Some false) (Some 1);
  t ← claim sample_ledger (VStr "r") (Some sample_teamlead) (Some 1);
  t ← phase_of t OFFER_VALIDATED Absent;
  let a := Some spawn_allocation_ticket in
  let e := Some (spawn_capacity_evidence seconds) in
  lease ← beside (allocate sample_operations a e);
  receipt ← beside (issue_lease_binding_receipt sample_operations (Some lease) a e);
  phase_of t LEASE_RESERVED
    (Given {| li_receipt := receipt; li_lease := lease; li_allocation_ticket := spawn_allocation_ticket;
              li_capacity_evidence := spawn_capacity_evidence seconds |}).

Definition spawn_outcome (seconds : Z) : option exn * list SpawnPhase * nat :=
  let '(w, r) := spawn_session seconds sample_spawn_begin in
  (match r with Ok _ => None | Err e => Some e end, wt_phase <$> sl_tickets w.1,
   length (sl_used_lease_binding_references w.1)).

(** The commit stands although the call raises: the evidence expires between the
    last check and the close of the verification, which is then denied. *)
Example reserved_but_denied : spawn_outcome 4 = (Some (SpawnDenied "lease binding verification denied"), [LEASE_RESERVED], 1%nat).
Proof. vm_compute. reflexivity. Qed.

(** A lease, a failure before the start and its compensation; the ticket still
    advances to the next phase, and cannot be rolled back afterwards. *)
Definition compensated_session : ST sample_spawn_world (list SpawnPhase * result WorkerSpawnTicketV2) :=
  t ← spawn_session 60;
  let lead := Some sample_teamlead in
  t ← record_failure sample_ledger (Some t) (Some PRE_A3_FAILURE) (Some PRE_A3) (Some REGISTRY_RELEASE_PENDING)
        (Some (wt_ledger_revision t)) (Some 1) lead;
  t ← advance_compensation_status sample_ledger (Some t) (Some REGISTRY_RELEASED) (Some (wt_ledger_revision t)) (Some 1) lead;
  t ← advance_compensation_status sample_ledger (Some t) (Some COMPENSATED) (Some (wt_ledger_revision t)) (Some 1) lead;
  t ← phase_of t PROJECTED Absent;
  rolled_back ← st_catch (t' ← phase_of t ROLLED_BACK Absent; mret (Ok t')) (λ e, mret (Err e));
  mret ([wt_phase t], rolled_back).

Example compensated_then_projected :
  (compensated_session sample_spawn_begin).2 = Ok ([PROJECTED], Err (SpawnDenied "rollback failure journal denied")).
Proof. vm_compute. reflexivity. Qed.
