(* ===== verification/AdmissionFile.v ===== *)
(** * The cross-process reservation store

    [class FileAdmissionStore] of [src/src/the_hive/admission.py]: every
    method takes the file lock, loads the records of the state file, runs the
    in-process method and replaces the file.  The file is the text it holds;
    what the operating system answers to each call is an argument.  The
    refinement theorem at the end relates it to the in-process store. *)

From S2P Require Import Prelude PyTime Order DynamicPool Json JsonText Sha256 Admission AdmissionStore.
#[local] Open Scope Z_scope.

(** ** Decoding what [json] read back

    [json.loads] returns the payload with the keys of its dictionaries in
    order; the decoder reads them by key. *)

Lemma bind_canonical {A} k d v (f : pyval → result A) :
  NoDup d.*1 → dict_get k d = Some v →
  getitem k (canonical_dict d) ≫= f = f (json_canonical v).
Proof. intros Hn Hg. apply bind_getitem. by rewrite canonical_get, Hg. Qed.

(** [run_canonical] evaluates the lookups of a decoder applied to a literal
    mapping that went through [json]. *)
Ltac run_canonical :=
  repeat first
    [ rewrite bind_ret; cbv beta
    | rewrite canonical_VStr
    | rewrite canonical_VInt
    | rewrite canonical_VDict; cbn [as_mapping as_list]
    | erewrite bind_canonical by (reflexivity || assumption || nodup_keys); cbv beta ].

Lemma canonical_opt_str o : json_canonical (opt_str o) = opt_str o.
Proof. by destruct o. Qed.

Definition binding_payload (o : option AccountPoolBindingV1) : pyval :=
  match o with Some b => VDict (account_pool_binding_payload b) | None => VNone end.

Lemma canonical_binding b :
  binding_wf b →
  account_pool_binding_from_payload (VDict (canonical_dict (account_pool_binding_payload b))) = Ok b.
Proof.
  intros Hwf. unfold account_pool_binding_from_payload.
  rewrite (keys_exactly_perm _ _ _ (canonical_keys _)).
  change (keys_exactly (account_pool_binding_payload b) binding_fields) with true. cbv iota.
  run_canonical. rewrite canonical_opt_str. exact Hwf.
Qed.

Lemma canonical_binding_of_payload d o :
  NoDup d.*1 → dict_get "account_pool_binding" d = Some (binding_payload o) →
  match o with Some b => binding_wf b | None => True end →
  binding_of_payload (canonical_dict d) = Ok o.
Proof.
  unfold binding_of_payload. intros Hnd Hg Hb. rewrite canonical_get, Hg by done.
  destruct o as [b|]; [|done]. cbn [fmap option_fmap option_map binding_payload].
  rewrite canonical_VDict. by rewrite canonical_binding.
Qed.

(** A record that [json] wrote and read back decodes to itself. *)
Lemma payload_canonical_roundtrip r :
  record_wf r → json_canonical (schema_version r) = schema_version r →
  _record_from_payload (json_canonical (_record_to_payload r)) = Ok r.
Proof.
  intros Hwf Hsv. pose proof (record_wf_aware r Hwf) as [Hac Hae].
  destruct Hwf as [Hf Hsc [Hres Hb] Hl Hp Hvc Hve].
  unfold _record_from_payload, _record_to_payload. apply reraise_Ok.
  fold (binding_payload (account_pool_binding (resource r))).
  rewrite canonical_VDict. cbn [as_mapping]. rewrite bind_ret.
  unfold record_from_mapping.
  match goal with |- context [canonical_dict ?d] => assert (NoDup d.*1) by nodup_keys end.
  run_canonical. rewrite canonical_strings. cbn [as_list]. run_canonical.
  rewrite Hsc. run_canonical.
  erewrite (canonical_binding_of_payload _ (account_pool_binding (resource r)))
    by (nodup_keys || exact Hb || reflexivity).
  run_canonical. rewrite Hres. run_canonical.
  rewrite canonical_get by nodup_keys.
  match goal with |- context [default VNone ?x] =>
    replace x with (Some (opt_str (lease_id (lease_context r))))
      by (cbn; by destruct (lease_id (lease_context r)))
  end.
  change (default VNone (Some (opt_str (lease_id (lease_context r)))))
    with (opt_str (lease_id (lease_context r))).
  rewrite Hl. run_canonical. rewrite Hp. run_canonical.
  rewrite AdmissionState_of_value. run_canonical.
  do 2 (rewrite isoformat_timestamp by done; run_canonical).
  rewrite Hsv. exact Hf.
Qed.

(** ** The state file *)

Definition MAX_ADMISSION_STATE_BYTES : Z := 4 * 1024 * 1024.

(** What the state path holds: nothing, a node [lstat] fails on, a link or
    another node that is not a regular file, a file of some size that cannot
    be read, bytes that are not UTF-8, or text. *)
Inductive state_file :=
  | Absent
  | Unstattable
  | NotRegular
  | Unreadable (size : Z)
  | NotUtf8 (size : Z)
  | Text (t : string).

Definition byte_size (t : string) : Z := Z.of_nat (length (utf8 t)).

Definition too_large (size : Z) : bool := MAX_ADMISSION_STATE_BYTES <? size.

(** The classes the [except] clause around [json.loads] names. *)
Definition decode_handled (e : exn) : bool :=
  match e with UnicodeError _ | JSONDecodeError _ => true | _ => false end.

(** The loop over the raw records. *)
Fixpoint load_entries (records : list (string * AdmissionRecord)) (raw : list pyval)
  : result (list (string * AdmissionRecord)) :=
  match raw with
  | [] => Ok records
  | raw_record :: raw =>
      r ← _record_from_payload raw_record;
      _ ← require (negb (dict_mem (admission_id r) records))
            (AdmissionError "duplicate_admission_id");
      load_entries (dict_set (admission_id r) r records) raw
  end.

(** The checks on the decoded document. *)
Definition document_records (payload : pyval) : result (list pyval) :=
  match payload with
  | VDict d =>
      _ ← require (py_eq_int (default VNone (dict_get "schema_version" d)) 1)
            (AdmissionError "unsupported_admission_state_schema");
      match dict_get "records" d with
      | Some (VList raw) =>
          _ ← require (Z.of_nat (length raw) <=? MAX_STORED_ADMISSIONS)
                (AdmissionError "invalid_admission_state_records");
          Ok raw
      | _ => Err (AdmissionError "invalid_admission_state_records")
      end
  | _ => Err (AdmissionError "unsupported_admission_state_schema")
  end.

(** [levels]: how many nested objects and arrays the interpreter's recursion
    limit leaves to the parser at this call. *)
Definition _load_records (levels : nat) (f : state_file) : result (list (string * AdmissionRecord)) :=
  match f with
  | Absent => Ok []
  | Unstattable => Err (AdmissionError "could_not_read_admission_state")
  | NotRegular => Err (AdmissionError "invalid_admission_state_file")
  | Unreadable size | NotUtf8 size =>
      if too_large size then Err (AdmissionError "admission_state_too_large")
      else Err (AdmissionError "invalid_admission_state")
  | Text t =>
      if too_large (byte_size t) then Err (AdmissionError "admission_state_too_large")
      else
        payload ← reraise decode_handled (λ _, AdmissionError "invalid_admission_state")
                    (json_loads_within levels t);
        raw ← document_records payload;
        load_entries [] raw
  end.

(** The document [_write_records] encodes. *)
Definition state_document (st : AdmissionStore) : pyval :=
  VDict [("schema_version", VInt 1); ("records", VList (_record_to_payload <$> values st))].

Definition encode_state (st : AdmissionStore) : string :=
  json_dumps (state_document st) +:+ String (char_at 10) "".

(** ** The store *)

Record FileAdmissionStore := { memory : AdmissionStore; state_path : state_file }.

Abbreviation FileM := (ST FileAdmissionStore).

(** What the surroundings answer during one call: whether the lock file opens,
    the lock is taken, and the new state file is written, synced and moved into
    place; and the levels the interpreter leaves to the parser. *)
Record os_answers := { lock_opens : bool; lock_taken : bool; replaced : bool; levels_left : nat }.

Definition _file_lock {A} (os : os_answers) (body : FileM A) : FileM A := λ fs,
  if negb (lock_opens os) then (fs, Err (AdmissionError "could_not_open_admission_lock"))
  else if negb (lock_taken os) then (fs, Err (AdmissionError "could_not_lock_admission_state"))
  else
    let '(fs, r) := body fs in
    (fs, reraise is_os_error (λ _, AdmissionError "could_not_lock_admission_state") r).

(** [self._records = self._load_records()]. *)
Definition reload (os : os_answers) : FileM () := λ fs,
  match _load_records (levels_left os) (state_path fs) with
  | Ok records =>
      ({| memory := set_records (memory fs) records; state_path := state_path fs |}, Ok ())
  | Err e => (fs, Err e)
  end.

(** A method of the base class, on the records in memory. *)
Definition in_memory {A} (op : StoreM A) : FileM A := λ fs,
  let '(st, r) := op (memory fs) in ({| memory := st; state_path := state_path fs |}, r).

Definition _write_records (os : os_answers) : FileM () := λ fs,
  let encoded := encode_state (memory fs) in
  if too_large (byte_size encoded) then (fs, Err (AdmissionError "admission_state_too_large"))
  else if replaced os then ({| memory := memory fs; state_path := Text encoded |}, Ok ())
  else (fs, Err (AdmissionError "could_not_write_admission_state")).

Definition _mutate {A} (os : os_answers) (operation : StoreM A) : FileM A :=
  _file_lock os
    (_ ← reload os;
     result ← in_memory operation;
     _ ← _write_records os;
     mret result).

Definition _inspect {A} (os : os_answers) (operation : StoreM A) : FileM A :=
  _file_lock os (_ ← reload os; in_memory operation).

Definition reserve os r now : FileM AdmissionRecord := _mutate os (AdmissionStore.reserve r now).
Definition transition os id target rev now : FileM AdmissionRecord :=
  _mutate os (AdmissionStore._transition id target rev now).
Definition expire os now : FileM (list AdmissionRecord) := _mutate os (AdmissionStore.expire now).
Definition get os id : FileM AdmissionRecord := _inspect os (AdmissionStore.get id).
Definition public_snapshot os : FileM (list pyval) := _inspect os AdmissionStore.public_snapshot.
Definition records_snapshot os : FileM (list AdmissionRecord) :=
  _inspect os AdmissionStore.records_snapshot.

(** The inherited methods that combine the overridden ones: [finalize] takes
    the lock twice. *)
Definition complete_revalidation os id rev (valid : pyval) now : FileM AdmissionRecord :=
  match valid with
  | VBool valid => transition os id (if valid then ADMITTED else DENIED) rev now
  | _ => st_lift (Err (AdmissionError "invalid_revalidation_result"))
  end.

Definition finalize (os os' : os_answers) id rev now : FileM AdmissionRecord :=
  r ← get os id;
  if bool_decide (state r = FINALIZED) then mret r else transition os' id FINALIZED rev now.

Definition prune_expired os now : FileM (list string) :=
  expired ← expire os now; mret (admission_id <$> expired).

(** ** Construction *)

(** An expanded path, and what the operating system answers about a
    directory. *)
Record path := { is_absolute : bool; parts : list string }.
#[export] Instance path_eq_dec : EqDecision path.
Proof. solve_decision. Defined.

Record directory := {
  mkdir_ok : bool; lstat_ok : bool; is_symlink : bool; is_directory : bool; chmod_ok : bool;
}.

Definition _private_absolute_path (p : path) (code : string) : result path :=
  if negb (is_absolute p) || existsb (λ part, bool_decide (part ∈ [""; "."; ".."])) (parts p)
  then Err (AdmissionError code) else Ok p.

Definition _ensure_private_parent (d : directory) : result () :=
  _ ← require (mkdir_ok d && lstat_ok d) (AdmissionError "could_not_prepare_admission_state");
  _ ← require (negb (is_symlink d) && is_directory d)
        (AdmissionError "invalid_admission_state_directory");
  require (chmod_ok d) (AdmissionError "could_not_prepare_admission_state").

Definition FileAdmissionStore_new (file : state_file) (state lock : path)
  (state_parent lock_parent : directory)
  (agent_capacity account_capacity account_model_capacity : pyval) : result FileAdmissionStore :=
  st ← AdmissionStore_new agent_capacity account_capacity account_model_capacity;
  state ← _private_absolute_path state "invalid_admission_state_path";
  lock ← _private_absolute_path lock "invalid_admission_lock_path";
  _ ← require (negb (bool_decide (state = lock)))
        (AdmissionError "admission_state_and_lock_must_differ");
  _ ← _ensure_private_parent state_parent;
  _ ← _ensure_private_parent lock_parent;
  Ok {| memory := st; state_path := file |}.

(** ** Reading back what was written *)

Lemma schema_jsonable v : py_eq_int v 1 = true → jsonable v ∧ json_canonical v = v.
Proof.
  destruct v as [|b|z|lit| | |]; cbn; try done; intros H; split; try done.
  - apply Z.eqb_eq in H as ->. done.
  - apply bool_decide_eq_true in H as ->. vm_compute. reflexivity.
Qed.

Lemma bounded_jsonable z hi : 0 <= z <= hi → hi <= 10 ^ 18 → Z.abs z < INT_BOUND.
Proof. unfold INT_BOUND. lia. Qed.

Lemma record_jsonable r : record_wf r → jsonable (_record_to_payload r).
Proof.
  intros Hwf. apply record_wf_bounds in Hwf as (Hs & Hw & Hr & Hu).
  apply schema_jsonable in Hs as [Hs _].
  pose proof (bounded_jsonable _ _ Hw ltac:(lia)) as Hw'.
  pose proof (bounded_jsonable _ _ Hr ltac:(lia)) as Hr'.
  pose proof (bounded_jsonable _ _ Hu ltac:(lia)) as Hu'.
  assert (∀ l, foldr (λ v P, jsonable v ∧ P) True (VStr <$> l)) as Hpaths
    by (induction l; cbn; auto).
  assert (∀ o, jsonable (opt_str o)) as Hopt by (by intros []).
  unfold _record_to_payload. cbn [jsonable foldr snd fst].
  destruct (account_pool_binding (resource r)) as [b|];
    split_and!; try done; try nodup_keys; try apply Hpaths; try apply Hopt.
  cbn [jsonable account_pool_binding_payload foldr snd]. split; [nodup_keys|].
  split_and!; done || apply Hopt.
Qed.

Lemma load_entries_payloads rs acc :
  Forall record_wf rs → NoDup (dict_keys acc ++ (admission_id <$> rs)) →
  load_entries acc ((json_canonical ∘ _record_to_payload) <$> rs)
  = Ok (acc ++ ((λ r, (admission_id r, r)) <$> rs)).
Proof.
  intros Hwf. revert acc. induction Hwf as [|r rs Hr Hwf IH]; intros acc Hnd.
  { by rewrite app_nil_r. }
  rewrite !fmap_cons. cbn [load_entries].
  change ((json_canonical ∘ _record_to_payload) r) with (json_canonical (_record_to_payload r)).
  pose proof (record_wf_bounds r Hr) as (Hs & _).
  rewrite payload_canonical_roundtrip by (done || by apply schema_jsonable).
  rewrite bind_ret. rewrite fmap_cons in Hnd.
  assert (admission_id r ∉ dict_keys acc) as Hni.
  { apply NoDup_app in Hnd as (_ & Hdis & _). intros Hin. apply (Hdis _ Hin). by left. }
  unfold dict_mem. rewrite bool_decide_eq_false_2 by (by rewrite <- elem_of_dict_keys).
  cbn [negb require]. rewrite bind_ret. rewrite dict_set_fresh by done.
  etrans; [apply IH|by rewrite <- app_assoc].
  unfold dict_keys in *. by rewrite fmap_app, <- app_assoc.
Qed.

Lemma records_of_values st :
  store_inv st → (λ r, (admission_id r, r)) <$> values st = _records st.
Proof.
  intros Hinv. unfold values, dict_values. rewrite <- list_fmap_compose.
  etrans; [|apply list_fmap_id]. apply list_fmap_ext. intros i [k r] Hi. cbn.
  apply list_elem_of_lookup_2, (elem_of_dict_get _ _ _ (inv_keys _ Hinv)) in Hi.
  by destruct (inv_wf _ Hinv _ _ Hi) as [<- _].
Qed.

Lemma values_wf st : store_inv st → Forall record_wf (values st).
Proof.
  intros Hinv. apply Forall_forall. intros r Hr.
  apply (inv_wf _ Hinv (admission_id r)). by apply inv_snapshot.
Qed.

Definition fits (st : AdmissionStore) : Prop :=
  Z.of_nat (length (_records st)) <= MAX_STORED_ADMISSIONS
  ∧ too_large (byte_size (encode_state st)) = false.

Lemma document_jsonable st : store_inv st → jsonable (state_document st).
Proof.
  intros Hinv. unfold state_document. cbn [jsonable foldr snd].
  split; [nodup_keys|]. split_and!; [done| |done].
  apply foldr_and_Forall, Forall_fmap.
  eapply Forall_impl; [by apply values_wf|]. intros r. apply record_jsonable.
Qed.

(** The document is an object with a list of records, each an object with
    objects in it of which one has lists. *)
Definition document_levels : nat := 5.

Lemma record_nesting r : record_wf r → (nesting (_record_to_payload r) <= 3)%nat.
Proof.
  intros Hwf. apply record_wf_bounds in Hwf as (Hv & _). unfold _record_to_payload.
  assert (nesting (schema_version r) = 0%nat) as Hv0 by by destruct (schema_version r).
  assert (∀ l, foldr (λ v n, max (nesting v) n) 0%nat (VStr <$> l) = 0%nat) as Hs
    by (intros l; induction l as [|x l IH]; [done|by cbn; rewrite IH]).
  assert (∀ o, nesting (opt_str o) = 0%nat) as Ho by (by intros []).
  destruct (account_pool_binding (resource r)) as [b|]; cbn; rewrite ?Hs, ?Ho, ?Hv0; cbn; lia.
Qed.

Lemma document_nesting st : store_inv st → (nesting (state_document st) <= document_levels)%nat.
Proof.
  intros Hinv. unfold state_document, document_levels. cbn [nesting foldr snd].
  enough (foldr (λ v n, max (nesting v) n) 0 (_record_to_payload <$> values st) <= 3)%nat by lia.
  apply foldr_max_le, Forall_fmap. eapply Forall_impl; [by apply values_wf|]. apply record_nesting.
Qed.

Lemma state_document_read st :
  document_records (json_canonical (state_document st)) =
  (_ ← require (Z.of_nat (length (_records st)) <=? MAX_STORED_ADMISSIONS)
         (AdmissionError "invalid_admission_state_records");
   Ok ((json_canonical ∘ _record_to_payload) <$> values st)).
Proof.
  assert (json_canonical (state_document st) =
    VDict [("records", VList (json_canonical <$> (_record_to_payload <$> values st)));
           ("schema_version", VInt 1)]) as -> by reflexivity.
  unfold document_records. cbn [dict_get].
  rewrite <- list_fmap_compose. simpl_bd. cbn [require default from_option].
  change (py_eq_int _ 1) with true. cbn [require]. rewrite bind_ret.
  rewrite length_fmap. unfold values, dict_values. by rewrite length_fmap.
Qed.

(** Loading what [_write_records] wrote, for any number of records. *)
Lemma load_encode_records levels st :
  store_inv st → too_large (byte_size (encode_state st)) = false → (document_levels <= levels)%nat →
  _load_records levels (Text (encode_state st)) =
    if Z.of_nat (length (_records st)) <=? MAX_STORED_ADMISSIONS then Ok (_records st)
    else Err (AdmissionError "invalid_admission_state_records").
Proof.
  intros Hinv Hsize Hlevels. cbn [_load_records]. rewrite Hsize. unfold encode_state, json_loads_within.
  rewrite json_loads_at_dumps; [|by apply document_jsonable| |done].
  2: { cbn [admits]. pose proof (document_nesting st Hinv). lia. }
  unfold reraise. rewrite bind_ret, state_document_read.
  destruct (_ <=? _); [|done]. cbn [require]. rewrite !bind_ret.
  rewrite load_entries_payloads by (by apply values_wf || by apply inv_ids).
  by rewrite records_of_values.
Qed.

(** Fewer levels can only make a load fail for the limit. *)
Lemma load_records_cut n m f : (n <= m)%nat → cut (_load_records n f) (_load_records m f).
Proof.
  intros Hle. destruct f as [| | |size|size|t]; cbn [_load_records]; try apply cut_same.
  case_match; [apply cut_same|].
  destruct (json_loads_within_mono n m t Hle) as [->|[msg ->]]; [apply cut_same|].
  right. cbn. by eexists.
Qed.

(** ** The in-process store as specification

    A [call] is one method; as a transaction it either takes effect and
    returns, or raises and has no effect at all (in memory, a failing
    [reserve] still expires). *)

Inductive call : Type → Type :=
  | CReserve (r : AdmissionRecord) (now : datetime) : call AdmissionRecord
  | CTransition (id : string) (target : AdmissionState) (rev : pyval) (now : datetime)
      : call AdmissionRecord
  | CExpire (now : datetime) : call (list AdmissionRecord)
  | CGet (id : string) : call AdmissionRecord
  | CPublicSnapshot : call (list pyval)
  | CRecordsSnapshot : call (list AdmissionRecord).

Definition run_memory {A} (c : call A) : StoreM A :=
  match c with
  | CReserve r now => AdmissionStore.reserve r now
  | CTransition id target rev now => AdmissionStore.transition id target rev now
  | CExpire now => AdmissionStore.expire now
  | CGet id => AdmissionStore.get id
  | CPublicSnapshot => AdmissionStore.public_snapshot
  | CRecordsSnapshot => AdmissionStore.records_snapshot
  end.

Definition run_file {A} (os : os_answers) (c : call A) : FileM A :=
  match c with
  | CReserve r now => reserve os r now
  | CTransition id target rev now => transition os id target rev now
  | CExpire now => expire os now
  | CGet id => get os id
  | CPublicSnapshot => public_snapshot os
  | CRecordsSnapshot => records_snapshot os
  end.

Definition mutates {A} (c : call A) : bool :=
  match c with CReserve _ _ | CTransition _ _ _ _ | CExpire _ => true | _ => false end.

(** A record handed to [reserve] went through its constructors. *)
Definition call_wf {A} (c : call A) : Prop :=
  match c with CReserve r _ => record_wf r | _ => True end.

Definition transact {A} (c : call A) (st : AdmissionStore) : AdmissionStore * result A :=
  match run_memory c st with
  | (st', Ok a) => (st', Ok a)
  | (_, Err e) => (st, Err e)
  end.

(** The file holds the records of [st], and the capacities are its. *)
Record refines (fs : FileAdmissionStore) (st : AdmissionStore) : Prop := {
  refines_inv : store_inv st;
  refines_file : ∀ levels, (document_levels <= levels)%nat → _load_records levels (state_path fs) = Ok (_records st);
  refines_memory : set_records (memory fs) (_records st) = st;
}.

(** *** The base class raises no [OSError] *)

Definition st_raises {A} (m : StoreM A) : Prop := ∀ st, raises_only payload_handled (m st).2.

Lemma st_raises_bind {A B} (m : StoreM A) (f : A → StoreM B) :
  st_raises m → (∀ a, st_raises (f a)) → st_raises (m ≫= f).
Proof.
  intros Hm Hf st. rewrite st_bind_eq. specialize (Hm st).
  destruct (m st) as [st' [a|e]]; cbn in *; [apply Hf|intros e' [= <-]; by apply Hm].
Qed.

Lemma st_raises_lift {A} (r : result A) : raises_only payload_handled r → st_raises (st_lift r).
Proof. intros H st. exact H. Qed.

Lemma st_raises_get : st_raises st_get.
Proof. intros st. apply raises_Ok. Qed.
Lemma st_raises_write r : st_raises (write_record r).
Proof. intros st. apply raises_Ok. Qed.
Lemma st_raises_ret {A} (a : A) : st_raises (mret a).
Proof. intros st. apply raises_Ok. Qed.

Create HintDb st_raises.
#[local] Hint Resolve st_raises_bind st_raises_lift st_raises_get st_raises_write st_raises_ret
  : st_raises.

Lemma raises_record_replace r st rev : raises_only payload_handled (record_replace r st rev).
Proof. apply raises_record. Qed.
Lemma raises_advance r t now : raises_only payload_handled (advance r t now).
Proof.
  unfold advance, is_expired. pose proof raises_record_replace. raises_cases.
Qed.
Lemma raises_is_expired r now : raises_only payload_handled (is_expired r now).
Proof. unfold is_expired. raises_cases. Qed.
#[local] Hint Resolve raises_advance raises_is_expired : raises.

Ltac st_raises_cases :=
  repeat match goal with
  | |- st_raises (match ?x with _ => _ end) => destruct x
  | |- st_raises (_ ≫= _) => apply st_raises_bind; [|intros ?]
  | |- st_raises (st_lift _) => apply st_raises_lift; raises_cases
  end; auto with st_raises.

Lemma st_raises_expire_loop l now : st_raises (expire_loop l now).
Proof. induction l as [|r l IH]; cbn [expire_loop]; st_raises_cases. Qed.

Lemma st_raises_expire_locked now : st_raises (_expire_locked now).
Proof. intros st. apply st_raises_expire_loop. Qed.
#[local] Hint Resolve st_raises_expire_locked : st_raises.

Lemma run_memory_raises {A} (c : call A) : st_raises (run_memory c).
Proof.
  destruct c; cbn [run_memory]; unfold AdmissionStore.reserve, AdmissionStore.transition,
    AdmissionStore._transition, _transition_locked, AdmissionStore.expire, AdmissionStore.get,
    AdmissionStore.public_snapshot, AdmissionStore.records_snapshot; st_raises_cases.
Qed.

Lemma handled_not_os e : payload_handled e = true → is_os_error e = false.
Proof. by destruct e. Qed.

(** *** The capacities are fixed *)

Definition keeps_capacities {A} (m : StoreM A) : Prop :=
  ∀ st rs, set_records (m st).1 rs = set_records st rs.

Lemma keeps_bind {A B} (m : StoreM A) (f : A → StoreM B) :
  keeps_capacities m → (∀ a, keeps_capacities (f a)) → keeps_capacities (m ≫= f).
Proof.
  intros Hm Hf st rs. rewrite st_bind_eq, <- (Hm st).
  destruct (m st) as [st' [a|e]]; cbn; [apply Hf|done].
Qed.

Lemma keeps_pure {A} (m : StoreM A) : (∀ st, (m st).1 = st) → keeps_capacities m.
Proof. intros H st rs. by rewrite H. Qed.

Ltac keeps_cases :=
  repeat match goal with
  | |- keeps_capacities (match ?x with _ => _ end) => destruct x
  | |- keeps_capacities (_ ≫= _) => apply keeps_bind; [|intros ?]
  | |- keeps_capacities (write_record _) => intros ??; reflexivity
  | |- keeps_capacities (st_lift _) => by apply keeps_pure
  | |- keeps_capacities st_get => by apply keeps_pure
  | |- keeps_capacities (mret _) => by apply keeps_pure
  end; auto.

Lemma keeps_expire_locked now : keeps_capacities (_expire_locked now).
Proof.
  assert (∀ l, keeps_capacities (expire_loop l now)) as H; [|intros st; apply H].
  intros l. induction l as [|r l IH]; cbn [expire_loop]; keeps_cases.
Qed.

Lemma keeps_run {A} (c : call A) : keeps_capacities (run_memory c).
Proof.
  pose proof keeps_expire_locked.
  destruct c; cbn [run_memory]; unfold AdmissionStore.reserve, AdmissionStore.transition,
    AdmissionStore._transition, _transition_locked, AdmissionStore.expire, AdmissionStore.get,
    AdmissionStore.public_snapshot, AdmissionStore.records_snapshot; keeps_cases.
Qed.

Lemma run_memory_inv {A} (c : call A) st :
  store_inv st → call_wf c → store_inv (run_memory c st).1.
Proof.
  destruct c; cbn [run_memory call_wf]; intros Hinv Hwf;
    auto using AdmissionStore.reserve_inv, AdmissionStore.transition_inv,
      AdmissionStore.expire_inv.
Qed.

Lemma run_memory_reads {A} (c : call A) st : mutates c = false → (run_memory c st).1 = st.
Proof. by destruct c. Qed.

(** A file call is the base method between a load and, for the mutating
    ones, a replacement of the file. *)
Lemma run_file_eq {A} (os : os_answers) (c : call A) :
  run_file os c = (if mutates c then _mutate os (run_memory c) else _inspect os (run_memory c)).
Proof. by destruct c. Qed.

(** The operating system grants the lock and, when the call has an effect,
    the replacement of a document that is not too large; and the recursion
    limit does not stop the parser. *)
Definition completes {A} (os : os_answers) (c : call A) (fs : FileAdmissionStore) (st : AdmissionStore) : bool :=
  lock_opens os && lock_taken os && is_ok (_load_records (levels_left os) (state_path fs))
  && (negb (mutates c) || negb (is_ok (transact c st).2)
      || (replaced os && negb (too_large (byte_size (encode_state (transact c st).1))))).

(** Loading a file that represents [st] gives its records, or meets the limit. *)
Lemma load_refines fs st levels : refines fs st →
  _load_records levels (state_path fs) = Ok (_records st)
  ∨ (levels < document_levels)%nat ∧ ∃ m, _load_records levels (state_path fs) = Err (RecursionError m).
Proof.
  intros [_ Hf _]. destruct (decide (document_levels <= levels)%nat) as [Hle|Hlt]; [left; by apply Hf|].
  destruct (load_records_cut levels document_levels (state_path fs)) as [->|Hm]; [lia|left; by apply Hf|].
  right. split; [lia|exact Hm].
Qed.

Lemma reload_refines os fs st :
  refines fs st → is_ok (_load_records (levels_left os) (state_path fs)) = true →
  reload os fs = ({| memory := st; state_path := state_path fs |}, Ok ()).
Proof.
  intros Hr Hok. unfold reload. destruct (load_refines fs st (levels_left os) Hr) as [->|(_ & m & E)].
  - by rewrite (refines_memory _ _ Hr).
  - by rewrite E in Hok.
Qed.

(** How a call that does not complete fails. *)
Definition refused (os : os_answers) (e : exn) : Prop :=
  (∃ m, e = AdmissionError m) ∨ (∃ m, e = RecursionError m) ∧ (levels_left os < document_levels)%nat.

Lemma admission_refused os m : refused os (AdmissionError m).
Proof. left. by eexists. Qed.
#[local] Hint Resolve admission_refused : core.

Lemma call_unread {A} (c : call A) os fs st : refines fs st → lock_opens os = true → lock_taken os = true →
  is_ok (_load_records (levels_left os) (state_path fs)) = false →
  ∃ e, run_file os c fs = (fs, Err e) ∧ refused os e.
Proof.
  intros Hr Ho Hl Hok. destruct (load_refines fs st (levels_left os) Hr) as [E|(Hlt & m & E)]; [by rewrite E in Hok|].
  exists (RecursionError m). split; [|right; split; [by eexists|exact Hlt]].
  rewrite run_file_eq. destruct (mutates c); unfold _mutate, _inspect, _file_lock; rewrite Ho, Hl; cbn [negb];
    rewrite st_bind_eq; unfold reload; rewrite E; done.
Qed.

Lemma refines_unchanged fs st st' :
  refines fs st → (∀ rs, set_records st' rs = set_records st rs) →
  refines {| memory := st'; state_path := state_path fs |} st.
Proof.
  intros [Hi Hf Hm] Hk. split; [done|done|]. cbn. rewrite Hk. by destruct st.
Qed.

Lemma reraise_not_os {A} e' (r : result A) :
  raises_only payload_handled r → reraise is_os_error e' r = r.
Proof.
  destruct r as [a|e]; [done|]. intros H. cbn. by rewrite (handled_not_os e (H e eq_refl)).
Qed.

Lemma file_call_refines {A} (c : call A) os fs st :
  refines fs st → call_wf c →
  Z.of_nat (length (_records (transact c st).1)) <= MAX_STORED_ADMISSIONS →
  let '(fs', out) := run_file os c fs in
  if completes os c fs st
  then refines fs' (transact c st).1 ∧ out = (transact c st).2
  else refines fs' st ∧ ∃ e, out = Err e ∧ refused os e.
Proof.
  intros Href Hwf Hcount.
  destruct (lock_opens os && lock_taken os && negb (is_ok (_load_records (levels_left os) (state_path fs)))) eqn:Hun.
  { rewrite !andb_true_iff, negb_true_iff in Hun. destruct Hun as [[Ho Hl] Hok].
    destruct (call_unread c os fs st Href Ho Hl Hok) as (e & -> & He).
    unfold completes. rewrite Ho, Hl, Hok. cbn [andb]. eauto. }
  rewrite run_file_eq.
  pose proof (run_memory_inv c st (refines_inv _ _ Href) Hwf) as Hinv.
  pose proof (keeps_run c st) as Hkeep. pose proof (run_memory_raises c st) as Hraise.
  pose proof (run_memory_reads c st) as Hread.
  pose proof (refines_unchanged fs st _ Href Hkeep) as Hsame.
  unfold completes, transact in *.
  destruct (lock_opens os) eqn:Ho; [|destruct (mutates c); unfold _mutate, _inspect, _file_lock;
    rewrite Ho; cbn; eauto].
  destruct (lock_taken os) eqn:Hl; [|destruct (mutates c); unfold _mutate, _inspect, _file_lock;
    rewrite Ho, Hl; cbn; eauto].
  destruct (is_ok (_load_records (levels_left os) (state_path fs))) eqn:Hok; [clear Hun|done].
  cbn [andb].
  destruct (mutates c); unfold _mutate, _inspect, _file_lock; rewrite Ho, Hl; cbn [negb orb];
    rewrite st_bind_eq, (reload_refines os _ _ Href Hok); rewrite ?st_bind_eq; unfold in_memory;
    cbn [memory state_path]; destruct (run_memory c st) as [st' [a|e]] eqn:Hrun;
    cbn [fst snd is_ok negb orb] in *.
  - rewrite st_bind_eq. unfold _write_records. cbn [memory state_path].
    destruct (too_large _) eqn:Hsize; cbn [negb andb].
    { rewrite andb_false_r. cbn. eauto. }
    destruct (replaced os); cbn [andb reraise]; [|cbn; eauto].
    split; [|done]. split; cbn [state_path memory]; [done| |by destruct st'].
    intros levels Hlevels. rewrite load_encode_records by done.
    by rewrite (proj2 (Z.leb_le _ _) Hcount).
  - rewrite reraise_not_os by done. done.
  - rewrite Hread in Hsame |- * by done. done.
  - rewrite reraise_not_os by done. done.
Qed.

(** ** Properties *)

Definition all_ok : os_answers := {| lock_opens := true; lock_taken := true; replaced := true; levels_left := 100 |}.

Definition sample_file_store : FileAdmissionStore :=
  {| memory := sample_store; state_path := Absent |}.

(** C27: the file-backed store implements the in-process store used as a
    transaction.  A store over an absent file represents the empty store; and
    whatever store [st] the file represents, a call (made with whatever the
    operating system answers) returns exactly what the in-process method
    returns on [st], and the file then represents the store that method
    leaves when it succeeds and still [st] when it raises; when the lock or
    the replacement of the file is refused, or the document would exceed four
    megabytes, the call raises [AdmissionError] and the file still represents
    [st].  (The store must stay within the 4096 records the reader accepts.)
    The same holds when the interpreter's recursion limit leaves the parser
    fewer than the five levels of the document and it raises [RecursionError]. *)
Theorem file_store_refines :
  (∀ a b c st, AdmissionStore_new a b c = Ok st →
     refines {| memory := st; state_path := Absent |} st)
  ∧ (∀ A (c : call A) os fs st,
       refines fs st → call_wf c →
       Z.of_nat (length (_records (transact c st).1)) <= MAX_STORED_ADMISSIONS →
       let '(fs', out) := run_file os c fs in
       if completes os c fs st
       then refines fs' (transact c st).1 ∧ out = (transact c st).2
       else refines fs' st ∧ ∃ e, out = Err e ∧ refused os e).
Proof.
  split; [|intros *; apply file_call_refines].
  intros a b c st Hnew. split; [by eapply new_store_inv| |by destruct st].
  unfold AdmissionStore_new in Hnew. inv_result. done.
Qed.

Lemma file_store_refines_witness :
  let '(fs', out) := run_file all_ok (CReserve sample_record sample_later) sample_file_store in
  refines fs' sample_busy_store ∧ out = Ok sample_reserved.
Proof.
  refine (proj2 file_store_refines _ (CReserve sample_record sample_later) all_ok
    sample_file_store sample_store
    (proj1 file_store_refines (VInt 2) (VInt 1) (VInt 1) sample_store eq_refl)
    sample_record_wf _).
  vm_compute. discriminate.
Defined.

(** C37: the state file round-trips: what [_write_records] wrote for a store
    within the size limit loads back as the very records of that store, in
    order, when there are at most 4096 of them.  The writer does not check
    the number: with more records the file it wrote is refused by every later
    load.  (The document has five levels, which the interpreter's recursion
    limit must leave to the parser.) *)
Theorem state_file_roundtrip levels st :
  store_inv st → too_large (byte_size (encode_state st)) = false → (document_levels <= levels)%nat →
  _load_records levels (Text (encode_state st)) =
    if Z.of_nat (length (_records st)) <=? MAX_STORED_ADMISSIONS then Ok (_records st)
    else Err (AdmissionError "invalid_admission_state_records").
Proof. apply load_encode_records. Qed.

Lemma state_file_roundtrip_witness :
  _load_records 5 (Text (encode_state sample_busy_store)) = Ok (_records sample_busy_store).
Proof.
  apply (state_file_roundtrip 5 sample_busy_store sample_busy_inv); [vm_compute; reflexivity|exact (le_n 5)].
Defined.

Definition is_admission_error (e : exn) : bool :=
  match e with AdmissionError _ => true | _ => false end.

Lemma raises_load_entries raw acc : raises_only is_admission_error (load_entries acc raw).
Proof.
  revert acc. induction raw as [|r raw IH]; intros acc; cbn [load_entries]; [apply raises_Ok|].
  apply raises_bind; [|intros a; apply raises_bind; [by apply raises_require|intros _; apply IH]].
  intros e He. destruct (record_decode_total r) as [[x Hx]|Hx]; rewrite Hx in He; by simplify_eq.
Qed.

Lemma raises_document payload : raises_only is_admission_error (document_records payload).
Proof. unfold document_records. raises_cases. Qed.


(** The escaping cases: a document that is one integer of 4301 digits, and one
    of more levels than are left. *)
Example oversized_integer_escapes :
  _load_records 4 (Text (Nat.iter 4301 (String "1") "")) = Err (ValueError "Exceeds the limit for integer string conversion").
Proof. vm_compute. reflexivity. Qed.

Example deep_document_escapes :
  _load_records 9 (Text (Nat.iter 10 (String "[") "")) =
  Err (RecursionError "maximum recursion depth exceeded while decoding a JSON array from a unicode string").
Proof. vm_compute. reflexivity. Qed.
