(* ===== verification/HiveTypes.v ===== *)
(** * Hive primitives

    [src/src/the_hive/hive/types.py]: identifiers, UTC timestamps and the two
    enumerations every Hive module shares. *)

From S2P Require Import Prelude PyTime.
#[local] Open Scope Z_scope.

(** [[a-z][a-z0-9_-]{0,127}], matched in full. *)
Definition _IDENTIFIER_RE (s : string) : bool :=
  match s with
  | EmptyString => false
  | String c rest =>
      is_lower c && (py_len rest <=? 127)
      && string_forallb (λ c, is_lower c || is_digit_char c || is_char "_" c || is_char "-" c) rest
  end.

Definition validate_identifier (value : pyval) (field : string) : result string :=
  match value with
  | VStr s =>
      if _IDENTIFIER_RE s then Ok s else Err (HiveValidationError ("invalid_" +:+ field))
  | _ => Err (HiveValidationError ("invalid_" +:+ field))
  end.

Definition validate_utc_datetime (value : datetime) (field : string) : result datetime :=
  _ ← require (dt_aware value) (HiveValidationError ("invalid_" +:+ field));
  reraise (λ e, match e with OverflowError _ => true | _ => is_value_error e end)
    (λ _, HiveValidationError ("invalid_" +:+ field))
    (dt_astimezone_utc value).

Inductive DispatchPriority := DP0 | DP1 | DP2 | DP3.
Inductive TaskComplexity := TC_SIMPLE | TC_MEDIUM | TC_COMPLEX | TC_UNKNOWN.

#[export] Instance DispatchPriority_eq_dec : EqDecision DispatchPriority.
Proof. solve_decision. Defined.
#[export] Instance TaskComplexity_eq_dec : EqDecision TaskComplexity.
Proof. solve_decision. Defined.

Definition priority_value (p : DispatchPriority) : string :=
  match p with DP0 => "DP0" | DP1 => "DP1" | DP2 => "DP2" | DP3 => "DP3" end.

Definition complexity_value (c : TaskComplexity) : string :=
  match c with
  | TC_SIMPLE => "simple" | TC_MEDIUM => "medium"
  | TC_COMPLEX => "complex" | TC_UNKNOWN => "unknown"
  end.

(** [Enum(value)]: the member with that value, else [ValueError]. *)
Definition enum_of {A} (value_of : A → string) (members : list A) (v : pyval) : result A :=
  match v with
  | VStr s =>
      match List.find (λ a, bool_decide (value_of a = s)) members with
      | Some a => Ok a
      | None => Err (ValueError "not a valid member")
      end
  | _ => Err (ValueError "not a valid member")
  end.

Definition DispatchPriority_of : pyval → result DispatchPriority :=
  enum_of priority_value [DP0; DP1; DP2; DP3].
Definition TaskComplexity_of : pyval → result TaskComplexity :=
  enum_of complexity_value [TC_SIMPLE; TC_MEDIUM; TC_COMPLEX; TC_UNKNOWN].

Lemma DispatchPriority_of_value p : DispatchPriority_of (VStr (priority_value p)) = Ok p.
Proof. by destruct p. Qed.

Lemma validate_identifier_Ok v f s :
  validate_identifier v f = Ok s ↔ v = VStr s ∧ _IDENTIFIER_RE s = true.
Proof.
  destruct v as [| | | |s'| |]; cbn; try (split; [done|by intros [? ?]]).
  destruct (_IDENTIFIER_RE s') eqn:H; naive_solver congruence.
Qed.

Lemma validate_utc_datetime_Ok d f d' :
  validate_utc_datetime d f = Ok d' ↔
  dt_aware d = true ∧ 0 <= dt_utc d < MAX_LOCAL ∧ d' = Datetime (dt_utc d) (Some 0).
Proof.
  unfold validate_utc_datetime. rewrite bind_Ok. setoid_rewrite require_Ok.
  setoid_rewrite reraise_Ok. unfold dt_astimezone_utc.
  destruct ((0 <=? dt_utc d) && (dt_utc d <? MAX_LOCAL)) eqn:Hr.
  - split; [intros ([] & ? & [= <-]); split_and!; [done|lia|lia|done]|].
    intros (? & ? & ->). by exists ().
  - split; [by intros ([] & ? & ?)|]. intros (? & ? & ?). lia.
Qed.
