(* ===== verification/Repositories.v ===== *)
(** * Repository bindings

    [src/src/the_hive/hive/repositories.py]: the registry of repositories, the
    checks of a working tree against its binding, the resolution of relative
    paths and the digest that binds an admission to a scope.  What the
    filesystem and [git] answer is a parameter: an absolute path is the list
    of its components. *)

From S2P Require Import Prelude PyTime Order Json Sha256 HiveTypes.
#[local] Open Scope Z_scope.

Definition MAX_REMOTE_LENGTH : Z := 512.

(** [[A-Za-z0-9._/-]{1,128}], matched in full. *)
Definition _BRANCH_RE (s : string) : bool :=
  (1 <=? py_len s) && (py_len s <=? 128)
  && string_forallb (λ c, is_lower c || is_upper c || is_digit_char c || is_char "." c
                          || is_char "_" c || is_char "/" c || is_char "-" c) s.

Abbreviation path := (list string).

(** What [lstat] reports of a path: its mode bits, and whether it is a link
    or (following links) a directory. *)
Record file_status := { st_mode : Z; st_symlink : bool; st_dir : bool }.

(** The answers of the operating system and of [git]. *)
Record host := {
  resolve_strict : path → result path;
  resolve : path → result path;
  resolve_text : string → result path;
  lstat : path → result file_status;
  git : path → list string → option string;
}.

Record RepositoryBinding := {
  rb_repo_id : string;
  remote_identity : string;
  local_root : path;
  default_branch : string;
  config_digest : string;
}.

(** [RepositoryBinding(...)]; a root that is not an absolute [Path] is [None]. *)
Definition RepositoryBinding_new (repo_id remote : pyval) (root : option path)
  (branch digest : pyval) : result RepositoryBinding :=
  repo_id ← reraise (λ e, match e with HiveValidationError _ => true | _ => false end)
              (λ _, RepositoryError "invalid_repository_id")
              (validate_identifier repo_id "repo");
  remote ← match remote with
           | VStr s => if (1 <=? py_len s) && (py_len s <=? MAX_REMOTE_LENGTH)
                          && negb (has_control s)
                       then Ok s else Err (RepositoryError "invalid_remote_identity")
           | _ => Err (RepositoryError "invalid_remote_identity")
           end;
  root ← match root with Some p => Ok p | None => Err (RepositoryError "invalid_repository_root") end;
  branch ← match branch with
           | VStr s => if _BRANCH_RE s then Ok s else Err (RepositoryError "invalid_default_branch")
           | _ => Err (RepositoryError "invalid_default_branch")
           end;
  digest ← match digest with
           | VStr s => if is_sha256_digest s then Ok s
                       else Err (RepositoryError "invalid_repository_config_digest")
           | _ => Err (RepositoryError "invalid_repository_config_digest")
           end;
  Ok {| rb_repo_id := repo_id; remote_identity := remote; local_root := root;
        default_branch := branch; config_digest := digest |}.

Record RepositoryValidation := {
  rv_repo_id : string;
  rv_allowed : bool;
  rv_reason_code : string;
}.

Definition validation_public (v : RepositoryValidation) : list (string * pyval) :=
  [ ("repo_id", VStr (rv_repo_id v)); ("allowed", VBool (rv_allowed v));
    ("reason_code", VStr (rv_reason_code v)); ("root", VStr "not_returned");
    ("remote", VStr "not_returned") ].

(** ** Text of remotes *)

(** The characters [str.strip()] removes, among the code points below 256. *)
Definition is_space (c : ascii) : bool :=
  in_range 9 13 c || in_range 28 32 c || bool_decide (ord c ∈ [133; 160]).

Fixpoint lstrip (p : ascii → bool) (s : string) : string :=
  match s with
  | String c rest => if p c then lstrip p rest else s
  | EmptyString => EmptyString
  end.

Fixpoint rstrip (p : ascii → bool) (s : string) : string :=
  match s with
  | EmptyString => EmptyString
  | String c rest =>
      match rstrip p rest with
      | EmptyString => if p c then EmptyString else String c EmptyString
      | rest => String c rest
      end
  end.

(** [s.split(sep, 1)], when [sep] is a character of [s]. *)
Fixpoint cut (sep : ascii) (s : string) : option (string * string) :=
  match s with
  | EmptyString => None
  | String c rest =>
      if bool_decide (c = sep) then Some (EmptyString, rest)
      else '(a, b) ← cut sep rest; Some (String c a, b)
  end.

(** [s.split("://", 1)], when it occurs. *)
Fixpoint cut_scheme (s : string) : option (string * string) :=
  match s with
  | EmptyString => None
  | String c rest =>
      if startswith "://" s then Some (EmptyString, String.substring 3 (String.length s - 3) s)
      else '(a, b) ← cut_scheme rest; Some (String c a, b)
  end.

(** [s.removesuffix(".git")]. *)
Fixpoint remove_git (s : string) : string :=
  if bool_decide (s = ".git") then EmptyString
  else match s with EmptyString => EmptyString | String c rest => String c (remove_git rest) end.

Definition _normalize_remote (value : string) : string :=
  let text := rstrip is_space (lstrip is_space value) in
  let text :=
    match (if startswith "git@" text
           then cut ":" (String.substring 4 (String.length text - 4) text) else None) with
    | Some (host, path) => "ssh://git@" +:+ (py_lower host +:+ ("/" +:+ path))
    | None =>
        match cut_scheme text with
        | Some (scheme, rest) =>
            let '(host, separator, path) :=
              match cut "/" rest with Some (h, p) => (h, "/", p) | None => (rest, "", "") end in
            py_lower scheme +:+ ("://" +:+ (py_lower host +:+ (separator +:+ path)))
        | None => text
        end
    end in
  remove_git (rstrip (is_char "/") text).

(** ** The registry *)

Record RepositoryRegistry := { _bindings : list (string * RepositoryBinding) }.

Definition RepositoryRegistry_new (bindings : list RepositoryBinding) : result RepositoryRegistry :=
  _ ← require (bool_decide (NoDup (rb_repo_id <$> bindings)))
        (RepositoryError "duplicate_repository_id");
  Ok {| _bindings := (λ b, (rb_repo_id b, b)) <$> bindings |}.

Section registry.
Context (os : host) (self : RepositoryRegistry).

Definition get (repo_id : pyval) : result RepositoryBinding :=
  reraise (λ e, match e with HiveValidationError _ | KeyError _ => true | _ => false end)
    (λ _, RepositoryError "unknown_repository")
    (id ← validate_identifier repo_id "repo";
     match dict_get id (_bindings self) with Some b => Ok b | None => Err (KeyError id) end).

(** A directory on the way to the root: not a link, and not writable by
    others unless sticky. *)
Definition ancestor_ok (p : path) : bool :=
  match lstat os p with
  | Err _ => false
  | Ok st =>
      st_dir st
      && negb (negb (Z.land (st_mode st) 18 =? 0) && (Z.land (st_mode st) 512 =? 0))
      && negb (st_symlink st)
  end.

(** The chain from the filesystem's root down to the path. *)
Definition ancestors (p : path) : list path := (λ n, take n p) <$> seq 0 (S (length p)).
Definition _directory_chain_is_real (p : path) : bool := forallb ancestor_ok (ancestors p).

Definition validate (repo_id : pyval) : result RepositoryValidation :=
  binding ← get repo_id;
  let root := local_root binding in
  let answer ok reason := Ok {| rv_repo_id := rb_repo_id binding; rv_allowed := ok;
                                rv_reason_code := reason |} in
  match lstat os root, resolve_strict os root with
  | Err _, _ | _, Err _ => answer false "repository_root_unavailable"
  | Ok st, Ok resolved =>
    if negb (Z.land (st_mode st) 18 =? 0) || st_symlink st || negb (st_dir st)
    then answer false "repository_root_untrusted"
    else if negb (_directory_chain_is_real root) then answer false "repository_parent_untrusted"
    else if negb (bool_decide (resolved = root)) then answer false "repository_root_changed"
    else
      match git os root ["rev-parse"; "--show-toplevel"] with
      | None => answer false "repository_git_unavailable"
      | Some top_level =>
        match resolve_text os top_level with
        | Err _ => answer false "repository_root_changed"
        | Ok top =>
          if negb (bool_decide (top = root)) then answer false "repository_root_mismatch"
          else if negb match git os root ["config"; "--get"; "remote.origin.url"] with
                       | None => false
                       | Some remote =>
                           bool_decide (_normalize_remote remote
                                        = _normalize_remote (remote_identity binding))
                       end
          then answer false "repository_remote_mismatch"
          else if negb (bool_decide (git os root ["symbolic-ref"; "--quiet"; "--short"; "HEAD"]
                                     = Some (default_branch binding)))
          then answer false "repository_branch_mismatch"
          else
            match git os root ["rev-parse"; "--verify"; "--quiet";
                               "refs/heads/" +:+ (default_branch binding +:+ "^{commit}")] with
            | None => answer false "repository_commit_unavailable"
            | Some commit =>
              if bool_decide (git os root ["rev-parse"; "--verify"; "--quiet"; "HEAD^{commit}"]
                              = Some commit)
              then answer true "repository_verified"
              else answer false "repository_branch_mismatch"
            end
        end
      end
  end.

Definition public_status (repo_id : pyval) : result (list (string * pyval)) :=
  v ← validate repo_id; Ok (validation_public v).

(** ** Paths *)

Definition relative_ok (s : string) : bool :=
  negb (bool_decide (s = "")) && negb (has_char "\" s)
  && negb (startswith "/" s || startswith "~" s) && negb (contains "://" s)
  && forallb (λ part, negb (bool_decide (part ∈ [""; "."; ".."]))) (split_on "/" s).

(** [candidate.relative_to(root)]. *)
Fixpoint relative_to (candidate root : path) : option path :=
  match root, candidate with
  | [], _ => Some candidate
  | r :: root, c :: candidate => if bool_decide (r = c) then relative_to candidate root else None
  | _ :: _, [] => None
  end.

(** [except (OSError, RuntimeError, ValueError)]. *)
Definition resolution_handled (e : exn) : bool :=
  is_os_error e || is_runtime_error e || is_value_error e.

Definition resolve_path (repo_id : pyval) (value : pyval) : result path :=
  binding ← get repo_id;
  match value with
  | VStr s =>
      if relative_ok s then
        reraise resolution_handled (λ _, RepositoryError "repository_path_escape")
          (root ← resolve_strict os (local_root binding);
           candidate ← resolve os (root ++ split_on "/" s);
           _ ← match relative_to candidate root with
               | Some _ => Ok ()
               | None => Err (ValueError "is not in the subpath")
               end;
           Ok candidate)
      else Err (RepositoryError "repository_path_escape")
  | _ => Err (RepositoryError "repository_path_escape")
  end.

(** [os.fspath] of a relative path. *)
Definition fspath (p : path) : string := match p with [] => "." | _ => py_join "/" p end.

Definition scope_member (repo_id : pyval) (value : pyval) : result string :=
  candidate ← resolve_path repo_id value;
  binding ← get repo_id;
  root ← resolve_strict os (local_root binding);
  match relative_to candidate root with
  | Some p => Ok (fspath p)
  | None => Err (ValueError "is not in the subpath")
  end.

Definition nul : string := String (char_at 0) "".

Definition scope_text (repo_id mode : string) (canonical : list string) : string :=
  repo_id +:+ (nul +:+ (mode +:+ (nul +:+ py_join nul canonical))).

Definition scope_digest (repo_id mode : string) (paths : list string) : result string :=
  _ ← require (bool_decide (mode ∈ ["read"; "write"])) (RepositoryError "invalid_scope_mode");
  members ← mapM_result (λ p, scope_member (VStr repo_id) (VStr p)) paths;
  let canonical := sort_by str_cmp id members in
  _ ← require (negb (bool_decide (canonical = []))) (RepositoryError "invalid_scope_paths");
  Ok ("sha256:" +:+ sha256_hex (scope_text repo_id mode canonical)).
End registry.

(** [RepositoryRegistry.config_digest] of a configuration file's bytes. *)
Definition config_digest_of (payload : list Z) : string :=
  "sha256:" +:+ hexdigest (sha256 payload).

(** ** Containment and the scope digest *)

Lemma relative_to_Some p root rel : relative_to p root = Some rel ↔ p = root ++ rel.
Proof.
  revert p. induction root as [|r root IH]; intros p.
  { destruct p; naive_solver. }
  destruct p as [|c p]; [done|]. cbn [relative_to app].
  case_bool_decide as Hr; [subst|]; rewrite ?IH; naive_solver.
Qed.

Section digest.
Context (os : host) (self : RepositoryRegistry).

(** A resolved path lies below the resolved root of its repository. *)
Lemma resolve_path_within repo_id value p :
  resolve_path os self repo_id value = Ok p →
  ∃ b root rel, get self repo_id = Ok b ∧ resolve_strict os (local_root b) = Ok root
    ∧ p = root ++ rel.
Proof.
  unfold resolve_path. intros (b & Hb & H)%bind_Ok. destruct value; try done.
  destruct (relative_ok s); [|done]. apply reraise_Ok in H.
  apply bind_Ok in H as (root & Hroot & H). apply bind_Ok in H as (c & Hc & H).
  destruct (relative_to c root) as [rel|] eqn:Hrel; [|done]. cbn in H. injection H as <-.
  exists b, root, rel. split_and!; [done..|]. by apply relative_to_Some.
Qed.

(** Names the operating system resolves to hold no NUL character. *)
Definition names_ok : Prop :=
  ∀ p q, resolve os p = Ok q → Forall (λ c, has_char (char_at 0) c = false) q.

Lemma fspath_no_nul p :
  Forall (λ c, has_char (char_at 0) c = false) p → has_char (char_at 0) (fspath p) = false.
Proof.
  intros Hp. destruct p as [|c p]; [done|]. cbn [fspath]. revert c Hp.
  induction p as [|c' p IH]; intros c Hp; [by apply Forall_cons in Hp as [? _]|].
  apply Forall_cons in Hp as [Hc Hp]. change (py_join "/" (c :: c' :: p))
    with (c +:+ ("/" +:+ py_join "/" (c' :: p))).
  rewrite !has_char_app, Hc, (IH c' Hp). done.
Qed.

Lemma scope_member_no_nul repo_id value m :
  names_ok → scope_member os self repo_id value = Ok m → has_char (char_at 0) m = false.
Proof.
  intros Hn. unfold scope_member. intros (c & Hc & H)%bind_Ok.
  apply bind_Ok in H as (b & _ & H). apply bind_Ok in H as (root & _ & H).
  destruct (relative_to c root) as [rel|] eqn:Hrel; [|done]. injection H as <-.
  apply relative_to_Some in Hrel as ->. apply fspath_no_nul.
  unfold resolve_path in Hc. apply bind_Ok in Hc as (b' & _ & Hc). destruct value; try done.
  destruct (relative_ok s); [|done]. apply reraise_Ok in Hc.
  apply bind_Ok in Hc as (? & _ & Hc). apply bind_Ok in Hc as (c' & Hc' & Hc).
  apply bind_Ok in Hc as (? & _ & [= ->]). apply Hn in Hc'.
  by apply Forall_app in Hc' as [_ ?].
Qed.
End digest.

(** ** What the scope digest binds *)

Lemma sort_str_perm l k : l ≡ₚ k → sort_by str_cmp id l = sort_by str_cmp id k.
Proof.
  intros Hp. apply (sorted_unique str_cmp id).
  - by intros a b _ _ Hab.
  - by rewrite (sort_by_perm str_cmp id l), (sort_by_perm str_cmp id k).
  - apply sort_by_sorted, _.
  - apply sort_by_sorted, _.
Qed.

Lemma identifier_no_nul s : _IDENTIFIER_RE s = true → has_char (char_at 0) s = false.
Proof.
  unfold _IDENTIFIER_RE, has_char. destruct s as [|c s]; [done|].
  intros [[Hc _]%andb_true_iff Hs]%andb_true_iff. apply negb_false_iff.
  assert (∀ d, is_lower d || is_digit_char d || is_char "_" d || is_char "-" d = true →
    negb (bool_decide (d = char_at 0)) = true) as H.
  { intros d Hd. apply negb_true_iff, bool_decide_eq_false. intros ->. done. }
  cbn [string_forallb]. rewrite H by (by rewrite Hc). cbn [andb].
  revert Hs. clear -H. induction s as [|d s IH]; [done|]. cbn [string_forallb].
  intros [Hd Hs]%andb_true_iff. by rewrite (H _ Hd), IH.
Qed.

(** The hashed text determines what it was made from. *)
Lemma scope_text_inj repo mode ms repo' mode' ms' :
  Forall (λ s, has_char (char_at 0) s = false) (repo :: mode :: ms) →
  Forall (λ s, has_char (char_at 0) s = false) (repo' :: mode' :: ms') →
  ms ≠ [] → ms' ≠ [] →
  scope_text repo mode ms = scope_text repo' mode' ms' → repo = repo' ∧ mode = mode' ∧ ms = ms'.
Proof.
  intros Hn Hn' Hne Hne' H.
  assert (∀ r m l, l ≠ [] → scope_text r m l = py_join nul (r :: m :: l)) as Ht
    by (by intros r m [|]).
  rewrite !Ht in H by done. apply (f_equal (split_on (char_at 0))) in H.
  rewrite !split_on_join in H by done. by injection H.
Qed.

Lemma scope_digest_inv os self repo mode paths d :
  names_ok os → scope_digest os self repo mode paths = Ok d →
  ∃ ms, mapM_result (λ p, scope_member os self (VStr repo) (VStr p)) paths = Ok ms
    ∧ d = "sha256:" +:+ sha256_hex (scope_text repo mode (sort_by str_cmp id ms))
    ∧ sort_by str_cmp id ms ≠ []
    ∧ Forall (λ s, has_char (char_at 0) s = false) (repo :: mode :: sort_by str_cmp id ms).
Proof.
  intros Hn Hd. unfold scope_digest in Hd.
  apply bind_Ok in Hd as (? & Hmode & Hd). apply bind_Ok in Hd as (ms & Hms & Hd).
  apply bind_Ok in Hd as (? & Hne & [= <-]). apply require_Ok in Hmode, Hne.
  apply negb_true_iff, bool_decide_eq_false in Hne. apply bool_decide_eq_true in Hmode.
  exists ms. split_and!; [done..|].
  pose proof (proj1 (mapM_result_Ok_Forall2 _ _ _) Hms) as Hf.
  assert (Forall (λ m, has_char (char_at 0) m = false) ms) as Hall.
  { clear -Hf Hn. induction Hf as [|p m ps ms Hm _ IH]; constructor; [|exact IH].
    by eapply scope_member_no_nul. }
  apply Forall_cons_2; [|apply Forall_cons_2].
  - destruct Hf as [|p m ps ms' Hm _]; [by destruct Hne|].
    unfold scope_member, resolve_path, get in Hm.
    apply bind_Ok in Hm as (c & Hc & _). apply bind_Ok in Hc as (b & Hb & _).
    apply reraise_Ok, bind_Ok in Hb as (r & Hr & _).
    apply validate_identifier_Ok in Hr as [[= <-] Hr]. by apply identifier_no_nul.
  - by apply elem_of_cons in Hmode as [->| ->%list_elem_of_singleton].
  - by rewrite (sort_by_perm str_cmp id ms).
Qed.

(** The scope digest binds a scope. When a digest is returned, it is the
    hash of a text of the repository, the mode and the sorted names of the paths
    inside the resolved root. The order of the paths does not matter, and the
    hashed text of another scope (another repository, another mode, or another
    collection of names) is a different text. *)
Theorem scope_digest_binds os self repo mode paths d :
  names_ok os → scope_digest os self repo mode paths = Ok d →
  ∃ members,
    mapM_result (λ p, scope_member os self (VStr repo) (VStr p)) paths = Ok members
    ∧ d = "sha256:" +:+ sha256_hex (scope_text repo mode (sort_by str_cmp id members))
    ∧ (∀ paths', paths ≡ₚ paths' → scope_digest os self repo mode paths' = Ok d)
    ∧ (∀ self' repo' mode' paths' members' d',
         scope_digest os self' repo' mode' paths' = Ok d' →
         mapM_result (λ p, scope_member os self' (VStr repo') (VStr p)) paths' = Ok members' →
         scope_text repo mode (sort_by str_cmp id members)
           = scope_text repo' mode' (sort_by str_cmp id members') →
         repo = repo' ∧ mode = mode' ∧ members ≡ₚ members').
Proof.
  intros Hn Hd.
  destruct (scope_digest_inv _ _ _ _ _ _ Hn Hd) as (ms & Hms & -> & Hne & Hall). exists ms.
  split_and!; [done..| |].
  - intros paths' Hp. destruct (mapM_perm _ _ _ _ Hp Hms) as (ms' & Hms' & Hp').
    unfold scope_digest in *. apply bind_Ok in Hd as (? & Hmode & _). rewrite Hmode, Hms', !bind_ret.
    rewrite <- (sort_str_perm ms ms') by done. by rewrite bool_decide_eq_false_2.
  - intros self' repo' mode' paths' ms' d' Hd' Hms' Ht.
    destruct (scope_digest_inv _ _ _ _ _ _ Hn Hd') as (ms2 & Hms2 & _ & Hne' & Hall').
    rewrite Hms' in Hms2. injection Hms2 as <-.
    apply scope_text_inj in Ht as (-> & -> & Heq); [|done..].
    split_and!; [done..|].
    rewrite <- (sort_by_perm str_cmp id ms), <- (sort_by_perm str_cmp id ms'). by rewrite Heq.
Qed.

Definition sample_host : host := {|
  resolve_strict := λ p, Ok p;
  resolve := λ p, if forallb (λ c, negb (has_char (char_at 0) c)) p then Ok p
                  else Err (ValueError "embedded null byte");
  resolve_text := λ s, Ok (List.tl (split_on "/" s));
  lstat := λ _, Ok {| st_mode := 16877; st_symlink := false; st_dir := true |};
  git := λ _ args,
    match args with
    | ["rev-parse"; "--show-toplevel"] => Some "/srv/hive"
    | ["config"; _; _] => Some "git@Example.org:hive.git"
    | ["symbolic-ref"; _; _; _] => Some "main"
    | _ => Some "c0ffee"
    end;
|}.
Definition sample_binding : RepositoryBinding := {|
  rb_repo_id := "codex-master"; remote_identity := "ssh://git@example.org/hive";
  local_root := ["srv"; "hive"]; default_branch := "main";
  config_digest := "sha256:" +:+ sha256_hex "";
|}.
Definition sample_registry : RepositoryRegistry :=
  {| _bindings := [("codex-master", sample_binding)] |}.

Example sample_validated :
  validate sample_host sample_registry (VStr "codex-master")
  = Ok {| rv_repo_id := "codex-master"; rv_allowed := true; rv_reason_code := "repository_verified" |}.
Proof. vm_compute. reflexivity. Qed.

Lemma scope_digest_binds_witness :
  ∃ d, scope_digest sample_host sample_registry "codex-master" "write" ["src"; "docs/a"] = Ok d
       ∧ scope_digest sample_host sample_registry "codex-master" "write" ["docs/a"; "src"] = Ok d.
Proof.
  assert (names_ok sample_host) as Hn.
  { intros p q. cbn. destruct (forallb _ p) eqn:Hp; [|done]. intros [= <-].
    apply Forall_forall. intros c Hc%list_elem_of_In.
    by apply negb_true_iff, (proj1 (forallb_forall _ _) Hp). }
  destruct (scope_digest sample_host sample_registry "codex-master" "write" ["src"; "docs/a"])
    as [d|e] eqn:Hd; [|by vm_compute in Hd].
  destruct (scope_digest_binds sample_host sample_registry "codex-master" "write" _ d Hn Hd)
    as (ms & _ & _ & Hperm & _).
  exists d. split; [done|]. apply Hperm. apply Permutation_swap.
Defined.
