(* ===== verification/HiveMessages.v ===== *)
(** * Hive messages

    [src/src/the_hive/hive/messages.py]: the bounded field checks, the typed
    message envelope, the strict reader of the wire form and the reduction of
    a child report to parent metadata. *)

From S2P Require Import Prelude PyTime DynamicPool Json Sha256 HiveTypes.

Definition MESSAGE_TYPES : list string :=
  [ "user.intent"; "request.classified"; "dispatch.plan"; "delegation.request"; "repo.plan";
    "workpackage.assign"; "assignment.intent"; "admission.planned"; "admission.result";
    "progress.report"; "result.report"; "decision.request"; "decision.recorded"; "escalation";
    "pause.request"; "cancel.request"; "completion"; "heartbeat" ].
Definition MAX_MESSAGE_BYTES : Z := 256 * 1024.
Definition MAX_TEXT : Z := 4096.
Definition MAX_LIST : Z := 128.
Definition REPORT_MESSAGE_TYPES : list string :=
  ["progress.report"; "result.report"; "decision.request"; "escalation"; "completion"].
Definition REPORT_STATUSES : list string :=
  [ "planned"; "queued"; "executing"; "integrating"; "completed"; "blocked";
    "decision_required"; "failed"; "paused"; "unknown" ].

Abbreviation mapping := (list (string * pyval)).

(** ** Field checks *)

(** [except HiveValidationError as exc: raise HiveMessageError(str(exc))]. *)
Definition is_validation_error (e : exn) : bool :=
  match e with HiveValidationError _ => true | _ => false end.

Definition _id (value : pyval) (field : string) : result string :=
  reraise is_validation_error (λ e, HiveMessageError (exn_str e)) (validate_identifier value field).

Definition text_ok (maximum : Z) (s : string) : bool :=
  (1 <=? py_len s) && (py_len s <=? maximum) && negb (has_control s).

Definition _text (value : pyval) (field : string) (maximum : Z) : result string :=
  match value with
  | VStr s => if text_ok maximum s then Ok s else Err (HiveMessageError ("invalid_" +:+ field))
  | _ => Err (HiveMessageError ("invalid_" +:+ field))
  end.

Definition _optional_id (value : pyval) (field : string) : result (option string) :=
  match value with
  | VNone => Ok None
  | v => s ← _id v field; Ok (Some s)
  end.

(** A tuple or list of bounded texts. *)
Definition _texts (values : list pyval) (field : string) : result (list string) :=
  _ ← require (Z.of_nat (length values) <=? MAX_LIST) (HiveMessageError ("invalid_" +:+ field));
  mapM_result (λ v, _text v field 1024) values.

(** [value.get("raw_output") in {None, "not_returned"}]. *)
Definition raw_output_allowed (d : mapping) : result bool :=
  match dict_get "raw_output" d with
  | None | Some VNone => Ok true
  | Some v => py_in_set v ["not_returned"]
  end.

Definition _mapping (value : pyval) (field : string) : result mapping :=
  match value with
  | VDict d =>
      _ ← require (py_len (json_dumps value) <=? MAX_MESSAGE_BYTES)
            (HiveMessageError ("oversize_" +:+ field));
      allowed ← raw_output_allowed d;
      _ ← require allowed (HiveMessageError "raw_output_not_allowed");
      Ok d
  | _ => Err (HiveMessageError ("invalid_" +:+ field))
  end.

(** ** The envelope *)

Record PrincipalReference := { ref_principal_id : string; ref_class_id : string }.

Definition PrincipalReference_new (principal_id class_id : pyval) : result PrincipalReference :=
  p ← _id principal_id "principal";
  c ← _id class_id "class";
  Ok {| ref_principal_id := p; ref_class_id := c |}.

Record AuthorizationEvidence := {
  auth_grant_id : string;
  auth_scope_digest : string;
  auth_principal_version : Z;
}.

Definition AuthorizationEvidence_new (grant_id scope_digest principal_version : pyval)
  : result AuthorizationEvidence :=
  g ← _id grant_id "grant";
  d ← _text scope_digest "scope_digest" 192;
  match principal_version with
  | VInt v =>
      _ ← require (1 <=? v) (HiveMessageError "invalid_principal_version");
      Ok {| auth_grant_id := g; auth_scope_digest := d; auth_principal_version := v |}
  | _ => Err (HiveMessageError "invalid_principal_version")
  end.

(** [msg_schema_version] keeps the value given: [True] and [1.0] equal [1]. *)
Record HiveMessage := {
  msg_schema_version : pyval;
  msg_message_id : string;
  msg_correlation_id : string;
  msg_causation_id : option string;
  msg_message_type : string;
  msg_sender : PrincipalReference;
  msg_recipient : PrincipalReference;
  msg_repo_id : option string;
  msg_dispatch_id : option string;
  msg_workpackage_id : option string;
  msg_dispatch_priority : DispatchPriority;
  msg_created_at_utc : datetime;
  msg_expires_at_utc : datetime;
  msg_authorization : AuthorizationEvidence;
  msg_payload : mapping;
}.

(** [message_type not in MESSAGE_TYPES], a hash lookup. *)
Definition known_type (v : pyval) : result string :=
  known ← py_in_set v MESSAGE_TYPES;
  match v with
  | VStr s => _ ← require known (HiveMessageError "unknown_message_type"); Ok s
  | _ => Err (HiveMessageError "unknown_message_type")
  end.

Definition HiveMessage_new
    (schema_version message_id correlation_id causation_id message_type : pyval)
    (sender recipient : PrincipalReference) (repo_id dispatch_id workpackage_id : pyval)
    (priority : DispatchPriority) (created_at expires_at : datetime)
    (authorization : AuthorizationEvidence) (payload : mapping) : result HiveMessage :=
  _ ← require (py_eq_int schema_version 1) (HiveMessageError "unsupported_message_schema");
  mid ← _id message_id "message";
  cid ← _id correlation_id "correlation";
  caus ← _optional_id causation_id "causation";
  _ ← require (negb (bool_decide (caus = Some mid))) (HiveMessageError "message_self_causation");
  mtype ← known_type message_type;
  repo ← _optional_id repo_id "repo";
  disp ← _optional_id dispatch_id "dispatch";
  wp ← _optional_id workpackage_id "workpackage";
  created ← validate_utc_datetime created_at "message_timestamp";
  expires ← validate_utc_datetime expires_at "message_expiry";
  _ ← require (dt_ltb created expires) (HiveMessageError "invalid_message_expiry");
  _ ← require (dt_diff_us expires created <=? 24 * 60 * 60 * US_PER_SECOND)
        (HiveMessageError "message_ttl_too_long");
  _ ← _mapping (VDict payload) "payload";
  Ok {| msg_schema_version := schema_version; msg_message_id := mid; msg_correlation_id := cid;
        msg_causation_id := caus; msg_message_type := mtype; msg_sender := sender;
        msg_recipient := recipient; msg_repo_id := repo; msg_dispatch_id := disp;
        msg_workpackage_id := wp; msg_dispatch_priority := priority;
        msg_created_at_utc := created_at; msg_expires_at_utc := expires_at;
        msg_authorization := authorization; msg_payload := payload |}.

Definition reference_payload (r : PrincipalReference) : pyval :=
  VDict [("principal_id", VStr (ref_principal_id r)); ("class_id", VStr (ref_class_id r))].

(** [message.public()]. *)
Definition public (m : HiveMessage) : mapping :=
  [ ("schema_version", msg_schema_version m);
    ("message_id", VStr (msg_message_id m));
    ("correlation_id", VStr (msg_correlation_id m));
    ("causation_id", opt_str (msg_causation_id m));
    ("message_type", VStr (msg_message_type m));
    ("sender", reference_payload (msg_sender m));
    ("recipient", reference_payload (msg_recipient m));
    ("repo_id", opt_str (msg_repo_id m));
    ("dispatch_id", opt_str (msg_dispatch_id m));
    ("workpackage_id", opt_str (msg_workpackage_id m));
    ("dispatch_priority", VStr (priority_value (msg_dispatch_priority m)));
    ("created_at_utc", VStr (isoformat (msg_created_at_utc m)));
    ("expires_at_utc", VStr (isoformat (msg_expires_at_utc m)));
    ("authorization",
      VDict [ ("grant_id", VStr (auth_grant_id (msg_authorization m)));
              ("scope_digest", VStr (auth_scope_digest (msg_authorization m)));
              ("principal_version", VInt (auth_principal_version (msg_authorization m))) ]);
    ("raw_output", VStr "not_returned") ].

(** ** The wire form *)

Definition allowed_fields : list string :=
  [ "schema_version"; "message_id"; "correlation_id"; "causation_id"; "message_type"; "sender";
    "recipient"; "repo_id"; "dispatch_id"; "workpackage_id"; "dispatch_priority";
    "created_at_utc"; "expires_at_utc"; "authorization"; "payload"; "raw_output" ].

Definition parse_handled (e : exn) : bool :=
  is_validation_error e || is_type_error e || is_value_error e.

Definition _parse_time (value : pyval) (field : string) : result datetime :=
  match value with
  | VStr s =>
      if (1 <=? py_len s) && (py_len s <=? 40) then
        reraise parse_handled (λ _, HiveMessageError ("invalid_" +:+ field))
          (match fromisoformat (replace_Z s) with
           | Some parsed => validate_utc_datetime parsed field
           | None => Err (ValueError "Invalid isoformat string")
           end)
      else Err (HiveMessageError ("invalid_" +:+ field))
  | _ => Err (HiveMessageError ("invalid_" +:+ field))
  end.

(** [isinstance(raw, Mapping) and set(raw) == fields]. *)
Definition exact_mapping (v : pyval) (fields : list string) (code : string) : result mapping :=
  match v with
  | VDict d => if keys_exactly d fields then Ok d else Err (HiveMessageError code)
  | _ => Err (HiveMessageError code)
  end.

(** [d.get(k)]. *)
Definition get (k : string) (d : mapping) : pyval := default VNone (dict_get k d).

(** The body of the [try] of [validate_message]. *)
Definition message_from_fields (d : mapping) : result HiveMessage :=
  sender_raw ← getitem "sender" d;
  recipient_raw ← getitem "recipient" d;
  auth_raw ← getitem "authorization" d;
  sender_raw ← exact_mapping sender_raw ["principal_id"; "class_id"] "invalid_message_sender";
  recipient_raw ← exact_mapping recipient_raw ["principal_id"; "class_id"]
                    "invalid_message_recipient";
  auth_raw ← exact_mapping auth_raw ["grant_id"; "scope_digest"; "principal_version"]
               "invalid_authorization";
  created ← getitem "created_at_utc" d;
  created ← _parse_time created "message_timestamp";
  expires ← getitem "expires_at_utc" d;
  expires ← _parse_time expires "message_expiry";
  schema_version ← getitem "schema_version" d;
  message_id ← getitem "message_id" d;
  correlation_id ← getitem "correlation_id" d;
  message_type ← getitem "message_type" d;
  principal_id ← getitem "principal_id" sender_raw;
  class_id ← getitem "class_id" sender_raw;
  sender ← PrincipalReference_new principal_id class_id;
  principal_id ← getitem "principal_id" recipient_raw;
  class_id ← getitem "class_id" recipient_raw;
  recipient ← PrincipalReference_new principal_id class_id;
  priority ← getitem "dispatch_priority" d;
  priority ← DispatchPriority_of priority;
  grant_id ← getitem "grant_id" auth_raw;
  scope_digest ← getitem "scope_digest" auth_raw;
  principal_version ← getitem "principal_version" auth_raw;
  authorization ← AuthorizationEvidence_new grant_id scope_digest principal_version;
  payload ← _mapping (default (VDict []) (dict_get "payload" d)) "payload";
  HiveMessage_new schema_version message_id correlation_id (get "causation_id" d) message_type
    sender recipient (get "repo_id" d) (get "dispatch_id" d) (get "workpackage_id" d)
    priority created expires authorization payload.

(** [except (KeyError, TypeError, ValueError, OverflowError)], a
    [HiveMessageError] being raised again unchanged. *)
Definition message_handled (e : exn) : bool :=
  match e with
  | OverflowError _ => true
  | _ => is_key_error e || is_type_error e || is_value_error e
  end.

Definition message_error (e : exn) : exn :=
  match e with HiveMessageError m => HiveMessageError m | _ => HiveMessageError "invalid_message" end.

Definition validate_message (payload : pyval) : result HiveMessage :=
  match payload with
  | VDict d =>
      if keys_within d allowed_fields then
        allowed ← raw_output_allowed d;
        _ ← require allowed (HiveMessageError "invalid_message_fields");
        reraise message_handled message_error (message_from_fields d)
      else Err (HiveMessageError "invalid_message_fields")
  | _ => Err (HiveMessageError "invalid_message")
  end.

(** ** Child reports *)

Definition _report_status (m : HiveMessage) : string :=
  let mtype := msg_message_type m in
  let fallback :=
    if bool_decide (mtype = "escalation") then "blocked"
    else if bool_decide (mtype = "decision.request") then "decision_required"
    else if bool_decide (mtype ∈ ["result.report"; "completion"]) then "completed"
    else if bool_decide (mtype = "progress.report") then "executing"
    else "unknown" in
  match get "status" (msg_payload m) with
  | VStr value =>
      if bool_decide (value ∈ REPORT_STATUSES) && negb (bool_decide (value = "unknown"))
      then value else fallback
  | _ => fallback
  end.

(** [s.removesuffix(suffix)]. *)
Definition removesuffix (suffix s : string) : string :=
  let n := (String.length s - String.length suffix)%nat in
  if bool_decide (String.substring n (String.length suffix) s = suffix)
     && (String.length suffix <=? String.length s)%nat
  then String.substring 0 n s else s.

(** [s.replace(".", "_")]. *)
Definition dots_to_underscores : string → string :=
  string_map (λ c, if bool_decide (c = "."%char) then "_"%char else c).

Definition payload_digest (d : mapping) : string :=
  "sha256:" +:+ sha256_hex (json_dumps (VDict d)).

Definition record_child_report (m : HiveMessage) : result mapping :=
  _ ← require (bool_decide (msg_message_type m ∈ REPORT_MESSAGE_TYPES))
        (HiveMessageError "invalid_child_report");
  let status := _report_status m in
  Ok [ ("message_id", VStr (msg_message_id m));
       ("message_type", VStr (msg_message_type m));
       ("report_kind",
         VStr (dots_to_underscores (removesuffix ".report" (msg_message_type m))));
       ("correlation_id", VStr (msg_correlation_id m));
       ("causation_id", opt_str (msg_causation_id m));
       ("sender_principal_id", VStr (ref_principal_id (msg_sender m)));
       ("recipient_principal_id", VStr (ref_principal_id (msg_recipient m)));
       ("repo_id", opt_str (msg_repo_id m));
       ("dispatch_id", opt_str (msg_dispatch_id m));
       ("workpackage_id", opt_str (msg_workpackage_id m));
       ("status", VStr status);
       ("blocked",
         VBool (bool_decide (status ∈ ["blocked"; "failed"; "decision_required"])
                || bool_decide (msg_message_type m = "escalation")));
       ("payload_digest", VStr (payload_digest (msg_payload m)));
       ("raw_output", VStr "not_returned") ].

(** ** Accepted fields are read back unchanged *)

Lemma _id_value v f s : _id v f = Ok s → v = VStr s ∧ _IDENTIFIER_RE s = true.
Proof. unfold _id. rewrite reraise_Ok. apply validate_identifier_Ok. Qed.

Lemma _id_valid s f : _IDENTIFIER_RE s = true → _id (VStr s) f = Ok s.
Proof. intros H. unfold _id. cbn. by rewrite H. Qed.

Lemma _text_value v f n s : _text v f n = Ok s → v = VStr s ∧ text_ok n s = true.
Proof.
  destruct v as [| | | |s'| |]; cbn; try done. destruct (text_ok n s') eqn:H; naive_solver.
Qed.

Lemma _optional_id_stable v f o : _optional_id v f = Ok o → _optional_id (opt_str o) f = Ok o.
Proof.
  destruct v; cbn; [naive_solver| | | |intros (s' & H & [= <-])%bind_Ok| |]; try done.
  destruct (_id_value _ _ _ H) as [[= ->] ?]. cbn. by rewrite H.
Qed.

Lemma known_type_value v s : known_type v = Ok s → v = VStr s.
Proof. unfold known_type. intros. inv_result. destruct v; inv_result; congruence. Qed.

Lemma _mapping_value v f d : _mapping v f = Ok d → v = VDict d.
Proof. unfold _mapping. destruct v; intros; inv_result; congruence. Qed.

Lemma _mapping_stable v f d : _mapping v f = Ok d → _mapping (VDict d) f = Ok d.
Proof. intros H. by rewrite <- (_mapping_value _ _ _ H). Qed.

Lemma PrincipalReference_stable p c r :
  PrincipalReference_new p c = Ok r →
  PrincipalReference_new (VStr (ref_principal_id r)) (VStr (ref_class_id r)) = Ok r.
Proof.
  unfold PrincipalReference_new. intros (p' & Hp & (c' & Hc & [= <-])%bind_Ok)%bind_Ok.
  destruct (_id_value _ _ _ Hp) as [-> _], (_id_value _ _ _ Hc) as [-> _].
  cbn [ref_principal_id ref_class_id]. rewrite Hp, bind_ret, Hc. done.
Qed.

Lemma AuthorizationEvidence_stable g d v a :
  AuthorizationEvidence_new g d v = Ok a →
  AuthorizationEvidence_new (VStr (auth_grant_id a)) (VStr (auth_scope_digest a))
    (VInt (auth_principal_version a)) = Ok a.
Proof.
  unfold AuthorizationEvidence_new.
  intros (g' & Hg & (d' & Hd & H)%bind_Ok)%bind_Ok.
  destruct (_id_value _ _ _ Hg) as [-> _], (_text_value _ _ _ _ Hd) as [-> _].
  destruct v as [| |z| | | |]; try done.
  apply bind_Ok in H as ([] & Hv & [= <-]).
  cbn [auth_grant_id auth_scope_digest auth_principal_version].
  rewrite Hg, bind_ret, Hd, bind_ret, Hv. done.
Qed.

Lemma HiveMessage_stable sv mid cid caus type sender recipient repo disp wp pr cr ex au pl m :
  HiveMessage_new sv mid cid caus type sender recipient repo disp wp pr cr ex au pl = Ok m →
  HiveMessage_new (msg_schema_version m) (VStr (msg_message_id m))
    (VStr (msg_correlation_id m)) (opt_str (msg_causation_id m)) (VStr (msg_message_type m))
    (msg_sender m) (msg_recipient m) (opt_str (msg_repo_id m)) (opt_str (msg_dispatch_id m))
    (opt_str (msg_workpackage_id m)) (msg_dispatch_priority m) (msg_created_at_utc m)
    (msg_expires_at_utc m) (msg_authorization m) (msg_payload m) = Ok m ∧
  msg_sender m = sender ∧ msg_recipient m = recipient ∧ msg_dispatch_priority m = pr ∧
  msg_created_at_utc m = cr ∧ msg_expires_at_utc m = ex ∧ msg_authorization m = au ∧
  msg_payload m = pl.
Proof.
  unfold HiveMessage_new.
  intros ([] & Hsv & (i & Hi & (c & Hc & (ca & Hca & ([] & Hself & (ty & Hty & (re & Hre &
    (di & Hdi & (w & Hw & (crd & Hcr & (exd & Hex & ([] & Hlt & ([] & Httl & (d & Hd &
    [= <-])%bind_Ok)%bind_Ok)%bind_Ok)%bind_Ok)%bind_Ok)%bind_Ok)%bind_Ok)%bind_Ok)%bind_Ok
    )%bind_Ok)%bind_Ok)%bind_Ok)%bind_Ok)%bind_Ok.
  cbn [msg_schema_version msg_message_id msg_correlation_id msg_causation_id msg_message_type
       msg_sender msg_recipient msg_repo_id msg_dispatch_id msg_workpackage_id
       msg_dispatch_priority msg_created_at_utc msg_expires_at_utc msg_authorization msg_payload].
  split; [|by split_and!].
  destruct (_id_value _ _ _ Hi) as [-> _], (_id_value _ _ _ Hc) as [-> _].
  pose proof (known_type_value _ _ Hty) as ->.
  apply _optional_id_stable in Hca, Hre, Hdi, Hw.
  rewrite Hsv, bind_ret, Hi, bind_ret, Hc, bind_ret, Hca, bind_ret, Hself, bind_ret, Hty, bind_ret,
    Hre, bind_ret, Hdi, bind_ret, Hw, bind_ret, Hcr, bind_ret, Hex, bind_ret, Hlt, bind_ret,
    Httl, bind_ret, Hd. done.
Qed.

(** Times read from the wire are UTC values. *)
Lemma parse_time_utc v f d :
  _parse_time v f = Ok d → dt_offset d = Some 0 ∧ dt_valid d = true ∧ 0 <= dt_local d < MAX_LOCAL.
Proof.
  unfold _parse_time. destruct v as [| | | |s| |]; try done.
  destruct (_ && _); [|done]. rewrite reraise_Ok.
  destruct (fromisoformat _) as [p|]; [|done].
  intros (Ha & Hr & ->)%validate_utc_datetime_Ok. cbn. split_and!; [done| |lia..].
  unfold dt_valid. cbn. unfold US_PER_DAY, US_PER_SECOND in *. lia.
Qed.

Lemma utc_isoformat_length d :
  dt_offset d = Some 0 → (1 <= String.length (isoformat d) <= 40)%nat.
Proof.
  intros Ho. unfold isoformat, time_str, frac_str. rewrite Ho.
  destruct (civil_of_days _) as [[y mo] dd]. unfold offset_str, frac_str.
  change (Z.abs 0 mod US_PER_MINUTE =? 0) with true. cbv iota.
  repeat match goal with |- context [if ?b then _ else _] => destruct b end;
    rewrite ?length_append, ?length_digits; cbn; lia.
Qed.

Lemma parse_time_isoformat v f d :
  _parse_time v f = Ok d → _parse_time (VStr (isoformat d)) f = Ok d.
Proof.
  intros (Ho & Hv & Hr)%parse_time_utc. unfold _parse_time, py_len.
  pose proof (utc_isoformat_length d Ho).
  rewrite (proj2 (Z.leb_le 1 _)), (proj2 (Z.leb_le _ 40)) by lia. cbn [andb].
  rewrite parse_isoformat by done. apply reraise_Ok, validate_utc_datetime_Ok.
  unfold dt_aware, dt_utc. rewrite Ho. cbn. split_and!; [done|lia..|].
  destruct d as [l o]. cbn in *. subst. f_equal. lia.
Qed.

(** The wire form of a message: its public view with the payload. *)
Definition wire (m : HiveMessage) : pyval :=
  VDict (public m ++ [("payload", VDict (msg_payload m))]).

Record message_ok (m : HiveMessage) : Prop := {
  ok_fields :
    HiveMessage_new (msg_schema_version m) (VStr (msg_message_id m))
      (VStr (msg_correlation_id m)) (opt_str (msg_causation_id m)) (VStr (msg_message_type m))
      (msg_sender m) (msg_recipient m) (opt_str (msg_repo_id m)) (opt_str (msg_dispatch_id m))
      (opt_str (msg_workpackage_id m)) (msg_dispatch_priority m) (msg_created_at_utc m)
      (msg_expires_at_utc m) (msg_authorization m) (msg_payload m) = Ok m;
  ok_sender : PrincipalReference_new (VStr (ref_principal_id (msg_sender m)))
                (VStr (ref_class_id (msg_sender m))) = Ok (msg_sender m);
  ok_recipient : PrincipalReference_new (VStr (ref_principal_id (msg_recipient m)))
                   (VStr (ref_class_id (msg_recipient m))) = Ok (msg_recipient m);
  ok_authorization :
    AuthorizationEvidence_new (VStr (auth_grant_id (msg_authorization m)))
      (VStr (auth_scope_digest (msg_authorization m)))
      (VInt (auth_principal_version (msg_authorization m))) = Ok (msg_authorization m);
  ok_created : _parse_time (VStr (isoformat (msg_created_at_utc m))) "message_timestamp"
               = Ok (msg_created_at_utc m);
  ok_expires : _parse_time (VStr (isoformat (msg_expires_at_utc m))) "message_expiry"
               = Ok (msg_expires_at_utc m);
  ok_payload : _mapping (VDict (msg_payload m)) "payload" = Ok (msg_payload m);
}.

Lemma message_from_fields_ok d m : message_from_fields d = Ok m → message_ok m.
Proof.
  unfold message_from_fields. intros H.
  repeat match type of H with
  | _ ≫= _ = Ok _ => let E := fresh "E" in apply bind_Ok in H as (? & E & H)
  end.
  apply HiveMessage_stable in H as (Hm & <- & <- & <- & <- & <- & <- & <-).
  split; [done|..]; eauto using PrincipalReference_stable, AuthorizationEvidence_stable,
    parse_time_isoformat, _mapping_stable.
Qed.

Lemma exact_mapping_Ok d fields code :
  keys_exactly d fields = true → exact_mapping (VDict d) fields code = Ok d.
Proof. intros H. cbn. by rewrite H. Qed.

Lemma message_from_wire m :
  message_ok m →
  message_from_fields (public m ++ [("payload", VDict (msg_payload m))]) = Ok m.
Proof.
  intros [Hm Hs Hr Ha Hc He Hp]. unfold message_from_fields, public, reference_payload.
  repeat first
    [ rewrite bind_ret; cbv beta
    | erewrite bind_getitem by reflexivity; cbv beta
    | progress rewrite ?Hs, ?Hr, ?Ha, ?Hc, ?He, ?DispatchPriority_of_value
    | erewrite exact_mapping_Ok by reflexivity ].
  match goal with |- context [_mapping ?v _] => change v with (VDict (msg_payload m)) end.
  rewrite Hp, bind_ret. exact Hm.
Qed.

(** Accepting is stable: a message that [validate_message] builds from
    any payload is rebuilt, identical in every field, from its own wire form
    (its [public] view with the payload added), times included, since those
    are read as UTC.  So what one process accepts and forwards the next
    accepts, as the same message. *)
Theorem validate_message_roundtrip p m :
  validate_message p = Ok m → validate_message (wire m) = Ok m.
Proof.
  unfold validate_message. destruct p as [| | | | | |d]; try done.
  destruct (keys_within d allowed_fields); [|done].
  intros (allowed & _ & ([] & _ & H)%bind_Ok)%bind_Ok.
  apply reraise_Ok, message_from_fields_ok in H.
  cbv beta iota delta [wire]. change (keys_within _ allowed_fields) with true. cbv iota.
  change (raw_output_allowed _) with (Ok true). rewrite bind_ret. cbn [require].
  rewrite bind_ret. apply reraise_Ok. by apply message_from_wire.
Qed.

(** ** Errors *)

Lemma raises_reraise {A} (P : exn → bool) (h : exn → bool) (g : exn → exn) (r : result A) :
  raises_only (λ e, if h e then P (g e) else P e) r → raises_only P (reraise h g r).
Proof.
  intros H e. unfold reraise. destruct r as [a|e']; [done|]. specialize (H e' eq_refl).
  cbn in H. destruct (h e'); by intros [= <-].
Qed.

Lemma raises_id v f : raises_only message_handled (_id v f).
Proof.
  unfold _id. apply raises_reraise. unfold validate_identifier. raises_cases.
Qed.

Lemma raises_text v f n : raises_only message_handled (_text v f n).
Proof. unfold _text. raises_cases. Qed.

Lemma raises_optional_id v f : raises_only message_handled (_optional_id v f).
Proof. unfold _optional_id. raises_cases; apply raises_id. Qed.

Lemma raises_msg_in_set v l : raises_only message_handled (py_in_set v l).
Proof. unfold py_in_set. raises_cases. Qed.

Lemma raises_mapping v f : raises_only message_handled (_mapping v f).
Proof.
  unfold _mapping, raw_output_allowed. raises_cases; try apply raises_msg_in_set.
Qed.

Lemma raises_msg_getitem k d : raises_only message_handled (getitem k d).
Proof. unfold getitem. raises_cases. Qed.

Lemma raises_utc d f : raises_only message_handled (validate_utc_datetime d f).
Proof.
  unfold validate_utc_datetime. raises_cases. apply raises_reraise.
  unfold dt_astimezone_utc. raises_cases.
Qed.

Lemma raises_time v f : raises_only message_handled (_parse_time v f).
Proof.
  unfold _parse_time. raises_cases. apply raises_reraise. raises_cases.
  intros e He. destruct (parse_handled e) eqn:H; [done|]. by apply (raises_utc _ _ _ He).
Qed.

Lemma raises_exact v fs c : raises_only message_handled (exact_mapping v fs c).
Proof. unfold exact_mapping. raises_cases. Qed.

Lemma raises_msg_priority v : raises_only message_handled (DispatchPriority_of v).
Proof. unfold DispatchPriority_of, enum_of. raises_cases. Qed.

#[export] Hint Resolve raises_id raises_text raises_optional_id raises_msg_in_set raises_mapping
  raises_msg_getitem raises_utc raises_time raises_exact raises_msg_priority : raises.

Lemma raises_message_new sv mid cid caus type sender recipient repo disp wp pr cr ex au pl :
  raises_only message_handled
    (HiveMessage_new sv mid cid caus type sender recipient repo disp wp pr cr ex au pl).
Proof. unfold HiveMessage_new, known_type. raises_cases. Qed.

Lemma raises_message_from_fields d : raises_only message_handled (message_from_fields d).
Proof.
  unfold message_from_fields, PrincipalReference_new, AuthorizationEvidence_new. raises_cases.
  apply raises_message_new.
Qed.

(** Every payload [validate_message] does not accept is refused with a
    [HiveMessageError], with one exception: a mapping whose fields are all
    known and whose [raw_output] is a list or a mapping escapes as the
    [TypeError] of the membership test, which the code makes outside its
    [try]. *)
Theorem validate_message_errors p e :
  validate_message p = Err e →
  (∃ code, e = HiveMessageError code) ∨
  (∃ d v, p = VDict d ∧ keys_within d allowed_fields = true ∧
     dict_get "raw_output" d = Some v ∧ py_hashable v = false ∧
     e = TypeError "unhashable type").
Proof.
  unfold validate_message. destruct p as [| | | | | |d]; try naive_solver.
  destruct (keys_within d allowed_fields) eqn:Hk; [|naive_solver].
  intros [Hraw|(allowed & _ & [Hreq|([] & _ & H)]%bind_Err)]%bind_Err.
  - right. exists d. unfold raw_output_allowed in Hraw.
    destruct (dict_get "raw_output" d) as [v|]; [|done]. exists v.
    unfold py_in_set in Hraw. destruct v; naive_solver.
  - apply require_Err in Hreq as [_ ->]. left. by eexists.
  - left. unfold reraise in H. destruct (message_from_fields d) as [m|e'] eqn:Hf; [done|].
    rewrite (raises_message_from_fields d e' Hf) in H. injection H as <-.
    unfold message_error. destruct e'; by eexists.
Qed.

(** ** A concrete message *)

Definition sample_reference (n : string) : PrincipalReference :=
  {| ref_principal_id := n; ref_class_id := "queen" |}.

(** Created at noon and expiring an hour later, at an offset of two hours. *)
Definition sample_fields : mapping :=
  [ ("schema_version", VInt 1); ("message_id", VStr "msg-1"); ("correlation_id", VStr "cor-1");
    ("message_type", VStr "progress.report");
    ("sender", reference_payload (sample_reference "bee-1"));
    ("recipient", reference_payload (sample_reference "queen-1"));
    ("workpackage_id", VStr "wp-1"); ("dispatch_priority", VStr "DP1");
    ("created_at_utc", VStr "2025-01-01T12:00:00+02:00");
    ("expires_at_utc", VStr "2025-01-01T13:00:00+02:00");
    ("authorization",
      VDict [ ("grant_id", VStr "grant-1"); ("scope_digest", VStr "sha256:00");
              ("principal_version", VInt 3) ]);
    ("payload", VDict [("status", VStr "executing")]) ].

Definition sample_message : HiveMessage :=
  {| msg_schema_version := VInt 1; msg_message_id := "msg-1"; msg_correlation_id := "cor-1";
     msg_causation_id := None; msg_message_type := "progress.report";
     msg_sender := sample_reference "bee-1"; msg_recipient := sample_reference "queen-1";
     msg_repo_id := None; msg_dispatch_id := None; msg_workpackage_id := Some "wp-1";
     msg_dispatch_priority := DP1;
     msg_created_at_utc := Datetime 63871322400000000 (Some 0);
     msg_expires_at_utc := Datetime 63871326000000000 (Some 0);
     msg_authorization :=
       {| auth_grant_id := "grant-1"; auth_scope_digest := "sha256:00";
          auth_principal_version := 3 |};
     msg_payload := [("status", VStr "executing")] |}.

Lemma validate_message_roundtrip_witness :
  validate_message (VDict sample_fields) = Ok sample_message ∧
  validate_message (wire sample_message) = Ok sample_message.
Proof.
  assert (validate_message (VDict sample_fields) = Ok sample_message) as H
    by (vm_compute; reflexivity).
  split; [exact H|exact (validate_message_roundtrip _ _ H)].
Defined.

Lemma validate_message_errors_witness :
  validate_message (VDict [("raw_output", VList [])]) = Err (TypeError "unhashable type") ∧
  ((∃ code, TypeError "unhashable type" = HiveMessageError code) ∨
   (∃ d v, VDict [("raw_output", VList [])] = VDict d ∧ keys_within d allowed_fields = true ∧
      dict_get "raw_output" d = Some v ∧ py_hashable v = false ∧
      TypeError "unhashable type" = TypeError "unhashable type")).
Proof.
  assert (validate_message (VDict [("raw_output", VList [])])
          = Err (TypeError "unhashable type")) as H by reflexivity.
  split; [exact H|exact (validate_message_errors _ _ H)].
Defined.
