(* ===== verification/Principals.v ===== *)
(** * Principals and execution bindings

    [src/src/the_hive/hive/principals.py] and [hive/capabilities.py]: the
    hierarchy of principals from the root executives down to the workers, the
    renewable bindings of principals to agents, and the registry that keeps
    both, in memory or in a private state file. *)

From S2P Require Import Prelude PyTime Order DynamicPool Sha256 Json JsonText Admission AdmissionFile HiveState HiveTypes HiveMessages.
#[local] Open Scope Z_scope.

Definition ROOT_EXECUTIVE_CLASSES : list string := ["gottbiene"; "godbee"; "goettin"; "goddess"].
Definition QUEEN_CLASSES : list string := ["koenigin"; "queen"].
Definition GODDESS_REPORT_AUTO_CAPABILITY : string := "goddess.report.auto".
Definition _STATES : list string := ["active"; "retired"].
Definition _BINDING_STATES : list string := ["active"; "released"].
Definition _MAX_LIST_LIMIT : Z := 256.

(** The parent classes (none for a root), the scope and whether a repository
    is required. *)
Definition _ROLE_RULES : list (string * (option (list string) * string * bool)) :=
  let root := (None, "global", false) in
  let leads := ["teamleiterin"; "teamlead"] in
  let below parents := (Some parents, "repository", true) in
  [ ("gottbiene", root); ("godbee", root); ("goettin", root); ("goddess", root);
    ("koenigin", below ROOT_EXECUTIVE_CLASSES); ("queen", below ROOT_EXECUTIVE_CLASSES);
    ("teamleiterin", below QUEEN_CLASSES); ("teamlead", below QUEEN_CLASSES);
    ("spezialistin", below leads); ("specialist", below leads);
    ("arbeitsbiene", below ["spezialistin"; "specialist"]);
    ("worker", below ["spezialistin"; "specialist"]) ].

(** ** Field checks *)

(** [validate_identifier], with its error as the registry's. *)
Definition principal_identifier (value : pyval) (field : string) : result string :=
  reraise is_validation_error (λ e, PrincipalError (exn_str e)) (validate_identifier value field).

Definition optional_identifier (value : pyval) (field : string) : result (option string) :=
  match value with
  | VNone => Ok None
  | v => s ← principal_identifier v field; Ok (Some s)
  end.

Definition bounded_text (value : pyval) (code : string) (maximum : Z) : result string :=
  match value with
  | VStr s => if text_ok maximum s then Ok s else Err (PrincipalError code)
  | _ => Err (PrincipalError code)
  end.

Definition member_of (value : pyval) (members : list string) (code : string) : result string :=
  known ← py_in_set value members;
  match value with
  | VStr s => _ ← require known (PrincipalError code); Ok s
  | _ => Err (PrincipalError code)
  end.

(** [except (HiveValidationError, TypeError, ValueError)]. *)
Definition timestamp_handled (e : exn) : bool := is_type_error e || is_value_error e.

(** [validate_utc_datetime(datetime.fromisoformat(value.replace("Z", "+00:00")))];
    a value without [replace] raises [AttributeError]. *)
Definition read_utc (value : pyval) : result datetime :=
  match value with
  | VStr s =>
      match fromisoformat (replace_Z s) with
      | Some d => validate_utc_datetime d "timestamp"
      | None => Err (ValueError "Invalid isoformat string")
      end
  | _ => Err (AttributeError "replace")
  end.

Definition stored_timestamp (value : pyval) (code : string) : result string :=
  _ ← reraise timestamp_handled (λ _, PrincipalError code) (read_utc value);
  match value with VStr s => Ok s | _ => Err (PrincipalError code) end.

(** ** Principals *)

Record Principal := {
  pr_id : string;
  pr_class : string;
  pr_parent : option string;
  pr_authority_profile : string;
  pr_scope_kind : string;
  pr_repo_id : option string;
  pr_state : string;
  pr_config_digest : string;
  pr_version : Z;
  pr_created_at : option string;
}.

Definition Principal_new (id cls parent profile scope_kind repo state digest version created : pyval)
  : result Principal :=
  id ← principal_identifier id "principal";
  cls ← principal_identifier cls "class";
  parent ← optional_identifier parent "parent_principal";
  repo ← optional_identifier repo "repo";
  profile ← bounded_text profile "invalid_authority_profile" 128;
  scope_kind ← member_of scope_kind ["global"; "repository"; "read"; "write"] "invalid_scope_kind";
  state ← member_of state _STATES "invalid_principal_state";
  digest ← match digest with
           | VStr s => if is_sha256_digest s then Ok s
                       else Err (PrincipalError "invalid_principal_config_digest")
           | _ => Err (PrincipalError "invalid_principal_config_digest")
           end;
  version ← match version with
            | VInt z => if (1 <=? z) && (z <=? 10 ^ 12) then Ok z
                        else Err (PrincipalError "invalid_principal_version")
            | _ => Err (PrincipalError "invalid_principal_version")
            end;
  created ← match created with
            | VNone => Ok None
            | v => s ← stored_timestamp v "invalid_principal_timestamp"; Ok (Some s)
            end;
  Ok {| pr_id := id; pr_class := cls; pr_parent := parent; pr_authority_profile := profile;
        pr_scope_kind := scope_kind; pr_repo_id := repo; pr_state := state;
        pr_config_digest := digest; pr_version := version; pr_created_at := created |}.

Definition principal_public (p : Principal) : mapping :=
  [ ("principal_id", VStr (pr_id p)); ("class_id", VStr (pr_class p));
    ("parent_principal_id", opt_str (pr_parent p));
    ("authority_profile", VStr (pr_authority_profile p));
    ("scope_kind", VStr (pr_scope_kind p)); ("repo_id", opt_str (pr_repo_id p));
    ("state", VStr (pr_state p)); ("version", VInt (pr_version p));
    ("created_at_utc", opt_str (pr_created_at p)) ].

(** [replace(principal, state=..., version=...)]: the constructor again. *)
Definition principal_replace (p : Principal) (state : string) (version : Z) : result Principal :=
  Principal_new (VStr (pr_id p)) (VStr (pr_class p)) (opt_str (pr_parent p))
    (VStr (pr_authority_profile p)) (VStr (pr_scope_kind p)) (opt_str (pr_repo_id p))
    (VStr state) (VStr (pr_config_digest p)) (VInt version) (opt_str (pr_created_at p)).

(** ** Execution bindings *)

Record ExecutionBinding := {
  eb_id : string;
  eb_principal_id : string;
  eb_repo_id : option string;
  eb_dispatch_id : option string;
  eb_agent_id : string;
  eb_account_key : string;
  eb_model_id : string;
  eb_lease_id : string;
  eb_admission_id : string;
  eb_state : string;
  eb_expires_at : string;
  eb_pool : option AccountPoolBindingV1;
}.

Definition ExecutionBinding_new
  (id principal repo dispatch agent account model lease admission state expires : pyval)
  (pool : option AccountPoolBindingV1) : result ExecutionBinding :=
  id ← principal_identifier id "binding";
  principal ← principal_identifier principal "principal";
  agent ← principal_identifier agent "agent";
  model ← principal_identifier model "model";
  lease ← principal_identifier lease "lease";
  admission ← principal_identifier admission "admission";
  account ← bounded_text account "invalid_account_key" 128;
  repo ← optional_identifier repo "repo";
  dispatch ← optional_identifier dispatch "dispatch";
  state ← member_of state _BINDING_STATES "invalid_binding_state";
  expires ← stored_timestamp expires "invalid_binding_timestamp";
  Ok {| eb_id := id; eb_principal_id := principal; eb_repo_id := repo;
        eb_dispatch_id := dispatch; eb_agent_id := agent; eb_account_key := account;
        eb_model_id := model; eb_lease_id := lease; eb_admission_id := admission;
        eb_state := state; eb_expires_at := expires; eb_pool := pool |}.

Definition binding_public (b : ExecutionBinding) : mapping :=
  [ ("binding_id", VStr (eb_id b)); ("principal_id", VStr (eb_principal_id b));
    ("repo_id", opt_str (eb_repo_id b)); ("dispatch_id", opt_str (eb_dispatch_id b));
    ("agent_id", VStr (eb_agent_id b)); ("model_id", VStr (eb_model_id b));
    ("admission_id", VStr (eb_admission_id b)); ("state", VStr (eb_state b));
    ("expires_at_utc", VStr (eb_expires_at b)) ].

Definition binding_replace (b : ExecutionBinding) (state : string) : result ExecutionBinding :=
  ExecutionBinding_new (VStr (eb_id b)) (VStr (eb_principal_id b)) (opt_str (eb_repo_id b))
    (opt_str (eb_dispatch_id b)) (VStr (eb_agent_id b)) (VStr (eb_account_key b))
    (VStr (eb_model_id b)) (VStr (eb_lease_id b)) (VStr (eb_admission_id b)) (VStr state)
    (VStr (eb_expires_at b)) (eb_pool b).

Definition execution_binding_from_admission (binding_id : pyval) (a : AdmissionRecord)
  : result ExecutionBinding :=
  match account_pool_binding (resource a) with
  | None => Err (PrincipalError "dynamic_pool_binding_missing")
  | Some pool =>
      match lease_id (lease_context a) with
      | None => Err (PrincipalError "execution_binding_lease_missing")
      | Some lease =>
          ExecutionBinding_new binding_id (VStr (principal_id a)) (VStr (repo_id a))
            (VStr (dispatch_id a)) (VStr (agent_id (resource a))) (VStr (account_key (resource a)))
            (VStr (model_id (resource a))) (VStr lease) (VStr (admission_id a)) (VStr "active")
            (VStr (isoformat (expires_at_utc a))) (Some pool)
      end
  end.

#[export] Instance Principal_eq_dec : EqDecision Principal.
Proof. solve_decision. Defined.

(** ** The registry

    The dictionaries of the object, next to the files its store works on. *)

Record registry := {
  _principals : list (string * Principal);
  _bindings : list (string * ExecutionBinding);
}.

Definition empty_registry : registry := {| _principals := []; _bindings := [] |}.

Record pworld := { pw_files : files; pw_registry : registry }.
Abbreviation RegistryM := (ST pworld).

Definition set_registry (r : registry) : RegistryM () := λ w,
  ({| pw_files := pw_files w; pw_registry := r |}, Ok ()).

Definition own_registry : RegistryM registry := λ w, (w, Ok (pw_registry w)).

Definition set_principal (p : Principal) : RegistryM () :=
  r ← own_registry;
  set_registry {| _principals := dict_set (pr_id p) p (_principals r); _bindings := _bindings r |}.

Definition set_binding (b : ExecutionBinding) : RegistryM () :=
  r ← own_registry;
  set_registry {| _principals := _principals r; _bindings := dict_set (eb_id b) b (_bindings r) |}.

(** ** Stored payloads *)

Definition _principal_payload (p : Principal) : mapping :=
  [ ("principal_id", VStr (pr_id p)); ("class_id", VStr (pr_class p));
    ("parent_principal_id", opt_str (pr_parent p));
    ("authority_profile", VStr (pr_authority_profile p));
    ("scope_kind", VStr (pr_scope_kind p)); ("repo_id", opt_str (pr_repo_id p));
    ("state", VStr (pr_state p)); ("config_digest", VStr (pr_config_digest p));
    ("version", VInt (pr_version p)); ("created_at_utc", opt_str (pr_created_at p)) ].

Definition _binding_payload (b : ExecutionBinding) : mapping :=
  [ ("binding_id", VStr (eb_id b)); ("principal_id", VStr (eb_principal_id b));
    ("repo_id", opt_str (eb_repo_id b)); ("dispatch_id", opt_str (eb_dispatch_id b));
    ("agent_id", VStr (eb_agent_id b)); ("account_key", VStr (eb_account_key b));
    ("model_id", VStr (eb_model_id b)); ("lease_id", VStr (eb_lease_id b));
    ("admission_id", VStr (eb_admission_id b)); ("state", VStr (eb_state b));
    ("expires_at_utc", VStr (eb_expires_at b));
    ("account_pool_binding", match eb_pool b with
                             | Some pool => VDict (account_pool_binding_payload pool)
                             | None => VNone
                             end) ].

(** [raw.get(k)]. *)
Definition field_or_none (raw : mapping) (k : string) : pyval := default VNone (dict_get k raw).

(** [except (..., KeyError, PrincipalError, TypeError)]. *)
Definition payload_handled (e : exn) : bool :=
  match e with KeyError _ | PrincipalError _ | TypeError _ => true | _ => false end.
Definition binding_payload_handled (e : exn) : bool :=
  payload_handled e || match e with DynamicPoolBindingError _ => true | _ => false end.

Definition _principal_from_payload (raw : pyval) : result Principal :=
  match raw with
  | VDict raw =>
      reraise payload_handled (λ _, PrincipalError "principal_state_invalid")
        (id ← getitem "principal_id" raw;
         cls ← getitem "class_id" raw;
         profile ← getitem "authority_profile" raw;
         scope_kind ← getitem "scope_kind" raw;
         state ← getitem "state" raw;
         digest ← getitem "config_digest" raw;
         version ← getitem "version" raw;
         Principal_new id cls (field_or_none raw "parent_principal_id") profile scope_kind
           (field_or_none raw "repo_id") state digest version (field_or_none raw "created_at_utc"))
  | _ => Err (PrincipalError "principal_state_invalid")
  end.

Definition _binding_from_payload (raw : pyval) : result ExecutionBinding :=
  match raw with
  | VDict raw =>
      reraise binding_payload_handled (λ _, PrincipalError "principal_state_invalid")
        (id ← getitem "binding_id" raw;
         principal ← getitem "principal_id" raw;
         agent ← getitem "agent_id" raw;
         account ← getitem "account_key" raw;
         model ← getitem "model_id" raw;
         lease ← getitem "lease_id" raw;
         admission ← getitem "admission_id" raw;
         state ← getitem "state" raw;
         expires ← getitem "expires_at_utc" raw;
         pool ← match field_or_none raw "account_pool_binding" with
                | VNone => Ok None
                | v => pool ← account_pool_binding_from_payload v; Ok (Some pool)
                end;
         ExecutionBinding_new id principal (field_or_none raw "repo_id")
           (field_or_none raw "dispatch_id") agent account model lease admission state expires pool)
  | _ => Err (PrincipalError "principal_state_invalid")
  end.

(** ** The hierarchy *)

Definition parent_rule (principals : list (string * Principal)) (p : Principal)
  (parents : list string) : result () :=
  match pr_parent p with
  | None => Err (PrincipalError "principal_parent_required")
  | Some parent_id =>
      match dict_get parent_id principals with
      | None => Err (PrincipalError "principal_parent_not_found")
      | Some parent =>
          _ ← require (bool_decide (pr_state parent = "active")
                       && bool_decide (pr_class parent ∈ parents))
                (PrincipalError "invalid_principal_parent");
          require (bool_decide (pr_repo_id p = pr_repo_id parent)
                   || bool_decide (pr_repo_id parent = None))
            (PrincipalError "principal_repository_mismatch")
      end
  end.

Definition _validate_parent (principals : list (string * Principal)) (p : Principal) : result () :=
  match dict_get (pr_class p) _ROLE_RULES with
  | None => Err (PrincipalError "unknown_principal_class")
  | Some (parents, expected_scope, repo_required) =>
      _ ← require (bool_decide (expected_scope = pr_scope_kind p))
            (PrincipalError "principal_scope_mismatch");
      _ ← require (Bool.eqb repo_required (bool_decide (is_Some (pr_repo_id p))))
            (PrincipalError "principal_repository_scope_mismatch");
      match parents with
      | None => require (bool_decide (pr_parent p = None))
                  (PrincipalError "root_principal_has_parent")
      | Some parents => parent_rule principals p parents
      end
  end.

(** ** Transactions *)

Section registry.
Context (self : option HiveStateStore) (os : answers).

Definition _PRINCIPALS_PATH : option (list string) := Some ["principals.json"].

Definition registry_files {A} (m : FilesM A) : RegistryM A := λ w,
  let '(fs, r) := m (pw_files w) in ({| pw_files := fs; pw_registry := pw_registry w |}, r).

(** The stored principals, each new, one by one. *)
Fixpoint load_principals (raws : list pyval) : RegistryM () :=
  match raws with
  | [] => mret ()
  | raw :: raws =>
      p ← st_lift (_principal_from_payload raw);
      r ← own_registry;
      _ ← st_lift (require (negb (dict_mem (pr_id p) (_principals r)))
                     (PrincipalError "duplicate_principal"));
      _ ← set_principal p;
      load_principals raws
  end.

Fixpoint load_bindings (raws : list pyval) : RegistryM () :=
  match raws with
  | [] => mret ()
  | raw :: raws =>
      b ← st_lift (_binding_from_payload raw);
      r ← own_registry;
      _ ← st_lift (require (negb (dict_mem (eb_id b) (_bindings r)))
                     (PrincipalError "duplicate_execution_binding"));
      _ ← set_binding b;
      load_bindings raws
  end.

(** Every stored principal is checked against the stored hierarchy. *)
Fixpoint validate_parents (principals : list (string * Principal)) (todo : list Principal)
  : result () :=
  match todo with
  | [] => Ok ()
  | p :: todo => _ ← _validate_parent principals p; validate_parents principals todo
  end.

Definition load_payload (payload : mapping) : RegistryM () :=
  match py_eq_int (field_or_none payload "schema_version") 1,
        field_or_none payload "principals", field_or_none payload "bindings" with
  | true, VList principals, VList bindings =>
      _ ← load_principals principals;
      r ← own_registry;
      _ ← st_lift (validate_parents (_principals r) (dict_values (_principals r)));
      load_bindings bindings
  | _, _, _ => st_lift (Err (PrincipalError "principal_state_invalid"))
  end.

(** The stored document, [None] when there is no file. *)
Definition read_registry (st : HiveStateStore) : RegistryM (option mapping) :=
  st_catch
    (payload ← registry_files (read_json_locked st os _PRINCIPALS_PATH (4 * 1024 * 1024));
     mret (Some payload))
    (λ e, match e with
          | HiveStateError m =>
              if bool_decide (m = "state_not_found") then mret None
              else st_lift (Err (PrincipalError "principal_state_invalid"))
          | e => st_lift (Err e)
          end).

Definition _load_locked (st : HiveStateStore) : RegistryM () :=
  _ ← set_registry empty_registry;
  payload ← read_registry st;
  match payload with
  | None => mret ()
  | Some payload => load_payload payload
  end.

Definition registry_payload (r : registry) : pyval :=
  VDict [ ("schema_version", VInt 1);
          ("principals", VList (VDict ∘ _principal_payload <$> dict_values (_principals r)));
          ("bindings", VList (VDict ∘ _binding_payload <$> dict_values (_bindings r))) ].

Definition _persist : RegistryM () :=
  match self with
  | None => mret ()
  | Some st =>
      r ← own_registry;
      registry_files (replace_json_locked st os _PRINCIPALS_PATH (registry_payload r) None)
  end.

(** [with self._transaction(): body]. *)
Definition _transaction {A} (body : RegistryM A) : RegistryM A :=
  match self with
  | None => body
  | Some st => _ ← st_lift (lock_answer os); _ ← _load_locked st; body
  end.

(** [PrincipalRegistry(state)]: the constructor loads once. *)
Definition PrincipalRegistry_new : RegistryM () := _transaction (mret ()).
End registry.

(** ** Methods *)

Section methods.
Context (self : option HiveStateStore) (os : answers).
Abbreviation transaction := (_transaction self os).
Abbreviation persist := (_persist self os).

(** [validate_identifier] and the lookup, both as [principal_not_found]. *)
Definition find_principal (principal_id : pyval) : RegistryM Principal :=
  r ← own_registry;
  st_lift (match validate_identifier principal_id "principal" with
           | Ok id => match dict_get id (_principals r) with
                      | Some p => Ok p
                      | None => Err (PrincipalError "principal_not_found")
                      end
           | Err _ => Err (PrincipalError "principal_not_found")
           end).

Definition get (principal_id : pyval) : RegistryM Principal :=
  transaction (find_principal principal_id).

(** [sorted(values, key=id)[offset : offset + limit]]. *)
Definition list_principals (offset limit : Z) : RegistryM (list Principal) :=
  _ ← st_lift (require (0 <=? offset) (PrincipalError "invalid_principal_offset"));
  _ ← st_lift (require ((1 <=? limit) && (limit <=? _MAX_LIST_LIMIT))
                 (PrincipalError "invalid_principal_limit"));
  transaction
    (r ← own_registry;
     mret (take (Z.to_nat limit)
             (drop (Z.to_nat offset) (sort_by str_cmp pr_id (dict_values (_principals r)))))).

Definition create_body (p : Principal) : RegistryM Principal :=
  r ← own_registry;
  _ ← st_lift (require (negb (dict_mem (pr_id p) (_principals r)))
                 (PrincipalError "duplicate_principal"));
  _ ← st_lift (_validate_parent (_principals r) p);
  _ ← set_principal p;
  _ ← persist;
  mret p.

Definition create (p : Principal) : RegistryM Principal :=
  transaction (create_body p).

Definition retire_body (principal_id : pyval) (expected_version : Z) : RegistryM Principal :=
  current ← find_principal principal_id;
  _ ← st_lift (require (pr_version current =? expected_version)
                 (PrincipalError "stale_principal_version"));
  if bool_decide (pr_state current = "retired") then mret current
  else
    retired ← st_lift (principal_replace current "retired" (pr_version current + 1));
    _ ← set_principal retired;
    _ ← persist;
    mret retired.

Definition retire (principal_id : pyval) (expected_version : Z) : RegistryM Principal :=
  transaction (retire_body principal_id expected_version).

(** An active binding of the same principal to the same dispatch. *)
Definition same_execution (b current : ExecutionBinding) : bool :=
  bool_decide (eb_state current = "active")
  && bool_decide (eb_principal_id current = eb_principal_id b)
  && bool_decide (eb_dispatch_id current = eb_dispatch_id b).

Definition bind_execution_body (b : ExecutionBinding) : RegistryM ExecutionBinding :=
  r ← own_registry;
  p ← st_lift (match dict_get (eb_principal_id b) (_principals r) with
               | Some p => Ok p
               | None => Err (PrincipalError "principal_not_found")
               end);
  _ ← st_lift (require (bool_decide (pr_state p = "active"))
                 (PrincipalError "principal_inactive"));
  _ ← st_lift (require (negb (existsb (same_execution b) (dict_values (_bindings r))))
                 (PrincipalError "duplicate_active_execution_binding"));
  _ ← st_lift (require (bool_decide (pr_repo_id p = eb_repo_id b))
                 (PrincipalError "binding_repository_mismatch"));
  _ ← set_binding b;
  _ ← persist;
  mret b.

Definition bind_execution (b : ExecutionBinding) : RegistryM ExecutionBinding :=
  transaction (bind_execution_body b).

Definition find_binding (binding_id : string) : RegistryM ExecutionBinding :=
  r ← own_registry;
  st_lift (match dict_get binding_id (_bindings r) with
           | Some b => Ok b
           | None => Err (PrincipalError "execution_binding_not_found")
           end).

Definition release_execution_body (binding_id : string) : RegistryM ExecutionBinding :=
  current ← find_binding binding_id;
  if bool_decide (eb_state current = "released") then mret current
  else
    released ← st_lift (binding_replace current "released");
    _ ← set_binding released;
    _ ← persist;
    mret released.

Definition release_execution (binding_id : string) : RegistryM ExecutionBinding :=
  transaction (release_execution_body binding_id).

Definition public_bindings : RegistryM (list mapping) :=
  transaction (r ← own_registry; mret (binding_public <$> dict_values (_bindings r))).

(** The binding is live at [now]: an expiry that cannot be read is skipped. *)
Definition live_binding (principal_id : string) (now : datetime) (b : ExecutionBinding) : bool :=
  bool_decide (eb_state b = "active") && bool_decide (eb_principal_id b = principal_id)
  && match read_utc (VStr (eb_expires_at b)) with
     | Ok expires => dt_ltb now expires
     | Err _ => false
     end.

Definition has_active_execution_binding (principal_id : pyval) (now : datetime) : RegistryM bool :=
  now ← st_lift (reraise (λ _, true) (λ _, PrincipalError "invalid_binding_timestamp")
                   (validate_utc_datetime now "timestamp"));
  transaction
    (p ← find_principal principal_id;
     r ← own_registry;
     mret (bool_decide (pr_state p = "active")
           && existsb (live_binding (pr_id p) now) (dict_values (_bindings r)))).

(** [except HiveValidationError]: of the lookup's arguments. *)
Definition lookup_arguments (binding_id principal_id : pyval) (repo_id : pyval) (now : datetime)
  : result (string * datetime) :=
  reraise is_validation_error (λ _, PrincipalError "invalid_execution_binding_lookup")
    (id ← validate_identifier binding_id "binding";
     _ ← validate_identifier principal_id "principal";
     _ ← match repo_id with VNone => Ok "" | v => validate_identifier v "repo" end;
     now ← validate_utc_datetime now "timestamp";
     Ok (id, now)).

(** [binding.repo_id == repo_id]. *)
Definition same_repo (repo_id : pyval) (bound : option string) : bool :=
  match bound with Some s => py_eq_str repo_id s | None => is_VNone repo_id end.

(** [except (HiveValidationError, ValueError)]. *)
Definition get_active_execution_binding (binding_id principal_id repo_id : pyval) (now : datetime)
  : RegistryM ExecutionBinding :=
  '(id, now) ← st_lift (lookup_arguments binding_id principal_id repo_id now);
  transaction
    (b ← find_binding id;
     _ ← st_lift (require (bool_decide (eb_state b = "active"))
                    (PrincipalError "execution_binding_inactive"));
     _ ← st_lift (require (py_eq_str principal_id (eb_principal_id b)
                           && same_repo repo_id (eb_repo_id b))
                    (PrincipalError "execution_binding_mismatch"));
     r ← own_registry;
     p ← st_lift (match dict_get (eb_principal_id b) (_principals r) with
                  | Some p => Ok p
                  | None => Err (PrincipalError "execution_binding_invalid")
                  end);
     _ ← st_lift (require (bool_decide (pr_state p = "active"))
                    (PrincipalError "execution_binding_inactive"));
     expires ← st_lift (reraise is_value_error (λ _, PrincipalError "execution_binding_invalid")
                          (read_utc (VStr (eb_expires_at b))));
     _ ← st_lift (require (dt_ltb now expires) (PrincipalError "execution_binding_expired"));
     mret b).
End methods.

(** ** Automatic reports

    [requires_goddess_auto_report] of [hive/capabilities.py]; [capabilities] is
    the principal's profile. *)
Definition requires_goddess_auto_report (self : option HiveStateStore) (os : answers)
  (p : Principal) (capabilities : list string) (now : datetime) : RegistryM bool :=
  now ← st_lift (reraise (λ _, true) (λ _, CapabilityError "invalid_capability_time")
                   (validate_utc_datetime now "timestamp"));
  if negb (bool_decide (pr_state p = "active")
           && bool_decide (pr_class p ∈ ROOT_EXECUTIVE_CLASSES)
           && bool_decide (GODDESS_REPORT_AUTO_CAPABILITY ∈ capabilities))
  then mret false
  else
    current ← st_catch (p ← get self os (VStr (pr_id p)); mret (Some p)) (λ _, mret None);
    if bool_decide (current = Some p) then
      st_catch (has_active_execution_binding self os (VStr (pr_id p)) now)
        (λ _, st_lift (Err (CapabilityError "binding_check_unavailable")))
    else mret false.

(** ** What the constructors establish *)

Lemma principal_identifier_Ok v f s :
  principal_identifier v f = Ok s ↔ v = VStr s ∧ _IDENTIFIER_RE s = true.
Proof. unfold principal_identifier. by rewrite reraise_Ok, validate_identifier_Ok. Qed.

Lemma optional_identifier_Ok v f o :
  optional_identifier v f = Ok o → v = opt_str o ∧ optional_identifier (opt_str o) f = Ok o.
Proof.
  destruct v as [| | | |s'| |]; try done; [by intros [= <-]|].
  unfold optional_identifier.
  intros (s & [[= ->] Hs]%principal_identifier_Ok & [= <-])%bind_Ok. split; [done|].
  cbn [opt_str]. by rewrite (proj2 (principal_identifier_Ok _ _ _) (conj eq_refl Hs)).
Qed.

Lemma bounded_text_Ok v code m s : bounded_text v code m = Ok s → v = VStr s.
Proof. destruct v; cbn; try done. case_match; [|done]. by intros [= ->]. Qed.

Lemma member_of_Ok v l code s : member_of v l code = Ok s → v = VStr s.
Proof.
  unfold member_of. intros (k & _ & H)%bind_Ok. destruct v; try done.
  by apply bind_Ok in H as (? & _ & [= ->]).
Qed.

Lemma stored_timestamp_Ok v code s : stored_timestamp v code = Ok s → v = VStr s.
Proof. unfold stored_timestamp. intros (? & _ & H)%bind_Ok. destruct v; try done. by injection H as ->. Qed.

Lemma Principal_new_Ok id cls parent profile scope_kind repo state digest version created p :
  Principal_new id cls parent profile scope_kind repo state digest version created = Ok p →
  id = VStr (pr_id p) ∧ cls = VStr (pr_class p) ∧ parent = opt_str (pr_parent p)
  ∧ profile = VStr (pr_authority_profile p) ∧ scope_kind = VStr (pr_scope_kind p)
  ∧ repo = opt_str (pr_repo_id p) ∧ state = VStr (pr_state p)
  ∧ digest = VStr (pr_config_digest p) ∧ version = VInt (pr_version p)
  ∧ created = opt_str (pr_created_at p).
Proof.
  unfold Principal_new. intros H.
  apply bind_Ok in H as (a1 & [-> _]%principal_identifier_Ok & H).
  apply bind_Ok in H as (a2 & [-> _]%principal_identifier_Ok & H).
  apply bind_Ok in H as (a3 & [-> _]%optional_identifier_Ok & H).
  apply bind_Ok in H as (a4 & [-> _]%optional_identifier_Ok & H).
  apply bind_Ok in H as (a5 & ->%bounded_text_Ok & H).
  apply bind_Ok in H as (a6 & ->%member_of_Ok & H).
  apply bind_Ok in H as (a7 & ->%member_of_Ok & H).
  apply bind_Ok in H as (a8 & Hd & H). apply bind_Ok in H as (a9 & Hv & H).
  apply bind_Ok in H as (a10 & Hc & [= <-]). cbn.
  destruct digest; try done. destruct (is_sha256_digest _); [|done]. injection Hd as ->.
  destruct version; try done. destruct (_ && _); [|done]. injection Hv as ->.
  split_and!; try done.
  destruct created; [by injection Hc as <-|..];
    apply bind_Ok in Hc as (? & Hs%stored_timestamp_Ok & [= <-]); exact Hs.
Qed.

Lemma Principal_new_version id cls parent profile scope_kind repo state digest version created p :
  Principal_new id cls parent profile scope_kind repo state digest version created = Ok p →
  1 <= pr_version p <= 10 ^ 12.
Proof.
  unfold Principal_new. intros H. do 8 (apply bind_Ok in H as (? & _ & H)).
  apply bind_Ok in H as (v & Hv & H). apply bind_Ok in H as (? & _ & [= <-]).
  cbn [pr_version]. destruct version; try done.
  destruct ((1 <=? z) && (z <=? 10 ^ 12)) eqn:Hz; [|done]. injection Hv as <-. lia.
Qed.

(** A principal that exists passed its constructor. *)
Definition principal_wf (p : Principal) : Prop := principal_replace p (pr_state p) (pr_version p) = Ok p.

Lemma Principal_new_wf id cls parent profile scope_kind repo state digest version created p :
  Principal_new id cls parent profile scope_kind repo state digest version created = Ok p →
  principal_wf p.
Proof.
  intros H. pose proof (Principal_new_Ok _ _ _ _ _ _ _ _ _ _ _ H)
    as (-> & -> & -> & -> & -> & -> & -> & -> & -> & ->). exact H.
Qed.

Lemma principal_replace_Ok p state version p' :
  principal_replace p state version = Ok p' →
  p' = {| pr_id := pr_id p; pr_class := pr_class p; pr_parent := pr_parent p;
          pr_authority_profile := pr_authority_profile p; pr_scope_kind := pr_scope_kind p;
          pr_repo_id := pr_repo_id p; pr_state := state; pr_config_digest := pr_config_digest p;
          pr_version := version; pr_created_at := pr_created_at p |}.
Proof.
  intros H. apply Principal_new_Ok in H as (H1 & H2 & H3 & H4 & H5 & H6 & H7 & H8 & H9 & H10).
  destruct p as [i c pa au sc re st di ve cr], p' as [i' c' pa' au' sc' re' st' di' ve' cr'].
  cbn in *. simplify_eq.
  destruct pa, pa', re, re', cr, cr'; cbn in *; simplify_eq; done.
Qed.

Lemma principal_replace_wf p state version p' :
  principal_replace p state version = Ok p' → principal_wf p'.
Proof. apply Principal_new_wf. Qed.

Lemma ExecutionBinding_new_Ok id principal repo dispatch agent account model lease admission
    state expires pool b :
  ExecutionBinding_new id principal repo dispatch agent account model lease admission state
    expires pool = Ok b →
  id = VStr (eb_id b) ∧ principal = VStr (eb_principal_id b) ∧ repo = opt_str (eb_repo_id b)
  ∧ dispatch = opt_str (eb_dispatch_id b) ∧ agent = VStr (eb_agent_id b)
  ∧ account = VStr (eb_account_key b) ∧ model = VStr (eb_model_id b) ∧ lease = VStr (eb_lease_id b)
  ∧ admission = VStr (eb_admission_id b) ∧ state = VStr (eb_state b)
  ∧ expires = VStr (eb_expires_at b) ∧ pool = eb_pool b ∧ _IDENTIFIER_RE (eb_model_id b) = true.
Proof.
  unfold ExecutionBinding_new. intros H.
  apply bind_Ok in H as (a1 & [-> _]%principal_identifier_Ok & H).
  apply bind_Ok in H as (a2 & [-> _]%principal_identifier_Ok & H).
  apply bind_Ok in H as (a3 & [-> _]%principal_identifier_Ok & H).
  apply bind_Ok in H as (a4 & [-> Hm]%principal_identifier_Ok & H).
  apply bind_Ok in H as (a5 & [-> _]%principal_identifier_Ok & H).
  apply bind_Ok in H as (a6 & [-> _]%principal_identifier_Ok & H).
  apply bind_Ok in H as (a7 & ->%bounded_text_Ok & H).
  apply bind_Ok in H as (a8 & [-> _]%optional_identifier_Ok & H).
  apply bind_Ok in H as (a9 & [-> _]%optional_identifier_Ok & H).
  apply bind_Ok in H as (a10 & ->%member_of_Ok & H).
  apply bind_Ok in H as (a11 & ->%stored_timestamp_Ok & [= <-]). done.
Qed.

Definition eb_wf (b : ExecutionBinding) : Prop := binding_replace b (eb_state b) = Ok b.

Lemma ExecutionBinding_new_wf id principal repo dispatch agent account model lease admission
    state expires pool b :
  ExecutionBinding_new id principal repo dispatch agent account model lease admission state
    expires pool = Ok b → eb_wf b.
Proof.
  intros H. pose proof (ExecutionBinding_new_Ok _ _ _ _ _ _ _ _ _ _ _ _ _ H)
    as (-> & -> & -> & -> & -> & -> & -> & -> & -> & -> & -> & -> & _). exact H.
Qed.

Lemma binding_replace_Ok b state b' :
  binding_replace b state = Ok b' →
  b' = {| eb_id := eb_id b; eb_principal_id := eb_principal_id b; eb_repo_id := eb_repo_id b;
          eb_dispatch_id := eb_dispatch_id b; eb_agent_id := eb_agent_id b;
          eb_account_key := eb_account_key b; eb_model_id := eb_model_id b;
          eb_lease_id := eb_lease_id b; eb_admission_id := eb_admission_id b; eb_state := state;
          eb_expires_at := eb_expires_at b; eb_pool := eb_pool b |}.
Proof.
  intros H. apply ExecutionBinding_new_Ok
    in H as (H1 & H2 & H3 & H4 & H5 & H6 & H7 & H8 & H9 & H10 & H11 & H12 & _).
  destruct b as [i p r d a ac m l ad s e po], b' as [i' p' r' d' a' ac' m' l' ad' s' e' po'].
  cbn in *. simplify_eq. destruct r, r', d, d'; cbn in *; simplify_eq; done.
Qed.

Lemma binding_replace_wf b state b' : binding_replace b state = Ok b' → eb_wf b'.
Proof. apply ExecutionBinding_new_wf. Qed.

Lemma principal_version p : principal_wf p → 1 <= pr_version p <= 10 ^ 12.
Proof. apply Principal_new_version. Qed.

#[global] Opaque principal_replace binding_replace.

(** ** The hierarchy as an invariant *)

(** The place of a principal among the registered ones; its parent may have
    been retired since. *)
Definition placed (principals : list (string * Principal)) (p : Principal) : Prop :=
  match dict_get (pr_class p) _ROLE_RULES with
  | None => False
  | Some (None, scope, repo_required) =>
      scope = pr_scope_kind p ∧ repo_required = bool_decide (is_Some (pr_repo_id p))
      ∧ pr_parent p = None
  | Some (Some parents, scope, repo_required) =>
      scope = pr_scope_kind p ∧ repo_required = bool_decide (is_Some (pr_repo_id p))
      ∧ ∃ q parent, pr_parent p = Some q ∧ dict_get q principals = Some parent
          ∧ pr_class parent ∈ parents
          ∧ (pr_repo_id p = pr_repo_id parent ∨ pr_repo_id parent = None)
  end.

Lemma validate_parent_placed principals p :
  _validate_parent principals p = Ok () → placed principals p.
Proof.
  unfold _validate_parent, placed. destruct (dict_get _ _ROLE_RULES) as [[[parents scope] repo]|];
    [|done]. intros (? & Hs%require_Ok & H)%bind_Ok. apply bind_Ok in H as (? & Hr%require_Ok & H).
  apply bool_decide_eq_true in Hs. apply eqb_prop in Hr.
  destruct parents as [parents|]; [|apply require_Ok, bool_decide_eq_true in H; done].
  split_and!; [done..|]. unfold parent_rule in H. destruct (pr_parent p) as [q|]; [|done].
  destruct (dict_get q principals) as [parent|] eqn:Hq; [|done].
  apply bind_Ok in H as (? & [_ Hc%bool_decide_eq_true]%require_Ok%andb_true_iff & H).
  exists q, parent. split_and!; [done..|].
  apply require_Ok, orb_true_iff in H as [H|H]; apply bool_decide_eq_true in H; auto.
Qed.

(** Changing only the state and version of registered principals. *)
Definition same_place (p p' : Principal) : Prop :=
  pr_id p' = pr_id p ∧ pr_class p' = pr_class p ∧ pr_parent p' = pr_parent p
  ∧ pr_scope_kind p' = pr_scope_kind p ∧ pr_repo_id p' = pr_repo_id p.

Lemma placed_mono P P' p p' :
  (∀ k q, dict_get k P = Some q → ∃ q', dict_get k P' = Some q' ∧ same_place q q') →
  same_place p p' → placed P p → placed P' p'.
Proof.
  intros HP (_ & Hc & Hp & Hs & Hr). unfold placed. rewrite Hc, Hp, Hs, Hr.
  destruct (dict_get _ _ROLE_RULES) as [[[[parents|] scope] repo]|]; try done.
  intros (? & ? & q & parent & Hq & Hparent & Hin & Hrepo). split_and!; [done..|].
  destruct (HP _ _ Hparent) as (parent' & Hparent' & _ & Hc' & _ & _ & Hr').
  exists q, parent'. rewrite Hc', Hr'. done.
Qed.

Record registry_inv (r : registry) : Prop := {
  ri_principal_keys : NoDup (dict_keys (_principals r));
  ri_principals : ∀ k p, dict_get k (_principals r) = Some p →
    pr_id p = k ∧ principal_wf p ∧ placed (_principals r) p;
  ri_binding_keys : NoDup (dict_keys (_bindings r));
  ri_bindings : ∀ k b, dict_get k (_bindings r) = Some b →
    eb_id b = k ∧ eb_wf b
    ∧ ∃ p, dict_get (eb_principal_id b) (_principals r) = Some p ∧ pr_repo_id p = eb_repo_id b;
  ri_exclusive : ∀ k k' b b',
    dict_get k (_bindings r) = Some b → dict_get k' (_bindings r) = Some b' →
    eb_state b = "active" → same_execution b b' = true → k = k';
}.

Lemma empty_registry_inv : registry_inv empty_registry.
Proof. split; try done; constructor. Qed.

Lemma set_principal_inv r p :
  registry_inv r → principal_wf p →
  placed (dict_set (pr_id p) p (_principals r)) p →
  (∀ q, dict_get (pr_id p) (_principals r) = Some q → same_place q p) →
  registry_inv {| _principals := dict_set (pr_id p) p (_principals r); _bindings := _bindings r |}.
Proof.
  intros [Hk Hp Hbk Hb Hx] Hwf Hplaced Hsame.
  assert (∀ k q, dict_get k (_principals r) = Some q →
    ∃ q', dict_get k (dict_set (pr_id p) p (_principals r)) = Some q' ∧ same_place q q') as Hmono.
  { intros k q Hq. rewrite dict_get_set. case_bool_decide; subst.
    - exists p. split; [done|]. by apply Hsame.
    - exists q. by split_and!. }
  split; cbn; [by apply NoDup_dict_set| |done| |done].
  - intros k q. rewrite dict_get_set. case_bool_decide; [by intros [= <-]|].
    intros Hq. destruct (Hp _ _ Hq) as (? & ? & Hpl). split_and!; [done..|].
    eapply placed_mono; [exact Hmono| |exact Hpl]. done.
  - intros k b Hkb. destruct (Hb _ _ Hkb) as (? & ? & q & Hq & Hr). split_and!; [done..|].
    destruct (Hmono _ _ Hq) as (q' & Hq' & _ & _ & _ & _ & Hr'). exists q'. by rewrite Hr'.
Qed.

Lemma set_binding_inv r b p :
  registry_inv r → eb_wf b →
  dict_get (eb_principal_id b) (_principals r) = Some p → pr_repo_id p = eb_repo_id b →
  (eb_state b = "active" → ∀ k b', dict_get k (_bindings r) = Some b' →
     same_execution b b' = true → k = eb_id b) →
  registry_inv {| _principals := _principals r; _bindings := dict_set (eb_id b) b (_bindings r) |}.
Proof.
  intros [Hk Hp Hbk Hb Hx] Hwf Hpr Hrepo Hnew. split; cbn; [done|done|by apply NoDup_dict_set| |].
  - intros k b'. rewrite dict_get_set. case_bool_decide; [|by apply Hb].
    intros [= <-]. split_and!; [done..|]. by exists p.
  - intros k k' b1 b2. rewrite !dict_get_set.
    assert (∀ b b', same_execution b b' = true → eb_state b = "active" →
      eb_state b' = "active" ∧ same_execution b' b = true) as Hsym.
    { unfold same_execution. intros c c' [[H1 H2]%andb_true_iff H3]%andb_true_iff Hc.
      apply bool_decide_eq_true in H1, H2, H3. by rewrite !bool_decide_eq_true_2. }
    repeat case_bool_decide; subst; intros; simplify_eq; [done| | |by eapply Hx].
    + symmetry. by eapply Hnew.
    + destruct (Hsym b1 b2) as [Ha Hs]; [done..|]. by eapply Hnew.
Qed.

(** ** Histories of an in-memory registry *)

Inductive rcall :=
  | Create (p : Principal)
  | Retire (principal_id : pyval) (expected_version : Z)
  | Bind (b : ExecutionBinding)
  | Release (binding_id : string).

(** The objects a call is given exist, so their constructors accepted them. *)
Definition rcall_wf (c : rcall) : Prop :=
  match c with Create p => principal_wf p | Bind b => eb_wf b | _ => True end.

Definition run_rcall (self : option HiveStateStore) (os : answers) (c : rcall) : RegistryM () :=
  match c with
  | Create p => _ ← create self os p; mret ()
  | Retire id v => _ ← retire self os id v; mret ()
  | Bind b => _ ← bind_execution self os b; mret ()
  | Release id => _ ← release_execution self os id; mret ()
  end.

Lemma bind_own {B} (f : registry → RegistryM B) w : (own_registry ≫= f) w = f (pw_registry w) w.
Proof. done. Qed.

Lemma bind_set {B} r (f : () → RegistryM B) w :
  (set_registry r ≫= f) w = f () {| pw_files := pw_files w; pw_registry := r |}.
Proof. done. Qed.

Lemma bind_set_principal {B} p (f : () → RegistryM B) w :
  (set_principal p ≫= f) w
  = f () {| pw_files := pw_files w;
            pw_registry := {| _principals := dict_set (pr_id p) p (_principals (pw_registry w));
                              _bindings := _bindings (pw_registry w) |} |}.
Proof. done. Qed.

Lemma bind_set_binding {B} b (f : () → RegistryM B) w :
  (set_binding b ≫= f) w
  = f () {| pw_files := pw_files w;
            pw_registry := {| _principals := _principals (pw_registry w);
                              _bindings := dict_set (eb_id b) b (_bindings (pw_registry w)) |} |}.
Proof. done. Qed.

(** Persisting leaves the registry as it is. *)
Lemma persist_then {A} self os (a : A) w :
  pw_registry ((_ ← _persist self os; mret a) w).1 = pw_registry w.
Proof.
  rewrite st_bind_eq. destruct self as [st|]; [|done]. unfold _persist. rewrite bind_own.
  unfold registry_files. destruct (replace_json_locked _ _ _ _ _ _) as [fs []]; done.
Qed.

(** A call that raised before changing anything. *)
Ltac stop := cbn [fst pw_registry]; done.

(** The lookup that answers or raises [principal_not_found]. *)
Lemma find_principal_cases id w :
  (∃ p k, find_principal id w = (w, Ok p) ∧ id = VStr k
     ∧ dict_get k (_principals (pw_registry w)) = Some p)
  ∨ find_principal id w = (w, Err (PrincipalError "principal_not_found")).
Proof.
  unfold find_principal. rewrite bind_own. unfold st_lift.
  destruct (validate_identifier id "principal") as [k|e] eqn:Hid; [|by right].
  apply validate_identifier_Ok in Hid as [-> _].
  destruct (dict_get k _) as [p|] eqn:Hp; [|by right]. left. by exists p, k.
Qed.

Lemma create_inv self os p w :
  registry_inv (pw_registry w) → principal_wf p →
  registry_inv (pw_registry (create_body self os p w).1).
Proof.
  intros Hinv Hwf. unfold create_body. rewrite bind_own, bind_require.
  unfold dict_mem. case_bool_decide as Hmem; [stop|]. cbn [negb].
  destruct (_validate_parent _ p) as [[]|e] eqn:Hparent; [|stop].
  rewrite run_lift, bind_set_principal. rewrite persist_then.
  apply validate_parent_placed in Hparent. apply set_principal_inv; [done..| |].
  - eapply placed_mono; [|by split_and!|exact Hparent]. intros k q Hq. exists q.
    rewrite dict_get_set_ne; [by split_and!|]. intros <-. rewrite Hq in Hmem. by destruct Hmem.
  - intros q Hq. rewrite Hq in Hmem. by destruct Hmem.
Qed.

Lemma retire_inv self os id v w :
  registry_inv (pw_registry w) → registry_inv (pw_registry (retire_body self os id v w).1).
Proof.
  intros Hinv. unfold retire_body. rewrite st_bind_eq.
  destruct (find_principal_cases id w) as [(p & k & -> & -> & Hp)| ->]; [|stop].
  rewrite bind_require. destruct (pr_version p =? v); [|stop]. case_bool_decide; [stop|].
  destruct (principal_replace p "retired" (pr_version p + 1)) as [p'|e] eqn:Hp'; [|stop].
  rewrite run_lift, bind_set_principal. rewrite persist_then.
  pose proof (principal_replace_wf _ _ _ _ Hp') as Hwf'.
  destruct (ri_principals _ Hinv _ _ Hp) as (Hk & _ & Hpl).
  assert (same_place p p') as Hs by (apply principal_replace_Ok in Hp' as ->; done).
  assert (∀ q, dict_get (pr_id p') (_principals (pw_registry w)) = Some q → same_place q p') as Hq.
  { destruct Hs as (Hid & Hrest). rewrite Hid, Hk. intros q. rewrite Hp. by intros [= <-]. }
  apply set_principal_inv; [done..| |done].
  eapply placed_mono; [|exact Hs|exact Hpl]. intros k' q Hkq. rewrite dict_get_set.
  case_bool_decide; [subst; exists p'; split; [done|by apply Hq]|by exists q].
Qed.

Lemma bind_execution_inv self os b w :
  registry_inv (pw_registry w) → eb_wf b →
  registry_inv (pw_registry (bind_execution_body self os b w).1).
Proof.
  intros Hinv Hwf. unfold bind_execution_body. rewrite bind_own.
  destruct (dict_get (eb_principal_id b) _) as [p|] eqn:Hp; [|stop].
  rewrite run_lift, bind_require. case_bool_decide; [|stop]. rewrite bind_require.
  destruct (existsb _ _) eqn:Hex; [stop|]. cbn [negb]. rewrite bind_require.
  case_bool_decide; [|stop]. rewrite bind_set_binding. rewrite persist_then.
  eapply set_binding_inv; [done|done|done|done|].
  intros _ k b' Hb' Hs. exfalso.
  assert (existsb (same_execution b) (dict_values (_bindings (pw_registry w))) = true)
    as Hc; [|by rewrite Hc in Hex].
  apply existsb_exists. exists b'. split; [|done].
  apply list_elem_of_In, list_elem_of_fmap. exists (k, b'). split; [done|by apply dict_get_elem_of].
Qed.

Lemma release_inv self os id w :
  registry_inv (pw_registry w) → registry_inv (pw_registry (release_execution_body self os id w).1).
Proof.
  intros Hinv. unfold release_execution_body, find_binding.
  rewrite st_bind_eq, bind_own. unfold st_lift at 1.
  destruct (dict_get id _) as [b|] eqn:Hb; [|stop]. case_bool_decide; [stop|].
  destruct (binding_replace b "released") as [b'|e] eqn:Hb'; [|stop].
  rewrite run_lift, bind_set_binding. rewrite persist_then.
  destruct (ri_bindings _ Hinv _ _ Hb) as (Hk & _ & p & Hp & Hr).
  pose proof (binding_replace_wf _ _ _ Hb').
  apply binding_replace_Ok in Hb' as ->. eapply set_binding_inv; done.
Qed.

Lemma run_rcall_inv os c w :
  registry_inv (pw_registry w) → rcall_wf c →
  registry_inv (pw_registry (run_rcall None os c w).1).
Proof.
  assert (∀ A (m : RegistryM A), pw_registry ((_ ← m; mret ()) w).1 = pw_registry (m w).1) as Hm.
  { intros A m. rewrite st_bind_eq. by destruct (m w) as [w' []]. }
  intros Hinv Hwf. destruct c; cbn [run_rcall]; rewrite Hm.
  - by apply create_inv.
  - by apply retire_inv.
  - by apply bind_execution_inv.
  - by apply release_inv.
Qed.

(** ** The lineage of a principal *)

(** The distance of a class from the root. *)
Definition class_rank (cls : string) : nat :=
  if bool_decide (cls ∈ ROOT_EXECUTIVE_CLASSES) then 0
  else if bool_decide (cls ∈ QUEEN_CLASSES) then 1
  else if bool_decide (cls ∈ ["teamleiterin"; "teamlead"]) then 2
  else if bool_decide (cls ∈ ["spezialistin"; "specialist"]) then 3 else 4.

(** From a principal up to its root executive: each parent is registered and
    exactly one class above its child, and every member below the root is bound
    to one repository. *)
Inductive lineage (principals : list (string * Principal)) : Principal → list Principal → Prop :=
  | lineage_root p :
      pr_class p ∈ ROOT_EXECUTIVE_CLASSES → pr_parent p = None → pr_repo_id p = None →
      lineage principals p [p]
  | lineage_child p q parent l :
      pr_parent p = Some q → dict_get q principals = Some parent → is_Some (pr_repo_id p) →
      (pr_repo_id p = pr_repo_id parent ∨ pr_repo_id parent = None) →
      class_rank (pr_class p) = S (class_rank (pr_class parent)) →
      lineage principals parent l → lineage principals p (p :: l).

(** What the table of rules says, rule by rule. *)
Lemma role_rules cls parents scope repo :
  dict_get cls _ROLE_RULES = Some (parents, scope, repo) →
  (parents = None ∧ repo = false ∧ cls ∈ ROOT_EXECUTIVE_CLASSES ∧ class_rank cls = 0%nat)
  ∨ ∃ cs, parents = Some cs ∧ repo = true
      ∧ Forall (λ c, class_rank cls = S (class_rank c)) cs.
Proof.
  intros H%dict_get_elem_of.
  assert (Forall (λ x, (x.2.1.1 = None ∧ x.2.2 = false ∧ x.1 ∈ ROOT_EXECUTIVE_CLASSES
      ∧ class_rank x.1 = 0%nat)
    ∨ (is_Some x.2.1.1 ∧ x.2.2 = true
       ∧ Forall (λ c, class_rank x.1 = S (class_rank c)) (default [] x.2.1.1))) _ROLE_RULES) as Hall.
  { repeat (apply Forall_cons_2;
      [solve [left; split_and!; [done..|apply (bool_decide_unpack _); vm_compute; exact I|reflexivity]
             |right; split_and!; [by eexists|done|cbn; repeat (constructor; [reflexivity|]); constructor]]|]).
    constructor. }
  eapply Forall_forall in Hall; [|exact H]. cbn in Hall.
  destruct Hall as [?|([cs ->] & ? & ?)]; [by left|right; by exists cs].
Qed.

Lemma placed_cases P p :
  placed P p →
  (pr_class p ∈ ROOT_EXECUTIVE_CLASSES ∧ class_rank (pr_class p) = 0%nat
   ∧ pr_parent p = None ∧ pr_repo_id p = None)
  ∨ ∃ q parent, pr_parent p = Some q ∧ dict_get q P = Some parent ∧ is_Some (pr_repo_id p)
      ∧ (pr_repo_id p = pr_repo_id parent ∨ pr_repo_id parent = None)
      ∧ class_rank (pr_class p) = S (class_rank (pr_class parent)).
Proof.
  unfold placed. destruct (dict_get _ _ROLE_RULES) as [[[parents scope] repo]|] eqn:Hrule; [|done].
  destruct (role_rules _ _ _ _ Hrule) as [(-> & -> & Hroot & Hrank)|(cs & -> & -> & Hcs)].
  - intros (_ & Hr & Hpar). left. split_and!; [done..|].
    symmetry in Hr. apply bool_decide_eq_false in Hr.
    destruct (pr_repo_id p); [by destruct Hr|done].
  - intros (_ & Hr & q & parent & Hq & Hpar & Hin & Hrepo). right. exists q, parent.
    symmetry in Hr. apply bool_decide_eq_true in Hr. split_and!; [done..|].
    by eapply Forall_forall in Hcs.
Qed.

Lemma placed_lineage r p :
  registry_inv r → placed (_principals r) p →
  ∃ l, lineage (_principals r) p l ∧ length l = S (class_rank (pr_class p)).
Proof.
  intros Hinv. remember (class_rank (pr_class p)) as n eqn:Hn. revert p Hn.
  induction n as [|n IH]; intros p Hn Hp;
    destruct (placed_cases _ _ Hp) as [(? & ? & ? & ?)|(q & parent & Hq & Hpar & Hr & Hrepo & Hrank)];
    try lia; [exists [p]; split; [by constructor|done]|].
  destruct (ri_principals _ Hinv _ _ Hpar) as (_ & _ & Hplaced).
  destruct (IH parent) as (l & Hl & Hlen); [lia|done|].
  exists (p :: l). split; [by econstructor|cbn; lia].
Qed.

Definition run_rcalls (self : option HiveStateStore) (os : answers) (calls : list rcall)
  (w : pworld) : pworld :=
  foldl (λ w c, (run_rcall self os c w).1) w calls.

Lemma run_rcalls_inv os calls w :
  registry_inv (pw_registry w) → Forall rcall_wf calls →
  registry_inv (pw_registry (run_rcalls None os calls w)).
Proof.
  intros Hinv Hwf. revert w Hinv. induction Hwf as [|c calls Hc _ IH]; intros w Hinv; [done|].
  cbn. by apply IH, run_rcall_inv.
Qed.

(** C36: The registry keeps its hierarchy and its bindings. After any calls,
    on an empty in-memory registry, that create and retire principals and bind
    and release executions (principals and bindings their constructors
    accept), whether they returned or raised, every registered principal
    descends from a root executive through registered parents, each exactly
    one class above its child and so at most five in all, with one repository
    below the root; every binding is of a registered principal and of its
    repository; and a principal has at most one active binding per dispatch.
    *)
Theorem registry_hierarchy os fs calls :
  Forall rcall_wf calls →
  let r := pw_registry
             (run_rcalls None os calls {| pw_files := fs; pw_registry := empty_registry |}) in
  (∀ k p, dict_get k (_principals r) = Some p →
     pr_id p = k ∧ ∃ l, lineage (_principals r) p l
       ∧ length l = S (class_rank (pr_class p)) ∧ (length l <= 5)%nat)
  ∧ (∀ k b, dict_get k (_bindings r) = Some b →
     eb_id b = k ∧ ∃ p, dict_get (eb_principal_id b) (_principals r) = Some p
       ∧ pr_repo_id p = eb_repo_id b)
  ∧ (∀ k k' b b', dict_get k (_bindings r) = Some b → dict_get k' (_bindings r) = Some b' →
     eb_state b = "active" → same_execution b b' = true → k = k').
Proof.
  intros Hcalls r.
  assert (registry_inv r) as Hinv by (apply run_rcalls_inv; [apply empty_registry_inv|done]).
  split_and!; [| |apply (ri_exclusive _ Hinv)].
  - intros k p Hp. destruct (ri_principals _ Hinv _ _ Hp) as (Hk & _ & Hpl). split; [done|].
    destruct (placed_lineage _ _ Hinv Hpl) as (l & Hl & Hlen). exists l. split_and!; [done..|].
    rewrite Hlen. unfold class_rank. repeat case_bool_decide; lia.
  - intros k b Hb. destruct (ri_bindings _ Hinv _ _ Hb) as (Hk & _ & Hp). done.
Qed.

Definition sample_digest : string := "sha256:" +:+ sha256_hex "principals".
Definition sample_principal (id cls : string) (parent repo : option string) : Principal :=
  {| pr_id := id; pr_class := cls; pr_parent := parent; pr_authority_profile := "profile";
     pr_scope_kind := match repo with Some _ => "repository" | None => "global" end; pr_repo_id := repo;
     pr_state := "active"; pr_config_digest := sample_digest; pr_version := 1;
     pr_created_at := None |}.
Definition sample_root : Principal := sample_principal "goddess-main" "goddess" None None.
Definition sample_queen : Principal :=
  sample_principal "queen-codex-master" "queen" (Some "goddess-main") (Some "codex-master").
Definition sample_lead : Principal :=
  sample_principal "lead-a" "teamlead" (Some "queen-codex-master") (Some "codex-master").
Definition sample_rcalls : list rcall :=
  [ Create sample_root; Create sample_lead; Create sample_queen; Create sample_lead;
    Retire (VStr "queen-codex-master") 1 ].

Lemma sample_principal_wf :
  principal_wf sample_root ∧ principal_wf sample_queen ∧ principal_wf sample_lead.
Proof. split_and!; vm_compute; reflexivity. Qed.

Lemma registry_hierarchy_witness :
  ∃ l, lineage
         (_principals (pw_registry (run_rcalls None all_granted sample_rcalls
            {| pw_files := []; pw_registry := empty_registry |}))) sample_lead l
       ∧ length l = 3%nat ∧ (length l <= 5)%nat.
Proof.
  destruct sample_principal_wf as (H1 & H2 & H3).
  assert (Forall rcall_wf sample_rcalls) as Hwf by (repeat constructor; done).
  destruct (registry_hierarchy all_granted [] sample_rcalls Hwf) as (Hp & _ & _).
  apply (Hp "lead-a" sample_lead). vm_compute. reflexivity.
Defined.

(** ** Reading back what was persisted *)

Lemma field_or_none_canonical d k v :
  NoDup d.*1 → dict_get k d = Some v → field_or_none (canonical_dict d) k = json_canonical v.
Proof. intros Hn Hg. unfold field_or_none. by rewrite canonical_get, Hg. Qed.

Ltac canonical_fields :=
  repeat first
    [ erewrite field_or_none_canonical by (reflexivity || nodup_keys)
    | rewrite canonical_opt_str ].

Lemma principal_payload_roundtrip p :
  principal_wf p →
  _principal_from_payload (VDict (canonical_dict (_principal_payload p))) = Ok p.
Proof.
  intros Hwf. unfold _principal_from_payload. apply reraise_Ok. run_canonical. canonical_fields.
  exact Hwf.
Qed.

Definition pool_wf (b : ExecutionBinding) : Prop :=
  match eb_pool b with Some pool => binding_wf pool | None => True end.

Lemma execution_payload_roundtrip b :
  eb_wf b → pool_wf b → _binding_from_payload (VDict (canonical_dict (_binding_payload b))) = Ok b.
Proof.
  intros Hwf Hpool. unfold _binding_from_payload. apply reraise_Ok. run_canonical. canonical_fields.
  unfold pool_wf, eb_wf in *. destruct (eb_pool b) as [pool|] eqn:Hp.
  - rewrite canonical_VDict, canonical_binding by done. rewrite !bind_ret, <- Hp. exact Hwf.
  - cbn [json_canonical]. rewrite bind_ret, <- Hp. exact Hwf.
Qed.

(** A principal whose parent, if it has one, is active. *)
Definition parent_active (principals : list (string * Principal)) (p : Principal) : bool :=
  match pr_parent p with
  | None => true
  | Some q => match dict_get q principals with
              | Some parent => bool_decide (pr_state parent = "active")
              | None => false
              end
  end.

Lemma validate_placed P p :
  placed P p →
  _validate_parent P p = if parent_active P p then Ok ()
                         else Err (PrincipalError "invalid_principal_parent").
Proof.
  unfold placed, _validate_parent, parent_active.
  destruct (dict_get _ _ROLE_RULES) as [[[parents scope] repo]|]; [|done].
  destruct parents as [parents|].
  - intros (-> & -> & q & parent & Hq & Hpar & Hin & Hrepo).
    rewrite (bool_decide_eq_true_2 (pr_scope_kind p = _)), eqb_reflx by done.
    cbn [require]. rewrite !bind_ret.
    unfold parent_rule. rewrite Hq, Hpar, (bool_decide_eq_true_2 _ Hin), andb_true_r.
    destruct (bool_decide (pr_state parent = "active")); [|done].
    cbn [require]. rewrite bind_ret. unfold require.
    replace (_ || _) with true; [done|]. symmetry. apply orb_true_iff.
    destruct Hrepo; [left|right]; by apply bool_decide_eq_true.
  - intros (-> & -> & Hp).
    rewrite (bool_decide_eq_true_2 (pr_scope_kind p = _)), eqb_reflx by done.
    cbn [require]. rewrite !bind_ret, Hp. by rewrite bool_decide_eq_true_2.
Qed.

Lemma validate_all_placed P ps :
  Forall (placed P) ps →
  validate_parents P ps = if forallb (parent_active P) ps then Ok ()
                          else Err (PrincipalError "invalid_principal_parent").
Proof.
  induction 1 as [|p ps Hp _ IH]; [done|]. cbn. rewrite validate_placed by done.
  destruct (parent_active P p); [by rewrite bind_ret|done].
Qed.

Lemma load_principals_stored ps w :
  Forall (λ p : string * Principal, pr_id p.2 = p.1 ∧ principal_wf p.2) ps →
  NoDup (dict_keys (_principals (pw_registry w)) ++ ps.*1) →
  load_principals ((λ p, VDict (canonical_dict (_principal_payload p.2))) <$> ps) w
  = ({| pw_files := pw_files w;
        pw_registry := {| _principals := _principals (pw_registry w) ++ ps;
                          _bindings := _bindings (pw_registry w) |} |}, Ok ()).
Proof.
  intros H. revert w. induction H as [|[k p] ps [Hk Hp] _ IH]; intros w Hnd.
  { cbn. rewrite app_nil_r. by destruct w as [? []]. }
  cbn [fst snd] in *. rewrite fmap_cons. cbn [load_principals snd].
  rewrite principal_payload_roundtrip, run_lift, bind_own, Hk by done.
  assert (k ∉ dict_keys (_principals (pw_registry w))) as Hni.
  { apply NoDup_app in Hnd as (_ & Hdis & _). intros Hin. apply (Hdis _ Hin). by left. }
  unfold dict_mem. rewrite bool_decide_eq_false_2 by (by rewrite <- elem_of_dict_keys).
  cbn [negb require]. rewrite run_lift, bind_set_principal, Hk, dict_set_fresh by done.
  rewrite IH; cbn [pw_files pw_registry _principals _bindings].
  - by rewrite <- app_assoc.
  - unfold dict_keys in *. by rewrite fmap_app, <- app_assoc.
Qed.

Lemma load_bindings_stored bs w :
  Forall (λ b : string * ExecutionBinding, eb_id b.2 = b.1 ∧ eb_wf b.2 ∧ pool_wf b.2) bs →
  NoDup (dict_keys (_bindings (pw_registry w)) ++ bs.*1) →
  load_bindings ((λ b, VDict (canonical_dict (_binding_payload b.2))) <$> bs) w
  = ({| pw_files := pw_files w;
        pw_registry := {| _principals := _principals (pw_registry w);
                          _bindings := _bindings (pw_registry w) ++ bs |} |}, Ok ()).
Proof.
  intros H. revert w. induction H as [|[k b] bs (Hk & Hb & Hpool) _ IH]; intros w Hnd.
  { cbn. rewrite app_nil_r. by destruct w as [? []]. }
  cbn [fst snd] in *. rewrite fmap_cons. cbn [load_bindings snd].
  rewrite execution_payload_roundtrip, run_lift, bind_own, Hk by done.
  assert (k ∉ dict_keys (_bindings (pw_registry w))) as Hni.
  { apply NoDup_app in Hnd as (_ & Hdis & _). intros Hin. apply (Hdis _ Hin). by left. }
  unfold dict_mem. rewrite bool_decide_eq_false_2 by (by rewrite <- elem_of_dict_keys).
  cbn [negb require]. rewrite run_lift, bind_set_binding, Hk, dict_set_fresh by done.
  rewrite IH; cbn [pw_files pw_registry _principals _bindings].
  - by rewrite <- app_assoc.
  - unfold dict_keys in *. by rewrite fmap_app, <- app_assoc.
Qed.

Definition registry_document (r : registry) : mapping :=
  [ ("schema_version", VInt 1);
    ("principals", VList (VDict ∘ _principal_payload <$> dict_values (_principals r)));
    ("bindings", VList (VDict ∘ _binding_payload <$> dict_values (_bindings r))) ].

Lemma registry_payload_eq r : registry_payload r = VDict (registry_document r).
Proof. reflexivity. Qed.

Lemma principal_payload_ok p : principal_wf p → record_ok (_principal_payload p).
Proof.
  intros Hv%principal_version. split.
  - assert (∀ o, jsonable (opt_str o)) as Ho by (by intros []).
    unfold _principal_payload. cbn [jsonable foldr snd fst].
    split_and!; try nodup_keys; try done; try apply Ho. unfold INT_BOUND. lia.
  - cbn. by destruct (pr_parent p), (pr_repo_id p), (pr_created_at p).
Qed.

Lemma binding_payload_ok b : record_ok (_binding_payload b).
Proof.
  assert (∀ o, jsonable (opt_str o)) as Ho by (by intros []). split.
  - unfold _binding_payload. cbn [jsonable foldr snd fst].
    split_and!; try nodup_keys; try done; try apply Ho. destruct (eb_pool b) as [pool|]; [|done].
    cbn [jsonable account_pool_binding_payload foldr snd]. split; [nodup_keys|].
    split_and!; done || apply Ho.
  - cbn. destruct (eb_repo_id b), (eb_dispatch_id b), (eb_pool b) as [pool|]; cbn; try done;
      by destruct (runtime_provider pool).
Qed.

Lemma record_list_ok ds :
  Forall record_ok ds → jsonable (VList (VDict <$> ds)) ∧ float_free (VList (VDict <$> ds)) = true.
Proof.
  intros H. cbn [jsonable float_free]. induction H as [|d ds [Hj Hf] _ [IHj IHf]]; [done|].
  rewrite fmap_cons. cbn [foldr forallb]. by rewrite Hf, IHf.
Qed.

Definition principals_ok (r : registry) : Prop :=
  registry_inv r ∧ ∀ k b, dict_get k (_bindings r) = Some b → pool_wf b.

Lemma registry_record_ok r : principals_ok r → record_ok (registry_document r).
Proof.
  intros [Hinv _].
  assert (Forall record_ok (_principal_payload <$> dict_values (_principals r))) as Hps.
  { apply Forall_fmap, Forall_forall. intros p Hp. apply list_elem_of_fmap in Hp as ([k q] & -> & Hp).
    apply elem_of_dict_get in Hp; [|apply (ri_principal_keys _ Hinv)].
    apply principal_payload_ok. by apply (ri_principals _ Hinv) in Hp as (_ & ? & _). }
  assert (Forall record_ok (_binding_payload <$> dict_values (_bindings r))) as Hbs.
  { apply Forall_fmap, Forall_true. intros b. apply binding_payload_ok. }
  apply record_list_ok in Hps as [Hpj Hpf], Hbs as [Hbj Hbf].
  rewrite <- !list_fmap_compose in *. split.
  - cbn [jsonable]. split; [nodup_keys|]. cbn [foldr snd]. by split_and!.
  - unfold registry_document. cbn [float_free forallb snd] in *.
    fold (float_free). by rewrite Hpf, Hbf.
Qed.

Lemma load_registry_document r w :
  principals_ok r → pw_registry w = empty_registry →
  load_payload (canonical_dict (registry_document r)) w
  = if forallb (parent_active (_principals r)) (dict_values (_principals r))
    then ({| pw_files := pw_files w; pw_registry := r |}, Ok ())
    else ({| pw_files := pw_files w;
             pw_registry := {| _principals := _principals r; _bindings := [] |} |},
          Err (PrincipalError "invalid_principal_parent")).
Proof.
  intros [Hinv Hpools] Hw. unfold load_payload. canonical_fields. cbn [py_eq_int json_canonical].
  rewrite Z.eqb_refl, !canonical_payloads. rewrite st_bind_eq, load_principals_stored; rewrite ?Hw; cbn [_principals _bindings
    empty_registry dict_keys fmap list_fmap app].
  - rewrite bind_own. cbn [pw_registry _principals pw_files]. rewrite validate_all_placed.
    + destruct (forallb _ _); [|done]. rewrite run_lift, load_bindings_stored;
        cbn [pw_registry _principals _bindings pw_files dict_keys fmap list_fmap app].
      * by destruct r.
      * apply Forall_forall. intros [k b] Hb.
        apply elem_of_dict_get in Hb; [|apply (ri_binding_keys _ Hinv)].
        destruct (ri_bindings _ Hinv _ _ Hb) as (? & ? & _). split_and!; [done..|]. by eapply Hpools.
      * apply (ri_binding_keys _ Hinv).
    + apply Forall_forall. intros p Hp. apply list_elem_of_fmap in Hp as ([k q] & -> & Hp).
      apply elem_of_dict_get in Hp; [|apply (ri_principal_keys _ Hinv)].
      by apply (ri_principals _ Hinv) in Hp as (_ & _ & ?).
  - apply Forall_forall. intros [k p] Hp.
    apply elem_of_dict_get in Hp; [|apply (ri_principal_keys _ Hinv)].
    by apply (ri_principals _ Hinv) in Hp as (? & ? & _).
  - apply (ri_principal_keys _ Hinv).
Qed.

(** The state file holds the registry. *)
Definition registry_at (fs : files) (r : registry) : Prop :=
  node_at fs "principals.json" = Regular true (document_text (registry_document r))
  ∧ py_len (document_text (registry_document r)) <= MAX_HIVE_STATE_BYTES.

Definition parents_active (r : registry) : bool :=
  forallb (parent_active (_principals r)) (dict_values (_principals r)).

Lemma persist_stored self os w w' :
  _persist (Some self) os w = (w', Ok ()) →
  registry_at (pw_files w') (pw_registry w) ∧ pw_registry w' = pw_registry w.
Proof.
  unfold _persist. rewrite bind_own. unfold registry_files, _PRINCIPALS_PATH.
  rewrite registry_payload_eq.
  destruct (replace_json_locked _ _ _ _ _ _) as [fs [[]|e]] eqn:Hr; [|done].
  intros [= <-]. cbn [pw_files pw_registry]. split; [|done].
  apply replace_json_stored in Hr as (_ & _ & -> & Hsize). split; [|done].
  unfold node_at. by rewrite dict_get_set_eq.
Qed.

(** A transaction over a stored registry. *)
Lemma transaction_at {A} self os (body : RegistryM A) r w :
  principals_ok r → registry_at (pw_files w) r → lock_answer os = Ok () →
  directory_answer os = Ok () →
  _transaction (Some self) os body w =
  if parents_active r then body {| pw_files := pw_files w; pw_registry := r |}
  else ({| pw_files := pw_files w;
           pw_registry := {| _principals := _principals r; _bindings := [] |} |},
        Err (PrincipalError "invalid_principal_parent")).
Proof.
  intros Hok [Hat Hsize] Hl Hd. unfold _transaction. rewrite Hl, run_lift, st_bind_eq.
  unfold _load_locked. rewrite bind_set, st_bind_eq. unfold read_registry, st_catch.
  rewrite st_bind_eq. unfold registry_files, _PRINCIPALS_PATH. cbn [pw_files pw_registry].
  rewrite (read_json_stored self os ["principals.json"] (registry_document r) _ (pw_files w) true)
    by (done || by apply registry_record_ok). cbn [mret st_ret].
  rewrite load_registry_document by done. cbn [pw_files]. fold (parents_active r).
  by destruct (parents_active r).
Qed.

(** What the registry persisted is read back: whatever the in-memory
    dictionaries hold, the next transaction runs on exactly the persisted
    registry when the parent of every stored principal is active, and
    otherwise every transaction, reads included, fails with
    [invalid_principal_parent]. *)
Theorem registry_reload {A} self os os' (body : RegistryM A) w w' memory :
  principals_ok (pw_registry w) → _persist (Some self) os w = (w', Ok ()) →
  lock_answer os' = Ok () → directory_answer os' = Ok () →
  _transaction (Some self) os' body {| pw_files := pw_files w'; pw_registry := memory |} =
  if parents_active (pw_registry w)
  then body {| pw_files := pw_files w'; pw_registry := pw_registry w |}
  else ({| pw_files := pw_files w';
           pw_registry := {| _principals := _principals (pw_registry w); _bindings := [] |} |},
        Err (PrincipalError "invalid_principal_parent")).
Proof.
  intros Hok Hp Hl Hd. apply persist_stored in Hp as [Hat _].
  by rewrite (transaction_at self os' body (pw_registry w)).
Qed.

(** C40: Retiring a principal that has registered children locks the registry.
    Over a stored registry in which every parent is active, a call of [retire]
    that returns for the parent of some principal leaves a file on which every
    later transaction of every registry object fails with
    [invalid_principal_parent]. *)
Theorem retired_parent_locks_registry {A} self os os' (body : RegistryM A) w w' r memory
    q v retired k p :
  principals_ok r → registry_at (pw_files w) r → parents_active r = true →
  lock_answer os = Ok () → directory_answer os = Ok () →
  dict_get k (_principals r) = Some p → pr_parent p = Some q → q ≠ k →
  retire (Some self) os (VStr q) v w = (w', Ok retired) →
  lock_answer os' = Ok () → directory_answer os' = Ok () →
  (_transaction (Some self) os' body {| pw_files := pw_files w'; pw_registry := memory |}).2
  = Err (PrincipalError "invalid_principal_parent").
Proof.
  intros Hok Hat Hact Hl Hd Hk Hpar Hne Hret Hl' Hd'. unfold retire in Hret.
  rewrite (transaction_at self os _ r), Hact in Hret by done.
  set (w0 := {| pw_files := pw_files w; pw_registry := r |}) in *.
  pose proof (retire_inv (Some self) os (VStr q) v w0 (proj1 Hok)) as Hinv'.
  rewrite Hret in Hinv'. cbn [fst] in Hinv'.
  unfold retire_body in Hret. rewrite st_bind_eq in Hret.
  destruct (find_principal_cases (VStr q) w0) as [(c & kq & Hf & [= <-] & Hc)|Hf];
    rewrite Hf in Hret; [|done].
  rewrite bind_require in Hret. destruct (pr_version c =? v); [|done].
  assert (pr_state c = "active") as Hstate.
  { unfold parents_active in Hact. rewrite forallb_forall in Hact.
    assert (In p (dict_values (_principals r))) as Hin%Hact.
    { apply list_elem_of_In, list_elem_of_fmap. exists (k, p).
      split; [done|by apply dict_get_elem_of]. }
    unfold parent_active in Hin. rewrite Hpar in Hin. cbn in Hc. rewrite Hc in Hin.
    by apply bool_decide_eq_true in Hin. }
  rewrite Hstate in Hret. rewrite bool_decide_eq_false_2 in Hret by done.
  destruct (principal_replace c "retired" (pr_version c + 1)) as [c'|e] eqn:Hc'; [|done].
  rewrite run_lift, bind_set_principal in Hret.
  apply st_bind_Ok in Hret as (w1 & [] & Hpersist & [= <- <-]).
  apply persist_stored in Hpersist as [Hat' Hreg]. rewrite Hreg in Hinv'.
  cbn [pw_registry] in Hat', Hinv'.
  rewrite (transaction_at self os' body _ {| pw_files := pw_files w1; pw_registry := memory |}
    (conj Hinv' (proj2 Hok)) Hat' Hl' Hd').
  match goal with |- context [parents_active ?x] => destruct (parents_active x) eqn:Hall end;
    [|done].
  exfalso.
  unfold parents_active in Hall. rewrite forallb_forall in Hall. cbn [_principals] in Hall.
  assert (pr_id c' = q ∧ pr_state c' = "retired") as [Hq Hretired].
  { apply principal_replace_Ok in Hc' as ->. split; [|done].
    by destruct (ri_principals _ (proj1 Hok) _ _ Hc) as (? & _). }
  rewrite Hq in Hall. cbn [pw_registry w0] in Hall.
  assert (In p (dict_values (dict_set q c' (_principals r)))) as Hin%Hall.
  { apply list_elem_of_In, list_elem_of_fmap. exists (k, p). split; [done|].
    apply dict_get_elem_of. by rewrite dict_get_set_ne. }
  unfold parent_active in Hin. by rewrite Hpar, dict_get_set_eq, Hretired in Hin.
Qed.

Definition sample_registry : registry :=
  {| _principals := [("goddess-main", sample_root); ("queen-codex-master", sample_queen)];
     _bindings := [] |}.
Definition sample_pworld : pworld :=
  {| pw_files := [("principals.json",
                   Regular true (document_text (registry_document sample_registry)))];
     pw_registry := sample_registry |}.

Lemma sample_registry_ok : principals_ok sample_registry ∧ registry_at (pw_files sample_pworld) sample_registry.
Proof.
  destruct sample_principal_wf as (H1 & H2 & _). split; [split|split].
  - assert (sample_registry = pw_registry (run_rcalls None all_granted
      [Create sample_root; Create sample_queen] {| pw_files := []; pw_registry := empty_registry |}))
      as -> by (vm_compute; reflexivity).
    apply run_rcalls_inv; [apply empty_registry_inv|by repeat constructor].
  - done.
  - reflexivity.
  - vm_compute. done.
Qed.

Lemma registry_reload_witness :
  ∃ w', _persist (Some sample_store) all_granted sample_pworld = (w', Ok ())
  ∧ (_transaction (Some sample_store) all_granted own_registry
       {| pw_files := pw_files w'; pw_registry := empty_registry |}).2 = Ok sample_registry.
Proof.
  destruct sample_registry_ok as [Hok _].
  destruct (_persist (Some sample_store) all_granted sample_pworld) as [w' [[]|e]] eqn:Hp;
    [|by vm_compute in Hp].
  exists w'. split; [done|].
  rewrite (registry_reload sample_store all_granted all_granted own_registry sample_pworld w'
    empty_registry Hok Hp eq_refl eq_refl).
  reflexivity.
Defined.

Lemma retired_parent_locks_registry_witness :
  ∃ w' retired,
    retire (Some sample_store) all_granted (VStr "goddess-main") 1 sample_pworld = (w', Ok retired)
    ∧ (_transaction (Some sample_store) all_granted own_registry
         {| pw_files := pw_files w'; pw_registry := empty_registry |}).2
      = Err (PrincipalError "invalid_principal_parent").
Proof.
  destruct sample_registry_ok as [Hok Hat].
  destruct (retire (Some sample_store) all_granted (VStr "goddess-main") 1 sample_pworld)
    as [w' [retired|e]] eqn:Hr; [|by vm_compute in Hr].
  exists w', retired. split; [done|].
  exact (retired_parent_locks_registry sample_store all_granted all_granted own_registry
    sample_pworld w' sample_registry empty_registry "goddess-main" 1 retired "queen-codex-master"
    sample_queen Hok Hat eq_refl eq_refl eq_refl eq_refl eq_refl ltac:(done) Hr eq_refl eq_refl).
Defined.

(** The model of a bound admission is a Hive identifier, so an admission for a
    model named with a dot cannot be bound. *)
Lemma bound_model_identifier id a b :
  execution_binding_from_admission id a = Ok b → _IDENTIFIER_RE (model_id (resource a)) = true.
Proof.
  unfold execution_binding_from_admission.
  destruct (account_pool_binding (resource a)) as [pool|]; [|done].
  destruct (lease_id (lease_context a)) as [lease|]; [|done].
  intros Hn%ExecutionBinding_new_Ok.
  destruct Hn as (_ & _ & _ & _ & _ & _ & Hm & _ & _ & _ & _ & _ & Hre).
  injection Hm as Hm. by rewrite <- Hm in Hre.
Qed.
