(* ===== verification/Authority.v ===== *)
(** * Delegation grants and authority decisions

    [src/src/the_hive/hive/authority.py]: capability requests of live
    principals, and the single-use grants by which a parent principal delegates
    part of its authority to a child.  The engine keeps its grants in memory or
    in the private document [grants.json], which every transaction reloads. *)

From S2P Require Import Prelude PyTime Order DynamicPool Sha256 Json JsonText PyEq Admission AdmissionFile HiveState HiveTypes HiveMessages Repositories Principals.
#[local] Open Scope Z_scope.

Definition MAX_GRANT_TTL_SECONDS : Z := 24 * 60 * 60.
Definition MAX_GRANT_PATHS : Z := 256.
Definition _GRANT_STATES : list string := ["active"; "consumed"; "revoked"; "expired"].

(** ** Field checks *)

(** [[a-z][a-z0-9_-]{1,127}\.[a-z][a-z0-9_.-]{1,127}], matched in full: the first
    part has no dot. *)
Definition capability_part (extra : list ascii) (s : string) : bool :=
  match s with
  | EmptyString => false
  | String c rest =>
      is_lower c && (1 <=? py_len rest) && (py_len rest <=? 127)
      && string_forallb (λ c, is_lower c || is_digit_char c || bool_decide (c ∈ extra)) rest
  end.

Definition _CAPABILITY_RE (s : string) : bool :=
  match split_on "." s with
  | first :: (_ :: _) as rest =>
      capability_part ["_"; "-"]%char first
      && capability_part ["_"; "."; "-"]%char (py_join "." (List.tl rest))
  | _ => false
  end.

Definition authority_identifier (value : pyval) (field : string) : result string :=
  reraise is_validation_error (λ e, AuthorityError (exn_str e)) (validate_identifier value field).

Definition optional_authority_identifier (value : pyval) (field : string) : result (option string) :=
  match value with
  | VNone => Ok None
  | v => s ← authority_identifier v field; Ok (Some s)
  end.

Definition _capability (value : pyval) : result string :=
  match value with
  | VStr s => if _CAPABILITY_RE s then Ok s else Err (AuthorityError "invalid_capability")
  | _ => Err (AuthorityError "invalid_capability")
  end.

Definition grant_path (code : string) (value : pyval) : result string :=
  match value with
  | VStr s => if (1 <=? py_len s) && (py_len s <=? 512) && relative_ok s then Ok s
              else Err (AuthorityError code)
  | _ => Err (AuthorityError code)
  end.

Definition _paths (values : list pyval) (code : string) (allow_empty : bool) : result (list string) :=
  _ ← require ((allow_empty || negb (bool_decide (values = [])))
               && (Z.of_nat (length values) <=? MAX_GRANT_PATHS)) (AuthorityError code);
  mapM_result (grant_path code) values.

Definition _digest_secret (value : pyval) : result string :=
  match value with
  | VStr s => if bool_decide (s = "") then Err (AuthorityError "invalid_grant_nonce")
              else Ok ("sha256:" +:+ sha256_hex s)
  | _ => Err (AuthorityError "invalid_grant_nonce")
  end.

Definition _within (p scope : path) : bool := bool_decide (is_Some (relative_to p scope)).

(** ** Requests and decisions *)

Record AuthorityRequest := {
  actor_principal_id : string;
  req_capability : string;
  req_repo_id : option string;
  req_dispatch_id : option string;
  req_workpackage_id : option string;
  req_scope : list string;
  req_write_paths : list string;
}.

Definition AuthorityRequest_new (actor capability repo dispatch workpackage : pyval)
  (scope write_paths : list pyval) : result AuthorityRequest :=
  actor ← authority_identifier actor "actor_principal";
  capability ← _capability capability;
  repo ← optional_authority_identifier repo "repo";
  dispatch ← optional_authority_identifier dispatch "dispatch";
  workpackage ← optional_authority_identifier workpackage "workpackage";
  scope ← _paths scope "invalid_scope" false;
  write_paths ← _paths write_paths "invalid_write_paths" true;
  Ok {| actor_principal_id := actor; req_capability := capability; req_repo_id := repo;
        req_dispatch_id := dispatch; req_workpackage_id := workpackage; req_scope := scope;
        req_write_paths := write_paths |}.

Record AuthorityDecision := { allowed : bool; reason_code : string; decision_grant : option string }.

(** [[a-z][a-z0-9_]{1,95}]. *)
Definition reason_ok (s : string) : bool :=
  match s with
  | EmptyString => false
  | String c rest =>
      is_lower c && (1 <=? py_len rest) && (py_len rest <=? 95)
      && string_forallb (λ c, is_lower c || is_digit_char c || is_char "_" c) rest
  end.

Definition AuthorityDecision_new (allowed : bool) (reason : string) (grant : option string)
  : result AuthorityDecision :=
  _ ← require (reason_ok reason) (AuthorityError "invalid_authority_decision");
  grant ← match grant with
          | None => Ok None
          | Some g => g ← authority_identifier (VStr g) "grant"; Ok (Some g)
          end;
  Ok {| allowed := allowed; reason_code := reason; decision_grant := grant |}.

Definition decision_public (d : AuthorityDecision) : mapping :=
  [ ("allowed", VBool (allowed d)); ("reason_code", VStr (reason_code d));
    ("grant_id", opt_str (decision_grant d)) ].

(** ** Grants *)

Record DelegationGrant := {
  dg_schema : pyval;
  dg_id : string;
  dg_issuer : string;
  dg_subject : string;
  dg_repo_id : string;
  dg_dispatch_id : option string;
  dg_capabilities : list string;
  dg_scope : list string;
  dg_write_paths : list string;
  dg_depth : pyval;
  dg_issued_at : datetime;
  dg_expires_at : datetime;
  dg_nonce_digest : string;
  dg_request_digest : string;
  dg_status : string;
  dg_version : Z;
}.

(** [0 <= x <= 32] for a float, from its literal. *)
Definition float_depth_ok (lit : string) : bool :=
  if bool_decide (lit ∈ ["nan"; "inf"; "-inf"]) then false
  else if startswith "-" lit then bool_decide (lit = "-0.0")
  else if has_char "e" lit then contains "e-" lit
  else match split_on "." lit with
       | [whole; fraction] =>
           let w := digits_value 0 whole in
           (w <? 32) || ((w =? 32) && bool_decide (fraction = "0"))
       | _ => false
       end.

(** [isinstance(depth, bool) or not 0 <= depth <= 32]: the comparison raises on
    a value that is not a number. *)
Definition depth_ok (depth : pyval) : result () :=
  match depth with
  | VInt z => require ((0 <=? z) && (z <=? 32)) (AuthorityError "invalid_delegation_depth")
  | VFloat lit => require (float_depth_ok lit) (AuthorityError "invalid_delegation_depth")
  | VBool _ => Err (AuthorityError "invalid_delegation_depth")
  | _ => Err (TypeError "'<=' not supported")
  end.

(** [_DIGEST_RE.fullmatch(v)]: of a string only. *)
Definition digest_matches (v : pyval) : result bool :=
  match v with
  | VStr s => Ok (is_sha256_digest s)
  | _ => Err (TypeError "expected string or bytes-like object")
  end.

(** The two digests: the second is looked at when the first matches. *)
Definition grant_digests (nonce request : pyval) : result (string * string) :=
  a ← digest_matches nonce;
  b ← (if a : bool then digest_matches request else Ok false);
  match b, nonce, request with
  | true, VStr n, VStr r => Ok (n, r)
  | _, _, _ => Err (AuthorityError "invalid_grant_digest")
  end.

Definition grant_status (status : pyval) : result string :=
  known ← py_in_set status _GRANT_STATES;
  match status with
  | VStr s => _ ← require known (AuthorityError "invalid_grant_state"); Ok s
  | _ => Err (AuthorityError "invalid_grant_state")
  end.

Definition grant_version (version : pyval) : result Z :=
  match version with
  | VInt z => if (1 <=? z) && (z <=? 10 ^ 12) then Ok z
              else Err (AuthorityError "invalid_grant_version")
  | _ => Err (AuthorityError "invalid_grant_version")
  end.

Definition DelegationGrant_new (schema id issuer subject repo dispatch : pyval)
  (capabilities scope write_paths : list pyval) (depth : pyval) (issued_at expires_at : datetime)
  (nonce request status version : pyval) : result DelegationGrant :=
  _ ← require (py_eq_int schema 1) (AuthorityError "unsupported_grant_schema");
  id ← authority_identifier id "grant";
  issuer ← authority_identifier issuer "issuer_principal";
  subject ← authority_identifier subject "subject_principal";
  repo ← authority_identifier repo "repo";
  dispatch ← optional_authority_identifier dispatch "dispatch";
  _ ← require (negb (bool_decide (capabilities = []))) (AuthorityError "invalid_grant_capabilities");
  capabilities ← mapM_result _capability capabilities;
  scope ← _paths scope "invalid_grant_scope" false;
  write_paths ← _paths write_paths "invalid_grant_write_paths" true;
  _ ← depth_ok depth;
  issued ← validate_utc_datetime issued_at "issued";
  expires ← validate_utc_datetime expires_at "expires";
  let ttl := dt_diff_us expires issued in
  _ ← require ((0 <? ttl) && (ttl <=? MAX_GRANT_TTL_SECONDS * US_PER_SECOND))
        (AuthorityError "invalid_grant_ttl");
  '(nonce, request) ← grant_digests nonce request;
  status ← grant_status status;
  version ← grant_version version;
  Ok {| dg_schema := schema; dg_id := id; dg_issuer := issuer; dg_subject := subject;
        dg_repo_id := repo; dg_dispatch_id := dispatch; dg_capabilities := capabilities;
        dg_scope := scope; dg_write_paths := write_paths; dg_depth := depth;
        dg_issued_at := issued_at; dg_expires_at := expires_at; dg_nonce_digest := nonce;
        dg_request_digest := request; dg_status := status; dg_version := version |}.

(** [replace(grant, status=..., version=...)]: the constructor again. *)
Definition grant_replace (g : DelegationGrant) (status : string) (version : Z)
  : result DelegationGrant :=
  DelegationGrant_new (dg_schema g) (VStr (dg_id g)) (VStr (dg_issuer g)) (VStr (dg_subject g))
    (VStr (dg_repo_id g)) (opt_str (dg_dispatch_id g)) (VStr <$> dg_capabilities g)
    (VStr <$> dg_scope g) (VStr <$> dg_write_paths g) (dg_depth g) (dg_issued_at g)
    (dg_expires_at g) (VStr (dg_nonce_digest g)) (VStr (dg_request_digest g)) (VStr status)
    (VInt version).

Definition grant_public (g : DelegationGrant) : mapping :=
  [ ("schema_version", dg_schema g); ("grant_id", VStr (dg_id g));
    ("issuer_principal_id", VStr (dg_issuer g)); ("subject_principal_id", VStr (dg_subject g));
    ("repo_id", VStr (dg_repo_id g)); ("dispatch_id", opt_str (dg_dispatch_id g));
    ("capabilities", VList (VStr <$> dg_capabilities g));
    ("scope_count", VInt (Z.of_nat (length (dg_scope g))));
    ("write_path_count", VInt (Z.of_nat (length (dg_write_paths g))));
    ("max_delegation_depth", dg_depth g); ("issued_at_utc", VStr (isoformat (dg_issued_at g)));
    ("expires_at_utc", VStr (isoformat (dg_expires_at g))); ("status", VStr (dg_status g));
    ("version", VInt (dg_version g)) ].

Definition _grant_payload (g : DelegationGrant) : mapping :=
  [ ("schema_version", dg_schema g); ("grant_id", VStr (dg_id g));
    ("issuer_principal_id", VStr (dg_issuer g)); ("subject_principal_id", VStr (dg_subject g));
    ("repo_id", VStr (dg_repo_id g)); ("dispatch_id", opt_str (dg_dispatch_id g));
    ("capabilities", VList (VStr <$> dg_capabilities g)); ("scope", VList (VStr <$> dg_scope g));
    ("write_paths", VList (VStr <$> dg_write_paths g)); ("max_delegation_depth", dg_depth g);
    ("issued_at_utc", VStr (isoformat (dg_issued_at g)));
    ("expires_at_utc", VStr (isoformat (dg_expires_at g)));
    ("nonce_digest", VStr (dg_nonce_digest g)); ("request_digest", VStr (dg_request_digest g));
    ("status", VStr (dg_status g)); ("version", VInt (dg_version g)) ].

Definition binding_digest (g : DelegationGrant) : string :=
  "sha256:" +:+ sha256_hex (json_dumps (VDict (_grant_payload g))).

(** ** Reading a stored grant *)

(** [datetime.fromisoformat(v.replace("Z", "+00:00"))]. *)
Definition stored_datetime (v : pyval) : result datetime :=
  match v with
  | VStr s => match fromisoformat (replace_Z s) with
              | Some d => Ok d
              | None => Err (ValueError "Invalid isoformat string")
              end
  | _ => Err (AttributeError "replace")
  end.

(** [except (KeyError, TypeError, ValueError, AttributeError, AuthorityError)]. *)
Definition grant_handled (e : exn) : bool :=
  is_value_error e
  || match e with KeyError _ | TypeError _ | AttributeError _ => true | _ => false end.

Definition _grant_from_payload (raw : pyval) : result DelegationGrant :=
  match raw with
  | VDict raw =>
      reraise grant_handled (λ _, AuthorityError "grant_state_invalid")
        (schema ← getitem "schema_version" raw;
         id ← getitem "grant_id" raw;
         issuer ← getitem "issuer_principal_id" raw;
         subject ← getitem "subject_principal_id" raw;
         repo ← getitem "repo_id" raw;
         capabilities ← getitem "capabilities" raw;
         capabilities ← py_tuple capabilities;
         scope ← getitem "scope" raw;
         scope ← py_tuple scope;
         write_paths ← getitem "write_paths" raw;
         write_paths ← py_tuple write_paths;
         depth ← getitem "max_delegation_depth" raw;
         issued ← getitem "issued_at_utc" raw;
         issued ← stored_datetime issued;
         expires ← getitem "expires_at_utc" raw;
         expires ← stored_datetime expires;
         nonce ← getitem "nonce_digest" raw;
         request ← getitem "request_digest" raw;
         status ← getitem "status" raw;
         version ← getitem "version" raw;
         DelegationGrant_new schema id issuer subject repo (field_or_none raw "dispatch_id")
           capabilities scope write_paths depth issued expires nonce request status version)
  | _ => Err (AuthorityError "grant_state_invalid")
  end.

(** ** The engine

    The principals' registry, with the files both stores work on, and the
    grants the engine holds in memory. *)

Record aworld := { aw_registry : pworld; aw_grants : list (string * DelegationGrant) }.
Abbreviation AuthorityM := (ST aworld).

(** The context and the store of an engine; [ac_principal_store] is the store
    of the registry it was given. *)
Record AuthorityContext := {
  ac_principal_store : option HiveStateStore;
  ac_repositories : RepositoryRegistry;
  ac_capabilities : list (string * list string);
}.
Record AuthorityEngine := { _context : AuthorityContext; _state : option HiveStateStore }.

(** What the outside answers during one call: the two stores, the file system
    and the clock. *)
Record surroundings := {
  engine_answers : answers;
  registry_answers : answers;
  file_system : host;
  clock : result datetime;
}.

Definition set_grants (gs : list (string * DelegationGrant)) : AuthorityM () := λ w,
  ({| aw_registry := aw_registry w; aw_grants := gs |}, Ok ()).
Definition own_grants : AuthorityM (list (string * DelegationGrant)) := λ w, (w, Ok (aw_grants w)).

Definition set_grant (g : DelegationGrant) : AuthorityM () :=
  gs ← own_grants; set_grants (dict_set (dg_id g) g gs).

Definition on_registry {A} (m : RegistryM A) : AuthorityM A := λ w,
  let '(r, a) := m (aw_registry w) in ({| aw_registry := r; aw_grants := aw_grants w |}, a).

Definition engine_files {A} (m : FilesM A) : AuthorityM A := on_registry (registry_files m).

Section engine.
Context (self : AuthorityEngine) (env : surroundings).

(** *** Transactions *)

Definition _GRANTS_PATH : option (list string) := Some ["grants.json"].

Fixpoint load_grants (raws : list pyval) : AuthorityM () :=
  match raws with
  | [] => mret ()
  | raw :: raws =>
      g ← st_lift (_grant_from_payload raw);
      gs ← own_grants;
      _ ← st_lift (require (negb (dict_mem (dg_id g) gs)) (AuthorityError "duplicate_grant"));
      _ ← set_grant g;
      load_grants raws
  end.

Definition read_grants (st : HiveStateStore) : AuthorityM (option mapping) :=
  st_catch
    (payload ← engine_files
                 (read_json_locked st (engine_answers env) _GRANTS_PATH (4 * 1024 * 1024));
     mret (Some payload))
    (λ e, match e with
          | HiveStateError m =>
              if bool_decide (m = "state_not_found") then mret None
              else st_lift (Err (AuthorityError "grant_state_invalid"))
          | e => st_lift (Err e)
          end).

Definition _load_locked (st : HiveStateStore) : AuthorityM () :=
  _ ← set_grants [];
  payload ← read_grants st;
  match payload with
  | None => mret ()
  | Some payload =>
      match py_eq_int (field_or_none payload "schema_version") 1,
            field_or_none payload "grants" with
      | true, VList grants => load_grants grants
      | _, _ => st_lift (Err (AuthorityError "grant_state_invalid"))
      end
  end.

Definition grants_document (gs : list (string * DelegationGrant)) : mapping :=
  [ ("schema_version", VInt 1);
    ("grants", VList (VDict ∘ _grant_payload <$> dict_values gs)) ].

Definition _persist : AuthorityM () :=
  match _state self with
  | None => mret ()
  | Some st =>
      gs ← own_grants;
      engine_files
        (replace_json_locked st (engine_answers env) _GRANTS_PATH (VDict (grants_document gs)) None)
  end.

(** [with self._transaction(): body]. *)
Definition _transaction {A} (body : AuthorityM A) : AuthorityM A :=
  match _state self with
  | None => body
  | Some st => _ ← st_lift (lock_answer (engine_answers env)); _ ← _load_locked st; body
  end.

(** [AuthorityEngine(context, state=state)]: the constructor loads once. *)
Definition AuthorityEngine_new : AuthorityM () := _ ← set_grants []; _transaction (mret ()).

(** *** What a principal may do *)

Definition principal_get (principal_id : pyval) : AuthorityM Principal :=
  on_registry (Principals.get (ac_principal_store (_context self)) (registry_answers env) principal_id).

Definition _capabilities (p : Principal) : list string :=
  default [] (dict_get (pr_authority_profile p) (ac_capabilities (_context self))).

Definition resolve_in (repo_id : pyval) (value : string) : result path :=
  resolve_path (file_system env) (ac_repositories (_context self)) repo_id (VStr value).

(** [except (RepositoryError, TypeError)]. *)
Definition resolution_denied (e : exn) : bool :=
  match e with RepositoryError _ | TypeError _ => true | _ => false end.

Definition _scope_allowed (repo_id : pyval) (scope write_paths : list string) : result bool :=
  if is_VNone repo_id then Ok false
  else
    match (scope_paths ← mapM_result (resolve_in repo_id) scope;
           write_resolved ← mapM_result (resolve_in repo_id) write_paths;
           Ok (scope_paths, write_resolved)) with
    | Ok (scope_paths, write_resolved) =>
        Ok (negb (bool_decide (scope_paths = []))
            && forallb (λ candidate, existsb (_within candidate) scope_paths) write_resolved)
    | Err e => if resolution_denied e then Ok false else Err e
    end.

Definition _safe_now : result datetime :=
  reraise (λ e, is_type_error e || is_value_error e)
    (λ _, AuthorityError "authority_clock_unavailable")
    (now ← clock env; validate_utc_datetime now "timestamp").

(** A decision the method returns. *)
Definition decide_as (allowed : bool) (reason : string) (grant : option string)
  : AuthorityM AuthorityDecision := st_lift (AuthorityDecision_new allowed reason grant).

(** [try: p = principals.get(id)  except PrincipalError: return None]. *)
Definition find_live (principal_id : pyval) : AuthorityM (option Principal) :=
  st_catch (p ← principal_get principal_id; mret (Some p))
    (λ e, match e with PrincipalError _ => mret None | e => st_lift (Err e) end).

Definition authorize (request : AuthorityRequest) : AuthorityM AuthorityDecision :=
  actor ← find_live (VStr (actor_principal_id request));
  match actor with
  | None => decide_as false "principal_not_found" None
  | Some actor =>
      if negb (bool_decide (pr_state actor = "active")) then decide_as false "principal_inactive" None
      else if negb (bool_decide (req_capability request ∈ _capabilities actor))
      then decide_as false "capability_denied" None
      else if negb (bool_decide (req_repo_id request = pr_repo_id actor))
      then decide_as false "repository_mismatch" None
      else
        ok ← st_lift (_scope_allowed (opt_str (req_repo_id request)) (req_scope request)
                        (req_write_paths request));
        if ok : bool then decide_as true "authorized" None else decide_as false "scope_denied" None
  end.

(** *** Issuing *)

(** The arguments of [issue_grant]. *)
Record grant_request := {
  gr_grant_id : pyval;
  gr_issuer : pyval;
  gr_subject : pyval;
  gr_repo_id : pyval;
  gr_dispatch_id : pyval;
  gr_capabilities : list string;
  gr_scope : list string;
  gr_write_paths : list string;
  gr_depth : pyval;
  gr_issued_at : datetime;
  gr_expires_at : datetime;
  gr_nonce : pyval;
  gr_request_digest : pyval;
}.

(** [except (PrincipalError, KeyError)], around the two lookups. *)
Definition both_principals (issuer subject : pyval) : AuthorityM (Principal * Principal) :=
  st_catch (i ← principal_get issuer; s ← principal_get subject; mret (i, s))
    (λ e, match e with
          | PrincipalError _ | KeyError _ => st_lift (Err (AuthorityError "principal_not_found"))
          | e => st_lift (Err e)
          end).

(** [tuple(dict.fromkeys(values))] keeps the first of equal elements. *)
Definition from_keys (values : list string) : list string :=
  reverse (remove_dups (reverse values)).

Definition repository_rule (issuer subject : Principal) (repo_id : pyval) : result () :=
  _ ← (if py_hashable repo_id then Ok () else Err (TypeError "unhashable type"));
  _ ← require ((bool_decide (pr_repo_id issuer = None) || same_repo repo_id (pr_repo_id issuer))
               && same_repo repo_id (pr_repo_id subject)) (AuthorityError "repository_mismatch");
  _ ← reraise (λ e, match e with RepositoryError _ | KeyError _ => true | _ => false end)
        (λ _, AuthorityError "unknown_repository")
        (Repositories.get (ac_repositories (_context self)) repo_id);
  Ok ().

Definition issue_depth (depth : pyval) : result () :=
  match depth with
  | VInt z => require ((0 <=? z) && (z <=? 8)) (AuthorityError "invalid_delegation_depth")
  | _ => Err (AuthorityError "invalid_delegation_depth")
  end.

(** [except (KeyError, TypeError, HiveValidationError, AuthorityError)]: an
    [AuthorityError] is raised again as it is. *)
Definition build_handled (e : exn) : bool :=
  match e with KeyError _ | TypeError _ | HiveValidationError _ => true | _ => false end.

Definition construct_grant (issuer subject : Principal) (capabilities scope write_paths : list string)
  (r : grant_request) : result DelegationGrant :=
  reraise build_handled (λ _, AuthorityError "invalid_grant")
    (nonce ← _digest_secret (gr_nonce r);
     _ ← require (match gr_request_digest r with VStr s => is_sha256_digest s | _ => false end)
           (AuthorityError "invalid_grant_request_digest");
     DelegationGrant_new (VInt 1) (gr_grant_id r) (VStr (pr_id issuer)) (VStr (pr_id subject))
       (gr_repo_id r) (gr_dispatch_id r) (VStr <$> capabilities) (VStr <$> scope)
       (VStr <$> write_paths) (gr_depth r) (gr_issued_at r) (gr_expires_at r) (VStr nonce)
       (gr_request_digest r) (VStr "active") (VInt 1)).

(** The checks of [_build_grant], once it has its principals. *)
Definition build_checks (issuer subject : Principal) (r : grant_request) : result DelegationGrant :=
  _ ← require (bool_decide (pr_state issuer = "active") && bool_decide (pr_state subject = "active"))
        (AuthorityError "principal_inactive");
  _ ← require (bool_decide (pr_parent subject = Some (pr_id issuer)))
        (AuthorityError "parent_mismatch");
  _ ← repository_rule issuer subject (gr_repo_id r);
  let capabilities := sort_by str_cmp id (remove_dups (gr_capabilities r)) in
  let scope := from_keys (gr_scope r) in
  let write_paths := from_keys (gr_write_paths r) in
  _ ← require (negb (bool_decide (capabilities = []))
               && forallb (λ c, bool_decide (c ∈ _capabilities issuer)) capabilities)
        (AuthorityError "capability_subset_denied");
  _ ← require (forallb (λ c, bool_decide (c ∈ _capabilities subject)) capabilities)
        (AuthorityError "subject_capability_denied");
  ok ← _scope_allowed (gr_repo_id r) scope write_paths;
  _ ← require ok (AuthorityError "scope_denied");
  _ ← issue_depth (gr_depth r);
  construct_grant issuer subject capabilities scope write_paths r.

Definition _build_grant (r : grant_request) : AuthorityM DelegationGrant :=
  '(issuer, subject) ← both_principals (gr_issuer r) (gr_subject r);
  st_lift (build_checks issuer subject r).

Definition store_new (g : DelegationGrant) : AuthorityM DelegationGrant :=
  gs ← own_grants;
  _ ← st_lift (require (negb (dict_mem (dg_id g) gs)) (AuthorityError "duplicate_grant"));
  _ ← set_grant g;
  _ ← _persist;
  mret g.

Definition issue_grant (r : grant_request) : AuthorityM DelegationGrant :=
  g ← _build_grant r; _transaction (store_new g).

(** *** Using a grant *)

(** A grant whose status changed, with the next version. *)
Definition update_grant (g : DelegationGrant) (status : string) : AuthorityM DelegationGrant :=
  g' ← st_lift (grant_replace g status (dg_version g + 1));
  _ ← set_grant g';
  _ ← _persist;
  mret g'.

Definition consume_body (grant_id : string) (nonce request_digest : pyval)
  : AuthorityM AuthorityDecision :=
  gs ← own_grants;
  match dict_get grant_id gs with
  | None => decide_as false "grant_not_found" None
  | Some g =>
      now ← st_lift _safe_now;
      if negb (bool_decide (dg_status g = "active")) then
        decide_as false
          (if bool_decide (dg_status g = "consumed") then "grant_replayed" else "grant_inactive")
          (Some grant_id)
      else if dt_leb (dg_expires_at g) now then
        _ ← update_grant g "expired"; decide_as false "grant_expired" (Some grant_id)
      else
        secret ← st_lift (_digest_secret nonce);
        if negb (bool_decide (secret = dg_nonce_digest g))
        then decide_as false "grant_nonce_mismatch" (Some grant_id)
        else if negb (match request_digest with
                      | VStr s => is_sha256_digest s && bool_decide (s = dg_request_digest g)
                      | _ => false
                      end)
        then decide_as false "grant_request_mismatch" (Some grant_id)
        else _ ← update_grant g "consumed"; decide_as true "grant_consumed" (Some grant_id)
  end.

Definition consume_grant (grant_id : string) (nonce request_digest : pyval)
  : AuthorityM AuthorityDecision := _transaction (consume_body grant_id nonce request_digest).

Definition find_grant (grant_id : string) : AuthorityM DelegationGrant :=
  gs ← own_grants;
  st_lift (match dict_get grant_id gs with
           | Some g => Ok g
           | None => Err (AuthorityError "grant_not_found")
           end).

Definition revoke_body (grant_id : string) (expected_version : Z) : AuthorityM DelegationGrant :=
  g ← find_grant grant_id;
  _ ← st_lift (require (dg_version g =? expected_version) (AuthorityError "stale_grant_version"));
  if bool_decide (dg_status g = "revoked") then mret g else update_grant g "revoked".

Definition revoke_grant (grant_id : string) (expected_version : Z) : AuthorityM DelegationGrant :=
  _transaction (revoke_body grant_id expected_version).

Definition get_grant (grant_id : string) : AuthorityM DelegationGrant :=
  _transaction (find_grant grant_id).

Definition public_grants : AuthorityM (list mapping) :=
  _transaction (gs ← own_grants; mret (grant_public <$> dict_values gs)).

(** [all(any(_within(resolve(value), resolve(a)) for a in bounds) for value in
    values)]. *)
Definition covered_by (repo_id : pyval) (bounds values : list string) : result bool :=
  all_result (λ value,
    any_result (λ bound,
      p ← resolve_in repo_id value; a ← resolve_in repo_id bound; Ok (_within p a)) bounds) values.

Definition validate_body (grant_id subject repo_id : string) (dispatch_id : option string)
  (scope write_paths : list string) (capability : string) : AuthorityM AuthorityDecision :=
  let denied reason := decide_as false reason (Some grant_id) in
  gs ← own_grants;
  match dict_get grant_id gs with
  | None => denied "grant_not_found"
  | Some g =>
      if negb (bool_decide (dg_status g = "active")) then denied "grant_inactive"
      else
        now ← st_lift _safe_now;
        if dt_leb (dg_expires_at g) now then denied "grant_expired"
        else
          p ← find_live (VStr subject);
          match p with
          | None => denied "principal_not_found"
          | Some p =>
              if negb (bool_decide (pr_state p = "active")) then denied "principal_inactive"
              else if negb (bool_decide (dg_subject g = subject) && bool_decide (dg_repo_id g = repo_id)
                            && bool_decide (dg_dispatch_id g = dispatch_id)
                            && bool_decide (capability ∈ dg_capabilities g))
              then denied "grant_binding_mismatch"
              else
                ok ← st_lift (_scope_allowed (VStr repo_id) scope write_paths);
                if negb ok then denied "scope_denied"
                else
                  ok ← st_lift (covered_by (VStr repo_id) (dg_scope g) scope);
                  if negb ok then denied "grant_scope_mismatch"
                  else
                    ok ← st_lift (covered_by (VStr repo_id) (dg_write_paths g) write_paths);
                    if negb ok then denied "grant_write_scope_mismatch"
                    else decide_as true "grant_verified" (Some grant_id)
          end
  end.

Definition validate_grant (grant_id : string) (subject repo_id : pyval) (dispatch_id : option string)
  (scope write_paths : list string) (capability : pyval) : AuthorityM AuthorityDecision :=
  subject ← st_lift (authority_identifier subject "subject_principal");
  repo_id ← st_lift (authority_identifier repo_id "repo");
  capability ← st_lift (_capability capability);
  _transaction (validate_body grant_id subject repo_id dispatch_id scope write_paths capability).
End engine.

(** ** What the constructor establishes *)

Lemma authority_identifier_Ok v f s :
  authority_identifier v f = Ok s ↔ v = VStr s ∧ _IDENTIFIER_RE s = true.
Proof. unfold authority_identifier. by rewrite reraise_Ok, validate_identifier_Ok. Qed.

Lemma optional_authority_identifier_Ok v f o :
  optional_authority_identifier v f = Ok o → v = opt_str o.
Proof.
  destruct v as [| | | |s'| |]; try done; [by intros [= <-]|].
  unfold optional_authority_identifier.
  by intros (s & [[= ->] _]%authority_identifier_Ok & [= <-])%bind_Ok.
Qed.

(** A check of texts returns the texts it was given. *)
Lemma mapM_texts (f : pyval → result string) l k :
  (∀ v s, f v = Ok s → v = VStr s) → mapM_result f l = Ok k → l = VStr <$> k.
Proof.
  intros Hf Hm%mapM_result_Ok_Forall2. induction Hm as [|v s l k Hv _ IH]; [done|].
  rewrite fmap_cons. f_equal; [by apply Hf|done].
Qed.

Lemma capability_Ok v s : _capability v = Ok s → v = VStr s.
Proof. destruct v; cbn; try done. case_match; [|done]. by intros [= ->]. Qed.

Lemma grant_path_Ok code v s : grant_path code v = Ok s → v = VStr s.
Proof. destruct v; cbn; try done. case_match; [|done]. by intros [= ->]. Qed.

Lemma paths_Ok l code b k : _paths l code b = Ok k → l = VStr <$> k.
Proof. unfold _paths. intros ([] & _ & H)%bind_Ok. eapply mapM_texts, H. apply grant_path_Ok. Qed.

Lemma grant_digests_Ok n r a b : grant_digests n r = Ok (a, b) → n = VStr a ∧ r = VStr b.
Proof.
  unfold grant_digests. intros (x & _ & H)%bind_Ok. apply bind_Ok in H as (y & _ & H).
  by destruct y, n, r; simplify_eq.
Qed.

Lemma grant_status_Ok v s : grant_status v = Ok s → v = VStr s ∧ s ∈ _GRANT_STATES.
Proof.
  unfold grant_status. intros (k & Hk & H)%bind_Ok. destruct v; try done.
  apply bind_Ok in H as ([] & ->%require_Ok & [= ->]). cbn in Hk. injection Hk as Hk.
  by apply bool_decide_eq_true in Hk.
Qed.

Lemma grant_version_Ok v z : grant_version v = Ok z → v = VInt z ∧ 1 <= z <= 10 ^ 12.
Proof.
  destruct v as [| |z'| | | |]; cbn -[Z.pow]; try done.
  destruct (_ && _) eqn:H; [|done]. intros [= <-]. split; [done|]. lia.
Qed.

Lemma DelegationGrant_new_Ok schema id issuer subject repo dispatch capabilities scope write_paths
    depth issued_at expires_at nonce request status version g :
  DelegationGrant_new schema id issuer subject repo dispatch capabilities scope write_paths depth
    issued_at expires_at nonce request status version = Ok g →
  (schema = dg_schema g ∧ id = VStr (dg_id g) ∧ issuer = VStr (dg_issuer g)
   ∧ subject = VStr (dg_subject g) ∧ repo = VStr (dg_repo_id g) ∧ dispatch = opt_str (dg_dispatch_id g)
   ∧ capabilities = VStr <$> dg_capabilities g ∧ scope = VStr <$> dg_scope g
   ∧ write_paths = VStr <$> dg_write_paths g ∧ depth = dg_depth g)
  ∧ (issued_at = dg_issued_at g ∧ expires_at = dg_expires_at g ∧ nonce = VStr (dg_nonce_digest g)
     ∧ request = VStr (dg_request_digest g) ∧ status = VStr (dg_status g)
     ∧ version = VInt (dg_version g))
  ∧ _IDENTIFIER_RE (dg_id g) = true ∧ 1 <= dg_version g <= 10 ^ 12
  ∧ 0 < dt_diff_us (dg_expires_at g) (dg_issued_at g) <= MAX_GRANT_TTL_SECONDS * US_PER_SECOND.
Proof.
  unfold DelegationGrant_new. intros H.
  apply bind_Ok in H as ([] & _ & H).
  apply bind_Ok in H as (a1 & [-> Hid]%authority_identifier_Ok & H).
  apply bind_Ok in H as (a2 & [-> _]%authority_identifier_Ok & H).
  apply bind_Ok in H as (a3 & [-> _]%authority_identifier_Ok & H).
  apply bind_Ok in H as (a4 & [-> _]%authority_identifier_Ok & H).
  apply bind_Ok in H as (a5 & ->%optional_authority_identifier_Ok & H).
  apply bind_Ok in H as ([] & _ & H).
  apply bind_Ok in H as (a6 & ->%(mapM_texts _ _ _ capability_Ok) & H).
  apply bind_Ok in H as (a7 & ->%paths_Ok & H). apply bind_Ok in H as (a8 & ->%paths_Ok & H).
  apply bind_Ok in H as ([] & _ & H).
  apply bind_Ok in H as (i & (_ & _ & ->)%validate_utc_datetime_Ok & H).
  apply bind_Ok in H as (e & (_ & _ & ->)%validate_utc_datetime_Ok & H).
  apply bind_Ok in H as ([] & Httl%require_Ok & H).
  apply bind_Ok in H as ([n r] & [-> ->]%grant_digests_Ok & H).
  apply bind_Ok in H as (s & [-> _]%grant_status_Ok & H).
  apply bind_Ok in H as (v & [-> Hv]%grant_version_Ok & [= <-]). cbn -[Z.pow Z.mul].
  split_and!; try done; try apply Hv;
    unfold dt_diff_us, dt_utc in *; cbn -[Z.pow Z.mul] in *; lia.
Qed.

(** A grant that exists passed its constructor. *)
Definition grant_wf (g : DelegationGrant) : Prop := grant_replace g (dg_status g) (dg_version g) = Ok g.

Lemma DelegationGrant_new_wf schema id issuer subject repo dispatch capabilities scope write_paths
    depth issued_at expires_at nonce request status version g :
  DelegationGrant_new schema id issuer subject repo dispatch capabilities scope write_paths depth
    issued_at expires_at nonce request status version = Ok g → grant_wf g.
Proof.
  intros H. pose proof (DelegationGrant_new_Ok _ _ _ _ _ _ _ _ _ _ _ _ _ _ _ _ _ H)
    as ((-> & -> & -> & -> & -> & -> & -> & -> & -> & ->) & (-> & -> & -> & -> & -> & ->) & _).
  exact H.
Qed.

Lemma texts_inj (l k : list string) : VStr <$> l = VStr <$> k → l = k.
Proof. apply list_fmap_eq_inj. by intros ?? [= ->]. Qed.

(** What a change of status keeps. *)
Definition with_status (g : DelegationGrant) (status : string) (version : Z) : DelegationGrant :=
  {| dg_schema := dg_schema g; dg_id := dg_id g; dg_issuer := dg_issuer g;
     dg_subject := dg_subject g; dg_repo_id := dg_repo_id g; dg_dispatch_id := dg_dispatch_id g;
     dg_capabilities := dg_capabilities g; dg_scope := dg_scope g;
     dg_write_paths := dg_write_paths g; dg_depth := dg_depth g; dg_issued_at := dg_issued_at g;
     dg_expires_at := dg_expires_at g; dg_nonce_digest := dg_nonce_digest g;
     dg_request_digest := dg_request_digest g; dg_status := status; dg_version := version |}.

Lemma grant_replace_Ok g status version g' :
  grant_replace g status version = Ok g' → g' = with_status g status version ∧ grant_wf g'.
Proof.
  intros H. split; [|by eapply DelegationGrant_new_wf].
  apply DelegationGrant_new_Ok in H as
    ((H1 & H2 & H3 & H4 & H5 & H6 & H7%texts_inj & H8%texts_inj & H9%texts_inj & H10)
     & (H11 & H12 & H13 & H14 & H15 & H16) & _).
  unfold with_status.
  destruct g as [sc id iu su re di ca sp wp de ia ea no rq st ve],
    g' as [sc' id' iu' su' re' di' ca' sp' wp' de' ia' ea' no' rq' st' ve']. cbn in *.
  simplify_eq. destruct di, di'; cbn in *; simplify_eq; done.
Qed.

(** ** Reading back what was persisted *)

(** A grant the engine issued: its schema and depth are integers and its times
    are values of [datetime]. *)
Record issued_grant (g : DelegationGrant) : Prop := {
  ig_wf : grant_wf g;
  ig_schema : dg_schema g = VInt 1;
  ig_depth : ∃ z, dg_depth g = VInt z ∧ 0 <= z <= 32;
  ig_issued : dt_valid (dg_issued_at g) = true;
  ig_expires : dt_valid (dg_expires_at g) = true;
}.

Lemma grant_version_bounds g : grant_wf g → 1 <= dg_version g <= 10 ^ 12.
Proof. by intros (_ & _ & _ & ? & _)%DelegationGrant_new_Ok. Qed.

Lemma issued_replace g status version g' :
  issued_grant g → grant_replace g status version = Ok g' → issued_grant g'.
Proof.
  intros [_ Hs Hd Hi He] [-> Hwf]%grant_replace_Ok. by constructor.
Qed.

Lemma grant_payload_roundtrip g :
  issued_grant g → _grant_from_payload (VDict (canonical_dict (_grant_payload g))) = Ok g.
Proof.
  intros [Hwf Hs (z & Hz & _) Hi He]. unfold _grant_from_payload. apply reraise_Ok.
  assert (json_canonical (dg_schema g) = dg_schema g) as Hsc by by rewrite Hs.
  assert (json_canonical (dg_depth g) = dg_depth g) as Hdc by by rewrite Hz.
  repeat (run_canonical; rewrite canonical_strings; cbn [py_tuple]; rewrite bind_ret).
  run_canonical. rewrite Hsc. cbn [stored_datetime].
  rewrite parse_isoformat, bind_ret by done. run_canonical. cbn [stored_datetime].
  rewrite parse_isoformat, bind_ret by done. run_canonical. rewrite Hdc. canonical_fields.
  exact Hwf.
Qed.

Lemma grant_payload_ok g : issued_grant g → record_ok (_grant_payload g).
Proof.
  intros [Hwf Hs (z & Hz & Hb) _ _]. apply grant_version_bounds in Hwf.
  assert (∀ l : list string, foldr (λ v P, jsonable v ∧ P) True (VStr <$> l)) as Hl
    by (induction l; cbn; done).
  assert (∀ l : list string, forallb float_free (VStr <$> l) = true) as Hf
    by (induction l; cbn; done).
  unfold _grant_payload. rewrite Hs, Hz. split.
  - cbn [jsonable foldr snd fst]. split; [nodup_keys|].
    split_and!; try done; try apply Hl; try (unfold INT_BOUND; lia).
    by destruct (dg_dispatch_id g).
  - cbn [float_free forallb snd]. rewrite !Hf. by destruct (dg_dispatch_id g).
Qed.

(** The engine's dictionary: one grant per identifier. *)
Record grants_ok (gs : list (string * DelegationGrant)) : Prop := {
  go_keys : NoDup (dict_keys gs);
  go_grants : ∀ k g, dict_get k gs = Some g → dg_id g = k ∧ issued_grant g;
}.

Lemma grants_Forall gs :
  grants_ok gs → Forall (λ g : string * DelegationGrant, dg_id g.2 = g.1 ∧ issued_grant g.2) gs.
Proof.
  intros [Hk Hg]. apply Forall_forall. intros [k g] Hin. by apply Hg, elem_of_dict_get.
Qed.

Lemma grants_ok_nil : grants_ok [].
Proof. split; [constructor|done]. Qed.

Lemma grants_ok_set g gs : issued_grant g → grants_ok gs → grants_ok (dict_set (dg_id g) g gs).
Proof.
  intros Hi [Hk Hg]. split; [by apply NoDup_dict_set|]. intros k g'.
  rewrite dict_get_set. case_bool_decide; [by intros [= <-]|apply Hg].
Qed.

Lemma grants_record_ok gs : grants_ok gs → record_ok (grants_document gs).
Proof.
  intros Hok%grants_Forall. assert (Forall record_ok (_grant_payload <$> dict_values gs)) as H.
  { unfold dict_values. rewrite <- list_fmap_compose. apply Forall_fmap.
    eapply Forall_impl; [exact Hok|]. intros [k g] [_ ?]. by apply grant_payload_ok. }
  apply record_list_ok in H as [Hj Hf]. rewrite <- !list_fmap_compose in *. split.
  - cbn [jsonable]. split; [nodup_keys|]. cbn [foldr snd]. by split_and!.
  - unfold grants_document. cbn [float_free forallb snd] in *. fold (float_free). by rewrite Hf.
Qed.

Lemma bind_own_grants {B} (f : list (string * DelegationGrant) → AuthorityM B) w :
  (own_grants ≫= f) w = f (aw_grants w) w.
Proof. done. Qed.

Lemma bind_set_grant {B} g (f : () → AuthorityM B) w :
  (set_grant g ≫= f) w =
  f () {| aw_registry := aw_registry w; aw_grants := dict_set (dg_id g) g (aw_grants w) |}.
Proof. done. Qed.

Lemma load_grants_stored gs w :
  Forall (λ g : string * DelegationGrant, dg_id g.2 = g.1 ∧ issued_grant g.2) gs →
  NoDup (dict_keys (aw_grants w) ++ gs.*1) →
  load_grants ((λ g, VDict (canonical_dict (_grant_payload g.2))) <$> gs) w
  = ({| aw_registry := aw_registry w; aw_grants := aw_grants w ++ gs |}, Ok ()).
Proof.
  intros H. revert w. induction H as [|[k g] gs [Hk Hg] _ IH]; intros w Hnd.
  { cbn. rewrite app_nil_r. by destruct w. }
  cbn [fst snd] in *. rewrite fmap_cons. cbn [load_grants snd].
  rewrite grant_payload_roundtrip, run_lift, bind_own_grants, Hk by done.
  assert (k ∉ dict_keys (aw_grants w)) as Hni.
  { apply NoDup_app in Hnd as (_ & Hdis & _). intros Hin. apply (Hdis _ Hin). by left. }
  unfold dict_mem. rewrite bool_decide_eq_false_2 by (by rewrite <- elem_of_dict_keys).
  cbn [negb require]. rewrite run_lift, bind_set_grant, Hk, dict_set_fresh by done.
  rewrite IH; cbn [aw_registry aw_grants].
  - by rewrite <- app_assoc.
  - unfold dict_keys in *. by rewrite fmap_app, <- app_assoc.
Qed.

(** *** The stored grants *)

Definition engine_file (w : aworld) : files := pw_files (aw_registry w).

Definition grants_at (fs : files) (gs : list (string * DelegationGrant)) : Prop :=
  node_at fs "grants.json" = Regular true (document_text (grants_document gs))
  ∧ py_len (document_text (grants_document gs)) <= MAX_HIVE_STATE_BYTES.

(** The store holds the grants: in a document an engine wrote, or there is no
    document and there are no grants. *)
Definition stored (fs : files) (gs : list (string * DelegationGrant)) : Prop :=
  grants_ok gs ∧ (grants_at fs gs ∨ node_at fs "grants.json" = Missing ∧ gs = []).

(** The directory the store was opened on does not vanish under its lock. *)
Definition directory_stays (os : answers) : Prop :=
  directory_answer os ≠ Err (HiveStateError "state_not_found").

Lemma bind_set_grants {B} gs (f : () → AuthorityM B) w :
  (set_grants gs ≫= f) w = f () {| aw_registry := aw_registry w; aw_grants := gs |}.
Proof. done. Qed.

Lemma grants_path_valid : _validate_relative _GRANTS_PATH = Ok ["grants.json"].
Proof. done. Qed.

Lemma read_grants_stored env st gs w :
  directory_stays (engine_answers env) → stored (engine_file w) gs →
  (∃ e, read_grants env st w = (w, Err e))
  ∨ (read_grants env st w = (w, Ok None) ∧ gs = [])
  ∨ read_grants env st w = (w, Ok (Some (canonical_dict (grants_document gs)))).
Proof.
  intros Hdir [Hok Hst]. destruct w as [[fs r] m]. unfold engine_file in Hst.
  cbn [aw_registry pw_files] in Hst. unfold read_grants, st_catch. rewrite st_bind_eq.
  unfold engine_files, on_registry, registry_files. cbn [aw_registry aw_grants pw_files pw_registry].
  destruct (directory_answer (engine_answers env)) as [[]|e] eqn:Hd.
  - destruct Hst as [[Hat Hsize]|[Hmiss ->]].
    + right; right. unfold _GRANTS_PATH.
      by rewrite (read_json_stored st (engine_answers env) ["grants.json"] (grants_document gs) _ _
                    true) by (done || by apply grants_record_ok).
    + right; left. unfold read_json_locked, _path. rewrite grants_path_valid, bind_ret, Hd, bind_ret.
      rewrite run_lift.
      assert (_validate_limit (4 * 1024 * 1024) = Ok ()) as -> by done.
      rewrite run_lift, run_get. cbn [py_join]. by rewrite Hmiss.
  - left. unfold read_json_locked, _path. rewrite grants_path_valid, bind_ret, Hd.
    cbn [mbind result_bind]. rewrite run_lift_err.
    unfold directory_stays in Hdir. rewrite Hd in Hdir.
    destruct e; try (by eexists). case_bool_decide; [by subst|]. by eexists.
Qed.

(** A transaction raises and leaves the files as they are, or runs its body on
    the stored grants. *)
Lemma transaction_stored {A} self env st (body : AuthorityM A) gs w :
  _state self = Some st → directory_stays (engine_answers env) → stored (engine_file w) gs →
  (∃ e w', _transaction self env body w = (w', Err e) ∧ engine_file w' = engine_file w)
  ∨ _transaction self env body w = body {| aw_registry := aw_registry w; aw_grants := gs |}.
Proof.
  intros Hs Hdir Hst. unfold _transaction. rewrite Hs.
  destruct (lock_answer (engine_answers env)) as [[]|e]; [|left; by eexists _, _].
  rewrite run_lift, st_bind_eq. unfold _load_locked. rewrite bind_set_grants, st_bind_eq.
  destruct (read_grants_stored env st gs {| aw_registry := aw_registry w; aw_grants := [] |} Hdir Hst)
    as [[e ->]|[[-> ->]| ->]]; [left; by eexists _, _|by right|]. right.
  canonical_fields. cbn [py_eq_int json_canonical].
  rewrite canonical_payloads, Z.eqb_refl. destruct Hst as [Hok _].
  rewrite load_grants_stored; cbn [aw_registry aw_grants];
    [done|by apply grants_Forall|apply (go_keys _ Hok)].
Qed.

(** What persisting leaves. *)
Lemma persist_cases self env st w :
  _state self = Some st →
  let '(w', r) := _persist self env w in
  aw_grants w' = aw_grants w
  ∧ (engine_file w' = engine_file w ∧ (∃ e, r = Err e) ∨ grants_at (engine_file w') (aw_grants w)).
Proof.
  intros Hs. unfold _persist. rewrite Hs, bind_own_grants.
  unfold engine_files, on_registry, registry_files, _GRANTS_PATH.
  pose proof (replace_json_cases st (engine_answers env) ["grants.json"]
                (grants_document (aw_grants w)) (pw_files (aw_registry w))) as H.
  destruct (replace_json_locked _ _ _ _ _ _) as [fs r]. cbn. split; [done|].
  destruct H as [[-> He]|[-> Hsize]]; [left|right]; [by split|]. unfold engine_file. cbn.
  split; [|done]. unfold node_at. by rewrite dict_get_set_eq.
Qed.

(** *** Calls that leave the files and the grants alone *)

Lemma framed_own_registry {T} (π : pworld → T) : framed π own_registry.
Proof. by intros w. Qed.

Lemma framed_set_registry r : framed pw_files (set_registry r).
Proof. by intros w. Qed.

Lemma framed_set_principal p : framed pw_files (set_principal p).
Proof. by intros w. Qed.

Lemma framed_set_binding b : framed pw_files (set_binding b).
Proof. by intros w. Qed.

#[local] Hint Resolve framed_own_registry framed_set_registry framed_set_principal framed_set_binding
  : framed.

Lemma framed_load_principals raws : framed pw_files (load_principals raws).
Proof. induction raws; cbn [load_principals]; framed_cases. Qed.

Lemma framed_load_bindings raws : framed pw_files (load_bindings raws).
Proof. induction raws; cbn [load_bindings]; framed_cases. Qed.

Lemma framed_read_json self os relative n : framed id (read_json_locked self os relative n).
Proof. unfold read_json_locked. framed_cases. Qed.

Lemma framed_registry_files {A} (m : FilesM A) : framed id m → framed pw_files (registry_files m).
Proof.
  intros Hm w. unfold registry_files. specialize (Hm (pw_files w)). by destruct (m (pw_files w)).
Qed.

#[local] Hint Resolve framed_load_principals framed_load_bindings framed_registry_files
  framed_read_json : framed.

(** The registry's lookup only reads. *)
Lemma framed_principals_get self os i : framed pw_files (Principals.get self os i).
Proof.
  unfold Principals.get, Principals._transaction, find_principal, Principals._load_locked,
    read_registry, load_payload. framed_cases.
Qed.

(** A call that works on the registry's side only. *)
Definition outside (w : aworld) : files * list (string * DelegationGrant) :=
  (engine_file w, aw_grants w).

Lemma framed_on_registry {A} (m : RegistryM A) : framed pw_files m → framed outside (on_registry m).
Proof.
  intros Hm w. unfold on_registry, outside, engine_file. specialize (Hm (aw_registry w)).
  destruct (m (aw_registry w)) as [r a]. cbn in *. by rewrite Hm.
Qed.

Lemma framed_principal_get self env i : framed outside (principal_get self env i).
Proof. apply framed_on_registry, framed_principals_get. Qed.

#[local] Hint Resolve framed_principal_get : framed.

Lemma framed_find_live self env i : framed outside (find_live self env i).
Proof. unfold find_live. framed_cases. Qed.

Lemma framed_decide_as a r g : framed outside (decide_as a r g).
Proof. apply framed_lift. Qed.

Lemma framed_own_grants : framed outside own_grants.
Proof. by intros w. Qed.

#[local] Hint Resolve framed_find_live framed_decide_as framed_own_grants : framed.

Lemma framed_authorize self env r : framed outside (authorize self env r).
Proof. unfold authorize. framed_cases. Qed.

Lemma framed_build_grant self env r : framed outside (_build_grant self env r).
Proof. unfold _build_grant, both_principals. framed_cases. Qed.

Lemma framed_validate_body self env g s r d scope write_paths c :
  framed outside (validate_body self env g s r d scope write_paths c).
Proof. unfold validate_body. framed_cases. Qed.

(** ** A grant is used once

    [spent] is what a grant's history comes to: it was consumed, revoked or
    found expired. *)
Definition spent (gs : list (string * DelegationGrant)) (k : string) : bool :=
  match dict_get k gs with
  | Some g => negb (bool_decide (dg_status g = "active"))
  | None => false
  end.

(** How often the grant can still be consumed. *)
Definition credit (gs : list (string * DelegationGrant)) (k : string) : nat :=
  if spent gs k then 0 else 1.

Lemma spent_set g gs k :
  spent (dict_set (dg_id g) g gs) k =
  if bool_decide (dg_id g = k) then negb (bool_decide (dg_status g = "active")) else spent gs k.
Proof. unfold spent. rewrite dict_get_set. by case_bool_decide. Qed.

(** What a step may do to the stored grants, when it used the grant [n]
    times. *)
Definition accounted (k : string) (gs : list (string * DelegationGrant)) (fs : files) (n : nat) : Prop :=
  ∃ gs', stored fs gs' ∧ (n + credit gs' k <= credit gs k)%nat.

Lemma accounted_same k gs fs fs' : stored fs gs → fs' = fs → accounted k gs fs' 0.
Proof. intros Hs ->. by exists gs. Qed.

Lemma accounted_issue k gs fs g :
  grants_ok gs → issued_grant g → dict_mem (dg_id g) gs = false →
  grants_at fs (dict_set (dg_id g) g gs) → accounted k gs fs 0.
Proof.
  intros Hok Hi Hm Hat. exists (dict_set (dg_id g) g gs).
  split; [split; [by apply grants_ok_set|by left]|]. unfold credit. rewrite spent_set.
  case_bool_decide as Hk; [|lia]. subst k. unfold spent.
  unfold dict_mem in Hm. apply bool_decide_eq_false in Hm.
  destruct (dict_get _ gs); [by destruct Hm; eexists|]. destruct (negb _); lia.
Qed.

(** Changing the status of a stored grant. *)
Lemma update_grant_cases self env st g status gs w :
  _state self = Some st → grants_ok gs → aw_grants w = gs → dict_get (dg_id g) gs = Some g →
  let '(w', r) := update_grant self env g status w in
  (engine_file w' = engine_file w ∧ ∃ e, r = Err e)
  ∨ let g' := with_status g status (dg_version g + 1) in
    issued_grant g' ∧ grants_at (engine_file w') (dict_set (dg_id g) g' gs).
Proof.
  intros Hs Hok Hw Hg. destruct (go_grants _ Hok _ _ Hg) as [_ Hi]. unfold update_grant.
  destruct (grant_replace g status (dg_version g + 1)) as [g'|e] eqn:Hr;
    [|left; split; [done|by eexists]].
  pose proof (issued_replace _ _ _ _ Hi Hr) as Hi'. apply grant_replace_Ok in Hr as [-> _].
  rewrite run_lift, bind_set_grant, st_bind_eq, Hw. cbn [dg_id with_status].
  set (w1 := Build_aworld _ _). pose proof (persist_cases self env st w1 Hs) as Hp.
  destruct (_persist self env w1) as [w2 [[]|e]]; destruct Hp as (_ & [[Hf He]|Hat]);
    [by destruct He|by right|left; split; [done|by eexists]|by right].
Qed.

Lemma accounted_update k gs fs g status version :
  grants_ok gs → dict_get (dg_id g) gs = Some g → dg_status g = "active" → status ≠ "active" →
  issued_grant (with_status g status version) →
  grants_at fs (dict_set (dg_id g) (with_status g status version) gs) →
  accounted k gs fs (if bool_decide (dg_id g = k) then 1 else 0).
Proof.
  intros Hok Hg Ha Hne Hi Hat. exists (dict_set (dg_id g) (with_status g status version) gs).
  split; [split; [by apply (grants_ok_set (with_status g status version))|by left]|].
  unfold credit. rewrite (spent_set (with_status g status version)). cbn [dg_id dg_status with_status].
  case_bool_decide as Hk; [|by case_match].
  subst k. rewrite bool_decide_eq_false_2 by done. cbn [negb]. unfold spent. rewrite Hg, Ha.
  by rewrite bool_decide_eq_true_2.
Qed.

Lemma accounted_weaken k gs fs n m : accounted k gs fs n → (m <= n)%nat → accounted k gs fs m.
Proof. intros (gs' & ? & ?) ?. exists gs'. split; [done|lia]. Qed.

(** *** Histories

    Calls of any engines over one store, each engine with a memory and a context
    of its own, and writes of the other components to other files. *)
Inductive acall :=
  | Issue (r : grant_request)
  | Consume (grant_id : string) (nonce request_digest : pyval)
  | Revoke (grant_id : string) (expected_version : Z)
  | Validate (grant_id : string) (subject repo_id : pyval) (dispatch_id : option string)
      (scope write_paths : list string) (capability : pyval)
  | Get_grant (grant_id : string)
  | Authorize (r : AuthorityRequest).

Definition run_acall (self : AuthorityEngine) (env : surroundings) (c : acall) : AuthorityM bool :=
  match c with
  | Issue r => _ ← issue_grant self env r; mret false
  | Consume g n d => d ← consume_grant self env g n d; mret (allowed d)
  | Revoke g v => _ ← revoke_grant self env g v; mret false
  | Validate g s r d sc wp c => _ ← validate_grant self env g s r d sc wp c; mret false
  | Get_grant g => _ ← get_grant self env g; mret false
  | Authorize r => _ ← authorize self env r; mret false
  end.

Record engine_call := {
  ec_engine : AuthorityEngine;
  ec_surroundings : surroundings;
  ec_registry : registry;
  ec_memory : list (string * DelegationGrant);
  ec_call : acall;
}.

Inductive event := Call (c : engine_call) | Elsewhere (path : string) (n : node).

(** The call consumed the grant [k]. *)
Definition consumed (k : string) (c : acall) (r : result bool) : nat :=
  match c, r with
  | Consume g _ _, Ok true => if bool_decide (g = k) then 1 else 0
  | _, _ => 0
  end.

Definition run_event (k : string) (ev : event) (fs : files) : files * nat :=
  match ev with
  | Elsewhere path n => (dict_set path n fs, 0%nat)
  | Call c =>
      let '(w, r) := run_acall (ec_engine c) (ec_surroundings c) (ec_call c)
                       {| aw_registry := {| pw_files := fs; pw_registry := ec_registry c |};
                          aw_grants := ec_memory c |} in
      (engine_file w, consumed k (ec_call c) r)
  end.

(** How often the grant was consumed along a history. *)
Fixpoint uses (k : string) (evs : list event) (fs : files) : nat :=
  match evs with
  | [] => 0
  | ev :: evs => let '(fs, n) := run_event k ev fs in (n + uses k evs fs)%nat
  end.

(** The times of a request are values of [datetime]. *)
Definition acall_ok (c : acall) : Prop :=
  match c with
  | Issue r => dt_valid (gr_issued_at r) = true ∧ dt_valid (gr_expires_at r) = true
  | _ => True
  end.

(** The engine of a call has a store, and other components write other files. *)
Definition event_ok (ev : event) : Prop :=
  match ev with
  | Elsewhere path _ => path ≠ "grants.json"
  | Call c =>
      is_Some (_state (ec_engine c)) ∧ directory_stays (engine_answers (ec_surroundings c))
      ∧ acall_ok (ec_call c)
  end.

Lemma decision_allowed b r o d : AuthorityDecision_new b r o = Ok d → allowed d = b.
Proof. intros (? & _ & H)%bind_Ok. by apply bind_Ok in H as (? & _ & [= <-]). Qed.

Lemma consumed_denied k g n d r o :
  consumed k (Consume g n d) (allowed <$> AuthorityDecision_new false r o) = 0%nat.
Proof.
  destruct (AuthorityDecision_new false r o) as [dec|e] eqn:Hd; [|done].
  apply decision_allowed in Hd. cbn. by rewrite Hd.
Qed.

Lemma accounted_framed {A} k (m : AuthorityM A) gs w :
  framed outside m → stored (engine_file w) gs →
  accounted k gs (engine_file (m w).1) 0.
Proof. intros Hm Hst. eapply accounted_same; [done|]. by specialize (Hm w) as [= ? _]. Qed.

Lemma build_grant_issued self env r w w' g :
  dt_valid (gr_issued_at r) = true → dt_valid (gr_expires_at r) = true →
  _build_grant self env r w = (w', Ok g) → issued_grant g.
Proof.
  intros Hi He. unfold _build_grant. intros (w1 & [i s] & _ & H)%st_bind_Ok.
  apply st_lift_Ok in H as [_ H]. unfold build_checks in H.
  do 6 (apply bind_Ok in H as (? & _ & H)). apply bind_Ok in H as (? & _ & H).
  apply bind_Ok in H as ([] & Hd & H). unfold construct_grant in H. apply reraise_Ok in H.
  apply bind_Ok in H as (? & _ & H). apply bind_Ok in H as ([] & _ & H).
  pose proof (DelegationGrant_new_Ok _ _ _ _ _ _ _ _ _ _ _ _ _ _ _ _ _ H)
    as ((Hs1 & _ & _ & _ & _ & _ & _ & _ & _ & Hd1) & (Hi1 & He1 & _) & _).
  apply DelegationGrant_new_wf in H. split; [done|done| |by rewrite <- Hi1|by rewrite <- He1].
  rewrite <- Hd1. destruct (gr_depth r); try done. cbn in Hd. apply require_Ok in Hd.
  eexists. split; [done|]. lia.
Qed.

Section history.
Context (self : AuthorityEngine) (env : surroundings) (st : HiveStateStore) (k : string).
Context (Hs : _state self = Some st) (Hdir : directory_stays (engine_answers env)).
Implicit Types (w : aworld).
#[local] Set Default Proof Using "Type*".

(** A transaction whose body is accounted for on the stored grants. *)
Lemma accounted_transaction {A} (body : AuthorityM A) (n : result A → nat) gs w :
  stored (engine_file w) gs → (∀ e, n (Err e) = 0%nat) →
  (∀ w, aw_grants w = gs → stored (engine_file w) gs →
     let '(w', r) := body w in accounted k gs (engine_file w') (n r)) →
  let '(w', r) := _transaction self env body w in accounted k gs (engine_file w') (n r).
Proof.
  intros Hst Hn Hbody.
  destruct (transaction_stored self env st body gs w Hs Hdir Hst) as [(e & w' & -> & Hf)| ->].
  - rewrite Hn. by eapply accounted_same.
  - apply (Hbody (Build_aworld (aw_registry w) gs)); done.
Qed.

Lemma accounted_store_new gs g w :
  aw_grants w = gs → stored (engine_file w) gs → issued_grant g →
  accounted k gs (engine_file (store_new self env g w).1) 0.
Proof.
  intros Hw Hst Hi. pose proof (proj1 Hst) as Hok. unfold store_new. rewrite bind_own_grants, Hw.
  rewrite bind_require. destruct (dict_mem (dg_id g) gs) eqn:Hm; [by eapply accounted_same|].
  cbn [negb]. rewrite bind_set_grant, st_bind_eq, Hw. set (w1 := Build_aworld _ _).
  pose proof (persist_cases self env st w1 Hs) as Hp.
  destruct (_persist self env w1) as [w2 [[]|e]]; destruct Hp as (_ & [[Hf He]|Hat]).
  - by destruct He.
  - by apply (accounted_issue k gs _ g).
  - by eapply accounted_same.
  - by apply (accounted_issue k gs _ g).
Qed.

Lemma accounted_consume_body gs g n d w :
  aw_grants w = gs → stored (engine_file w) gs →
  let '(w', r) := consume_body self env g n d w in
  accounted k gs (engine_file w') (consumed k (Consume g n d) (allowed <$> r)).
Proof.
  intros Hw Hst. pose proof (proj1 Hst) as Hok. unfold consume_body. rewrite bind_own_grants, Hw.
  assert (∀ b r o w', engine_file w' = engine_file w → b = false →
    let '(w', r) := decide_as b r o w' in
    accounted k gs (engine_file w') (consumed k (Consume g n d) (allowed <$> r))) as Hdeny.
  { intros b r o w' Hf ->. unfold decide_as, st_lift.
    rewrite consumed_denied. by eapply accounted_same. }
  destruct (dict_get g gs) as [gr|] eqn:Hg; [|by apply Hdeny].
  destruct (go_grants _ Hok _ _ Hg) as [Hid _].
  destruct (_safe_now env) as [now|e]; [rewrite run_lift|by eapply accounted_same].
  destruct (bool_decide (dg_status gr = "active")) eqn:Ha; cbn [negb]; [|by apply Hdeny].
  apply bool_decide_eq_true in Ha. rewrite <- Hid in Hg.
  pose proof (λ status, update_grant_cases self env st gr status gs w Hs Hok Hw Hg) as Hup.
  destruct (dt_leb _ now).
  { rewrite st_bind_eq. specialize (Hup "expired").
    destruct (update_grant self env gr "expired" w) as [w' [g'|e]].
    - destruct Hup as [(_ & e & ?)|[Hi Hat]]; [done|].
      unfold decide_as, st_lift. rewrite consumed_denied.
      eapply accounted_weaken; [by eapply (accounted_update k gs _ gr "expired")|cbn; lia].
    - destruct Hup as [[Hf _]|[Hi Hat]]; [by eapply accounted_same|].
      eapply accounted_weaken; [by eapply (accounted_update k gs _ gr "expired")|cbn; lia]. }
  destruct (_digest_secret n) as [secret|e]; [rewrite run_lift|by eapply accounted_same].
  destruct (negb _); [by apply Hdeny|]. destruct (negb _); [by apply Hdeny|].
  rewrite st_bind_eq. specialize (Hup "consumed").
  destruct (update_grant self env gr "consumed" w) as [w' [g'|e]].
  - destruct Hup as [(_ & e & ?)|[Hi Hat]]; [done|]. unfold decide_as, st_lift.
    eapply accounted_weaken; [by eapply (accounted_update k gs _ gr "consumed")|].
    rewrite Hid. destruct (AuthorityDecision_new _ _ _) as [dec|e]; cbn; [|lia].
    destruct (allowed dec); lia.
  - destruct Hup as [[Hf _]|[Hi Hat]]; [by eapply accounted_same|].
    eapply accounted_weaken; [by eapply (accounted_update k gs _ gr "consumed")|cbn; lia].
Qed.

Lemma accounted_revoke_body gs g v w :
  aw_grants w = gs → stored (engine_file w) gs →
  accounted k gs (engine_file (revoke_body self env g v w).1) 0.
Proof.
  intros Hw Hst. pose proof (proj1 Hst) as Hok. unfold revoke_body, find_grant.
  rewrite st_bind_eq, bind_own_grants, Hw. unfold st_lift at 1.
  destruct (dict_get g gs) as [gr|] eqn:Hg; [|by eapply accounted_same].
  destruct (go_grants _ Hok _ _ Hg) as [Hid _]. rewrite bind_require.
  destruct (dg_version gr =? v); [|by eapply accounted_same].
  case_bool_decide as Hr; [by eapply accounted_same|]. rewrite <- Hid in Hg.
  pose proof (update_grant_cases self env st gr "revoked" gs w Hs Hok Hw Hg) as Hup.
  destruct (update_grant self env gr "revoked" w) as [w' r].
  destruct Hup as [[Hf _]|[Hi Hat]]; [by eapply accounted_same|].
  exists (dict_set (dg_id gr) (with_status gr "revoked" (dg_version gr + 1)) gs).
  split; [split; [by apply (grants_ok_set (with_status _ _ _))|by left]|].
  unfold credit. rewrite (spent_set (with_status gr "revoked" (dg_version gr + 1))).
  cbn [dg_id dg_status with_status]. rewrite (bool_decide_eq_false_2 ("revoked" = "active")) by done.
  case_bool_decide as Hk; cbn [negb Nat.add]; [lia|done].
Qed.
End history.

Lemma run_mret_false {A} (m : AuthorityM A) w :
  let '(w', r) := (_ ← m; mret false) w in
  w' = (m w).1 ∧ ∀ k c, consumed k c r = match r with Ok _ => 0%nat | Err _ => 0%nat end.
Proof.
  rewrite st_bind_eq. destruct (m w) as [w' [a|e]]; cbn; (split; [done|]); by intros k [].
Qed.

(** Every call is accounted for. *)
Lemma accounted_acall self env st k c gs w :
  _state self = Some st → directory_stays (engine_answers env) → acall_ok c →
  stored (engine_file w) gs →
  let '(w', r) := run_acall self env c w in accounted k gs (engine_file w') (consumed k c r).
Proof.
  intros Hs Hdir Hargs Hw.
  assert (∀ A (b : AuthorityM A), accounted k gs (engine_file (b w).1) 0 →
    let '(w', r) := (_ ← b; mret false) w in accounted k gs (engine_file w') (consumed k c r)) as Hret.
  { intros A b Hb. pose proof (run_mret_false b w) as H.
    destruct ((_ ← b; mret false) w) as [w' res]. destruct H as [-> ->]. by destruct res. }
  assert (∀ A (b : AuthorityM A),
    (∀ w, aw_grants w = gs → stored (engine_file w) gs → accounted k gs (engine_file (b w).1) 0) →
    accounted k gs (engine_file (_transaction self env b w).1) 0) as Htr.
  { intros A b Hb.
    pose proof (accounted_transaction self env st k Hs Hdir b (λ _, 0%nat) gs w Hw (λ _, eq_refl)) as H.
    destruct (_transaction self env b w) as [w' res]. apply H. intros w1 Hw1 Hst1.
    specialize (Hb w1 Hw1 Hst1). by destruct (b w1). }
  assert (∀ A (b : AuthorityM A), framed outside b →
    accounted k gs (engine_file (_transaction self env b w).1) 0) as Hfr.
  { intros A b Hb. apply Htr. intros w1 _ Hst1. by apply accounted_framed. }
  destruct c as [rq|g n d|g v|g s rp d sc wp cp|g|rq]; cbn [run_acall].
  - apply Hret. unfold issue_grant. rewrite st_bind_eq.
    pose proof (framed_build_grant self env rq w) as Hf.
    destruct (_build_grant self env rq w) as [w1 [gr|e]] eqn:Hb;
      injection Hf as Hf Hg; [|by eapply accounted_same].
    pose proof (build_grant_issued self env rq w w1 gr (proj1 Hargs) (proj2 Hargs) Hb) as Hi.
    pose proof (accounted_transaction self env st k Hs Hdir (store_new self env gr) (λ _, 0%nat) gs w1)
      as H.
    destruct (_transaction self env (store_new self env gr) w1) as [w' res] eqn:Hrun.
    apply H; [by rewrite Hf|done|]. intros w2 Hw2 Hst2.
    pose proof (accounted_store_new self env st k Hs Hdir gs gr w2 Hw2 Hst2 Hi) as Ha.
    by destruct (store_new self env gr w2).
  - rewrite st_bind_eq. unfold consume_grant.
    pose proof (accounted_transaction self env st k Hs Hdir (consume_body self env g n d)
      (λ r, consumed k (Consume g n d) (allowed <$> r)) gs w Hw (λ _, eq_refl)) as H.
    destruct (_transaction self env (consume_body self env g n d) w) as [w' [dec|e]];
      apply H; intros w1 Hw1 Hst1; by apply (accounted_consume_body self env st k Hs Hdir).
  - apply Hret, Htr. intros w1 Hw1 Hst1. by apply (accounted_revoke_body self env st k Hs Hdir).
  - apply Hret. unfold validate_grant. rewrite st_bind_eq. unfold st_lift at 1.
    destruct (authority_identifier s _); [|by eapply accounted_same]. rewrite st_bind_eq.
    unfold st_lift at 1. destruct (authority_identifier rp _); [|by eapply accounted_same].
    rewrite st_bind_eq. unfold st_lift at 1. destruct (_capability cp); [|by eapply accounted_same].
    apply Hfr, framed_validate_body.
  - apply Hret, Hfr. unfold find_grant. framed_cases.
  - apply Hret. apply accounted_framed; [apply framed_authorize|done].
Qed.

Lemma accounted_call k c gs fs :
  event_ok (Call c) → stored fs gs →
  let '(fs', n) := run_event k (Call c) fs in accounted k gs fs' n.
Proof.
  intros ([st Hs] & Hdir & Hargs) Hst. cbn [run_event]. set (w := Build_aworld _ _).
  pose proof (accounted_acall _ _ st k (ec_call c) gs w Hs Hdir Hargs Hst) as H.
  by destruct (run_acall _ _ _ w).
Qed.

(** C6: A grant is consumed at most once. Take any history of calls of any
    engines over one store (each with a memory, a clock and answers of the
    operating system of its own, whether its calls return or raise, also when a
    replacement is refused or its directory is not synced), interleaved with
    writes of the other components to other files. If the store held the grants
    [gs], then at most one of the calls consumed the grant [k], and none did if
    [k] was already consumed, revoked or expired in [gs]. *)
Theorem grant_single_use k evs fs gs :
  stored fs gs → Forall event_ok evs → (uses k evs fs <= credit gs k)%nat.
Proof.
  intros Hst Hevs. revert fs gs Hst. induction Hevs as [|ev evs Hev _ IH]; intros fs gs Hst; [cbn; lia|].
  cbn [uses]. destruct ev as [c|path n].
  - pose proof (accounted_call k c gs fs Hev Hst) as H.
    destruct (run_event k (Call c) fs) as [fs' n]. destruct H as (gs' & Hst' & Hle).
    specialize (IH fs' gs' Hst'). lia.
  - cbn [run_event]. specialize (IH (dict_set path n fs) gs). cbn. apply IH.
    destruct Hst as [Hok Hat]. split; [done|]. cbn in Hev.
    unfold grants_at, node_at. by rewrite dict_get_set_ne.
Qed.

(** ** What issuing and validating establish *)

Lemma from_keys_elem x l : x ∈ from_keys l ↔ x ∈ l.
Proof. unfold from_keys. by rewrite elem_of_reverse, elem_of_remove_dups, elem_of_reverse. Qed.

(** The path [p] lies in [q], as the file system resolves both. *)
Definition inside (self : AuthorityEngine) (env : surroundings) (repo : pyval) (p q : string) : Prop :=
  ∃ a b, resolve_in self env repo p = Ok a ∧ resolve_in self env repo q = Ok b
         ∧ _within a b = true.

Lemma scope_allowed_inside self env repo scope write_paths :
  _scope_allowed self env repo scope write_paths = Ok true →
  scope ≠ [] ∧ ∀ p, p ∈ write_paths → ∃ q, q ∈ scope ∧ inside self env repo p q.
Proof.
  unfold _scope_allowed. destruct (is_VNone repo); [done|].
  destruct (mapM_result _ scope) as [ss|e] eqn:Hs;
    [|cbn [mbind result_bind]; by destruct (resolution_denied e)].
  rewrite bind_ret. destruct (mapM_result _ write_paths) as [ws|e] eqn:Hw;
    [|cbn [mbind result_bind]; by destruct (resolution_denied e)].
  rewrite bind_ret. intros [= H]. apply andb_true_iff in H as [Hne Hall].
  apply negb_true_iff, bool_decide_eq_false in Hne.
  apply mapM_result_Ok_Forall2 in Hs, Hw. split.
  { intros ->. by apply Forall2_nil_inv_l in Hs. }
  intros p [i Hi]%list_elem_of_lookup. destruct (Forall2_lookup_l _ _ _ _ _ Hw Hi) as (a & Ha & Hpa).
  rewrite forallb_forall in Hall. specialize (Hall a).
  rewrite <- list_elem_of_In, existsb_exists in Hall. destruct Hall as (b & Hb & Hab);
    [by apply list_elem_of_lookup; exists i|].
  apply list_elem_of_In, list_elem_of_lookup in Hb as [j Hj].
  destruct (Forall2_lookup_r _ _ _ _ _ Hs Hj) as (q & Hq & Hqb).
  exists q. split; [by apply list_elem_of_lookup; exists j|]. by exists a, b.
Qed.

Lemma all_result_true {A} (f : A → result bool) l :
  all_result f l = Ok true ↔ Forall (λ x, f x = Ok true) l.
Proof.
  induction l as [|x l IH]; cbn; [by split; [constructor|]|]. rewrite Forall_cons, <- IH.
  destruct (f x) as [[]|]; naive_solver.
Qed.

Lemma any_result_true {A} (f : A → result bool) l :
  any_result f l = Ok true → Exists (λ x, f x = Ok true) l.
Proof.
  induction l as [|x l IH]; cbn; [done|]. destruct (f x) as [[]|] eqn:Hx; [by left|by right; apply IH|done].
Qed.

Lemma covered_by_inside self env repo bounds values :
  covered_by self env repo bounds values = Ok true →
  ∀ p, p ∈ values → ∃ q, q ∈ bounds ∧ inside self env repo p q.
Proof.
  unfold covered_by. rewrite all_result_true, Forall_forall. intros H p Hp%H.
  apply any_result_true, Exists_exists in Hp as (q & Hq & Hpq). exists q. split; [done|].
  apply bind_Ok in Hpq as (a & Ha & Hb). apply bind_Ok in Hb as (b & Hb & [= Hw]). by exists a, b.
Qed.

(** The two lookups, when both answer. *)
Lemma both_principals_Ok self env i s w w' a b :
  both_principals self env i s w = (w', Ok (a, b)) →
  ∃ w1, principal_get self env i w = (w1, Ok a) ∧ principal_get self env s w1 = (w', Ok b).
Proof.
  unfold both_principals, st_catch. rewrite st_bind_eq.
  destruct (principal_get self env i w) as [w1 [x|e]]; [|by destruct e].
  rewrite st_bind_eq. destruct (principal_get self env s w1) as [w2 [y|e]] eqn:Hs; [|by destruct e].
  intros [= -> -> ->]. by exists w1.
Qed.

Lemma same_repo_Some v s : same_repo v (Some s) = true → v = VStr s.
Proof. destruct v; cbn; try done. by intros ->%bool_decide_eq_true. Qed.

(** The repository of a grant: the subject's, and the issuer's if it has one. *)
Lemma repository_rule_Ok self i s repo u :
  repository_rule self i s (VStr repo) = Ok u →
  pr_repo_id s = Some repo ∧ (pr_repo_id i = None ∨ pr_repo_id i = Some repo).
Proof.
  unfold repository_rule. cbn [py_hashable]. rewrite bind_ret. intros ([] & H & _)%bind_Ok.
  apply require_Ok, andb_true_iff in H as [Hi Hs]. split.
  - destruct (pr_repo_id s); [|done]. by apply same_repo_Some in Hs as [= ->].
  - apply orb_true_iff in Hi as [Hi|Hi]; [left; by apply bool_decide_eq_true in Hi|].
    destruct (pr_repo_id i); [right|by left]. by apply same_repo_Some in Hi as [= ->].
Qed.

Lemma build_checks_Ok self env issuer subject r g :
  build_checks self env issuer subject r = Ok g →
  (pr_state issuer = "active" ∧ pr_state subject = "active" ∧ pr_parent subject = Some (pr_id issuer))
  ∧ (dg_issuer g = pr_id issuer ∧ dg_subject g = pr_id subject
     ∧ pr_repo_id subject = Some (dg_repo_id g)
     ∧ (pr_repo_id issuer = None ∨ pr_repo_id issuer = Some (dg_repo_id g)))
  ∧ (dg_capabilities g ≠ [] ∧ ∀ c, c ∈ dg_capabilities g →
       c ∈ gr_capabilities r ∧ c ∈ _capabilities self issuer ∧ c ∈ _capabilities self subject)
  ∧ (dg_scope g ≠ [] ∧ ∀ p, p ∈ dg_write_paths g →
       p ∈ gr_write_paths r ∧ ∃ q, q ∈ dg_scope g ∧ inside self env (VStr (dg_repo_id g)) p q)
  ∧ ((∃ z, dg_depth g = VInt z ∧ 0 <= z <= 8)
     ∧ 0 < dt_diff_us (dg_expires_at g) (dg_issued_at g) <= MAX_GRANT_TTL_SECONDS * US_PER_SECOND)
  ∧ dg_status g = "active" ∧ dg_version g = 1.
Proof.
  unfold build_checks. intros H.
  apply bind_Ok in H as ([] & [Ha Hb]%require_Ok%andb_true_iff & H).
  apply bind_Ok in H as ([] & Hpar%require_Ok & H). apply bind_Ok in H as (u & Hrepo & H).
  apply bind_Ok in H as ([] & [Hne Hci]%require_Ok%andb_true_iff & H).
  apply bind_Ok in H as ([] & Hcs%require_Ok & H). apply bind_Ok in H as (ok & Hscope & H).
  apply bind_Ok in H as ([] & ->%require_Ok & H). apply bind_Ok in H as ([] & Hdepth & H).
  unfold construct_grant in H. apply reraise_Ok in H. apply bind_Ok in H as (nonce & _ & H).
  apply bind_Ok in H as ([] & _ & H).
  apply DelegationGrant_new_Ok in H as
    ((_ & _ & [= Hi] & [= Hs] & Hr & _ & Hcaps%texts_inj & Hsc%texts_inj & Hwp%texts_inj & Hd)
     & (_ & _ & _ & _ & [= Hst] & [= Hv]) & _ & _ & Httl).
  rewrite Hr in Hrepo, Hscope. apply repository_rule_Ok in Hrepo.
  apply scope_allowed_inside in Hscope as [Hsne Hwp']. apply negb_true_iff in Hne.
  rewrite !bool_decide_eq_true in *. rewrite bool_decide_eq_false in Hne.
  rewrite forallb_forall in Hci, Hcs. rewrite <- Hcaps, <- Hsc, <- Hwp, <- Hi, <- Hs, <- Hst, <- Hv, <- Hd.
  split_and!; try done; try apply Hrepo; try apply Httl.
  - intros c Hc. pose proof Hc as Hc'%list_elem_of_In.
    pose proof (Hci c Hc') as Hc1%bool_decide_eq_true.
    pose proof (Hcs c Hc') as Hc2%bool_decide_eq_true. split_and!; [|done..].
    by rewrite (sort_by_perm str_cmp id), elem_of_remove_dups in Hc.
  - intros p Hp. split; [by rewrite from_keys_elem in Hp|by apply Hwp'].
  - destruct (gr_depth r); try done. cbn in Hdepth. apply require_Ok in Hdepth.
    eexists. split; [done|]. lia.
Qed.

Lemma store_new_Ok self env g w w' g' :
  store_new self env g w = (w', Ok g') →
  g' = g ∧ dict_get (dg_id g) (aw_grants w) = None ∧ dict_get (dg_id g) (aw_grants w') = Some g.
Proof.
  unfold store_new. rewrite bind_own_grants, bind_require. destruct (negb _) eqn:Hnew; [|done].
  apply negb_true_iff, bool_decide_eq_false, eq_None_not_Some in Hnew.
  rewrite bind_set_grant. set (w1 := Build_aworld _ _). intros H.
  assert (framed aw_grants (_persist self env)) as Hp.
  { unfold _persist. destruct (_state self); [|apply framed_ret].
    apply framed_bind; [by intros ?|]. intros gs w2. unfold engine_files, on_registry.
    by destruct (registry_files _ _). }
  apply st_bind_Ok in H as (w2 & [] & Hr & [= <- <-]). split; [done|]. split; [done|].
  specialize (Hp w1). rewrite Hr in Hp. cbn [fst] in Hp. rewrite Hp. apply dict_get_set_eq.
Qed.

(** The world [w1] in which a transaction begun in [w] runs its body: the lock
    is taken and the stored grants are loaded. *)
Definition opened (self : AuthorityEngine) (env : surroundings) (w w1 : aworld) : Prop :=
  _transaction self env (mret ()) w = (w1, Ok ()).

Lemma transaction_Ok {A} self env (body : AuthorityM A) w w' a :
  _transaction self env body w = (w', Ok a) → ∃ w1, opened self env w w1 ∧ body w1 = (w', Ok a).
Proof.
  unfold opened, _transaction. destruct (_state self) as [st|]; [|by exists w].
  intros (w1 & [] & [-> Hl]%st_lift_Ok & H)%st_bind_Ok. apply st_bind_Ok in H as (w2 & [] & Hload & H).
  exists w2. split; [|done]. rewrite Hl, run_lift, st_bind_eq. by rewrite Hload.
Qed.

(** C35: A grant delegates no more than its issuer has. When [issue_grant] returns
    a grant, the registry answered with an active issuer and an active subject
    whose parent is the issuer; every capability of the grant was asked for and
    is one of both profiles; the grant's repository is the subject's, and the
    issuer's unless that one is global; every writable path of the grant lies
    inside one of its scope paths, as the file system resolves them; its depth is
    at most 8, its life is positive and at most a day; it is active in version 1
    and is the engine's grant under its identifier; the transaction that stored
    it took the lock and loaded the stored grants, none of which had that
    identifier. *)
Theorem issue_grant_attenuates self env r w w' g :
  issue_grant self env r w = (w', Ok g) →
  ∃ w1 w2 w3 issuer subject,
    principal_get self env (gr_issuer r) w = (w1, Ok issuer)
    ∧ principal_get self env (gr_subject r) w1 = (w2, Ok subject)
    ∧ (pr_state issuer = "active" ∧ pr_state subject = "active"
       ∧ pr_parent subject = Some (pr_id issuer))
    ∧ (dg_issuer g = pr_id issuer ∧ dg_subject g = pr_id subject
       ∧ pr_repo_id subject = Some (dg_repo_id g)
       ∧ (pr_repo_id issuer = None ∨ pr_repo_id issuer = Some (dg_repo_id g)))
    ∧ (dg_capabilities g ≠ [] ∧ ∀ c, c ∈ dg_capabilities g →
         c ∈ gr_capabilities r ∧ c ∈ _capabilities self issuer ∧ c ∈ _capabilities self subject)
    ∧ (dg_scope g ≠ [] ∧ ∀ p, p ∈ dg_write_paths g →
         p ∈ gr_write_paths r ∧ ∃ q, q ∈ dg_scope g ∧ inside self env (VStr (dg_repo_id g)) p q)
    ∧ ((∃ z, dg_depth g = VInt z ∧ 0 <= z <= 8)
       ∧ 0 < dt_diff_us (dg_expires_at g) (dg_issued_at g) <= MAX_GRANT_TTL_SECONDS * US_PER_SECOND)
    ∧ dg_status g = "active" ∧ dg_version g = 1
    ∧ opened self env w2 w3 ∧ dict_get (dg_id g) (aw_grants w3) = None
    ∧ dict_get (dg_id g) (aw_grants w') = Some g.
Proof.
  unfold issue_grant. intros (w2 & g0 & Hb & Hstore)%st_bind_Ok. unfold _build_grant in Hb.
  apply st_bind_Ok in Hb as (w3 & [issuer subject] & Hboth & Hb). apply st_lift_Ok in Hb as [-> Hb].
  apply both_principals_Ok in Hboth as (w1 & Hi & Hs).
  apply transaction_Ok in Hstore as (w4 & Hopen & (-> & Hnew & Hget)%store_new_Ok).
  apply build_checks_Ok in Hb as (H1 & H2 & H3 & H4 & H5 & H6 & H7).
  by exists w1, w3, w4, issuer, subject.
Qed.

(** The grant covers the use: it is active and unexpired at the engine's clock,
    it is the subject's, for the repository, the dispatch and the capability, and
    the scope and the writable paths lie inside its own. *)
Record grant_covers (self : AuthorityEngine) (env : surroundings) (g : DelegationGrant)
  (subject repo : string) (dispatch : option string) (scope write_paths : list string)
  (capability : string) : Prop := {
  gc_active : dg_status g = "active";
  gc_alive : ∃ now, _safe_now env = Ok now ∧ dt_ltb now (dg_expires_at g) = true;
  gc_subject : dg_subject g = subject;
  gc_repo : dg_repo_id g = repo;
  gc_dispatch : dg_dispatch_id g = dispatch;
  gc_capability : capability ∈ dg_capabilities g;
  gc_scope : scope ≠ [] ∧
    ∀ p, p ∈ scope → ∃ q, q ∈ dg_scope g ∧ inside self env (VStr repo) p q;
  gc_write_paths : ∀ p, p ∈ write_paths →
    (∃ q, q ∈ dg_write_paths g ∧ inside self env (VStr repo) p q)
    ∧ ∃ q, q ∈ scope ∧ inside self env (VStr repo) p q;
}.

(** The registry answered with an active principal. *)
Definition live_principal (self : AuthorityEngine) (env : surroundings) (i : string) (w : aworld) : Prop :=
  ∃ w' p, principal_get self env (VStr i) w = (w', Ok p) ∧ pr_state p = "active".

Lemma find_live_Some self env i w w' p :
  find_live self env (VStr i) w = (w', Ok (Some p)) →
  principal_get self env (VStr i) w = (w', Ok p).
Proof.
  unfold find_live, st_catch. rewrite st_bind_eq.
  destruct (principal_get self env (VStr i) w) as [w1 [q|e]]; [by intros [= -> ->]|by destruct e].
Qed.

Lemma decide_denied r g w w' d :
  decide_as false r g w = (w', Ok d) → allowed d = true → False.
Proof. intros [_ H%decision_allowed]%st_lift_Ok. congruence. Qed.

Lemma dt_leb_false a b : dt_leb a b = false → dt_ltb b a = true.
Proof. unfold dt_leb, dt_ltb. lia. Qed.

Lemma validate_body_allowed self env id s repo disp scope wp cap w w' d :
  validate_body self env id s repo disp scope wp cap w = (w', Ok d) → allowed d = true →
  ∃ g, dict_get id (aw_grants w) = Some g ∧ live_principal self env s w
       ∧ grant_covers self env g s repo disp scope wp cap.
Proof.
  intros H Ha. unfold validate_body in H. rewrite bind_own_grants in H.
  destruct (dict_get id (aw_grants w)) as [g|]; [|by destruct (decide_denied _ _ _ _ _ H Ha)].
  exists g. split; [done|].
  destruct (negb (bool_decide (dg_status g = "active"))) eqn:Hst;
    [by destruct (decide_denied _ _ _ _ _ H Ha)|].
  apply negb_false_iff, bool_decide_eq_true in Hst.
  destruct (_safe_now env) as [now|e] eqn:Hnow; [rewrite run_lift in H|done].
  destruct (dt_leb (dg_expires_at g) now) eqn:Hexp; [by destruct (decide_denied _ _ _ _ _ H Ha)|].
  apply st_bind_Ok in H as (w1 & [p|] & Hp & H); [|by destruct (decide_denied _ _ _ _ _ H Ha)].
  apply find_live_Some in Hp.
  destruct (negb (bool_decide (pr_state p = "active"))) eqn:Hps;
    [by destruct (decide_denied _ _ _ _ _ H Ha)|].
  apply negb_false_iff, bool_decide_eq_true in Hps.
  match type of H with context [if negb ?b then _ else _] => destruct b eqn:Hb end; cbn [negb] in H;
    [|by destruct (decide_denied _ _ _ _ _ H Ha)].
  rewrite !andb_true_iff, !bool_decide_eq_true in Hb. destruct Hb as (((Hs & Hr) & Hd) & Hc).
  apply st_bind_Ok in H as (w2 & ok & [-> Hsc]%st_lift_Ok & H).
  destruct ok; cbn [negb] in H; [|by destruct (decide_denied _ _ _ _ _ H Ha)].
  apply st_bind_Ok in H as (w3 & ok & [-> Hgs]%st_lift_Ok & H).
  destruct ok; cbn [negb] in H; [|by destruct (decide_denied _ _ _ _ _ H Ha)].
  apply st_bind_Ok in H as (w4 & ok & [-> Hgw]%st_lift_Ok & H).
  destruct ok; cbn [negb] in H; [|by destruct (decide_denied _ _ _ _ _ H Ha)].
  apply scope_allowed_inside in Hsc as [Hne Hsc]. split; [by exists w1, p|]. split; try done.
  - exists now. split; [done|by apply dt_leb_false].
  - split; [done|]. by apply covered_by_inside.
  - intros q Hq. split; [by eapply covered_by_inside|by apply Hsc].
Qed.

(** Validating never consumes: the stored grants are as they were. *)
Lemma validate_grant_allowed self env id s repo disp scope wp cap w w' d :
  validate_grant self env id s repo disp scope wp cap w = (w', Ok d) → allowed d = true →
  ∃ w1 g s' repo' cap', s = VStr s' ∧ repo = VStr repo' ∧ cap = VStr cap'
    ∧ opened self env w w1 ∧ dict_get id (aw_grants w1) = Some g ∧ live_principal self env s' w1
    ∧ grant_covers self env g s' repo' disp scope wp cap'.
Proof.
  intros H Ha. unfold validate_grant in H.
  apply st_bind_Ok in H as (w1 & s' & [-> [-> _]%authority_identifier_Ok]%st_lift_Ok & H).
  apply st_bind_Ok in H as (w2 & r' & [-> [-> _]%authority_identifier_Ok]%st_lift_Ok & H).
  apply st_bind_Ok in H as (w3 & c' & [-> ->%capability_Ok]%st_lift_Ok & H).
  apply transaction_Ok in H as (w4 & Hopen & H).
  destruct (validate_body_allowed _ _ _ _ _ _ _ _ _ _ _ _ H Ha) as (g & Hg & Hl & Hc).
  by exists w4, g, s', r', c'.
Qed.

(** ** Samples *)

Definition sample_context : AuthorityContext := {|
  ac_principal_store := None;
  ac_repositories := Repositories.sample_registry;
  ac_capabilities := [("profile", ["hive.specialist.assign"; "hive.report"])];
|}.
Definition sample_engine : AuthorityEngine :=
  {| _context := sample_context; _state := Some sample_store |}.
Definition sample_day (day : Z) : datetime := Datetime ((739000 + day) * US_PER_DAY) (Some 0).
Definition sample_surroundings : surroundings := {|
  engine_answers := all_granted; registry_answers := all_granted;
  file_system := sample_host; clock := Ok (sample_day 0);
|}.
Definition sample_request_digest : string := "sha256:" +:+ sha256_hex "request".
Definition sample_grant_request : grant_request := {|
  gr_grant_id := VStr "grant-1"; gr_issuer := VStr "goddess-main";
  gr_subject := VStr "queen-codex-master"; gr_repo_id := VStr "codex-master";
  gr_dispatch_id := VStr "dispatch-1"; gr_capabilities := ["hive.specialist.assign"];
  gr_scope := ["src"; "docs"; "src"]; gr_write_paths := ["src/the_hive"]; gr_depth := VInt 1;
  gr_issued_at := sample_day 0; gr_expires_at := sample_day 1; gr_nonce := VStr "nonce";
  gr_request_digest := VStr sample_request_digest;
|}.
Definition sample_aworld (fs : files) : aworld :=
  {| aw_registry := {| pw_files := fs; pw_registry := Principals.sample_registry |}; aw_grants := [] |}.
Definition sample_event (c : acall) : event := Call {|
  ec_engine := sample_engine; ec_surroundings := sample_surroundings;
  ec_registry := Principals.sample_registry; ec_memory := []; ec_call := c;
|}.
Definition sample_consume : acall :=
  Consume "grant-1" (VStr "nonce") (VStr sample_request_digest).
Definition sample_history : list event :=
  [ sample_event (Issue sample_grant_request); sample_event sample_consume;
    Elsewhere "queue.json" Missing; sample_event sample_consume ].

Lemma grant_single_use_witness :
  uses "grant-1" sample_history [] = 1%nat ∧ (uses "grant-1" sample_history [] <= credit [] "grant-1")%nat.
Proof.
  split; [vm_compute; reflexivity|].
  apply (grant_single_use "grant-1" sample_history [] []).
  - split; [apply grants_ok_nil|by right].
  - repeat constructor; by try (eexists; reflexivity).
Defined.

Lemma issue_grant_attenuates_witness :
  ∃ w g, issue_grant sample_engine sample_surroundings sample_grant_request (sample_aworld []) = (w, Ok g)
    ∧ dg_write_paths g = ["src/the_hive"]
    ∧ ∃ q, q ∈ dg_scope g
        ∧ inside sample_engine sample_surroundings (VStr (dg_repo_id g)) "src/the_hive" q.
Proof.
  destruct (issue_grant sample_engine sample_surroundings sample_grant_request (sample_aworld []))
    as [w [g|e]] eqn:Hi; [|by vm_compute in Hi].
  exists w, g. split; [done|]. assert (dg_write_paths g = ["src/the_hive"]) as Hw.
  { vm_compute in Hi. by injection Hi as _ <-. }
  split; [done|].
  destruct (issue_grant_attenuates _ _ _ _ _ _ Hi)
    as (w1 & w2 & w3 & i & s & _ & _ & _ & _ & _ & (_ & Hp) & _).
  destruct (Hp "src/the_hive") as [_ Hq]; [by rewrite Hw; left|exact Hq].
Defined.
