(* ===== verification/HiveEvents.v ===== *)
(** * Hive queue and completion evidence

    [src/src/the_hive/hive/events.py]: an append-only log of assignments and
    status events, one record per event identifier, and the reader that
    turns it into report sources. *)

From stdpp Require Import pretty.
From S2P Require Import Prelude PyTime Order DynamicPool Json JsonText Sha256 HiveState HiveTypes HiveMessages.
#[local] Open Scope Z_scope.

Definition MAX_EVENT_RECORDS : Z := 4096.
Definition MAX_EVENT_BYTES : Z := 512 * 1024.
Definition _EVENTS_PATH : option (list string) := Some ["events.jsonl"].

Definition _ASSIGNMENT_MESSAGE_TYPES : list string :=
  ["workpackage.assign"; "assignment.intent"; "admission.planned"].

Definition _EVENT_STATUSES : list string :=
  [ "assigned"; "planned"; "ready"; "queued"; "admission_planned"; "admitted"; "executing";
    "integrating"; "completed"; "blocked"; "decision_required"; "failed"; "compensating";
    "failed_final"; "paused"; "cancelled"; "timeout"; "rate_limited" ].

(** ** Fields *)

(** [except HiveValidationError as exc: raise HiveEventError(str(exc))]. *)
Definition event_validation {A} (r : result A) : result A :=
  reraise (λ e, match e with HiveValidationError _ => true | _ => false end)
    (λ e, HiveEventError (exn_str e)) r.

Definition _id (value : pyval) (field : string) : result string :=
  event_validation (validate_identifier value field).

Definition _optional_id (value : pyval) (field : string) : result (option string) :=
  match value with
  | VNone => Ok None
  | v => s ← _id v field; Ok (Some s)
  end.

Definition _timestamp (value : datetime) : result string :=
  d ← event_validation (validate_utc_datetime value "event_timestamp");
  Ok (isoformat d).

(** [a or b] for an optional string. *)
Definition str_or (a : option string) (b : pyval) : pyval :=
  match a with
  | Some (String c s) => VStr (String c s)
  | _ => b
  end.

Definition _task_id (workpackage_id dispatch_id : option string) (correlation_id : string)
  : result string :=
  _id (str_or workpackage_id (str_or dispatch_id (VStr correlation_id))) "assignment".

Definition invalid_log {A} (r : result A) : result A :=
  reraise (λ e, match e with HiveEventError _ => true | _ => false end)
    (λ _, HiveEventError "hive_event_log_invalid") r.

Definition field (d : mapping) (k : string) : pyval := default VNone (dict_get k d).

Definition _record_id (d : mapping) (k : string) : result string := invalid_log (_id (field d k) k).

Definition _record_timestamp (d : mapping) (k : string) : result string :=
  match field d k with
  | VStr s =>
      if (1 <=? py_len s) && (py_len s <=? 40) then
        match fromisoformat (replace_Z s) with
        | Some moment =>
            match validate_utc_datetime moment "event_timestamp" with
            | Ok d => Ok (isoformat d)
            | Err _ => Err (HiveEventError "hive_event_log_invalid")
            end
        | None => Err (HiveEventError "hive_event_log_invalid")
        end
      else Err (HiveEventError "hive_event_log_invalid")
  | _ => Err (HiveEventError "hive_event_log_invalid")
  end.

Definition _validate_record (d : mapping) (fields : list string) : result () :=
  require (keys_exactly d fields && py_eq_int (field d "schema_version") 1
           && py_eq_str (field d "raw_output") "not_returned")
    (HiveEventError "hive_event_log_invalid").

(** ** Records *)

Definition assignment_record (event_id assignment_id created_at agent : string) : mapping :=
  [ ("schema_version", VInt 1); ("record_kind", VStr "assignment"); ("event_id", VStr event_id);
    ("assignment_id", VStr assignment_id); ("created_at_utc", VStr created_at);
    ("agent", VStr agent); ("raw_output", VStr "not_returned") ].

Definition event_record (event_id at_utc assignment_id agent status : string) : mapping :=
  [ ("schema_version", VInt 1); ("record_kind", VStr "event"); ("event_id", VStr event_id);
    ("at_utc", VStr at_utc); ("assignment_id", VStr assignment_id); ("agent", VStr agent);
    ("status", VStr status); ("raw_output", VStr "not_returned") ].

Definition message_record (m : HiveMessage) : result mapping :=
  if bool_decide (msg_message_type m ∈ _ASSIGNMENT_MESSAGE_TYPES) then
    task ← _task_id (msg_workpackage_id m) (msg_dispatch_id m) (msg_correlation_id m);
    moment ← _timestamp (msg_created_at_utc m);
    Ok (assignment_record (msg_message_id m) task moment (ref_principal_id (msg_recipient m)))
  else if bool_decide (msg_message_type m ∈ REPORT_MESSAGE_TYPES) then
    report ← reraise (λ e, match e with HiveMessageError _ => true | _ => false end)
               (λ _, HiveEventError "invalid_hive_event_report") (record_child_report m);
    moment ← _timestamp (msg_created_at_utc m);
    task ← _task_id (msg_workpackage_id m) (msg_dispatch_id m) (msg_correlation_id m);
    Ok [ ("schema_version", VInt 1); ("record_kind", VStr "event");
         ("event_id", VStr (msg_message_id m)); ("at_utc", VStr moment);
         ("assignment_id", VStr task); ("agent", VStr (ref_principal_id (msg_sender m)));
         ("status", field report "status"); ("raw_output", VStr "not_returned") ]
  else Err (HiveEventError "unsupported_hive_event_message").

(** [hashlib.sha256(f"{workpackage_id}\0{status}\0{moment}".encode("utf-8"))
    .hexdigest()[:24]]. *)
Definition NUL : string := String (char_at 0) "".
Definition transition_digest (workpackage_id status moment : string) : string :=
  String.substring 0 24
    (sha256_hex (workpackage_id +:+ (NUL +:+ (status +:+ (NUL +:+ moment))))).

Definition queue_record (workpackage_id status : pyval) (at_utc : option datetime) (now : datetime)
  (dispatch_id repo_id agent_id : pyval) (event_id : option string) : result mapping :=
  workpackage_id ← _id workpackage_id "workpackage";
  status ← match status with
           | VStr s => _ ← require (bool_decide (s ∈ _EVENT_STATUSES))
                             (HiveEventError "invalid_hive_event_status"); Ok s
           | _ => Err (HiveEventError "invalid_hive_event_status")
           end;
  _ ← _optional_id dispatch_id "dispatch";
  _ ← _optional_id repo_id "repo";
  agent_id ← _id agent_id "agent";
  moment ← _timestamp (default now at_utc);
  event_id ← _id (str_or event_id
                    (VStr ("queue-" +:+ transition_digest workpackage_id status moment))) "event";
  Ok (event_record event_id moment workpackage_id agent_id status).

(** ** The store *)

Record answers_pair := { outer : answers; inner : answers }.

Section events.
Context (_state : HiveStateStore).

(** [except HiveStateError as exc: raise HiveEventError(code)]. *)
Definition state_failure {A} (code : string) (m : FilesM A) : FilesM A := λ fs,
  let '(fs, r) := m fs in
  (fs, reraise (λ e, match e with HiveStateError _ => true | _ => false end)
         (λ _, HiveEventError code) r).

(** [item.get("event_id") == record.get("event_id")]: the identifier of a
    record is text. *)
Definition same_event (item record : mapping) : bool :=
  match field record "event_id" with
  | VStr s => py_eq_str (field item "event_id") s
  | _ => false
  end.

(** The lock is re-entrant: the append takes it again and the operating system
    answers a second time. *)
Definition _append (os : answers_pair) (record : mapping) : FilesM () :=
  state_failure "hive_event_write_failed"
    (locked (outer os)
       (current ← read_bounded_jsonl_locked _state (outer os) _EVENTS_PATH
                    MAX_EVENT_RECORDS MAX_EVENT_BYTES;
        if existsb (λ item, same_event item record) current
        then mret ()
        else append_bounded_jsonl _state (inner os) _EVENTS_PATH (VDict record)
               MAX_EVENT_RECORDS MAX_EVENT_BYTES)).

Definition append_message (os : answers_pair) (m : HiveMessage) : FilesM () :=
  record ← st_lift (message_record m); _append os record.

Definition append_queue_transition (os : answers_pair) workpackage_id status at_utc now
  dispatch_id repo_id agent_id event_id : FilesM () :=
  record ← st_lift (queue_record workpackage_id status at_utc now dispatch_id repo_id agent_id
                      event_id);
  _append os record.

(** ** Report sources *)

Record assignment := { as_id : string; as_created : string; as_agent : string }.
Record event := { ev_assignment : string; ev_at : string; ev_agent : string; ev_status : string }.

(** The assignments in order of first appearance, and the events. *)
Record sources := { src_assignments : list (string * assignment); src_events : list event }.

Definition assignment_fields : list string :=
  [ "schema_version"; "record_kind"; "event_id"; "assignment_id"; "created_at_utc"; "agent";
    "raw_output" ].
Definition event_fields : list string :=
  [ "schema_version"; "record_kind"; "event_id"; "at_utc"; "assignment_id"; "agent"; "status";
    "raw_output" ].

(** One turn of the loop.  A Python dictionary keeps a key where it was first
    inserted, which is the order [assignment_order] lists. *)
Definition read_record (acc : sources) (raw : mapping) : result sources :=
  if py_eq_str (field raw "record_kind") "assignment" then
    _ ← _validate_record raw assignment_fields;
    assignment_id ← _record_id raw "assignment_id";
    _ ← _record_id raw "event_id";
    created_at ← _record_timestamp raw "created_at_utc";
    agent ← _record_id raw "agent";
    Ok {| src_assignments := dict_set assignment_id
            {| as_id := assignment_id; as_created := created_at; as_agent := agent |}
            (src_assignments acc);
          src_events := src_events acc |}
  else if py_eq_str (field raw "record_kind") "event" then
    _ ← _validate_record raw event_fields;
    assignment_id ← _record_id raw "assignment_id";
    _ ← _record_id raw "event_id";
    at_utc ← _record_timestamp raw "at_utc";
    agent ← _record_id raw "agent";
    status ← match field raw "status" with
             | VStr s => _ ← require (bool_decide (s ∈ _EVENT_STATUSES))
                               (HiveEventError "hive_event_log_invalid"); Ok s
             | _ => Err (HiveEventError "hive_event_log_invalid")
             end;
    Ok {| src_assignments :=
            if dict_mem assignment_id (src_assignments acc) then src_assignments acc
            else dict_set assignment_id
                   {| as_id := assignment_id; as_created := at_utc; as_agent := agent |}
                   (src_assignments acc);
          src_events := src_events acc ++
            [{| ev_assignment := assignment_id; ev_at := at_utc; ev_agent := agent;
                ev_status := status |}] |}
  else Err (HiveEventError "hive_event_log_invalid").

Fixpoint read_records (acc : sources) (raws : list mapping) : result sources :=
  match raws with
  | [] => Ok acc
  | raw :: raws => acc ← read_record acc raw; read_records acc raws
  end.

Definition no_sources : sources := {| src_assignments := []; src_events := [] |}.

Definition read_report_sources (os : answers) : FilesM sources := λ fs,
  let '(fs, r) := read_bounded_jsonl _state os _EVENTS_PATH MAX_EVENT_RECORDS MAX_EVENT_BYTES fs in
  (fs, match r with
       | Ok records => read_records no_sources records
       | Err (HiveStateError m) =>
           if bool_decide (m = "state_not_found") then Ok no_sources
           else Err (HiveEventError "hive_event_log_unavailable")
       | Err e => Err e
       end).
End events.

(** ** Entries

    What the two writers produce, and what the reader makes of it. *)

Inductive entry :=
  | EAssignment (event_id assignment_id : string) (at_utc : datetime) (agent : string)
  | EEvent (event_id assignment_id : string) (at_utc : datetime) (agent status : string).

Definition entry_id (e : entry) : string :=
  match e with EAssignment i _ _ _ | EEvent i _ _ _ _ => i end.

Definition entry_record (e : entry) : mapping :=
  match e with
  | EAssignment i a t g => assignment_record i a (isoformat t) g
  | EEvent i a t g s => event_record i (isoformat t) a g s
  end.

Definition utc_time (t : datetime) : Prop := validate_utc_datetime t "event_timestamp" = Ok t.

Definition entry_wf (e : entry) : Prop :=
  match e with
  | EAssignment i a t g =>
      _IDENTIFIER_RE i = true ∧ _IDENTIFIER_RE a = true ∧ utc_time t ∧ _IDENTIFIER_RE g = true
  | EEvent i a t g s =>
      _IDENTIFIER_RE i = true ∧ _IDENTIFIER_RE a = true ∧ utc_time t ∧ _IDENTIFIER_RE g = true
      ∧ s ∈ _EVENT_STATUSES
  end.

(** The sources after one more entry. *)
Definition add_entry (acc : sources) (e : entry) : sources :=
  match e with
  | EAssignment _ a t g =>
      {| src_assignments := dict_set a {| as_id := a; as_created := isoformat t; as_agent := g |}
                              (src_assignments acc);
         src_events := src_events acc |}
  | EEvent _ a t g s =>
      {| src_assignments :=
           if dict_mem a (src_assignments acc) then src_assignments acc
           else dict_set a {| as_id := a; as_created := isoformat t; as_agent := g |}
                  (src_assignments acc);
         src_events := src_events acc ++
           [{| ev_assignment := a; ev_at := isoformat t; ev_agent := g; ev_status := s |}] |}
  end.

Lemma event_id_valid s f : _IDENTIFIER_RE s = true → _id (VStr s) f = Ok s.
Proof. intros H. unfold _id. cbn. by rewrite H. Qed.

Lemma event_id_Ok v f s : _id v f = Ok s → v = VStr s ∧ _IDENTIFIER_RE s = true.
Proof. unfold _id, event_validation. rewrite reraise_Ok. apply validate_identifier_Ok. Qed.

Lemma record_id_valid d k s :
  field d k = VStr s → _IDENTIFIER_RE s = true → _record_id d k = Ok s.
Proof. intros Hf Hs. unfold _record_id. by rewrite Hf, event_id_valid. Qed.

Lemma utc_time_spec t :
  utc_time t → dt_valid t = true ∧ dt_aware t = true ∧ dt_offset t = Some 0 ∧ 0 <= dt_utc t < MAX_LOCAL.
Proof.
  intros H. apply validate_utc_datetime_Ok in H as (Ha & Hr & Ht).
  assert (dt_offset t = Some 0) as Ho by by rewrite Ht.
  unfold dt_valid, dt_utc in *. rewrite Ho in *. split; [|done].
  rewrite !andb_true_iff. split; [|done]. cbn [default from_option id] in Hr. rewrite Z.sub_0_r in Hr. lia.
Qed.

Lemma isoformat_utc_length t : utc_time t → (1 <= String.length (isoformat t) <= 40)%nat.
Proof.
  intros (_ & _ & Ho & _)%utc_time_spec.
  unfold isoformat, time_str, offset_str, frac_str.
  destruct (civil_of_days _) as [[y m] dd]. rewrite Ho.
  repeat match goal with |- context [if ?b then _ else _] =>
    first [change b with true; cbv iota | change b with false; cbv iota | destruct b] end;
    rewrite ?length_append, ?length_digits; cbn; lia.
Qed.

Lemma record_timestamp_valid d k t :
  field d k = VStr (isoformat t) → utc_time t → _record_timestamp d k = Ok (isoformat t).
Proof.
  intros Hf Ht. unfold _record_timestamp. rewrite Hf. unfold py_len.
  pose proof (isoformat_utc_length t Ht). destruct (_ && _) eqn:E; [|lia].
  rewrite parse_isoformat by by apply utc_time_spec. by rewrite Ht.
Qed.

Lemma field_canonical d k :
  NoDup d.*1 → field (canonical_dict d) k = json_canonical (field d k).
Proof. intros Hn. unfold field. rewrite canonical_get by done. by destruct (dict_get k d). Qed.

(** Reading one entry back. *)
Lemma read_entry acc e :
  entry_wf e → read_record acc (canonical_dict (entry_record e)) = Ok (add_entry acc e).
Proof.
  assert (NoDup (entry_record e).*1) as Hnd by (destruct e; nodup_keys).
  assert (∀ fields, keys_exactly (canonical_dict (entry_record e)) fields
    = keys_exactly (entry_record e) fields) as Hk
    by (intros fields; apply keys_exactly_perm, canonical_keys).
  unfold read_record, _validate_record. rewrite !Hk. clear Hk.
  destruct e as [i a t g|i a t g s]; cbn [entry_record] in *; intros Hwf; rewrite !field_canonical by done.
  - destruct Hwf as (Hi & Ha & Ht & Hg).
    change (py_eq_str _ "assignment") with true. cbv iota.
    change (keys_exactly (assignment_record i a (isoformat t) g) assignment_fields) with true.
    change (require _ _) with (Ok ()). rewrite bind_ret.
    rewrite (record_id_valid _ "assignment_id" a) by first [done | rewrite field_canonical by done; reflexivity].
    rewrite bind_ret, (record_id_valid _ "event_id" i) by first [done | rewrite field_canonical by done; reflexivity].
    rewrite bind_ret, (record_timestamp_valid _ _ t) by first [done | rewrite field_canonical by done; reflexivity].
    rewrite bind_ret, (record_id_valid _ "agent" g) by first [done | rewrite field_canonical by done; reflexivity]. done.
  - destruct Hwf as (Hi & Ha & Ht & Hg & Hs).
    change (py_eq_str (json_canonical (field (event_record i (isoformat t) a g s) "record_kind"))
      "assignment") with false.
    change (py_eq_str _ "event") with true. cbv iota.
    change (keys_exactly (event_record i (isoformat t) a g s) event_fields) with true.
    change (require (true && _ && _) _) with (Ok ()). rewrite bind_ret.
    rewrite (record_id_valid _ "assignment_id" a) by first [done | rewrite field_canonical by done; reflexivity].
    rewrite bind_ret, (record_id_valid _ "event_id" i) by first [done | rewrite field_canonical by done; reflexivity].
    rewrite bind_ret, (record_timestamp_valid _ _ t) by first [done | rewrite field_canonical by done; reflexivity].
    rewrite bind_ret, (record_id_valid _ "agent" g) by first [done | rewrite field_canonical by done; reflexivity].
    rewrite bind_ret. change (json_canonical (field _ "status")) with (VStr s). cbv iota.
    rewrite bool_decide_eq_true_2 by done. done.
Qed.

Lemma read_entries es acc :
  Forall entry_wf es →
  read_records acc ((canonical_dict ∘ entry_record) <$> es) = Ok (foldl add_entry acc es).
Proof.
  intros H. revert acc. induction H as [|e es He _ IH]; intros acc; [done|].
  rewrite fmap_cons. cbn [read_records foldl].
  change ((canonical_dict ∘ entry_record) e) with (canonical_dict (entry_record e)).
  by rewrite read_entry, bind_ret, IH.
Qed.

Lemma entry_record_ok e : record_ok (entry_record e).
Proof.
  destruct e; (split; [|done]); (split; [nodup_keys|]); cbn; by split_and!.
Qed.

(** ** The size of a log *)

Lemma json_string_length s : (2 + String.length s <= String.length (json_string s))%nat.
Proof.
  unfold json_string, quote. rewrite !length_append. cbn.
  assert (String.length s <= String.length (json_chars s))%nat; [|lia].
  induction s as [|c s IH]; [done|]. cbn [json_chars String.length]. rewrite length_append.
  assert (1 <= String.length (json_char c))%nat; [|lia].
  destruct c as [[] [] [] [] [] [] [] []]; vm_compute; lia.
Qed.

Lemma isoformat_nonempty t : (1 <= String.length (isoformat t))%nat.
Proof. apply isoformat_length. Qed.

Lemma identifier_nonempty s : _IDENTIFIER_RE s = true → (1 <= String.length s)%nat.
Proof. destruct s; cbn; [done|lia]. Qed.

(** [literal_lengths] evaluates the lengths of the literal strings. *)
Ltac literal_length s :=
  let n := eval vm_compute in (String.length s) in change (String.length s) with n.
Ltac literal_lengths :=
  repeat match goal with
  | |- context [String.length (json_string (String ?c ?s))] => literal_length (json_string (String c s))
  | |- context [String.length (pretty 1)] => literal_length (pretty 1)
  | |- context [String.length (String ?c ?s)] => literal_length (String c s)
  end.

(** Every line has at least 128 bytes. *)
Lemma entry_line_length e : entry_wf e → 128 <= py_len (record_line (entry_record e)).
Proof.
  unfold record_line. rewrite json_dumps_dict. unfold py_len. intros Hwf.
  destruct e as [i a t g|i a t g s]; cbn [entry_record entry_wf] in *.
  - destruct Hwf as (Hi & Ha & _ & Hg).
    change (sort_by str_cmp fst (assignment_record i a (isoformat t) g)) with
      [("agent", VStr g); ("assignment_id", VStr a); ("created_at_utc", VStr (isoformat t));
       ("event_id", VStr i); ("raw_output", VStr "not_returned");
       ("record_kind", VStr "assignment"); ("schema_version", VInt 1)].
    cbn [fmap list_fmap]. unfold member_text. cbn [fst snd json_dumps py_join].
    pose proof (json_string_length g). pose proof (json_string_length a).
    pose proof (json_string_length i). pose proof (json_string_length (isoformat t)).
    apply identifier_nonempty in Hi, Ha, Hg. pose proof (isoformat_nonempty t).
    rewrite !length_append.
    literal_lengths. lia.
  - destruct Hwf as (Hi & Ha & _ & Hg & _).
    change (sort_by str_cmp fst (event_record i (isoformat t) a g s)) with
      [("agent", VStr g); ("assignment_id", VStr a); ("at_utc", VStr (isoformat t));
       ("event_id", VStr i); ("raw_output", VStr "not_returned");
       ("record_kind", VStr "event"); ("schema_version", VInt 1); ("status", VStr s)].
    cbn [fmap list_fmap]. unfold member_text. cbn [fst snd json_dumps py_join].
    pose proof (json_string_length g). pose proof (json_string_length a).
    pose proof (json_string_length i). pose proof (json_string_length (isoformat t)).
    apply identifier_nonempty in Hi, Ha, Hg. pose proof (isoformat_nonempty t).
    rewrite !length_append. literal_lengths. lia.
Qed.

Lemma json_string_bound s : (String.length (json_string s) <= 2 + 6 * String.length s)%nat.
Proof.
  unfold json_string, quote. rewrite !length_append. cbn.
  assert (String.length (json_chars s) <= 6 * String.length s)%nat; [|lia].
  induction s as [|c s IH]; [done|]. cbn [json_chars String.length]. rewrite length_append.
  assert (String.length (json_char c) <= 6)%nat; [|lia].
  destruct c as [[] [] [] [] [] [] [] []]; vm_compute; lia.
Qed.

Lemma identifier_bound s : _IDENTIFIER_RE s = true → (String.length s <= 128)%nat.
Proof.
  destruct s as [|c s]; cbn; [done|]. rewrite !andb_true_iff, Z.leb_le. unfold py_len. lia.
Qed.

Lemma status_bound s : s ∈ _EVENT_STATUSES → (String.length s <= 20)%nat.
Proof.
  intros H. unfold _EVENT_STATUSES in H.
  repeat (apply elem_of_cons in H as [->|H]; [cbn; lia|]). by apply elem_of_nil in H.
Qed.

(** ... and fits a document. *)
Lemma entry_line_bound e :
  entry_wf e → py_len (record_line (entry_record e)) < MAX_HIVE_STATE_BYTES.
Proof.
  unfold record_line, MAX_HIVE_STATE_BYTES. rewrite json_dumps_dict. unfold py_len. intros Hwf.
  destruct e as [i a t g|i a t g s]; cbn [entry_record entry_wf] in *.
  - destruct Hwf as (Hi & Ha & Ht & Hg).
    change (sort_by str_cmp fst (assignment_record i a (isoformat t) g)) with
      [("agent", VStr g); ("assignment_id", VStr a); ("created_at_utc", VStr (isoformat t));
       ("event_id", VStr i); ("raw_output", VStr "not_returned");
       ("record_kind", VStr "assignment"); ("schema_version", VInt 1)].
    cbn [fmap list_fmap]. unfold member_text. cbn [fst snd json_dumps py_join].
    pose proof (json_string_bound g). pose proof (json_string_bound a).
    pose proof (json_string_bound i). pose proof (json_string_bound (isoformat t)).
    apply identifier_bound in Hi, Ha, Hg. apply isoformat_utc_length in Ht.
    rewrite !length_append. literal_lengths. lia.
  - destruct Hwf as (Hi & Ha & Ht & Hg & Hs).
    change (sort_by str_cmp fst (event_record i (isoformat t) a g s)) with
      [("agent", VStr g); ("assignment_id", VStr a); ("at_utc", VStr (isoformat t));
       ("event_id", VStr i); ("raw_output", VStr "not_returned");
       ("record_kind", VStr "event"); ("schema_version", VInt 1); ("status", VStr s)].
    cbn [fmap list_fmap]. unfold member_text. cbn [fst snd json_dumps py_join].
    pose proof (json_string_bound g). pose proof (json_string_bound a).
    pose proof (json_string_bound i). pose proof (json_string_bound (isoformat t)).
    pose proof (json_string_bound s).
    apply identifier_bound in Hi, Ha, Hg. apply isoformat_utc_length in Ht.
    apply status_bound in Hs. rewrite !length_append. literal_lengths. lia.
Qed.

(** ** The event log *)

Definition EVENTS : string := "events.jsonl".
Definition entry_lines (es : list entry) : string := log_text (record_line ∘ entry_record <$> es).

Record event_log (fs : files) (es : list entry) : Prop := {
  log_file : log_at fs EVENTS (entry_record <$> es);
  log_entries : Forall entry_wf es;
  log_size : py_len (entry_lines es) <= MAX_EVENT_BYTES;
}.

Lemma entry_lines_snoc es e :
  py_len (entry_lines (es ++ [e]))
  = py_len (entry_lines es) + py_len (record_line (entry_record e)) + 1.
Proof.
  unfold entry_lines, py_len. induction es as [|x es IH].
  - cbn [app fmap list_fmap]. rewrite log_text_cons, !length_append. cbn. unfold compose. lia.
  - cbn [app]. rewrite !fmap_cons, !log_text_cons, !length_append. lia.
Qed.

Lemma entry_lines_length es :
  Forall entry_wf es → 129 * Z.of_nat (length es) <= py_len (entry_lines es).
Proof.
  induction 1 as [|e es He _ IH]; [done|]. unfold entry_lines, py_len in *.
  rewrite fmap_cons, log_text_cons, !length_append. cbn [length newline String.length].
  pose proof (entry_line_length e He) as Hl. unfold py_len in Hl.
  change ((record_line ∘ entry_record) e) with (record_line (entry_record e)). lia.
Qed.

(** The byte limit is reached before the limit on records. *)
Lemma event_log_length fs es : event_log fs es → Z.of_nat (length es) < MAX_EVENT_RECORDS.
Proof.
  intros [_ Hwf Hsize]. apply entry_lines_length in Hwf.
  unfold MAX_EVENT_BYTES, MAX_EVENT_RECORDS in *. lia.
Qed.

Lemma same_event_entries x e :
  same_event (canonical_dict (entry_record x)) (entry_record e)
  = bool_decide (entry_id x = entry_id e).
Proof.
  unfold same_event.
  assert (field (entry_record e) "event_id" = VStr (entry_id e)) as -> by by destruct e.
  rewrite field_canonical by (destruct x; nodup_keys).
  by destruct x.
Qed.

Lemma existsb_same_event es e :
  existsb (λ item, same_event item (entry_record e)) ((canonical_dict ∘ entry_record) <$> es)
  = existsb (λ x, bool_decide (entry_id x = entry_id e)) es.
Proof.
  induction es as [|x es IH]; [done|]. rewrite fmap_cons. cbn [existsb].
  change ((canonical_dict ∘ entry_record) x) with (canonical_dict (entry_record x)).
  by rewrite same_event_entries, IH.
Qed.

Section log.
#[local] Set Default Proof Using "Type*".
Context (self : HiveStateStore) (Hself : _read_only self = false).

Lemma read_event_log os fs es :
  directory_answer os = Ok () → event_log fs es →
  read_bounded_jsonl_locked self os _EVENTS_PATH MAX_EVENT_RECORDS MAX_EVENT_BYTES fs =
    (fs, Ok ((canonical_dict ∘ entry_record) <$> es)).
Proof.
  intros Hd Hlog. pose proof (event_log_length _ _ Hlog) as Hlen. destruct Hlog as [Hf Hwf Hs].
  unfold _EVENTS_PATH. rewrite (read_log self ["events.jsonl"] os fs (entry_record <$> es)); try done.
  - rewrite length_fmap, (proj2 (Z.leb_le _ _)) by lia. by rewrite list_fmap_compose.
  - apply Forall_fmap, Forall_true. intros e. apply entry_record_ok.
  - by rewrite <- list_fmap_compose.
  - by rewrite Hself.
Qed.

Lemma append_event_log os fs es e :
  event_log fs es → entry_wf e →
  lock_answer (outer os) = Ok () → directory_answer (outer os) = Ok () →
  lock_answer (inner os) = Ok () → directory_answer (inner os) = Ok () →
  write_answered (inner os) = Written →
  _append self os (entry_record e) fs =
    if existsb (λ x, bool_decide (entry_id x = entry_id e)) es then (fs, Ok ())
    else if MAX_EVENT_BYTES <? py_len (entry_lines (es ++ [e]))
    then (fs, Err (HiveEventError "hive_event_write_failed"))
    else (dict_set EVENTS (Regular true (entry_lines (es ++ [e]))) fs, Ok ()).
Proof.
  intros Hlog He Hl Hd Hl' Hd' Hw. unfold _append, state_failure, locked.
  rewrite Hl. rewrite st_bind_eq. unfold st_lift at 1.
  rewrite st_bind_eq, (read_event_log (outer os) fs es) by done.
  rewrite existsb_same_event. destruct (existsb _ es); [done|].
  pose proof (event_log_length _ _ Hlog) as Hlen. destruct Hlog as [Hf Hwf Hs].
  unfold _EVENTS_PATH.
  rewrite (append_log self ["events.jsonl"] (inner os) fs (entry_record <$> es)); try done.
  - cbv zeta. unfold kept_records.
    rewrite length_fmap, (proj2 (Z.leb_gt _ _)) by done.
    assert ((entry_record <$> es) ++ [entry_record e] = entry_record <$> (es ++ [e])) as ->
      by by rewrite fmap_app.
    rewrite <- list_fmap_compose. fold (entry_lines (es ++ [e])).
    by destruct (MAX_EVENT_BYTES <? _).
  - apply Forall_fmap, Forall_true. intros x. apply entry_record_ok.
  - apply entry_record_ok.
  - by rewrite <- list_fmap_compose.
  - by apply entry_line_bound.
Qed.
End log.

(** ** The writers produce entries *)

Lemma timestamp_Ok d s : _timestamp d = Ok s → ∃ t, utc_time t ∧ s = isoformat t.
Proof.
  unfold _timestamp, event_validation. intros (t & Ht & [= <-])%bind_Ok. apply reraise_Ok in Ht.
  exists t. split; [|done]. apply validate_utc_datetime_Ok in Ht as (Ha & Hr & ->).
  apply validate_utc_datetime_Ok.
  assert (dt_utc (Datetime (dt_utc d) (Some 0)) = dt_utc d) as ->
    by (unfold dt_utc at 1; cbn; lia). done.
Qed.

Lemma queue_record_entry wp st at_utc now d r a i record :
  queue_record wp st at_utc now d r a i = Ok record →
  ∃ e, entry_wf e ∧ record = entry_record e.
Proof.
  unfold queue_record. intros (w & Hw & H)%bind_Ok. apply bind_Ok in H as (s & Hs & H).
  apply bind_Ok in H as (? & _ & H). apply bind_Ok in H as (? & _ & H).
  apply bind_Ok in H as (g & Hg & H). apply bind_Ok in H as (m & Hm & H).
  apply bind_Ok in H as (k & Hk & [= <-]).
  apply event_id_Ok in Hw as [_ Hw], Hg as [_ Hg], Hk as [_ Hk].
  apply timestamp_Ok in Hm as (t & Ht & ->).
  exists (EEvent k w t g s). split; [|done]. split_and!; try done.
  destruct st; try done. inv_result. by apply bool_decide_eq_true in H.
Qed.

Lemma task_id_valid w d c s : _task_id w d c = Ok s → _IDENTIFIER_RE s = true.
Proof. unfold _task_id. by intros [_ ?]%event_id_Ok. Qed.

Lemma report_status_event m :
  msg_message_type m ∈ REPORT_MESSAGE_TYPES → _report_status m ∈ _EVENT_STATUSES.
Proof.
  intros Ht. unfold _report_status.
  assert ((if bool_decide (msg_message_type m = "escalation") then "blocked"
    else if bool_decide (msg_message_type m = "decision.request") then "decision_required"
    else if bool_decide (msg_message_type m ∈ ["result.report"; "completion"]) then "completed"
    else if bool_decide (msg_message_type m = "progress.report") then "executing"
    else "unknown") ∈ _EVENT_STATUSES) as Hfallback.
  { unfold REPORT_MESSAGE_TYPES in Ht.
    repeat (apply elem_of_cons in Ht as [Ht|Ht];
      [rewrite Ht; apply (bool_decide_unpack _); vm_compute; exact I|]).
    by apply elem_of_nil in Ht. }
  cbv zeta. destruct (get "status" (msg_payload m)) as [| | | |value| |]; try exact Hfallback.
  destruct (bool_decide (value ∈ REPORT_STATUSES)) eqn:Hv; [|exact Hfallback].
  destruct (bool_decide (value = "unknown")) eqn:Hu; [exact Hfallback|]. cbn [andb negb].
  apply bool_decide_eq_true in Hv. apply bool_decide_eq_false in Hu.
  unfold REPORT_STATUSES in Hv.
  repeat (apply elem_of_cons in Hv as [->|Hv];
    [first [done | apply (bool_decide_unpack _); vm_compute; exact I]|]).
  by apply elem_of_nil in Hv.
Qed.

Lemma message_ids m :
  message_ok m →
  _IDENTIFIER_RE (msg_message_id m) = true
  ∧ _IDENTIFIER_RE (ref_principal_id (msg_sender m)) = true
  ∧ _IDENTIFIER_RE (ref_principal_id (msg_recipient m)) = true.
Proof.
  intros [Hf Hs Hr _ _ _ _].
  assert (∀ p : PrincipalReference, PrincipalReference_new (VStr (ref_principal_id p))
    (VStr (ref_class_id p)) = Ok p → _IDENTIFIER_RE (ref_principal_id p) = true) as Hp.
  { intros p H. unfold PrincipalReference_new in H. apply bind_Ok in H as (x & Hx & _).
    by apply _id_value in Hx as [[= <-] ?]. }
  split_and!; [|by apply Hp..].
  unfold HiveMessage_new in Hf. apply bind_Ok in Hf as (? & _ & Hf).
  apply bind_Ok in Hf as (mid & Hm & Hf). by apply _id_value in Hm as [[= <-] ?].
Qed.

Lemma message_record_entry m record :
  message_ok m → message_record m = Ok record → ∃ e, entry_wf e ∧ record = entry_record e.
Proof.
  intros (Hi & Hs & Hr)%message_ids H. unfold message_record in H.
  case_bool_decide as Ha; [|case_bool_decide as Hrep; [|done]].
  - apply bind_Ok in H as (a & Hw%task_id_valid & H). apply bind_Ok in H as (s & Ht & [= <-]).
    apply timestamp_Ok in Ht as (t & Ht & ->).
    by exists (EAssignment (msg_message_id m) a t (ref_principal_id (msg_recipient m))).
  - apply bind_Ok in H as (report & Hrp & H). apply reraise_Ok in Hrp.
    apply bind_Ok in H as (s & Ht & H). apply bind_Ok in H as (a & Hw%task_id_valid & [= <-]).
    apply timestamp_Ok in Ht as (t & Ht & ->).
    exists (EEvent (msg_message_id m) a t (ref_principal_id (msg_sender m)) (_report_status m)).
    split; [split_and!; try done; by apply report_status_event|].
    unfold record_child_report in Hrp. apply bind_Ok in Hrp as (? & _ & [= <-]). done.
Qed.

(** ** Properties *)

Definition granted (os : answers_pair) : Prop :=
  lock_answer (outer os) = Ok () ∧ directory_answer (outer os) = Ok ()
  ∧ lock_answer (inner os) = Ok () ∧ directory_answer (inner os) = Ok ()
  ∧ write_answered (inner os) = Written.

(** A record one of the two writers built. *)
Inductive written_record : mapping → Prop :=
  | from_message m record :
      message_ok m → message_record m = Ok record → written_record record
  | from_transition wp st at_utc now d r a i record :
      queue_record wp st at_utc now d r a i = Ok record → written_record record.

(** The event log on every branch.  Whatever message or queue transition
    is appended, its record is an entry [e] the reader accepts.  Appended to a
    log of entries [es]: if the log has an event of that identifier the file
    is left alone; if the new line would take the file over 512 KiB the call
    raises; otherwise the line is added at the end, and reading the report
    sources gives those of [es] with [e] added.  A log holds fewer than 4096
    events, for every line has at least 128 bytes: the oldest events are never
    dropped, and a full log refuses all further events. *)
Theorem event_store_append :
  (∀ record, written_record record → ∃ e, record = entry_record e ∧ entry_wf e)
  ∧ ∀ self os fs es e,
    _read_only self = false → event_log fs es → granted os → entry_wf e →
    Z.of_nat (length es) < MAX_EVENT_RECORDS ∧
    let '(fs', r) := _append self os (entry_record e) fs in
    if existsb (λ x, bool_decide (entry_id x = entry_id e)) es then fs' = fs ∧ r = Ok ()
    else if MAX_EVENT_BYTES <? py_len (entry_lines (es ++ [e]))
    then fs' = fs ∧ r = Err (HiveEventError "hive_event_write_failed")
    else r = Ok () ∧ event_log fs' (es ++ [e])
         ∧ (read_report_sources self (outer os) fs').2
           = Ok (foldl add_entry no_sources (es ++ [e])).
Proof.
  split.
  { intros record Hrec.
    destruct Hrec as [m record Hm H|wp st at_utc now d r a i record H];
      [apply message_record_entry in H as (e & ? & ->); [|done]
      |apply queue_record_entry in H as (e & ? & ->)]; by exists e. }
  intros self os fs es e Hself Hlog (Hl & Hd & Hl' & Hd' & Hw) He.
  split; [by eapply event_log_length|].
  rewrite (append_event_log self Hself os fs es e) by done.
  destruct (existsb _ es); [done|].
  destruct (Z.ltb_spec MAX_EVENT_BYTES (py_len (entry_lines (es ++ [e])))) as [|Hsize]; [done|].
  split; [done|].
  assert (event_log (dict_set EVENTS (Regular true (entry_lines (es ++ [e]))) fs) (es ++ [e])) as H.
  { destruct Hlog as [_ Hwf _].
    split; [|apply Forall_app; split; [done|by apply Forall_cons_2]|done].
    right. exists true. by rewrite node_at_set, <- list_fmap_compose. }
  split; [done|]. unfold read_report_sources, read_bounded_jsonl, locked.
  change (_validate_jsonl_limits MAX_EVENT_RECORDS MAX_EVENT_BYTES) with (Ok ()).
  rewrite st_bind_eq. unfold st_lift at 1. rewrite Hl, st_bind_eq. unfold st_lift at 1.
  rewrite (read_event_log self Hself (outer os) _ (es ++ [e])) by done. cbn [snd].
  apply read_entries. by destruct H.
Qed.

Definition sample_entry : entry :=
  EEvent "e-1" "wp-1" (Datetime 63900000000000000 (Some 0)) "bee" "queued".
Definition sample_done : entry :=
  EEvent "e-2" "wp-1" (Datetime 63900000060000000 (Some 0)) "bee" "completed".
Definition sample_events : files := [(EVENTS, Regular true (entry_lines [sample_entry]))].
Definition sample_answers : answers_pair := {| outer := all_granted; inner := all_granted |}.

Lemma event_store_append_witness :
  (read_report_sources sample_store all_granted
     (_append sample_store sample_answers (entry_record sample_done) sample_events).1).2
  = Ok (foldl add_entry no_sources [sample_entry; sample_done]).
Proof.
  assert (event_log sample_events [sample_entry]) as Hlog.
  { split; [right; by exists true| |by vm_compute].
    apply Forall_cons_2; [|apply Forall_nil_2]. split_and!; try reflexivity.
    apply (bool_decide_unpack _). by vm_compute. }
  assert (entry_wf sample_done) as Hwf.
  { split_and!; try reflexivity. apply (bool_decide_unpack _). by vm_compute. }
  pose proof (proj2 event_store_append sample_store sample_answers sample_events [sample_entry]
    sample_done eq_refl Hlog ltac:(by repeat split) Hwf) as [_ H].
  destruct (_append sample_store sample_answers (entry_record sample_done) sample_events) as [fs' r].
  assert (MAX_EVENT_BYTES <? py_len (entry_lines ([sample_entry] ++ [sample_done])) = false)
    as Hsize by by vm_compute.
  rewrite Hsize in H. exact (proj2 (proj2 H)).
Defined.
