(* ===== verification/AdmissionJournal.v ===== *)
(** * Completion evidence

    [FileCompletionJournal] of [src/src/the_hive/admission_journal.py]: the
    durable journal behind the runtime's [CompletionJournal] interface, over
    [HiveStateStore] and, when configured, the event log.  The world of the
    journal holds both file trees, the answers of the operating system and the
    clock's reading. *)

From S2P Require Import Prelude PyTime Order DynamicPool Json JsonText Sha256 Admission AdmissionRuntime HiveState HiveTypes HiveMessages HiveEvents.
#[local] Open Scope Z_scope.

Definition MAX_JOURNAL_RECORDS : Z := 4096.
Definition MAX_OPERATION_LENGTH : Z := 128.
Definition _JOURNAL_RELATIVE_PATH : option (list string) := Some ["admission-completion.json"].

(** ** Digests *)

Definition _is_digest (value : pyval) : bool :=
  match value with
  | VStr s =>
      startswith "sha256:" s && (py_len s =? 71)
      && string_forallb is_hex_lower (String.substring 7 (String.length s - 7) s)
  | _ => false
  end.

Definition _digest (value : string) : string := "sha256:" +:+ sha256_hex value.

Definition _admission_binding_digest (a : AdmissionRecord) : string :=
  let payload := VDict
    [ ("schema_version", schema_version a);
      ("admission_id", VStr (admission_id a));
      ("request_id", VStr (request_id a));
      ("dispatch_id", VStr (dispatch_id a));
      ("workpackage_id", VStr (workpackage_id a));
      ("assignment_intent_id", VStr (assignment_intent_id a));
      ("repo_id", VStr (repo_id a));
      ("principal_digest", VStr (_digest (principal_id a)));
      ("parent_principal_digest", VStr (_digest (parent_principal_id a)));
      ("grant_id", VStr (grant_id a));
      ("grant_digest", VStr (grant_digest a));
      ("work_item_version", VInt (work_item_version a));
      ("scope", VDict [("mode", VStr (mode (scope a)));
                       ("digest", VStr (canonical_digest (scope a)))]);
      ("resource", VDict
        [ ("agent_id", VStr (agent_id (resource a)));
          ("account_digest", VStr (_digest (account_key (resource a))));
          ("budget_key", VStr (budget_key (resource a)));
          ("model_id", VStr (model_id (resource a)));
          ("expected_usage_micro", VInt (expected_usage_micro (resource a))) ]);
      ("lease", VDict
        [ ("expected_state", VStr (expected_state (lease_context a)));
          ("lease_digest", match lease_id (lease_context a) with
                           | Some lease => VStr (_digest lease)
                           | None => VNone
                           end) ]);
      ("priority", VDict
        [ ("dispatch", VStr (dispatch (priority a)));
          ("selection_reason", VStr (selection_reason (priority a))) ]) ] in
  _digest (json_dumps payload).

(** [type(result).__name__] of a mapping: the model's mappings are dicts. *)
Definition _result_shape_digest (result : pyval) : string := _digest "dict".

(** ** The world *)

Record world := {
  w_files : files;
  w_event_files : files;
  w_os : answers;
  w_event_os : answers_pair;
  w_now : datetime;
}.

Abbreviation WorldM := (ST world).

Definition with_files (w : world) (fs : files) : world :=
  {| w_files := fs; w_event_files := w_event_files w; w_os := w_os w;
     w_event_os := w_event_os w; w_now := w_now w |}.
Definition with_event_files (w : world) (fs : files) : world :=
  {| w_files := w_files w; w_event_files := fs; w_os := w_os w;
     w_event_os := w_event_os w; w_now := w_now w |}.

Definition on_files {A} (m : FilesM A) : WorldM A := λ w,
  let '(fs, r) := m (w_files w) in (with_files w fs, r).
Definition on_event_files {A} (m : FilesM A) : WorldM A := λ w,
  let '(fs, r) := m (w_event_files w) in (with_event_files w fs, r).

(** The journal: its state store and, optionally, an event store. *)
Record FileCompletionJournal := {
  _state : HiveStateStore;
  _events : option HiveStateStore;
}.

Section journal.
Context (self : FileCompletionJournal).

Definition operation_ok (operation : string) : bool :=
  (1 <=? py_len operation) && (py_len operation <=? MAX_OPERATION_LENGTH)
  && negb (has_control operation).

Definition _validate_inputs (operation : string) : result () :=
  require (operation_ok operation) (CompletionJournalError "invalid_completion_operation").

Definition journal_fields : list string :=
  [ "admission_id"; "revision"; "binding_digest"; "operation_digest"; "state";
    "result_shape_digest"; "updated_at_utc" ].

(** The checks on one stored record, in the order of the [or]; the lookup of
    the state in a set raises on an unhashable value. *)
Definition journal_record_ok (raw : mapping) : result bool :=
  match field raw "admission_id", field raw "revision" with
  | VStr (String _ _), VInt revision =>
      if (revision <? 0) || negb (_is_digest (field raw "binding_digest")) then Ok false
      else
        known ← py_in_set (field raw "state") ["started"; "completed"];
        Ok (known && _is_digest (field raw "operation_digest")
            && (is_VNone (field raw "result_shape_digest")
                || _is_digest (field raw "result_shape_digest"))
            && match field raw "updated_at_utc" with VStr _ => true | _ => false end)
  | _, _ => Ok false
  end.

Fixpoint load_records (acc : list (string * mapping)) (raws : list pyval)
  : result (list (string * mapping)) :=
  match raws with
  | [] => Ok acc
  | VDict raw :: raws =>
      _ ← require (keys_exactly raw journal_fields)
            (CompletionJournalError "completion_journal_invalid");
      ok ← journal_record_ok raw;
      _ ← require ok (CompletionJournalError "completion_journal_invalid");
      match field raw "admission_id" with
      | VStr admission_id =>
          _ ← require (negb (dict_mem admission_id acc))
                (CompletionJournalError "duplicate_completion_admission");
          load_records (dict_set admission_id raw acc) raws
      | _ => Err (CompletionJournalError "completion_journal_invalid")
      end
  | _ :: _ => Err (CompletionJournalError "completion_journal_invalid")
  end.

(** The document of [read_json_locked], or its [HiveStateError]. *)
Definition journal_document (read : result mapping) : result (list (string * mapping)) :=
  match read with
  | Err (HiveStateError m) =>
      if bool_decide (m = "state_not_found") then Ok []
      else Err (CompletionJournalError "completion_journal_invalid")
  | Err e => Err e
  | Ok payload =>
      match py_eq_int (field payload "schema_version") 1, field payload "records" with
      | true, VList raws =>
          _ ← require (Z.of_nat (length raws) <=? MAX_JOURNAL_RECORDS)
                (CompletionJournalError "completion_journal_full");
          load_records [] raws
      | _, _ => Err (CompletionJournalError "completion_journal_invalid")
      end
  end.

Definition _load_locked : WorldM (list (string * mapping)) := λ w,
  let '(w, read) :=
    on_files (read_json_locked (_state self) (w_os w) _JOURNAL_RELATIVE_PATH (4 * 1024 * 1024)) w in
  (w, journal_document read).

Definition journal_payload (records : list (string * mapping)) : pyval :=
  VDict [("schema_version", VInt 1); ("records", VList (VDict <$> dict_values records))].

Definition _write_locked (records : list (string * mapping)) : WorldM () := λ w,
  let '(w, r) :=
    on_files (replace_json_locked (_state self) (w_os w) _JOURNAL_RELATIVE_PATH
                (journal_payload records) None) w in
  (w, reraise (λ e, match e with HiveStateError _ => true | _ => false end)
        (λ _, CompletionJournalError "completion_journal_write_failed") r).

(** [self._timestamp()]. *)
Definition journal_timestamp : WorldM string := λ w,
  (w, if dt_aware (w_now w) then d ← dt_astimezone_utc (w_now w); Ok (isoformat d)
      else Err (CompletionJournalError "completion_clock_unavailable")).

Definition _started_payload (a : AdmissionRecord) (operation : string) : WorldM mapping :=
  now ← journal_timestamp;
  mret [ ("admission_id", VStr (admission_id a)); ("revision", VInt (revision a));
         ("binding_digest", VStr (_admission_binding_digest a));
         ("operation_digest", VStr (_digest operation)); ("state", VStr "started");
         ("result_shape_digest", VNone); ("updated_at_utc", VStr now) ].

Definition event_digest (a : AdmissionRecord) (status : string) : string :=
  String.substring 0 24 (sha256_hex (admission_id a +:+ (NUL +:+ status))).

Definition _record_event (a : AdmissionRecord) (status : string) : WorldM () :=
  match _events self with
  | None => mret ()
  | Some events => λ w,
      let '(w, r) :=
        on_event_files
          (append_queue_transition events (w_event_os w) (VStr (workpackage_id a)) (VStr status)
             (Some (w_now w)) (w_now w) (VStr (dispatch_id a)) (VStr (repo_id a))
             (VStr (agent_id (resource a)))
             (Some ("admission-" +:+ event_digest a status))) w in
      (w, reraise (λ e, match e with HiveEventError _ => true | _ => false end)
            (λ _, CompletionJournalError "completion_event_write_failed") r)
  end.

(** [with self._state.locked(): body]. *)
Definition journal_locked {A} (body : WorldM A) : WorldM A := λ w,
  match lock_answer (w_os w) with Ok _ => body w | Err e => (w, Err e) end.

(** [current[k] != value]. *)
Definition same_revision (current : mapping) (a : AdmissionRecord) : bool :=
  py_eq_int (field current "revision") (revision a).
Definition same_binding (current : mapping) (a : AdmissionRecord) : bool :=
  py_eq_str (field current "binding_digest") (_admission_binding_digest a).
Definition same_operation (current : mapping) (operation : string) : bool :=
  py_eq_str (field current "operation_digest") (_digest operation).
Definition is_completed (current : mapping) : bool :=
  py_eq_str (field current "state") "completed".

Definition conflict {A} (code : string) : result A := Err (CompletionJournalError code).

Definition record_started (a : AdmissionRecord) (operation : string) : WorldM () :=
  _ ← st_lift (_validate_inputs operation);
  written ← journal_locked
    (records ← _load_locked;
     match dict_get (admission_id a) records with
     | Some current =>
         _ ← st_lift (require (same_revision current a)
                        (CompletionJournalError "completion_revision_conflict"));
         _ ← st_lift (require (same_binding current a)
                        (CompletionJournalError "completion_binding_conflict"));
         _ ← st_lift (require (negb (is_completed current))
                        (CompletionJournalError "completion_already_recorded"));
         _ ← st_lift (require (same_operation current operation)
                        (CompletionJournalError "completion_operation_conflict"));
         _ ← _record_event a "executing";
         mret false
     | None =>
         _ ← st_lift (require (Z.of_nat (length records) <? MAX_JOURNAL_RECORDS)
                        (CompletionJournalError "completion_journal_full"));
         payload ← _started_payload a operation;
         _ ← _write_locked (dict_set (admission_id a) payload records);
         mret true
     end);
  match written with
  | true => _record_event a "executing"
  | false => mret ()
  end.

(** [{**current, "state": ..., "result_shape_digest": ..., "updated_at_utc": ...}]. *)
Definition completed_payload (current : mapping) (result : pyval) (now : string) : mapping :=
  dict_set "updated_at_utc" (VStr now)
    (dict_set "result_shape_digest" (VStr (_result_shape_digest result))
       (dict_set "state" (VStr "completed") current)).

Definition record_completed (a : AdmissionRecord) (operation : string) (result : pyval)
  : WorldM () :=
  _ ← st_lift (_validate_inputs operation);
  _ ← st_lift (match result with
               | VDict _ => Ok ()
               | _ => conflict "invalid_completion_result"
               end);
  written ← journal_locked
    (records ← _load_locked;
     match dict_get (admission_id a) records with
     | None => st_lift (conflict "completion_start_missing")
     | Some current =>
         _ ← st_lift (require (same_revision current a)
                        (CompletionJournalError "completion_revision_conflict"));
         _ ← st_lift (require (same_binding current a)
                        (CompletionJournalError "completion_binding_conflict"));
         _ ← st_lift (require (same_operation current operation)
                        (CompletionJournalError "completion_operation_conflict"));
         match is_completed current with
         | true => _ ← _record_event a "completed"; mret false
         | false =>
             now ← journal_timestamp;
             _ ← _write_locked
                   (dict_set (admission_id a) (completed_payload current result now) records);
             mret true
         end
     end);
  match written with
  | true => _record_event a "completed"
  | false => mret ()
  end.

(** [except (CompletionJournalError, HiveStateError, OSError, TypeError, ValueError)]. *)
Definition completion_handled (e : exn) : bool :=
  match e with CompletionJournalError _ => true | _ => false end
  || is_os_error e || is_type_error e || is_value_error e.

Definition execution_completed (a : AdmissionRecord) : WorldM bool := λ w,
  let '(w, r) := journal_locked _load_locked w in
  (w, match r with
      | Err e => if completion_handled e then Ok false else Err e
      | Ok records =>
          Ok match dict_get (admission_id a) records with
             | Some record => is_completed record && same_revision record a && same_binding record a
             | None => false
             end
      end).

Definition status (admission_id : pyval) : WorldM mapping :=
  match admission_id with
  | VStr (String c s) =>
      records ← journal_locked _load_locked;
      mret match dict_get (String c s) records with
           | None => [("present", VBool false); ("state", VStr "unknown");
                      ("raw_output", VStr "not_returned")]
           | Some record =>
               [("present", VBool true); ("revision", field record "revision");
                ("state", field record "state"); ("raw_output", VStr "not_returned")]
           end
  | _ => st_lift (conflict "invalid_completion_admission")
  end.

(** The runtime's interface, implemented. *)
Definition file_journal : CompletionJournal world :=
  {| AdmissionRuntime.record_started := record_started;
     AdmissionRuntime.record_completed := record_completed;
     AdmissionRuntime.journal_execution_completed := execution_completed |}.
End journal.

(** ** The journal as a table *)

Record jentry := {
  je_id : string;
  je_revision : Z;
  je_binding : string;
  je_operation : string;
  je_completed : bool;
  je_shape : option string;
  je_updated : string;
}.

Abbreviation table := (list (string * jentry)).

(** A record as [json] reads it back: its keys in order. *)
Definition stored (e : jentry) : mapping :=
  [ ("admission_id", VStr (je_id e)); ("binding_digest", VStr (je_binding e));
    ("operation_digest", VStr (je_operation e)); ("result_shape_digest", opt_str (je_shape e));
    ("revision", VInt (je_revision e));
    ("state", VStr (if je_completed e then "completed" else "started"));
    ("updated_at_utc", VStr (je_updated e)) ].

(** A record as [_started_payload] lists it. *)
Definition listed (e : jentry) : mapping :=
  [ ("admission_id", VStr (je_id e)); ("revision", VInt (je_revision e));
    ("binding_digest", VStr (je_binding e)); ("operation_digest", VStr (je_operation e));
    ("state", VStr (if je_completed e then "completed" else "started"));
    ("result_shape_digest", opt_str (je_shape e)); ("updated_at_utc", VStr (je_updated e)) ].

Definition is_hex_digest (s : string) : Prop := _is_digest (VStr s) = true.

Record jentry_wf (e : jentry) : Prop := {
  je_id_nonempty : je_id e ≠ "";
  je_revision_range : 0 <= je_revision e < INT_BOUND;
  je_binding_digest : is_hex_digest (je_binding e);
  je_operation_digest : is_hex_digest (je_operation e);
  je_shape_digest : ∀ s, je_shape e = Some s → is_hex_digest s;
}.

Record table_wf (J : table) : Prop := {
  table_nodup : NoDup (dict_keys J);
  table_entries : ∀ k e, dict_get k J = Some e → je_id e = k ∧ jentry_wf e;
  table_length : Z.of_nat (length J) <= MAX_JOURNAL_RECORDS;
}.

Definition stored_records (J : table) : list (string * mapping) :=
  (λ p, (p.1, stored p.2)) <$> J.

Definition JOURNAL : string := "admission-completion.json".
Definition journal_text (J : table) : string :=
  json_dumps (journal_payload (stored_records J)) +:+ newline.

(** The state file holds the table. *)
Definition journal_at (fs : files) (J : table) : Prop :=
  table_wf J ∧
  ((node_at fs JOURNAL = Missing ∧ J = [])
   ∨ ∃ trusted, node_at fs JOURNAL = Regular trusted (journal_text J)
       ∧ py_len (journal_text J) <= MAX_HIVE_STATE_BYTES).

Lemma stored_listed e : json_dumps (VDict (listed e)) = json_dumps (VDict (stored e)).
Proof. reflexivity. Qed.

Lemma canonical_stored e : canonical_dict (stored e) = stored e.
Proof. destruct e as [i r b o c [s|] u]; reflexivity. Qed.

(** ** Tables of related values *)

Section dict_map.
Context {V W : Type} (f : V → W).
Abbreviation map_values := (fmap (M := list) (λ p : string * V, (p.1, f p.2))).

Lemma dict_get_map k (d : list (string * V)) : dict_get k (map_values d) = f <$> dict_get k d.
Proof. induction d as [|[k' v] d IH]; [done|]. cbn. by case_bool_decide. Qed.

Lemma dict_set_map k v (d : list (string * V)) :
  dict_set k (f v) (map_values d) = map_values (dict_set k v d).
Proof. induction d as [|[k' v'] d IH]; [done|]. cbn. case_bool_decide; cbn; [done|]. by rewrite IH. Qed.

Lemma dict_keys_map (d : list (string * V)) : dict_keys (map_values d) = dict_keys d.
Proof. unfold dict_keys. by rewrite <- list_fmap_compose. Qed.
End dict_map.

(** ** Digests *)

Lemma string_drop_app p s :
  String.substring (String.length p) (String.length (p +:+ s) - String.length p) (p +:+ s) = s.
Proof.
  rewrite length_append. replace (String.length p + String.length s - String.length p)%nat
    with (String.length s) by lia.
  induction p as [|c p IH]; [|rewrite append_cons; exact IH]. rewrite append_nil_l.
  cbn. induction s as [|c s IH]; [done|]. cbn. by rewrite IH.
Qed.

Lemma digest_is_digest s : is_hex_digest (_digest s).
Proof.
  unfold is_hex_digest, _is_digest, _digest.
  rewrite (proj2 (startswith_true _ _)) by (by eexists).
  change 7%nat with (String.length "sha256:"). rewrite string_drop_app.
  unfold py_len. rewrite length_append, length_sha256_hex. cbn [andb String.length].
  apply sha256_hex_digits.
Qed.

(** ** Loading the table *)

Lemma stored_ok e : jentry_wf e → journal_record_ok (stored e) = Ok true.
Proof.
  intros [Hi Hr Hb Ho Hs]. unfold journal_record_ok.
  change (field (stored e) "admission_id") with (VStr (je_id e)).
  change (field (stored e) "revision") with (VInt (je_revision e)).
  change (field (stored e) "binding_digest") with (VStr (je_binding e)).
  change (field (stored e) "operation_digest") with (VStr (je_operation e)).
  change (field (stored e) "result_shape_digest") with (opt_str (je_shape e)).
  change (field (stored e) "updated_at_utc") with (VStr (je_updated e)).
  change (field (stored e) "state")
    with (VStr (if je_completed e then "completed" else "started")).
  destruct (je_id e) as [|c s]; [done|]. rewrite (proj2 (Z.ltb_ge _ _)) by lia.
  rewrite Hb, Ho. cbn [orb negb].
  assert (py_in_set (VStr (if je_completed e then "completed" else "started"))
    ["started"; "completed"] = Ok true) as -> by by destruct (je_completed e).
  rewrite bind_ret. destruct (je_shape e) as [d|]; [|done]. cbn [opt_str is_VNone orb andb].
  by rewrite (Hs d eq_refl).
Qed.

Lemma load_stored es acc :
  Forall (λ p, je_id p.2 = p.1 ∧ jentry_wf p.2) es → NoDup (dict_keys acc ++ es.*1) →
  load_records acc ((λ p, VDict (stored p.2)) <$> es) = Ok (acc ++ stored_records es).
Proof.
  intros H. revert acc. induction H as [|[k e] es [Hk He] _ IH]; intros acc Hnd.
  { cbn. by rewrite app_nil_r. }
  cbn [fst snd] in *. rewrite fmap_cons. cbn [load_records snd].
  change (keys_exactly (stored e) journal_fields) with true. cbn [require]. rewrite bind_ret.
  rewrite stored_ok, bind_ret by done. cbn [require]. rewrite bind_ret.
  change (field (stored e) "admission_id") with (VStr (je_id e)). rewrite Hk. cbv iota.
  assert (k ∉ dict_keys acc) as Hni.
  { apply NoDup_app in Hnd as (_ & Hdis & _). intros Hin. apply (Hdis _ Hin). by left. }
  unfold dict_mem. rewrite bool_decide_eq_false_2 by (by rewrite <- elem_of_dict_keys).
  cbn [negb require]. rewrite bind_ret, dict_set_fresh by done. rewrite IH.
  - unfold stored_records. rewrite fmap_cons, <- app_assoc. done.
  - unfold dict_keys in *. rewrite fmap_app, <- app_assoc. exact Hnd.
Qed.

Lemma table_Forall J : table_wf J → Forall (λ p, je_id p.2 = p.1 ∧ jentry_wf p.2) J.
Proof.
  intros [Hn He _]. apply Forall_forall. intros [k e] Hin. apply He. by apply elem_of_dict_get.
Qed.

Lemma journal_payload_read J :
  json_canonical (journal_payload (stored_records J)) =
  VDict [("records", VList ((λ p, VDict (stored p.2)) <$> J)); ("schema_version", VInt 1)].
Proof.
  assert (json_canonical (journal_payload (stored_records J)) =
    VDict [("records", VList (json_canonical <$> (VDict <$> dict_values (stored_records J))));
           ("schema_version", VInt 1)]) as -> by reflexivity.
  do 4 f_equal. unfold dict_values, stored_records. rewrite <- !list_fmap_compose.
  apply list_fmap_ext. intros i [k e] _. unfold compose. rewrite canonical_VDict.
  f_equal. apply canonical_stored.
Qed.

Lemma stored_jsonable e : jentry_wf e → jsonable (VDict (stored e)).
Proof.
  intros [_ Hr _ _ _]. cbn [jsonable]. split; [nodup_keys|]. cbn.
  split_and!; try done; try (destruct (je_shape e); done). lia.
Qed.

Lemma journal_jsonable J : table_wf J → jsonable (journal_payload (stored_records J)).
Proof.
  intros Hwf. unfold journal_payload. cbn [jsonable foldr snd]. split; [nodup_keys|].
  split_and!; [done| |done]. apply foldr_and_Forall. unfold dict_values, stored_records.
  rewrite <- !list_fmap_compose. apply Forall_fmap.
  eapply Forall_impl; [by apply table_Forall|]. intros [k e] [_ He]. by apply stored_jsonable.
Qed.

Lemma journal_float_free J : float_free (journal_payload (stored_records J)) = true.
Proof.
  unfold journal_payload. cbn [float_free forallb snd andb]. rewrite andb_true_r.
  apply forallb_forall. intros v Hv%list_elem_of_In. unfold dict_values, stored_records in Hv.
  rewrite <- !list_fmap_compose in Hv. apply list_elem_of_fmap in Hv as ([k e] & -> & _).
  cbn. by destruct (je_shape e).
Qed.

Lemma decode_journal J :
  table_wf J →
  decode_mapping "invalid_state_json" "invalid_state_document" (journal_text J)
  = Ok [("records", VList ((λ p, VDict (stored p.2)) <$> J)); ("schema_version", VInt 1)].
Proof.
  intros Hwf. unfold journal_text, journal_payload.
  rewrite decode_document; [|split; [by apply journal_jsonable|apply journal_float_free]|done].
  pose proof (journal_payload_read J) as H. unfold journal_payload in H.
  rewrite canonical_VDict in H. f_equal.
  exact (f_equal (λ v, match v with VDict d => d | _ => [] end) H).
Qed.

(** Preparing a directory of a writable store never reports a missing file. *)
Definition directory_sane (w : world) : Prop :=
  directory_answer (w_os w) ≠ Err (HiveStateError "state_not_found").

Section calls.
Context (self : FileCompletionJournal).

Lemma with_files_same w : with_files w (w_files w) = w.
Proof. by destruct w. Qed.

Lemma load_journal w J :
  _read_only (_state self) = false → directory_sane w → journal_at (w_files w) J →
  (∃ e, _load_locked self w = (w, Err e)) ∨ _load_locked self w = (w, Ok (stored_records J)).
Proof.
  intros Hro Hsane [Hwf Hat]. unfold _load_locked, on_files, read_json_locked.
  unfold _path, _JOURNAL_RELATIVE_PATH.
  change (_validate_relative (Some ["admission-completion.json"]))
    with (Ok ["admission-completion.json"]). rewrite bind_ret.
  unfold directory_sane in Hsane.
  destruct (directory_answer (w_os w)) as [[]|e]; cbn [mbind result_bind].
  2: { rewrite run_lift_err, with_files_same. left. cbn [journal_document].
       destruct e; try (by eexists). case_bool_decide; [by subst|by eexists]. }
  right. change (py_join "/" ["admission-completion.json"]) with JOURNAL.
  change (_validate_limit (4 * 1024 * 1024)) with (Ok ()).
  rewrite !run_lift, run_get.
  destruct Hat as [[-> ->]|(t & -> & Hsize)]; cbn [_read_bytes].
  { by rewrite run_lift_err, with_files_same. }
  rewrite (proj2 (Z.ltb_ge _ _)) by (unfold MAX_HIVE_STATE_BYTES in Hsize; lia).
  rewrite Hro. cbn [andb]. rewrite run_lift, decode_journal by done.
  unfold st_lift. rewrite with_files_same.
  unfold journal_document, field. cbn [dict_get]. simpl_bd.
  cbn [default from_option id py_eq_int]. rewrite Z.eqb_refl, length_fmap.
  destruct Hwf as [Hn He Hl]. rewrite (proj2 (Z.leb_le _ _)) by done.
  cbn [require]. rewrite bind_ret. rewrite load_stored; [done| |done].
  by apply table_Forall.
Qed.

(** Writing records that [json] cannot tell from those of [J]. *)
Lemma write_journal records w J :
  json_dumps (journal_payload records) = json_dumps (journal_payload (stored_records J)) →
  table_wf J →
  let '(w', r) := _write_locked self records w in
  (w' = w ∧ ∃ e, r = Err e) ∨ (w' = with_files w (w_files w') ∧ journal_at (w_files w') J).
Proof.
  intros Hd Hwf. unfold _write_locked, on_files, replace_json_locked.
  destruct (_ensure_writable (_state self)) as [[]|e] eqn:Hw.
  2: { rewrite run_lift_err, with_files_same. left. split; [done|]. cbn. case_match; by eexists. }
  rewrite run_lift. unfold _path, _JOURNAL_RELATIVE_PATH.
  change (_validate_relative (Some ["admission-completion.json"]))
    with (Ok ["admission-completion.json"]). rewrite bind_ret.
  destruct (directory_answer (w_os w)) as [[]|e]; cbn [mbind result_bind].
  2: { rewrite run_lift_err, with_files_same. left. split; [done|]. cbn. case_match; by eexists. }
  rewrite run_lift. unfold journal_payload at 1. cbv iota.
  fold (journal_payload records). unfold _encode. rewrite Hd. fold newline.
  fold (journal_text J).
  destruct (Z.ltb_spec MAX_HIVE_STATE_BYTES (py_len (journal_text J))) as [|Hs].
  { rewrite run_lift_err, with_files_same. left. split; [done|]. cbn. by eexists. }
  rewrite run_lift. unfold _atomic_replace. rewrite Hw, (proj2 (Z.ltb_ge _ _)) by done.
  change (py_join "/" ["admission-completion.json"]) with JOURNAL.
  assert (journal_at (dict_set JOURNAL (Regular true (journal_text J)) (w_files w)) J) as Hat.
  { split; [done|]. right. exists true. by rewrite node_at_set. }
  destruct (node_at (w_files w) JOURNAL); try destruct (write_answered (w_os w));
    rewrite ?with_files_same; cbn [reraise w_files with_files];
    solve [left; split; [done|by eexists] | right; done].
Qed.

(** ** What a call does to the table *)

Definition matches (e : jentry) (a : AdmissionRecord) : Prop :=
  je_revision e = revision a ∧ je_binding e = _admission_binding_digest a.

Definition started_entry (a : AdmissionRecord) (operation now : string) : jentry :=
  {| je_id := admission_id a; je_revision := revision a;
     je_binding := _admission_binding_digest a; je_operation := _digest operation;
     je_completed := false; je_shape := None; je_updated := now |}.

Definition completed_entry (e : jentry) (now : string) : jentry :=
  {| je_id := je_id e; je_revision := je_revision e; je_binding := je_binding e;
     je_operation := je_operation e; je_completed := true; je_shape := Some (_digest "dict");
     je_updated := now |}.

Inductive start_step (a : AdmissionRecord) (operation : string) (J : table) : table → Prop :=
  | step_start now :
      dict_get (admission_id a) J = None → Z.of_nat (length J) < MAX_JOURNAL_RECORDS →
      start_step a operation J (dict_set (admission_id a) (started_entry a operation now) J).

Inductive complete_step (a : AdmissionRecord) (operation : string) (J : table) : table → Prop :=
  | step_complete e now :
      dict_get (admission_id a) J = Some e → matches e a → je_operation e = _digest operation →
      je_completed e = false →
      complete_step a operation J (dict_set (admission_id a) (completed_entry e now) J).

Lemma dict_get_stored k J : dict_get k (stored_records J) = stored <$> dict_get k J.
Proof. apply dict_get_map. Qed.

Lemma journal_payload_dumps rs rs' :
  ((json_dumps ∘ VDict) <$> dict_values rs) = ((json_dumps ∘ VDict) <$> dict_values rs') →
  json_dumps (journal_payload rs) = json_dumps (journal_payload rs').
Proof.
  intros H. unfold journal_payload. rewrite !json_dumps_dict.
  assert (∀ v, sort_by str_cmp fst [("schema_version", VInt 1); ("records", v)]
    = [("records", v); ("schema_version", VInt 1)]) as Hs by reflexivity.
  rewrite !Hs. cbn [fmap list_fmap]. unfold member_text. cbn [fst snd json_dumps].
  fold (@fmap list _ _ _ json_dumps (VDict <$> dict_values rs)).
  fold (@fmap list _ _ _ json_dumps (VDict <$> dict_values rs')).
  rewrite <- !list_fmap_compose. by rewrite H.
Qed.

Lemma values_dict_set {V W} (g : V → W) k x y (d : list (string * V)) :
  g x = g y → g <$> dict_values (dict_set k x d) = g <$> dict_values (dict_set k y d).
Proof.
  intros H. induction d as [|[k' v] d IH]; cbn; [by rewrite H|].
  case_bool_decide; cbn; [by rewrite H|]. f_equal. exact IH.
Qed.

(** Replacing or adding one record. *)
Lemma set_dumps k payload e J :
  json_dumps (VDict payload) = json_dumps (VDict (stored e)) →
  json_dumps (journal_payload (dict_set k payload (stored_records J)))
  = json_dumps (journal_payload (stored_records (dict_set k e J))).
Proof.
  intros H. apply journal_payload_dumps. unfold stored_records.
  rewrite <- (dict_set_map stored). by apply values_dict_set.
Qed.

Lemma completed_stored e r now :
  completed_payload (stored e) r now = stored (completed_entry e now).
Proof. reflexivity. Qed.

Lemma dict_set_length {V} k v (d : list (string * V)) :
  length (dict_set k v d) = (length d + if dict_get k d then 0 else 1)%nat.
Proof.
  induction d as [|[k' v'] d IH]; [done|]. cbn. case_bool_decide; cbn; [lia|]. rewrite IH. lia.
Qed.

Lemma table_set k e J :
  table_wf J → je_id e = k → jentry_wf e →
  (dict_get k J = None → Z.of_nat (length J) < MAX_JOURNAL_RECORDS) →
  table_wf (dict_set k e J).
Proof.
  intros [Hn He Hl] Hk Hwf Hroom. split.
  - by apply NoDup_dict_set.
  - intros k' e'. rewrite dict_get_set. case_bool_decide; [|apply He].
    intros [= <-]. by subst.
  - rewrite dict_set_length. destruct (dict_get k J); [lia|].
    specialize (Hroom eq_refl). lia.
Qed.

Lemma started_wf a operation now :
  record_wf a → admission_id a ≠ "" → jentry_wf (started_entry a operation now).
Proof.
  intros (_ & _ & Hr & _)%record_wf_bounds Hi.
  split; cbn; [done|unfold INT_BOUND; lia|apply digest_is_digest|apply digest_is_digest|done].
Qed.

Lemma record_wf_id a : record_wf a → admission_id a ≠ "".
Proof.
  intros [Hf _ _ _ _ _ _]. unfold record_replace, AdmissionRecord_new in Hf.
  apply bind_Ok in Hf as (? & _ & Hf). apply bind_Ok in Hf as (? & Hid & _).
  apply _bounded_text_Ok in Hid as [[= <-] Hid]. intros Heq. rewrite Heq in Hid. done.
Qed.

Lemma completed_wf e now : jentry_wf e → jentry_wf (completed_entry e now).
Proof.
  intros [Hi Hr Hb Ho Hs]. split; try done. cbn. intros s [= <-]. apply digest_is_digest.
Qed.

Lemma record_event_files a s w : w_files (_record_event self a s w).1 = w_files w.
Proof.
  unfold _record_event. destruct (_events self); [|done]. unfold on_event_files.
  by destruct (append_queue_transition _ _ _ _ _ _ _ _ _ _ _).
Qed.

Lemma same_revision_stored e a : same_revision (stored e) a = (je_revision e =? revision a).
Proof. reflexivity. Qed.
Lemma same_binding_stored e a :
  same_binding (stored e) a = bool_decide (je_binding e = _admission_binding_digest a).
Proof. reflexivity. Qed.
Lemma same_operation_stored e operation :
  same_operation (stored e) operation = bool_decide (je_operation e = _digest operation).
Proof. reflexivity. Qed.
Lemma is_completed_stored e : is_completed (stored e) = je_completed e.
Proof. unfold is_completed, field, stored. cbn. by destruct (je_completed e). Qed.

(** A [require] before the rest of a call. *)
Lemma run_require {A} (b : bool) err (f : () → WorldM A) w :
  (st_lift (require b err) ≫= f) w = if b then f () w else (w, Err err).
Proof. by destruct b. Qed.

Lemma run_event a s w :
  ∃ w' r, _record_event self a s w = (w', r) ∧ w_files w' = w_files w.
Proof.
  pose proof (record_event_files a s w). destruct (_record_event self a s w) as [w' r].
  by exists w', r.
Qed.

(** The state a call may leave, and what a returning call has established. *)
Definition call_outcome (J : table) (step : table → Prop) (returned : table → Prop)
  (out : world * result ()) : Prop :=
  ∃ J', journal_at (w_files out.1) J' ∧ (J' = J ∨ step J')
    ∧ (out.2 = Ok () → returned J').

Lemma call_error J step returned w e :
  journal_at (w_files w) J → call_outcome J step returned (w, Err e).
Proof. intros Hat. exists J. split_and!; [done|by left|done]. Qed.

Lemma call_event J J' step returned a s w :
  journal_at (w_files w) J' → (J' = J ∨ step J') → returned J' →
  call_outcome J step returned (_record_event self a s w).
Proof.
  intros Hat HJ Hret. destruct (run_event a s w) as (w' & r & -> & Hf).
  exists J'. cbn [fst snd]. by rewrite Hf.
Qed.

(** The critical section, then the event of a written record. *)
Lemma call_locked J step returned a s (body : WorldM bool) w :
  journal_at (w_files w) J →
  (let '(w', r) := body w in
   match r with
   | Ok true => ∃ J', journal_at (w_files w') J' ∧ step J' ∧ returned J'
   | Ok false => journal_at (w_files w') J ∧ returned J
   | Err _ => ∃ J', journal_at (w_files w') J' ∧ (J' = J ∨ step J')
   end) →
  call_outcome J step returned
    ((written ← journal_locked body;
      match written with true => _record_event self a s | false => mret () end) w).
Proof.
  intros Hat Hbody. rewrite st_bind_eq. unfold journal_locked.
  destruct (lock_answer (w_os w)) as [[]|e]; [|by apply call_error].
  destruct (body w) as [w' [[]|e]].
  - destruct Hbody as (J' & ? & ? & ?). apply (call_event J J'); auto.
  - destruct Hbody as [? ?]. exists J. split_and!; [done|by left|done].
  - destruct Hbody as (J' & ? & ?). by exists J'.
Qed.

Definition has_started (a : AdmissionRecord) (operation : string) (J : table) : Prop :=
  ∃ e, dict_get (admission_id a) J = Some e ∧ matches e a
       ∧ je_operation e = _digest operation ∧ je_completed e = false.
Definition has_completed (a : AdmissionRecord) (operation : string) (J : table) : Prop :=
  ∃ e, dict_get (admission_id a) J = Some e ∧ matches e a
       ∧ je_operation e = _digest operation ∧ je_completed e = true.

Lemma record_started_outcome w J a operation :
  _read_only (_state self) = false → directory_sane w → journal_at (w_files w) J → record_wf a →
  call_outcome J (start_step a operation J) (has_started a operation)
    (record_started self a operation w).
Proof.
  intros Hro Hsane Hat Ha. unfold record_started, _validate_inputs. rewrite run_require.
  destruct (operation_ok operation); [|by apply call_error].
  apply call_locked; [done|]. rewrite st_bind_eq.
  destruct (load_journal w J Hro Hsane Hat) as [[e ->]| ->]; [by exists J; auto|].
  rewrite dict_get_stored. destruct (dict_get (admission_id a) J) as [e|] eqn:HJ; cbn [fmap option_fmap option_map].
  - rewrite !run_require, same_revision_stored, same_binding_stored, same_operation_stored,
      is_completed_stored.
    destruct (Z.eqb_spec (je_revision e) (revision a)); [|by exists J; auto].
    case_bool_decide; [|by exists J; auto].
    destruct (je_completed e) eqn:?; [by exists J; auto|]. cbn [negb].
    case_bool_decide; [|by exists J; auto].
    rewrite st_bind_eq. destruct (run_event a "executing" w) as (w' & [[]|er] & -> & Hf);
      rewrite <- Hf in Hat; [|by exists J; auto].
    split; [done|]. by exists e.
  - rewrite run_require. unfold stored_records. rewrite length_fmap.
    fold (stored_records J).
    destruct (Z.ltb_spec (Z.of_nat (length J)) MAX_JOURNAL_RECORDS) as [Hl|];
      [|by exists J; auto].
    rewrite st_bind_eq. unfold _started_payload, journal_timestamp. rewrite st_bind_eq.
    destruct (if dt_aware (w_now w) then _ else _) as [now|er]; [|by exists J; auto].
    cbn [mret st_ret].
    pose proof (started_wf a operation now Ha (record_wf_id a Ha)) as He.
    pose proof (write_journal
      (dict_set (admission_id a) (listed (started_entry a operation now)) (stored_records J)) w
      (dict_set (admission_id a) (started_entry a operation now) J)) as Hw.
    rewrite st_bind_eq. change (_write_locked self _ w) with (_write_locked self
      (dict_set (admission_id a) (listed (started_entry a operation now)) (stored_records J)) w).
    destruct (_write_locked _ _ w) as [w' r].
    destruct Hw as [[-> [er ->]]|[Hsame Hat']].
    + apply set_dumps, stored_listed.
    + by apply table_set; [apply Hat| |..].
    + by exists J; auto.
    + destruct r as [[]|er]; eexists; (split; [exact Hat'|]); [|by right; constructor].
      split; [by constructor|]. exists (started_entry a operation now).
      rewrite dict_get_set, bool_decide_eq_true_2 by done. done.
Qed.

Lemma record_completed_outcome w J a operation result :
  _read_only (_state self) = false → directory_sane w → journal_at (w_files w) J →
  call_outcome J (complete_step a operation J) (has_completed a operation)
    (record_completed self a operation result w).
Proof.
  intros Hro Hsane Hat. unfold record_completed, _validate_inputs. rewrite run_require.
  destruct (operation_ok operation); [|by apply call_error].
  destruct result as [| | | | | |fields];
    try (unfold conflict; rewrite run_lift_err; by apply call_error).
  rewrite run_lift. apply call_locked; [done|]. rewrite st_bind_eq.
  destruct (load_journal w J Hro Hsane Hat) as [[e ->]| ->]; [by exists J; auto|].
  rewrite dict_get_stored.
  destruct (dict_get (admission_id a) J) as [e|] eqn:HJ; cbn [fmap option_fmap option_map];
    [|by exists J; auto].
  rewrite !run_require, same_revision_stored, same_binding_stored, same_operation_stored,
    is_completed_stored.
  destruct (Z.eqb_spec (je_revision e) (revision a)); [|by exists J; auto].
  case_bool_decide; [|by exists J; auto].
  case_bool_decide as Hop; [|by exists J; auto].
  destruct (je_completed e) eqn:Hc.
  { rewrite st_bind_eq. destruct (run_event a "completed" w) as (w' & [[]|er] & -> & Hf);
      rewrite <- Hf in Hat; [|by exists J; auto]. split; [done|]. by exists e. }
  rewrite st_bind_eq. unfold journal_timestamp.
  destruct (if dt_aware (w_now w) then _ else _) as [now|er]; [|by exists J; auto].
  rewrite completed_stored.
  pose proof Hat as [[Hn Hes Hlen] _]. destruct (Hes _ _ HJ) as [Hid He].
  pose proof (write_journal
    (dict_set (admission_id a) (stored (completed_entry e now)) (stored_records J)) w
    (dict_set (admission_id a) (completed_entry e now) J)) as Hw.
  rewrite st_bind_eq. destruct (_write_locked _ _ w) as [w' r].
  destruct Hw as [[-> [er ->]]|[_ Hat']].
  - by apply set_dumps.
  - apply table_set; [done|done|by apply completed_wf|by rewrite HJ].
  - by exists J; auto.
  - assert (complete_step a operation J (dict_set (admission_id a) (completed_entry e now) J))
      by (by apply step_complete).
    destruct r as [[]|er]; eexists; (split; [exact Hat'|]); [|by right].
    split; [done|]. exists (completed_entry e now).
    rewrite dict_get_set, bool_decide_eq_true_2 by done. done.
Qed.

(** The read side: the answer of [execution_completed]. *)
Lemma execution_completed_reads w J a w' :
  _read_only (_state self) = false → directory_sane w → journal_at (w_files w) J →
  execution_completed self a w = (w', Ok true) →
  ∃ e, dict_get (admission_id a) J = Some e ∧ matches e a ∧ je_completed e = true.
Proof.
  intros Hro Hsane Hat. unfold execution_completed, journal_locked.
  destruct (lock_answer (w_os w)) as [[]|e]; [|by case_match].
  destruct (load_journal w J Hro Hsane Hat) as [[e ->]| ->]; [by case_match|].
  rewrite dict_get_stored. destruct (dict_get (admission_id a) J) as [e|]; [|done].
  cbn [fmap option_fmap option_map].
  rewrite is_completed_stored, same_revision_stored, same_binding_stored.
  intros [= _ H]. apply andb_true_iff in H as [[? ?%Z.eqb_eq]%andb_true_iff ?%bool_decide_eq_true].
  by exists e.
Qed.

(** ** Histories *)

Inductive jcall :=
  | Start (a : AdmissionRecord) (operation : string)
  | Complete (a : AdmissionRecord) (operation : string) (result : pyval).

Definition call_record (c : jcall) : AdmissionRecord :=
  match c with Start a _ | Complete a _ _ => a end.

Definition run_call (c : jcall) : WorldM () :=
  match c with
  | Start a operation => record_started self a operation
  | Complete a operation result => record_completed self a operation result
  end.

(** Calls in order, each under its own answers of the operating system, clock
    and event log; only the journal's files are carried from call to call.  A
    call that raises ends neither the process nor the history. *)
Fixpoint run_calls (fs : files) (h : list (world * jcall)) : files :=
  match h with
  | [] => fs
  | (env, c) :: h => run_calls (w_files (run_call c (with_files env fs)).1) h
  end.

Lemma run_calls_app fs h h' : run_calls fs (h ++ h') = run_calls (run_calls fs h) h'.
Proof. revert fs. induction h as [|[env c] h IH]; intros fs; cbn; [done|apply IH]. Qed.

(** A call of the history that speaks of the entry. *)
Definition speaks_of (e : jentry) (a : AdmissionRecord) (operation : string) : Prop :=
  admission_id a = je_id e ∧ matches e a ∧ je_operation e = _digest operation.

Definition evidence (e : jentry) (h : list (world * jcall)) : Prop :=
  ∃ h1 env a operation h2,
    h = h1 ++ (env, Start a operation) :: h2 ∧ speaks_of e a operation
    ∧ (je_completed e = true →
       ∃ env' a' operation' result, (env', Complete a' operation' result) ∈ h2
         ∧ speaks_of e a' operation').

Lemma evidence_snoc e h x : evidence e h → evidence e (h ++ [x]).
Proof.
  intros (h1 & env & a & op & h2 & -> & He & Hc). exists h1, env, a, op, (h2 ++ [x]).
  split_and!; [by rewrite <- app_assoc|done|]. intros Hd.
  destruct (Hc Hd) as (env' & a' & op' & r & Hin & He'). exists env', a', op', r.
  split; [|done]. apply elem_of_app. by left.
Qed.

Definition call_ok (x : world * jcall) : Prop := directory_sane x.1 ∧ record_wf (call_record x.2).

Lemma run_calls_evidence fs h :
  _read_only (_state self) = false → node_at fs JOURNAL = Missing → Forall call_ok h →
  ∃ J, journal_at (run_calls fs h) J
       ∧ ∀ k e, dict_get k J = Some e → evidence e h.
Proof.
  intros Hro Hfs. induction h as [|[env c] h IH] using rev_ind; intros Hok.
  { exists []. split; [|done]. split; [|by left].
    split; [constructor|done|]. unfold MAX_JOURNAL_RECORDS. cbn. lia. }
  apply Forall_app in Hok as [Hok [[Hsane Ha] _]%Forall_cons].
  destruct (IH Hok) as (J & Hat & HJ). cbn [fst snd] in *. rewrite run_calls_app. cbn [run_calls].
  set (w := with_files env (run_calls fs h)).
  assert (directory_sane w) as Hsane' by exact Hsane.
  destruct c as [a op|a op r]; cbn [run_call call_record] in *.
  - destruct (record_started_outcome w J a op Hro Hsane' Hat Ha) as (J' & Hat' & [->|Hst] & _);
      eexists; (split; [exact Hat'|]); intros k e He; [by eapply evidence_snoc, HJ|].
    destruct Hst as [now Hnone Hlen]. rewrite dict_get_set in He.
    case_bool_decide; [|by eapply evidence_snoc, HJ]. injection He as <-.
    exists h, env, a, op, []. by split_and!.
  - destruct (record_completed_outcome w J a op r Hro Hsane' Hat) as (J' & Hat' & [->|Hst] & _);
      eexists; (split; [exact Hat'|]); intros k e He; [by eapply evidence_snoc, HJ|].
    destruct Hst as [e0 now He0 Hm Hop Hc]. rewrite dict_get_set in He.
    case_bool_decide; [|by eapply evidence_snoc, HJ]. injection He as <-.
    destruct (HJ _ _ He0) as (h1 & env1 & a1 & op1 & h2 & -> & (Hs1 & Hs2 & Hs3) & _).
    exists h1, env1, a1, op1, (h2 ++ [(env, Complete a op r)]).
    split_and!; [by rewrite <- app_assoc|done|]. intros _. exists env, a, op, r.
    split; [apply elem_of_app; right; by left|]. split_and!; [|done|done].
    pose proof Hat as [[_ Hes _] _]. exact (eq_sym (proj1 (Hes _ _ He0))).
Qed.
End calls.

(** ** Evidence of completion *)

Definition sample_journal : FileCompletionJournal :=
  {| _state := sample_store; _events := None |}.
Definition sample_world : world :=
  {| w_files := []; w_event_files := []; w_os := all_granted; w_event_os := sample_answers;
     w_now := sample_time |}.
Definition sample_calls : list (world * jcall) :=
  [ (sample_world, Complete sample_record "open-worktree" (VDict []));
    (sample_world, Start sample_record "open-worktree");
    (sample_world, Complete sample_record "other" (VDict []));
    (sample_world, Complete sample_record "open-worktree" (VDict [])) ].

(** C34: Completion is never reported without evidence.  From a journal whose
    file does not exist, after any calls of [record_started] and
    [record_completed], each under arbitrary answers of the operating system, an
    arbitrary clock and event log and whether it raised or returned,
    [execution_completed] answers [True] for a record only if an earlier call
    started the same admission, revision, assignment binding and operation, and
    a later call completed it under the same operation. *)
Theorem completion_has_evidence self fs h env a w' :
  _read_only (_state self) = false → node_at fs JOURNAL = Missing → Forall call_ok h →
  directory_sane env →
  execution_completed self a (with_files env (run_calls self fs h)) = (w', Ok true) →
  ∃ h1 env1 a1 operation1 h2 env2 a2 operation2 result,
    h = h1 ++ (env1, Start a1 operation1) :: h2 ∧ (env2, Complete a2 operation2 result) ∈ h2
    ∧ admission_id a1 = admission_id a ∧ admission_id a2 = admission_id a
    ∧ revision a1 = revision a ∧ revision a2 = revision a
    ∧ _admission_binding_digest a1 = _admission_binding_digest a
    ∧ _admission_binding_digest a2 = _admission_binding_digest a
    ∧ _digest operation1 = _digest operation2.
Proof.
  intros Hro Hfs Hok Hsane Hdone.
  destruct (run_calls_evidence self fs h Hro Hfs Hok) as (J & Hat & HJ).
  destruct (execution_completed_reads self (with_files env (run_calls self fs h)) J a w'
    Hro Hsane Hat Hdone) as (e & He & [Hr Hb] & Hc).
  destruct (HJ _ _ He) as (h1 & env1 & a1 & op1 & h2 & -> & (Hi1 & [Hr1 Hb1] & Ho1) & Hcs).
  destruct (Hcs Hc) as (env2 & a2 & op2 & r & Hin & Hi2 & [Hr2 Hb2] & Ho2).
  destruct Hat as [[_ Hes _] _]. destruct (Hes _ _ He) as [Hid _].
  exists h1, env1, a1, op1, h2, env2, a2, op2, r. split_and!; congruence.
Qed.

Lemma completion_has_evidence_witness :
  ∃ env1 a1 operation1, (env1, Start a1 operation1) ∈ sample_calls ∧ revision a1 = 0.
Proof.
  destruct (completion_has_evidence sample_journal [] sample_calls sample_world sample_record
    (with_files sample_world (run_calls sample_journal [] sample_calls)))
    as (h1 & env1 & a1 & op1 & h2 & _ & _ & _ & _ & Heq & _ & _ & _ & Hr & _).
  - reflexivity.
  - reflexivity.
  - repeat (apply Forall_cons_2; [split; [done|exact sample_record_wf]|]). apply Forall_nil_2.
  - done.
  - vm_compute. reflexivity.
  - exists env1, a1, op1. split; [|by rewrite Hr].
    rewrite Heq. apply elem_of_app. right. by left.
Defined.
