(* ===== verification/HiveWork.v ===== *)
(** * Requests, dispatches and workpackages

    [src/src/the_hive/hive/dispatch.py], lines 37 to 259, 647 to 746 and
    1003 to 1190: the immutable work objects with the checks of their
    [__post_init__], the three state graphs, the versioned transitions, and
    the report and checkpoint adapters. *)

From S2P Require Import Prelude PyTime DynamicPool Json HiveTypes HiveMessages.
#[local] Open Scope Z_scope.

Definition MAX_LIST : Z := 128.

(** ** Checks *)

Definition _version (value : Z) : result () :=
  require ((1 <=? value) && (value <=? 10 ^ 12)) (HiveDispatchError "invalid_dispatch_version").

Definition _state (value : string) (allowed : list string) (field : string) : result () :=
  require (bool_decide (value ∈ allowed)) (HiveDispatchError ("invalid_" +:+ field +:+ "_state")).

Definition is_message_error (e : exn) : bool :=
  match e with HiveMessageError _ => true | _ => false end.

Definition _mapping_safe (value : pyval) (field : string) : result mapping :=
  reraise is_message_error (λ e, HiveDispatchError (exn_str e)) (_mapping value field).

Definition _time (value : datetime) (field : string) : result datetime :=
  reraise is_value_error (λ e, HiveDispatchError (exn_str e)) (validate_utc_datetime value field).

(** The checks on fields that already hold a [str] or a tuple of [str]. *)
Definition check_id (s field : string) : result () := _ ← _id (VStr s) field; Ok ().
Definition check_text (s field : string) (maximum : Z) : result () :=
  _ ← _text (VStr s) field maximum; Ok ().
Definition check_texts (l : list string) (field : string) : result () :=
  _ ← _texts (VStr <$> l) field; Ok ().
Definition check_ids (l : list string) (field : string) : result () :=
  _ ← mapM_result (λ s, _id (VStr s) field) l; Ok ().
Definition check_time (d : datetime) (field : string) : result () := _ ← _time d field; Ok ().
Definition check_opt_time (o : option datetime) (field : string) : result () :=
  match o with Some d => check_time d field | None => Ok () end.
Definition check_mapping (d : mapping) (field : string) : result () :=
  _ ← _mapping_safe (VDict d) field; Ok ().

(** ** State graphs *)

Definition REQUEST_STATES : list string :=
  [ "received"; "classified"; "planned"; "gated"; "delegated"; "executing"; "integrating";
    "completed"; "blocked"; "cancelled"; "failed"; "compensating"; "partially_completed" ].

Definition DISPATCH_STATES : list string :=
  [ "planned"; "queen_accepted"; "workpackages_ready"; "queued"; "executing"; "integrating";
    "reporting"; "completed"; "decision_required"; "blocked"; "cooperative_pause_requested";
    "paused"; "failed"; "compensating"; "failed_final" ].

Definition WORKPACKAGE_STATES : list string :=
  [ "planned"; "ready"; "queued"; "admission_planned"; "conflict"; "admitted"; "executing";
    "integrating"; "completed"; "blocked"; "decision_required"; "failed"; "compensating";
    "failed_final"; "paused" ].

Abbreviation graph := (list (string * list string)).

Definition _REQUEST_TRANSITIONS : graph :=
  [ ("received", ["classified"; "cancelled"; "failed"]);
    ("classified", ["planned"; "cancelled"; "failed"]);
    ("planned", ["gated"; "cancelled"; "failed"]);
    ("gated", ["delegated"; "blocked"; "cancelled"; "failed"]);
    ("delegated", ["executing"; "blocked"; "cancelled"; "failed"]);
    ("executing", ["integrating"; "blocked"; "failed"; "compensating"; "cancelled"]);
    ("integrating", ["completed"; "partially_completed"; "failed"]);
    ("blocked", ["executing"; "cancelled"]);
    ("failed", ["compensating"; "partially_completed"]);
    ("compensating", ["partially_completed"; "failed"]) ].

Definition _DISPATCH_TRANSITIONS : graph :=
  [ ("planned", ["queen_accepted"; "blocked"; "failed"]);
    ("queen_accepted", ["workpackages_ready"; "blocked"; "failed"]);
    ("workpackages_ready", ["queued"; "blocked"; "failed"]);
    ("queued", ["executing"; "blocked"; "cooperative_pause_requested"; "failed"]);
    ("executing",
      [ "integrating"; "decision_required"; "blocked"; "cooperative_pause_requested"; "failed";
        "compensating" ]);
    ("integrating", ["reporting"; "failed"]);
    ("reporting", ["completed"; "failed"; "compensating"]);
    ("decision_required", ["executing"; "blocked"; "failed"]);
    ("blocked", ["queued"; "failed"; "compensating"]);
    ("cooperative_pause_requested", ["paused"; "failed"]);
    ("paused", ["queued"; "failed"]);
    ("failed", ["compensating"; "failed_final"]);
    ("compensating", ["failed_final"; "failed"]) ].

Definition _WORKPACKAGE_TRANSITIONS : graph :=
  [ ("planned", ["ready"; "blocked"; "failed"]);
    ("ready", ["queued"; "blocked"; "failed"]);
    ("queued", ["admission_planned"; "blocked"; "failed"; "paused"]);
    ("admission_planned", ["admitted"; "conflict"; "queued"; "failed"]);
    ("conflict", ["queued"; "failed"]);
    ("admitted", ["executing"; "conflict"; "failed"]);
    ("executing",
      ["integrating"; "blocked"; "decision_required"; "failed"; "paused"; "compensating"]);
    ("integrating", ["completed"; "failed"]);
    ("blocked", ["queued"; "failed"]);
    ("decision_required", ["executing"; "blocked"; "failed"]);
    ("failed", ["compensating"; "failed_final"]);
    ("compensating", ["failed_final"; "failed"]);
    ("paused", ["queued"; "failed"]) ].

(** [transitions.get(state, set())]. *)
Definition successors (g : graph) (state : string) : list string :=
  default [] (dict_get state g).

(** ** Work objects

    A field has the type its annotation gives; the remaining checks of
    [__post_init__] are the [..._check] functions, in the code's order. *)

Record GlobalRequest := {
  req_request_id : string;
  req_objective : string;
  req_success_criteria : list string;
  req_constraints : list string;
  req_non_goals : list string;
  req_requested_by : string;
  req_repositories_requested : list string;
  req_repositories_resolved : list string;
  req_dispatch_priority : DispatchPriority;
  req_user_gates : list string;
  req_created_at_utc : datetime;
  req_state : string;
  req_version : Z;
}.

Definition GlobalRequest_check (r : GlobalRequest) : result GlobalRequest :=
  _ ← check_id (req_request_id r) "request";
  _ ← check_text (req_objective r) "objective" MAX_TEXT;
  _ ← check_texts (req_success_criteria r) "success_criteria";
  _ ← check_texts (req_constraints r) "constraints";
  _ ← check_texts (req_non_goals r) "non_goals";
  _ ← check_id (req_requested_by r) "requested_by";
  _ ← check_ids (req_repositories_requested r ++ req_repositories_resolved r) "repo";
  _ ← check_texts (req_user_gates r) "user_gates";
  _ ← check_time (req_created_at_utc r) "request_timestamp";
  _ ← _state (req_state r) REQUEST_STATES "request";
  _ ← _version (req_version r);
  Ok r.

Record RepoDispatch := {
  rd_dispatch_id : string;
  rd_request_id : string;
  rd_repo_id : string;
  rd_queen_principal_id : string;
  rd_objective : string;
  rd_success_criteria : list string;
  rd_constraints : list string;
  rd_dispatch_priority : DispatchPriority;
  rd_effective_priority : DispatchPriority;
  rd_deadline_at_utc : option datetime;
  rd_depends_on_dispatch_ids : list string;
  rd_budget : mapping;
  rd_state : string;
  rd_version : Z;
}.

Definition RepoDispatch_check (d : RepoDispatch) : result RepoDispatch :=
  _ ← check_id (rd_dispatch_id d) "dispatch";
  _ ← check_id (rd_request_id d) "request";
  _ ← check_id (rd_repo_id d) "repo";
  _ ← check_id (rd_queen_principal_id d) "queen";
  _ ← check_text (rd_objective d) "objective" MAX_TEXT;
  _ ← check_texts (rd_success_criteria d) "success_criteria";
  _ ← check_texts (rd_constraints d) "constraints";
  _ ← check_opt_time (rd_deadline_at_utc d) "deadline";
  _ ← require (Z.of_nat (length (rd_depends_on_dispatch_ids d)) <=? MAX_LIST)
        (HiveDispatchError "invalid_dispatch_dependencies");
  _ ← check_ids (rd_depends_on_dispatch_ids d) "dispatch_dependency";
  _ ← check_mapping (rd_budget d) "budget";
  _ ← _state (rd_state d) DISPATCH_STATES "dispatch";
  _ ← _version (rd_version d);
  Ok d.

Record WorkPackage := {
  wp_workpackage_id : string;
  wp_dispatch_id : string;
  wp_owner_teamlead_principal_id : string;
  wp_objective : string;
  wp_scope : list string;
  wp_write_paths : list string;
  wp_success_criteria : list string;
  wp_test_requirements : list string;
  wp_release_policy : string;
  wp_depends_on_workpackage_ids : list string;
  wp_resource_profile : mapping;
  wp_state : string;
  wp_ready_since_utc : option datetime;
  wp_version : Z;
}.

Definition WorkPackage_check (w : WorkPackage) : result WorkPackage :=
  _ ← check_id (wp_workpackage_id w) "workpackage";
  _ ← check_id (wp_dispatch_id w) "dispatch";
  _ ← check_id (wp_owner_teamlead_principal_id w) "teamlead";
  _ ← check_text (wp_objective w) "objective" MAX_TEXT;
  _ ← check_texts (wp_scope w) "scope";
  _ ← check_texts (wp_write_paths w) "write_paths";
  _ ← check_texts (wp_success_criteria w) "success_criteria";
  _ ← check_texts (wp_test_requirements w) "test_requirements";
  _ ← check_text (wp_release_policy w) "release_policy" 128;
  _ ← require (Z.of_nat (length (wp_depends_on_workpackage_ids w)) <=? MAX_LIST)
        (HiveDispatchError "invalid_workpackage_dependencies");
  _ ← check_ids (wp_depends_on_workpackage_ids w) "workpackage_dependency";
  _ ← check_mapping (wp_resource_profile w) "resource_profile";
  _ ← _state (wp_state w) WORKPACKAGE_STATES "workpackage";
  _ ← check_opt_time (wp_ready_since_utc w) "ready_timestamp";
  _ ← _version (wp_version w);
  Ok w.

Record AssignmentIntent := {
  ai_assignment_intent_id : string;
  ai_request_id : string;
  ai_dispatch_id : string;
  ai_workpackage_id : string;
  ai_repo_id : string;
  ai_parent_principal_id : string;
  ai_grant_id : string;
  ai_class_id : string;
  ai_dispatch_priority : DispatchPriority;
  ai_task_complexity : TaskComplexity;
  ai_model_policy_constraints : mapping;
  ai_scope_reservation_request : mapping;
  ai_expected_usage_bucket : string;
  ai_decision_refs : list string;
  ai_context_digest : string;
}.

Definition AssignmentIntent_check (a : AssignmentIntent) : result AssignmentIntent :=
  _ ← check_id (ai_assignment_intent_id a) "assignment_intent";
  _ ← check_id (ai_request_id a) "request";
  _ ← check_id (ai_dispatch_id a) "dispatch";
  _ ← check_id (ai_workpackage_id a) "workpackage";
  _ ← check_id (ai_repo_id a) "repo";
  _ ← check_id (ai_parent_principal_id a) "parent_principal";
  _ ← check_id (ai_grant_id a) "grant";
  _ ← check_id (ai_class_id a) "class";
  _ ← check_mapping (ai_model_policy_constraints a) "model_policy";
  _ ← check_mapping (ai_scope_reservation_request a) "scope_reservation";
  _ ← check_text (ai_expected_usage_bucket a) "usage_bucket" 128;
  _ ← check_texts (ai_decision_refs a) "decision_refs";
  _ ← check_text (ai_context_digest a) "context_digest" 192;
  Ok a.

(** ** Versioned transitions

    What [_transition] uses of an item: its state and version, [replace]
    with new ones, and the constructor that [replace] runs again. *)

Class WorkItem (T : Type) := {
  item_state : T → string;
  item_version : T → Z;
  item_with : T → string → Z → T;
  item_check : T → result T;
}.

Section transition.
Context {T : Type} `{WorkItem T}.

Definition version_matches (expected_version : pyval) (version : Z) : bool :=
  match expected_version with VInt v => v =? version | _ => false end.

Definition _transition (item : T) (target : string) (expected_version : pyval) (transitions : graph)
  : result T :=
  let current := item_state item in
  if negb (version_matches expected_version (item_version item))
  then Err (HiveDispatchError "stale_dispatch_version")
  else if bool_decide (target = current) then Ok item
  else if negb (bool_decide (target ∈ successors transitions current))
  then Err (HiveDispatchError ("invalid_transition:" +:+ current +:+ "->" +:+ target))
  else item_check (item_with item target (item_version item + 1)).
End transition.

#[export] Instance request_item : WorkItem GlobalRequest := {
  item_state := req_state;
  item_version := req_version;
  item_with r st v :=
    {| req_request_id := req_request_id r; req_objective := req_objective r;
       req_success_criteria := req_success_criteria r; req_constraints := req_constraints r;
       req_non_goals := req_non_goals r; req_requested_by := req_requested_by r;
       req_repositories_requested := req_repositories_requested r;
       req_repositories_resolved := req_repositories_resolved r;
       req_dispatch_priority := req_dispatch_priority r; req_user_gates := req_user_gates r;
       req_created_at_utc := req_created_at_utc r; req_state := st; req_version := v |};
  item_check := GlobalRequest_check;
}.

#[export] Instance dispatch_item : WorkItem RepoDispatch := {
  item_state := rd_state;
  item_version := rd_version;
  item_with d st v :=
    {| rd_dispatch_id := rd_dispatch_id d; rd_request_id := rd_request_id d;
       rd_repo_id := rd_repo_id d; rd_queen_principal_id := rd_queen_principal_id d;
       rd_objective := rd_objective d; rd_success_criteria := rd_success_criteria d;
       rd_constraints := rd_constraints d; rd_dispatch_priority := rd_dispatch_priority d;
       rd_effective_priority := rd_effective_priority d;
       rd_deadline_at_utc := rd_deadline_at_utc d;
       rd_depends_on_dispatch_ids := rd_depends_on_dispatch_ids d; rd_budget := rd_budget d;
       rd_state := st; rd_version := v |};
  item_check := RepoDispatch_check;
}.

#[export] Instance package_item : WorkItem WorkPackage := {
  item_state := wp_state;
  item_version := wp_version;
  item_with w st v :=
    {| wp_workpackage_id := wp_workpackage_id w; wp_dispatch_id := wp_dispatch_id w;
       wp_owner_teamlead_principal_id := wp_owner_teamlead_principal_id w;
       wp_objective := wp_objective w; wp_scope := wp_scope w;
       wp_write_paths := wp_write_paths w; wp_success_criteria := wp_success_criteria w;
       wp_test_requirements := wp_test_requirements w; wp_release_policy := wp_release_policy w;
       wp_depends_on_workpackage_ids := wp_depends_on_workpackage_ids w;
       wp_resource_profile := wp_resource_profile w; wp_state := st;
       wp_ready_since_utc := wp_ready_since_utc w; wp_version := v |};
  item_check := WorkPackage_check;
}.

Definition transition_request (request : GlobalRequest) (target : string) (expected_version : pyval)
  : result GlobalRequest :=
  _transition request target expected_version _REQUEST_TRANSITIONS.

Definition transition_dispatch (dispatch : RepoDispatch) (target : string)
  (expected_version : pyval) : result RepoDispatch :=
  _transition dispatch target expected_version _DISPATCH_TRANSITIONS.

Definition transition_workpackage (workpackage : WorkPackage) (target : string)
  (expected_version : pyval) : result WorkPackage :=
  _transition workpackage target expected_version _WORKPACKAGE_TRANSITIONS.

(** ** Reports and checkpoints *)

Definition transition_workpackage_from_report (workpackage : WorkPackage) (message : HiveMessage)
  (expected_version : pyval) : result WorkPackage :=
  _ ← require (bool_decide (msg_workpackage_id message = Some (wp_workpackage_id workpackage)))
        (HiveDispatchError "report_workpackage_mismatch");
  report ← record_child_report message;
  target ← getitem "status" report;
  match target with
  | VStr target =>
      _ ← require (bool_decide (target ∈ WORKPACKAGE_STATES))
            (HiveDispatchError "unsupported_report_status");
      transition_workpackage workpackage target expected_version
  | _ => Err (HiveDispatchError "unsupported_report_status")
  end.

Definition _PAUSE_FORBIDDEN_MARKERS : list string :=
  [ "sp0"; "sp1"; "sp2"; "sp3"; "selection"; "fairness"; "model"; "lease"; "kill"; "interrupt";
    "restart" ].

Definition request_cooperative_pause (workpackage_id reason : pyval) : result mapping :=
  _ ← _id workpackage_id "workpackage";
  reason ← _text reason "pause_reason" 256;
  _ ← require (negb (existsb (λ marker, contains marker (py_casefold reason))
                       _PAUSE_FORBIDDEN_MARKERS))
        (HiveDispatchError "pause_source_not_allowed");
  Ok [ ("allowed", VBool true); ("reason_code", VStr "cooperative_pause_requested");
       ("workpackage_id", workpackage_id); ("reason", VStr reason);
       ("next_state", VStr "cooperative_pause_requested"); ("checkpoint_required", VBool true);
       ("report_required", VBool true); ("hard_kill", VBool false);
       ("lease_takeover", VBool false); ("mutation_performed", VBool false);
       ("raw_output", VStr "not_returned") ].

(** [value is True]. *)
Definition is_True (v : pyval) : bool := match v with VBool b => b | _ => false end.

Definition acknowledge_checkpoint (message : HiveMessage) : result mapping :=
  _ ← require (bool_decide (msg_message_type message = "progress.report"))
        (HiveDispatchError "checkpoint_report_required");
  match msg_workpackage_id message with
  | None => Err (HiveDispatchError "checkpoint_workpackage_required")
  | Some workpackage_id =>
      let payload := msg_payload message in
      _ ← require (is_True (get "checkpoint" payload)
                   && py_eq_str (get "checkpoint_state" payload) "safe"
                   && is_True (get "pause_requested" payload))
            (HiveDispatchError "unsafe_checkpoint");
      let origin := default (VStr "work_orchestration") (dict_get "origin" payload) in
      _ ← require (existsb (py_eq_str origin) ["work_orchestration"; "teamlead"; "queen"])
            (HiveDispatchError "checkpoint_source_not_allowed");
      report ← record_child_report message;
      digest ← getitem "payload_digest" report;
      Ok [ ("allowed", VBool true); ("reason_code", VStr "safe_checkpoint_acknowledged");
           ("workpackage_id", VStr workpackage_id);
           ("message_id", VStr (msg_message_id message));
           ("correlation_id", VStr (msg_correlation_id message)); ("payload_digest", digest);
           ("next_state", VStr "paused"); ("hard_kill", VBool false);
           ("lease_takeover", VBool false); ("mutation_performed", VBool false);
           ("raw_output", VStr "not_returned") ]
  end.

Definition transition_workpackage_at_checkpoint (workpackage : WorkPackage) (message : HiveMessage)
  (expected_version : pyval) : result WorkPackage :=
  _ ← acknowledge_checkpoint message;
  transition_workpackage workpackage "paused" expected_version.

Definition resume_paused_workpackage (workpackage_id : pyval) : result mapping :=
  _ ← _id workpackage_id "workpackage";
  Ok [ ("allowed", VBool false); ("reason_code", VStr "resume_revalidation_required");
       ("workpackage_id", workpackage_id); ("next_state", VStr "queued");
       ("requires_fresh_admission", VBool true); ("requires_scope_revalidation", VBool true);
       ("lease_takeover", VBool false); ("hard_kill", VBool false);
       ("mutation_performed", VBool false); ("raw_output", VStr "not_returned") ].

(** ** What a transition does

    [WorkItemLaws] is what the graph theorems need of an item: replacing the
    state and the version of a valid item gives a valid item exactly when the
    new state is known and the new version in range. *)

Definition MAX_VERSION : Z := 10 ^ 12.

Class WorkItemLaws (T : Type) `{WorkItem T} (states : list string) : Prop := {
  state_with t s v : item_state (item_with t s v) = s;
  version_with t s v : item_version (item_with t s v) = v;
  with_with t s v s' v' : item_with (item_with t s v) s' v' = item_with t s' v';
  with_same t : item_with t (item_state t) (item_version t) = t;
  check_state t : item_check t = Ok t → item_state t ∈ states ∧ 1 <= item_version t <= MAX_VERSION;
  check_with t s v t' :
    item_check t = Ok t →
    item_check (item_with t s v) = Ok t' ↔
    s ∈ states ∧ 1 <= v <= MAX_VERSION ∧ t' = item_with t s v;
}.

Lemma _state_Ok s l f u : _state s l f = Ok u ↔ s ∈ l.
Proof. unfold _state. rewrite require_Ok. apply bool_decide_eq_true. Qed.

Lemma _version_Ok v u : _version v = Ok u ↔ 1 <= v <= MAX_VERSION.
Proof. unfold _version, MAX_VERSION. rewrite require_Ok. lia. Qed.

Lemma bind_check {A B} (m : result A) (f : A → result B) b :
  (∃ a, m = Ok a ∧ f a = Ok b) → m ≫= f = Ok b.
Proof. apply bind_Ok. Qed.

(** [solve_item_laws check] proves the laws of a checked record: the checks
    that mention neither the state nor the version carry over. *)
Ltac solve_check_with :=
  intros H; split;
  [ intros H'; repeat (apply bind_Ok in H' as (? & ? & H')); injection H' as <-;
    repeat match goal with
    | E : _state _ _ _ = Ok _ |- _ => apply _state_Ok in E
    | E : _version _ = Ok _ |- _ => apply _version_Ok in E as [? ?]
    end; by split_and!
  | intros (Hs & Hv & ->);
    repeat (apply bind_Ok in H as (? & ? & H));
    repeat match goal with
    | E : _state _ _ _ = Ok _ |- _ => clear E
    | E : _version _ = Ok _ |- _ => clear E
    end;
    repeat first
      [ apply bind_check; eexists (); split; [by apply _state_Ok|]
      | apply bind_check; eexists (); split; [by apply _version_Ok|]
      | apply bind_check; eexists; split; [eassumption|] ];
    reflexivity ].

Ltac solve_check_state :=
  intros H; repeat (apply bind_Ok in H as (? & ? & H));
  repeat match goal with
  | E : _state _ _ _ = Ok _ |- _ => apply _state_Ok in E
  | E : _version _ = Ok _ |- _ => apply _version_Ok in E as [? ?]
  end; by split_and!.

#[export] Instance request_laws : WorkItemLaws GlobalRequest REQUEST_STATES.
Proof.
  split; try done; [by intros []| |]; cbn [item_check item_state item_version request_item];
    unfold GlobalRequest_check; [intros t; solve_check_state|intros t s v t'; solve_check_with].
Qed.

#[export] Instance dispatch_laws : WorkItemLaws RepoDispatch DISPATCH_STATES.
Proof.
  split; try done; [by intros []| |]; cbn [item_check item_state item_version dispatch_item];
    unfold RepoDispatch_check; [intros t; solve_check_state|intros t s v t'; solve_check_with].
Qed.

#[export] Instance package_laws : WorkItemLaws WorkPackage WORKPACKAGE_STATES.
Proof.
  split; try done; [by intros []| |]; cbn [item_check item_state item_version package_item];
    unfold WorkPackage_check; [intros t; solve_check_state|intros t s v t'; solve_check_with].
Qed.

(** Every edge of a graph leads to a known state. *)
Definition graph_within (g : graph) (states : list string) : bool :=
  forallb (λ e, forallb (λ s, bool_decide (s ∈ states)) e.2) g.

Lemma successors_within g states s t :
  graph_within g states = true → t ∈ successors g s → t ∈ states.
Proof.
  unfold graph_within, successors. rewrite forallb_forall. intros Hg.
  destruct (dict_get s g) as [l|] eqn:Hs; cbn; [|by intros ?%elem_of_nil].
  apply dict_get_elem_of, list_elem_of_In, Hg in Hs. cbn in Hs.
  rewrite forallb_forall in Hs. intros Ht%list_elem_of_In.
  by apply (bool_decide_eq_true (t ∈ states)), Hs.
Qed.

(** The step a call makes: the caller names the current version, and either
    asks for the current state or follows an edge. *)
Definition versioned_step {T} `{WorkItem T} (g : graph) (t : T) (target : string)
    (expected_version : pyval) (t' : T) : Prop :=
  expected_version = VInt (item_version t) ∧
  ((target = item_state t ∧ t' = t) ∨
   (target ≠ item_state t ∧ target ∈ successors g (item_state t) ∧ item_version t < MAX_VERSION ∧
    t' = item_with t target (item_version t + 1))).

Section laws.
Context {T : Type} {states : list string} `{WorkItemLaws T states} (g : graph).
Hypothesis Hg : graph_within g states = true.

Lemma transition_Ok (t t' : T) target ev :
  item_check t = Ok t → _transition t target ev g = Ok t' ↔ versioned_step g t target ev t'.
Proof using All.
  intros Ht. unfold _transition, versioned_step, version_matches.
  destruct (check_state t Ht) as [_ Hv].
  destruct ev as [| |z| | | |]; cbn; try (split; [done|by intros [? _]]).
  destruct (Z.eqb_spec z (item_version t)) as [->|]; cbn;
    [|split; [done|by intros [[= ?] _]]].
  case_bool_decide as Hcur; [naive_solver|].
  case_bool_decide as Hsucc; cbn; [|naive_solver].
  rewrite (check_with t target (item_version t + 1) t' Ht). split.
  - intros (_ & ? & ->). split; [done|]. right. split_and!; [done..|lia|done].
  - intros [_ [[? _]|(_ & _ & ? & ->)]]; [done|].
    split_and!; [by eapply successors_within|lia|lia|done].
Qed.

Lemma transition_check (t t' : T) target ev :
  item_check t = Ok t → _transition t target ev g = Ok t' → item_check t' = Ok t'.
Proof using All.
  intros Ht. rewrite transition_Ok by done.
  destruct (check_state t Ht) as [_ ?].
  intros [_ [[_ ->]|(_ & Hs & ? & ->)]]; [done|].
  apply (check_with t target _ _ Ht). split_and!; [by eapply successors_within|lia|lia|done].
Qed.
End laws.

(** On valid objects the three transition functions do exactly what the
    state graphs say: a call succeeds when it names the object's current
    version and asks either for its current state, which returns the object
    unchanged, or for a successor state, which returns the object with that
    state, the next version and every other field kept; every other call
    raises. *)
Theorem transitions_exact :
  (∀ r target ev r', GlobalRequest_check r = Ok r →
     transition_request r target ev = Ok r' ↔ versioned_step _REQUEST_TRANSITIONS r target ev r') ∧
  (∀ d target ev d', RepoDispatch_check d = Ok d →
     transition_dispatch d target ev = Ok d' ↔ versioned_step _DISPATCH_TRANSITIONS d target ev d') ∧
  (∀ w target ev w', WorkPackage_check w = Ok w →
     transition_workpackage w target ev = Ok w'
     ↔ versioned_step _WORKPACKAGE_TRANSITIONS w target ev w').
Proof.
  split_and!; intros x target ev x' Hx.
  - by apply (transition_Ok (states:=REQUEST_STATES)).
  - by apply (transition_Ok (states:=DISPATCH_STATES)).
  - by apply (transition_Ok (states:=WORKPACKAGE_STATES)).
Qed.

(** ** Lives of a workpackage *)

(** The calls that move a workpackage. *)
Inductive package_call :=
  | Transition (target : string) (expected_version : pyval)
  | FromReport (message : HiveMessage) (expected_version : pyval)
  | AtCheckpoint (message : HiveMessage) (expected_version : pyval).

Definition package_call_run (w : WorkPackage) (c : package_call) : result WorkPackage :=
  match c with
  | Transition target ev => transition_workpackage w target ev
  | FromReport m ev => transition_workpackage_from_report w m ev
  | AtCheckpoint m ev => transition_workpackage_at_checkpoint w m ev
  end.

(** Successful calls from [w], with the states entered, newest first. *)
Inductive package_life (w0 : WorkPackage) : WorkPackage → list string → Prop :=
  | life_start : package_life w0 w0 [wp_state w0]
  | life_call w trail c w' :
      package_life w0 w trail → package_call_run w c = Ok w' →
      package_life w0 w'
        (if bool_decide (wp_state w' = wp_state w) then trail else wp_state w' :: trail).

Lemma package_call_transition w c w' :
  package_call_run w c = Ok w' → ∃ target ev, transition_workpackage w target ev = Ok w'.
Proof.
  destruct c as [target ev|m ev|m ev]; cbn [package_call_run]; [by eauto| |].
  - unfold transition_workpackage_from_report. intros H.
    repeat (apply bind_Ok in H as (? & _ & H)).
    match type of H with match ?v with _ => _ end = _ => destruct v end; try done.
    apply bind_Ok in H as (? & _ & H). eauto.
  - intros (? & _ & H)%bind_Ok. eauto.
Qed.

Lemma package_call_step w c w' :
  WorkPackage_check w = Ok w → package_call_run w c = Ok w' →
  WorkPackage_check w' = Ok w' ∧
  (w' = w ∨
   wp_state w' ≠ wp_state w ∧ wp_state w' ∈ successors _WORKPACKAGE_TRANSITIONS (wp_state w) ∧
   w' = item_with w (wp_state w') (wp_version w + 1)).
Proof.
  intros Hw (target & ev & Ht)%package_call_transition. split.
  - exact (@transition_check WorkPackage WORKPACKAGE_STATES package_item package_laws
             _WORKPACKAGE_TRANSITIONS eq_refl w w' target ev Hw Ht).
  - apply (@transition_Ok WorkPackage WORKPACKAGE_STATES package_item package_laws
             _WORKPACKAGE_TRANSITIONS eq_refl w w' target ev Hw) in Ht.
    destruct Ht as [_ [[_ ->]|(? & ? & _ & ->)]]; [by left|by right].
Qed.

(** The states a newly entered state leaves behind: each list is what the
    trail of a package started in [planned] must contain. *)
Definition must_have_passed (s : string) : list string :=
  let queued := ["queued"; "planned"] in
  let admitted := ["admitted"; "admission_planned"] ++ queued in
  if bool_decide (s ∈ ["admission_planned"; "conflict"]) then queued
  else if bool_decide (s = "admitted") then ["admission_planned"] ++ queued
  else if bool_decide (s ∈ ["executing"]) then admitted
  else if bool_decide (s ∈ ["decision_required"; "integrating"]) then "executing" :: admitted
  else if bool_decide (s = "completed") then "integrating" :: "executing" :: admitted
  else if bool_decide (s = "planned") then [] else ["planned"].

(** The obligation is inherited along every edge. *)
Definition inherits (s t : string) : bool :=
  forallb (λ p, bool_decide (p ∈ s :: must_have_passed s)) (must_have_passed t).

Lemma edges_inherit s t : t ∈ successors _WORKPACKAGE_TRANSITIONS s → inherits s t = true.
Proof.
  intros Ht. unfold successors in Ht.
  destruct (dict_get s _WORKPACKAGE_TRANSITIONS) as [l|] eqn:Hs; [|by apply elem_of_nil in Ht].
  apply dict_get_elem_of in Hs. cbn in Ht.
  assert (forallb (λ e, forallb (inherits e.1) e.2) _WORKPACKAGE_TRANSITIONS = true) as Hall
    by (vm_compute; reflexivity).
  rewrite forallb_forall in Hall. apply list_elem_of_In, Hall in Hs. cbn in Hs.
  rewrite forallb_forall in Hs. by apply Hs, list_elem_of_In.
Qed.

Lemma forallb_subseteq (l k : list string) :
  forallb (λ p, bool_decide (p ∈ k)) l = true → l ⊆ k.
Proof.
  rewrite forallb_forall. intros H p Hp%list_elem_of_In.
  by apply (bool_decide_eq_true (p ∈ k)), H.
Qed.

Lemma life_valid w0 w trail :
  WorkPackage_check w0 = Ok w0 → package_life w0 w trail →
  WorkPackage_check w = Ok w ∧ (∃ rest, trail = wp_state w :: rest) ∧
  w = item_with w0 (wp_state w) (wp_version w0 + Z.of_nat (length trail) - 1).
Proof.
  intros H0. induction 1 as [|w trail c w' Hlife (Hw & (rest & Hrest) & Heq) Hc].
  - split_and!; [done|by exists []|]. cbn.
    rewrite Z.add_simpl_r. by destruct w0.
  - destruct (package_call_step w c w' Hw Hc) as [Hw' [->|(Hne & _ & Hstep)]].
    + rewrite bool_decide_true by done. split_and!; [done|by exists rest|done].
    + rewrite bool_decide_false by done. split_and!; [done|by exists trail|].
      rewrite Hstep, Heq. cbn [wp_state wp_version item_with package_item length].
      f_equal. lia.
Qed.

Lemma life_passed w0 w trail :
  WorkPackage_check w0 = Ok w0 → must_have_passed (wp_state w0) = [] →
  package_life w0 w trail → must_have_passed (wp_state w) ⊆ trail.
Proof.
  intros H0 Hstart. induction 1 as [|w trail c w' Hlife IH Hc]; [by rewrite Hstart; apply list_subseteq_nil|].
  destruct (life_valid w0 w trail H0 Hlife) as (Hw & (rest & Hrest) & _).
  destruct (package_call_step w c w' Hw Hc) as [_ [->|(Hne & Hs & _)]];
    [by rewrite bool_decide_true|].
  rewrite bool_decide_false by done. intros p Hp. right.
  apply edges_inherit in Hs. unfold inherits in Hs. rewrite forallb_forall in Hs.
  apply list_elem_of_In, Hs, bool_decide_eq_true in Hp.
  apply elem_of_cons in Hp as [->|Hp]; [rewrite Hrest; by left|by apply IH].
Qed.

(** C30: Whatever calls are made on a planned workpackage, through the plain
    transition, a child report or a checkpoint, the object keeps every field
    but its state and version, stays valid, and its version has grown by the
    number of state changes; and a package that executes, needs a decision,
    integrates or is completed has been queued, planned for admission and
    admitted before, a completed one has executed and integrated too. *)
Theorem package_completion_requires_admission w0 w trail :
  WorkPackage_check w0 = Ok w0 → wp_state w0 = "planned" → package_life w0 w trail →
  WorkPackage_check w = Ok w ∧
  w = item_with w0 (wp_state w) (wp_version w0 + Z.of_nat (length trail) - 1) ∧
  (wp_state w ∈ ["executing"; "decision_required"; "integrating"; "completed"] →
   ["planned"; "queued"; "admission_planned"; "admitted"] ⊆ trail) ∧
  (wp_state w = "completed" → ["executing"; "integrating"] ⊆ trail).
Proof.
  intros H0 Hplanned Hlife.
  destruct (life_valid _ _ _ H0 Hlife) as (Hw & _ & Heq).
  assert (must_have_passed (wp_state w0) = []) as Hs by by rewrite Hplanned.
  pose proof (life_passed _ _ _ H0 Hs Hlife) as Hp.
  split_and!; [done|done| |].
  - rewrite !elem_of_cons, elem_of_nil. intros Hin p Hpin. apply Hp.
    assert (["planned"; "queued"; "admission_planned"; "admitted"]
              ⊆ must_have_passed (wp_state w)) as Hsub; [|by apply Hsub].
    apply forallb_subseteq.
    destruct Hin as [->|[->|[->|[->|[]]]]]; vm_compute; reflexivity.
  - intros Hc p Hpin. apply Hp. rewrite Hc. revert p Hpin.
    apply forallb_subseteq. vm_compute. reflexivity.
Qed.

(** ** Concrete objects *)

Definition sample_package : WorkPackage :=
  {| wp_workpackage_id := "wp-1"; wp_dispatch_id := "dispatch-1";
     wp_owner_teamlead_principal_id := "lead-1"; wp_objective := "Port the parser";
     wp_scope := ["src/parser"]; wp_write_paths := ["src/parser/a.py"];
     wp_success_criteria := ["tests pass"]; wp_test_requirements := [];
     wp_release_policy := "manual"; wp_depends_on_workpackage_ids := ["wp-0"];
     wp_resource_profile := [("dispatch_priority", VStr "DP1"); ("repo_id", VStr "codex-master")];
     wp_state := "planned"; wp_ready_since_utc := None; wp_version := 1 |}.

Lemma sample_package_check : WorkPackage_check sample_package = Ok sample_package.
Proof. vm_compute. reflexivity. Qed.

Lemma transitions_exact_witness :
  WorkPackage_check sample_package = Ok sample_package ∧
  transition_workpackage sample_package "ready" (VInt 1) = Ok (item_with sample_package "ready" 2).
Proof.
  split; [exact sample_package_check|].
  apply (proj2 (proj2 transitions_exact)); [exact sample_package_check|].
  split; [reflexivity|right]. split_and!; [done| |done|done].
  apply list_elem_of_In. by left.
Defined.

Definition package_at (state : string) (version : Z) : WorkPackage :=
  item_with sample_package state version.

Lemma life_edge w0 w trail target v w' :
  package_life w0 w trail → transition_workpackage w target (VInt v) = Ok w' →
  wp_state w' ≠ wp_state w → package_life w0 w' (wp_state w' :: trail).
Proof.
  intros Hlife Ht Hne.
  pose proof (life_call w0 w trail (Transition target (VInt v)) w' Hlife Ht) as H.
  by rewrite bool_decide_false in H.
Qed.

Lemma package_completion_requires_admission_witness :
  package_life sample_package (package_at "executing" 6)
    ["executing"; "admitted"; "admission_planned"; "queued"; "ready"; "planned"] ∧
  ["planned"; "queued"; "admission_planned"; "admitted"]
    ⊆ ["executing"; "admitted"; "admission_planned"; "queued"; "ready"; "planned"].
Proof.
  assert (package_life sample_package (package_at "executing" 6)
    ["executing"; "admitted"; "admission_planned"; "queued"; "ready"; "planned"]) as Hlife.
  { apply (life_edge _ (package_at "admitted" 5) _ "executing" 5 (package_at "executing" 6));
      [|vm_compute; reflexivity|done].
    apply (life_edge _ (package_at "admission_planned" 4) _ "admitted" 4 (package_at "admitted" 5));
      [|vm_compute; reflexivity|done].
    apply (life_edge _ (package_at "queued" 3) _ "admission_planned" 3 (package_at "admission_planned" 4));
      [|vm_compute; reflexivity|done].
    apply (life_edge _ (package_at "ready" 2) _ "queued" 2 (package_at "queued" 3));
      [|vm_compute; reflexivity|done].
    apply (life_edge _ sample_package _ "ready" 1 (package_at "ready" 2));
      [apply life_start|vm_compute; reflexivity|done]. }
  split; [exact Hlife|].
  destruct (package_completion_requires_admission _ _ _ sample_package_check eq_refl Hlife)
    as (_ & _ & H & _).
  apply H. by left.
Defined.

(** A checkpoint report of another workpackage pauses this one: the adapter
    compares neither the identifiers nor the state it leaves. *)
Definition checkpoint_of (workpackage_id : string) : HiveMessage :=
  {| msg_schema_version := VInt 1; msg_message_id := "msg-2"; msg_correlation_id := "cor-2";
     msg_causation_id := None; msg_message_type := "progress.report";
     msg_sender := sample_reference "bee-2"; msg_recipient := sample_reference "queen-1";
     msg_repo_id := None; msg_dispatch_id := None; msg_workpackage_id := Some workpackage_id;
     msg_dispatch_priority := DP1;
     msg_created_at_utc := msg_created_at_utc sample_message;
     msg_expires_at_utc := msg_expires_at_utc sample_message;
     msg_authorization := msg_authorization sample_message;
     msg_payload := [ ("checkpoint", VBool true); ("checkpoint_state", VStr "safe");
                      ("pause_requested", VBool true) ] |}.

Theorem checkpoint_of_another_package_pauses :
  transition_workpackage_at_checkpoint (package_at "executing" 6) (checkpoint_of "wp-99") (VInt 6)
  = Ok (package_at "paused" 7) ∧
  transition_workpackage_from_report (package_at "executing" 6) (checkpoint_of "wp-99") (VInt 6)
  = Err (HiveDispatchError "report_workpackage_mismatch").
Proof.
  split; [|reflexivity]. unfold transition_workpackage_at_checkpoint.
  apply bind_Ok. eexists. split; [reflexivity|]. vm_compute. reflexivity.
Qed.
