(* ===== verification/HiveSaga.v ===== *)
(** * Multi-repository sagas

    [src/src/the_hive/hive/dispatch.py], lines 261 to 645: the bounded plan
    of a global request, its authorization, its execution with reverse-order
    compensation, and the retry and cancel adapters. *)

From S2P Require Import Prelude PyTime DynamicPool Order Json Sha256 HiveTypes HiveMessages.
From S2P Require Import HiveWork.
#[local] Open Scope Z_scope.

Definition _GODBEE_PRINCIPAL : string := "godbee-main".
Definition _SAGA_MODES : list string := ["shadow"; "enforced"].

(** ** The plan *)

Record GlobalRequestPlan := {
  gp_request : GlobalRequest;
  gp_dispatches : list RepoDispatch;
  gp_mode : string;
  gp_planning_reason : string;
  gp_user_gates : list string;
}.

Definition GlobalRequestPlan_check (p : GlobalRequestPlan) : result GlobalRequestPlan :=
  _ ← require (Z.of_nat (length (gp_dispatches p)) <=? MAX_LIST)
        (HiveDispatchError "invalid_global_dispatches");
  _ ← require (bool_decide (gp_mode p ∈ _SAGA_MODES)) (HiveDispatchError "invalid_saga_mode");
  _ ← check_text (gp_planning_reason p) "planning_reason" 64;
  _ ← check_texts (gp_user_gates p) "user_gates";
  _ ← require (bool_decide (rd_repo_id <$> gp_dispatches p
                            = req_repositories_resolved (gp_request p)))
        (HiveDispatchError "global_dispatch_repository_mismatch");
  _ ← require (forallb (λ d, bool_decide (rd_request_id d = req_request_id (gp_request p)))
                 (gp_dispatches p))
        (HiveDispatchError "global_dispatch_request_mismatch");
  Ok p.

Definition ready_for_execution (p : GlobalRequestPlan) : bool :=
  bool_decide (gp_planning_reason p = "ready") && bool_decide (req_state (gp_request p) = "planned").

Definition plan_public (p : GlobalRequestPlan) : mapping :=
  let r := gp_request p in
  [ ("request_id", VStr (req_request_id r));
    ("actor_principal_id", VStr (req_requested_by r));
    ("mode", VStr (gp_mode p));
    ("planning_reason", VStr (gp_planning_reason p));
    ("state", VStr (req_state r));
    ("version", VInt (req_version r));
    ("repository_count", VInt (Z.of_nat (length (req_repositories_requested r))));
    ("resolved_repository_count", VInt (Z.of_nat (length (req_repositories_resolved r))));
    ("dispatches",
      VList ((λ d, VDict [ ("dispatch_id", VStr (rd_dispatch_id d));
                           ("repo_id", VStr (rd_repo_id d));
                           ("queen_principal_id", VStr (rd_queen_principal_id d));
                           ("state", VStr (rd_state d));
                           ("version", VInt (rd_version d));
                           ("dependency_count",
                             VInt (Z.of_nat (length (rd_depends_on_dispatch_ids d)))) ])
             <$> gp_dispatches p));
    ("user_gates", VList (VStr <$> gp_user_gates p));
    ("direct_write_paths", VStr "not_returned");
    ("raw_output", VStr "not_returned") ].

(** ** Planning *)

(** The separator [\x1f]. *)
Definition unit_separator : string := String (char_at 31) "".

Definition _saga_request_digest (actor objective : string) (repositories : list string)
    (priority : DispatchPriority) (success_criteria constraints : list string) : string :=
  sha256_hex (py_join unit_separator
    ([actor; objective; priority_value priority] ++ repositories ++ success_criteria
     ++ constraints)).

(** [digest[:24]]. *)
Definition digest_prefix (digest : string) : string := String.substring 0 24 digest.

(** [for repo_id, queen_id in registry.items()]: the checked registry. *)
Definition known_queens (registry : mapping) : result (list (string * string)) :=
  mapM_result (λ e, _ ← _id (VStr e.1) "repo"; queen ← _id e.2 "queen"; Ok (e.1, queen)) registry.

(** The gates the lowered constraints call for. *)
Definition required_gates (constraints : list string) : list string :=
  let lowered := py_lower (py_join " " constraints) in
  (if contains "breaking" lowered then ["breaking_changes"] else [])
  ++ (if contains "destruct" lowered || contains "force-push" lowered
      then ["global_destruction"] else []).

(** [sorted(set(gates))]. *)
Definition sorted_set (gates : list string) : list string :=
  sort_by str_cmp id (remove_dups gates).

Definition saga_dispatch (digest request_id objective : string) (criteria constraints : list string)
    (priority : DispatchPriority) (state repo_id queen : string) : RepoDispatch :=
  {| rd_dispatch_id := "dispatch-" +:+ digest_prefix (sha256_hex (digest +:+ repo_id));
     rd_request_id := request_id; rd_repo_id := repo_id; rd_queen_principal_id := queen;
     rd_objective := objective; rd_success_criteria := criteria; rd_constraints := constraints;
     rd_dispatch_priority := priority; rd_effective_priority := priority;
     rd_deadline_at_utc := None; rd_depends_on_dispatch_ids := [];
     rd_budget := [("repo_id", VStr repo_id); ("saga", VStr "independent")];
     rd_state := state; rd_version := 1 |}.

(** [clock] is the outcome of sampling the injected or the system clock. *)
Definition plan_global_request (actor_principal_id objective : pyval) (repositories : list pyval)
    (priority : pyval) (success_criteria constraints : list pyval)
    (repository_queens : option mapping) (user_gates : list pyval) (mode : pyval)
    (clock : result datetime) : result GlobalRequestPlan :=
  _ ← require (py_eq_str actor_principal_id _GODBEE_PRINCIPAL)
        (HiveDispatchError "godbee_actor_required");
  actor ← _id actor_principal_id "actor";
  objective ← _text objective "objective" MAX_TEXT;
  _ ← require ((1 <=? Z.of_nat (length repositories))
               && (Z.of_nat (length repositories) <=? MAX_LIST))
        (HiveDispatchError "invalid_global_repositories");
  repositories ← mapM_result (λ v, _id v "repo") repositories;
  _ ← require (bool_decide (NoDup repositories)) (HiveDispatchError "duplicate_global_repository");
  priority ← reraise (λ e, is_type_error e || is_value_error e)
               (λ _, HiveDispatchError "invalid_dispatch_priority") (DispatchPriority_of priority);
  criteria ← _texts success_criteria "success_criteria";
  constraints ← _texts constraints "constraints";
  user_gates ← _texts user_gates "user_gates";
  known_mode ← py_in_set mode _SAGA_MODES;
  _ ← require known_mode (HiveDispatchError "invalid_saga_mode");
  known ← known_queens (default [] repository_queens);
  let resolved := List.filter (λ r, bool_decide (r ∈ dict_keys known)) repositories in
  let unknown := List.filter (λ r, negb (bool_decide (r ∈ dict_keys known))) repositories in
  let normalized_gates := user_gates ++ required_gates constraints in
  let missing_gate :=
    existsb (λ gate, negb (bool_decide (gate ∈ user_gates)))
      (List.filter (λ gate, bool_decide (gate ∈ ["breaking_changes"; "global_destruction"]))
         normalized_gates) in
  let planning_reason :=
    match unknown with
    | _ :: _ => "unknown_repository"
    | [] => if missing_gate then "user_gate_required" else "ready"
    end in
  let digest := _saga_request_digest actor objective repositories priority criteria constraints in
  let request_id := "request-" +:+ digest_prefix digest in
  let state := if bool_decide (planning_reason = "ready") then "planned" else "blocked" in
  created_at ← reraise (λ _, true) (λ _, HiveDispatchError "invalid_request_timestamp")
                 (sample ← clock; _time sample "request_timestamp");
  request ← GlobalRequest_check
    {| req_request_id := request_id; req_objective := objective;
       req_success_criteria := criteria; req_constraints := constraints; req_non_goals := [];
       req_requested_by := actor; req_repositories_requested := repositories;
       req_repositories_resolved := resolved; req_dispatch_priority := priority;
       req_user_gates := sorted_set normalized_gates; req_created_at_utc := created_at;
       req_state := state; req_version := 1 |};
  dispatches ← mapM_result (λ repo_id,
    match dict_get repo_id known with
    | Some queen => RepoDispatch_check
        (saga_dispatch digest request_id objective criteria constraints priority state repo_id queen)
    | None => Err (KeyError repo_id)
    end) resolved;
  match mode with
  | VStr mode => GlobalRequestPlan_check
      {| gp_request := request; gp_dispatches := dispatches; gp_mode := mode;
         gp_planning_reason := planning_reason;
         gp_user_gates := sorted_set normalized_gates |}
  | _ => Err (HiveDispatchError "invalid_saga_mode")
  end.

(** ** Execution

    A context holds the callbacks the caller injects; they act on a world
    [W] and may raise.  An absent callback is [None]. *)

Record GlobalSagaExecutionContext (W : Type) := {
  pilot_queens : list string;
  pilot_repositories : list string;
  confirmed_gates : list string;
  create_global_request : option (GlobalRequest → ST W pyval);
  create_repo_dispatch : option (RepoDispatch → ST W pyval);
  execute_repo_dispatch : option (RepoDispatch → ST W pyval);
  compensate : option (string → string → pyval → ST W ());
  retry_dispatch : option (string → Z → ST W pyval);
  cancel_request : option (string → Z → ST W pyval);
}.
Arguments pilot_queens {_} _.
Arguments pilot_repositories {_} _.
Arguments confirmed_gates {_} _.
Arguments create_global_request {_} _.
Arguments create_repo_dispatch {_} _.
Arguments execute_repo_dispatch {_} _.
Arguments compensate {_} _.
Arguments retry_dispatch {_} _.
Arguments cancel_request {_} _.

Definition callable {A} (o : option A) : bool := match o with Some _ => true | None => false end.

(** A started step: its kind, its identifier and its result ([None] until
    the call returns). *)
Abbreviation step := (string * string * pyval)%type.

Section execution.
Context {W : Type}.
Implicit Types (c : GlobalSagaExecutionContext W) (p : GlobalRequestPlan).

Definition ready_for c p : bool :=
  ready_for_execution p
  && forallb (λ d, bool_decide (rd_queen_principal_id d ∈ pilot_queens c)) (gp_dispatches p)
  && forallb (λ d, bool_decide (rd_repo_id d ∈ pilot_repositories c)) (gp_dispatches p)
  && forallb (λ g, bool_decide (g ∈ confirmed_gates c)) (gp_user_gates p)
  && callable (create_global_request c) && callable (create_repo_dispatch c)
  && callable (execute_repo_dispatch c) && callable (compensate c).


(** The local variable [steps] is threaded with the world, since the handler
    reads it after an exception. *)
Abbreviation Saga := (ST (W * list step)).

Definition call {A} (m : ST W A) : Saga A := λ s,
  let '(w, r) := m s.1 in ((w, s.2), r).

(** [steps.append(x)] and [steps[-1] = x]. *)
Definition push (x : step) : Saga () := λ s, ((s.1, s.2 ++ [x]), Ok ()).
Definition set_last (x : step) : Saga () := λ s,
  ((s.1, take (length s.2 - 1) s.2 ++ [x]), Ok ()).

Definition need {A} (o : option A) : Saga A :=
  match o with
  | Some f => mret f
  | None => st_lift (Err (HiveDispatchError "saga_callback_unavailable"))
  end.

Definition run_dispatch c (d : RepoDispatch) : Saga () :=
  create ← need (create_repo_dispatch c);
  execute ← need (execute_repo_dispatch c);
  _ ← push ("repo_dispatch", rd_dispatch_id d, VNone);
  r ← call (create d);
  _ ← set_last ("repo_dispatch", rd_dispatch_id d, r);
  _ ← push ("repo_execute", rd_dispatch_id d, VNone);
  r ← call (execute d);
  match r with
  | VDict _ => set_last ("repo_execute", rd_dispatch_id d, r)
  | _ => st_lift (Err (HiveDispatchError "saga_result_invalid"))
  end.

Fixpoint run_dispatches c (ds : list RepoDispatch) : Saga () :=
  match ds with
  | [] => mret ()
  | d :: ds => _ ← run_dispatch c d; run_dispatches c ds
  end.

(** The body of the [try]. *)
Definition run_saga c p : Saga () :=
  create ← need (create_global_request c);
  _ ← push ("global_request", req_request_id (gp_request p), VNone);
  r ← call (create (gp_request p));
  _ ← set_last ("global_request", req_request_id (gp_request p), r);
  run_dispatches c (gp_dispatches p).

(** The compensation loop: every step is tried, a failure is remembered. *)
Fixpoint compensate_steps c (steps : list step) (complete : bool) (w : W) : W * bool :=
  match steps with
  | [] => (w, complete)
  | (kind, identifier, r) :: steps =>
      let '(w, out) :=
        match compensate c with
        | Some f => f kind identifier r w
        | None => (w, Err (HiveDispatchError "saga_compensation_unavailable"))
        end in
      compensate_steps c steps (complete && is_ok out) w
  end.

Definition completed_dispatches (steps : list step) : Z :=
  Z.of_nat (length (List.filter (λ s : step,
    bool_decide (s.1.1 = "repo_execute") && negb (is_VNone s.2)) steps)).

Definition blocked_response p (reason : string) : mapping :=
  [ ("allowed", VBool false); ("reason_code", VStr reason); ("mutation_performed", VBool false);
    ("plan", VDict (plan_public p)); ("raw_output", VStr "not_returned") ].

Definition executed_response p : mapping :=
  [ ("allowed", VBool true); ("reason_code", VStr "saga_executed"); ("state", VStr "completed");
    ("mutation_performed", VBool true);
    ("completed_dispatch_count", VInt (Z.of_nat (length (gp_dispatches p))));
    ("plan", VDict (plan_public p)); ("raw_output", VStr "not_returned") ].

Definition partial_response p (steps : list step) (complete : bool) : mapping :=
  [ ("allowed", VBool false); ("reason_code", VStr "saga_partially_completed");
    ("state", VStr "partially_completed"); ("mutation_performed", VBool false);
    ("completed_dispatch_count", VInt (completed_dispatches steps));
    ("compensation_attempted", VBool true); ("compensation_complete", VBool complete);
    ("plan", VDict (plan_public p)); ("raw_output", VStr "not_returned") ].

Definition execute_global_request p (context : option (GlobalSagaExecutionContext W))
  : ST W mapping := λ w,
  if negb (bool_decide (gp_mode p = "enforced")) then (w, Ok (blocked_response p "shadow_only"))
  else match context with
  | None => (w, Ok (blocked_response p "saga_gate_blocked"))
  | Some c =>
      if negb (ready_for c p) then (w, Ok (blocked_response p "saga_gate_blocked"))
      else match run_saga c p (w, []) with
      | ((w, _), Ok _) => (w, Ok (executed_response p))
      | ((w, steps), Err _) =>
          let '(w, complete) := compensate_steps c (List.rev steps) true w in
          (w, Ok (partial_response p steps complete))
      end
  end.

(** ** Retry and cancel *)

Definition adapter_response (allowed : bool) (reason field identifier : string) : mapping :=
  [ ("allowed", VBool allowed); ("reason_code", VStr reason); (field, VStr identifier);
    ("raw_output", VStr "not_returned") ].

Definition retry_repo_dispatch (dispatch_id : pyval) (expected_version : Z)
    (context : option (GlobalSagaExecutionContext W)) : ST W mapping :=
  dispatch_id ← st_lift (_id dispatch_id "dispatch");
  _ ← st_lift (_version expected_version);
  match context ≫= retry_dispatch with
  | None => mret (adapter_response false "saga_gate_blocked" "dispatch_id" dispatch_id)
  | Some retry =>
      st_catch
        (_ ← retry dispatch_id expected_version;
         mret (adapter_response true "repo_dispatch_retry_requested" "dispatch_id" dispatch_id))
        (λ _, mret (adapter_response false "saga_retry_unavailable" "dispatch_id" dispatch_id))
  end.

Definition cancel_global_request (request_id : pyval) (expected_version : Z)
    (context : option (GlobalSagaExecutionContext W)) : ST W mapping :=
  request_id ← st_lift (_id request_id "request");
  _ ← st_lift (_version expected_version);
  match context ≫= cancel_request with
  | None => mret (adapter_response false "saga_gate_blocked" "request_id" request_id)
  | Some cancel =>
      st_catch
        (_ ← cancel request_id expected_version;
         mret (adapter_response true "global_request_cancel_requested" "request_id" request_id))
        (λ _, mret (adapter_response false "saga_cancel_unavailable" "request_id" request_id))
  end.
End execution.

(** ** The trace of an execution

    [logged c] is the context [c] whose callbacks also write what they were
    asked to do, and a compensation its success, to a log. *)

Inductive saga_event :=
  | EvStep (kind identifier : string)
  | EvUndo (kind identifier : string) (succeeded : bool).

Section trace.
Context {W : Type}.

Definition with_log {A} (event : result A → saga_event) (m : ST W A) : ST (W * list saga_event) A :=
  λ s, let '(w, r) := m s.1 in ((w, s.2 ++ [event r]), r).

Definition logged (c : GlobalSagaExecutionContext W)
  : GlobalSagaExecutionContext (W * list saga_event) :=
  {| pilot_queens := pilot_queens c;
     pilot_repositories := pilot_repositories c;
     confirmed_gates := confirmed_gates c;
     create_global_request :=
       (λ f r, with_log (λ _, EvStep "global_request" (req_request_id r)) (f r))
       <$> create_global_request c;
     create_repo_dispatch :=
       (λ f d, with_log (λ _, EvStep "repo_dispatch" (rd_dispatch_id d)) (f d))
       <$> create_repo_dispatch c;
     execute_repo_dispatch :=
       (λ f d, with_log (λ _, EvStep "repo_execute" (rd_dispatch_id d)) (f d))
       <$> execute_repo_dispatch c;
     compensate :=
       (λ f kind i r, with_log (λ out, EvUndo kind i (is_ok out)) (f kind i r)) <$> compensate c;
     retry_dispatch := (λ f i v, with_log (λ _, EvStep "retry" i) (f i v)) <$> retry_dispatch c;
     cancel_request := (λ f i v, with_log (λ _, EvStep "cancel" i) (f i v)) <$> cancel_request c |}.

(** The steps of a plan, in the order they are meant to be made. *)
Definition dispatch_schedule (d : RepoDispatch) : list (string * string) :=
  [("repo_dispatch", rd_dispatch_id d); ("repo_execute", rd_dispatch_id d)].

Definition schedule (p : GlobalRequestPlan) : list (string * string) :=
  ("global_request", req_request_id (gp_request p)) :: (gp_dispatches p ≫= dispatch_schedule).

Definition step_event (k : string * string) : saga_event := EvStep k.1 k.2.
Definition undo_event (k : string * string) (ok : bool) : saga_event := EvUndo k.1 k.2 ok.

Definition executes (ks : list (string * string)) : Z :=
  Z.of_nat (length (List.filter (λ k, bool_decide (k.1 = "repo_execute")) ks)).

Abbreviation Logged := (ST (W * list saga_event * list step)).

(** A saga body that makes the steps [ks]: it logs and records a prefix of
    them in order, all of them if it returns; if it raises, the last step of
    the prefix is the one that failed and has no result. *)
Definition made (log : list saga_event) (steps : list step) (ks : list (string * string))
    (res : (W * list saga_event * list step) * result ()) : Prop :=
  ∃ w new out,
    res = (((w, log ++ (step_event <$> new.*1)), steps ++ new), out) ∧
    match out with
    | Ok _ => new.*1 = ks ∧ completed_dispatches new = executes ks
    | Err _ => ∃ failed rest, ks = new.*1 ++ rest ∧ new ≠ [] ∧
        new.*1 = take (length new - 1) ks ++ [failed] ∧
        completed_dispatches new = executes (take (length new - 1) ks)
    end.

Definition makes (m : Logged ()) (ks : list (string * string)) : Prop :=
  ∀ w log steps, made log steps ks (m ((w, log), steps)).

Lemma completed_cons x l :
  completed_dispatches (x :: l) = completed_dispatches [x] + completed_dispatches l.
Proof.
  unfold completed_dispatches. cbn [List.filter]. destruct (_ && _); cbn [length]; lia.
Qed.

Lemma executes_cons x l : executes (x :: l) = executes [x] + executes l.
Proof.
  unfold executes. cbn [List.filter]. destruct (bool_decide _); cbn [length]; lia.
Qed.

Lemma completed_one kind i r :
  (kind = "repo_execute" → is_VNone r = false) →
  completed_dispatches [(kind, i, r)] = executes [(kind, i)].
Proof.
  intros H. unfold completed_dispatches, executes. cbn [List.filter fst snd].
  case_bool_decide as Hk; [by rewrite H|done].
Qed.

Lemma makes_ret : makes (mret ()) [].
Proof. intros w log steps. exists w, [], (Ok ()). by rewrite !app_nil_r. Qed.

Lemma set_last_app (w : W * list saga_event) steps x y :
  set_last y (w, steps ++ [x]) = ((w, steps ++ [y]), Ok ()).
Proof.
  unfold set_last. cbn [fst snd]. rewrite length_app. cbn [length].
  by rewrite Nat.add_sub, take_app_length.
Qed.

Lemma makes_first kind i (m : ST W pyval) (k : pyval → Logged ()) ks :
  (∀ r, (∃ e, ∀ s, k r s = (s, Err e)) ∨
        (∃ next, makes next ks ∧ (kind = "repo_execute" → is_VNone r = false) ∧
           ∀ s, k r s = (set_last (kind, i, r) ≫= λ _, next) s)) →
  makes (push (kind, i, VNone) ≫= λ _, call (with_log (λ _, EvStep kind i) m) ≫= k)
    ((kind, i) :: ks).
Proof.
  intros Hk w log steps. rewrite st_bind_eq. unfold push. cbv iota.
  rewrite st_bind_eq. unfold call, with_log. cbn [fst snd].
  assert (∀ w' e, made log steps ((kind, i) :: ks)
            ((w', log ++ [EvStep kind i], steps ++ [(kind, i, VNone)]), Err e)) as Hfail.
  { intros w' e. exists w', [(kind, i, VNone)], (Err e). split; [done|].
    exists (kind, i), ks. split_and!; [done..|]. unfold completed_dispatches, executes.
    cbn. by rewrite andb_false_r. }
  destruct (m w) as [w' [r|e]]; [|apply Hfail].
  destruct (Hk r) as [[e He]|(next & Hnext & Hr & Heq)]; [rewrite He; apply Hfail|].
  rewrite Heq, st_bind_eq, set_last_app. cbv beta iota.
  destruct (Hnext w' (log ++ [EvStep kind i]) (steps ++ [(kind, i, r)]))
    as (w'' & new & out & Hrun & Hout).
  exists w'', ((kind, i, r) :: new), out. split.
  { etransitivity; [exact Hrun|]. by rewrite <- !app_assoc. }
  destruct out as [u|e].
  - destruct Hout as [Hnew Hc]. cbn [fmap list_fmap fst]. split; [by f_equal|].
    rewrite completed_cons, executes_cons, completed_one, Hc; done.
  - destruct Hout as (failed & rest & -> & Hne & Hlast & Hc). exists failed, rest.
    destruct new as [|x new]; [done|]. cbn [length] in *. rewrite Nat.sub_succ, Nat.sub_0_r in *.
    cbn [fmap list_fmap fst take]. split_and!; [done|done|..].
    + cbn [app]. f_equal. exact Hlast.
    + rewrite completed_cons, executes_cons, completed_one, Hc; done.
Qed.

Lemma st_bind_assoc {S A B C} (m : ST S A) (f : A → ST S B) (g : B → ST S C) s :
  ((m ≫= f) ≫= g) s = (m ≫= λ a, f a ≫= g) s.
Proof. rewrite !st_bind_eq. by destruct (m s) as [s' [a|e]]. Qed.

Lemma makes_ext (m m' : Logged ()) ks : (∀ s, m s = m' s) → makes m' ks → makes m ks.
Proof. intros Heq Hm w log steps. rewrite Heq. apply Hm. Qed.

Definition dispatch_tail (d : RepoDispatch) (next : Logged ()) (r : pyval) : Logged () :=
  match r with
  | VDict _ => _ ← set_last ("repo_execute", rd_dispatch_id d, r); next
  | _ => st_lift (Err (HiveDispatchError "saga_result_invalid"))
  end.

Lemma makes_dispatches c ds :
  callable (create_repo_dispatch c) = true → callable (execute_repo_dispatch c) = true →
  makes (run_dispatches (logged c) ds) (ds ≫= dispatch_schedule).
Proof.
  intros Hcr Hex. induction ds as [|d ds IH]; [apply makes_ret|].
  destruct (create_repo_dispatch c) as [create|] eqn:Hc1; [|done].
  destruct (execute_repo_dispatch c) as [execute|] eqn:Hc2; [|done].
  pose (last := push ("repo_execute", rd_dispatch_id d, VNone) ≫= λ _,
    call (with_log (λ _, EvStep "repo_execute" (rd_dispatch_id d)) (execute d))
    ≫= dispatch_tail d (run_dispatches (logged c) ds)).
  apply makes_ext with (m' := push ("repo_dispatch", rd_dispatch_id d, VNone) ≫= λ _,
    call (with_log (λ _, EvStep "repo_dispatch" (rd_dispatch_id d)) (create d))
    ≫= λ r, set_last ("repo_dispatch", rd_dispatch_id d, r) ≫= λ _, last).
  - intros s. cbn [run_dispatches]. rewrite st_bind_eq. unfold run_dispatch.
    cbn [logged create_repo_dispatch execute_repo_dispatch]. rewrite Hc1, Hc2.
    cbn [fmap option_fmap option_map need]. unfold last.
    unfold mret, st_ret, push. repeat (rewrite st_bind_eq; cbv beta iota).
    destruct (call _ _) as [s2 [r|e]]; [|done].
    unfold set_last. repeat (rewrite st_bind_eq; cbv beta iota).
    destruct (call _ _) as [s5 [r'|e]]; [|done]. by destruct r'.
  - cbn [mbind list_bind dispatch_schedule app]. apply makes_first. intros r. right.
    exists last. split_and!; [|done..]. apply makes_first. intros r'.
    unfold dispatch_tail. destruct r'; try (left; by eexists).
    right. exists (run_dispatches (logged c) ds). by split_and!.
Qed.

Lemma makes_saga c p :
  callable (create_global_request c) = true → callable (create_repo_dispatch c) = true →
  callable (execute_repo_dispatch c) = true → makes (run_saga (logged c) p) (schedule p).
Proof.
  intros Hg Hcr Hex. destruct (create_global_request c) as [create|] eqn:Hc; [|done].
  unfold run_saga, schedule. cbn [logged create_global_request]. rewrite Hc.
  cbn [fmap option_fmap option_map need].
  eapply makes_ext; [intros s; rewrite st_bind_eq; unfold mret, st_ret; reflexivity|].
  apply makes_first. intros r. right. exists (run_dispatches (logged c) (gp_dispatches p)).
  split_and!; [by apply makes_dispatches|done..].
Qed.

(** Compensation visits every step once, in the order given. *)
Lemma compensate_steps_spec c steps complete w log :
  callable (compensate c) = true →
  ∃ w' oks, length oks = length steps ∧
    compensate_steps (logged c) steps complete (w, log)
    = ((w', log ++ zip_with undo_event steps.*1 oks), complete && forallb id oks).
Proof.
  intros Hc. destruct (compensate c) as [f|] eqn:Hf; [|done].
  revert complete w log. induction steps as [|[[kind i] r] steps IH]; intros complete w log.
  { exists w, []. cbn. by rewrite app_nil_r, andb_true_r. }
  cbn [compensate_steps]. cbn [logged compensate]. rewrite Hf. cbn [fmap option_fmap option_map].
  unfold with_log at 1. cbn [fst snd]. destruct (f kind i r w) as [w1 out].
  destruct (IH (complete && is_ok out) w1 (log ++ [EvUndo kind i (is_ok out)]))
    as (w' & oks & Hlen & Heq).
  exists w', (is_ok out :: oks). split; [cbn; by f_equal|].
  etransitivity; [exact Heq|]. cbn [forallb id fmap list_fmap fst zip_with].
  by rewrite <- app_assoc, andb_assoc.
Qed.

(** C8: For every context, plan and initial world, an execution always
    returns a response, and what it did is one of three things.  It did
    nothing, because the plan is a shadow plan or the context does not
    authorize it.  Or it made every step of the plan in order (create the
    request, then create and execute each dispatch) and compensated none.  Or
    some step failed: the steps made are a prefix of that order ending with
    the failed one, each of them is compensated exactly once, in reverse
    order, whether or not other compensations fail; the response counts the
    dispatches whose execution returned a result and calls the compensation
    complete exactly when every compensation succeeded. *)
Theorem execute_global_request_saga c p w :
  ∃ w' log resp,
    execute_global_request p (Some (logged c)) (w, []) = ((w', log), Ok resp) ∧
    ((w' = w ∧ log = [] ∧ get "allowed" resp = VBool false ∧
      (gp_mode p ≠ "enforced" ∨ ready_for c p = false)) ∨
     (gp_mode p = "enforced" ∧ ready_for c p = true ∧ get "allowed" resp = VBool true ∧
      log = step_event <$> schedule p) ∨
     (gp_mode p = "enforced" ∧ ready_for c p = true ∧ get "allowed" resp = VBool false ∧
      get "state" resp = VStr "partially_completed" ∧
      ∃ before failed rest oks,
        schedule p = before ++ failed :: rest ∧ length oks = S (length before) ∧
        log = (step_event <$> before ++ [failed])
              ++ zip_with undo_event (failed :: List.rev before) oks ∧
        get "completed_dispatch_count" resp = VInt (executes before) ∧
        get "compensation_complete" resp = VBool (forallb id oks))).
Proof.
  unfold execute_global_request.
  case_bool_decide as Hmode; cbn [negb]; [|eexists _, _, _; split; [done|left; by split_and!; [..|left]]].
  assert (ready_for (logged c) p = ready_for c p) as Hr.
  { unfold ready_for, logged, callable. cbn. by destruct (create_global_request c),
      (create_repo_dispatch c), (execute_repo_dispatch c), (compensate c). }
  rewrite Hr. destruct (ready_for c p) eqn:Hready; cbn [negb];
    [|eexists _, _, _; split; [done|left; by split_and!; [..|right]]].
  unfold ready_for in Hready. rewrite !andb_true_iff in Hready.
  destruct Hready as [[[[_ Hg] Hcr] Hex] Hcomp].
  destruct (makes_saga c p Hg Hcr Hex w [] []) as (w1 & new & out & Hrun & Hout).
  rewrite Hrun. cbn [app]. destruct out as [u|e].
  - destruct Hout as [-> _]. eexists _, _, _. split; [done|]. right. left. by split_and!.
  - destruct Hout as (failed & rest & Hsched & Hne & Hlast & Hcount).
    destruct (compensate_steps_spec c (List.rev new) true w1 (step_event <$> new.*1) Hcomp)
      as (w2 & oks & Hlen & Hrun2).
    rewrite Hrun2. eexists _, _, _. split; [done|]. right. right. split_and!; [done..|].
    set (before := take (length new - 1) (schedule p)) in *.
    exists before, failed, rest, oks.
    assert (length new = S (length before)) as Hl.
    { rewrite <- (length_fmap fst new), Hlast, length_app. cbn. lia. }
    split_and!.
    + by rewrite Hsched at 1; rewrite Hlast, <- app_assoc.
    + by rewrite Hlen, length_rev.
    + rewrite <- Hlast. f_equal. f_equal. transitivity (List.rev new.*1); [apply map_rev|].
      by rewrite Hlast, rev_app_distr.
    + cbn. by rewrite Hcount.
    + done.
Qed.
End trace.

(** ** The checks accept valid fields *)

Lemma check_id_valid s f : _IDENTIFIER_RE s = true → check_id s f = Ok ().
Proof. intros H. unfold check_id. by rewrite _id_valid. Qed.

Lemma text_valid s f n : text_ok n s = true → _text (VStr s) f n = Ok s.
Proof. intros H. cbn. by rewrite H. Qed.

Lemma check_text_valid s f n : text_ok n s = true → check_text s f n = Ok ().
Proof. intros H. unfold check_text. by rewrite text_valid. Qed.

Definition texts_ok (l : list string) : Prop :=
  (length l <= 128)%nat ∧ Forall (λ s, text_ok 1024 s = true) l.

Lemma texts_valid l f : texts_ok l → _texts (VStr <$> l) f = Ok l.
Proof.
  intros [Hlen Hall]. unfold _texts. rewrite length_fmap.
  rewrite (proj2 (Z.leb_le _ _)) by (unfold HiveMessages.MAX_LIST; lia). cbn [require].
  rewrite bind_ret. induction Hall as [|s l Hs _ IH]; [done|].
  cbn [fmap list_fmap mapM_result]. rewrite (text_valid _ _ _ Hs), bind_ret.
  rewrite IH by (cbn in Hlen; lia). done.
Qed.

Lemma check_texts_valid l f : texts_ok l → check_texts l f = Ok ().
Proof. intros H. unfold check_texts. by rewrite texts_valid. Qed.

Lemma ids_valid l f :
  Forall (λ s, _IDENTIFIER_RE s = true) l → mapM_result (λ v, _id v f) (VStr <$> l) = Ok l.
Proof.
  induction 1 as [|s l Hs _ IH]; [done|]. cbn [fmap list_fmap mapM_result].
  rewrite (_id_valid _ _ Hs), bind_ret. by rewrite IH.
Qed.

Lemma check_ids_valid l f : Forall (λ s, _IDENTIFIER_RE s = true) l → check_ids l f = Ok ().
Proof.
  intros H. unfold check_ids. rewrite (mapM_result_all _ id).
  - done.
  - eapply Forall_impl; [exact H|]. intros s Hs. by apply _id_valid.
Qed.

Lemma forallb_substring p n m s :
  string_forallb p s = true → string_forallb p (String.substring n m s) = true.
Proof.
  revert n m; induction s as [|c s IH]; intros [|n] [|m]; cbn; try done; intros H;
    apply andb_true_iff in H as [Hc Hs]; rewrite ?Hc; auto.
  by apply IH.
Qed.

Lemma length_substring_le n m s : (String.length (String.substring n m s) <= m)%nat.
Proof.
  revert n m; induction s as [|c s IH]; intros [|n] [|m]; cbn; try lia; [|apply IH..].
  specialize (IH 0%nat m). lia.
Qed.

(** A prefix of a digest behind a lower-case word is an identifier. *)
Definition identifier_char (c : ascii) : bool :=
  is_lower c || is_digit_char c || is_char "_" c || is_char "-" c.

Lemma digest_identifier c word digest :
  is_lower c = true → string_forallb identifier_char word = true →
  (String.length word <= 100)%nat → string_forallb is_hex_lower digest = true →
  _IDENTIFIER_RE (String c word +:+ digest_prefix digest) = true.
Proof.
  intros Hc Hw Hl Hd. rewrite append_cons. cbn [_IDENTIFIER_RE]. rewrite Hc. cbn [andb].
  rewrite string_forallb_app. fold identifier_char.
  change (string_forallb (λ c, is_lower c || is_digit_char c || is_char "_" c || is_char "-" c))
    with (string_forallb identifier_char).
  rewrite Hw. cbn [andb]. apply andb_true_iff. split.
  - apply Z.leb_le. unfold py_len. rewrite length_append. unfold digest_prefix.
    pose proof (length_substring_le 0 24 digest). lia.
  - unfold digest_prefix. apply (forallb_substring _ 0 24) in Hd. revert Hd.
    generalize (String.substring 0 24 digest). intros s. induction s as [|d s IH]; [done|].
    cbn. intros [Hd Hs]%andb_true_iff. rewrite IH by done. rewrite andb_true_r.
    unfold is_hex_lower in Hd. unfold identifier_char. apply orb_true_iff in Hd as [->|Hd];
      [by rewrite orb_true_r|].
    assert (is_lower d = true) as ->; [|done].
    unfold is_lower, in_range in *. lia.
Qed.

Lemma json_chars_length s : (String.length (json_chars s) <= 6 * String.length s)%nat.
Proof.
  induction s as [|c s IH]; [done|]. cbn [json_chars]. rewrite length_append.
  assert (String.length (json_char c) <= 6)%nat; [|cbn; lia].
  unfold json_char.
  repeat match goal with |- context [if ?b then _ else _] => destruct b; [cbn; lia|] end.
  apply le_n.
Qed.

Lemma budget_valid repo :
  _IDENTIFIER_RE repo = true →
  check_mapping [("repo_id", VStr repo); ("saga", VStr "independent")] "budget" = Ok ().
Proof.
  intros Hr. unfold check_mapping, _mapping_safe, _mapping.
  assert (py_len (json_dumps (VDict [("repo_id", VStr repo); ("saga", VStr "independent")]))
          <= MAX_MESSAGE_BYTES) as Hlen.
  { change (json_dumps _) with ("{" +:+ ((json_string "repo_id" +:+ (":" +:+ json_string repo))
      +:+ ("," +:+ (json_string "saga" +:+ (":" +:+ json_string "independent")))) +:+ "}").
    unfold json_string, py_len. rewrite !length_append.
    pose proof (json_chars_length repo).
    assert (String.length repo <= 128)%nat.
    { destruct repo as [|c repo]; [done|]. cbn in Hr. unfold py_len in Hr. cbn. lia. }
    unfold MAX_MESSAGE_BYTES.
    change (String.length quote) with 1%nat.
    change (String.length (json_chars "repo_id")) with 7%nat.
    change (String.length (json_chars "saga")) with 4%nat.
    change (String.length (json_chars "independent")) with 11%nat. cbn [String.length]. lia. }
  rewrite (proj2 (Z.leb_le _ _) Hlen). done.
Qed.

(** ** A plan for valid inputs *)

Record registry_ok (queens : list (string * string)) : Prop := {
  registry_repos : Forall (λ s, _IDENTIFIER_RE s = true) queens.*1;
  registry_queens : Forall (λ s, _IDENTIFIER_RE s = true) queens.*2;
}.

Definition registry (queens : list (string * string)) : mapping :=
  (λ e, (e.1, VStr e.2)) <$> queens.

Record plan_inputs_ok (objective : string) (repos criteria constraints gates : list string)
    (queens : list (string * string)) (mode : string) (now : datetime) : Prop := {
  in_objective : text_ok MAX_TEXT objective = true;
  in_repos : Forall (λ s, _IDENTIFIER_RE s = true) repos ∧ NoDup repos ∧
             (1 <= length repos <= 128)%nat;
  in_criteria : texts_ok criteria;
  in_constraints : texts_ok constraints;
  in_gates : texts_ok gates ∧ (length gates <= 126)%nat;
  in_queens : registry_ok queens;
  in_mode : mode ∈ _SAGA_MODES;
  in_now : dt_aware now = true ∧ 0 <= dt_utc now < MAX_LOCAL;
}.

Lemma known_queens_valid queens :
  registry_ok queens → known_queens (registry queens) = Ok queens.
Proof.
  intros [Hr Hq]. unfold known_queens, registry.
  induction queens as [|[r q] queens IH]; [done|]. cbn in Hr, Hq.
  apply Forall_cons in Hr as [Hr Hrs], Hq as [Hq Hqs].
  cbn [fmap list_fmap mapM_result fst snd].
  rewrite (_id_valid r _ Hr), bind_ret, (_id_valid q _ Hq), bind_ret, bind_ret, IH by done. done.
Qed.

Lemma sorted_set_elem g l : g ∈ sorted_set l ↔ g ∈ l.
Proof. unfold sorted_set. rewrite (sort_by_perm str_cmp id). apply elem_of_remove_dups. Qed.

Lemma sorted_set_texts_ok l : texts_ok l → texts_ok (sorted_set l).
Proof.
  intros [Hlen Hall]. unfold texts_ok, sorted_set. rewrite !(sort_by_perm str_cmp id). split.
  - apply Nat.le_trans with (length l); [|done]. apply submseteq_length.
    apply NoDup_submseteq; [apply NoDup_remove_dups|]. intros x. by rewrite elem_of_remove_dups.
  - rewrite Forall_forall in *. intros x. rewrite elem_of_remove_dups. apply Hall.
Qed.

Lemma required_gates_ok gates constraints :
  texts_ok gates → (length gates <= 126)%nat → texts_ok (gates ++ required_gates constraints).
Proof.
  intros [_ Hall] Hlen. unfold texts_ok, required_gates. rewrite length_app, Forall_app.
  destruct (contains "breaking" _), (contains "destruct" _ || _); cbn; split_and!; auto; try lia;
    repeat constructor.
Qed.

(** The plan the inputs call for. *)
Definition saga_reason (repos : list string) (queens : list (string * string))
    (gates constraints : list string) : string :=
  if bool_decide (repos ⊆ queens.*1)
  then if bool_decide (required_gates constraints ⊆ gates) then "ready" else "user_gate_required"
  else "unknown_repository".

Lemma required_gates_known constraints g :
  g ∈ required_gates constraints → g ∈ ["breaking_changes"; "global_destruction"].
Proof.
  unfold required_gates. rewrite elem_of_app, !elem_of_cons.
  destruct (contains "breaking" _), (contains "destruct" _ || _);
    rewrite ?list_elem_of_singleton, ?elem_of_nil; naive_solver.
Qed.

Lemma missing_gate_eq gates constraints :
  existsb (λ gate, negb (bool_decide (gate ∈ gates)))
    (List.filter (λ gate, bool_decide (gate ∈ ["breaking_changes"; "global_destruction"]))
       (gates ++ required_gates constraints))
  = negb (bool_decide (required_gates constraints ⊆ gates)).
Proof.
  case_bool_decide as Hsub; cbn [negb].
  - apply not_true_iff_false. rewrite existsb_exists. intros (g & Hg & Hn).
    apply filter_In in Hg as [Hg _]. apply list_elem_of_In, elem_of_app in Hg.
    apply negb_true_iff, bool_decide_eq_false in Hn. destruct Hg as [?|?%Hsub]; done.
  - apply existsb_exists.
    assert (∃ g, g ∈ required_gates constraints ∧ g ∉ gates) as (g & Hg & Hn).
    { destruct (decide (Forall (λ g, g ∈ gates) (required_gates constraints))) as [Hall|Hall].
      - destruct Hsub. rewrite Forall_forall in Hall. exact Hall.
      - apply not_Forall_Exists, Exists_exists in Hall; [|apply _]. naive_solver. }
    exists g. split; [|by rewrite bool_decide_false].
    apply filter_In. split.
    + apply list_elem_of_In, elem_of_app. by right.
    + by apply bool_decide_eq_true, required_gates_known with constraints.
Qed.

Lemma reason_eq repos queens gates constraints :
  match List.filter (λ r, negb (bool_decide (r ∈ dict_keys queens))) repos with
  | _ :: _ => "unknown_repository"
  | [] => if existsb (λ gate, negb (bool_decide (gate ∈ gates)))
               (List.filter (λ gate, bool_decide (gate ∈ ["breaking_changes"; "global_destruction"]))
                  (gates ++ required_gates constraints))
          then "user_gate_required" else "ready"
  end = saga_reason repos queens gates constraints.
Proof.
  rewrite missing_gate_eq. unfold saga_reason.
  destruct (List.filter _ repos) as [|r l] eqn:Hf.
  - rewrite (bool_decide_true (repos ⊆ _)); [by case_bool_decide|].
    intros r Hr. destruct (decide (r ∈ queens.*1)) as [|Hn]; [done|].
    assert (r ∈ @nil string) as []%elem_of_nil. rewrite <- Hf.
    apply list_elem_of_In, filter_In. split; [by apply list_elem_of_In|].
    by rewrite bool_decide_false.
  - rewrite (bool_decide_false (repos ⊆ _)); [done|]. intros Hsub.
    assert (In r (r :: l)) as Hin by by left. rewrite <- Hf in Hin.
    apply filter_In in Hin as [Hr%list_elem_of_In Hn].
    rewrite bool_decide_true in Hn by (by apply Hsub). done.
Qed.

Lemma request_check_valid r :
  _IDENTIFIER_RE (req_request_id r) = true → text_ok MAX_TEXT (req_objective r) = true →
  texts_ok (req_success_criteria r) → texts_ok (req_constraints r) → req_non_goals r = [] →
  _IDENTIFIER_RE (req_requested_by r) = true →
  Forall (λ s, _IDENTIFIER_RE s = true)
    (req_repositories_requested r ++ req_repositories_resolved r) →
  texts_ok (req_user_gates r) →
  check_time (req_created_at_utc r) "request_timestamp" = Ok () →
  req_state r ∈ REQUEST_STATES → req_version r = 1 → GlobalRequest_check r = Ok r.
Proof.
  intros. unfold GlobalRequest_check.
  rewrite !check_id_valid, check_text_valid by done.
  rewrite !check_texts_valid by (done || (by rewrite H3; split; [cbn; lia|constructor])).
  rewrite check_ids_valid by done. rewrite H7. unfold _state, _version.
  rewrite bool_decide_true by done. by rewrite H9.
Qed.

Lemma dispatch_check_valid digest request_id objective criteria constraints priority state repo queen :
  _IDENTIFIER_RE request_id = true → text_ok MAX_TEXT objective = true →
  texts_ok criteria → texts_ok constraints → _IDENTIFIER_RE repo = true →
  _IDENTIFIER_RE queen = true → state ∈ DISPATCH_STATES →
  let d := saga_dispatch digest request_id objective criteria constraints priority state repo queen in
  RepoDispatch_check d = Ok d.
Proof.
  intros Hreq Hobj Hcrit Hcons Hrepo Hqueen Hstate d. unfold RepoDispatch_check.
  assert (_IDENTIFIER_RE (rd_dispatch_id d) = true) as Hid.
  { apply (digest_identifier "d" "ispatch-"); [done|done|cbn; lia|apply sha256_hex_digits]. }
  rewrite !check_id_valid, check_text_valid, !check_texts_valid by done.
  unfold check_ids. cbn [d saga_dispatch rd_deadline_at_utc rd_depends_on_dispatch_ids rd_budget
    rd_state rd_version mapM_result check_opt_time].
  rewrite !bind_ret, (budget_valid repo Hrepo). unfold _state, _version.
  rewrite bool_decide_true by done. done.
Qed.

Lemma valid_time now :
  dt_aware now = true → 0 <= dt_utc now < MAX_LOCAL →
  ∃ created, _time now "request_timestamp" = Ok created ∧
    check_time created "request_timestamp" = Ok ().
Proof.
  intros Ha Hr. exists (Datetime (dt_utc now) (Some 0)).
  unfold check_time, _time.
  assert (∀ d f, dt_aware d = true → 0 <= dt_utc d < MAX_LOCAL →
            validate_utc_datetime d f = Ok (Datetime (dt_utc d) (Some 0))) as H.
  { intros d f ? ?. by apply validate_utc_datetime_Ok. }
  rewrite !H; [done|done|unfold dt_utc in *; cbn; lia|done|done].
Qed.

Definition queen_of (queens : list (string * string)) (repo : string) : string :=
  default "" (dict_get repo queens).

Lemma registry_lookup queens repo :
  registry_ok queens → repo ∈ queens.*1 →
  dict_get repo queens = Some (queen_of queens repo) ∧
  _IDENTIFIER_RE (queen_of queens repo) = true.
Proof.
  intros [_ Hq] Hin. unfold queen_of.
  assert (is_Some (dict_get repo queens)) as [q Hget] by by apply elem_of_dict_keys.
  rewrite Hget. split; [done|]. cbn.
  rewrite Forall_forall in Hq. apply Hq. apply dict_get_elem_of in Hget.
  by apply list_elem_of_fmap_2 with (f := snd) in Hget.
Qed.

Lemma dispatches_valid digest request_id objective criteria constraints priority state repos queens :
  _IDENTIFIER_RE request_id = true → text_ok MAX_TEXT objective = true →
  texts_ok criteria → texts_ok constraints → registry_ok queens →
  Forall (λ s, _IDENTIFIER_RE s = true) repos → repos ⊆ queens.*1 → state ∈ DISPATCH_STATES →
  mapM_result (λ repo_id,
    match dict_get repo_id queens with
    | Some queen => RepoDispatch_check
        (saga_dispatch digest request_id objective criteria constraints priority state repo_id queen)
    | None => Err (KeyError repo_id)
    end) repos
  = Ok ((λ r, saga_dispatch digest request_id objective criteria constraints priority state r
                (queen_of queens r)) <$> repos).
Proof.
  intros Hreq Hobj Hcrit Hcons Hqueens Hrepos Hsub Hstate. apply mapM_result_all.
  rewrite Forall_forall in *. intros r Hr.
  destruct (registry_lookup queens r Hqueens (Hsub r Hr)) as [Hget Hid]. rewrite Hget.
  apply dispatch_check_valid; auto.
Qed.

Lemma sub_registry (queens : list (string * string)) (repos : list string) :
  List.filter (λ r, bool_decide (r ∈ dict_keys queens)) repos ⊆ repos ∧
  List.filter (λ r, bool_decide (r ∈ dict_keys queens)) repos ⊆ dict_keys queens.
Proof.
  split; intros r Hr; apply list_elem_of_In, filter_In in Hr as [Hr Hk];
    [by apply list_elem_of_In|by apply bool_decide_eq_true in Hk].
Qed.

(** The plan that valid inputs give. *)
Section saga_plan.
Context (objective : string) (repos criteria constraints gates : list string).
Context (queens : list (string * string)) (mode : string) (created : datetime).
Context (priority : DispatchPriority).

Definition plan_reason : string := saga_reason repos queens gates constraints.
Definition plan_state : string :=
  if bool_decide (plan_reason = "ready") then "planned" else "blocked".
Definition plan_resolved : list string :=
  List.filter (λ r, bool_decide (r ∈ dict_keys queens)) repos.
Definition plan_digest : string :=
  _saga_request_digest _GODBEE_PRINCIPAL objective repos priority criteria constraints.
Definition plan_request_id : string := "request-" +:+ digest_prefix plan_digest.

Definition plan_request : GlobalRequest :=
  {| req_request_id := plan_request_id; req_objective := objective;
     req_success_criteria := criteria; req_constraints := constraints; req_non_goals := [];
     req_requested_by := _GODBEE_PRINCIPAL; req_repositories_requested := repos;
     req_repositories_resolved := plan_resolved; req_dispatch_priority := priority;
     req_user_gates := sorted_set (gates ++ required_gates constraints);
     req_created_at_utc := created; req_state := plan_state; req_version := 1 |}.

Definition plan_dispatches : list RepoDispatch :=
  (λ r, saga_dispatch plan_digest plan_request_id objective criteria constraints priority plan_state
          r (queen_of queens r)) <$> plan_resolved.

Definition saga_plan : GlobalRequestPlan :=
  {| gp_request := plan_request; gp_dispatches := plan_dispatches; gp_mode := mode;
     gp_planning_reason := plan_reason;
     gp_user_gates := sorted_set (gates ++ required_gates constraints) |}.

Lemma plan_request_id_valid : _IDENTIFIER_RE plan_request_id = true.
Proof.
  apply (digest_identifier "r" "equest-"); [done|done|cbn; lia|apply sha256_hex_digits].
Qed.

Lemma plan_repo_ids : rd_repo_id <$> plan_dispatches = plan_resolved.
Proof.
  unfold plan_dispatches. rewrite <- list_fmap_compose. apply list_fmap_id.
Qed.

Context (now : datetime).
Hypothesis Hok : plan_inputs_ok objective repos criteria constraints gates queens mode now.

Lemma plan_resolved_valid : Forall (λ s, _IDENTIFIER_RE s = true) plan_resolved.
Proof using Hok.
  destruct (sub_registry queens repos) as [Hsub _]. destruct Hok as [_ [Hr _] _ _ _ _ _ _].
  rewrite Forall_forall in *. intros r Hin. by apply Hr, Hsub.
Qed.

Lemma plan_gates_valid : texts_ok (sorted_set (gates ++ required_gates constraints)).
Proof using Hok.
  destruct Hok as [_ _ _ _ [Hg Hl] _ _ _]. by apply sorted_set_texts_ok, required_gates_ok.
Qed.

Lemma plan_request_valid :
  check_time created "request_timestamp" = Ok () → GlobalRequest_check plan_request = Ok plan_request.
Proof using Hok.
  intros Ht. pose proof plan_resolved_valid as Hres. pose proof plan_gates_valid.
  destruct Hok as [Hobj [Hr _] Hcrit Hcons _ _ _ _].
  apply request_check_valid; cbn [plan_request req_request_id req_objective req_success_criteria
    req_constraints req_non_goals req_requested_by req_repositories_requested
    req_repositories_resolved req_user_gates req_created_at_utc req_state req_version]; try done.
  - apply plan_request_id_valid.
  - by apply Forall_app.
  - unfold plan_state. destruct (bool_decide _); apply list_elem_of_In; cbn; auto 15.
Qed.

Lemma plan_check_valid : GlobalRequestPlan_check saga_plan = Ok saga_plan.
Proof using Hok.
  pose proof plan_gates_valid as Hg. pose proof plan_repo_ids as Hids.
  destruct Hok as [_ (_ & _ & Hlen) _ _ _ _ Hmode _]. unfold GlobalRequestPlan_check.
  cbn [saga_plan gp_request gp_dispatches gp_mode gp_planning_reason gp_user_gates].
  assert (length plan_dispatches <= 128)%nat as Hl.
  { rewrite <- (length_fmap rd_repo_id), Hids. unfold plan_resolved.
    pose proof (filter_length_le (λ r, bool_decide (r ∈ dict_keys queens)) repos). lia. }
  rewrite (proj2 (Z.leb_le _ _)) by (unfold MAX_LIST; lia).
  rewrite (bool_decide_true (mode ∈ _)) by done.
  rewrite check_text_valid, check_texts_valid;
    [|done|unfold plan_reason, saga_reason; by repeat case_bool_decide].
  rewrite bool_decide_true by done.
  assert (forallb (λ d, bool_decide (rd_request_id d = req_request_id plan_request))
            plan_dispatches = true) as ->; [|done].
  apply forallb_forall. intros d Hd. apply list_elem_of_In, list_elem_of_fmap in Hd as (r & -> & _).
  by apply bool_decide_eq_true.
Qed.
End saga_plan.

Section plan_global_request_theorem.
Context (objective : string) (repos criteria constraints gates : list string).
Context (queens : list (string * string)) (mode : string) (now : datetime).
Context (priority : DispatchPriority).
Hypothesis Hok : plan_inputs_ok objective repos criteria constraints gates queens mode now.

Lemma plan_global_request_eq :
  ∃ created,
    plan_global_request (VStr _GODBEE_PRINCIPAL) (VStr objective) (VStr <$> repos)
      (VStr (priority_value priority)) (VStr <$> criteria) (VStr <$> constraints)
      (Some (registry queens)) (VStr <$> gates) (VStr mode) (Ok now)
    = Ok (saga_plan objective repos criteria constraints gates queens mode created priority).
Proof using Hok.
  pose proof Hok as [Hobj (Hrepos & Hnd & Hlen) Hcrit Hcons [Hgates Hglen] Hqueens Hmode
                     [Haware Hrange]].
  destruct (valid_time now Haware Hrange) as (created & Htime & Hcheck). exists created.
  pose proof (plan_request_valid objective repos criteria constraints gates queens mode created
    priority now Hok Hcheck) as Hreq.
  pose proof (plan_check_valid objective repos criteria constraints gates queens mode created
    priority now Hok) as Hplan.
  destruct (sub_registry queens repos) as [_ Hsub].
  assert (plan_state repos constraints gates queens ∈ DISPATCH_STATES) as Hstate.
  { unfold plan_state. destruct (bool_decide _); apply list_elem_of_In; cbn; auto 15. }
  pose proof (dispatches_valid
    (plan_digest objective repos criteria constraints priority)
    (plan_request_id objective repos criteria constraints priority) objective criteria constraints
    priority (plan_state repos constraints gates queens) (plan_resolved repos queens) queens
    (plan_request_id_valid objective repos criteria constraints priority) Hobj Hcrit Hcons Hqueens
    (plan_resolved_valid objective repos criteria constraints gates queens mode now Hok)
    Hsub Hstate) as Hdisp.
  unfold plan_global_request. cbn [py_eq_str]. rewrite bool_decide_true by done.
  cbn [require]. rewrite bind_ret, (_id_valid _GODBEE_PRINCIPAL _ eq_refl), bind_ret.
  rewrite (text_valid _ _ _ Hobj), bind_ret, length_fmap.
  rewrite !(proj2 (Z.leb_le _ _)) by (unfold MAX_LIST; lia).
  cbn [andb require]. rewrite bind_ret, (ids_valid repos _ Hrepos), bind_ret.
  rewrite (bool_decide_true (NoDup repos)) by done. cbn [require].
  rewrite bind_ret, DispatchPriority_of_value. cbn [reraise].
  rewrite bind_ret, (texts_valid criteria _ Hcrit), bind_ret, (texts_valid constraints _ Hcons),
    bind_ret, (texts_valid gates _ Hgates), bind_ret.
  unfold py_in_set. cbn [py_hashable]. rewrite bind_ret, (bool_decide_true (mode ∈ _)) by done.
  cbn [require from_option]. unfold id. rewrite bind_ret, (known_queens_valid queens Hqueens), bind_ret.
  cbv zeta. rewrite reason_eq, bind_ret, Htime. cbn [reraise]. rewrite bind_ret.
  etransitivity; [|exact Hplan].
  transitivity (Ok (plan_request objective repos criteria constraints gates queens created priority)
    ≫= λ request, Ok (plan_dispatches objective repos criteria constraints gates queens priority)
    ≫= λ dispatches, GlobalRequestPlan_check
      {| gp_request := request; gp_dispatches := dispatches; gp_mode := mode;
         gp_planning_reason := plan_reason repos constraints gates queens;
         gp_user_gates := sorted_set (gates ++ required_gates constraints) |}); [|done].
  rewrite <- Hreq. unfold plan_dispatches. rewrite <- Hdisp. done.
Qed.

(** C33: On valid inputs planning always succeeds.  The plan is ready for
    execution exactly when every requested repository has a queen and every
    gate its constraints call for was confirmed by the user; it has one
    dispatch per known repository, in the order requested, addressed to that
    repository's queen, under the plan's request and with its state; and it
    lists exactly the gates the user named and those required. *)
Theorem plan_global_request_ready :
  ∃ plan,
    plan_global_request (VStr _GODBEE_PRINCIPAL) (VStr objective) (VStr <$> repos)
      (VStr (priority_value priority)) (VStr <$> criteria) (VStr <$> constraints)
      (Some (registry queens)) (VStr <$> gates) (VStr mode) (Ok now) = Ok plan ∧
    (ready_for_execution plan = true ↔
     repos ⊆ queens.*1 ∧ required_gates constraints ⊆ gates) ∧
    rd_repo_id <$> gp_dispatches plan = List.filter (λ r, bool_decide (r ∈ queens.*1)) repos ∧
    Forall (λ d, dict_get (rd_repo_id d) queens = Some (rd_queen_principal_id d) ∧
                 rd_request_id d = req_request_id (gp_request plan) ∧
                 rd_state d = req_state (gp_request plan)) (gp_dispatches plan) ∧
    (∀ g, g ∈ gp_user_gates plan ↔ g ∈ gates ∨ g ∈ required_gates constraints).
Proof using Hok.
  destruct plan_global_request_eq as [created Heq]. eexists. split; [exact Heq|].
  destruct Hok as [_ _ _ _ _ Hqueens _ _]. split_and!.
  - unfold ready_for_execution. cbn. unfold plan_state, plan_reason, saga_reason.
    repeat case_bool_decide; naive_solver.
  - apply plan_repo_ids.
  - apply Forall_forall. cbn. unfold plan_dispatches. intros d (r & -> & Hr)%list_elem_of_fmap.
    cbn. destruct (sub_registry queens repos) as [_ Hsub].
    by destruct (registry_lookup queens r Hqueens (Hsub r Hr)) as [-> _].
  - intros g. cbn. by rewrite sorted_set_elem, elem_of_app.
Qed.
End plan_global_request_theorem.

(** ** Concrete sagas *)

Definition sample_now : datetime := msg_created_at_utc sample_message.
Definition sample_queens : list (string * string) := [("codex-master", "queen-codex-master")].

Lemma sample_inputs_ok :
  plan_inputs_ok "Port the parser" ["codex-master"] ["tests pass"] ["no breaking changes"]
    ["breaking_changes"] sample_queens "enforced" sample_now.
Proof.
  split; try (split_and!; cbn; (lia || done)).
  - reflexivity.
  - split_and!; [by repeat constructor|apply NoDup_singleton|cbn; lia..].
  - split; [cbn; lia|by repeat constructor].
  - split; [cbn; lia|by repeat constructor].
  - split; [split; [cbn; lia|by repeat constructor]|cbn; lia].
  - split; by repeat constructor.
  - right. by left.
Qed.

Lemma plan_global_request_ready_witness :
  ∃ plan,
    plan_global_request (VStr _GODBEE_PRINCIPAL) (VStr "Port the parser") [VStr "codex-master"]
      (VStr "DP1") [VStr "tests pass"] [VStr "no breaking changes"]
      (Some (registry sample_queens)) [VStr "breaking_changes"] (VStr "enforced")
      (Ok sample_now) = Ok plan ∧ ready_for_execution plan = true.
Proof.
  destruct (plan_global_request_ready _ _ _ _ _ _ _ _ DP1 sample_inputs_ok)
    as (plan & Heq & Hready & _).
  exists plan. split; [exact Heq|]. apply Hready. split.
  - apply forallb_subseteq. reflexivity.
  - apply forallb_subseteq. vm_compute. reflexivity.
Defined.

Definition sample_plan : GlobalRequestPlan :=
  let d := saga_dispatch "d" "request-1" "Port" [] [] DP1 "planned" "codex-master"
             "queen-codex-master" in
  {| gp_request :=
       {| req_request_id := "request-1"; req_objective := "Port"; req_success_criteria := [];
          req_constraints := []; req_non_goals := []; req_requested_by := _GODBEE_PRINCIPAL;
          req_repositories_requested := ["codex-master"];
          req_repositories_resolved := ["codex-master"]; req_dispatch_priority := DP1;
          req_user_gates := []; req_created_at_utc := sample_now; req_state := "planned";
          req_version := 1 |};
     gp_dispatches := [d]; gp_mode := "enforced"; gp_planning_reason := "ready";
     gp_user_gates := [] |}.

(** A world that counts the writes; execution and compensation fail. *)
Definition failing_context : GlobalSagaExecutionContext Z :=
  {| pilot_queens := ["queen-codex-master"]; pilot_repositories := ["codex-master"];
     confirmed_gates := [];
     create_global_request := Some (λ _ w, (w + 1, Ok VNone));
     create_repo_dispatch := Some (λ _ w, (w + 1, Ok VNone));
     execute_repo_dispatch := Some (λ _ w, (w, Err (RuntimeError "offline")));
     compensate := Some (λ _ _ _ w, (w, Err (RuntimeError "offline")));
     retry_dispatch := None; cancel_request := None |}.

(** A saga whose writes were not undone still answers that no mutation was
    performed. *)
Theorem partial_saga_reports_no_mutation :
  ∃ resp, execute_global_request sample_plan (Some failing_context) 0 = (2, Ok resp) ∧
    get "mutation_performed" resp = VBool false ∧
    get "compensation_complete" resp = VBool false.
Proof. eexists. split; [reflexivity|]. by split. Qed.
