(* ===== verification/HiveAssignment.v ===== *)
(** * Queen assignment plans

    [src/src/the_hive/hive/dispatch.py], lines 753 to 1003: the immutable
    assignment plan of the pilot queen, the context that authorizes its
    execution, and the two planners, one of which binds the dynamic pool of the
    selected agent. *)

From S2P Require Import Prelude DynamicPool Json HiveTypes HiveMessages HiveWork Selection.
#[local] Open Scope Z_scope.

Definition _PILOT_QUEENS : list string := ["queen-codex-master"].
Definition _PILOT_REPOSITORIES : list string := ["codex-master"].

Record QueenAssignmentPlan := {
  qa_queen : string;
  qa_dispatch_id : string;
  qa_workpackage_id : string;
  qa_repo_id : string;
  qa_teamlead : string;
  qa_specialist : string;
  qa_writer_class : string;
  qa_agent_id : string;
  qa_account_key : string;
  qa_model_id : string;
  qa_model_role : string;
  qa_task_complexity : TaskComplexity;
  qa_scope : list string;
  qa_write_paths : list string;
  qa_mode : string;
  qa_pilot_enabled : bool;
  qa_account_confirmed : bool;
  qa_authority_verified : bool;
  qa_repository_verified : bool;
  qa_scope_verified : bool;
  qa_lease_available : bool;
  qa_selection_band : string;
  qa_pool : option AccountPoolBindingV1;
}.

(** What a workpackage holds under [account_pool_binding]: nothing, a binding, or
    another value. *)
Inductive pool_field := NoPool | PoolBinding (b : AccountPoolBindingV1) | OtherPool.

(** [char.isalnum() or char in {".", "_", ":", "/", "-"}]. *)
Definition model_char (c : ascii) : bool :=
  py_isalnum c || bool_decide (c ∈ ["."; "_"; ":"; "/"; "-"]%char).

Definition assignment_model (v : pyval) : result string :=
  match v with
  | VStr s => if (1 <=? py_len s) && (py_len s <=? 128) && string_forallb model_char s then Ok s
              else Err (HiveDispatchError "invalid_model")
  | _ => Err (HiveDispatchError "invalid_model")
  end.

Definition assignment_gate (v : pyval) : result bool :=
  match v with VBool b => Ok b | _ => Err (HiveDispatchError "invalid_assignment_gate") end.

(** [if value not in {...}: raise HiveDispatchError(code)]. *)
Definition one_of (v : pyval) (l : list string) (code : string) : result string :=
  known ← py_in_set v l;
  match v with
  | VStr s => _ ← require known (HiveDispatchError code); Ok s
  | _ => Err (HiveDispatchError code)
  end.

Definition QueenAssignmentPlan_new (queen dispatch workpackage repo teamlead specialist writer agent
    account model role : pyval) (complexity : TaskComplexity) (scope write_paths : list pyval)
    (mode pilot confirmed authority repository scope_ok lease band : pyval) (pool : pool_field)
  : result QueenAssignmentPlan :=
  queen ← _id queen "queen";
  dispatch ← _id dispatch "dispatch";
  workpackage ← _id workpackage "workpackage";
  repo ← _id repo "repo";
  teamlead ← _id teamlead "teamlead";
  specialist ← _id specialist "specialist";
  writer ← _id writer "class";
  agent ← _id agent "agent";
  model ← assignment_model model;
  account ← _text account "account_key" 256;
  _ ← require (bool_decide (queen ∈ _PILOT_QUEENS) && bool_decide (repo ∈ _PILOT_REPOSITORIES))
        (HiveDispatchError "pilot_allowlist_denied");
  _ ← require (bool_decide (writer ∈ ["spezialistin"; "specialist"]))
        (HiveDispatchError "writer_role_denied");
  _ ← require (py_eq_str role "primary") (HiveDispatchError "primary_model_required");
  scope ← _texts scope "assignment_scope";
  write_paths ← _texts write_paths "assignment_write_paths";
  mode ← one_of mode ["shadow"; "enforced"] "invalid_assignment_mode";
  pilot ← assignment_gate pilot;
  confirmed ← assignment_gate confirmed;
  authority ← assignment_gate authority;
  repository ← assignment_gate repository;
  scope_ok ← assignment_gate scope_ok;
  lease ← assignment_gate lease;
  band ← one_of band ["none"; "primary"] "selection_feature_disabled";
  _ ← require (bool_decide (band = "none")) (HiveDispatchError "selection_feature_disabled");
  pool ← match pool with
         | NoPool => Ok None
         | PoolBinding b => Ok (Some b)
         | OtherPool => Err (HiveDispatchError "invalid_dynamic_pool_binding")
         end;
  Ok {| qa_queen := queen; qa_dispatch_id := dispatch; qa_workpackage_id := workpackage;
        qa_repo_id := repo; qa_teamlead := teamlead; qa_specialist := specialist;
        qa_writer_class := writer; qa_agent_id := agent; qa_account_key := account;
        qa_model_id := model; qa_model_role := "primary"; qa_task_complexity := complexity;
        qa_scope := scope; qa_write_paths := write_paths; qa_mode := mode;
        qa_pilot_enabled := pilot; qa_account_confirmed := confirmed;
        qa_authority_verified := authority; qa_repository_verified := repository;
        qa_scope_verified := scope_ok; qa_lease_available := lease; qa_selection_band := band;
        qa_pool := pool |}.

Definition gates_ready (p : QueenAssignmentPlan) : bool :=
  qa_pilot_enabled p && qa_account_confirmed p && qa_authority_verified p
  && qa_repository_verified p && qa_scope_verified p && qa_lease_available p.

Definition plan_public (p : QueenAssignmentPlan) : mapping :=
  [ ("queen_principal_id", VStr (qa_queen p)); ("dispatch_id", VStr (qa_dispatch_id p));
    ("workpackage_id", VStr (qa_workpackage_id p)); ("repo_id", VStr (qa_repo_id p));
    ("teamlead_principal_id", VStr (qa_teamlead p));
    ("specialist_principal_id", VStr (qa_specialist p));
    ("writer_class_id", VStr (qa_writer_class p)); ("agent_id", VStr (qa_agent_id p));
    ("model_id", VStr (qa_model_id p)); ("model_role", VStr (qa_model_role p));
    ("task_complexity", VStr (complexity_value (qa_task_complexity p)));
    ("scope", VDict [("path_count", VInt (Z.of_nat (length (qa_scope p))));
                     ("write_path_count", VInt (Z.of_nat (length (qa_write_paths p))))]);
    ("mode", VStr (qa_mode p)); ("pilot_enabled", VBool (qa_pilot_enabled p));
    ("account_confirmed", VBool (qa_account_confirmed p));
    ("authority_verified", VBool (qa_authority_verified p));
    ("repository_verified", VBool (qa_repository_verified p));
    ("scope_verified", VBool (qa_scope_verified p));
    ("lease_available", VBool (qa_lease_available p)); ("selection_band", VStr "disabled");
    ("account_key", VStr "not_returned"); ("raw_output", VStr "not_returned") ].

(** ** Planning *)

(** [except (KeyError, TypeError, ValueError)], where a [HiveDispatchError] is
    raised again as it is. *)
Definition plan_handled (e : exn) : bool :=
  match e with
  | HiveDispatchError _ => false
  | KeyError _ | TypeError _ => true
  | e => is_value_error e
  end.

(** [workpackage.get(k, d)]. *)
Definition get_or (d : pyval) (k : string) (w : mapping) : pyval := default d (dict_get k w).

Definition list_field (v : pyval) : result (list pyval) :=
  match v with VList l => Ok l | _ => Err (HiveDispatchError "invalid_workpackage_plan") end.

(** Both fields are read before either is looked at. *)
Definition plan_fields (w : mapping) : result (TaskComplexity * list pyval * list pyval) :=
  complexity ← getitem "task_complexity" w;
  complexity ← TaskComplexity_of complexity;
  scope ← getitem "scope" w;
  write_paths ← getitem "write_paths" w;
  scope ← list_field scope;
  write_paths ← list_field write_paths;
  Ok (complexity, scope, write_paths).

Definition plan_queen_assignment (queen dispatch : pyval) (w : mapping) (pool : pool_field)
  : result QueenAssignmentPlan :=
  reraise plan_handled (λ _, HiveDispatchError "invalid_workpackage_plan")
    ('(complexity, scope, write_paths) ← plan_fields w;
     workpackage ← getitem "workpackage_id" w;
     repo ← getitem "repo_id" w;
     teamlead ← getitem "teamlead_principal_id" w;
     specialist ← getitem "specialist_principal_id" w;
     writer ← getitem "writer_class_id" w;
     agent ← getitem "agent_id" w;
     account ← getitem "account_key" w;
     model ← getitem "model_id" w;
     role ← getitem "model_role" w;
     QueenAssignmentPlan_new queen dispatch workpackage repo teamlead specialist writer agent
       account model role complexity scope write_paths (get_or (VStr "shadow") "mode" w)
       (get_or (VBool false) "pilot_enabled" w) (get_or (VBool false) "account_confirmed" w)
       (get_or (VBool false) "authority_verified" w)
       (get_or (VBool false) "repository_verified" w) (get_or (VBool false) "scope_verified" w)
       (get_or (VBool false) "lease_available" w) (get_or (VStr "none") "selection_band" w) pool).

(** [bound] tells whether the workpackage came with a binding of its own. *)
Definition plan_queen_assignment_from_selection (queen dispatch : pyval) (w : mapping) (bound : bool)
  (selection : SelectionResult) (inventory : DynamicPoolInventoryV1) : result QueenAssignmentPlan :=
  _ ← require (negb bound) (HiveDispatchError "manual_dynamic_pool_binding");
  _ ← require (py_eq_str (get_or VNone "agent_id" w) (r_agent_id selection)
               && py_eq_str (get_or VNone "model_id" w) (r_model_id selection))
        (HiveDispatchError "selection_binding_mismatch");
  resolved ← resolve_dynamic_pool_selection selection inventory;
  plan_queen_assignment queen dispatch w
    (match r_account_pool_binding resolved with Some b => PoolBinding b | None => NoPool end).

(** ** The execution context *)

Record QueenAssignmentExecutionContext (W : Type) := {
  pilot_queens : list string;
  pilot_repositories : list string;
  confirmed_accounts : list string;
  primary_models : list string;
  sp_features_enabled : bool;
  create_teamlead_principal : option (QueenAssignmentPlan → ST W pyval);
  create_specialist_principal : option (QueenAssignmentPlan → ST W pyval);
  issue_grant : option (QueenAssignmentPlan → ST W pyval);
  reserve_admission : option (QueenAssignmentPlan → ST W pyval);
  execute_assignment : option (QueenAssignmentPlan → ST W pyval);
  compensate : option (string → QueenAssignmentPlan → pyval → ST W ());
}.
Arguments pilot_queens {_} _.
Arguments pilot_repositories {_} _.
Arguments confirmed_accounts {_} _.
Arguments primary_models {_} _.
Arguments sp_features_enabled {_} _.
Arguments create_teamlead_principal {_} _.
Arguments create_specialist_principal {_} _.
Arguments issue_grant {_} _.
Arguments reserve_admission {_} _.
Arguments execute_assignment {_} _.
Arguments compensate {_} _.

Definition present {A} (o : option A) : bool := bool_decide (is_Some o).

Definition ready_for {W} (c : QueenAssignmentExecutionContext W) (p : QueenAssignmentPlan) : bool :=
  negb (sp_features_enabled c)
  && bool_decide (qa_queen p ∈ pilot_queens c)
  && bool_decide (qa_repo_id p ∈ pilot_repositories c)
  && bool_decide (qa_account_key p ∈ confirmed_accounts c)
  && bool_decide (qa_model_id p ∈ primary_models c)
  && gates_ready p
  && (present (create_teamlead_principal c) && present (create_specialist_principal c)
      && present (issue_grant c) && present (reserve_admission c)
      && present (execute_assignment c) && present (compensate c)).
