(* ===== verification/ProbeRecord.v ===== *)
(** * The hourly probe record

    [src/src/the_hive/hive/hourly_probe.py], lines 140 to 765, with the
    readiness projection of [hive/runtime.py] (lines 104 to 145): what a green
    runtime and a green Hive report, the service checks, the validity of the
    versioned record and the gate every new capacity passes.  The elapsed time
    is the exact number of microseconds. *)

From S2P Require Import Prelude PyTime Order DynamicPool Json PyEq HiveMessages HiveAssignment.
#[local] Open Scope Z_scope.

Definition MAX_PROBE_AGE_SECONDS : Z := 4 * 60 * 60.
Definition _PROBE_RECORD_KEYS : list string :=
  [ "schema_version"; "checked_at"; "checks"; "commands"; "diagnostics"; "alarm";
    "global_pilot_readiness" ].
Definition _GLOBAL_PILOT_READINESS_KEYS : list string :=
  [ "schema_version"; "pilot"; "generation_id"; "freshness"; "candidate_count"; "reason_codes";
    "raw_output" ].
Definition _PROBE_CHECK_KEYS : list string := ["runtime_layout"; "hive_runtime"; "hive_doctor"].
Definition _PROBE_COMMAND_KEYS : list string := ["runtime_status"; "hive_status"; "hive_doctor"].
Definition _PROBE_ALARM_KEYS : list string := ["scope"; "status"; "reason_codes"; "owner"].
Definition _PROBE_ALARM_OWNER_KEYS : list string := ["principal_id"; "class_id"; "repo_id"].
Definition _PROBE_DIAGNOSTIC_VALUE_KEYS : list string := ["code"; "exit_code"; "stderr"].
Definition _PROBE_STDERR_KEYS : list string := ["state"; "excerpt"; "redaction_applied"].
Definition _SAFE_DIAGNOSTIC_CODES : list string :=
  [ "ok"; "runtime_status_red"; "mcp_timeout"; "mcp_cleanup_timeout"; "command_exit_nonzero";
    "command_json_invalid"; "command_timeout"; "command_cleanup_bounded"; "command_arguments_invalid";
    "command_environment_invalid"; "command_group_unavailable"; "command_runtime_directory_unavailable";
    "command_spawn_helper_unavailable"; "command_cgroup_preflight_unavailable";
    "command_manager_preflight_unavailable"; "command_native_spawn_unavailable";
    "command_cgroup_bind_unavailable"; "command_output_invalid"; "command_stdout_limit";
    "command_stderr_limit"; "command_unavailable"; "command_failed"; "command_stderr_warning";
    "command_stderr_redaction_unavailable"; "runtime_lifecycle_rollback_failed" ].
Definition _SAFE_DIAGNOSTIC_STDERR : list string := ["empty"; "present"; "not_returned"].
Definition _SAFE_STDERR_EXCERPT_CHARS : Z := 1200.
Definition _HIVE_STATUS_KEYS : list string :=
  [ "schema_version"; "mode"; "counts"; "checks"; "config_digest"; "catalog_digest"; "repository";
    "principal"; "authority"; "state"; "pilot"; "reason_codes"; "mutation_performed"; "raw_output";
    "global_pilot_readiness" ].
Definition _SERVICE_CHECK_KEYS : list string :=
  [ "runtime_surface"; "configuration"; "repository"; "principals"; "state"; "usage" ].
Definition _PROBE_RECORD_V4_KEYS : list string := _PROBE_RECORD_KEYS ++ ["service_checks"; "service_alarm"].
Definition _HIVE_DOCTOR_KEYS : list string :=
  filter (λ k, k ∉ ["schema_version"; "counts"; "authority"]) _HIVE_STATUS_KEYS ++ ["healthy"].
Definition _RUNTIME_STATUS_KEYS : list string := ["ok"; "metadata"; "mcp_surface"; "raw_output"].
Definition _RUNTIME_METADATA_KEYS : list string := ["ok"; "reason_code"].
Definition _RUNTIME_SURFACE_KEYS : list string :=
  ["ok"; "initialize"; "tools_list"; "tool_count"; "reason_code"].
Definition _RUNTIME_SURFACE_REASONS : list string :=
  [ "ok"; "metadata_invalid"; "mcp_timeout"; "mcp_cleanup_timeout"; "mcp_unavailable";
    "mcp_surface_invalid" ].
Definition _RUNTIME_METADATA_REASONS : list string := ["ok"; "metadata_invalid"].
Definition _RUNTIME_STATES : list string := ["ready"; "not_configured"; "invalid"; "unavailable"].

(** ** Reading values *)

(** [v.get(k)] of a mapping. *)
Definition field (k : string) (d : mapping) : pyval := get_or VNone k d.

(** [v is b] and [type(v) is bool]. *)
Definition is_bool (b : bool) (v : pyval) : bool := match v with VBool x => Bool.eqb x b | _ => false end.
Definition a_bool (v : pyval) : bool := match v with VBool _ => true | _ => false end.
(** [v is w] of two values, true of equal booleans only. *)
Definition same_bool (v w : pyval) : bool :=
  match v, w with VBool x, VBool y => Bool.eqb x y | _, _ => false end.
(** [type(v) is int and v >= low]. *)
Definition int_from (low : Z) (v : pyval) : bool := match v with VInt z => low <=? z | _ => false end.
(** [type(v) is str and v in {...}]. *)
Definition str_in (l : list string) (v : pyval) : bool :=
  match v with VStr s => bool_decide (s ∈ l) | _ => false end.
Definition a_none (v : pyval) : bool := match v with VNone => true | _ => false end.

(** A mapping with exactly these keys. *)
Definition with_keys (keys : list string) (v : pyval) : option mapping :=
  match v with VDict d => if keys_exactly d keys then Some d else None | _ => None end.

Definition py_bool_opt (o : option bool) : bool := default false o.

Definition _ready_state (v : pyval) : bool := py_eq_str v "ready".

Definition _digest (v : pyval) : bool :=
  match v with VStr s => is_sha256_digest s | _ => false end.

(** ** The readiness projection *)

Definition _GLOBAL_PILOT_REASON_CODES : list string :=
  [ "candidate_missing"; "candidate_mapping_conflict"; "model_capability_conflicting";
    "model_capability_invalid"; "model_capability_missing"; "model_capability_stale";
    "model_policy_invalid"; "model_policy_mismatch"; "model_uninvocable"; "pilot_class_ambiguous";
    "pilot_class_invalid"; "pool_authority_ambiguous"; "pool_authority_missing";
    "pool_authority_unready"; "usage_generation_missing"; "usage_invalid"; "usage_missing";
    "usage_partial"; "usage_stale"; "usage_unattested" ].
Definition _GLOBAL_PILOT_FRESHNESS : list string := ["fresh"; "stale"; "unknown"].
Definition _GLOBAL_PILOT_GENERATION_RE (s : string) : bool :=
  (py_len s =? 32) && string_forallb is_hex_lower s.

Record GlobalPilotReadinessV1 := {
  gp_pilot : string;
  gp_generation_id : option string;
  gp_freshness : string;
  gp_candidate_count : Z;
  gp_reason_codes : list string;
}.

Definition invalid_readiness : exn := ValueError "invalid_global_pilot_readiness".

(** A known reason. *)
Definition readiness_code (v : pyval) : result string :=
  match v with
  | VStr s => if bool_decide (s ∈ _GLOBAL_PILOT_REASON_CODES) then Ok s else Err invalid_readiness
  | _ => Err invalid_readiness
  end.

(** The two memberships raise on a value that cannot be hashed; every other
    refusal is one error. *)
Definition GlobalPilotReadinessV1_new (pilot generation freshness count : pyval) (reasons : list pyval)
  : result GlobalPilotReadinessV1 :=
  known ← py_in_set pilot ["ready"; "blocked"];
  _ ← require known invalid_readiness;
  generation ← match generation with
               | VNone => Ok None
               | VStr s => if _GLOBAL_PILOT_GENERATION_RE s then Ok (Some s) else Err invalid_readiness
               | _ => Err invalid_readiness
               end;
  known ← py_in_set freshness _GLOBAL_PILOT_FRESHNESS;
  _ ← require known invalid_readiness;
  count ← match count with
          | VInt z => if (0 <=? z) && (z <=? 256) then Ok z else Err invalid_readiness
          | _ => Err invalid_readiness
          end;
  _ ← require (Z.of_nat (length reasons) <=? 8) invalid_readiness;
  codes ← mapM_result readiness_code reasons;
  _ ← require (bool_decide (NoDup codes)) invalid_readiness;
  match pilot, freshness with
  | VStr p, VStr f => Ok {| gp_pilot := p; gp_generation_id := generation; gp_freshness := f;
                            gp_candidate_count := count; gp_reason_codes := codes |}
  | _, _ => Err invalid_readiness
  end.

Definition readiness_public (r : GlobalPilotReadinessV1) : mapping :=
  [ ("schema_version", VInt 1); ("pilot", VStr (gp_pilot r));
    ("generation_id", opt_str (gp_generation_id r)); ("freshness", VStr (gp_freshness r));
    ("candidate_count", VInt (gp_candidate_count r));
    ("reason_codes", VList (VStr <$> gp_reason_codes r)); ("raw_output", VStr "not_returned") ].

Definition blocked_readiness (reason : string) : mapping :=
  readiness_public {| gp_pilot := "blocked"; gp_generation_id := None; gp_freshness := "unknown";
                      gp_candidate_count := 0; gp_reason_codes := [reason] |}.

(** The public form of a readiness a mapping describes. *)
Definition readiness_of (d : mapping) (reasons : list pyval) : result mapping :=
  r ← GlobalPilotReadinessV1_new (field "pilot" d) (field "generation_id" d) (field "freshness" d)
        (field "candidate_count" d) reasons;
  Ok (readiness_public r).

Definition _bounded_global_pilot_readiness (v : pyval) : mapping :=
  match with_keys _GLOBAL_PILOT_READINESS_KEYS v with
  | None => blocked_readiness "usage_missing"
  | Some d =>
      match field "reason_codes" d with
      | VList reasons =>
          match readiness_of d reasons with
          | Ok public => public
          | Err _ => blocked_readiness "usage_invalid"
          end
      | _ => blocked_readiness "usage_invalid"
      end
  end.

Definition _valid_global_pilot_readiness (v : pyval) : bool :=
  match with_keys _GLOBAL_PILOT_READINESS_KEYS v with
  | None => false
  | Some d =>
      match field "reason_codes" d with
      | VList reasons =>
          match readiness_of d reasons with
          | Ok public => py_eq v (VDict public)
          | Err _ => false
          end
      | _ => false
      end
  end.

(** ** Green reports *)

Definition _green_hive_runtime (v : pyval) : bool :=
  match with_keys _HIVE_STATUS_KEYS v with
  | None => false
  | Some d =>
      match field "schema_version" d with VInt z => z =? 1 | _ => false end
      && py_eq_str (field "mode" d) "enforced"
      && _digest (field "config_digest" d) && _digest (field "catalog_digest" d)
      && match with_keys ["principals"; "repositories"] (field "counts" d) with
         | Some counts => forallb (int_from 0) (dict_values counts)
         | None => false
         end
      && match with_keys ["authority"; "repository"; "state"] (field "checks" d) with
         | Some checks => forallb (λ k, _ready_state (field k checks)) (dict_keys checks)
         | None => false
         end
      && forallb (λ k, _ready_state (field k d))
           ["authority"; "repository"; "principal"; "state"; "pilot"]
      && match field "reason_codes" d with VList [] => true | _ => false end
      && is_bool false (field "mutation_performed" d)
      && py_eq_str (field "raw_output" d) "not_returned"
      && py_eq (field "global_pilot_readiness" d)
           (VDict (_bounded_global_pilot_readiness (field "global_pilot_readiness" d)))
  end.

Definition as_dict (v : pyval) : option mapping := match v with VDict d => Some d | _ => None end.

Definition _green_runtime_status (v : pyval) : bool :=
  py_bool_opt
    (d ← as_dict v;
     if negb (is_bool true (field "ok" d)) then None
     else
       metadata ← as_dict (field "metadata" d);
       surface ← as_dict (field "mcp_surface" d);
       Some (is_bool true (field "ok" metadata) && py_eq_str (field "reason_code" metadata) "ok"
             && is_bool true (field "ok" surface) && is_bool true (field "initialize" surface)
             && is_bool true (field "tools_list" surface) && int_from 1 (field "tool_count" surface)
             && py_eq_str (field "reason_code" surface) "ok"
             && py_eq_str (field "raw_output" d) "not_returned")).

Definition mapping_or_empty (v : pyval) : mapping := default [] (as_dict v).

Definition doctor_ready (doctor : mapping) : bool :=
  match field "checks" doctor with
  | VDict checks => forallb (λ k, _ready_state (field k checks)) ["authority"; "repository"; "state"]
  | _ => false
  end.

(** The two fields [evaluate] returns. *)
Definition evaluate (runtime_status hive doctor : pyval) : mapping * mapping :=
  let hive := mapping_or_empty hive in
  let doctor := mapping_or_empty doctor in
  ([ ("runtime_layout", VBool (_green_runtime_status (VDict (mapping_or_empty runtime_status))));
     ("hive_runtime", VBool (_green_hive_runtime (VDict hive)));
     ("hive_doctor", VBool (is_bool true (field "healthy" doctor) && doctor_ready doctor)) ],
   _bounded_global_pilot_readiness (field "global_pilot_readiness" hive)).

(** ** Parts of the record *)

Definition bounded_str (maximum : Z) (v : pyval) : bool :=
  match v with VStr s => (1 <=? py_len s) && (py_len s <=? maximum) | _ => false end.

Definition _valid_alarm_owner (v : pyval) : bool :=
  match with_keys _PROBE_ALARM_OWNER_KEYS v with
  | None => false
  | Some d => py_eq_str (field "class_id" d) "koenigin"
              && forallb (λ k, bounded_str 128 (field k d)) _PROBE_ALARM_OWNER_KEYS
  end.

(** The stderr part: its state, and whether it has an excerpt or a redaction;
    a state that cannot be hashed raises. *)
Definition stderr_part (v : pyval) : result (option (string * bool * bool)) :=
  match with_keys _PROBE_STDERR_KEYS v with
  | None => Ok None
  | Some d =>
      known ← py_in_set (field "state" d) _SAFE_DIAGNOSTIC_STDERR;
      Ok match known, field "state" d, field "excerpt" d, field "redaction_applied" d with
         | true, VStr state, VStr excerpt, VBool redacted =>
             if py_len excerpt <=? _SAFE_STDERR_EXCERPT_CHARS
             then Some (state, negb (bool_decide (excerpt = "")), redacted) else None
         | _, _, _, _ => None
         end
  end.

Definition exit_code_ok (v : pyval) : bool :=
  match v with VNone => true | VInt z => (-255 <=? z) && (z <=? 255) | _ => false end.

Definition _valid_diagnostic (v : pyval) (command_ready : bool) : result bool :=
  match with_keys _PROBE_DIAGNOSTIC_VALUE_KEYS v with
  | None => Ok false
  | Some d =>
      if negb (str_in _SAFE_DIAGNOSTIC_CODES (field "code" d)) || negb (exit_code_ok (field "exit_code" d))
      then Ok false
      else
        part ← stderr_part (field "stderr" d);
        Ok match part with
           | None => false
           | Some (state, has_excerpt, redacted) =>
               let present := bool_decide (state = "present") in
               if negb present && (has_excerpt || redacted) then false
               else if present && negb has_excerpt then false
               else if command_ready
               then py_eq_str (field "code" d) "ok" && py_eq_int (field "exit_code" d) 0
                    && bool_decide (state = "empty")
               else negb (py_eq_str (field "code" d) "ok")
           end
  end.

(** [sorted(name for name, ready in checks.items() if ready is not True)]. *)
Definition failed_checks (checks : mapping) : list string :=
  sort_by str_cmp id (filter (λ kv : string * pyval, is_bool true kv.2 = false) checks).*1.

Definition all_true (checks : mapping) : bool := forallb (is_bool true) (dict_values checks).

Definition reason_texts (l : list pyval) : option (list string) :=
  mapM (λ v, match v with VStr s => if bool_decide (s = "") then None else Some s | _ => None end) l.

Definition _valid_alarm (v : pyval) (checks : mapping) : bool :=
  match with_keys _PROBE_ALARM_KEYS v with
  | None => false
  | Some d =>
      match py_eq_str (field "scope" d) "hive", field "reason_codes" d with
      | true, VList reasons =>
          match reason_texts reasons with
          | None => false
          | Some reasons =>
              let owner := field "owner" d in
              if all_true checks
              then py_eq_str (field "status" d) "cleared" && bool_decide (reasons = [])
                   && _valid_alarm_owner owner
              else py_eq_str (field "status" d) "active"
                   && bool_decide (reasons = failed_checks checks
                        ++ if a_none owner then ["alarm_owner_unavailable"] else [])
                   && (a_none owner || _valid_alarm_owner owner)
          end
      | _, _ => false
      end
  end.

(** ** The shapes the diagnostics must have *)

Definition _valid_runtime_status_shape (v : pyval) : bool :=
  py_bool_opt
    (d ← with_keys _RUNTIME_STATUS_KEYS v;
     metadata ← with_keys _RUNTIME_METADATA_KEYS (field "metadata" d);
     surface ← with_keys _RUNTIME_SURFACE_KEYS (field "mcp_surface" d);
     if negb (a_bool (field "ok" d) && py_eq_str (field "raw_output" d) "not_returned"
              && a_bool (field "ok" metadata) && str_in _RUNTIME_METADATA_REASONS (field "reason_code" metadata)
              && forallb (λ k, a_bool (field k surface)) ["ok"; "initialize"; "tools_list"]
              && int_from 0 (field "tool_count" surface)
              && str_in _RUNTIME_SURFACE_REASONS (field "reason_code" surface)
              && same_bool (field "ok" d) (field "ok" surface))
     then None
     else Some (if is_bool false (field "ok" metadata)
                then py_eq_str (field "reason_code" metadata) "metadata_invalid"
                     && is_bool false (field "ok" surface)
                else py_eq_str (field "reason_code" metadata) "ok")).

(** [[a-z][a-z0-9_-]*]. *)
Definition reason_code_ok (s : string) : bool :=
  match s with
  | EmptyString => false
  | String c rest =>
      is_lower c && string_forallb (λ c, is_lower c || is_digit_char c || is_char "_" c || is_char "-" c) rest
      && (py_len s <=? 96)
  end.

Definition _valid_reason_codes (v : pyval) : bool :=
  match v with
  | VList l =>
      match mapM (λ v, match v with VStr s => if reason_code_ok s then Some s else None | _ => None end) l with
      | Some codes => bool_decide (NoDup codes)
      | None => false
      end
  | _ => false
  end.

Definition _MODES : list string := ["disabled"; "shadow"; "enforced"].

(** The checks both reports share. *)
Definition shared_shape (d checks : mapping) : bool :=
  str_in _MODES (field "mode" d)
  && str_in ["ready"; "fail_closed"] (field "authority" checks)
  && forallb (λ k, str_in _RUNTIME_STATES (field k checks)) ["repository"; "state"]
  && forallb (λ k, str_in _RUNTIME_STATES (field k d)) ["repository"; "principal"; "state"]
  && str_in ["ready"; "blocked"] (field "pilot" d)
  && _valid_reason_codes (field "reason_codes" d)
  && forallb (λ k, a_none (field k d) || _digest (field k d)) ["config_digest"; "catalog_digest"]
  && a_bool (field "mutation_performed" d) && py_eq_str (field "raw_output" d) "not_returned"
  && _valid_global_pilot_readiness (field "global_pilot_readiness" d).

(** [checks == {"authority": a, "repository": r, "state": s}]. *)
Definition checks_equal (checks : mapping) (authority repository state : pyval) : bool :=
  py_eq (VDict checks) (VDict [("authority", authority); ("repository", repository); ("state", state)]).

Definition _valid_hive_status_shape (v : pyval) : bool :=
  py_bool_opt
    (d ← with_keys _HIVE_STATUS_KEYS v;
     counts ← with_keys ["principals"; "repositories"] (field "counts" d);
     checks ← with_keys ["authority"; "repository"; "state"] (field "checks" d);
     Some (match field "schema_version" d with VInt z => z =? 1 | _ => false end
           && forallb (int_from 0) (dict_values counts)
           && str_in ["ready"; "fail_closed"] (field "authority" d)
           && shared_shape d checks
           && checks_equal checks (field "authority" d) (field "repository" d) (field "state" d))).

Definition _valid_hive_doctor_shape (v : pyval) : bool :=
  py_bool_opt
    (d ← with_keys _HIVE_DOCTOR_KEYS v;
     checks ← with_keys ["authority"; "repository"; "state"] (field "checks" d);
     let expected_healthy :=
       _ready_state (field "authority" checks)
       && forallb (λ k, _ready_state (field k d)) ["pilot"; "state"; "repository"; "principal"] in
     Some (a_bool (field "healthy" d) && shared_shape d checks
           && checks_equal checks (field "authority" checks) (field "repository" d) (field "state" d)
           && is_bool expected_healthy (field "healthy" d))).

(** [v[k1][k2]] of values whose shape is known. *)
Definition at_key (k : string) (v : pyval) : pyval := field k (mapping_or_empty v).

Definition _valid_service_producer_shapes (runtime hive doctor readiness : pyval) : bool :=
  _valid_runtime_status_shape runtime && _valid_hive_status_shape hive
  && _valid_hive_doctor_shape doctor
  && py_eq (at_key "mode" hive) (at_key "mode" doctor)
  && py_eq (at_key "authority" hive) (at_key "authority" (at_key "checks" doctor))
  && forallb (λ k, py_eq (at_key k hive) (at_key k doctor))
       [ "repository"; "principal"; "state"; "pilot"; "checks"; "config_digest"; "catalog_digest";
         "global_pilot_readiness" ]
  && py_eq (at_key "global_pilot_readiness" hive) readiness
  && same_bool (at_key "mutation_performed" hive) (at_key "mutation_performed" doctor)
  && py_eq (at_key "reason_codes" hive) (at_key "reason_codes" doctor).

(** A ready, fresh generation without reasons. *)
Definition usage_ready (readiness : mapping) : bool :=
  py_eq_str (field "pilot" readiness) "ready" && py_eq_str (field "freshness" readiness) "fresh"
  && match field "generation_id" readiness with VStr g => negb (bool_decide (g = "")) | _ => false end
  && match field "reason_codes" readiness with VList [] => true | _ => false end.

Definition _service_usage_value (readiness : pyval) : bool :=
  _valid_global_pilot_readiness readiness && usage_ready (mapping_or_empty readiness).

Definition service_checks_of (runtime_surface configuration repository principals state usage : bool)
  : mapping :=
  [ ("runtime_surface", VBool runtime_surface); ("configuration", VBool configuration);
    ("repository", VBool repository); ("principals", VBool principals); ("state", VBool state);
    ("usage", VBool usage) ].

Definition positive (v : pyval) : bool := int_from 1 v.

Definition _service_check_values (runtime hive doctor readiness : pyval) : mapping :=
  let usage := _service_usage_value readiness in
  if negb (_valid_service_producer_shapes runtime hive doctor readiness)
  then service_checks_of (_green_runtime_status runtime) false false false false usage
  else
    let counts := at_key "counts" hive in
    let checks := at_key "checks" hive in
    let doctor_checks := at_key "checks" doctor in
    let expected_authority_state :=
      py_eq_str (at_key "authority" hive) "fail_closed"
      && py_eq_str (at_key "authority" doctor_checks) "fail_closed"
      && is_bool false (at_key "healthy" doctor) in
    let digests_match :=
      _digest (at_key "config_digest" hive) && _digest (at_key "catalog_digest" hive)
      && py_eq (at_key "config_digest" hive) (at_key "config_digest" doctor)
      && py_eq (at_key "catalog_digest" hive) (at_key "catalog_digest" doctor) in
    service_checks_of (_green_runtime_status runtime)
      (expected_authority_state && py_eq_str (at_key "mode" hive) "enforced"
       && py_eq_str (at_key "mode" doctor) "enforced" && digests_match
       && match at_key "reason_codes" hive with VList [] => true | _ => false end)
      (_ready_state (at_key "repository" hive) && _ready_state (at_key "repository" doctor)
       && _ready_state (at_key "repository" checks) && _ready_state (at_key "repository" doctor_checks)
       && positive (at_key "repositories" counts))
      (_ready_state (at_key "principal" hive) && _ready_state (at_key "principal" doctor)
       && positive (at_key "principals" counts))
      (_ready_state (at_key "state" hive) && _ready_state (at_key "state" doctor)
       && _ready_state (at_key "state" checks) && _ready_state (at_key "state" doctor_checks)
       && is_bool false (at_key "mutation_performed" hive)
       && is_bool false (at_key "mutation_performed" doctor))
      usage.

(** ** The record and the gate

    [any(...)] runs over a frozen set of the three command names, in an order
    the hash of the process chooses; it is an argument. *)

Definition bool_mapping (keys : list string) (v : pyval) : option mapping :=
  d ← with_keys keys v;
  if forallb a_bool (dict_values d) then Some d else None.

Section gate.
Context (order : list string).

(** [any(not _valid_diagnostic(diagnostics[k], command_ready=ready(k)) for k in
    order)]. *)
Definition diagnostics_valid (diagnostics : mapping) (ready : string → bool) : result bool :=
  all_result (λ k, _valid_diagnostic (field k diagnostics) (ready k)) order.

Definition observed_at (v : pyval) : option datetime :=
  match v with VStr s => fromisoformat (replace_Z s) | _ => None end.

Definition _valid_probe_record_v3 (payload : pyval) : result bool :=
  match with_keys _PROBE_RECORD_KEYS payload with
  | None => Ok false
  | Some d =>
      if negb (py_eq_int (field "schema_version" d) 3 && bounded_str 40 (field "checked_at" d))
      then Ok false
      else match bool_mapping _PROBE_CHECK_KEYS (field "checks" d),
                 bool_mapping _PROBE_COMMAND_KEYS (field "commands" d),
                 with_keys _PROBE_COMMAND_KEYS (field "diagnostics" d) with
      | Some checks, Some commands, Some diagnostics =>
          valid ← diagnostics_valid diagnostics (λ k, is_bool true (field k commands));
          Ok (valid && _valid_alarm (field "alarm" d) checks
              && py_eq (field "global_pilot_readiness" d)
                   (VDict (_bounded_global_pilot_readiness (field "global_pilot_readiness" d)))
              && match observed_at (field "checked_at" d) with
                 | Some observed => dt_aware observed
                 | None => false
                 end)
      | _, _, _ => Ok false
      end
  end.

Definition legacy_record (d : mapping) : mapping :=
  dict_set "schema_version" (VInt 3) (dict_del "service_alarm" (dict_del "service_checks" d)).

Definition _valid_probe_record_v4 (payload : pyval) : result bool :=
  match with_keys _PROBE_RECORD_V4_KEYS payload with
  | None => Ok false
  | Some d =>
      if negb (match field "schema_version" d with VInt z => z =? 4 | _ => false end) then Ok false
      else match bool_mapping _SERVICE_CHECK_KEYS (field "service_checks" d) with
      | None => Ok false
      | Some service_checks =>
          if negb (_valid_alarm (field "service_alarm" d) service_checks) then Ok false
          else
            legacy ← _valid_probe_record_v3 (VDict (legacy_record d));
            if negb legacy then Ok false
            else
              let expected_usage := usage_ready (mapping_or_empty (field "global_pilot_readiness" d)) in
              Ok (same_bool (field "runtime_surface" service_checks)
                    (at_key "runtime_layout" (field "checks" d))
                  && is_bool expected_usage (field "usage" service_checks)
                  && py_eq (at_key "owner" (field "alarm" d)) (at_key "owner" (field "service_alarm" d)))
      end
  end.

(** [except (KeyError, TypeError, ValueError, OverflowError, RecursionError)]. *)
Definition record_handled (e : exn) : bool :=
  is_key_error e || is_type_error e || is_value_error e
  || match e with OverflowError _ => true | _ => false end.

Definition valid_probe_record (payload : pyval) : result bool :=
  match payload with
  | VDict d =>
      let guarded r := match r with
                       | Ok b => Ok b
                       | Err e => if record_handled e then Ok false else Err e
                       end in
      match field "schema_version" d with
      | VInt 3 => guarded (_valid_probe_record_v3 payload)
      | VInt 4 => guarded (_valid_probe_record_v4 payload)
      | _ => Ok false
      end
  | _ => Ok false
  end.

Definition gate_answer (allowed : bool) (reason : string) : mapping :=
  [ ("allowed", VBool allowed); ("reason_code", VStr reason); ("raw_output", VStr "not_returned") ].

(** The age of the record, when both times can be brought to UTC. *)
Definition record_age (checked_at : pyval) (now : datetime) : option Z :=
  observed ← observed_at checked_at;
  if dt_aware observed && dt_aware now then
    match dt_astimezone_utc now, dt_astimezone_utc observed with
    | Ok n, Ok o => Some (dt_diff_us n o)
    | _, _ => None
    end
  else None.

Definition freshness_answer (checked_at : pyval) (now : datetime) : mapping :=
  if negb (bounded_str 40 checked_at) then gate_answer false "probe_invalid"
  else match record_age checked_at now with
       | None => gate_answer false "probe_invalid"
       | Some age => if (age <? 0) || (MAX_PROBE_AGE_SECONDS * US_PER_SECOND <? age)
                     then gate_answer false "probe_stale" else gate_answer true "probe_ready"
       end.

(** [now] is what the clock answered. *)
Definition probe_spawn_gate (payload : pyval) (now : datetime) : result mapping :=
  match payload with
  | VDict d =>
      match field "schema_version" d with
      | VInt version =>
          if version =? 3 then Ok (gate_answer false "probe_schema_legacy")
          else if negb (version =? 4) then Ok (gate_answer false "probe_red")
          else
            valid ← _valid_probe_record_v4 payload;
            if negb valid then Ok (gate_answer false "probe_red")
            else if negb (all_true (mapping_or_empty (field "service_checks" d)))
                    || negb (all_true (mapping_or_empty (field "commands" d)))
            then Ok (gate_answer false "probe_red")
            else
              green ← diagnostics_valid (mapping_or_empty (field "diagnostics" d)) (λ _, true);
              if negb green || negb (py_eq_str (at_key "status" (field "service_alarm" d)) "cleared")
              then Ok (gate_answer false "probe_red")
              else Ok (freshness_answer (field "checked_at" d) now)
      | _ => Ok (gate_answer false "probe_ambiguous")
      end
  | _ => Ok (gate_answer false "probe_ambiguous")
  end.

(** What reading the private file answered. *)
Inductive probe_file := ProbeMissing | ProbeUnreadable | ProbeState (payload : mapping).

Definition read_probe_gate (file : probe_file) (now : datetime) : result mapping :=
  match file with
  | ProbeMissing => Ok (gate_answer false "probe_missing")
  | ProbeUnreadable => Ok (gate_answer false "probe_invalid")
  | ProbeState payload => probe_spawn_gate (VDict payload) now
  end.
End gate.

(** ** What the gate admits *)

Section admits.
Context (order : list string).
Implicit Types (d : mapping) (now : datetime).

(** A record that lets capacity through. *)
Record green_record d now : Prop := {
  gr_version : field "schema_version" d = VInt 4;
  gr_services : ∀ k, k ∈ _SERVICE_CHECK_KEYS → at_key k (field "service_checks" d) = VBool true;
  gr_commands : ∀ k, k ∈ _PROBE_COMMAND_KEYS → at_key k (field "commands" d) = VBool true;
  gr_diagnostics : ∀ k, k ∈ order →
    _valid_diagnostic (at_key k (field "diagnostics" d)) true = Ok true;
  gr_runtime : at_key "runtime_layout" (field "checks" d) = VBool true;
  gr_usage : usage_ready (mapping_or_empty (field "global_pilot_readiness" d)) = true;
  gr_alarm : at_key "status" (field "service_alarm" d) = VStr "cleared"
    ∧ at_key "reason_codes" (field "service_alarm" d) = VList []
    ∧ _valid_alarm_owner (at_key "owner" (field "service_alarm" d)) = true;
  gr_age : ∃ observed, observed_at (field "checked_at" d) = Some observed
    ∧ dt_aware observed = true ∧ dt_aware now = true
    ∧ 0 <= dt_diff_us now observed <= MAX_PROBE_AGE_SECONDS * US_PER_SECOND;
}.

Lemma with_keys_Some keys v d : with_keys keys v = Some d ↔ v = VDict d ∧ keys_exactly d keys = true.
Proof.
  unfold with_keys. destruct v as [| | | | | |e]; try (split; [done|by intros [[=] _]]).
  destruct (keys_exactly e keys) eqn:He; split; [by intros [= ->]|by intros [[= ->] _]|done|].
  intros [[= ->] H]. congruence.
Qed.

Lemma is_bool_true b v : is_bool b v = true ↔ v = VBool b.
Proof.
  unfold is_bool. destruct v as [|x| | | | |]; try (split; [done|by intros [=]]).
  rewrite eqb_true_iff. split; [by intros ->|by intros [= ->]].
Qed.

Lemma py_eq_str_true v s : py_eq_str v s = true ↔ v = VStr s.
Proof.
  unfold py_eq_str. destruct v as [| | | |t| |]; try (split; [done|by intros [=]]).
  rewrite bool_decide_eq_true. split; [by intros ->|by intros [= ->]].
Qed.

Lemma keys_exactly_get {V} (d : list (string * V)) keys k :
  keys_exactly d keys = true → k ∈ keys → ∃ v, dict_get k d = Some v.
Proof.
  unfold keys_exactly. rewrite andb_true_iff. intros [_ H] Hk.
  apply list_elem_of_In, (proj1 (forallb_forall _ _) H), bool_decide_eq_true, elem_of_dict_keys in Hk
    as [v Hv]. by exists v.
Qed.

Lemma all_true_field d keys k :
  keys_exactly d keys = true → all_true d = true → k ∈ keys → field k d = VBool true.
Proof.
  intros Hk Hall Hin. destruct (keys_exactly_get d keys k Hk Hin) as [v Hv].
  unfold field, get_or. rewrite Hv. cbn. apply is_bool_true.
  apply (proj1 (forallb_forall _ _) Hall), list_elem_of_In.
  apply dict_get_elem_of in Hv. apply list_elem_of_fmap. by exists (k, v).
Qed.

Lemma all_result_member {A} (f : A → result bool) l x :
  all_result f l = Ok true → x ∈ l → f x = Ok true.
Proof.
  induction l as [|y l IH]; [by intros _ ?%elem_of_nil|]. cbn.
  destruct (f y) as [[]|e] eqn:Hy; [|done..]. intros H [->|Hin]%elem_of_cons; [done|by apply IH].
Qed.

Lemma record_age_Some v now age :
  record_age v now = Some age →
  ∃ observed, observed_at v = Some observed ∧ dt_aware observed = true ∧ dt_aware now = true
    ∧ age = dt_diff_us now observed.
Proof.
  unfold record_age. rewrite bind_Some. intros (o & Ho & H). exists o.
  destruct (dt_aware o), (dt_aware now); try done. cbn [andb] in H.
  unfold dt_astimezone_utc in H. repeat case_match; simplify_eq. split_and!; [done..|].
  unfold dt_diff_us, dt_utc. cbn. lia.
Qed.

Lemma dict_get_del_ne {V} k k' (d : list (string * V)) : k ≠ k' → dict_get k' (dict_del k d) = dict_get k' d.
Proof.
  intros Hne. induction d as [|[k0 v0] d IH]; [done|]. cbn. case_bool_decide as Hk; subst; cbn.
  - by rewrite bool_decide_eq_false_2.
  - by rewrite IH.
Qed.

Lemma legacy_field k d :
  k ∉ ["schema_version"; "service_alarm"; "service_checks"] → field k (legacy_record d) = field k d.
Proof.
  rewrite !not_elem_of_cons. intros (H1 & H2 & H3 & _). unfold field, get_or, legacy_record.
  rewrite dict_get_set_ne by done. by rewrite !dict_get_del_ne.
Qed.

(** The commands of a legacy record are booleans of the three commands. *)
Lemma v3_commands d :
  _valid_probe_record_v3 order (VDict (legacy_record d)) = Ok true →
  all_true (mapping_or_empty (field "commands" d)) = true →
  ∀ k, k ∈ _PROBE_COMMAND_KEYS → at_key k (field "commands" d) = VBool true.
Proof.
  unfold _valid_probe_record_v3. intros H Hall k Hk.
  destruct (with_keys _PROBE_RECORD_KEYS (VDict (legacy_record d))) as [d'|] eqn:Hd; [|done].
  apply with_keys_Some in Hd as [[= <-] _].
  destruct (negb _); [done|].
  destruct (bool_mapping _PROBE_CHECK_KEYS _) as [checks|]; [|done].
  destruct (bool_mapping _PROBE_COMMAND_KEYS _) as [commands|] eqn:Hc; [|done].
  unfold bool_mapping in Hc. rewrite bind_Some in Hc. destruct Hc as (c & [Hf Hkeys]%with_keys_Some & _).
  rewrite legacy_field in Hf by (apply (bool_decide_unpack _); vm_compute; exact I).
  rewrite Hf in Hall |- *. by apply (all_true_field c _PROBE_COMMAND_KEYS).
Qed.

(** An alarm that is valid for checks that all hold. *)
Lemma cleared_alarm v checks :
  _valid_alarm v checks = true → all_true checks = true →
  at_key "status" v = VStr "cleared" ∧ at_key "reason_codes" v = VList []
  ∧ _valid_alarm_owner (at_key "owner" v) = true.
Proof.
  unfold _valid_alarm. intros H Hall. destruct (with_keys _PROBE_ALARM_KEYS v) as [d|] eqn:Hd; [|done].
  apply with_keys_Some in Hd as [-> _]. unfold at_key. cbn [mapping_or_empty as_dict default id].
  destruct (py_eq_str (field "scope" d) "hive"); [|done].
  destruct (field "reason_codes" d) as [| | | | |l|]; try done.
  destruct (reason_texts l) as [reasons|] eqn:Hl; [|done]. rewrite Hall in H.
  rewrite !andb_true_iff, bool_decide_eq_true, py_eq_str_true in H. destruct H as [[H1 ->] H3].
  split_and!; [done| |done]. destruct l as [|x l]; [done|]. unfold reason_texts in Hl.
  cbn in Hl. rewrite bind_Some in Hl. destruct Hl as (? & _ & Hl). rewrite bind_Some in Hl.
  destruct Hl as (? & _ & [=]).
Qed.

(** C25: Whatever the record and the time, the gate either refuses with its three
    bounded fields, or raises, or admits; and it admits only a record of version
    4 all of whose six service checks and three commands are true, whose command
    diagnostics all report a clean success, whose runtime check is true and whose
    usage generation is ready and fresh, whose service alarm is cleared without a
    reason and owned by a queen, and that was taken at most four hours before and
    not after the time of the decision. *)
Theorem probe_gate_admits_green payload now g :
  probe_spawn_gate order payload now = Ok g →
  (∃ reason, g = gate_answer false reason)
  ∨ (g = gate_answer true "probe_ready" ∧ ∃ d, payload = VDict d ∧ green_record d now).
Proof.
  unfold probe_spawn_gate. destruct payload as [| | | | | |d]; try (intros [= <-]; left; by eexists).
  destruct (field "schema_version" d) as [| |z| | | |] eqn:Hver; try (intros [= <-]; left; by eexists).
  destruct (z =? 3); [intros [= <-]; left; by eexists|].
  destruct (Z.eqb_spec z 4) as [->|]; cbn [negb]; [|intros [= <-]; left; by eexists].
  intros (valid & Hv4 & H)%bind_Ok. destruct valid; cbn [negb] in H; [|injection H as <-; left; by eexists].
  destruct (all_true (mapping_or_empty (field "service_checks" d))) eqn:Hsc; cbn [negb orb] in H;
    [|injection H as <-; left; by eexists].
  destruct (all_true (mapping_or_empty (field "commands" d))) eqn:Hcm; cbn [negb] in H;
    [|injection H as <-; left; by eexists].
  apply bind_Ok in H as (green & Hdiag & H).
  destruct green; cbn [negb orb] in H; [|injection H as <-; left; by eexists].
  destruct (py_eq_str (at_key "status" (field "service_alarm" d)) "cleared") eqn:Hcl; cbn [negb] in H;
    [|injection H as <-; left; by eexists].
  injection H as <-. unfold freshness_answer.
  destruct (bounded_str 40 (field "checked_at" d)); cbn [negb]; [|left; by eexists].
  destruct (record_age (field "checked_at" d) now) as [age|] eqn:Hage; [|left; by eexists].
  destruct ((age <? 0) || (MAX_PROBE_AGE_SECONDS * US_PER_SECOND <? age)) eqn:Hfresh; [left; by eexists|].
  right. split; [done|]. exists d. split; [done|].
  unfold _valid_probe_record_v4 in Hv4.
  destruct (with_keys _PROBE_RECORD_V4_KEYS (VDict d)) as [d'|] eqn:Hk; [|done].
  apply with_keys_Some in Hk as [[= <-] Hkeys]. rewrite Hver in Hv4. cbn [negb Z.eqb Pos.eqb] in Hv4.
  destruct (bool_mapping _SERVICE_CHECK_KEYS (field "service_checks" d)) as [sc|] eqn:Hb; [|done].
  unfold bool_mapping in Hb. rewrite bind_Some in Hb. destruct Hb as (sc' & [Hscf Hsck]%with_keys_Some & Hb).
  destruct (forallb a_bool (dict_values sc')); [injection Hb as ->|done].
  destruct (_valid_alarm (field "service_alarm" d) sc) eqn:Hal; cbn [negb] in Hv4; [|done].
  apply bind_Ok in Hv4 as (legacy & Hv3 & Hv4). destruct legacy; cbn [negb] in Hv4; [|done].
  injection Hv4 as Hfin. rewrite !andb_true_iff in Hfin. destruct Hfin as [[Hrt Hus] _].
  rewrite Hscf in Hsc. cbn [mapping_or_empty as_dict default id] in Hsc.
  assert (∀ k, k ∈ _SERVICE_CHECK_KEYS → field k sc = VBool true) as Hservices
    by (intros k Hin; by apply (all_true_field sc _SERVICE_CHECK_KEYS)).
  assert (at_key "runtime_layout" (field "checks" d) = VBool true) as Hruntime.
  { rewrite Hservices in Hrt by (apply (bool_decide_unpack _); vm_compute; exact I).
    unfold same_bool in Hrt. destruct (at_key "runtime_layout" (field "checks" d)) as [|[]| | | | |]; done. }
  rewrite Hservices in Hus by (apply (bool_decide_unpack _); vm_compute; exact I).
  apply is_bool_true in Hus. injection Hus as Hus.
  constructor.
  - done.
  - intros k Hin. rewrite Hscf. by apply Hservices.
  - intros k Hin. by apply (v3_commands _ Hv3).
  - intros k Hin. by apply (all_result_member _ order k Hdiag).
  - done.
  - done.
  - by apply (cleared_alarm _ sc).
  - apply record_age_Some in Hage as (o & Ho & Ha & Hn & ->). exists o. do 3 (split; [done|]).
    apply orb_false_iff in Hfresh. lia.
Qed.
End admits.

(** ** A green record *)

Definition green_diagnostic : pyval :=
  VDict [ ("code", VStr "ok"); ("exit_code", VInt 0);
          ("stderr", VDict [("state", VStr "empty"); ("excerpt", VStr "");
                            ("redaction_applied", VBool false)]) ].
Definition green_alarm : pyval :=
  VDict [ ("scope", VStr "hive"); ("status", VStr "cleared"); ("reason_codes", VList []);
          ("owner", VDict [("principal_id", VStr "queen-1"); ("class_id", VStr "koenigin");
                           ("repo_id", VStr "alpha")]) ].
Definition green_example : pyval :=
  VDict
    [ ("schema_version", VInt 4); ("checked_at", VStr "1970-01-01T01:00:00+00:00");
      ("checks", VDict ((λ k, (k, VBool true)) <$> _PROBE_CHECK_KEYS));
      ("commands", VDict ((λ k, (k, VBool true)) <$> _PROBE_COMMAND_KEYS));
      ("diagnostics", VDict ((λ k, (k, green_diagnostic)) <$> _PROBE_COMMAND_KEYS));
      ("alarm", green_alarm);
      ("global_pilot_readiness",
        VDict (readiness_public {| gp_pilot := "ready";
                                   gp_generation_id := Some "0123456789abcdef0123456789abcdef";
                                   gp_freshness := "fresh"; gp_candidate_count := 2;
                                   gp_reason_codes := [] |}));
      ("service_checks", VDict ((λ k, (k, VBool true)) <$> _SERVICE_CHECK_KEYS));
      ("service_alarm", green_alarm) ].

Lemma probe_gate_admits_green_witness :
  (∃ d, green_example = VDict d
        ∧ green_record _PROBE_COMMAND_KEYS d (Datetime (62135604000 * US_PER_SECOND) (Some 0)))
  ∧ probe_spawn_gate _PROBE_COMMAND_KEYS green_example (Datetime (62135618400 * US_PER_SECOND) (Some 0))
    = Ok (gate_answer false "probe_stale").
Proof.
  split; [|vm_compute; reflexivity].
  assert (probe_spawn_gate _PROBE_COMMAND_KEYS green_example (Datetime (62135604000 * US_PER_SECOND) (Some 0))
          = Ok (gate_answer true "probe_ready")) as H by (vm_compute; reflexivity).
  destruct (probe_gate_admits_green _PROBE_COMMAND_KEYS green_example _ _ H) as [[reason [=]]|[_ Hg]].
  exact Hg.
Defined.
