(* ===== verification/RuntimeStatus.v ===== *)
(** * Runtime status

    [src/src/the_hive/runtime_status.py]: the release binding of the runtime
    image, the reading of what the directly started MCP child wrote, and the
    status report the hourly probe consumes.  The reader of the release, the
    check of the image's metadata and the bounded child ([runtime_layout.py],
    [runtime_process.py]) are arguments; the report is shown against the shape
    the probe record requires of it. *)

From S2P Require Import Prelude PyTime Order DynamicPool Json JsonText StrictJson PyEq HiveMessages HiveAssignment ProbeRecord.
#[local] Open Scope Z_scope.

Definition _MCP_SERVER_NAME : string := "the-hive-mcp".
Definition _MCP_PROTOCOL_VERSION : string := "2024-11-05".
Definition AUTONOMOUS_RUNTIME_STATUS_MCP_ARGUMENT : string := "--runtime-status-mcp".
Definition _REQUIRED_AUTONOMOUS_TOOL : string := "runtime_status".

(** ** The release binding *)

(** A pure path: whether it is absolute, and its components. *)
Record pure_path := { absolute : bool; components : list string }.
#[export] Instance pure_path_eq_dec : EqDecision pure_path.
Proof. solve_decision. Defined.

Definition path_name (p : pure_path) : string := default "" (last (components p)).
Definition path_parent (p : pure_path) : pure_path :=
  {| absolute := absolute p; components := take (length (components p) - 1) (components p) |}.
Definition path_join (p : pure_path) (names : list string) : pure_path :=
  {| absolute := absolute p; components := components p ++ names |}.
(** [str(path)]. *)
Definition path_text (p : pure_path) : string :=
  match absolute p, components p with
  | true, names => "/" +:+ py_join "/" names
  | false, [] => "."
  | false, names => py_join "/" names
  end.

Record RuntimeLayout := {
  root : pure_path;
  root_device : Z;
  root_inode : Z;
  manifest_digest : string;
  mcp_entrypoint : pure_path;
}.

(** The root is [release_root/generations/<generation>]. *)
Definition names_generation (layout : RuntimeLayout) : bool :=
  absolute (root layout) && bool_decide (path_name (path_parent (root layout)) = "generations")
  && negb (bool_decide (path_name (root layout) ∈ [""; "."; ".."]))
  && bool_decide
       (path_join (path_parent (path_parent (root layout))) ["generations"; path_name (root layout)]
        = root layout).

(** The two layouts are the same directory with the same manifest. *)
Definition same_release (a b : RuntimeLayout) : bool :=
  bool_decide (root a = root b) && (root_device a =? root_device b) && (root_inode a =? root_inode b)
  && bool_decide (manifest_digest a = manifest_digest b).

(** [except (LayoutError, TypeError, ValueError)]. *)
Definition layout_handled (e : exn) : bool := is_value_error e || is_type_error e.

Section status.
(** [RuntimeLayout.from_current_release(release_root, generation, digest)]. *)
Context (from_current_release : pure_path → string → string → result RuntimeLayout).

Definition mcp_binding_invalid : exn := RuntimeError "mcp_release_binding_invalid".

Definition _current_release_binding (layout : RuntimeLayout)
  : result (RuntimeLayout * pure_path * string) :=
  let release_root := path_parent (path_parent (root layout)) in
  let generation := path_name (root layout) in
  if negb (names_generation layout) then Err mcp_binding_invalid
  else
    current ← match from_current_release release_root generation (manifest_digest layout) with
              | Ok current => Ok current
              | Err e => Err (if layout_handled e then mcp_binding_invalid else e)
              end;
    if negb (same_release current layout) then Err mcp_binding_invalid
    else Ok (current, release_root, generation).

(** What the bounded child answers for its command line: its exit code and
    output. *)
Context (run_bounded : list string → result (Z * string)).

Definition child_error (e : exn) : exn :=
  match e with
  | BoundedProcessError code =>
      if bool_decide (code = "command_timeout") then TimeoutError "mcp_timeout"
      else if bool_decide (code = "command_cleanup_bounded") then TimeoutError "mcp_cleanup_timeout"
      else RuntimeError ""
  | e => e
  end.

Definition _run_direct_mcp (layout : RuntimeLayout) : result (Z * string) :=
  '(current, release_root, generation) ← _current_release_binding layout;
  match run_bounded [ path_text (mcp_entrypoint current); path_text release_root; generation;
                      manifest_digest current; AUTONOMOUS_RUNTIME_STATUS_MCP_ARGUMENT ] with
  | Ok answer => Ok answer
  | Err e => Err (child_error e)
  end.

(** ** The output of the child *)

(** Where [str.splitlines] ends a line, [\r\n] apart. *)
Definition line_break (c : ascii) : bool :=
  bool_decide (ord c ∈ [10; 11; 12; 13; 28; 29; 30; 133]).

Fixpoint splitlines (s : string) : list string :=
  match s with
  | EmptyString => []
  | String c rest =>
      if line_break c then
        "" :: match rest with
              | String d rest' =>
                  if (ord c =? 13) && (ord d =? 10) then splitlines rest' else splitlines rest
              | EmptyString => []
              end
      else match splitlines rest with
           | [] => [String c ""]
           | line :: lines => String c line :: lines
           end
  end.

Definition _is_runtime_status_input_schema (schema : pyval) : bool :=
  match with_keys ["type"; "properties"; "additionalProperties"] schema with
  | None => false
  | Some d =>
      py_eq_str (field "type" d) "object"
      && match field "properties" d with VDict [] => true | _ => false end
      && is_bool false (field "additionalProperties" d)
  end.

(** A response with this identifier; its result. *)
Definition response (expected_id : Z) (payload : pyval) : option pyval :=
  d ← with_keys ["jsonrpc"; "id"; "result"] payload;
  if py_eq_str (field "jsonrpc" d) "2.0"
     && match field "id" d with VInt id => id =? expected_id | _ => false end
  then Some (field "result" d) else None.

Definition nonempty_text (v : pyval) : bool :=
  match v with VStr s => negb (bool_decide (s = "")) | _ => false end.

(** The result of [initialize]. *)
Definition initialize_result (result : pyval) : bool :=
  match with_keys ["protocolVersion"; "capabilities"; "serverInfo"] result with
  | None => false
  | Some d =>
      py_eq_str (field "protocolVersion" d) _MCP_PROTOCOL_VERSION
      && py_eq (field "capabilities" d)
           (VDict [("tools", VDict []); ("resources", VDict []); ("prompts", VDict [])])
      && match with_keys ["name"; "version"] (field "serverInfo" d) with
         | None => false
         | Some info => py_eq_str (field "name" info) _MCP_SERVER_NAME && nonempty_text (field "version" info)
         end
  end.

(** The tools of the result of [tools/list]. *)
Definition listed_tools (result : pyval) : option (list pyval) :=
  d ← with_keys ["tools"] result;
  match field "tools" d with VList tools => Some tools | _ => None end.

Definition tools_contract (tools : list pyval) : bool :=
  match tools with
  | [tool] =>
      match with_keys ["name"; "description"; "inputSchema"] tool with
      | None => false
      | Some d =>
          py_eq_str (field "name" d) _REQUIRED_AUTONOMOUS_TOOL && nonempty_text (field "description" d)
          && _is_runtime_status_input_schema (field "inputSchema" d)
      end
  | _ => false
  end.

Record surface := {
  initialized : bool;
  tools_list : bool;
  tool_count : Z;
  tools_contract_valid : bool;
  invalid : bool;
}.

Definition mark_invalid (s : surface) : surface :=
  {| initialized := initialized s; tools_list := tools_list s; tool_count := tool_count s;
     tools_contract_valid := tools_contract_valid s; invalid := true |}.

(** How many nested objects and arrays the interpreter's recursion limit leaves
    to the parser. *)
Context (levels : nat).

(** One response of the loop, and whether the loop goes on.  A [ValueError] of
    the reader is caught; its [RecursionError] is not. *)
Definition surface_line (expected_id : Z) (line : string) (s : surface) : result (surface * bool) :=
  match unique_json_loads levels line with
  | Err e => if is_value_error e then Ok (mark_invalid s, false) else Err e
  | Ok payload =>
      Ok match response expected_id payload with
      | None => (mark_invalid s, false)
      | Some result =>
          if expected_id =? 1 then
            if initialize_result result
            then ({| initialized := true; tools_list := tools_list s; tool_count := tool_count s;
                     tools_contract_valid := tools_contract_valid s; invalid := invalid s |}, true)
            else (mark_invalid s, false)
          else
            match listed_tools result with
            | None => (mark_invalid s, false)
            | Some tools =>
                ({| initialized := initialized s; tools_list := true;
                    tool_count := Z.of_nat (length tools); tools_contract_valid := tools_contract tools;
                    invalid := invalid s || negb (tools_contract tools) |}, true)
            end
      end
  end.

Fixpoint surface_lines (numbered : list (Z * string)) (s : surface) : result surface :=
  match numbered with
  | [] => Ok s
  | (expected_id, line) :: numbered =>
      step ← surface_line expected_id line s;
      let '(s, go_on) := step : surface * bool in
      if go_on then surface_lines numbered s else Ok s
  end.

Definition two_lines (lines : list string) : bool := Nat.eqb (length lines) 2.

Definition surface_public (ok : bool) (s : surface) (reason : string) : mapping :=
  [ ("ok", VBool ok); ("initialize", VBool (initialized s)); ("tools_list", VBool (tools_list s));
    ("tool_count", VInt (tool_count s)); ("reason_code", VStr reason) ].

Definition surface_ok (returncode : Z) (lines : list string) (s : surface) : bool :=
  (returncode =? 0) && initialized s && tools_list s && tools_contract_valid s && two_lines lines
  && negb (invalid s).

Definition _mcp_surface (returncode : Z) (output : string) : result mapping :=
  let lines := splitlines output in
  let start := {| initialized := false; tools_list := false; tool_count := 0;
                  tools_contract_valid := false; invalid := negb (two_lines lines) |} in
  s ← surface_lines (zip [1; 2] lines) start;
  let ok := surface_ok returncode lines s in
  Ok (surface_public ok s (if ok then "ok" else "mcp_surface_invalid")).

Definition _blocked_surface (reason_code : string) : mapping :=
  surface_public false {| initialized := false; tools_list := false; tool_count := 0;
                          tools_contract_valid := false; invalid := true |} reason_code.

(** ** The report *)

Definition status_report (ok metadata_ok : bool) (metadata_reason : string) (surface : mapping) : mapping :=
  [ ("ok", VBool ok);
    ("metadata", VDict [("ok", VBool metadata_ok); ("reason_code", VStr metadata_reason)]);
    ("mcp_surface", VDict surface); ("raw_output", VStr "not_returned") ].

Definition metadata_blocked : mapping :=
  status_report false false "metadata_invalid" (_blocked_surface "metadata_invalid").

(** The surface of what the direct run answered: its output is read in the
    [else] branch, outside the [except] clauses. *)
Definition direct_surface (run : result (Z * string)) : result mapping :=
  match run with
  | Ok (returncode, output) => _mcp_surface returncode output
  | Err (TimeoutError message) =>
      Ok (_blocked_surface (if bool_decide (message = "") then "mcp_timeout" else message))
  | Err e => if is_runtime_error e then Ok (_blocked_surface "mcp_unavailable") else Err e
  end.

(** [layout] is the layout given or the one of the module, and
    [validate_runtime_metadata] checks it. *)
Definition runtime_status (layout : result RuntimeLayout)
  (validate_runtime_metadata : RuntimeLayout → result ()) (protected_home_runtime : pyval)
  : result mapping :=
  let checked := active ← layout; _ ← validate_runtime_metadata active; Ok active in
  match checked with
  | Err e => if layout_handled e then Ok metadata_blocked else Err e
  | Ok active =>
      if negb (a_bool protected_home_runtime) then Ok metadata_blocked
      else
        surface ← direct_surface (_run_direct_mcp active);
        Ok (status_report (is_bool true (field "ok" surface)) true "ok" surface)
  end.

#[local] Arguments unique_json_loads : simpl never.

(** ** What the child must have written *)

(** Exactly two lines: the response to [initialize] and a list of the one tool
    the autonomous child offers. *)
Definition accepted_output (returncode : Z) (output : string) : Prop :=
  returncode = 0 ∧
  ∃ l1 l2 p1 p2 r1 r2 tool,
    splitlines output = [l1; l2]
    ∧ unique_json_loads levels l1 = Ok p1 ∧ response 1 p1 = Some r1 ∧ initialize_result r1 = true
    ∧ unique_json_loads levels l2 = Ok p2 ∧ response 2 p2 = Some r2 ∧ listed_tools r2 = Some [tool]
    ∧ tools_contract [tool] = true.

Lemma tools_contract_one tools : tools_contract tools = true → ∃ tool, tools = [tool].
Proof. destruct tools as [|tool [|]]; [done|by eexists|done]. Qed.

(** The number of tools a surface reports is a length. *)
Definition surface_wf (s : surface) : Prop := 0 <= tool_count s.

Lemma surface_line_wf n line s s' go : surface_wf s → surface_line n line s = Ok (s', go) → surface_wf s'.
Proof.
  unfold surface_wf, surface_line. intros H.
  repeat case_match; intros; simplify_eq; cbn; try done; lia.
Qed.

Lemma surface_lines_wf numbered s s' : surface_wf s → surface_lines numbered s = Ok s' → surface_wf s'.
Proof.
  revert s. induction numbered as [|[n line] numbered IH]; intros s H; cbn; [by intros [= <-]|].
  destruct (surface_line n line s) as [[s1 go]|] eqn:H1; [|done]. cbn.
  pose proof (surface_line_wf n line s s1 go H H1) as Hw. destruct go; [by apply IH|by intros [= <-]].
Qed.

(** The error of a line that escapes the loop. *)
Definition line_limit (line : string) : option exn :=
  match unique_json_loads levels line with
  | Err e => if is_value_error e then None else Some e
  | Ok _ => None
  end.

Lemma line_limit_recursion line e : line_limit line = Some e →
  is_recursion_error e = true ∧ json_loads_within levels line = Err e.
Proof.
  unfold line_limit. pose proof (unique_json_loads_spec levels line) as Hs.
  destruct (unique_json_loads levels line) as [|e']; [done|]. destruct (is_value_error e') eqn:Hv; [done|].
  intros [= <-]. destruct Hs as [?|?]; [congruence|done].
Qed.

Lemma surface_line_Err n line s e : surface_line n line s = Err e ↔ line_limit line = Some e.
Proof.
  unfold surface_line, line_limit. destruct (unique_json_loads levels line) as [p|e']; [done|].
  destruct (is_value_error e'); split; congruence.
Qed.

Lemma surface_lines_Err numbered s e : surface_lines numbered s = Err e →
  ∃ line, line ∈ numbered.*2 ∧ line_limit line = Some e.
Proof.
  revert s. induction numbered as [|[n line] numbered IH]; intros s; cbn; [done|].
  destruct (surface_line n line s) as [[s1 go]|e1] eqn:H1; cbn.
  - destruct go; [|done]. intros (l & Hl & He)%IH. exists l. split; [by right|done].
  - intros [= ->]. exists line. split; [by left|]. by apply surface_line_Err in H1.
Qed.

(** The two lines the loop reads. *)
Definition line_accepts (n : Z) (line : string) (accept : pyval → bool) : option pyval :=
  match unique_json_loads levels line with
  | Err _ => None
  | Ok payload => r ← response n payload; if accept r then Some r else None
  end.

Lemma line_accepts_Some n line accept r :
  line_accepts n line accept = Some r ↔
  ∃ p, unique_json_loads levels line = Ok p ∧ response n p = Some r ∧ accept r = true.
Proof.
  unfold line_accepts. destruct (unique_json_loads levels line) as [p|e]; [|by split; [|intros (? & [=] & _)]].
  rewrite bind_Some. split.
  - intros (r' & Hr & H). destruct (accept r') eqn:Ha; [|done]. injection H as ->. by exists p.
  - intros (p' & [= <-] & Hr & Ha). exists r. by rewrite Ha.
Qed.

Definition lists_contract (r : pyval) : bool :=
  match listed_tools r with Some tools => tools_contract tools | None => false end.

Lemma surface_line_1 line s s' go :
  surface_line 1 line s = Ok (s', go) →
  (s', go)
  = match line_accepts 1 line initialize_result with
    | Some _ => ({| initialized := true; tools_list := tools_list s; tool_count := tool_count s;
                    tools_contract_valid := tools_contract_valid s; invalid := invalid s |}, true)
    | None => (mark_invalid s, false)
    end.
Proof.
  unfold surface_line, line_accepts. destruct (unique_json_loads levels line) as [p|e]; [intros [= <-]|by destruct (is_value_error e); [intros [= <- <-]|]].
  destruct (response 1 p) as [r|]; [|done]. cbn. by destruct (initialize_result r).
Qed.

(** The second line makes the surface green exactly when it lists the tool. *)
Lemma surface_line_2 line s t go :
  tools_list s = false → invalid s = false → surface_line 2 line s = Ok (t, go) →
  initialized t = initialized s
  ∧ tools_list t && tools_contract_valid t && negb (invalid t)
    = bool_decide (is_Some (line_accepts 2 line lists_contract)).
Proof.
  intros Ht Hn. unfold surface_line, line_accepts, lists_contract.
  destruct (unique_json_loads levels line) as [p|e].
  2: { destruct (is_value_error e); [|done]. intros [= <- <-]. cbn. by rewrite Ht. }
  intros [= H]. destruct (response 2 p) as [r|]; [|injection H as <- <-; cbn; by rewrite Ht]. cbn in *.
  destruct (listed_tools r) as [tools|]; injection H as <- <-; [|cbn; by rewrite Ht]. cbn. rewrite Hn.
  by destruct (tools_contract tools).
Qed.

Lemma surface_ok_lines returncode l1 l2 s0 t :
  initialized s0 = false → tools_list s0 = false → invalid s0 = false →
  surface_lines (zip [1; 2] [l1; l2]) s0 = Ok t →
  surface_ok returncode [l1; l2] t
  = (returncode =? 0) && bool_decide (is_Some (line_accepts 1 l1 initialize_result))
    && bool_decide (is_Some (line_accepts 2 l2 lists_contract)).
Proof.
  intros Hi Ht Hn. unfold surface_ok. cbn [zip zip_with surface_lines two_lines length Nat.eqb].
  destruct (surface_line 1 l1 s0) as [[s1 go]|] eqn:H1; [|done]. cbn [mbind result_bind].
  apply surface_line_1 in H1.
  destruct (line_accepts 1 l1 initialize_result) as [r1|]; injection H1 as -> ->.
  2: { intros [= <-]. cbn. rewrite Hi. by rewrite !andb_false_r. }
  match goal with |- context [surface_line 2 l2 ?x] => set (s1 := x) end.
  destruct (surface_line 2 l2 s1) as [[s2 go]|] eqn:H2; [|done]. cbn [mbind result_bind].
  destruct (surface_line_2 l2 s1 s2 go) as [Hi2 Hs2]; [done..|]. intros E.
  assert (s2 = t) as -> by (destruct go; congruence).
  rewrite <-Hs2, (bool_decide_eq_true_2 (is_Some (Some r1))), Hi2 by by eexists.
  destruct (returncode =? 0); cbn [andb initialized s1]; [|done]. by rewrite andb_true_r, ?andb_assoc.
Qed.

Lemma accepted_lines returncode l1 l2 :
  (returncode =? 0) && bool_decide (is_Some (line_accepts 1 l1 initialize_result))
    && bool_decide (is_Some (line_accepts 2 l2 lists_contract)) = true
  ↔ returncode = 0 ∧ ∃ p1 p2 r1 r2 tool,
      unique_json_loads levels l1 = Ok p1 ∧ response 1 p1 = Some r1 ∧ initialize_result r1 = true
      ∧ unique_json_loads levels l2 = Ok p2 ∧ response 2 p2 = Some r2 ∧ listed_tools r2 = Some [tool]
      ∧ tools_contract [tool] = true.
Proof.
  rewrite !andb_true_iff, !bool_decide_eq_true, Z.eqb_eq. split.
  - intros [[-> [r1 H1]] [r2 H2]]. split; [done|].
    apply line_accepts_Some in H1 as (p1 & H1 & R1 & I1), H2 as (p2 & H2 & R2 & I2).
    unfold lists_contract in I2. destruct (listed_tools r2) as [tools|] eqn:T2; [|done].
    destruct (tools_contract_one tools I2) as [tool ->]. by exists p1, p2, r1, r2, tool.
  - intros (-> & p1 & p2 & r1 & r2 & tool & H1 & R1 & I1 & H2 & R2 & T2 & C2). split_and!; [done|exists r1|exists r2];
      apply line_accepts_Some; [by exists p1|]. exists p2. unfold lists_contract. by rewrite T2.
Qed.

(** The surface of an output: its shape, when it is green, and the error of a
    line nested deeper than the parser goes. *)
Lemma mcp_surface_exact returncode output :
  match _mcp_surface returncode output with
  | Ok d => ∃ ok s, d = surface_public ok s (if ok then "ok" else "mcp_surface_invalid") ∧ surface_wf s
      ∧ (ok = true → initialized s = true ∧ tools_list s = true ∧ 1 <= tool_count s)
      ∧ (ok = true ↔ accepted_output returncode output)
  | Err e => ∃ line, line ∈ splitlines output ∧ line_limit line = Some e
  end.
Proof.
  unfold _mcp_surface. destruct (surface_lines _ _) as [s|e] eqn:Hl; cbn [mbind result_bind].
  2: { destruct (surface_lines_Err _ _ _ Hl) as (line & Hin & He). exists line. split; [|done].
       apply list_elem_of_fmap in Hin as ([n l] & -> & Hin). by apply elem_of_zip_r in Hin. }
  eexists _, s. split; [reflexivity|]. split; [by eapply surface_lines_wf; [|exact Hl]|].
  assert (surface_ok returncode (splitlines output) s = true ↔ accepted_output returncode output) as Hacc.
  { unfold accepted_output. revert Hl. destruct (splitlines output) as [|l1 [|l2 [|l3 ls]]]; intros Hl.
    1,2,4: split; [unfold surface_ok; cbn [two_lines length Nat.eqb]; rewrite andb_false_r; done
                  |intros (_ & ? & ? & ? & ? & ? & ? & ? & [=] & _)].
    rewrite (λ H1 H2 H3, surface_ok_lines returncode l1 l2 _ s H1 H2 H3 Hl), accepted_lines by done. split.
    - intros (-> & p1 & p2 & r1 & r2 & tool & H). split; [done|]. by exists l1, l2, p1, p2, r1, r2, tool.
    - intros (-> & a1 & a2 & p1 & p2 & r1 & r2 & tool & [= <- <-] & H). split; [done|]. by exists p1, p2, r1, r2, tool. }
  split; [|exact Hacc]. intros Hok. unfold surface_ok in Hok. rewrite !andb_true_iff in Hok.
  destruct Hok as [[[[[_ Hi] Ht] Hc] Htwo] _]. split_and!; [done..|].
  clear Hacc. revert Hl Hi Ht Hc. destruct (splitlines output) as [|l1 [|l2 [|]]]; try done.
  cbn [zip zip_with surface_lines].
  destruct (surface_line 1 l1 _) as [[s1 go]|] eqn:H1; [|done]. cbn [mbind result_bind].
  apply surface_line_1 in H1. destruct (line_accepts _ _ _) as [r1|]; injection H1 as -> ->; [|by intros [= <-]].
  unfold surface_line. destruct (unique_json_loads levels l2) as [p|e]; [|by destruct (is_value_error e); [intros [= <-]|]].
  destruct (response 2 p) as [r2|]; [|by intros [= <-]]. cbn. destruct (listed_tools r2) as [tools|]; [|by intros [= <-]].
  intros [= <-] _ _ Hc. destruct (tools_contract_one _ Hc) as [? ->]. done.
Qed.

(** ** The report *)

Definition blocked_reasons : list string :=
  ["metadata_invalid"; "mcp_timeout"; "mcp_cleanup_timeout"; "mcp_unavailable"].

Lemma blocked_shape reason :
  reason ∈ blocked_reasons →
  _valid_runtime_status_shape (VDict (status_report false true "ok" (_blocked_surface reason))) = true.
Proof.
  intros H. unfold blocked_reasons in H. rewrite !elem_of_cons, elem_of_nil in H.
  destruct H as [->|[->|[->|[->|[]]]]]; vm_compute; reflexivity.
Qed.

Lemma surface_shape ok s :
  surface_wf s →
  _valid_runtime_status_shape
    (VDict (status_report ok true "ok" (surface_public ok s (if ok then "ok" else "mcp_surface_invalid"))))
  = true.
Proof.
  unfold surface_wf. intros H%Z.leb_le. destruct s as [i t n c v]. cbn in H.
  unfold _valid_runtime_status_shape, surface_public, status_report. by destruct ok, i, t, n.
Qed.

Lemma green_report ok s reason :
  _green_runtime_status (VDict (status_report ok true "ok" (surface_public ok s reason)))
  = ok && initialized s && tools_list s && (1 <=? tool_count s) && bool_decide (reason = "ok").
Proof.
  unfold _green_runtime_status, status_report, surface_public. destruct s as [i t n c v].
  destruct ok, i, t; try done.
  transitivity ((int_from 1 (VInt n) && py_eq_str (VStr reason) "ok") && true); [reflexivity|by rewrite andb_true_r].
Qed.
(** The release reader and the child raise no [TimeoutError] of their own. *)
Definition no_timeout {A} (r : result A) : Prop := ∀ m, r ≠ Err (TimeoutError m).

Lemma direct_timeout active m :
  (∀ p g d, no_timeout (from_current_release p g d)) → (∀ args, no_timeout (run_bounded args)) →
  _run_direct_mcp active = Err (TimeoutError m) → m ∈ ["mcp_timeout"; "mcp_cleanup_timeout"].
Proof.
  intros Hrel Hrun. unfold _run_direct_mcp, _current_release_binding.
  destruct (names_generation active); cbn [negb]; [|done].
  destruct (from_current_release _ _ _) as [current|e] eqn:Hr; cbn [mbind result_bind].
  - destruct (same_release current active); cbn [negb mbind result_bind]; [|done].
    match goal with |- context [run_bounded ?a] => destruct (run_bounded a) as [answer|e] eqn:He end; [done|]. intros [= Hc]. unfold child_error in Hc.
    destruct e; try done; [|].
    + exfalso. by apply (Hrun _ _ He).
    + repeat case_bool_decide; simplify_eq; set_solver.
  - intros [= Hc]. destruct (layout_handled e); [done|]. exfalso. subst. by apply (Hrel _ _ _ _ Hr).
Qed.

Lemma direct_surface_Err e s :
  direct_surface (Err e) = Ok s →
  (∀ m, e = TimeoutError m → m ∈ ["mcp_timeout"; "mcp_cleanup_timeout"]) →
  ∃ reason, s = _blocked_surface reason ∧ reason ∈ blocked_reasons.
Proof.
  intros H Ht. unfold direct_surface in H.
  assert (∀ r, (if is_runtime_error r then Ok (_blocked_surface "mcp_unavailable") else Err r) = Ok s →
    ∃ reason, s = _blocked_surface reason ∧ reason ∈ blocked_reasons) as Hr.
  { intros r. destruct (is_runtime_error r); [|done]. intros [= <-]. eexists. split; [done|].
    unfold blocked_reasons. set_solver. }
  destruct e; try match type of H with (if is_runtime_error ?r then _ else _) = _ => exact (Hr r H) end.
  injection H as <-. eexists. split; [done|]. specialize (Ht _ eq_refl).
  unfold blocked_reasons. case_bool_decide; set_solver.
Qed.

(** Where an exception of [runtime_status] comes from. *)
Inductive escapes (layout : result RuntimeLayout) (validate : RuntimeLayout → result ()) (protected : pyval) : exn → Prop :=
  | escape_layout e : layout = Err e → layout_handled e = false → escapes layout validate protected e
  | escape_metadata active e : layout = Ok active → validate active = Err e → layout_handled e = false →
      escapes layout validate protected e
  | escape_run active e : layout = Ok active → validate active = Ok () → a_bool protected = true →
      _run_direct_mcp active = Err e → is_runtime_error e = false → escapes layout validate protected e
  | escape_line active returncode output line e : layout = Ok active → validate active = Ok () →
      a_bool protected = true → _run_direct_mcp active = Ok (returncode, output) → line ∈ splitlines output →
      is_recursion_error e = true → json_loads_within levels line = Err e → escapes layout validate protected e.

Definition accepted_run (layout : result RuntimeLayout) (validate : RuntimeLayout → result ()) (protected : pyval) : Prop :=
  ∃ active returncode output, layout = Ok active ∧ validate active = Ok () ∧ a_bool protected = true
    ∧ _run_direct_mcp active = Ok (returncode, output) ∧ accepted_output returncode output.

Definition report_exact layout validate protected (d : mapping) : Prop :=
  _valid_runtime_status_shape (VDict d) = true
  ∧ (_green_runtime_status (VDict d) = true ↔ accepted_run layout validate protected).

Lemma blocked_report layout validate protected reason :
  reason ∈ blocked_reasons → ¬ accepted_run layout validate protected →
  report_exact layout validate protected
    (status_report (is_bool true (field "ok" (_blocked_surface reason))) true "ok" (_blocked_surface reason)).
Proof.
  intros Hin Hno. split; [by apply blocked_shape|]. split; [|done]. unfold _blocked_surface. by rewrite green_report.
Qed.

End status.

(** ** A green child *)

Definition example_layout : RuntimeLayout :=
  {| root := {| absolute := true; components := ["opt"; "hive"; "generations"; "g1"] |};
     root_device := 1; root_inode := 2; manifest_digest := "d";
     mcp_entrypoint := {| absolute := true; components := ["opt"; "hive"; "mcp"] |} |}.

Definition example_output : string :=
  quoted "{'jsonrpc':'2.0','id':1,'result':{'protocolVersion':'2024-11-05','capabilities':{'tools':{},'resources':{},'prompts':{}},'serverInfo':{'name':'the-hive-mcp','version':'1'}}}"
  +:+ String (char_at 10)
    (quoted "{'jsonrpc':'2.0','id':2,'result':{'tools':[{'name':'runtime_status','description':'d','inputSchema':{'type':'object','properties':{},'additionalProperties':false}}]}}"
     +:+ String (char_at 10) "").

Definition example_release (p : pure_path) (generation digest : string) : result RuntimeLayout :=
  Ok example_layout.

Definition example_run (args : list string) : result (Z * string) :=
  if bool_decide (AUTONOMOUS_RUNTIME_STATUS_MCP_ARGUMENT ∈ args) then Ok (0, example_output)
  else Err (BoundedProcessError "command_timeout").

Definition example_status (protected_home : pyval) : result mapping :=
  runtime_status example_release example_run 100 (Ok example_layout) (λ _, Ok ()) protected_home.


(** A line nested deeper than the parser goes is not caught. *)
Definition deep_run (args : list string) : result (Z * string) := Ok (0, Nat.iter 11 (String "[") "").

Example deep_line_escapes :
  runtime_status example_release deep_run 10 (Ok example_layout) (λ _, Ok ()) (VBool false)
  = Err (RecursionError "maximum recursion depth exceeded while decoding a JSON array from a unicode string").
Proof. vm_compute. reflexivity. Qed.
