(* ===== verification/HourlyProbe.v ===== *)
(** * The hourly probe

    [src/src/the_hive/hive/hourly_probe.py], lines 1032 to 1550: the owner of
    the Hive-wide alarm, the outcomes of the three commands, the record a run
    publishes and the record published after a lost rollback.  The bounded
    child, the reader of the attested configuration, the runtime report
    (RuntimeStatus) and the redaction of a child's standard error are arguments;
    the trimming of what the redaction leaves is the server's [trim_chars].
    The line printed on a timeout is not modelled. *)

From S2P Require Import Prelude PyTime Order DynamicPool Json JsonText StrictJson PyEq HiveMessages HiveAssignment ProbeRecord RuntimeStatus.
#[local] Open Scope Z_scope.

(** ** Standard error *)

Definition stderr_value (state excerpt : string) (redacted : bool) : pyval :=
  VDict [("state", VStr state); ("excerpt", VStr excerpt); ("redaction_applied", VBool redacted)].
Definition _not_returned_stderr : pyval := stderr_value "not_returned" "" false.
Definition empty_stderr : pyval := stderr_value "empty" "" false.
Definition redaction_unavailable : pyval := stderr_value "present" "redaction_unavailable" true.

Fixpoint string_drop (n : nat) (s : string) : string :=
  match n, s with
  | S n, String _ s => string_drop n s
  | _, _ => s
  end.

(** [text[-n:]] for a positive [n]. *)
Definition last_chars (n : Z) (s : string) : string :=
  string_drop (String.length s - Z.to_nat n) s.

Definition trim_chars (text : string) (max_chars : Z) : string :=
  if py_len text <=? max_chars then text
  else "... truncated to last characters ..." +:+ String (char_at 10) (last_chars max_chars text).

Section probe.
(** [redact(strip_ansi(text))]. *)
Context (redact : string → string * bool).
(** How many nested objects and arrays the interpreter's recursion limit leaves
    to the parser. *)
Context (levels : nat).

Definition command_excerpt (text : string) (chars : Z) : string * bool :=
  let '(cleaned, redacted) := redact text in (trim_chars cleaned chars, redacted).

Definition _safe_stderr (value : pyval) : pyval :=
  match value with
  | VStr text =>
      if bool_decide (text = "") then empty_stderr
      else
        let '(excerpt, redacted) := command_excerpt text _SAFE_STDERR_EXCERPT_CHARS in
        if bool_decide (excerpt = "") then redaction_unavailable
        else stderr_value "present" excerpt redacted
  | _ => _not_returned_stderr
  end.

Definition diagnostic_value (code : string) (exit_code : option Z) (stderr : pyval) : pyval :=
  VDict [ ("code", VStr code); ("exit_code", match exit_code with Some z => VInt z | None => VNone end);
          ("stderr", stderr) ].

Definition _diagnostic (code : string) (exit_code : option Z) (stderr : pyval) : pyval :=
  let safe := _safe_stderr stderr in
  diagnostic_value
    (if py_eq_str (at_key "excerpt" safe) "redaction_unavailable"
     then "command_stderr_redaction_unavailable" else code)
    exit_code safe.

Definition ok_diagnostic : pyval := diagnostic_value "ok" (Some 0) empty_stderr.
Definition failed_diagnostic (code : string) (exit_code : option Z) : pyval :=
  diagnostic_value code exit_code _not_returned_stderr.

(** ** The commands

    A command gives a value, whether it is usable, and its diagnostic. *)

Record outcome := { value : mapping; ready : bool; diagnostic : pyval }.

(** What the bounded child answers. *)
Record child := { returncode : Z; stdout : string; stderr : string }.

Definition _run_json (completed : result child) : result outcome :=
  let failed diagnostic := Ok {| value := []; ready := false; diagnostic := diagnostic |} in
  match completed with
  | Err (BoundedProcessError code) =>
      failed (failed_diagnostic
                (if bool_decide (code ∈ _SAFE_DIAGNOSTIC_CODES) then code else "command_failed") None)
  | Err e =>
      if is_type_error e || is_value_error e
      then failed (failed_diagnostic "command_json_invalid" (Some 0)) else Err e
  | Ok child =>
      if negb (returncode child =? 0)
      then failed (_diagnostic "command_exit_nonzero" (Some (returncode child)) (VStr (stderr child)))
      else if negb (bool_decide (stderr child = ""))
      then failed (_diagnostic "command_stderr_warning" (Some 0) (VStr (stderr child)))
      else
        let invalid := _diagnostic "command_json_invalid" (Some 0) (VStr (stderr child)) in
        match _strict_json_loads levels (stdout child) with
        | Ok (VDict d) =>
            Ok {| value := d; ready := true; diagnostic := _diagnostic "ok" (Some 0) (VStr (stderr child)) |}
        | Ok _ => failed invalid
        | Err e => if is_type_error e || is_value_error e then failed invalid else Err e
        end
  end.

(** [report] is what [runtime_status] returned. *)
Definition _runtime_status_json (report : mapping) : outcome :=
  let reason_code := at_key "reason_code" (get_or (VDict []) "mcp_surface" report) in
  if is_bool true (field "ok" report)
  then {| value := report; ready := true; diagnostic := ok_diagnostic |}
  else
    {| value := report; ready := false;
       diagnostic :=
         failed_diagnostic
           (match reason_code with
            | VStr code => if bool_decide (code ∈ ["mcp_timeout"; "mcp_cleanup_timeout"]) then code
                           else "runtime_status_red"
            | _ => "runtime_status_red"
            end) None |}.

(** What an injected command may return: the full triple, a pair, or anything
    else. *)
Inductive injected :=
  | InjectedTriple (o : outcome)
  | InjectedPair (value : mapping) (ready : bool)
  | InjectedOther.

Definition _injected_command_result (v : injected) : outcome :=
  match v with
  | InjectedTriple o => o
  | InjectedPair value ready =>
      {| value := value; ready := ready;
         diagnostic := if ready then ok_diagnostic else failed_diagnostic "command_failed" None |}
  | InjectedOther =>
      {| value := []; ready := false; diagnostic := failed_diagnostic "command_failed" None |}
  end.

Definition _shape_command_result (o : outcome) (validator : pyval → bool) : outcome :=
  let shape_valid := if ready o then validator (VDict (value o)) else false in
  if negb (ready o) || shape_valid then o
  else
    let d := mapping_or_empty (diagnostic o) in
    {| value := value o; ready := false;
       diagnostic :=
         VDict [ ("code", VStr "command_output_invalid"); ("exit_code", field "exit_code" d);
                 ("stderr", get_or _not_returned_stderr "stderr" d) ] |}.

(** The release binding of a productive probe. *)
Definition release_unavailable : exn := ValueError "probe_runtime_release_unavailable".

Definition _current_release_binding
  (from_current_release : pure_path → string → string → result RuntimeLayout) (layout : RuntimeLayout)
  : result (RuntimeLayout * pure_path * string) :=
  let release_root := path_parent (path_parent (root layout)) in
  let generation := path_name (root layout) in
  if negb (names_generation layout) || negb (string_forallb (λ c, negb (is_char "/" c)) generation)
  then Err release_unavailable
  else
    current ← match from_current_release release_root generation (manifest_digest layout) with
              | Ok current => Ok current
              | Err e => Err (if layout_handled e then release_unavailable else e)
              end;
    if negb (same_release current layout) then Err release_unavailable
    else Ok (current, release_root, generation).

(** ** The alarm *)

Definition owner_value (principal_id repository_id : string) : pyval :=
  VDict [ ("principal_id", VStr principal_id); ("class_id", VStr "koenigin");
          ("repo_id", VStr repository_id) ].

(** The owner a principal of the configuration stands for. *)
Definition alarm_candidate (principal : pyval) : option pyval :=
  d ← as_dict principal;
  if negb (py_eq_str (field "class_id" d) "koenigin") then None
  else match field "principal_id" d, field "repo_id" d with
       | VStr p, VStr r => if bounded_str 128 (VStr p) && bounded_str 128 (VStr r)
                           then Some (owner_value p r) else None
       | _, _ => None
       end.

(** [configuration] is the decoded text of the attested file, or why it cannot
    be read. *)
Definition _probe_alarm_owner (configuration : result string) : result (option pyval) :=
  match text ← configuration; json_loads_within levels text with
  | Err e => if is_value_error e || is_recursion_error e then Ok None else Err e
  | Ok v =>
      Ok match at_key "principals" v with
         | VList principals =>
             match omap alarm_candidate principals with
             | [owner] => Some owner
             | _ => None
             end
         | _ => None
         end
  end.

Definition opt_owner (owner : option pyval) : pyval := default VNone owner.

Definition _probe_alarm_for_checks (checks : mapping) (owner : option pyval) : pyval :=
  let failed := failed_checks checks
                  ++ match owner with None => ["alarm_owner_unavailable"] | Some _ => [] end in
  VDict [ ("scope", VStr "hive");
          ("status", VStr (match failed with [] => "cleared" | _ => "active" end));
          ("reason_codes", VList (VStr <$> failed)); ("owner", opt_owner owner) ].

Definition _probe_alarm_payload (result : mapping) (owner : option pyval) : pyval :=
  match field "checks" result with
  | VDict checks => _probe_alarm_for_checks checks owner
  | _ => VDict [ ("scope", VStr "hive"); ("status", VStr "active");
                 ("reason_codes", VList [VStr "probe_result_invalid"]); ("owner", opt_owner owner) ]
  end.

(** ** The record *)

(** [moment.astimezone(UTC).isoformat()] of an aware moment. *)
Definition probe_clock (moment : datetime) : result string :=
  if negb (dt_aware moment) then Err (ValueError "probe_clock_invalid")
  else utc ← dt_astimezone_utc moment; Ok (isoformat utc).

Definition three (runtime_status hive_status hive_doctor : pyval) : pyval :=
  VDict [("runtime_status", runtime_status); ("hive_status", hive_status); ("hive_doctor", hive_doctor)].

(** The published fields: the checks, the readiness and the service checks are
    there first, the alarms are added last. *)
Definition with_alarms (result : mapping) (owner : option pyval) : mapping :=
  let result := dict_set "alarm" (_probe_alarm_payload result owner) result in
  dict_set "service_alarm"
    (_probe_alarm_for_checks (mapping_or_empty (field "service_checks" result)) owner) result.

(** The last statements of [run_probe], after the commands; [owner] is what
    [_probe_alarm_owner] returned. *)
Definition probe_record (runtime hive doctor : outcome) (owner : option pyval) (moment : datetime)
  : result mapping :=
  let runtime := _shape_command_result runtime _valid_runtime_status_shape in
  let hive := _shape_command_result hive _valid_hive_status_shape in
  let doctor := _shape_command_result doctor _valid_hive_doctor_shape in
  let '(checks, readiness) := evaluate (VDict (value runtime)) (VDict (value hive)) (VDict (value doctor)) in
  let service_checks :=
    _service_check_values (VDict (value runtime)) (VDict (value hive)) (VDict (value doctor))
      (VDict readiness) in
  let checks := match owner with None => dict_set "hive_runtime" (VBool false) checks | Some _ => checks end in
  checked_at ← probe_clock moment;
  Ok (with_alarms
        [ ("checks", VDict checks); ("global_pilot_readiness", VDict readiness);
          ("service_checks", VDict service_checks); ("schema_version", VInt 4);
          ("checked_at", VStr checked_at);
          ("commands", three (VBool (ready runtime)) (VBool (ready hive)) (VBool (ready doctor)));
          ("diagnostics", three (diagnostic runtime) (diagnostic hive) (diagnostic doctor)) ] owner).

(** [run_probe] once the layout, the state directory and the release are
    settled: the three commands, the owner, the record, and its publication. *)
Definition run_probe (report : result mapping) (hive_child doctor_child : result child)
  (configuration : result string) (moment : datetime) (publish : mapping → result ()) : result mapping :=
  report ← report;
  hive ← _run_json hive_child;
  doctor ← _run_json doctor_child;
  owner ← _probe_alarm_owner configuration;
  record ← probe_record (_runtime_status_json report) hive doctor owner moment;
  _ ← publish record;
  Ok record.

Definition lifecycle_diagnostic (reason_code : string) : pyval :=
  failed_diagnostic reason_code None.

(** [configuration] is the attested file of the layout, when there is a layout. *)
Definition publish_lifecycle_failure (configuration : option (result string)) (reason_code : string)
  (moment : datetime) (publish : mapping → result ()) : result mapping :=
  if negb (bool_decide (reason_code = "runtime_lifecycle_rollback_failed"))
  then Err (ValueError "probe_lifecycle_failure_invalid")
  else
    checked_at ← probe_clock moment;
    owner ← match configuration with Some c => _probe_alarm_owner c | None => Ok None end;
    let diagnostic := lifecycle_diagnostic reason_code in
    let record :=
      with_alarms
        [ ("schema_version", VInt 4); ("checked_at", VStr checked_at);
          ("checks", VDict ((λ k, (k, VBool false)) <$> _PROBE_CHECK_KEYS));
          ("commands", three (VBool false) (VBool false) (VBool false));
          ("diagnostics", three diagnostic diagnostic diagnostic);
          ("global_pilot_readiness", VDict (_bounded_global_pilot_readiness VNone));
          ("service_checks",
            VDict ((λ k, (k, VBool false)) <$> sort_by str_cmp id _SERVICE_CHECK_KEYS)) ] owner in
    _ ← publish record;
    Ok record.

End probe.

(** ** The readiness read back *)

Definition readiness_wf (r : GlobalPilotReadinessV1) : Prop :=
  readiness_of (readiness_public r) (VStr <$> gp_reason_codes r) = Ok (readiness_public r).

Lemma readiness_codes_again reasons codes :
  mapM_result readiness_code reasons = Ok codes →
  mapM_result readiness_code (VStr <$> codes) = Ok codes ∧ length codes = length reasons.
Proof.
  intros H. split; [|by eapply mapM_result_Ok_length]. apply mapM_result_Ok_Forall2 in H.
  apply mapM_result_Ok_Forall2. induction H as [|v s reasons codes Hv _ IH]; [by constructor|].
  constructor; [|done]. destruct v as [| | | |t| |]; try done. cbn in Hv |- *.
  case_bool_decide as Hin; [|done]. injection Hv as ->. by rewrite bool_decide_eq_true_2.
Qed.

Lemma readiness_new_wf pilot generation freshness count reasons r :
  GlobalPilotReadinessV1_new pilot generation freshness count reasons = Ok r → readiness_wf r.
Proof.
  unfold GlobalPilotReadinessV1_new. intros H. inv_result.
  destruct pilot as [| | | |p| |]; try done. destruct freshness as [| | | |f| |]; try done.
  destruct count as [| |c| | | |]; try done. injection H as <-.
  destruct (_ && _) eqn:Hc in H5; [|done]. injection H5 as <-.
  destruct (readiness_codes_again reasons x6) as [Hcodes Hlen]; [done|].
  unfold readiness_wf, readiness_of, GlobalPilotReadinessV1_new.
  match goal with |- context [readiness_public ?r] => set (R := readiness_public r) end.
  change (field "pilot" R) with (VStr p). change (field "freshness" R) with (VStr f).
  change (field "candidate_count" R) with (VInt c). change (field "generation_id" R) with (opt_str x1).
  cbn [gp_reason_codes]. rewrite H0, H3, Hc, Hcodes, length_fmap, Hlen, H6. cbn [mbind result_bind require]. rewrite H8.
  destruct x1 as [g|]; cbn [opt_str]; [|done].
  destruct generation as [| | | |g'| |]; try done.
  destruct (_GLOBAL_PILOT_GENERATION_RE g') eqn:Hg; [|done]. injection H2 as <-. by rewrite Hg.
Qed.

Lemma blocked_readiness_wf reason :
  reason ∈ ["usage_missing"; "usage_invalid"] →
  readiness_wf {| gp_pilot := "blocked"; gp_generation_id := None; gp_freshness := "unknown";
                  gp_candidate_count := 0; gp_reason_codes := [reason] |}.
Proof.
  rewrite !elem_of_cons, elem_of_nil. by intros [->|[->|[]]]; vm_compute.
Qed.

(** What is published is a readiness of the accepted form. *)
Lemma bounded_readiness_wf v :
  ∃ r, _bounded_global_pilot_readiness v = readiness_public r ∧ readiness_wf r.
Proof.
  unfold _bounded_global_pilot_readiness, readiness_of.
  destruct (with_keys _ v) as [d|]; [|eexists; split; [done|by apply blocked_readiness_wf; set_solver]].
  destruct (field "reason_codes" d) as [| | | | |reasons|];
    try (eexists; split; [done|by apply blocked_readiness_wf; set_solver]).
  destruct (GlobalPilotReadinessV1_new _ _ _ _ reasons) as [r|e] eqn:H; cbn [mbind result_bind].
  - exists r. split; [done|]. by eapply readiness_new_wf.
  - eexists. split; [done|]. apply blocked_readiness_wf. set_solver.
Qed.

Lemma readiness_public_self r : py_eq (VDict (readiness_public r)) (VDict (readiness_public r)) = true.
Proof.
  apply py_eq_refl. cbn. split; [nodup_keys|].
  assert (foldr (λ v P, no_floats v ∧ P) True (VStr <$> gp_reason_codes r)) by
    (induction (gp_reason_codes r); cbn; auto).
  destruct (gp_generation_id r); cbn; tauto.
Qed.

Lemma bounded_readiness_again r :
  readiness_wf r →
  _bounded_global_pilot_readiness (VDict (readiness_public r)) = readiness_public r
  ∧ _valid_global_pilot_readiness (VDict (readiness_public r)) = true.
Proof.
  intros H. unfold _bounded_global_pilot_readiness, _valid_global_pilot_readiness.
  change (with_keys _GLOBAL_PILOT_READINESS_KEYS (VDict (readiness_public r)))
    with (Some (readiness_public r)). cbv iota.
  change (field "reason_codes" (readiness_public r)) with (VList (VStr <$> gp_reason_codes r)).
  cbv iota. rewrite H. split; [done|apply readiness_public_self].
Qed.

(** ** The alarm read back *)

Definition owner_ok (owner : option pyval) : Prop :=
  match owner with
  | None => True
  | Some v => _valid_alarm_owner v = true ∧ ∃ p r, v = owner_value p r
  end.

Lemma probe_alarm_owner_ok levels configuration owner :
  _probe_alarm_owner levels configuration = Ok owner → owner_ok owner.
Proof.
  unfold _probe_alarm_owner. destruct (text ← configuration; json_loads_within levels text) as [v|e].
  2: { destruct (_ || _); [|done]. by intros [= <-]. }
  intros [= <-]. destruct (at_key "principals" v) as [| | | | |principals|]; try done.
  destruct (omap alarm_candidate principals) as [|o [|]] eqn:Ho; try done. cbn.
  assert (o ∈ omap alarm_candidate principals) as Hin by (rewrite Ho; set_solver).
  apply list_elem_of_omap in Hin as (principal & _ & H). unfold alarm_candidate in H.
  rewrite bind_Some in H. destruct H as (d & _ & H).
  destruct (negb _); [done|]. destruct (field "principal_id" d) as [| | | |p| |]; try done.
  destruct (field "repo_id" d) as [| | | |r| |]; try done.
  destruct (_ && _) eqn:Hb; [|done]. injection H as <-. split; [|by eexists _, _].
  apply andb_true_iff in Hb as [Hp Hr]. unfold _valid_alarm_owner.
  change (with_keys _PROBE_ALARM_OWNER_KEYS (owner_value p r))
    with (Some [("principal_id", VStr p); ("class_id", VStr "koenigin"); ("repo_id", VStr r)]).
  cbv iota. change (bounded_str 128 (VStr p) && (true && (bounded_str 128 (VStr r) && true)) = true).
  by rewrite Hp, Hr.
Qed.

Lemma elem_of_failed_checks k checks :
  k ∈ failed_checks checks ↔ ∃ v, (k, v) ∈ checks ∧ is_bool true v = false.
Proof.
  unfold failed_checks. rewrite (sort_by_perm str_cmp id), list_elem_of_fmap. split.
  - intros ([k' v] & -> & H). apply list_elem_of_filter in H as [H Hin]. by exists v.
  - intros (v & Hin & H). exists (k, v). split; [done|]. by apply list_elem_of_filter.
Qed.

Lemma failed_checks_nil checks : failed_checks checks = [] ↔ all_true checks = true.
Proof.
  unfold all_true. split.
  - intros H. apply forallb_forall. intros v Hv%list_elem_of_In.
    apply list_elem_of_fmap in Hv as ([k w] & -> & Hin).
    destruct (is_bool true w) eqn:Hw; [done|]. assert (k ∈ failed_checks checks) as Hk
      by (apply elem_of_failed_checks; by exists w). rewrite H in Hk. by apply elem_of_nil in Hk.
  - intros H. destruct (failed_checks checks) as [|k l] eqn:Hf; [done|]. exfalso.
    assert (k ∈ failed_checks checks) as Hk by (rewrite Hf; set_solver).
    apply elem_of_failed_checks in Hk as (v & Hin & Hv).
    rewrite (proj1 (forallb_forall _ _) H v) in Hv; [done|].
    apply list_elem_of_In, list_elem_of_fmap. by exists (k, v).
Qed.

Lemma reason_texts_names l : Forall (λ s, s ≠ "") l → reason_texts (VStr <$> l) = Some l.
Proof.
  unfold reason_texts. induction 1 as [|s l Hs _ IH]; [done|]. cbn.
  rewrite bool_decide_eq_false_2 by done. by rewrite IH.
Qed.

(** The published alarm is accepted for its own checks, unless all of them hold
    and there is no owner. *)
Lemma published_alarm_valid checks owner :
  Forall (λ k, k ≠ "") (dict_keys checks) → owner_ok owner →
  _valid_alarm (_probe_alarm_for_checks checks owner) checks
  = negb (all_true checks) || bool_decide (is_Some owner).
Proof.
  intros Hkeys Hown. unfold _valid_alarm, _probe_alarm_for_checks.
  set (failed := failed_checks checks ++ _).
  match goal with |- context [with_keys _ (VDict ?d)] =>
    change (with_keys _PROBE_ALARM_KEYS (VDict d)) with (Some d); set (D := d) end.
  cbv iota. change (py_eq_str (field "scope" D) "hive") with true.
  change (field "reason_codes" D) with (VList (VStr <$> failed)).
  change (field "owner" D) with (opt_owner owner).
  change (py_eq_str (field "status" D) ?s)
    with (bool_decide (match failed with [] => "cleared" | _ => "active" end = s)).
  assert (Forall (λ s, s ≠ "") failed) as Hnames.
  { apply Forall_app. split; [|by destruct owner; repeat constructor].
    apply Forall_forall. intros k (v & Hin & _)%elem_of_failed_checks.
    rewrite Forall_forall in Hkeys. apply Hkeys, list_elem_of_fmap. by exists (k, v). }
  cbv iota. rewrite reason_texts_names by done.
  destruct (all_true checks) eqn:Hall; cbn [negb orb].
  - apply failed_checks_nil in Hall. subst failed. rewrite Hall.
    destruct owner as [o|]; cbn; [|done]. destruct Hown as [Ho _]. by rewrite Ho.
  - assert (failed_checks checks ≠ []) as Hne
      by (intros H%failed_checks_nil; congruence).
    assert (failed ≠ []) as Hf by (subst failed; by destruct (failed_checks checks)).
    rewrite (bool_decide_eq_true_2 (match failed with [] => _ | _ => _ end = "active")) by (by destruct failed).
    destruct owner as [o|]; cbn [opt_owner default].
    + destruct Hown as [Ho (p & r & ->)]. subst failed. cbn [a_none owner_value orb].
      rewrite bool_decide_eq_true_2 by done. unfold id. by rewrite Ho, orb_true_r.
    + subst failed. cbn [a_none orb]. by rewrite bool_decide_eq_true_2.
Qed.

(** ** The diagnostics read back *)

(** The excerpt of standard error has the length the record allows. *)
Definition excerpt_fits (diagnostic : pyval) : bool :=
  match at_key "excerpt" (at_key "stderr" diagnostic) with
  | VStr s => py_len s <=? _SAFE_STDERR_EXCERPT_CHARS
  | _ => false
  end.

(** The outcomes the commands produce. *)
Inductive produced : outcome → Prop :=
  | produced_ok v : produced {| value := v; ready := true; diagnostic := ok_diagnostic |}
  | produced_failed v d :
      _valid_diagnostic d false = Ok (excerpt_fits d) →
      produced {| value := v; ready := false; diagnostic := d |}.

Definition failure_code (code : string) : Prop := code ∈ _SAFE_DIAGNOSTIC_CODES ∧ code ≠ "ok".

Lemma failure_code_dec code :
  bool_decide (code ∈ _SAFE_DIAGNOSTIC_CODES) && negb (bool_decide (code = "ok")) = true → failure_code code.
Proof. rewrite andb_true_iff, negb_true_iff, bool_decide_eq_true, bool_decide_eq_false. done. Qed.

(** A failure whose standard error is one of the forms of [_safe_stderr]. *)
Lemma failed_value_valid code exit_code state excerpt redacted :
  failure_code code → match exit_code with Some z => -255 <= z <= 255 | None => True end →
  (state = "present" ∧ excerpt ≠ "") ∨ (state ∈ ["empty"; "not_returned"] ∧ excerpt = "" ∧ redacted = false) →
  let d := diagnostic_value code exit_code (stderr_value state excerpt redacted) in
  _valid_diagnostic d false = Ok (excerpt_fits d).
Proof.
  intros [Hin Hok] Hex Hform. cbv zeta. unfold _valid_diagnostic.
  match goal with |- context [with_keys _ (diagnostic_value ?c ?e ?s)] =>
    change (with_keys _PROBE_DIAGNOSTIC_VALUE_KEYS (diagnostic_value c e s))
      with (Some [("code", VStr c); ("exit_code", match e with Some z => VInt z | None => VNone end);
                  ("stderr", s)]) end.
  cbv iota. match goal with |- context [field "code" ?d] => set (D := d) end.
  change (field "code" D) with (VStr code). change (field "stderr" D) with (stderr_value state excerpt redacted).
  change (field "exit_code" D) with (match exit_code with Some z => VInt z | None => VNone end).
  cbn [str_in]. rewrite bool_decide_eq_true_2 by done.
  assert (exit_code_ok (match exit_code with Some z => VInt z | None => VNone end) = true) as ->.
  { destruct exit_code as [z|]; [|done]. cbn [exit_code_ok]. apply andb_true_iff. lia. }
  cbn [negb orb]. unfold stderr_part.
  change (with_keys _PROBE_STDERR_KEYS (stderr_value state excerpt redacted))
    with (Some [("state", VStr state); ("excerpt", VStr excerpt); ("redaction_applied", VBool redacted)]).
  cbv iota. match goal with |- context [field "state" ?d] => set (E := d) end.
  change (field "state" E) with (VStr state). change (field "excerpt" E) with (VStr excerpt).
  change (field "redaction_applied" E) with (VBool redacted).
  change (excerpt_fits _) with (py_len excerpt <=? _SAFE_STDERR_EXCERPT_CHARS).
  assert (state ∈ _SAFE_DIAGNOSTIC_STDERR) as Hst
    by (unfold _SAFE_DIAGNOSTIC_STDERR; set_solver).
  unfold py_in_set. cbn [py_hashable mbind result_bind]. rewrite (bool_decide_eq_true_2 (state ∈ _)) by done.
  destruct (py_len excerpt <=? _); [|done]. cbn [negb].
  assert (py_eq_str (VStr code) "ok" = false) as -> by (cbn; by apply bool_decide_eq_false).
  destruct Hform as [[-> He]|(Hin' & -> & ->)].
  - rewrite (bool_decide_eq_true_2 ("present" = "present")) by done.
    rewrite (bool_decide_eq_false_2 (excerpt = "")) by done. done.
  - rewrite (bool_decide_eq_false_2 (state = "present")) by (intros ->; set_solver).
    rewrite bool_decide_eq_true_2 by done. done.
Qed.

Lemma failed_diagnostic_valid code exit_code :
  failure_code code → match exit_code with Some z => -255 <= z <= 255 | None => True end →
  _valid_diagnostic (failed_diagnostic code exit_code) false = Ok (excerpt_fits (failed_diagnostic code exit_code)).
Proof. intros Hc He. apply failed_value_valid; [done..|]. right. set_solver. Qed.

Lemma diagnostic_valid redact code exit_code text :
  failure_code code → match exit_code with Some z => -255 <= z <= 255 | None => True end →
  let d := _diagnostic redact code exit_code (VStr text) in
  _valid_diagnostic d false = Ok (excerpt_fits d).
Proof.
  intros Hc He. cbv zeta. unfold _diagnostic. cbn [_safe_stderr].
  assert (∀ b : bool, failure_code (if b then "command_stderr_redaction_unavailable" else code)) as Hif
    by (intros []; [by apply failure_code_dec|done]).
  case_bool_decide as Ht; [apply failed_value_valid; [apply Hif|done|right; set_solver]|].
  destruct (command_excerpt redact text _) as [excerpt redacted].
  case_bool_decide as Hx; apply failed_value_valid; try apply Hif; try done; left; done.
Qed.

(** The child's exit code is a status or the negative of a signal, and no
    failure of the bounded child is named [ok]. *)
Definition child_answer (completed : result child) : Prop :=
  (∀ c, completed = Ok c → -255 <= returncode c <= 255) ∧ completed ≠ Err (BoundedProcessError "ok").

Lemma run_json_produced redact levels completed o :
  child_answer completed → _run_json redact levels completed = Ok o → produced o.
Proof.
  intros [Hrange Hnot]. unfold _run_json. destruct completed as [c|e].
  - specialize (Hrange c eq_refl).
    destruct (Z.eqb_spec (returncode c) 0) as [Hz|Hz]; cbn [negb].
    2: { intros [= <-]. apply produced_failed, diagnostic_valid; [by apply failure_code_dec|done]. }
    case_bool_decide as Hs; cbn [negb].
    2: { intros [= <-]. apply produced_failed, diagnostic_valid; [by apply failure_code_dec|done]. }
    destruct (_strict_json_loads levels (stdout c)) as [[]|e]; [..|destruct (_ || _); [|done]]; intros [= <-];
      first [apply produced_failed, diagnostic_valid; [by apply failure_code_dec|done]
            |rewrite Hs; apply produced_ok].
  - assert (∀ o, (if is_type_error e || is_value_error e
      then Ok {| value := []; ready := false; diagnostic := failed_diagnostic "command_json_invalid" (Some 0) |}
      else Err e) = Ok o → produced o) as Hother.
    { intros o'. destruct (_ || _); [|done]. intros [= <-].
      apply produced_failed, failed_diagnostic_valid; [by apply failure_code_dec|done]. }
    destruct e; try exact (Hother o). intros [= <-]. apply produced_failed, failed_diagnostic_valid; [|done].
    case_bool_decide as Hin; [|by apply failure_code_dec]. split; [done|]. by intros ->.
Qed.

Lemma runtime_status_json_produced report : produced (_runtime_status_json report).
Proof.
  unfold _runtime_status_json. destruct (is_bool true (field "ok" report)); [apply produced_ok|].
  apply produced_failed, failed_diagnostic_valid; [|done].
  destruct (at_key "reason_code" _) as [| | | |code| |]; try by apply failure_code_dec.
  case_bool_decide as Hin; [|by apply failure_code_dec].
  rewrite !elem_of_cons, elem_of_nil in Hin. destruct Hin as [->|[->|[]]]; by apply failure_code_dec.
Qed.

(** An outcome whose value has the wrong shape is a failure with a clean
    standard error. *)
Lemma shape_produced o validator : produced o → produced (_shape_command_result o validator).
Proof.
  intros H. unfold _shape_command_result. destruct H as [v|v d Hd]; cbn [ready negb orb].
  - destruct (validator _); cbn [negb orb]; [apply produced_ok|].
    apply produced_failed, (failed_value_valid "command_output_invalid" (Some 0) "empty" "" false);
      [by apply failure_code_dec|done|right; set_solver].
  - by apply produced_failed.
Qed.

Lemma shape_ready o validator :
  ready (_shape_command_result o validator) = ready o && validator (VDict (value o)).
Proof. destruct o as [v [] d]; unfold _shape_command_result; cbn; [by destruct (validator _)|done]. Qed.

Lemma produced_valid o :
  produced o → _valid_diagnostic (diagnostic o) (ready o) = Ok (excerpt_fits (diagnostic o)).
Proof. intros [v|v d H]; [by vm_compute|exact H]. Qed.

Lemma produced_ready o : produced o → ready o = true → diagnostic o = ok_diagnostic.
Proof. by intros []. Qed.


(** ** The record read back *)

Lemma all_result_values {A} (f : A → result bool) (g : A → bool) l :
  (∀ x, x ∈ l → f x = Ok (g x)) → all_result f l = Ok (forallb g l).
Proof.
  induction l as [|x l IH]; intros H; cbn; [done|]. rewrite (H x) by set_solver.
  destruct (g x); [|done]. apply IH. intros y Hy. apply H. set_solver.
Qed.

Lemma forallb_perm {A} (g : A → bool) l k : l ≡ₚ k → forallb g l = forallb g k.
Proof.
  induction 1 as [|x l k _ IH|x y l|l k m _ IH1 _ IH2]; cbn; [done|by rewrite IH| |congruence].
  by rewrite !andb_assoc, (andb_comm (g y)).
Qed.

(** A mapping of exactly these names to Booleans. *)
Definition bools (d : mapping) (keys : list string) : Prop :=
  keys_exactly d keys = true ∧ forallb a_bool (dict_values d) = true.

Lemma bool_mapping_bools d keys : bools d keys → bool_mapping keys (VDict d) = Some d.
Proof. intros [Hk Hb]. unfold bool_mapping, with_keys. rewrite Hk. cbn. by rewrite Hb. Qed.

Lemma bools_names d keys : bools d keys → Forall (λ k, k ≠ "") keys → Forall (λ k, k ≠ "") (dict_keys d).
Proof.
  intros [Hk _] Hne. unfold keys_exactly in Hk. apply andb_true_iff in Hk as [Hk _].
  apply Forall_forall. intros k Hin. rewrite Forall_forall in Hne. apply Hne.
  apply list_elem_of_In in Hin. by apply (proj1 (forallb_forall _ _) Hk), bool_decide_eq_true in Hin.
Qed.

(** The fields of a published record. *)
Record record_fields (d checks services : mapping) (r : GlobalPilotReadinessV1) (o1 o2 o3 : outcome)
  (owner : option pyval) (utc : datetime) : Prop := {
  rf_keys : keys_exactly d _PROBE_RECORD_V4_KEYS = true;
  rf_legacy : keys_exactly (legacy_record d) _PROBE_RECORD_KEYS = true;
  rf_legacy_version : field "schema_version" (legacy_record d) = VInt 3;
  rf_version : field "schema_version" d = VInt 4;
  rf_checked_at : field "checked_at" d = VStr (isoformat utc);
  rf_checks : field "checks" d = VDict checks;
  rf_services : field "service_checks" d = VDict services;
  rf_readiness : field "global_pilot_readiness" d = VDict (readiness_public r);
  rf_commands : field "commands" d = three (VBool (ready o1)) (VBool (ready o2)) (VBool (ready o3));
  rf_diagnostics : field "diagnostics" d = three (diagnostic o1) (diagnostic o2) (diagnostic o3);
  rf_alarm : field "alarm" d = _probe_alarm_for_checks checks owner;
  rf_service_alarm : field "service_alarm" d = _probe_alarm_for_checks services owner;
}.

(** What holds of every record a run assembles. *)
Record record_parts (checks services : mapping) (r : GlobalPilotReadinessV1) (o1 o2 o3 : outcome)
  (owner : option pyval) (utc : datetime) : Prop := {
  rp_checks : bools checks _PROBE_CHECK_KEYS;
  rp_services : bools services _SERVICE_CHECK_KEYS;
  rp_readiness : readiness_wf r;
  rp_o1 : produced o1; rp_o2 : produced o2; rp_o3 : produced o3;
  rp_owner : owner_ok owner;
  rp_alarm : owner = None → all_true checks = false;
  rp_offset : dt_offset utc = Some 0;
  rp_valid : dt_valid utc = true;
  rp_runtime : same_bool (field "runtime_surface" services) (field "runtime_layout" checks) = true;
  rp_usage : field "usage" services = VBool (usage_ready (readiness_public r));
}.

Section record.
Context (order : list string) (order_perm : order ≡ₚ _PROBE_COMMAND_KEYS).
Context (d checks services : mapping) (r : GlobalPilotReadinessV1) (o1 o2 o3 : outcome)
  (owner : option pyval) (utc : datetime).
Context (Hf : record_fields d checks services r o1 o2 o3 owner utc).
Context (Hp : record_parts checks services r o1 o2 o3 owner utc).

Definition excerpts_fit : bool :=
  excerpt_fits (diagnostic o1) && excerpt_fits (diagnostic o2) && excerpt_fits (diagnostic o3).

Lemma diagnostics_of_record :
  diagnostics_valid order
    [("runtime_status", diagnostic o1); ("hive_status", diagnostic o2); ("hive_doctor", diagnostic o3)]
    (λ k, is_bool true (field k
      [("runtime_status", VBool (ready o1)); ("hive_status", VBool (ready o2));
       ("hive_doctor", VBool (ready o3))]))
  = Ok excerpts_fit.
Proof using order_perm Hp.
  unfold diagnostics_valid.
  set (g := λ k, if bool_decide (k = "runtime_status") then excerpt_fits (diagnostic o1)
                 else if bool_decide (k = "hive_status") then excerpt_fits (diagnostic o2)
                 else excerpt_fits (diagnostic o3)).
  rewrite (all_result_values _ g).
  - rewrite (forallb_perm g _ _ order_perm). unfold excerpts_fit. subst g. cbn.
    by rewrite andb_true_r, andb_assoc.
  - intros k Hk. rewrite order_perm in Hk. unfold _PROBE_COMMAND_KEYS in Hk.
    rewrite !elem_of_cons, elem_of_nil in Hk.
    assert (∀ b : bool, is_bool true (VBool b) = b) as Hb by (by intros []).
    assert (∀ o, produced o →
      _valid_diagnostic (diagnostic o) (is_bool true (VBool (ready o))) = Ok (excerpt_fits (diagnostic o))) as Hv
      by (intros o Ho; rewrite Hb; by apply produced_valid).
    destruct Hp as [_ _ _ P1 P2 P3].
    destruct Hk as [->|[->|[->|[]]]]; [exact (Hv o1 P1)|exact (Hv o2 P2)|exact (Hv o3 P3)].
Qed.

Lemma record_legacy_valid :
  _valid_probe_record_v3 order (VDict (legacy_record d)) = Ok excerpts_fit.
Proof using order_perm Hf Hp.
  pose proof diagnostics_of_record as Hdiag. destruct Hf, Hp.
  unfold _valid_probe_record_v3, with_keys at 1. rewrite rf_legacy0.
  rewrite (legacy_field "checked_at"), (legacy_field "checks"), (legacy_field "commands"),
    (legacy_field "diagnostics"), (legacy_field "alarm"), (legacy_field "global_pilot_readiness")
    by (apply (bool_decide_unpack _); vm_compute; exact I).
  rewrite rf_legacy_version0, rf_checked_at0, rf_checks0, rf_commands0, rf_diagnostics0, rf_alarm0, rf_readiness0.
  pose proof (utc_isoformat_length utc rp_offset0) as Hlen.
  assert (bounded_str 40 (VStr (isoformat utc)) = true) as ->.
  { cbn [bounded_str]. unfold py_len. apply andb_true_iff. lia. }
  change (negb (py_eq_int (VInt 3) 3 && true)) with false. cbv iota.
  rewrite (bool_mapping_bools checks) by done.
  change (bool_mapping _PROBE_COMMAND_KEYS (three (VBool (ready o1)) (VBool (ready o2)) (VBool (ready o3))))
    with (Some [("runtime_status", VBool (ready o1)); ("hive_status", VBool (ready o2));
                ("hive_doctor", VBool (ready o3))]).
  change (with_keys _PROBE_COMMAND_KEYS (three (diagnostic o1) (diagnostic o2) (diagnostic o3)))
    with (Some [("runtime_status", diagnostic o1); ("hive_status", diagnostic o2);
                ("hive_doctor", diagnostic o3)]).
  cbv iota. rewrite Hdiag. cbn [mbind result_bind].
  rewrite published_alarm_valid by (done || (eapply bools_names; [done|by repeat constructor])).
  destruct (bounded_readiness_again r) as [-> _]; [done|]. rewrite readiness_public_self.
  unfold observed_at. rewrite parse_isoformat by done. unfold dt_aware. rewrite rp_offset0.
  assert (negb (all_true checks) || bool_decide (is_Some owner) = true) as ->.
  { destruct owner; [by rewrite orb_true_r|]. by rewrite rp_alarm0. }
  by rewrite !andb_true_r.
Qed.

(** A published record is valid unless an excerpt of standard error is too long,
    or every service check holds and there is no owner. *)
Lemma published_record_valid :
  _valid_probe_record_v4 order (VDict d)
  = Ok ((negb (all_true services) || bool_decide (is_Some owner)) && excerpts_fit).
Proof using order_perm Hf Hp.
  pose proof record_legacy_valid as Hlegacy. destruct Hf, Hp.
  unfold _valid_probe_record_v4, with_keys at 1. rewrite rf_keys0, rf_version0.
  change (negb (4 =? 4)) with false. cbv iota.
  rewrite rf_services0, rf_service_alarm0, rf_checks0, rf_readiness0, rf_alarm0.
  rewrite (bool_mapping_bools services) by done.
  rewrite published_alarm_valid by (done || (eapply bools_names; [done|by repeat constructor])).
  destruct (negb (all_true services) || bool_decide (is_Some owner)); cbn [negb andb]; [|done].
  rewrite Hlegacy. cbn [mbind result_bind]. destruct excerpts_fit; cbn [negb]; [|done].
  change (mapping_or_empty (VDict (readiness_public r))) with (readiness_public r).
  unfold at_key. cbn [mapping_or_empty as_dict default id]. rewrite rp_runtime0, rp_usage0.
  assert (∀ b, is_bool b (VBool b) = true) as Hb by (by intros []). rewrite Hb.
  assert (∀ c, field "owner" (mapping_or_empty (_probe_alarm_for_checks c owner)) = opt_owner owner) as Ho
    by done. cbn [andb]. f_equal.
  rewrite !Ho. apply py_eq_refl. destruct owner as [o|]; [|done].
  destruct rp_owner0 as [_ (p & q & ->)]. cbn. split; [nodup_keys|done].
Qed.

Lemma clean_diagnostics :
  diagnostics_valid order (mapping_or_empty (three ok_diagnostic ok_diagnostic ok_diagnostic)) (λ _, true)
  = Ok true.
Proof using order_perm.
  unfold diagnostics_valid. rewrite (all_result_values _ (λ _, true)).
  - by rewrite (forallb_perm _ _ _ order_perm).
  - intros k Hk. rewrite order_perm in Hk. unfold _PROBE_COMMAND_KEYS in Hk.
    rewrite !elem_of_cons, elem_of_nil in Hk. by destruct Hk as [->|[->|[->|[]]]]; vm_compute.
Qed.

Lemma published_commands :
  all_true (mapping_or_empty (field "commands" d)) = ready o1 && ready o2 && ready o3.
Proof using Hf.
  destruct Hf. rewrite rf_commands0. unfold all_true. cbn.
  by destruct (ready o1), (ready o2), (ready o3).
Qed.

(** The answer of the gate to a published record: red unless every service
    check and command holds and there is an owner, and then as fresh as the
    record. *)
Lemma published_gate now :
  probe_spawn_gate order (VDict d) now
  = Ok (if all_true services && (ready o1 && ready o2 && ready o3) && bool_decide (is_Some owner)
        then freshness_answer (VStr (isoformat utc)) now else gate_answer false "probe_red").
Proof using order_perm Hf Hp.
  pose proof published_record_valid as Hvalid. pose proof published_commands as Hcmd.
  pose proof diagnostics_of_record as Hdiag. unfold excerpts_fit in *. destruct Hf, Hp.
  unfold probe_spawn_gate. rewrite rf_version0. cbn [Z.eqb Pos.eqb negb]. rewrite Hvalid.
  cbn [mbind result_bind]. rewrite rf_services0, rf_service_alarm0, rf_diagnostics0, rf_checked_at0, Hcmd.
  cbn [mapping_or_empty as_dict default id].
  destruct (all_true services) eqn:Hs; cbn [negb orb andb].
  2: { by destruct (_ && _). }
  destruct (ready o1 && ready o2 && ready o3) eqn:Hr; cbn [negb andb orb].
  2: { destruct (bool_decide _); cbn [negb andb]; [|done]. by destruct (_ && _). }
  destruct (bool_decide (is_Some owner)) eqn:Ho; cbn [negb andb]; [|done].
  rewrite !andb_true_iff in Hr. destruct Hr as [[H1 H2] H3].
  rewrite (produced_ready o1), (produced_ready o2), (produced_ready o3) by done.
  change (negb (excerpt_fits ok_diagnostic && excerpt_fits ok_diagnostic && excerpt_fits ok_diagnostic))
    with false. cbv iota. rewrite clean_diagnostics. cbn [mbind result_bind negb orb].
  apply bool_decide_eq_true in Ho as [o ->]. apply failed_checks_nil in Hs.
  unfold _probe_alarm_for_checks. by rewrite Hs.
Qed.
End record.

(** ** What a run publishes *)

Lemma probe_clock_utc moment text :
  probe_clock moment = Ok text →
  ∃ utc, dt_aware moment = true ∧ dt_astimezone_utc moment = Ok utc ∧ text = isoformat utc
    ∧ dt_offset utc = Some 0 ∧ dt_valid utc = true.
Proof.
  unfold probe_clock. destruct (dt_aware moment); cbn [negb]; [|done].
  destruct (dt_astimezone_utc moment) as [utc|] eqn:Hu; cbn [mbind result_bind]; [|done].
  intros [= <-]. exists utc. unfold dt_astimezone_utc in Hu. destruct (_ && _) eqn:Hr; [|done].
  injection Hu as <-. split_and!; [done..|]. unfold dt_valid. cbn [dt_local dt_offset].
  unfold US_PER_DAY, US_PER_SECOND. rewrite Hr. done.
Qed.

Lemma service_usage_of_public r :
  readiness_wf r → _service_usage_value (VDict (readiness_public r)) = usage_ready (readiness_public r).
Proof.
  intros H. unfold _service_usage_value. destruct (bounded_readiness_again r H) as [_ ->]. done.
Qed.

Lemma service_checks_parts runtime hive doctor r :
  readiness_wf r →
  let s := _service_check_values runtime hive doctor (VDict (readiness_public r)) in
  bools s _SERVICE_CHECK_KEYS
  ∧ field "runtime_surface" s = VBool (_green_runtime_status runtime)
  ∧ field "usage" s = VBool (usage_ready (readiness_public r)).
Proof.
  intros H. cbv zeta. unfold _service_check_values. rewrite service_usage_of_public by done.
  destruct (negb _); by split_and!.
Qed.

Lemma probe_record_parts runtime hive doctor owner moment d :
  produced runtime → produced hive → produced doctor → owner_ok owner →
  probe_record runtime hive doctor owner moment = Ok d →
  ∃ checks services r o1 o2 o3 utc,
    record_fields d checks services r o1 o2 o3 owner utc
    ∧ record_parts checks services r o1 o2 o3 owner utc
    ∧ dt_aware moment = true ∧ dt_astimezone_utc moment = Ok utc.
Proof.
  intros P1 P2 P3 Hown. unfold probe_record, evaluate.
  cbn [mapping_or_empty as_dict default id].
  set (o1 := _shape_command_result runtime _). set (o2 := _shape_command_result hive _).
  set (o3 := _shape_command_result doctor _).
  destruct (bounded_readiness_wf (field "global_pilot_readiness" (value o2))) as (r & -> & Hr).
  destruct (service_checks_parts (VDict (value o1)) (VDict (value o2)) (VDict (value o3)) r Hr)
    as (Hb & Hrt & Hus).
  set (services := _service_check_values _ _ _ _) in *.
  intros (text & (utc & Ha & Hu & -> & Ho & Hv)%probe_clock_utc & [= <-])%bind_Ok.
  eexists _, services, r, o1, o2, o3, utc. split_and!; [by constructor| |done..].
  constructor; try done; try by apply shape_produced.
  - by destruct owner.
  - intros ->. by destruct (_green_runtime_status (VDict (value o1))).
  - rewrite Hrt. by destruct owner, (_green_runtime_status (VDict (value o1))).
Qed.

Section published.
Context (order : list string) (order_perm : order ≡ₚ _PROBE_COMMAND_KEYS).

(** The fields a reader of the record looks at. *)
Definition services_hold (d : mapping) : bool := all_true (mapping_or_empty (field "service_checks" d)).
Definition commands_hold (d : mapping) : bool := all_true (mapping_or_empty (field "commands" d)).
Definition has_owner (d : mapping) : bool := negb (a_none (at_key "owner" (field "service_alarm" d))).
Definition excerpts_short (d : mapping) : bool :=
  forallb (λ k, excerpt_fits (at_key k (field "diagnostics" d))) _PROBE_COMMAND_KEYS.

Lemma record_views d checks services r o1 o2 o3 owner utc :
  record_fields d checks services r o1 o2 o3 owner utc → owner_ok owner →
  services_hold d = all_true services ∧ commands_hold d = ready o1 && ready o2 && ready o3
  ∧ has_owner d = bool_decide (is_Some owner) ∧ excerpts_short d = excerpts_fit o1 o2 o3.
Proof.
  intros Hf Hown. split_and!.
  - unfold services_hold. by rewrite (rf_services _ _ _ _ _ _ _ _ _ Hf).
  - by apply (published_commands d checks services r o1 o2 o3 owner utc).
  - unfold has_owner. rewrite (rf_service_alarm _ _ _ _ _ _ _ _ _ Hf).
    change (at_key "owner" (_probe_alarm_for_checks services owner)) with (opt_owner owner).
    destruct owner as [o|]; [|done]. by destruct Hown as [_ (p & q & ->)].
  - unfold excerpts_short, excerpts_fit. rewrite (rf_diagnostics _ _ _ _ _ _ _ _ _ Hf). cbn [forallb _PROBE_COMMAND_KEYS].
    by rewrite andb_true_r, andb_assoc.
Qed.

Lemma freshness_exact utc moment now :
  dt_astimezone_utc moment = Ok utc → dt_aware moment = true →
  dt_offset utc = Some 0 → dt_valid utc = true →
  freshness_answer (VStr (isoformat utc)) now = gate_answer true "probe_ready" ↔
  dt_aware now = true ∧ (∃ n, dt_astimezone_utc now = Ok n)
  ∧ 0 <= dt_diff_us now moment <= MAX_PROBE_AGE_SECONDS * US_PER_SECOND.
Proof.
  intros Hu Ha Ho Hv. unfold freshness_answer, record_age, observed_at.
  assert (bounded_str 40 (VStr (isoformat utc)) = true) as ->.
  { pose proof (utc_isoformat_length utc Ho). cbn [bounded_str]. unfold py_len. apply andb_true_iff. lia. }
  rewrite parse_isoformat by done. cbn [negb mbind option_bind].
  assert (dt_aware utc = true) as -> by (unfold dt_aware; by rewrite Ho). cbn [andb].
  unfold dt_astimezone_utc in Hu. destruct (_ && _) eqn:Hr in Hu; [|done]. injection Hu as <-.
  destruct (dt_aware now); [|by split; [|intros (? & _)]].
  assert (dt_astimezone_utc (Datetime (dt_utc moment) (Some 0)) = Ok (Datetime (dt_utc moment) (Some 0))) as ->.
  { unfold dt_astimezone_utc, dt_utc in *. cbn [dt_local dt_offset default id] in *. by rewrite Z.sub_0_r, Hr. }
  destruct (dt_astimezone_utc now) as [n|e] eqn:Hn; [|by split; [|intros (_ & (? & [=]) & _)]].
  assert (dt_diff_us n (Datetime (dt_utc moment) (Some 0)) = dt_diff_us now moment) as ->.
  { unfold dt_astimezone_utc in Hn. destruct (_ && _) in Hn; [|done]. injection Hn as <-.
    unfold dt_diff_us, dt_utc. cbn. lia. }
  destruct (dt_diff_us now moment <? 0) eqn:H1; [split; [done|intros (_ & _ & ?); lia]|].
  destruct (MAX_PROBE_AGE_SECONDS * US_PER_SECOND <? dt_diff_us now moment) eqn:H2; cbn [orb].
  - split; [done|]. intros (_ & _ & ?). lia.
  - split; [|done]. intros _. split_and!; [done|by eexists|lia..].
Qed.
(** C18: Whatever the three commands answered, the record a run of the probe
    publishes is valid exactly when every excerpt of standard error has the
    allowed length and there is an owner or a failed service check; and to it
    the gate answers ready exactly at the aware times at most four hours after
    the run at which every service check and every command holds and the alarm
    has an owner, and otherwise with one of its refusals. *)
Theorem run_probe_gate_exact redact levels report hive_child doctor_child configuration moment publish d :
  child_answer hive_child → child_answer doctor_child →
  run_probe redact levels report hive_child doctor_child configuration moment publish = Ok d →
  publish d = Ok ()
  ∧ valid_probe_record order (VDict d)
    = Ok ((negb (services_hold d) || has_owner d) && excerpts_short d)
  ∧ ∀ now, ∃ g, probe_spawn_gate order (VDict d) now = Ok g
    ∧ (g = gate_answer true "probe_ready" ∨ ∃ reason, g = gate_answer false reason)
    ∧ (g = gate_answer true "probe_ready" ↔
       services_hold d = true ∧ commands_hold d = true ∧ has_owner d = true
       ∧ dt_aware now = true ∧ (∃ n, dt_astimezone_utc now = Ok n)
       ∧ 0 <= dt_diff_us now moment <= MAX_PROBE_AGE_SECONDS * US_PER_SECOND).
Proof using order_perm.
  intros Hc1 Hc2. unfold run_probe.
  intros (rep & _ & (o2 & H2 & (o3 & H3 & (owner & Hown%(probe_alarm_owner_ok levels) &
    (rec & Hrec & (u & Hpub & Hd)%bind_Ok)%bind_Ok)%bind_Ok)%bind_Ok)%bind_Ok)%bind_Ok.
  injection Hd as ->. destruct u.
  pose proof (runtime_status_json_produced rep) as P1.
  apply run_json_produced in H2 as P2; [|done]. apply run_json_produced in H3 as P3; [|done].
  destruct (probe_record_parts _ _ _ owner moment d P1 P2 P3 Hown Hrec)
    as (checks & services & r & s1 & s2 & s3 & utc & Hf & Hp & Ha & Hu).
  destruct (record_views d checks services r s1 s2 s3 owner utc Hf Hown) as (-> & -> & -> & ->).
  split; [done|]. split.
  { unfold valid_probe_record. rewrite (rf_version _ _ _ _ _ _ _ _ _ Hf).
    by rewrite (published_record_valid order order_perm d checks services r s1 s2 s3 owner utc Hf Hp). }
  intros now. eexists. split.
  { exact (published_gate order order_perm d checks services r s1 s2 s3 owner utc Hf Hp now). }
  pose proof (freshness_exact utc moment now Hu Ha (rp_offset _ _ _ _ _ _ _ _ Hp) (rp_valid _ _ _ _ _ _ _ _ Hp)) as Hx.
  destruct (all_true services), (ready s1 && ready s2 && ready s3), (bool_decide (is_Some owner)); cbn [andb];
    try (split; [right; by eexists|split; [done|by intros (? & ? & ? & _)]]).
  split; [|rewrite Hx; tauto].
  unfold freshness_answer. destruct (bounded_str 40 _); cbn [negb]; [|right; by eexists].
  destruct (record_age _ now); [|right; by eexists].
  destruct (_ || _); [right; by eexists|by left].
Qed.

(** The record published after a lost rollback is valid for every owner and
    aware time, carries the alarm, and the gate refuses it at every time. *)
Theorem lifecycle_failure_refused levels configuration reason_code moment publish d :
  publish_lifecycle_failure levels configuration reason_code moment publish = Ok d →
  valid_probe_record order (VDict d) = Ok true
  ∧ at_key "status" (field "service_alarm" d) = VStr "active"
  ∧ ∀ now, probe_spawn_gate order (VDict d) now = Ok (gate_answer false "probe_red").
Proof using order_perm.
  unfold publish_lifecycle_failure. case_bool_decide as Hcode; cbn [negb]; [subst|done].
  intros (text & (utc & Ha & Hu & -> & Ho & Hv)%probe_clock_utc & (owner & Hown &
    (u & _ & [= <-])%bind_Ok)%bind_Ok)%bind_Ok.
  assert (owner_ok owner) as Hok.
  { destruct configuration as [c|]; [by apply (probe_alarm_owner_ok levels c)|]. by injection Hown as <-. }
  set (o := {| value := []; ready := false;
               diagnostic := lifecycle_diagnostic "runtime_lifecycle_rollback_failed" |}).
  assert (produced o) as Po
    by (apply produced_failed, failed_diagnostic_valid; [by apply failure_code_dec|done]).
  set (checks := (λ k, (k, VBool false)) <$> _PROBE_CHECK_KEYS).
  set (services := (λ k, (k, VBool false)) <$> sort_by str_cmp id _SERVICE_CHECK_KEYS).
  destruct (bounded_readiness_wf VNone) as (r & Hr & Hwf).
  match goal with |- context [VDict ?x] => set (d := x) end.
  assert (record_fields d checks services r o o o owner utc) as Hf.
  { subst d. rewrite Hr. by constructor. }
  assert (record_parts checks services r o o o owner utc) as Hp.
  { constructor; try done.
    assert (r = {| gp_pilot := "blocked"; gp_generation_id := None; gp_freshness := "unknown";
      gp_candidate_count := 0; gp_reason_codes := ["usage_missing"] |}) as ->; [|done].
    destruct r as [p g f c rs]. vm_compute in Hr. injection Hr as <- Hg <- <- Hrs. f_equal.
    - by destruct g.
    - destruct rs as [|s [|]]; try done. by injection Hrs as ->. }
  split_and!.
  - unfold valid_probe_record. rewrite (rf_version _ _ _ _ _ _ _ _ _ Hf).
    by rewrite (published_record_valid order order_perm d checks services r o o o owner utc Hf Hp).
  - rewrite (rf_service_alarm _ _ _ _ _ _ _ _ _ Hf). by destruct owner.
  - intros now. by rewrite (published_gate order order_perm d checks services r o o o owner utc Hf Hp now).
Qed.
End published.

Lemma string_drop_length n s : String.length (string_drop n s) = (String.length s - n)%nat.
Proof. revert s. induction n as [|n IH]; intros [|c s]; first [done|apply IH]. Qed.

(** A redacted standard error longer than the limit is cut to the limit and then
    prefixed, so its diagnostic is longer than the record allows and the record
    that carries it is not valid. *)
Lemma long_stderr_does_not_fit redact code exit_code text :
  text ≠ "" → _SAFE_STDERR_EXCERPT_CHARS < py_len (redact text).1 →
  excerpt_fits (_diagnostic redact code exit_code (VStr text)) = false.
Proof.
  intros Ht Hlong. unfold _diagnostic. cbn [_safe_stderr]. rewrite bool_decide_eq_false_2 by done.
  unfold command_excerpt. destruct (redact text) as [cleaned b]. cbn [fst] in Hlong.
  assert (String.length (trim_chars cleaned _SAFE_STDERR_EXCERPT_CHARS) = 1237%nat) as Hlen.
  { unfold trim_chars. rewrite (proj2 (Z.leb_gt _ _)) by done. rewrite length_append.
    cbn [String.length Nat.add]. unfold last_chars. rewrite string_drop_length.
    unfold py_len, _SAFE_STDERR_EXCERPT_CHARS in *. lia. }
  rewrite bool_decide_eq_false_2 by (intros E; by rewrite E in Hlen).
  change (excerpt_fits _) with (py_len (trim_chars cleaned _SAFE_STDERR_EXCERPT_CHARS) <=? _SAFE_STDERR_EXCERPT_CHARS).
  unfold py_len. by rewrite Hlen.
Qed.

(** ** Two records *)

Definition no_redaction (text : string) : string * bool := (text, false).

Definition example_moment : datetime := Datetime (62135604000 * US_PER_SECOND) (Some 0).
Definition example_child : result child :=
  Ok {| returncode := 0; stdout := "{}"; stderr := "" |}.
Definition example_configuration : result string :=
  Ok (quoted "{'principals':[{'class_id':'koenigin','principal_id':'queen-1','repo_id':'alpha'}]}").

Definition example_record : result mapping :=
  run_probe no_redaction 100 (example_status (VBool false)) example_child example_child example_configuration
    example_moment (λ _, Ok ()).

Lemma run_probe_gate_exact_witness :
  ∃ d, example_record = Ok d
    ∧ valid_probe_record _PROBE_COMMAND_KEYS (VDict d)
      = Ok ((negb (services_hold d) || has_owner d) && excerpts_short d)
    ∧ services_hold d = false ∧ has_owner d = true.
Proof.
  destruct example_record as [d|e] eqn:Hd; [|vm_compute in Hd; discriminate Hd].
  assert (child_answer example_child) as Hc.
  { split; [|discriminate]. intros c Hc. injection Hc as <-. cbn. lia. }
  destruct (run_probe_gate_exact _PROBE_COMMAND_KEYS (reflexivity _) no_redaction 100
              (example_status (VBool false)) example_child example_child example_configuration
              example_moment (λ _, Ok ()) d Hc Hc Hd) as (_ & Hv & _).
  assert (match example_record with
          | Ok d => negb (services_hold d) && has_owner d | Err _ => false end = true) as H
    by (vm_compute; reflexivity).
  rewrite Hd in H. exists d. split; [reflexivity|]. split; [exact Hv|].
  destruct (services_hold d); [discriminate H|]. destruct (has_owner d); [|discriminate H].
  split; reflexivity.
Defined.

Lemma lifecycle_failure_refused_witness :
  ∃ d, publish_lifecycle_failure 100 None "runtime_lifecycle_rollback_failed" example_moment (λ _, Ok ()) = Ok d
    ∧ valid_probe_record _PROBE_COMMAND_KEYS (VDict d) = Ok true.
Proof.
  destruct (publish_lifecycle_failure 100 None "runtime_lifecycle_rollback_failed" example_moment (λ _, Ok ()))
    as [d|e] eqn:Hd; [|vm_compute in Hd; discriminate Hd].
  exists d. split; [reflexivity|].
  exact (proj1 (lifecycle_failure_refused _PROBE_COMMAND_KEYS (reflexivity _) 100 None _ _ _ d Hd)).
Defined.
