(* ===== verification/BrokerTypes.v ===== *)
(** * The home broker protocol: types and validation

    [src/src/the_hive/fleet_home_broker_protocol.py], lines 16 to 856; the broker
    identity and the control release an agent start envelope carries are in
    [BrokerRelease].  The fields
    of a record hold any value until it is validated, as in the code; a field
    the decoder always turns into an enumeration is typed by it.  A code of a
    validation failure is the message of the exception. *)

From S2P Require Import Prelude Order DynamicPool Json JsonText StrictJson PyEq.
#[local] Open Scope Z_scope.

(** ** Enumerations

    A string enumeration: its members and their values. *)

Class StrEnum (E : Type) := {
  members_of : list E;
  value_of : E → string;
}.

(** [klass(value)]. *)
Definition of_value {E} `{StrEnum E} (s : string) : option E :=
  find (λ e, bool_decide (value_of e = s)) members_of.

Inductive ChpbMessageKind :=
  | K_ATTEST_HOME | K_QUERY_TRANSACTION | K_GET_TERMINAL_RESULT | K_PROVISION_HOME
  | K_REPLACE_HOME | K_DEPROVISION_HOME | K_REPLY | K_AGENT_START_CLAIM
  | K_AGENT_START_ENVELOPE.

#[export] Instance ChpbMessageKind_eq_dec : EqDecision ChpbMessageKind.
Proof. solve_decision. Defined.

#[export] Instance ChpbMessageKind_enum : StrEnum ChpbMessageKind := {
  members_of := [K_ATTEST_HOME; K_QUERY_TRANSACTION; K_GET_TERMINAL_RESULT; K_PROVISION_HOME;
    K_REPLACE_HOME; K_DEPROVISION_HOME; K_REPLY; K_AGENT_START_CLAIM;
    K_AGENT_START_ENVELOPE];
  value_of e := match e with
    | K_ATTEST_HOME => "attest_home"
    | K_QUERY_TRANSACTION => "query_transaction"
    | K_GET_TERMINAL_RESULT => "get_terminal_result"
    | K_PROVISION_HOME => "provision_home"
    | K_REPLACE_HOME => "replace_home"
    | K_DEPROVISION_HOME => "deprovision_home"
    | K_REPLY => "reply"
    | K_AGENT_START_CLAIM => "agent_start_claim"
    | K_AGENT_START_ENVELOPE => "agent_start_envelope"
    end }.

Inductive ChpbTransactionOperation :=
  | OP_PROVISION | OP_REPLACE | OP_DEPROVISION.

#[export] Instance ChpbTransactionOperation_eq_dec : EqDecision ChpbTransactionOperation.
Proof. solve_decision. Defined.

#[export] Instance ChpbTransactionOperation_enum : StrEnum ChpbTransactionOperation := {
  members_of := [OP_PROVISION; OP_REPLACE; OP_DEPROVISION];
  value_of e := match e with
    | OP_PROVISION => "provision"
    | OP_REPLACE => "replace"
    | OP_DEPROVISION => "deprovision"
    end }.

Inductive BrokerResultCode :=
  | R_OK | R_PENDING | R_COMMITTED | R_ROLLED_BACK | R_BLOCKED_DRIFT | R_INVALID_MESSAGE
  | R_WRONG_PRINCIPAL | R_STALE_PEER | R_STALE_GENERATION | R_FENCED | R_REQUEST_ID_REUSE
  | R_TRANSACTION_ID_REUSE | R_TRANSACTION_NOT_FOUND | R_ATTESTATION_MISMATCH | R_CACHE_FULL
  | R_UNSUPPORTED_PLATFORM | R_INTERNAL_ERROR.

#[export] Instance BrokerResultCode_eq_dec : EqDecision BrokerResultCode.
Proof. solve_decision. Defined.

#[export] Instance BrokerResultCode_enum : StrEnum BrokerResultCode := {
  members_of := [R_OK; R_PENDING; R_COMMITTED; R_ROLLED_BACK; R_BLOCKED_DRIFT; R_INVALID_MESSAGE;
    R_WRONG_PRINCIPAL; R_STALE_PEER; R_STALE_GENERATION; R_FENCED; R_REQUEST_ID_REUSE;
    R_TRANSACTION_ID_REUSE; R_TRANSACTION_NOT_FOUND; R_ATTESTATION_MISMATCH; R_CACHE_FULL;
    R_UNSUPPORTED_PLATFORM; R_INTERNAL_ERROR];
  value_of e := match e with
    | R_OK => "ok"
    | R_PENDING => "pending"
    | R_COMMITTED => "committed"
    | R_ROLLED_BACK => "rolled_back"
    | R_BLOCKED_DRIFT => "blocked_drift"
    | R_INVALID_MESSAGE => "invalid_message"
    | R_WRONG_PRINCIPAL => "wrong_principal"
    | R_STALE_PEER => "stale_peer"
    | R_STALE_GENERATION => "stale_generation"
    | R_FENCED => "fenced"
    | R_REQUEST_ID_REUSE => "request_id_reuse"
    | R_TRANSACTION_ID_REUSE => "transaction_id_reuse"
    | R_TRANSACTION_NOT_FOUND => "transaction_not_found"
    | R_ATTESTATION_MISMATCH => "attestation_mismatch"
    | R_CACHE_FULL => "cache_full"
    | R_UNSUPPORTED_PLATFORM => "unsupported_platform"
    | R_INTERNAL_ERROR => "internal_error"
    end }.

Inductive B2aRecoveryPhase :=
  | P_ABSENT_CREATE_PENDING | P_ABSENT_PIN_PENDING | P_ABSENT_POPULATE_PENDING
  | P_ABSENT_PUBLISH_PENDING | P_ABSENT_PUBLISHED | P_PREPARE_PENDING | P_PREPARED
  | P_SWITCH_PENDING | P_SWITCHED | P_CAS_PENDING | P_COMMIT_PENDING | P_ROLLBACK_PENDING
  | P_DEPROVISION_PENDING | P_DEPROVISIONED | P_COMMITTED | P_ROLLED_BACK | P_BLOCKED.

#[export] Instance B2aRecoveryPhase_eq_dec : EqDecision B2aRecoveryPhase.
Proof. solve_decision. Defined.

#[export] Instance B2aRecoveryPhase_enum : StrEnum B2aRecoveryPhase := {
  members_of := [P_ABSENT_CREATE_PENDING; P_ABSENT_PIN_PENDING; P_ABSENT_POPULATE_PENDING;
    P_ABSENT_PUBLISH_PENDING; P_ABSENT_PUBLISHED; P_PREPARE_PENDING; P_PREPARED;
    P_SWITCH_PENDING; P_SWITCHED; P_CAS_PENDING; P_COMMIT_PENDING; P_ROLLBACK_PENDING;
    P_DEPROVISION_PENDING; P_DEPROVISIONED; P_COMMITTED; P_ROLLED_BACK; P_BLOCKED];
  value_of e := match e with
    | P_ABSENT_CREATE_PENDING => "absent_create_pending"
    | P_ABSENT_PIN_PENDING => "absent_pin_pending"
    | P_ABSENT_POPULATE_PENDING => "absent_populate_pending"
    | P_ABSENT_PUBLISH_PENDING => "absent_publish_pending"
    | P_ABSENT_PUBLISHED => "absent_published"
    | P_PREPARE_PENDING => "prepare_pending"
    | P_PREPARED => "prepared"
    | P_SWITCH_PENDING => "switch_pending"
    | P_SWITCHED => "switched"
    | P_CAS_PENDING => "cas_pending"
    | P_COMMIT_PENDING => "commit_pending"
    | P_ROLLBACK_PENDING => "rollback_pending"
    | P_DEPROVISION_PENDING => "deprovision_pending"
    | P_DEPROVISIONED => "deprovisioned"
    | P_COMMITTED => "committed"
    | P_ROLLED_BACK => "rolled_back"
    | P_BLOCKED => "blocked"
    end }.

Inductive BrokerCheckpoint :=
  | C_CREATE_INTENT | C_STAGING_PINNED | C_POPULATE_PENDING | C_PUBLISH_INTENT | C_PUBLISHED
  | C_REPLACEMENT_PREPARE_INTENT | C_REPLACEMENT_PREPARED | C_SWITCH_INTENT | C_SWITCHED
  | C_REGISTRY_CAS_INTENT | C_FINALIZE_INTENT | C_ROLLBACK_INTENT | C_DEPROVISION_INTENT
  | C_DEPROVISIONED | C_COMMITTED | C_ROLLED_BACK | C_BLOCKED_DRIFT.

#[export] Instance BrokerCheckpoint_eq_dec : EqDecision BrokerCheckpoint.
Proof. solve_decision. Defined.

#[export] Instance BrokerCheckpoint_enum : StrEnum BrokerCheckpoint := {
  members_of := [C_CREATE_INTENT; C_STAGING_PINNED; C_POPULATE_PENDING; C_PUBLISH_INTENT; C_PUBLISHED;
    C_REPLACEMENT_PREPARE_INTENT; C_REPLACEMENT_PREPARED; C_SWITCH_INTENT; C_SWITCHED;
    C_REGISTRY_CAS_INTENT; C_FINALIZE_INTENT; C_ROLLBACK_INTENT; C_DEPROVISION_INTENT;
    C_DEPROVISIONED; C_COMMITTED; C_ROLLED_BACK; C_BLOCKED_DRIFT];
  value_of e := match e with
    | C_CREATE_INTENT => "create_intent"
    | C_STAGING_PINNED => "staging_pinned"
    | C_POPULATE_PENDING => "populate_pending"
    | C_PUBLISH_INTENT => "publish_intent"
    | C_PUBLISHED => "published"
    | C_REPLACEMENT_PREPARE_INTENT => "replacement_prepare_intent"
    | C_REPLACEMENT_PREPARED => "replacement_prepared"
    | C_SWITCH_INTENT => "switch_intent"
    | C_SWITCHED => "switched"
    | C_REGISTRY_CAS_INTENT => "registry_cas_intent"
    | C_FINALIZE_INTENT => "finalize_intent"
    | C_ROLLBACK_INTENT => "rollback_intent"
    | C_DEPROVISION_INTENT => "deprovision_intent"
    | C_DEPROVISIONED => "deprovisioned"
    | C_COMMITTED => "committed"
    | C_ROLLED_BACK => "rolled_back"
    | C_BLOCKED_DRIFT => "blocked_drift"
    end }.

Inductive BrokerObjectState :=
  | O_ABSENT | O_STAGING_EMPTY | O_STAGING_PREFIX | O_STAGING_COMPLETE | O_FINAL_COMPLETE
  | O_STAGING_AND_FINAL | O_REPLACEMENT_ORIGINAL | O_REPLACEMENT_PREPARED
  | O_REPLACEMENT_SWITCHED | O_ROLLBACK_READY | O_ROLLED_BACK | O_DRIFT.

#[export] Instance BrokerObjectState_eq_dec : EqDecision BrokerObjectState.
Proof. solve_decision. Defined.

#[export] Instance BrokerObjectState_enum : StrEnum BrokerObjectState := {
  members_of := [O_ABSENT; O_STAGING_EMPTY; O_STAGING_PREFIX; O_STAGING_COMPLETE; O_FINAL_COMPLETE;
    O_STAGING_AND_FINAL; O_REPLACEMENT_ORIGINAL; O_REPLACEMENT_PREPARED;
    O_REPLACEMENT_SWITCHED; O_ROLLBACK_READY; O_ROLLED_BACK; O_DRIFT];
  value_of e := match e with
    | O_ABSENT => "absent"
    | O_STAGING_EMPTY => "staging_empty"
    | O_STAGING_PREFIX => "staging_prefix"
    | O_STAGING_COMPLETE => "staging_complete"
    | O_FINAL_COMPLETE => "final_complete"
    | O_STAGING_AND_FINAL => "staging_and_final"
    | O_REPLACEMENT_ORIGINAL => "replacement_original"
    | O_REPLACEMENT_PREPARED => "replacement_prepared"
    | O_REPLACEMENT_SWITCHED => "replacement_switched"
    | O_ROLLBACK_READY => "rollback_ready"
    | O_ROLLED_BACK => "rolled_back"
    | O_DRIFT => "drift"
    end }.

Inductive BrokerRegistryState :=
  | G_NOT_APPLICABLE | G_OLD | G_CURRENT | G_FOREIGN.

#[export] Instance BrokerRegistryState_eq_dec : EqDecision BrokerRegistryState.
Proof. solve_decision. Defined.

#[export] Instance BrokerRegistryState_enum : StrEnum BrokerRegistryState := {
  members_of := [G_NOT_APPLICABLE; G_OLD; G_CURRENT; G_FOREIGN];
  value_of e := match e with
    | G_NOT_APPLICABLE => "not_applicable"
    | G_OLD => "old"
    | G_CURRENT => "current"
    | G_FOREIGN => "foreign"
    end }.

Inductive BrokerRecoveryAction :=
  | A_CREATE_STAGING | A_POPULATE_NEXT | A_PUBLISH_HOME | A_PREPARE_REPLACEMENT
  | A_SWITCH_REPLACEMENT | A_CAS_REGISTRY | A_DEPROVISION_HOME | A_ROLLBACK
  | A_PERSIST_CHECKPOINT | A_RETURN_COMMITTED | A_RETURN_ROLLED_BACK | A_RETURN_BLOCKED.

#[export] Instance BrokerRecoveryAction_eq_dec : EqDecision BrokerRecoveryAction.
Proof. solve_decision. Defined.

#[export] Instance BrokerRecoveryAction_enum : StrEnum BrokerRecoveryAction := {
  members_of := [A_CREATE_STAGING; A_POPULATE_NEXT; A_PUBLISH_HOME; A_PREPARE_REPLACEMENT;
    A_SWITCH_REPLACEMENT; A_CAS_REGISTRY; A_DEPROVISION_HOME; A_ROLLBACK;
    A_PERSIST_CHECKPOINT; A_RETURN_COMMITTED; A_RETURN_ROLLED_BACK; A_RETURN_BLOCKED];
  value_of e := match e with
    | A_CREATE_STAGING => "create_staging"
    | A_POPULATE_NEXT => "populate_next"
    | A_PUBLISH_HOME => "publish_home"
    | A_PREPARE_REPLACEMENT => "prepare_replacement"
    | A_SWITCH_REPLACEMENT => "switch_replacement"
    | A_CAS_REGISTRY => "cas_registry"
    | A_DEPROVISION_HOME => "deprovision_home"
    | A_ROLLBACK => "rollback"
    | A_PERSIST_CHECKPOINT => "persist_checkpoint"
    | A_RETURN_COMMITTED => "return_committed"
    | A_RETURN_ROLLED_BACK => "return_rolled_back"
    | A_RETURN_BLOCKED => "return_blocked"
    end }.

(** Every member is read back from its value. *)
Class LawfulEnum (E : Type) `{StrEnum E} := of_value_of : ∀ e : E, of_value (value_of e) = Some e.

#[export] Instance ChpbMessageKind_lawful : LawfulEnum ChpbMessageKind.
Proof. by intros []. Qed.
#[export] Instance ChpbTransactionOperation_lawful : LawfulEnum ChpbTransactionOperation.
Proof. by intros []. Qed.
#[export] Instance BrokerResultCode_lawful : LawfulEnum BrokerResultCode.
Proof. by intros []. Qed.
#[export] Instance B2aRecoveryPhase_lawful : LawfulEnum B2aRecoveryPhase.
Proof. by intros []. Qed.
#[export] Instance BrokerCheckpoint_lawful : LawfulEnum BrokerCheckpoint.
Proof. by intros []. Qed.
#[export] Instance BrokerObjectState_lawful : LawfulEnum BrokerObjectState.
Proof. by intros []. Qed.
#[export] Instance BrokerRegistryState_lawful : LawfulEnum BrokerRegistryState.
Proof. by intros []. Qed.
#[export] Instance BrokerRecoveryAction_lawful : LawfulEnum BrokerRecoveryAction.
Proof. by intros []. Qed.

(** ** Constants and failures *)

Definition CHPB_PROTOCOL : string := "CHPB/2".
Definition MAX_CHPB_MESSAGE_BYTES : Z := 64 * 1024.
Definition MAX_CHPB_AGENT_ID_BYTES : Z := 128.
Definition MAX_CHPB_POPULATION_ENTRIES : Z := 256.
Definition MAX_CHPB_NESTING_DEPTH : Z := 5.
Definition MAX_CHPB_OBJECT_FIELDS : Z := 16.
Definition MAX_CHPB_GENERATION : Z := 2 ^ 63 - 1.
Definition MAX_CHPB_DEVICE : Z := 2 ^ 63 - 1.
Definition MAX_CHPB_INODE : Z := 2 ^ 63 - 1.
Definition MAX_CHPB_MCS_CATEGORY : Z := 1023.
Definition CANONICAL_AGENT_HOME : string := "/run/the-hive-agent/home".

(** [ChpbValidationCode]. *)
Definition INVALID_TYPE : string := "invalid_type".
Definition INVALID_FIELD : string := "invalid_field".
Definition UNKNOWN_FIELD : string := "unknown_field".
Definition DUPLICATE_KEY : string := "duplicate_key".
Definition INVALID_UTF8 : string := "invalid_utf8".
Definition MESSAGE_TOO_LARGE : string := "message_too_large".
Definition NON_CANONICAL : string := "non_canonical".
Definition UNSUPPORTED_PROTOCOL : string := "unsupported_protocol".
Definition INVALID_BINDING : string := "invalid_binding".
Definition INVALID_TRANSITION : string := "invalid_transition".

Definition _fail {A} (code : string) : result A := Err (ChpbValidationError code).

(** [if not condition: _fail(code)]. *)
Definition check (condition : bool) (code : string) : result () :=
  require condition (ChpbValidationError code).

(** ** Texts and integers *)

(** [value.encode("utf-8")] of text up to U+00FF. *)
Fixpoint utf8_encode (s : string) : string :=
  match s with
  | EmptyString => EmptyString
  | String c s =>
      let n := ord c in
      if n <? 128 then String c (utf8_encode s)
      else String (char_at (192 + n / 64)) (String (char_at (128 + n mod 64)) (utf8_encode s))
  end.

(** [raw.decode("utf-8")], for text up to U+00FF; other bytes are refused. *)
Fixpoint utf8_decode (raw : string) : option string :=
  match raw with
  | EmptyString => Some EmptyString
  | String c raw =>
      let n := ord c in
      if n <? 128 then String c <$> utf8_decode raw
      else if (n =? 194) || (n =? 195) then
        match raw with
        | String d raw =>
            if (128 <=? ord d) && (ord d <? 192)
            then String (char_at ((n - 192) * 64 + (ord d - 128))) <$> utf8_decode raw
            else None
        | EmptyString => None
        end
      else None
  end.

Definition is_hex (size : Z) (s : string) : bool := (py_len s =? size) && string_forallb is_hex_lower s.
Definition _HEX32 : string → bool := is_hex 32.
Definition _HEX64 : string → bool := is_hex 64.

(** [[a-z][a-z0-9_-]{0,127}]. *)
Definition _AGENT (s : string) : bool :=
  match s with
  | String c rest =>
      is_lower c && (py_len rest <=? 127)
      && string_forallb (λ c, is_lower c || is_digit_char c || is_char "_" c || is_char "-" c) rest
  | EmptyString => false
  end.

(** [0|[1-9][0-9]{0,3}] after the letter [c]. *)
Definition category (part : string) : option Z :=
  match part with
  | String c digits =>
      if is_char "c" c && string_forallb is_digit_char digits
         && (bool_decide (digits = "0")
             || match digits with
                | String d _ => negb (is_char "0" d) && (py_len digits <=? 4)
                | EmptyString => false
                end)
      then Some (digits_value 0 digits) else None
  | EmptyString => None
  end.

(** The two categories of a text of the form [_MCS]. *)
Definition _MCS (s : string) : option (Z * Z) :=
  match split_on "," s with
  | [a; b] => low ← category a; high ← category b; Some (low, high)
  | _ => None
  end.

Definition _string (v : pyval) (pattern : string → bool) (max_bytes : option Z) : result string :=
  match v with
  | VStr s =>
      _ ← check (match max_bytes with Some m => py_len (utf8_encode s) <=? m | None => true end) INVALID_FIELD;
      _ ← check (pattern s) INVALID_FIELD;
      Ok s
  | _ => _fail INVALID_TYPE
  end.

Definition _integer (v : pyval) (low high : Z) : result Z :=
  match v with
  | VInt z => if (z <? low) || (high <? z) then _fail INVALID_FIELD else Ok z
  | _ => _fail INVALID_TYPE
  end.

Definition _digest (v : pyval) (size : Z) : result string :=
  _string v (if size =? 32 then _HEX32 else _HEX64) None.

Definition _mcs (v : pyval) : result (Z * Z) :=
  text ← _string v (λ s, bool_decide (is_Some (_MCS s))) None;
  match _MCS text with
  | Some (low, high) =>
      if (0 <=? low) && (low <? high) && (high <=? MAX_CHPB_MCS_CATEGORY)
      then Ok (low, high) else _fail INVALID_FIELD
  | None => _fail INVALID_FIELD
  end.

(** ** Records *)

Record PrincipalBinding := {
  pb_agent_id : pyval;
  pb_manifest_generation : pyval;
  pb_unit_generation : pyval;
  pb_cgroup_dev : pyval;
  pb_cgroup_ino : pyval;
  pb_invocation_id : pyval;
  pb_mcs_pair : pyval;
  pb_fencing_epoch : pyval;
}.

Record PolicyBinding := { policy_generation : pyval; projection_digest : pyval }.

Record TransactionBinding := {
  operation : ChpbTransactionOperation;
  transaction_id : pyval;
  store_uuid : pyval;
  principal : PrincipalBinding;
  policy : PolicyBinding;
}.

Record BindingExpectation := {
  ex_agent_id : pyval;
  ex_manifest_generation : pyval;
  ex_unit_generation : pyval;
  ex_policy_generation : pyval;
  ex_projection_digest : pyval;
  ex_fencing_epoch : pyval;
}.

Record DirectoryIdentity := { dev : pyval; ino : pyval; dmode : pyval }.

Record BrokerObservation := {
  object_state : BrokerObjectState;
  registry_state : BrokerRegistryState;
  population_index : pyval;
}.

Record TransactionStatus := {
  binding : TransactionBinding;
  b2a_phase : B2aRecoveryPhase;
  checkpoint : BrokerCheckpoint;
  observation : BrokerObservation;
  population_total : pyval;
  terminal_result : option BrokerResultCode;
}.

Record HomeAttestation := {
  ha_binding : TransactionBinding;
  canonical_path : pyval;
  directory : DirectoryIdentity;
  ha_manifest_digest : pyval;
  ha_mcs_pair : pyval;
}.

(** ** Checkpoints and phases *)

Definition _PHASE_TO_CHECKPOINT : list (B2aRecoveryPhase * BrokerCheckpoint) :=
  [ (P_ABSENT_CREATE_PENDING, C_CREATE_INTENT); (P_ABSENT_PIN_PENDING, C_STAGING_PINNED);
    (P_ABSENT_POPULATE_PENDING, C_POPULATE_PENDING); (P_ABSENT_PUBLISH_PENDING, C_PUBLISH_INTENT);
    (P_ABSENT_PUBLISHED, C_PUBLISHED); (P_PREPARE_PENDING, C_REPLACEMENT_PREPARE_INTENT);
    (P_PREPARED, C_REPLACEMENT_PREPARED); (P_SWITCH_PENDING, C_SWITCH_INTENT);
    (P_SWITCHED, C_SWITCHED); (P_CAS_PENDING, C_REGISTRY_CAS_INTENT);
    (P_COMMIT_PENDING, C_FINALIZE_INTENT); (P_ROLLBACK_PENDING, C_ROLLBACK_INTENT);
    (P_DEPROVISION_PENDING, C_DEPROVISION_INTENT); (P_DEPROVISIONED, C_DEPROVISIONED);
    (P_COMMITTED, C_COMMITTED); (P_ROLLED_BACK, C_ROLLED_BACK); (P_BLOCKED, C_BLOCKED_DRIFT) ].

Definition b2a_phase_for_checkpoint (c : BrokerCheckpoint) : B2aRecoveryPhase :=
  match find (λ pc, bool_decide (pc.2 = c)) _PHASE_TO_CHECKPOINT with
  | Some (p, _) => p
  | None => P_BLOCKED
  end.

Definition checkpoint_for_b2a_phase (p : B2aRecoveryPhase) : BrokerCheckpoint :=
  match find (λ pc, bool_decide (pc.1 = p)) _PHASE_TO_CHECKPOINT with
  | Some (_, c) => c
  | None => C_BLOCKED_DRIFT
  end.

Definition allowed_checkpoints (op : ChpbTransactionOperation) : list BrokerCheckpoint :=
  match op with
  | OP_PROVISION =>
      [ C_CREATE_INTENT; C_STAGING_PINNED; C_POPULATE_PENDING; C_PUBLISH_INTENT; C_PUBLISHED;
        C_REGISTRY_CAS_INTENT; C_FINALIZE_INTENT; C_ROLLBACK_INTENT; C_COMMITTED; C_ROLLED_BACK;
        C_BLOCKED_DRIFT ]
  | OP_REPLACE =>
      [ C_REPLACEMENT_PREPARE_INTENT; C_REPLACEMENT_PREPARED; C_SWITCH_INTENT; C_SWITCHED;
        C_REGISTRY_CAS_INTENT; C_FINALIZE_INTENT; C_ROLLBACK_INTENT; C_COMMITTED; C_ROLLED_BACK;
        C_BLOCKED_DRIFT ]
  | OP_DEPROVISION =>
      [C_DEPROVISION_INTENT; C_REGISTRY_CAS_INTENT; C_FINALIZE_INTENT; C_DEPROVISIONED; C_BLOCKED_DRIFT]
  end.

Definition terminal_of (c : BrokerCheckpoint) : option BrokerResultCode :=
  match c with
  | C_COMMITTED | C_DEPROVISIONED => Some R_COMMITTED
  | C_ROLLED_BACK => Some R_ROLLED_BACK
  | C_BLOCKED_DRIFT => Some R_BLOCKED_DRIFT
  | _ => None
  end.

(** ** Validation *)

Definition _validate_directory (d : DirectoryIdentity) : result () :=
  _ ← _integer (dev d) 0 MAX_CHPB_DEVICE;
  _ ← _integer (ino d) 1 MAX_CHPB_INODE;
  _ ← _integer (dmode d) 16832 16832;
  Ok ().

Definition validate_principal_binding (p : PrincipalBinding) : result () :=
  _ ← _string (pb_agent_id p) _AGENT (Some MAX_CHPB_AGENT_ID_BYTES);
  _ ← _integer (pb_manifest_generation p) 1 MAX_CHPB_GENERATION;
  _ ← _integer (pb_unit_generation p) 1 MAX_CHPB_GENERATION;
  _ ← _integer (pb_cgroup_dev p) 0 MAX_CHPB_DEVICE;
  _ ← _integer (pb_cgroup_ino p) 1 MAX_CHPB_INODE;
  _ ← _digest (pb_invocation_id p) 32;
  _ ← _mcs (pb_mcs_pair p);
  _ ← _integer (pb_fencing_epoch p) 0 MAX_CHPB_GENERATION;
  Ok ().

Definition _validate_policy (p : PolicyBinding) : result () :=
  _ ← _integer (policy_generation p) 1 MAX_CHPB_GENERATION;
  _ ← _digest (projection_digest p) 64;
  Ok ().

Definition validate_transaction_binding (b : TransactionBinding) : result () :=
  _ ← _digest (transaction_id b) 32;
  _ ← _digest (store_uuid b) 32;
  _ ← validate_principal_binding (principal b);
  _validate_policy (policy b).

Definition _validate_expectation (e : BindingExpectation) : result () :=
  _ ← _string (ex_agent_id e) _AGENT (Some MAX_CHPB_AGENT_ID_BYTES);
  _ ← _integer (ex_manifest_generation e) 1 MAX_CHPB_GENERATION;
  _ ← _integer (ex_unit_generation e) 1 MAX_CHPB_GENERATION;
  _ ← _integer (ex_policy_generation e) 1 MAX_CHPB_GENERATION;
  _ ← _digest (ex_projection_digest e) 64;
  _ ← _integer (ex_fencing_epoch e) 0 MAX_CHPB_GENERATION;
  Ok ().

(** The validated index. *)
Definition _validate_observation (o : BrokerObservation) : result Z :=
  _integer (population_index o) 0 MAX_CHPB_POPULATION_ENTRIES.

Definition validate_transaction_status (s : TransactionStatus) : result () :=
  _ ← validate_transaction_binding (binding s);
  _ ← check (bool_decide (checkpoint s ∈ allowed_checkpoints (operation (binding s)))) INVALID_BINDING;
  _ ← check (bool_decide (b2a_phase_for_checkpoint (checkpoint s) = b2a_phase s)) INVALID_TRANSITION;
  index ← _validate_observation (observation s);
  total ← _integer (population_total s) 1 MAX_CHPB_POPULATION_ENTRIES;
  _ ← check (index <=? total) INVALID_FIELD;
  check (bool_decide (terminal_result s = terminal_of (checkpoint s))) INVALID_TRANSITION.

Definition _validate_attestation (a : HomeAttestation) : result () :=
  _ ← validate_transaction_binding (ha_binding a);
  _ ← check (py_eq_str (canonical_path a) CANONICAL_AGENT_HOME) INVALID_FIELD;
  _ ← _validate_directory (directory a);
  _ ← _digest (ha_manifest_digest a) 64;
  _ ← _mcs (ha_mcs_pair a);
  check (py_eq (ha_mcs_pair a) (pb_mcs_pair (principal (ha_binding a)))) INVALID_BINDING.
