(* ===== verification/BrokerRelease.v ===== *)
(** * Control releases and broker identities

    [src/src/the_hive/fleet_control_release_v2.py] and the identity of
    [src/src/the_hive/fleet_home_broker_identity.py]: the two immutable values an
    agent start envelope carries.  A value exists only once its constructor has
    validated it, so the constructors return typed records; every failure of the
    release codec is the one error [invalid_control_release_v2]. *)

From S2P Require Import Prelude Order DynamicPool Json JsonText StrictJson PyEq BrokerTypes.
#[local] Open Scope Z_scope.

(** ** The text of a release *)

(** White space of [str.strip], up to U+00FF. *)
Definition py_space (c : ascii) : bool :=
  let n := ord c in
  ((9 <=? n) && (n <=? 13)) || ((28 <=? n) && (n <=? 32)) || (n =? 133) || (n =? 160).

Fixpoint py_lstrip (s : string) : string :=
  match s with
  | String c rest => if py_space c then py_lstrip rest else s
  | EmptyString => EmptyString
  end.

Fixpoint py_rstrip (s : string) : string :=
  match s with
  | EmptyString => EmptyString
  | String c rest =>
      match py_rstrip rest with
      | EmptyString => if py_space c then EmptyString else String c EmptyString
      | rest => String c rest
      end
  end.

Definition py_strip (s : string) : string := py_rstrip (py_lstrip s).

Definition _invalid {A} : result A := Err (ControlReleaseV2Error "invalid_control_release_v2").

Definition utf8_text_ok (s : string) : bool :=
  negb (bool_decide (s = "")) && bool_decide (s = py_strip s)
  && string_forallb (λ c, 32 <=? ord c) s.

Definition _validate_utf8_text (v : pyval) : result string :=
  match v with VStr s => if utf8_text_ok s then Ok s else _invalid | _ => _invalid end.

Definition _PAYLOAD_ROLES : list string :=
  ["python_runtime"; "root_helpers"; "selinux_policy"; "systemd_units"].
Definition _TOP_LEVEL_KEYS : list string :=
  [ "schema_version"; "payload_version"; "payloads"; "broker_protocol"; "system_bus_interface";
    "system_bus_method"; "agent_unit_template"; "launcher_path" ].
Definition _PAYLOAD_KEYS : list string := ["role"; "sha256"].
Definition _BROKER_PROTOCOL : string := "CHPB/2".
Definition _SYSTEM_BUS_INTERFACE : string := "org.the_hive.HomeBrokerControl2".
Definition _SYSTEM_BUS_METHOD : string := "StartDynamicTeamlead".
Definition _AGENT_UNIT_TEMPLATE : string := "the-hive-agent@.service".
Definition _LAUNCHER_PATH : string := "/usr/libexec/the-hive-agent-launcher".

Record ReleasePayloadDigestV2 := { role : string; sha256 : string }.

Definition ReleasePayloadDigestV2_new (role sha256 : pyval) : result ReleasePayloadDigestV2 :=
  match role, sha256 with
  | VStr r, VStr h => if bool_decide (r ∈ _PAYLOAD_ROLES) && _HEX64 h
                      then Ok {| role := r; sha256 := h |} else _invalid
  | _, _ => _invalid
  end.

Record ControlReleaseSpecV2 := {
  schema_version : Z;
  payload_version : string;
  payloads : list ReleasePayloadDigestV2;
  broker_protocol : string;
  system_bus_interface : string;
  system_bus_method : string;
  agent_unit_template : string;
  launcher_path : string;
}.

Definition _validate_fixed_text (v : pyval) (expected : string) : result string :=
  if py_eq_str v expected then Ok expected else _invalid.

Definition ControlReleaseSpecV2_new (schema_version payload_version : pyval)
  (payloads : list ReleasePayloadDigestV2)
  (broker_protocol system_bus_interface system_bus_method agent_unit_template launcher_path : pyval)
  : result ControlReleaseSpecV2 :=
  _ ← match schema_version with VInt z => if z =? 2 then Ok () else _invalid | _ => _invalid end;
  payload_version ← _validate_utf8_text payload_version;
  _ ← if bool_decide (role <$> payloads = _PAYLOAD_ROLES) then Ok () else _invalid;
  broker_protocol ← _validate_fixed_text broker_protocol _BROKER_PROTOCOL;
  system_bus_interface ← _validate_fixed_text system_bus_interface _SYSTEM_BUS_INTERFACE;
  system_bus_method ← _validate_fixed_text system_bus_method _SYSTEM_BUS_METHOD;
  agent_unit_template ← _validate_fixed_text agent_unit_template _AGENT_UNIT_TEMPLATE;
  launcher_path ← _validate_fixed_text launcher_path _LAUNCHER_PATH;
  Ok {| schema_version := 2; payload_version := payload_version; payloads := payloads;
        broker_protocol := broker_protocol; system_bus_interface := system_bus_interface;
        system_bus_method := system_bus_method; agent_unit_template := agent_unit_template;
        launcher_path := launcher_path |}.

Definition payload_document (p : ReleasePayloadDigestV2) : pyval :=
  VDict [("role", VStr (role p)); ("sha256", VStr (sha256 p))].

Definition _canonical_document (r : ControlReleaseSpecV2) : pyval :=
  VDict
    [ ("schema_version", VInt (schema_version r)); ("payload_version", VStr (payload_version r));
      ("payloads", VList (payload_document <$> payloads r));
      ("broker_protocol", VStr (broker_protocol r));
      ("system_bus_interface", VStr (system_bus_interface r));
      ("system_bus_method", VStr (system_bus_method r));
      ("agent_unit_template", VStr (agent_unit_template r)); ("launcher_path", VStr (launcher_path r)) ].

(** The bytes of a document and its newline. *)
Definition json_bytes (enc : ascii → string) (sorted : bool) (document : pyval) : string :=
  utf8_encode (dumps_with enc sorted document +:+ String (char_at 10) "").

Definition encode_control_release_v2 (r : ControlReleaseSpecV2) : string :=
  json_bytes json_char false (_canonical_document r).

Definition field_of (k : string) (d : list (string * pyval)) : pyval := default VNone (dict_get k d).

(** A mapping with exactly these keys. *)
Definition exact_dict (keys : list string) (v : pyval) : option (list (string * pyval)) :=
  match v with VDict d => if keys_exactly d keys then Some d else None | _ => None end.

Definition payload_of (v : pyval) : result ReleasePayloadDigestV2 :=
  match exact_dict _PAYLOAD_KEYS v with
  | Some d => ReleasePayloadDigestV2_new (field_of "role" d) (field_of "sha256" d)
  | None => _invalid
  end.

Definition release_of (v : pyval) (expected_payload_version : string) : result ControlReleaseSpecV2 :=
  match exact_dict _TOP_LEVEL_KEYS v with
  | None => _invalid
  | Some d =>
      if negb (py_eq_str (field_of "payload_version" d) expected_payload_version) then _invalid
      else match field_of "payloads" d with
      | VList raw =>
          payloads ← mapM_result payload_of raw;
          ControlReleaseSpecV2_new (field_of "schema_version" d) (field_of "payload_version" d) payloads
            (field_of "broker_protocol" d) (field_of "system_bus_interface" d)
            (field_of "system_bus_method" d) (field_of "agent_unit_template" d)
            (field_of "launcher_path" d)
      | _ => _invalid
      end
  end.

(** The hook of the reader: a member written twice is invalid. *)
Definition _json_object (pairs : list (string * pyval)) : result (list (string * pyval)) :=
  match _unique_json_object pairs with Ok d => Ok d | Err _ => _invalid end.
Definition _reject_constant (text : string) (v : pyval) : result pyval := _invalid.

Definition decode_control_release_v2 (raw : string) (expected_payload_version : pyval)
  : result ControlReleaseSpecV2 :=
  expected ← _validate_utf8_text expected_payload_version;
  match utf8_decode raw with
  | None => _invalid
  | Some text =>
      match hooked_loads _json_object _reject_constant text with
      | Err _ => _invalid
      | Ok document =>
          r ← release_of document expected;
          if bool_decide (encode_control_release_v2 r = raw) then Ok r else _invalid
      end
  end.

(** ** Round trip *)

Lemma utf8_two_bytes c :
  (ord c <? 128) = false →
  let hi := char_at (192 + ord c / 64) in
  let lo := char_at (128 + ord c mod 64) in
  (ord hi <? 128) = false ∧ (ord hi =? 194) || (ord hi =? 195) = true
  ∧ (128 <=? ord lo) && (ord lo <? 192) = true
  ∧ char_at ((ord hi - 192) * 64 + (ord lo - 128)) = c.
Proof. destruct c as [[] [] [] [] [] [] [] []]; vm_compute; intros [=]; repeat split. Qed.

Lemma utf8_round_trip s : utf8_decode (utf8_encode s) = Some s.
Proof.
  induction s as [|c s IH]; [done|]. cbn [utf8_encode].
  destruct (ord c <? 128) eqn:Hc; cbn [utf8_decode].
  - rewrite Hc. by rewrite IH.
  - destruct (utf8_two_bytes c Hc) as (H1 & H2 & H3 & H4). rewrite H1, H2, H3, H4. by rewrite IH.
Qed.

Lemma json_object_keeps d : NoDup d.*1 → _json_object d = Ok d.
Proof. intros H. unfold _json_object. by rewrite unique_json_object_keeps. Qed.

(** A document is read back from its bytes, whatever the hooks that keep
    distinct members. *)
Lemma json_bytes_loads enc sorted pairs_hook constant_hook v :
  (∀ c t, scanstring (enc c +:+ t) = cons_char c (scanstring t)) →
  (∀ d, NoDup d.*1 → pairs_hook d = Ok d) → jsonable v →
  ∃ text, utf8_decode (json_bytes enc sorted v) = Some text
    ∧ hooked_loads pairs_hook constant_hook text = Ok (canonical_with sorted v).
Proof.
  intros He Hp Hj. eexists. split; [apply utf8_round_trip|]. by apply hooked_loads_dumps.
Qed.

(** The values the constructors build. *)
Definition release_wf (r : ControlReleaseSpecV2) : Prop :=
  schema_version r = 2 ∧ utf8_text_ok (payload_version r) = true
  ∧ role <$> payloads r = _PAYLOAD_ROLES ∧ Forall (λ p, _HEX64 (sha256 p) = true) (payloads r)
  ∧ broker_protocol r = _BROKER_PROTOCOL ∧ system_bus_interface r = _SYSTEM_BUS_INTERFACE
  ∧ system_bus_method r = _SYSTEM_BUS_METHOD ∧ agent_unit_template r = _AGENT_UNIT_TEMPLATE
  ∧ launcher_path r = _LAUNCHER_PATH.

Lemma payload_document_back p :
  role p ∈ _PAYLOAD_ROLES → _HEX64 (sha256 p) = true →
  payload_of (canonical_with false (payload_document p)) = Ok p.
Proof.
  intros Hr Hs. destruct p as [r h]. cbn in Hr, Hs.
  change (ReleasePayloadDigestV2_new (VStr r) (VStr h) = Ok {| role := r; sha256 := h |}).
  unfold ReleasePayloadDigestV2_new. rewrite bool_decide_eq_true_2 by done. by rewrite Hs.
Qed.

Lemma release_of_document r :
  release_wf r → release_of (canonical_with false (_canonical_document r)) (payload_version r) = Ok r.
Proof.
  intros (Hs & Hv & Hroles & Hsha & H1 & H2 & H3 & H4 & H5).
  unfold release_of, _canonical_document. cbn [canonical_with ordered fmap list_fmap fst snd].
  match goal with |- context [exact_dict _ (VDict ?d)] =>
    change (exact_dict _TOP_LEVEL_KEYS (VDict d)) with (Some d); set (D := d) end.
  cbv iota. change (field_of "payload_version" D) with (VStr (payload_version r)).
  change (field_of "payloads" D) with (VList (canonical_with false <$> (payload_document <$> payloads r))).
  assert (py_eq_str (VStr (payload_version r)) (payload_version r) = true) as -> by by apply bool_decide_eq_true_2.
  cbn [negb].
  assert (mapM_result payload_of (canonical_with false <$> (payload_document <$> payloads r)) = Ok (payloads r))
    as ->.
  { rewrite <-list_fmap_compose. apply mapM_result_Ok_Forall2.
    assert (Forall (λ p, role p ∈ _PAYLOAD_ROLES) (payloads r)) as Hin.
    { apply Forall_forall. intros p Hp. rewrite <-Hroles. by apply list_elem_of_fmap_2. }
    clear Hroles. revert Hsha Hin. induction (payloads r) as [|p l IH]; [by constructor|].
    intros [? ?]%Forall_cons [? ?]%Forall_cons. constructor; [by apply payload_document_back|by apply IH]. }
  cbn [mbind result_bind]. unfold ControlReleaseSpecV2_new.
  change (field_of "schema_version" D) with (VInt (schema_version r)).
  change (field_of "broker_protocol" D) with (VStr (broker_protocol r)).
  change (field_of "system_bus_interface" D) with (VStr (system_bus_interface r)).
  change (field_of "system_bus_method" D) with (VStr (system_bus_method r)).
  change (field_of "agent_unit_template" D) with (VStr (agent_unit_template r)).
  change (field_of "launcher_path" D) with (VStr (launcher_path r)).
  rewrite Hs, H1, H2, H3, H4, H5. cbn [_validate_utf8_text]. rewrite Hv.
  cbn [mbind result_bind]. rewrite bool_decide_eq_true_2 by done.
  cbn [mbind result_bind]. destruct r. cbn in *. by subst.
Qed.

Lemma release_jsonable r : release_wf r → jsonable (_canonical_document r).
Proof.
  intros (Hs & _). unfold _canonical_document. rewrite Hs. cbn. split; [nodup_keys|].
  split_and!; try done. rewrite foldr_and_Forall. apply Forall_fmap, Forall_true.
  intros p. cbn. split; [nodup_keys|done].
Qed.

(** A release is read back from its bytes for its own payload version. *)
Lemma control_release_round_trip r :
  release_wf r → decode_control_release_v2 (encode_control_release_v2 r) (VStr (payload_version r)) = Ok r.
Proof.
  intros Hwf. pose proof (release_jsonable r Hwf) as Hj. unfold decode_control_release_v2.
  assert (utf8_text_ok (payload_version r) = true) as Hv by apply Hwf. cbn [_validate_utf8_text].
  rewrite Hv. cbn [mbind result_bind].
  destruct (json_bytes_loads json_char false _json_object _reject_constant _ scanstring_char json_object_keeps Hj)
    as (text & Ht & Hl).
  unfold encode_control_release_v2 at 1. rewrite Ht, Hl, release_of_document by done.
  cbn [mbind result_bind]. by rewrite bool_decide_eq_true_2.
Qed.

Lemma release_new_wf v pv ps a b c d e r :
  ControlReleaseSpecV2_new v pv ps a b c d e = Ok r →
  Forall (λ p, _HEX64 (sha256 p) = true) ps → release_wf r.
Proof.
  unfold ControlReleaseSpecV2_new, _validate_fixed_text. intros H Hsha.
  apply bind_Ok in H as (? & _ & H). apply bind_Ok in H as (t & Ht & H).
  case_bool_decide; [|done]. cbn [mbind result_bind] in H.
  repeat match goal with H : context [if py_eq_str ?x ?y then _ else _] |- _ =>
    destruct (py_eq_str x y); [|done]; cbn [mbind result_bind] in H end.
  injection H as <-. unfold release_wf. cbn. split_and!; try done.
  unfold _validate_utf8_text in Ht. destruct pv; try done.
  destruct (utf8_text_ok _) eqn:Hu; [|done]. by injection Ht as <-.
Qed.

(** A value the decoder returns is well formed, and is the only one with its
    bytes. *)
Lemma decode_release_Ok raw expected r :
  decode_control_release_v2 raw expected = Ok r → release_wf r ∧ encode_control_release_v2 r = raw.
Proof.
  unfold decode_control_release_v2. intros H. apply bind_Ok in H as (e & _ & H).
  destruct (utf8_decode raw) as [text|]; [|done]. destruct (hooked_loads _ _ text) as [v|]; [|done].
  apply bind_Ok in H as (r' & Hr & H). case_bool_decide as He; [|done]. injection H as ->.
  split; [|done]. unfold release_of in Hr. destruct (exact_dict _ v) as [d|]; [|done].
  destruct (negb _); [done|]. destruct (field_of "payloads" d) as [| | | | |raw'|]; try done.
  apply bind_Ok in Hr as (ps & Hps & Hr). eapply release_new_wf; [exact Hr|].
  apply mapM_result_Ok_Forall2 in Hps. clear -Hps.
  induction Hps as [|v p l ps Hp _ IH]; constructor; [|done].
  unfold payload_of, ReleasePayloadDigestV2_new in Hp. destruct (exact_dict _ v) as [d'|]; [|done].
  destruct (field_of "role" d'), (field_of "sha256" d'); try done.
  destruct (_ && _) eqn:Hc; [|done]. injection Hp as <-. by apply andb_true_iff in Hc as [_ Hc].
Qed.

(** ** Identities *)

Definition _nonempty_text (v : pyval) (f : string) : result string :=
  match v with
  | VStr s => if bool_decide (py_strip s = "") then Err (IdentityValidationError (f +:+ " must be non-empty text"))
              else Ok s
  | _ => Err (IdentityValidationError (f +:+ " must be non-empty text"))
  end.

Definition identity_error {A} (message : string) : result A := Err (IdentityValidationError message).

Definition _bounded_integer (v : pyval) (f : string) (low : Z) : result Z :=
  match v with
  | VInt z => if (low <=? z) && (z <=? MAX_CHPB_GENERATION) then Ok z
              else identity_error (f +:+ " must be an integer in range")
  | _ => identity_error (f +:+ " must be an integer in range")
  end.

Definition _sha256_digest (v : pyval) (f : string) : result string :=
  match v with
  | VStr s => if _HEX64 s then Ok s else identity_error (f +:+ " must be a lowercase SHA-256 digest")
  | _ => identity_error (f +:+ " must be a lowercase SHA-256 digest")
  end.

Definition _agent_id (v : pyval) : result string :=
  match v with
  | VStr s =>
      if negb (py_len (utf8_encode s) <=? MAX_CHPB_AGENT_ID_BYTES)
      then identity_error "agent_id is outside CHPB/2 bounds"
      else if _AGENT s then Ok s else identity_error "agent_id has invalid CHPB/2 grammar"
  | _ => identity_error "agent_id is outside CHPB/2 bounds"
  end.

Definition _mcs_pair (v : pyval) : result string :=
  match v with
  | VStr s =>
      match _MCS s with
      | Some (low, high) =>
          if (0 <=? low) && (low <? high) && (high <=? MAX_CHPB_MCS_CATEGORY) then Ok s
          else identity_error "mcs_pair categories are outside CHPB/2 bounds"
      | None => identity_error "mcs_pair has invalid CHPB/2 grammar"
      end
  | _ => identity_error "mcs_pair has invalid CHPB/2 grammar"
  end.

Record BrokerIdentity := {
  bi_agent_id : string;
  bi_manifest_generation : Z;
  bi_mcs_pair : string;
  slot_snapshot : string;
  bi_policy_generation : Z;
  bi_projection_digest : string;
  executable_fingerprint : string;
  bi_fencing_epoch : Z;
}.

Definition BrokerIdentity_new (agent_id manifest_generation mcs_pair slot_snapshot policy_generation
  projection_digest executable_fingerprint fencing_epoch : pyval) : result BrokerIdentity :=
  agent_id ← _agent_id agent_id;
  manifest_generation ← _bounded_integer manifest_generation "manifest_generation" 1;
  mcs_pair ← _mcs_pair mcs_pair;
  slot_snapshot ← _nonempty_text slot_snapshot "slot_snapshot";
  policy_generation ← _bounded_integer policy_generation "policy_generation" 1;
  projection_digest ← _sha256_digest projection_digest "projection_digest";
  executable_fingerprint ← _sha256_digest executable_fingerprint "executable_fingerprint";
  fencing_epoch ← _bounded_integer fencing_epoch "fencing_epoch" 0;
  Ok {| bi_agent_id := agent_id; bi_manifest_generation := manifest_generation; bi_mcs_pair := mcs_pair;
        slot_snapshot := slot_snapshot; bi_policy_generation := policy_generation;
        bi_projection_digest := projection_digest; executable_fingerprint := executable_fingerprint;
        bi_fencing_epoch := fencing_epoch |}.

(** The constructor run again on an identity's own fields. *)
Definition identity_again (i : BrokerIdentity) : result BrokerIdentity :=
  BrokerIdentity_new (VStr (bi_agent_id i)) (VInt (bi_manifest_generation i)) (VStr (bi_mcs_pair i))
    (VStr (slot_snapshot i)) (VInt (bi_policy_generation i)) (VStr (bi_projection_digest i))
    (VStr (executable_fingerprint i)) (VInt (bi_fencing_epoch i)).

Lemma identity_new_again a b c d e f g h i :
  BrokerIdentity_new a b c d e f g h = Ok i →
  a = VStr (bi_agent_id i) ∧ b = VInt (bi_manifest_generation i) ∧ c = VStr (bi_mcs_pair i)
  ∧ d = VStr (slot_snapshot i) ∧ e = VInt (bi_policy_generation i) ∧ f = VStr (bi_projection_digest i)
  ∧ g = VStr (executable_fingerprint i) ∧ h = VInt (bi_fencing_epoch i) ∧ identity_again i = Ok i.
Proof.
  intros H. pose proof H as H0. unfold BrokerIdentity_new in H. inv_result.
  assert (∀ v t, _agent_id v = Ok t → v = VStr t) as Ha.
  { intros v t ?; destruct v; unfold _agent_id in *; repeat case_match; by simplify_eq/=. }
  assert (∀ v f l z, _bounded_integer v f l = Ok z → v = VInt z) as Hb.
  { intros v ? ? z ?; destruct v; unfold _bounded_integer in *; repeat case_match; by simplify_eq/=. }
  assert (∀ v t, _mcs_pair v = Ok t → v = VStr t) as Hm.
  { intros v t ?; destruct v; unfold _mcs_pair in *; repeat case_match; by simplify_eq/=. }
  assert (∀ v f t, _nonempty_text v f = Ok t → v = VStr t) as Hn.
  { intros v ? t ?; destruct v; unfold _nonempty_text in *; repeat case_match; by simplify_eq/=. }
  assert (∀ v f t, _sha256_digest v f = Ok t → v = VStr t) as Hd.
  { intros v ? t ?; destruct v; unfold _sha256_digest in *; repeat case_match; by simplify_eq/=. }
  apply Ha in H1. apply Hb in H2, H5, H8. apply Hm in H3. apply Hn in H4. apply Hd in H6, H7. by subst.
Qed.

Definition identity_wf (i : BrokerIdentity) : Prop := identity_again i = Ok i.
