(* ===== verification/BrokerCodec.v ===== *)
(** * The home broker protocol: messages

    [src/src/the_hive/fleet_home_broker_protocol.py], lines 243 to 386, 573 to
    1291: the messages of CHPB/2, their validation, their canonical bytes and
    the decoder.  The fields of a message hold any value until it is validated;
    a field the decoder always turns into an enumeration, a release or an
    identity is typed by it.  Texts are texts up to U+00FF. *)

From stdpp Require Import pretty.
From S2P Require Import Prelude Order DynamicPool Json JsonText StrictJson PyEq BrokerTypes BrokerRelease.
#[local] Open Scope Z_scope.

(** ** Messages *)

(** The fields the six requests share. *)
Record RequestHead := {
  rh_protocol : pyval;
  rh_kind : ChpbMessageKind;
  rh_request_id : pyval;
  rh_transaction_id : pyval;
  rh_expected : BindingExpectation;
}.

Record BrokerReply := {
  rp_protocol : pyval;
  rp_kind : ChpbMessageKind;
  rp_request_id : pyval;
  rp_result : BrokerResultCode;
  rp_transaction : option TransactionStatus;
  rp_attestation : option HomeAttestation;
}.

Record AgentStartExecutablePin := { ep_path : pyval; ep_fingerprint : pyval }.

(** The pairs of [values]. *)
Definition AgentStartEnvironmentProjection : Type := list (string * pyval).

Record AgentStartEnvelope := {
  en_protocol : pyval;
  en_kind : ChpbMessageKind;
  en_request_id : pyval;
  en_release : ControlReleaseSpecV2;
  en_release_payload_version : pyval;
  en_snapshot_generation : pyval;
  en_principal : PrincipalBinding;
  en_expected : BindingExpectation;
  en_unit_name : pyval;
  en_identity : BrokerIdentity;
  en_executable : AgentStartExecutablePin;
  en_environment : AgentStartEnvironmentProjection;
  en_attestation : HomeAttestation;
}.

Inductive ChpbMessage :=
  | AttestHomeRequest (head : RequestHead)
  | QueryTransactionRequest (head : RequestHead)
  | GetTerminalResultRequest (head : RequestHead)
  | ProvisionHomeRequest (head : RequestHead) (binding : TransactionBinding)
  | ReplaceHomeRequest (head : RequestHead) (binding : TransactionBinding)
  | DeprovisionHomeRequest (head : RequestHead) (binding : TransactionBinding)
  | Reply (reply : BrokerReply)
  | AgentStartClaim (protocol : pyval) (kind : ChpbMessageKind) (request_id : pyval)
  | Envelope (envelope : AgentStartEnvelope).

(** ** Validation *)

Definition _AGENT_START_ENVIRONMENT : AgentStartEnvironmentProjection :=
  [ ("CODEX_HOME", VStr CANONICAL_AGENT_HOME); ("GEMINI_CLI_HOME", VStr CANONICAL_AGENT_HOME);
    ("HOME", VStr CANONICAL_AGENT_HOME) ].

(** [c[0-9]{1,4}]. *)
Definition short_category (s : string) : bool :=
  (1 <=? py_len s) && (py_len s <=? 4) && string_forallb is_digit_char s.

Definition agent_unit_name_for_mcs (mcs_pair : pyval) : result string :=
  '(low, high) ← _mcs mcs_pair;
  _ ← check (short_category (pretty low) && short_category (pretty high)) INVALID_BINDING;
  Ok ("the-hive-agent@c" +:+ (pretty low +:+ ("\x2cc" +:+ (pretty high +:+ ".service")))).

(** [if type(value) is not str: _fail(INVALID_TYPE)]; [!= CHPB_PROTOCOL]. *)
Definition validate_protocol (v : pyval) : result () :=
  match v with
  | VStr s => check (bool_decide (s = CHPB_PROTOCOL)) UNSUPPORTED_PROTOCOL
  | _ => _fail INVALID_TYPE
  end.

Definition _validate_identity (i : BrokerIdentity) : result () :=
  match identity_again i with Ok _ => Ok () | Err _ => _fail INVALID_BINDING end.

(** [parts[-3:-1]]. *)
Definition last_but_one_pair (parts : list string) : list string :=
  let n := length parts in take (n - 1 - (n - 3)) (drop (n - 3) parts).

Definition _validate_executable_pin (p : AgentStartExecutablePin) : result () :=
  match ep_path p with
  | VStr path =>
      _ ← check (startswith "/" path && bool_decide (path = py_strip path) && negb (contains "//" path)
                 && negb (bool_decide (List.last (split_on "/" path) "" = ""))
                 && negb (has_char "000" path) && negb (has_char "\" path)) INVALID_FIELD;
      let parts := split_on "/" path in
      _ ← check (forallb (λ part, negb (bool_decide (part ∈ [""; "."; ".."]))) (tail parts)) INVALID_FIELD;
      _ ← check (negb (bool_decide (last_but_one_pair parts = ["self"; "fd"]))) INVALID_FIELD;
      _ ← _digest (ep_fingerprint p) 64;
      Ok ()
  | _ => _fail INVALID_FIELD
  end.

Definition pair_eq (p q : string * pyval) : bool := bool_decide (p.1 = q.1) && py_eq p.2 q.2.

Fixpoint pairs_eq (l k : list (string * pyval)) : bool :=
  match l, k with
  | [], [] => true
  | p :: l, q :: k => pair_eq p q && pairs_eq l k
  | _, _ => false
  end.

Definition _validate_environment_projection (values : AgentStartEnvironmentProjection) : result () :=
  _ ← check (pairs_eq values _AGENT_START_ENVIRONMENT) INVALID_FIELD;
  check (forallb (λ p : string * pyval, match p.2 with VStr _ => true | _ => false end) values) INVALID_TYPE.

Definition _validate_agent_start_claim (protocol : pyval) (kind : ChpbMessageKind) (request_id : pyval)
  : result () :=
  _ ← validate_protocol protocol;
  _ ← check (bool_decide (kind = K_AGENT_START_CLAIM)) INVALID_FIELD;
  _ ← _digest request_id 32;
  Ok ().

(** [principal == other], field by field. *)
Definition principal_eq (p q : PrincipalBinding) : bool :=
  py_eq (pb_agent_id p) (pb_agent_id q)
  && py_eq (pb_manifest_generation p) (pb_manifest_generation q)
  && py_eq (pb_unit_generation p) (pb_unit_generation q)
  && py_eq (pb_cgroup_dev p) (pb_cgroup_dev q)
  && py_eq (pb_cgroup_ino p) (pb_cgroup_ino q)
  && py_eq (pb_invocation_id p) (pb_invocation_id q)
  && py_eq (pb_mcs_pair p) (pb_mcs_pair q)
  && py_eq (pb_fencing_epoch p) (pb_fencing_epoch q).

Definition policy_eq (p q : PolicyBinding) : bool :=
  py_eq (policy_generation p) (policy_generation q) && py_eq (projection_digest p) (projection_digest q).

Definition binding_eq (b c : TransactionBinding) : bool :=
  bool_decide (operation b = operation c) && py_eq (transaction_id b) (transaction_id c)
  && py_eq (store_uuid b) (store_uuid c) && principal_eq (principal b) (principal c)
  && policy_eq (policy b) (policy c).

#[export] Instance ReleasePayloadDigestV2_eq_dec : EqDecision ReleasePayloadDigestV2.
Proof. solve_decision. Defined.
#[export] Instance ControlReleaseSpecV2_eq_dec : EqDecision ControlReleaseSpecV2.
Proof. solve_decision. Defined.

(** The constructor run again on a release's own fields. *)
Definition release_again (r : ControlReleaseSpecV2) : result ControlReleaseSpecV2 :=
  ControlReleaseSpecV2_new (VInt (schema_version r)) (VStr (payload_version r)) (payloads r)
    (VStr (broker_protocol r)) (VStr (system_bus_interface r)) (VStr (system_bus_method r))
    (VStr (agent_unit_template r)) (VStr (launcher_path r)).

(** The principal, and the policy when there is one, are the expected ones. *)
Definition expects_principal (e : BindingExpectation) (p : PrincipalBinding) : bool :=
  py_eq (pb_agent_id p) (ex_agent_id e)
  && py_eq (pb_manifest_generation p) (ex_manifest_generation e)
  && py_eq (pb_unit_generation p) (ex_unit_generation e)
  && py_eq (pb_fencing_epoch p) (ex_fencing_epoch e).

Definition expects_policy (e : BindingExpectation) (p : PolicyBinding) : bool :=
  py_eq (policy_generation p) (ex_policy_generation e)
  && py_eq (projection_digest p) (ex_projection_digest e).

Definition identity_matches (i : BrokerIdentity) (p : PrincipalBinding) (e : BindingExpectation) : bool :=
  py_eq (VStr (bi_agent_id i)) (pb_agent_id p)
  && py_eq (VInt (bi_manifest_generation i)) (pb_manifest_generation p)
  && py_eq (VStr (bi_mcs_pair i)) (pb_mcs_pair p)
  && py_eq (VInt (bi_policy_generation i)) (ex_policy_generation e)
  && py_eq (VStr (bi_projection_digest i)) (ex_projection_digest e)
  && py_eq (VInt (bi_fencing_epoch i)) (pb_fencing_epoch p).

(** The release survives its constructor and its bytes. *)
Definition release_bound (e : AgentStartEnvelope) : result () :=
  match release ← release_again (en_release e);
        decoded ← decode_control_release_v2 (encode_control_release_v2 release)
                    (en_release_payload_version e);
        Ok (release, decoded) with
  | Err _ => _fail INVALID_BINDING
  | Ok (release, decoded) =>
      check (bool_decide (release = en_release e) && bool_decide (decoded = en_release e)) INVALID_BINDING
  end.

Definition _validate_agent_start_envelope (e : AgentStartEnvelope) : result () :=
  _ ← validate_protocol (en_protocol e);
  _ ← check (bool_decide (en_kind e = K_AGENT_START_ENVELOPE)) INVALID_FIELD;
  _ ← _digest (en_request_id e) 32;
  _ ← match en_release_payload_version e with VStr _ => Ok () | _ => _fail INVALID_TYPE end;
  _ ← release_bound e;
  _ ← _integer (en_snapshot_generation e) 1 MAX_CHPB_GENERATION;
  _ ← validate_principal_binding (en_principal e);
  _ ← _validate_expectation (en_expected e);
  _ ← check (expects_principal (en_expected e) (en_principal e)) INVALID_BINDING;
  _ ← _validate_identity (en_identity e);
  _ ← check (identity_matches (en_identity e) (en_principal e) (en_expected e)) INVALID_BINDING;
  unit ← agent_unit_name_for_mcs (pb_mcs_pair (en_principal e));
  _ ← check (py_eq_str (en_unit_name e) unit) INVALID_BINDING;
  _ ← _validate_executable_pin (en_executable e);
  _ ← check (py_eq (ep_path (en_executable e)) (VStr (launcher_path (en_release e)))
             && py_eq (ep_fingerprint (en_executable e)) (VStr (executable_fingerprint (en_identity e))))
        INVALID_BINDING;
  _ ← _validate_environment_projection (en_environment e);
  _ ← _validate_attestation (en_attestation e);
  let attested := ha_binding (en_attestation e) in
  check (principal_eq (principal attested) (en_principal e)
         && expects_policy (en_expected e) (policy attested)
         && py_eq (ha_mcs_pair (en_attestation e)) (pb_mcs_pair (en_principal e))) INVALID_BINDING.

(** The operation a mutating kind carries out. *)
Definition kind_operation (kind : ChpbMessageKind) : option ChpbTransactionOperation :=
  match kind with
  | K_PROVISION_HOME => Some OP_PROVISION
  | K_REPLACE_HOME => Some OP_REPLACE
  | K_DEPROVISION_HOME => Some OP_DEPROVISION
  | _ => None
  end.

Definition _validate_request (h : RequestHead) (b : option TransactionBinding) (kind : ChpbMessageKind)
  : result () :=
  _ ← validate_protocol (rh_protocol h);
  _ ← check (bool_decide (rh_kind h = kind)) INVALID_FIELD;
  _ ← _digest (rh_request_id h) 32;
  _ ← _digest (rh_transaction_id h) 32;
  _ ← _validate_expectation (rh_expected h);
  match b with
  | None => Ok ()
  | Some b =>
      _ ← validate_transaction_binding b;
      _ ← check (match kind_operation kind with
                 | Some op => bool_decide (operation b = op)
                 | None => true
                 end) INVALID_BINDING;
      _ ← check (py_eq (transaction_id b) (rh_transaction_id h)) INVALID_BINDING;
      check (expects_principal (rh_expected h) (principal b) && expects_policy (rh_expected h) (policy b))
        INVALID_BINDING
  end.

Definition validate_reply (r : BrokerReply) : result () :=
  _ ← check (py_eq_str (rp_protocol r) CHPB_PROTOCOL) UNSUPPORTED_PROTOCOL;
  _ ← check (bool_decide (rp_kind r = K_REPLY)) INVALID_FIELD;
  _ ← _digest (rp_request_id r) 32;
  _ ← match rp_transaction r with Some t => validate_transaction_status t | None => Ok () end;
  _ ← match rp_attestation r with Some a => _validate_attestation a | None => Ok () end;
  match rp_result r, rp_transaction r, rp_attestation r with
  | R_OK, Some t, Some a =>
      _ ← check (bool_decide (checkpoint t = C_COMMITTED)) INVALID_FIELD;
      check (binding_eq (ha_binding a) (binding t)) INVALID_BINDING
  | R_PENDING, Some t, None => check (bool_decide (terminal_result t = None)) INVALID_FIELD
  | (R_COMMITTED | R_ROLLED_BACK | R_BLOCKED_DRIFT) as result, Some t, None =>
      check (bool_decide (terminal_result t = Some result)) INVALID_FIELD
  | (R_OK | R_PENDING | R_COMMITTED | R_ROLLED_BACK | R_BLOCKED_DRIFT), _, _ => _fail INVALID_FIELD
  | _, None, None => Ok ()
  | _, _, _ => _fail INVALID_FIELD
  end.

Definition validate_chpb_message (m : ChpbMessage) : result () :=
  match m with
  | AttestHomeRequest h => _validate_request h None K_ATTEST_HOME
  | QueryTransactionRequest h => _validate_request h None K_QUERY_TRANSACTION
  | GetTerminalResultRequest h => _validate_request h None K_GET_TERMINAL_RESULT
  | ProvisionHomeRequest h b => _validate_request h (Some b) K_PROVISION_HOME
  | ReplaceHomeRequest h b => _validate_request h (Some b) K_REPLACE_HOME
  | DeprovisionHomeRequest h b => _validate_request h (Some b) K_DEPROVISION_HOME
  | AgentStartClaim protocol kind request_id => _validate_agent_start_claim protocol kind request_id
  | Envelope e => _validate_agent_start_envelope e
  | Reply r => validate_reply r
  end.

(** ** Documents *)

Definition _principal_doc (p : PrincipalBinding) : pyval :=
  VDict [ ("agent_id", pb_agent_id p); ("cgroup_dev", pb_cgroup_dev p); ("cgroup_ino", pb_cgroup_ino p);
          ("fencing_epoch", pb_fencing_epoch p); ("invocation_id", pb_invocation_id p);
          ("manifest_generation", pb_manifest_generation p); ("mcs_pair", pb_mcs_pair p);
          ("unit_generation", pb_unit_generation p) ].

Definition _policy_doc (p : PolicyBinding) : pyval :=
  VDict [("policy_generation", policy_generation p); ("projection_digest", projection_digest p)].

Definition _binding_doc (b : TransactionBinding) : pyval :=
  VDict [ ("operation", VStr (value_of (operation b))); ("policy", _policy_doc (policy b));
          ("principal", _principal_doc (principal b)); ("store_uuid", store_uuid b);
          ("transaction_id", transaction_id b) ].

Definition _expectation_doc (e : BindingExpectation) : pyval :=
  VDict [ ("agent_id", ex_agent_id e); ("fencing_epoch", ex_fencing_epoch e);
          ("manifest_generation", ex_manifest_generation e);
          ("policy_generation", ex_policy_generation e); ("projection_digest", ex_projection_digest e);
          ("unit_generation", ex_unit_generation e) ].

Definition _directory_doc (d : DirectoryIdentity) : pyval :=
  VDict [("dev", dev d); ("ino", ino d); ("mode", dmode d)].

Definition _observation_doc (o : BrokerObservation) : pyval :=
  VDict [ ("object_state", VStr (value_of (object_state o))); ("population_index", population_index o);
          ("registry_state", VStr (value_of (registry_state o))) ].

Definition terminal_doc (t : option BrokerResultCode) : pyval :=
  match t with Some t => VStr (value_of t) | None => VNone end.

Definition _status_doc (s : TransactionStatus) : pyval :=
  VDict [ ("binding", _binding_doc (binding s)); ("b2a_phase", VStr (value_of (b2a_phase s)));
          ("checkpoint", VStr (value_of (checkpoint s))); ("observation", _observation_doc (observation s));
          ("population_total", population_total s); ("terminal_result", terminal_doc (terminal_result s)) ].

Definition _attestation_doc (a : HomeAttestation) : pyval :=
  VDict [ ("binding", _binding_doc (ha_binding a)); ("canonical_path", canonical_path a);
          ("directory", _directory_doc (directory a)); ("manifest_digest", ha_manifest_digest a);
          ("mcs_pair", ha_mcs_pair a) ].

Definition _identity_doc (i : BrokerIdentity) : pyval :=
  VDict [ ("agent_id", VStr (bi_agent_id i)); ("fencing_epoch", VInt (bi_fencing_epoch i));
          ("executable_fingerprint", VStr (executable_fingerprint i));
          ("manifest_generation", VInt (bi_manifest_generation i)); ("mcs_pair", VStr (bi_mcs_pair i));
          ("policy_generation", VInt (bi_policy_generation i));
          ("projection_digest", VStr (bi_projection_digest i)); ("slot_snapshot", VStr (slot_snapshot i)) ].

Definition _executable_doc (p : AgentStartExecutablePin) : pyval :=
  VDict [("fingerprint", ep_fingerprint p); ("path", ep_path p)].

(** [value.values[i][1]], of a validated projection. *)
Definition environment_value (values : AgentStartEnvironmentProjection) (i : nat) : pyval :=
  default VNone (snd <$> values !! i).

Definition _environment_doc (values : AgentStartEnvironmentProjection) : pyval :=
  VDict [ ("codex_home", environment_value values 0); ("gemini_cli_home", environment_value values 1);
          ("home", environment_value values 2) ].

Definition request_doc (h : RequestHead) : list (string * pyval) :=
  [ ("expected", _expectation_doc (rh_expected h)); ("kind", VStr (value_of (rh_kind h)));
    ("protocol", rh_protocol h); ("request_id", rh_request_id h);
    ("transaction_id", rh_transaction_id h) ].

(** [encode_control_release_v2(release).decode("utf-8")]. *)
Definition release_text (r : ControlReleaseSpecV2) : string :=
  default "" (utf8_decode (encode_control_release_v2 r)).

Definition _message_doc (m : ChpbMessage) : pyval :=
  match m with
  | AgentStartClaim protocol kind request_id =>
      VDict [("kind", VStr (value_of kind)); ("protocol", protocol); ("request_id", request_id)]
  | Envelope e =>
      VDict [ ("attestation", _attestation_doc (en_attestation e));
              ("environment", _environment_doc (en_environment e));
              ("executable", _executable_doc (en_executable e));
              ("expected", _expectation_doc (en_expected e)); ("identity", _identity_doc (en_identity e));
              ("kind", VStr (value_of (en_kind e))); ("principal", _principal_doc (en_principal e));
              ("protocol", en_protocol e); ("release", VStr (release_text (en_release e)));
              ("release_payload_version", en_release_payload_version e);
              ("request_id", en_request_id e); ("snapshot_generation", en_snapshot_generation e);
              ("unit_name", en_unit_name e) ]
  | AttestHomeRequest h | QueryTransactionRequest h | GetTerminalResultRequest h => VDict (request_doc h)
  | ProvisionHomeRequest h b | ReplaceHomeRequest h b | DeprovisionHomeRequest h b =>
      VDict (("binding", _binding_doc b) :: request_doc h)
  | Reply r =>
      VDict [ ("attestation", match rp_attestation r with Some a => _attestation_doc a | None => VNone end);
              ("kind", VStr (value_of (rp_kind r))); ("protocol", rp_protocol r);
              ("request_id", rp_request_id r); ("result", VStr (value_of (rp_result r)));
              ("transaction", match rp_transaction r with Some t => _status_doc t | None => VNone end) ]
  end.

(** The canonical bytes. *)
Definition message_bytes (m : ChpbMessage) : string := json_bytes json_char_raw true (_message_doc m).

Definition encode_chpb_message (m : ChpbMessage) : result string :=
  _ ← validate_chpb_message m;
  _ ← check (py_len (message_bytes m) <=? MAX_CHPB_MESSAGE_BYTES) MESSAGE_TOO_LARGE;
  Ok (message_bytes m).

(** ** The decoder *)

(** The hooks; [_DecodeFailure] is raised again with its code. *)
Definition _pairs (pairs : list (string * pyval)) : result (list (string * pyval)) :=
  match _unique_json_object pairs with Ok d => Ok d | Err _ => _fail DUPLICATE_KEY end.
Definition _constant (text : string) (v : pyval) : result pyval := _fail INVALID_FIELD.

Fixpoint _shape (depth : Z) (v : pyval) : result () :=
  match v with
  | VDict d =>
      _ ← check (negb (MAX_CHPB_NESTING_DEPTH <=? depth)) INVALID_FIELD;
      _ ← check (negb (MAX_CHPB_OBJECT_FIELDS <? Z.of_nat (length d))) INVALID_FIELD;
      foldr (λ kv rest, _ ← _shape (depth + 1) kv.2; rest) (Ok ()) d
  | VList _ | VFloat _ => _fail INVALID_TYPE
  | _ => Ok ()
  end.

Definition _keys (document : pyval) (expected : list string) : result (list (string * pyval)) :=
  match document with
  | VDict d =>
      if keys_exactly d expected then Ok d
      else _fail (if keys_within d expected then INVALID_FIELD else UNKNOWN_FIELD)
  | _ => _fail INVALID_TYPE
  end.

Definition _as_enum (E : Type) `{StrEnum E} (v : pyval) : result E :=
  match v with
  | VStr s => match of_value s with Some e => Ok e | None => _fail INVALID_FIELD end
  | _ => _fail INVALID_TYPE
  end.

Definition _principal_from (document : pyval) : result PrincipalBinding :=
  doc ← _keys document [ "agent_id"; "cgroup_dev"; "cgroup_ino"; "fencing_epoch"; "invocation_id";
                         "manifest_generation"; "mcs_pair"; "unit_generation" ];
  Ok {| pb_agent_id := field_of "agent_id" doc;
        pb_manifest_generation := field_of "manifest_generation" doc;
        pb_unit_generation := field_of "unit_generation" doc; pb_cgroup_dev := field_of "cgroup_dev" doc;
        pb_cgroup_ino := field_of "cgroup_ino" doc; pb_invocation_id := field_of "invocation_id" doc;
        pb_mcs_pair := field_of "mcs_pair" doc; pb_fencing_epoch := field_of "fencing_epoch" doc |}.

Definition _policy_from (document : pyval) : result PolicyBinding :=
  doc ← _keys document ["policy_generation"; "projection_digest"];
  Ok {| policy_generation := field_of "policy_generation" doc;
        projection_digest := field_of "projection_digest" doc |}.

Definition _binding_from (document : pyval) : result TransactionBinding :=
  doc ← _keys document ["operation"; "policy"; "principal"; "store_uuid"; "transaction_id"];
  operation ← _as_enum ChpbTransactionOperation (field_of "operation" doc);
  principal ← _principal_from (field_of "principal" doc);
  policy ← _policy_from (field_of "policy" doc);
  Ok {| operation := operation; transaction_id := field_of "transaction_id" doc;
        store_uuid := field_of "store_uuid" doc; principal := principal; policy := policy |}.

Definition _expectation_from (document : pyval) : result BindingExpectation :=
  doc ← _keys document [ "agent_id"; "fencing_epoch"; "manifest_generation"; "policy_generation";
                         "projection_digest"; "unit_generation" ];
  Ok {| ex_agent_id := field_of "agent_id" doc;
        ex_manifest_generation := field_of "manifest_generation" doc;
        ex_unit_generation := field_of "unit_generation" doc;
        ex_policy_generation := field_of "policy_generation" doc;
        ex_projection_digest := field_of "projection_digest" doc;
        ex_fencing_epoch := field_of "fencing_epoch" doc |}.

Definition _directory_from (document : pyval) : result DirectoryIdentity :=
  doc ← _keys document ["dev"; "ino"; "mode"];
  Ok {| dev := field_of "dev" doc; ino := field_of "ino" doc; dmode := field_of "mode" doc |}.

Definition _observation_from (document : pyval) : result BrokerObservation :=
  doc ← _keys document ["object_state"; "population_index"; "registry_state"];
  object_state ← _as_enum BrokerObjectState (field_of "object_state" doc);
  registry_state ← _as_enum BrokerRegistryState (field_of "registry_state" doc);
  Ok {| object_state := object_state; registry_state := registry_state;
        population_index := field_of "population_index" doc |}.

(** [None if document is None else decode(document)]. *)
Definition optional {A} (decode : pyval → result A) (v : pyval) : result (option A) :=
  match v with VNone => Ok None | v => a ← decode v; Ok (Some a) end.

Definition _status_from (document : pyval) : result TransactionStatus :=
  doc ← _keys document [ "b2a_phase"; "binding"; "checkpoint"; "observation"; "population_total";
                         "terminal_result" ];
  terminal ← optional (_as_enum BrokerResultCode) (field_of "terminal_result" doc);
  binding ← _binding_from (field_of "binding" doc);
  phase ← _as_enum B2aRecoveryPhase (field_of "b2a_phase" doc);
  checkpoint ← _as_enum BrokerCheckpoint (field_of "checkpoint" doc);
  observation ← _observation_from (field_of "observation" doc);
  Ok {| binding := binding; b2a_phase := phase; checkpoint := checkpoint; observation := observation;
        population_total := field_of "population_total" doc; terminal_result := terminal |}.

Definition _attestation_from (document : pyval) : result HomeAttestation :=
  doc ← _keys document ["binding"; "canonical_path"; "directory"; "manifest_digest"; "mcs_pair"];
  binding ← _binding_from (field_of "binding" doc);
  directory ← _directory_from (field_of "directory" doc);
  Ok {| ha_binding := binding; canonical_path := field_of "canonical_path" doc; directory := directory;
        ha_manifest_digest := field_of "manifest_digest" doc; ha_mcs_pair := field_of "mcs_pair" doc |}.

Definition _identity_from (document : pyval) : result BrokerIdentity :=
  doc ← _keys document [ "agent_id"; "executable_fingerprint"; "fencing_epoch"; "manifest_generation";
                         "mcs_pair"; "policy_generation"; "projection_digest"; "slot_snapshot" ];
  match BrokerIdentity_new (field_of "agent_id" doc) (field_of "manifest_generation" doc)
          (field_of "mcs_pair" doc) (field_of "slot_snapshot" doc) (field_of "policy_generation" doc)
          (field_of "projection_digest" doc) (field_of "executable_fingerprint" doc)
          (field_of "fencing_epoch" doc) with
  | Ok i => Ok i
  | Err _ => _fail INVALID_BINDING
  end.

Definition _executable_from (document : pyval) : result AgentStartExecutablePin :=
  doc ← _keys document ["fingerprint"; "path"];
  Ok {| ep_path := field_of "path" doc; ep_fingerprint := field_of "fingerprint" doc |}.

Definition _environment_from (document : pyval) : result AgentStartEnvironmentProjection :=
  doc ← _keys document ["codex_home"; "gemini_cli_home"; "home"];
  Ok [ ("CODEX_HOME", field_of "codex_home" doc); ("GEMINI_CLI_HOME", field_of "gemini_cli_home" doc);
       ("HOME", field_of "home" doc) ].

Definition REQUEST_KEYS : list string := ["expected"; "kind"; "protocol"; "request_id"; "transaction_id"].

(** The fields of [klass(doc["protocol"], kind, ...)]. *)
Definition head_from (kind : ChpbMessageKind) (doc : list (string * pyval)) : result RequestHead :=
  expected ← _expectation_from (field_of "expected" doc);
  Ok {| rh_protocol := field_of "protocol" doc; rh_kind := kind;
        rh_request_id := field_of "request_id" doc;
        rh_transaction_id := field_of "transaction_id" doc; rh_expected := expected |}.

Definition query_from (klass : RequestHead → ChpbMessage) (kind : ChpbMessageKind) (document : pyval)
  : result ChpbMessage :=
  doc ← _keys document REQUEST_KEYS;
  head ← head_from kind doc;
  Ok (klass head).

Definition mutation_from (klass : RequestHead → TransactionBinding → ChpbMessage) (kind : ChpbMessageKind)
  (document : pyval) : result ChpbMessage :=
  doc ← _keys document ("binding" :: REQUEST_KEYS);
  head ← head_from kind doc;
  binding ← _binding_from (field_of "binding" doc);
  Ok (klass head binding).

Definition reply_from (document : pyval) : result ChpbMessage :=
  doc ← _keys document ["attestation"; "kind"; "protocol"; "request_id"; "result"; "transaction"];
  transaction ← optional _status_from (field_of "transaction" doc);
  attestation ← optional _attestation_from (field_of "attestation" doc);
  result ← _as_enum BrokerResultCode (field_of "result" doc);
  Ok (Reply {| rp_protocol := field_of "protocol" doc; rp_kind := K_REPLY;
               rp_request_id := field_of "request_id" doc; rp_result := result;
               rp_transaction := transaction; rp_attestation := attestation |}).

Definition envelope_from (document : pyval) : result ChpbMessage :=
  doc ← _keys document
    [ "attestation"; "environment"; "executable"; "expected"; "identity"; "kind"; "principal"; "protocol";
      "release"; "release_payload_version"; "request_id"; "snapshot_generation"; "unit_name" ];
  release ← match field_of "release" doc with
            | VStr text =>
                match decode_control_release_v2 (utf8_encode text) (field_of "release_payload_version" doc) with
                | Ok release => Ok release
                | Err _ => _fail INVALID_BINDING
                end
            | _ => _fail INVALID_TYPE
            end;
  principal ← _principal_from (field_of "principal" doc);
  expected ← _expectation_from (field_of "expected" doc);
  identity ← _identity_from (field_of "identity" doc);
  executable ← _executable_from (field_of "executable" doc);
  environment ← _environment_from (field_of "environment" doc);
  attestation ← _attestation_from (field_of "attestation" doc);
  Ok (Envelope {| en_protocol := field_of "protocol" doc; en_kind := K_AGENT_START_ENVELOPE;
                  en_request_id := field_of "request_id" doc; en_release := release;
                  en_release_payload_version := field_of "release_payload_version" doc;
                  en_snapshot_generation := field_of "snapshot_generation" doc;
                  en_principal := principal; en_expected := expected;
                  en_unit_name := field_of "unit_name" doc; en_identity := identity;
                  en_executable := executable; en_environment := environment;
                  en_attestation := attestation |}).

Definition _message_from (document : pyval) : result ChpbMessage :=
  match document with
  | VDict d =>
      kind ← _as_enum ChpbMessageKind (field_of "kind" d);
      match kind with
      | K_REPLY => reply_from document
      | K_AGENT_START_CLAIM =>
          doc ← _keys document ["kind"; "protocol"; "request_id"];
          Ok (AgentStartClaim (field_of "protocol" doc) kind (field_of "request_id" doc))
      | K_AGENT_START_ENVELOPE => envelope_from document
      | K_ATTEST_HOME => query_from AttestHomeRequest kind document
      | K_QUERY_TRANSACTION => query_from QueryTransactionRequest kind document
      | K_GET_TERMINAL_RESULT => query_from GetTerminalResultRequest kind document
      | K_PROVISION_HOME => mutation_from ProvisionHomeRequest kind document
      | K_REPLACE_HOME => mutation_from ReplaceHomeRequest kind document
      | K_DEPROVISION_HOME => mutation_from DeprovisionHomeRequest kind document
      end
  | _ => _fail INVALID_TYPE
  end.

(** [except (json.JSONDecodeError, UnicodeError)]: an integer with too many
    digits is another [ValueError] and is not caught. *)
Definition malformed (e : exn) : bool :=
  match e with JSONDecodeError _ | UnicodeError _ => true | _ => false end.

(** [raw] is a byte string.  The text of the bytes is UTF-8 up to U+00FF; a
    text with another character, the byte order mark included, counts as
    undecodable. *)
Definition decode_chpb_message (raw : string) : result ChpbMessage :=
  _ ← check (py_len raw <=? MAX_CHPB_MESSAGE_BYTES) MESSAGE_TOO_LARGE;
  _ ← check (1 <=? py_len raw) INVALID_FIELD;
  text ← match utf8_decode raw with Some text => Ok text | None => _fail INVALID_UTF8 end;
  document ← reraise malformed (λ _, ChpbValidationError INVALID_FIELD) (hooked_loads _pairs _constant text);
  _ ← _shape 0 document;
  message ← _message_from document;
  _ ← validate_chpb_message message;
  again ← encode_chpb_message message;
  _ ← check (bool_decide (again = raw)) NON_CANONICAL;
  Ok message.

(** ** Documents read back *)

(** The values of the fields of a valid message. *)
Definition leaf (v : pyval) : Prop :=
  match v with
  | VNone | VStr _ => True
  | VInt z => Z.abs z < INT_BOUND
  | _ => False
  end.

Lemma leaf_canonical v : leaf v → canonical_with true v = v.
Proof. by destruct v. Qed.

Lemma string_Ok v p m s : _string v p m = Ok s → v = VStr s.
Proof. destruct v; try done. cbn. intros H. by inv_result. Qed.

Lemma integer_Ok v low high z : _integer v low high = Ok z → v = VInt z ∧ low <= z <= high.
Proof.
  destruct v; try done. cbn. destruct (_ || _) eqn:Hc; [done|]. intros [= <-].
  apply orb_false_iff in Hc as [H1%Z.ltb_ge H2%Z.ltb_ge]. done.
Qed.

Lemma string_leaf v p m s : _string v p m = Ok s → leaf v.
Proof. by intros ->%string_Ok. Qed.

Lemma digest_leaf v n s : _digest v n = Ok s → leaf v.
Proof. apply string_leaf. Qed.

Lemma mcs_leaf v lh : _mcs v = Ok lh → leaf v.
Proof. unfold _mcs. intros (t & Ht & _)%bind_Ok. by eapply string_leaf. Qed.

Lemma integer_leaf v low high z : _integer v low high = Ok z → 0 <= low → high < INT_BOUND → leaf v.
Proof. intros [-> ?]%integer_Ok ? ?. cbn. lia. Qed.

Lemma py_eq_str_Ok v s : py_eq_str v s = true → v = VStr s.
Proof. destruct v; try done. cbn. by intros ->%bool_decide_eq_true. Qed.

Lemma py_eq_VStr v s : py_eq v (VStr s) = true → v = VStr s.
Proof. destruct v; try done. cbn. by intros ->%bool_decide_eq_true. Qed.

Lemma check_Ok c code u : check c code = Ok u ↔ c = true.
Proof. apply require_Ok. Qed.

Lemma shape_dict depth d :
  _shape depth (VDict d) = Ok ()
  ↔ depth < MAX_CHPB_NESTING_DEPTH ∧ Z.of_nat (length d) <= MAX_CHPB_OBJECT_FIELDS
    ∧ Forall (λ kv, _shape (depth + 1) kv.2 = Ok ()) d.
Proof.
  cbn [_shape].
  assert (∀ d, foldr (λ kv rest, _ ← _shape (depth + 1) kv.2; rest) (Ok ()) d = Ok ()
    ↔ Forall (λ kv : string * pyval, _shape (depth + 1) kv.2 = Ok ()) d) as Hc.
  { clear d. induction d as [|kv d IH]; cbn [foldr]; [by split|]. rewrite Forall_cons, <- IH.
    destruct (_shape (depth + 1) kv.2) as [[]|]; cbn; [tauto|]. split; [done|by intros []]. }
  unfold check. destruct (Z.leb_spec MAX_CHPB_NESTING_DEPTH depth); cbn [negb require mbind result_bind].
  { split; [done|]. intros [? _]. lia. }
  destruct (Z.ltb_spec MAX_CHPB_OBJECT_FIELDS (Z.of_nat (length d))); cbn [negb require mbind result_bind].
  { split; [done|]. intros (_ & ? & _). lia. }
  rewrite Hc. tauto.
Qed.

(** A document the reader and the shape check accept. *)
Definition fits (depth : Z) (v : pyval) : Prop := jsonable v ∧ _shape depth v = Ok ().

Lemma fits_leaf depth v : leaf v → fits depth v.
Proof. by destruct v. Qed.

Lemma fits_dict depth d :
  NoDup d.*1 → depth < MAX_CHPB_NESTING_DEPTH → Z.of_nat (length d) <= MAX_CHPB_OBJECT_FIELDS →
  Forall (λ kv, fits (depth + 1) kv.2) d → fits depth (VDict d).
Proof.
  intros Hnd Hdepth Hlen Hall. split; [cbn; split; [done|]; rewrite foldr_and_Forall|apply shape_dict; split_and!; try done];
    eapply Forall_impl; try exact Hall; by intros kv [].
Qed.

Lemma shape_canonical depth v : _shape depth v = Ok () → _shape depth (canonical_with true v) = Ok ().
Proof.
  revert depth. induction v as [|b|z|lit|s|l IH|d IH] using pyval_ind; intros depth; try done.
  intros (Hdepth & Hlen & Hall)%shape_dict. change (canonical_with true (VDict d)) with (VDict (arranged true d)).
  apply shape_dict. rewrite (arranged_perm true d), length_fmap. split_and!; [done|done|].
  apply Forall_fmap. rewrite Forall_forall in *. intros kv Hin. by apply IH, Hall.
Qed.

Lemma keys_arranged d expected :
  keys_exactly d expected = true → _keys (canonical_with true (VDict d)) expected = Ok (arranged true d).
Proof.
  intros H. change (canonical_with true (VDict d)) with (VDict (arranged true d)). cbn.
  by rewrite (keys_exactly_perm _ _ _ (arranged_keys true d)), H.
Qed.

Lemma field_arranged k d : NoDup d.*1 → field_of k (arranged true d) = canonical_with true (field_of k d).
Proof. intros H. unfold field_of. rewrite arranged_get by done. by destruct (dict_get k d). Qed.

Lemma as_enum_back {E} `{LawfulEnum E} (e : E) : _as_enum E (VStr (value_of e)) = Ok e.
Proof. cbn. by rewrite of_value_of. Qed.

(** A component whose fields are leaves is read back from its document, which
    fits at its depth.  [fitting] shows the second, member by member; [reading]
    opens the first. *)
Ltac fitting :=
  apply fits_dict; [nodup_keys|unfold MAX_CHPB_NESTING_DEPTH; lia|vm_compute; discriminate|];
  repeat (apply Forall_cons; split); [..|by apply Forall_nil]; cbn [snd];
  try (apply fits_leaf; first [assumption|exact I]).

Ltac reading :=
  rewrite keys_arranged by (vm_compute; reflexivity); cbn [mbind result_bind];
  rewrite !field_arranged by nodup_keys.

Definition principal_leaves (p : PrincipalBinding) : Prop :=
  leaf (pb_agent_id p) ∧ leaf (pb_manifest_generation p) ∧ leaf (pb_unit_generation p)
  ∧ leaf (pb_cgroup_dev p) ∧ leaf (pb_cgroup_ino p) ∧ leaf (pb_invocation_id p)
  ∧ leaf (pb_mcs_pair p) ∧ leaf (pb_fencing_epoch p).

Lemma validate_principal_leaves p u : validate_principal_binding p = Ok u → principal_leaves p.
Proof.
  unfold validate_principal_binding. intros H. inv_result.
  split_and!; first [by eapply string_leaf|by eapply digest_leaf|by eapply mcs_leaf
                    |by eapply integer_leaf].
Qed.

Lemma principal_back p :
  principal_leaves p → _principal_from (canonical_with true (_principal_doc p)) = Ok p.
Proof.
  intros H. unfold principal_leaves in H. destruct_and!. unfold _principal_from, _principal_doc. reading.
  destruct p. do 2 f_equal; by apply leaf_canonical.
Qed.

Lemma principal_fits depth p : depth <= 3 → principal_leaves p → fits depth (_principal_doc p).
Proof. intros ? H. unfold principal_leaves in H. destruct_and!. unfold _principal_doc. fitting. Qed.

Definition policy_leaves (p : PolicyBinding) : Prop := leaf (policy_generation p) ∧ leaf (projection_digest p).

Definition binding_leaves (b : TransactionBinding) : Prop :=
  leaf (transaction_id b) ∧ leaf (store_uuid b) ∧ principal_leaves (principal b) ∧ policy_leaves (policy b).

Definition expectation_leaves (e : BindingExpectation) : Prop :=
  leaf (ex_agent_id e) ∧ leaf (ex_manifest_generation e) ∧ leaf (ex_unit_generation e)
  ∧ leaf (ex_policy_generation e) ∧ leaf (ex_projection_digest e) ∧ leaf (ex_fencing_epoch e).

Definition status_leaves (s : TransactionStatus) : Prop :=
  binding_leaves (binding s) ∧ leaf (population_index (observation s)) ∧ leaf (population_total s).

Definition attestation_leaves (a : HomeAttestation) : Prop :=
  binding_leaves (ha_binding a) ∧ leaf (canonical_path a) ∧ leaf (dev (directory a))
  ∧ leaf (ino (directory a)) ∧ leaf (dmode (directory a)) ∧ leaf (ha_manifest_digest a)
  ∧ leaf (ha_mcs_pair a).

Create HintDb leaves.
#[local] Hint Resolve string_leaf digest_leaf mcs_leaf validate_principal_leaves : leaves.

(** The fields a validator has accepted. *)
Ltac leaves :=
  inv_result; split_and!;
  first [by eauto with leaves|by eapply integer_leaf].

Lemma validate_binding_leaves b u : validate_transaction_binding b = Ok u → binding_leaves b.
Proof.
  unfold validate_transaction_binding, _validate_policy, binding_leaves, policy_leaves. intros H. leaves.
Qed.

Lemma validate_expectation_leaves e u : _validate_expectation e = Ok u → expectation_leaves e.
Proof. unfold _validate_expectation, expectation_leaves. intros H. leaves. Qed.
#[local] Hint Resolve validate_binding_leaves validate_expectation_leaves : leaves.

Lemma validate_status_leaves s u : validate_transaction_status s = Ok u → status_leaves s.
Proof. unfold validate_transaction_status, _validate_observation, status_leaves. intros H. leaves. Qed.

Lemma validate_attestation_leaves a u : _validate_attestation a = Ok u → attestation_leaves a.
Proof.
  unfold _validate_attestation, _validate_directory, attestation_leaves. intros H.
  inv_result. match goal with H : check (py_eq_str _ _) _ = _ |- _ => apply check_Ok, py_eq_str_Ok in H end.
  split_and!; first [by eauto with leaves|by eapply integer_leaf|by (replace (canonical_path a) with (VStr CANONICAL_AGENT_HOME))].
Qed.
#[local] Hint Resolve validate_status_leaves validate_attestation_leaves : leaves.

Lemma policy_back p : policy_leaves p → _policy_from (canonical_with true (_policy_doc p)) = Ok p.
Proof.
  intros [H1 H2]. unfold _policy_from, _policy_doc. reading.
  destruct p. do 2 f_equal; by apply leaf_canonical.
Qed.

Lemma policy_fits depth p : depth <= 3 → policy_leaves p → fits depth (_policy_doc p).
Proof. intros ? [H1 H2]. unfold _policy_doc. fitting. Qed.

(** Members that are documents themselves. *)
Ltac member k v :=
  match goal with |- context [field_of k ?d] => change (field_of k d) with v end.

Lemma binding_back b : binding_leaves b → _binding_from (canonical_with true (_binding_doc b)) = Ok b.
Proof.
  intros (H1 & H2 & H3 & H4). unfold _binding_from, _binding_doc. reading.
  member "operation" (VStr (value_of (operation b))). member "principal" (_principal_doc (principal b)).
  member "policy" (_policy_doc (policy b)). cbn [canonical_with].
  rewrite as_enum_back, principal_back, policy_back by done. cbn [mbind result_bind].
  destruct b. do 2 f_equal; by apply leaf_canonical.
Qed.

Lemma binding_fits depth b : depth <= 2 → binding_leaves b → fits depth (_binding_doc b).
Proof.
  intros ? (H1 & H2 & H3 & H4). unfold _binding_doc. fitting.
  - apply policy_fits; [lia|done].
  - apply principal_fits; [lia|done].
Qed.

Lemma expectation_back e :
  expectation_leaves e → _expectation_from (canonical_with true (_expectation_doc e)) = Ok e.
Proof.
  intros H. unfold expectation_leaves in H. destruct_and!. unfold _expectation_from, _expectation_doc. reading.
  destruct e. do 2 f_equal; by apply leaf_canonical.
Qed.

Lemma expectation_fits depth e : depth <= 3 → expectation_leaves e → fits depth (_expectation_doc e).
Proof. intros ? H. unfold expectation_leaves in H. destruct_and!. unfold _expectation_doc. fitting. Qed.

Lemma observation_back o :
  leaf (population_index o) → _observation_from (canonical_with true (_observation_doc o)) = Ok o.
Proof.
  intros H. unfold _observation_from, _observation_doc. reading.
  member "object_state" (VStr (value_of (object_state o))).
  member "registry_state" (VStr (value_of (registry_state o))). cbn [canonical_with].
  rewrite !as_enum_back. cbn [mbind result_bind]. destruct o. do 2 f_equal; by apply leaf_canonical.
Qed.

Lemma terminal_back t : optional (_as_enum BrokerResultCode) (canonical_with true (terminal_doc t)) = Ok t.
Proof. destruct t as [t|]; [|done]. cbn [terminal_doc canonical_with optional]. by rewrite as_enum_back. Qed.

Lemma status_back s : status_leaves s → _status_from (canonical_with true (_status_doc s)) = Ok s.
Proof.
  intros (H1 & H2 & H3). unfold _status_from, _status_doc. reading.
  member "terminal_result" (terminal_doc (terminal_result s)).
  member "binding" (_binding_doc (binding s)). member "b2a_phase" (VStr (value_of (b2a_phase s))).
  member "checkpoint" (VStr (value_of (checkpoint s))).
  member "observation" (_observation_doc (observation s)).
  rewrite terminal_back, binding_back, observation_back by done. cbn [canonical_with mbind result_bind].
  rewrite !as_enum_back. cbn [mbind result_bind]. destruct s. do 2 f_equal; by apply leaf_canonical.
Qed.

Lemma status_fits depth s : depth <= 1 → status_leaves s → fits depth (_status_doc s).
Proof.
  intros ? (H1 & H2 & H3). unfold _status_doc. fitting.
  - apply binding_fits; [lia|done].
  - unfold _observation_doc. fitting.
  - apply fits_leaf. by destruct (terminal_result s).
Qed.

Lemma attestation_back a :
  attestation_leaves a → _attestation_from (canonical_with true (_attestation_doc a)) = Ok a.
Proof.
  intros H. unfold attestation_leaves in H. destruct_and!. unfold _attestation_from, _attestation_doc. reading.
  member "binding" (_binding_doc (ha_binding a)). member "directory" (_directory_doc (directory a)).
  rewrite binding_back by done. cbn [mbind result_bind]. unfold _directory_from, _directory_doc. reading.
  cbn [mbind result_bind]. destruct a as [? ? [] ? ?].
  do 2 f_equal; try (by apply leaf_canonical). f_equal; by apply leaf_canonical.
Qed.

Lemma attestation_fits depth a : depth <= 1 → attestation_leaves a → fits depth (_attestation_doc a).
Proof.
  intros ? H. unfold attestation_leaves in H. destruct_and!. unfold _attestation_doc. fitting.
  - apply binding_fits; [lia|done].
  - unfold _directory_doc. fitting.
Qed.

(** ** Messages read back *)

(** What the decoder reads from the document of a message, and that the
    document passes the reader and the shape check. *)
Definition reads_back (m : ChpbMessage) : Prop :=
  fits 0 (_message_doc m) ∧ _message_from (canonical_with true (_message_doc m)) = Ok m.

(** The members of a document reach the branch of its kind. *)
Lemma message_of_kind d kind :
  NoDup d.*1 → field_of "kind" d = VStr (value_of kind) →
  _message_from (canonical_with true (VDict d)) =
    match kind with
    | K_REPLY => reply_from (canonical_with true (VDict d))
    | K_AGENT_START_CLAIM =>
        doc ← _keys (canonical_with true (VDict d)) ["kind"; "protocol"; "request_id"];
        Ok (AgentStartClaim (field_of "protocol" doc) kind (field_of "request_id" doc))
    | K_AGENT_START_ENVELOPE => envelope_from (canonical_with true (VDict d))
    | K_ATTEST_HOME => query_from AttestHomeRequest kind (canonical_with true (VDict d))
    | K_QUERY_TRANSACTION => query_from QueryTransactionRequest kind (canonical_with true (VDict d))
    | K_GET_TERMINAL_RESULT => query_from GetTerminalResultRequest kind (canonical_with true (VDict d))
    | K_PROVISION_HOME => mutation_from ProvisionHomeRequest kind (canonical_with true (VDict d))
    | K_REPLACE_HOME => mutation_from ReplaceHomeRequest kind (canonical_with true (VDict d))
    | K_DEPROVISION_HOME => mutation_from DeprovisionHomeRequest kind (canonical_with true (VDict d))
    end.
Proof.
  intros Hnd Hk. change (canonical_with true (VDict d)) with (VDict (arranged true d)).
  unfold _message_from. rewrite field_arranged, Hk by done. cbn [canonical_with].
  rewrite as_enum_back. done.
Qed.

Lemma validate_protocol_Ok v u : validate_protocol v = Ok u → v = VStr CHPB_PROTOCOL.
Proof. destruct v; try done. cbn. by intros ->%check_Ok%bool_decide_eq_true. Qed.

(** The head of a valid request. *)
Definition head_leaves (h : RequestHead) : Prop :=
  leaf (rh_protocol h) ∧ leaf (rh_request_id h) ∧ leaf (rh_transaction_id h)
  ∧ expectation_leaves (rh_expected h).

Lemma validate_head_leaves h b kind u :
  _validate_request h b kind = Ok u →
  head_leaves h ∧ rh_kind h = kind ∧ match b with Some b => binding_leaves b | None => True end.
Proof.
  unfold _validate_request, head_leaves. intros H. apply bind_Ok in H as (? & Hp%validate_protocol_Ok & H).
  apply bind_Ok in H as (? & Hk%check_Ok%bool_decide_eq_true & H). rewrite Hp.
  destruct b as [b|]; inv_result; split_and!; eauto with leaves; done.
Qed.

Lemma head_back d h :
  head_leaves h → NoDup d.*1 →
  field_of "protocol" d = rh_protocol h → field_of "request_id" d = rh_request_id h →
  field_of "transaction_id" d = rh_transaction_id h →
  field_of "expected" d = _expectation_doc (rh_expected h) →
  head_from (rh_kind h) (arranged true d) = Ok h.
Proof.
  intros (H1 & H2 & H3 & H4) Hnd E1 E2 E3 E4. unfold head_from. rewrite !field_arranged by done.
  rewrite E1, E2, E3, E4, expectation_back by done. cbn [mbind result_bind].
  rewrite !leaf_canonical by done. by destruct h.
Qed.

Lemma query_reads_back klass h :
  head_leaves h →
  fits 0 (VDict (request_doc h))
  ∧ query_from klass (rh_kind h) (canonical_with true (VDict (request_doc h))) = Ok (klass h).
Proof.
  intros Hh. pose proof Hh as (H1 & H2 & H3 & H4). split.
  - unfold request_doc. fitting. apply expectation_fits; [lia|done].
  - unfold query_from. rewrite keys_arranged by (vm_compute; reflexivity). cbn [mbind result_bind].
    rewrite head_back; [done|done|unfold request_doc; nodup_keys|done..].
Qed.

Lemma mutation_reads_back klass h b :
  head_leaves h → binding_leaves b →
  fits 0 (VDict (("binding", _binding_doc b) :: request_doc h))
  ∧ mutation_from klass (rh_kind h) (canonical_with true (VDict (("binding", _binding_doc b) :: request_doc h)))
    = Ok (klass h b).
Proof.
  intros Hh Hb. pose proof Hh as (H1 & H2 & H3 & H4). split.
  - unfold request_doc. fitting; [apply binding_fits|apply expectation_fits]; by try lia.
  - unfold mutation_from. rewrite keys_arranged by (vm_compute; reflexivity). cbn [mbind result_bind].
    rewrite head_back; [|done|unfold request_doc; nodup_keys|done..]. cbn [mbind result_bind].
    rewrite field_arranged by (unfold request_doc; nodup_keys).
    member "binding" (_binding_doc b). by rewrite binding_back.
Qed.

Lemma validate_reply_leaves r u :
  validate_reply r = Ok u →
  leaf (rp_protocol r) ∧ rp_kind r = K_REPLY ∧ leaf (rp_request_id r)
  ∧ (∀ t, rp_transaction r = Some t → status_leaves t)
  ∧ ∀ a, rp_attestation r = Some a → attestation_leaves a.
Proof.
  unfold validate_reply. intros H. apply bind_Ok in H as (? & Hp%check_Ok%py_eq_str_Ok & H).
  apply bind_Ok in H as (? & Hk%check_Ok%bool_decide_eq_true & H).
  apply bind_Ok in H as (? & Hr & H). apply bind_Ok in H as (? & Ht & H).
  apply bind_Ok in H as (? & Ha & H). rewrite Hp.
  split_and!; [done|done|by eauto with leaves| |].
  - intros t E. rewrite E in Ht. eauto with leaves.
  - intros a E. rewrite E in Ha. eauto with leaves.
Qed.

Lemma optional_status_back t :
  (∀ s, t = Some s → status_leaves s) →
  optional _status_from (canonical_with true (match t with Some s => _status_doc s | None => VNone end)) = Ok t.
Proof.
  destruct t as [s|]; [|done]. intros H. unfold optional.
  pose proof (status_back s (H s eq_refl)) as Hs. unfold _status_doc in *. cbn [canonical_with] in *.
  by rewrite Hs.
Qed.

Lemma optional_attestation_back t :
  (∀ a, t = Some a → attestation_leaves a) →
  optional _attestation_from (canonical_with true (match t with Some a => _attestation_doc a | None => VNone end))
  = Ok t.
Proof.
  destruct t as [a|]; [|done]. intros H. unfold optional.
  pose proof (attestation_back a (H a eq_refl)) as Ha. unfold _attestation_doc in *. cbn [canonical_with] in *.
  by rewrite Ha.
Qed.

Lemma reply_reads_back r u : validate_reply r = Ok u → reads_back (Reply r).
Proof.
  intros (H1 & Hk & H2 & Ht & Ha)%validate_reply_leaves. split.
  - cbn [_message_doc]. fitting.
    + destruct (rp_attestation r) as [a|]; [|by apply fits_leaf]. apply attestation_fits; [lia|auto].
    + destruct (rp_transaction r) as [t|]; [|by apply fits_leaf]. apply status_fits; [lia|auto].
  - cbn [_message_doc]. rewrite (message_of_kind _ K_REPLY); [|nodup_keys|by rewrite Hk].
    unfold reply_from. reading.
    member "transaction" (match rp_transaction r with Some t => _status_doc t | None => VNone end).
    member "attestation" (match rp_attestation r with Some a => _attestation_doc a | None => VNone end).
    member "result" (VStr (value_of (rp_result r))).
    rewrite optional_status_back, optional_attestation_back by done. cbn [canonical_with mbind result_bind].
    rewrite as_enum_back. cbn [mbind result_bind]. destruct r as [? k ? ? ? ?]. cbn in Hk. rewrite Hk.
    do 3 f_equal; by apply leaf_canonical.
Qed.

Lemma claim_reads_back protocol kind request_id u :
  _validate_agent_start_claim protocol kind request_id = Ok u →
  reads_back (AgentStartClaim protocol kind request_id).
Proof.
  unfold _validate_agent_start_claim. intros H. apply bind_Ok in H as (? & ->%validate_protocol_Ok & H).
  apply bind_Ok in H as (? & ->%check_Ok%bool_decide_eq_true & H). inv_result.
  assert (leaf request_id) by eauto with leaves. split; cbn [_message_doc]; [fitting|].
  rewrite (message_of_kind _ K_AGENT_START_CLAIM); [|nodup_keys|done]. cbv iota. reading.
  do 2 f_equal; by apply leaf_canonical.
Qed.

(** *** Envelopes *)

Lemma validate_identity_Ok i u :
  _validate_identity i = Ok u →
  identity_again i = Ok i ∧ leaf (VInt (bi_fencing_epoch i)) ∧ leaf (VInt (bi_manifest_generation i))
  ∧ leaf (VInt (bi_policy_generation i)).
Proof.
  unfold _validate_identity. destruct (identity_again i) as [j|] eqn:H; [|done]. intros _.
  pose proof (identity_new_again _ _ _ _ _ _ _ _ _ H) as (E1 & E2 & E3 & E4 & E5 & E6 & E7 & E8 & _).
  assert (i = j) as <- by (destruct i, j; cbn in *; congruence).
  split; [done|]. unfold identity_again, BrokerIdentity_new in H.
  assert (∀ z f low x, _bounded_integer (VInt z) f low = Ok x → 0 <= low → leaf (VInt z)) as Hb.
  { intros z f low x. unfold _bounded_integer. destruct (_ && _) eqn:Hc; [|done].
    apply andb_true_iff in Hc as [H1%Z.leb_le H2%Z.leb_le]. intros _ ?.
    apply (integer_leaf (VInt z) low MAX_CHPB_GENERATION z); [|done|done]. unfold _integer.
    rewrite (proj2 (Z.ltb_ge _ _)), (proj2 (Z.ltb_ge _ _)) by lia. done. }
  inv_result. split_and!; by eapply Hb.
Qed.

Lemma identity_back i u :
  _validate_identity i = Ok u →
  fits 1 (_identity_doc i) ∧ _identity_from (canonical_with true (_identity_doc i)) = Ok i.
Proof.
  intros (Hi & H1 & H2 & H3)%validate_identity_Ok. split.
  - unfold _identity_doc. fitting.
  - unfold _identity_from, _identity_doc. reading.
    change (match identity_again i with Ok i => Ok i | Err _ => _fail INVALID_BINDING end = Ok i).
    by rewrite Hi.
Qed.

Lemma validate_pin_leaves p u : _validate_executable_pin p = Ok u → leaf (ep_path p) ∧ leaf (ep_fingerprint p).
Proof.
  unfold _validate_executable_pin. destruct (ep_path p); try done. intros H. inv_result.
  split; [done|eauto with leaves].
Qed.

Lemma executable_back p :
  leaf (ep_path p) → leaf (ep_fingerprint p) →
  fits 1 (_executable_doc p) ∧ _executable_from (canonical_with true (_executable_doc p)) = Ok p.
Proof.
  intros H1 H2. unfold _executable_from, _executable_doc. split; [fitting|]. reading.
  destruct p. do 2 f_equal; by apply leaf_canonical.
Qed.

Lemma pairs_eq_VStr l k :
  Forall (λ p : string * pyval, ∃ s, p.2 = VStr s) k → pairs_eq l k = true → l = k.
Proof.
  intros Hk. revert l. induction Hk as [|[f v] k [t Ht] _ IH]; intros [|[f' v'] l]; cbn; try done.
  cbn in Ht. rewrite Ht. unfold pair_eq. cbn [fst snd].
  intros [[->%bool_decide_eq_true ->%py_eq_VStr]%andb_true_iff ->%IH]%andb_true_iff. done.
Qed.

Lemma validate_environment_Ok values u :
  _validate_environment_projection values = Ok u → values = _AGENT_START_ENVIRONMENT.
Proof.
  unfold _validate_environment_projection. intros (? & H%check_Ok & _)%bind_Ok. apply pairs_eq_VStr; [|done].
  repeat constructor; by eexists.
Qed.

Lemma release_bound_Ok e u :
  release_bound e = Ok u →
  decode_control_release_v2 (encode_control_release_v2 (en_release e)) (en_release_payload_version e)
  = Ok (en_release e).
Proof.
  unfold release_bound. destruct (release_again (en_release e)) as [r|]; [|done]. cbn [mbind result_bind].
  destruct (decode_control_release_v2 _ _) as [d|] eqn:Hd; [|done]. cbn [mbind result_bind].
  by intros [->%bool_decide_eq_true ->%bool_decide_eq_true]%check_Ok%andb_true_iff.
Qed.

Lemma release_text_bytes r : utf8_encode (release_text r) = encode_control_release_v2 r.
Proof. unfold release_text, encode_control_release_v2, json_bytes. by rewrite utf8_round_trip. Qed.

Lemma envelope_reads_back e u : _validate_agent_start_envelope e = Ok u → reads_back (Envelope e).
Proof.
  unfold _validate_agent_start_envelope. intros H.
  apply bind_Ok in H as (? & Hprotocol%validate_protocol_Ok & H).
  apply bind_Ok in H as (? & Hkind%check_Ok%bool_decide_eq_true & H).
  apply bind_Ok in H as (? & Hid & H). apply bind_Ok in H as (? & Hversion & H).
  apply bind_Ok in H as (? & Hrelease%release_bound_Ok & H). apply bind_Ok in H as (? & Hsnapshot & H).
  apply bind_Ok in H as (? & Hprincipal & H). apply bind_Ok in H as (? & Hexpected & H).
  apply bind_Ok in H as (? & _ & H). apply bind_Ok in H as (? & [Hi Hi']%identity_back & H).
  apply bind_Ok in H as (? & _ & H). apply bind_Ok in H as (unit & _ & H).
  apply bind_Ok in H as (? & Hunit%check_Ok%py_eq_str_Ok & H).
  apply bind_Ok in H as (? & [Hp1 Hp2]%validate_pin_leaves & H). apply bind_Ok in H as (? & _ & H).
  apply bind_Ok in H as (? & Henv%validate_environment_Ok & H). apply bind_Ok in H as (? & Hatt & _).
  apply validate_principal_leaves in Hprincipal. apply validate_expectation_leaves in Hexpected.
  apply validate_attestation_leaves in Hatt. pose proof (executable_back _ Hp1 Hp2) as [Hx Hx'].
  assert (leaf (en_protocol e)) by (by rewrite Hprotocol). assert (leaf (en_unit_name e)) by (by rewrite Hunit).
  assert (leaf (en_request_id e)) by eauto with leaves.
  assert (leaf (en_snapshot_generation e)) by (by eapply integer_leaf).
  assert (leaf (en_release_payload_version e)) by (by destruct (en_release_payload_version e)).
  clear Hid Hsnapshot Hversion. split; cbn [_message_doc].
  - fitting.
    + apply attestation_fits; [lia|done].
    + rewrite Henv. unfold _environment_doc. fitting.
    + done.
    + apply expectation_fits; [lia|done].
    + done.
    + apply principal_fits; [lia|done].
  - rewrite (message_of_kind _ K_AGENT_START_ENVELOPE); [|nodup_keys|by rewrite Hkind].
    unfold envelope_from. reading.
    member "release" (VStr (release_text (en_release e))).
    member "release_payload_version" (en_release_payload_version e).
    member "principal" (_principal_doc (en_principal e)). member "expected" (_expectation_doc (en_expected e)).
    member "identity" (_identity_doc (en_identity e)). member "executable" (_executable_doc (en_executable e)).
    member "environment" (_environment_doc (en_environment e)).
    member "attestation" (_attestation_doc (en_attestation e)).
    cbn [canonical_with]. rewrite release_text_bytes, (leaf_canonical (en_release_payload_version e)), Hrelease by done.
    rewrite principal_back, expectation_back, Hi', Hx' by done.
    rewrite attestation_back by done. rewrite Henv.
    change (_environment_from (canonical_with true (_environment_doc _AGENT_START_ENVIRONMENT)))
      with (Ok (A := AgentStartEnvironmentProjection) _AGENT_START_ENVIRONMENT).
    cbn [mbind result_bind]. destruct e as [? k ? ? ? ? ? ? ? ? ? ? ?]. cbn in Hkind, Henv. rewrite Hkind, Henv.
    do 3 f_equal; by apply leaf_canonical.
Qed.

Lemma message_reads_back m : validate_chpb_message m = Ok () → reads_back m.
Proof.
  assert (∀ klass h kind u, _validate_request h None kind = Ok u →
    _message_doc (klass h) = VDict (request_doc h) →
    _message_from (canonical_with true (VDict (request_doc h)))
    = query_from klass kind (canonical_with true (VDict (request_doc h))) → reads_back (klass h)) as Hq.
  { intros klass h kind u (Hh & <- & _)%validate_head_leaves Hd Hm.
    destruct (query_reads_back klass h Hh) as [Hf Hr]. unfold reads_back. rewrite Hd, Hm. done. }
  assert (∀ klass h b kind u, _validate_request h (Some b) kind = Ok u →
    let doc := VDict (("binding", _binding_doc b) :: request_doc h) in
    _message_doc (klass h b) = doc →
    _message_from (canonical_with true doc) = mutation_from klass kind (canonical_with true doc) →
    reads_back (klass h b)) as Hb.
  { intros klass h b kind u (Hh & <- & Hb)%validate_head_leaves doc Hd Hm.
    destruct (mutation_reads_back klass h b Hh Hb) as [Hf Hr]. unfold reads_back. rewrite Hd, Hm. done. }
  destruct m as [h|h|h|h b|h b|h b|r|p k i|e]; cbn [validate_chpb_message]; intros H;
    try (by eapply reply_reads_back); try (by eapply claim_reads_back); try (by eapply envelope_reads_back);
    pose proof (validate_head_leaves _ _ _ _ H) as (_ & Hk & _);
    first [apply (Hq _ h _ _ H)|apply (Hb _ h b _ _ H)]; try done;
    erewrite message_of_kind; try done; try (unfold request_doc; nodup_keys); cbn; by rewrite Hk.
Qed.

Lemma pairs_keeps d : NoDup d.*1 → _pairs d = Ok d.
Proof. intros H. unfold _pairs. by rewrite unique_json_object_keeps. Qed.

Lemma utf8_encode_len s : py_len s <= py_len (utf8_encode s).
Proof.
  unfold py_len. induction s as [|c s IH]; [done|]. cbn [utf8_encode].
  destruct (ord c <? 128); cbn [String.length]; lia.
Qed.

Lemma json_bytes_len enc sorted v : 1 <= py_len (json_bytes enc sorted v).
Proof.
  unfold json_bytes. etrans; [|apply utf8_encode_len]. unfold py_len. rewrite length_append. cbn. lia.
Qed.

Lemma codec_inverse raw m : decode_chpb_message raw = Ok m ↔ encode_chpb_message m = Ok raw.
Proof.
  split.
  - unfold decode_chpb_message. intros H.
    do 7 (apply bind_Ok in H as (? & _ & H)). apply bind_Ok in H as (again & Ha & H).
    apply bind_Ok in H as (? & Heq%check_Ok%bool_decide_eq_true & [= ->]). by subst.
  - intros He. pose proof He as H. unfold encode_chpb_message in H.
    apply bind_Ok in H as ([] & Hv & H). apply bind_Ok in H as (? & Hlen & [= <-]).
    destruct (message_reads_back m Hv) as [[Hj Hs] Hm].
    destruct (json_bytes_loads json_char_raw true _pairs _constant _ scanstring_raw pairs_keeps Hj)
      as (text & Ht & Hl).
    unfold decode_chpb_message. fold (message_bytes m) in Ht. rewrite Hlen, Ht. cbn [mbind result_bind].
    pose proof (proj2 (Z.leb_le _ _) (json_bytes_len json_char_raw true (_message_doc m))) as Hne.
    fold (message_bytes m) in Hne. unfold check at 1. rewrite Hne.
    cbn [require mbind result_bind]. rewrite Hl. cbn [reraise mbind result_bind].
    rewrite shape_canonical, Hm by done. cbn [mbind result_bind]. rewrite Hv, He. cbn [mbind result_bind].
    unfold check. by rewrite bool_decide_eq_true_2.
Qed.

(** C17: encoding and decoding are inverse: the bytes that decode to a message are
    its encoding, and nothing else, so no message has two encodings and no two
    messages share one. *)
Theorem chpb_codec_exact raw raw' m m' :
  (decode_chpb_message raw = Ok m ↔ encode_chpb_message m = Ok raw)
  ∧ (decode_chpb_message raw = Ok m → decode_chpb_message raw' = Ok m' → raw = raw' ↔ m = m').
Proof.
  split; [apply codec_inverse|]. intros H H'. split; [by intros ->; congruence|].
  intros ->. apply codec_inverse in H, H'. congruence.
Qed.

(** ** Samples *)

(** [s * n]. *)
Fixpoint times (n : nat) (s : string) : string :=
  match n with O => "" | S n => s +:+ times n s end.

Definition sample_principal : PrincipalBinding :=
  {| pb_agent_id := VStr "planner"; pb_manifest_generation := VInt 3; pb_unit_generation := VInt 2;
     pb_cgroup_dev := VInt 27; pb_cgroup_ino := VInt 901; pb_invocation_id := VStr (times 32 "a");
     pb_mcs_pair := VStr "c5,c17"; pb_fencing_epoch := VInt 0 |}.

Definition sample_binding (op : ChpbTransactionOperation) : TransactionBinding :=
  {| operation := op; transaction_id := VStr (times 32 "b"); store_uuid := VStr (times 32 "c");
     principal := sample_principal;
     policy := {| policy_generation := VInt 1; projection_digest := VStr (times 64 "d") |} |}.

Definition sample_status (op : ChpbTransactionOperation) (c : BrokerCheckpoint) (o : BrokerObjectState)
  (g : BrokerRegistryState) (index : Z) : TransactionStatus :=
  {| binding := sample_binding op; b2a_phase := b2a_phase_for_checkpoint c; checkpoint := c;
     observation := {| object_state := o; registry_state := g; population_index := VInt index |};
     population_total := VInt 2; terminal_result := terminal_of c |}.

Definition sample_reply : ChpbMessage :=
  Reply {| rp_protocol := VStr "CHPB/2"; rp_kind := K_REPLY; rp_request_id := VStr (times 32 "b");
           rp_result := R_PENDING; rp_attestation := None;
           rp_transaction := Some (sample_status OP_PROVISION C_CREATE_INTENT O_ABSENT G_NOT_APPLICABLE 0) |}.

Definition claim_text (id kind : string) : string :=
  quoted ("{'kind':'" +:+ (kind +:+ ("','protocol':'CHPB/2','request_id':'" +:+ (id +:+ "'}"))))
  +:+ String (char_at 10) "".

Example codec_samples :
  is_ok (encode_chpb_message sample_reply) = true
  ∧ decode_chpb_message (claim_text (times 32 "a") "agent_start_claim")
    = Ok (AgentStartClaim (VStr "CHPB/2") K_AGENT_START_CLAIM (VStr (times 32 "a")))
  ∧ decode_chpb_message (" " +:+ claim_text (times 32 "a") "agent_start_claim")
    = Err (ChpbValidationError NON_CANONICAL)
  ∧ decode_chpb_message (claim_text (times 31 "a") "agent_start_claim") = Err (ChpbValidationError INVALID_FIELD)
  ∧ decode_chpb_message (claim_text (times 32 "a") "provision_home") = Err (ChpbValidationError INVALID_FIELD)
  ∧ decode_chpb_message (quoted "{'kind':1,'kind':1}") = Err (ChpbValidationError DUPLICATE_KEY)
  ∧ decode_chpb_message "[]" = Err (ChpbValidationError INVALID_TYPE)
  ∧ decode_chpb_message (quoted "{'a':{'a':{'a':{'a':{'a':{}}}}}}") = Err (ChpbValidationError INVALID_FIELD)
  ∧ agent_unit_name_for_mcs (VStr "c5,c17") = Ok "the-hive-agent@c5\x2cc17.service".
Proof. vm_compute. repeat split. Qed.

(** An integer literal over the digit limit of the interpreter leaves the
    decoder as a [ValueError] without a code. *)
Example long_integer_escapes :
  decode_chpb_message (times 4301 "1")
  = Err (ValueError "Exceeds the limit for integer string conversion").
Proof. vm_compute. reflexivity. Qed.

Lemma chpb_codec_exact_witness :
  let raw := claim_text (times 32 "a") "agent_start_claim" in
  let m := AgentStartClaim (VStr "CHPB/2") K_AGENT_START_CLAIM (VStr (times 32 "a")) in
  decode_chpb_message raw = Ok m ∧ encode_chpb_message m = Ok raw ∧ (raw = raw ↔ m = m).
Proof.
  intros raw m. assert (decode_chpb_message raw = Ok m) as H by (vm_compute; reflexivity).
  destruct (chpb_codec_exact raw raw m m) as [H1 H2].
  split; [exact H|]. split; [apply H1, H|apply (H2 H H)].
Defined.
