(* ===== verification/BrokerRecovery.v ===== *)
(** * The home broker protocol: recovery rules

    [src/src/the_hive/fleet_home_broker_protocol.py], lines 1294 to 1743: the
    phases and checkpoints of a transaction, the transitions allowed between
    checkpoints, and the decision a broker takes from a stored status and a
    fresh observation. *)

From S2P Require Import Prelude Order DynamicPool Json JsonText StrictJson PyEq BrokerTypes BrokerRelease BrokerCodec.
#[local] Open Scope Z_scope.

(** ** Transitions *)

Definition _TRANSITIONS (c : BrokerCheckpoint) : list BrokerCheckpoint :=
  match c with
  | C_CREATE_INTENT => [C_STAGING_PINNED; C_BLOCKED_DRIFT]
  | C_STAGING_PINNED => [C_POPULATE_PENDING; C_ROLLBACK_INTENT; C_BLOCKED_DRIFT]
  | C_POPULATE_PENDING => [C_POPULATE_PENDING; C_PUBLISH_INTENT; C_ROLLBACK_INTENT; C_BLOCKED_DRIFT]
  | C_PUBLISH_INTENT => [C_PUBLISHED; C_ROLLBACK_INTENT; C_BLOCKED_DRIFT]
  | C_PUBLISHED => [C_REGISTRY_CAS_INTENT; C_BLOCKED_DRIFT]
  | C_REPLACEMENT_PREPARE_INTENT => [C_REPLACEMENT_PREPARED; C_BLOCKED_DRIFT]
  | C_REPLACEMENT_PREPARED => [C_SWITCH_INTENT; C_ROLLBACK_INTENT; C_BLOCKED_DRIFT]
  | C_SWITCH_INTENT => [C_SWITCHED; C_ROLLBACK_INTENT; C_BLOCKED_DRIFT]
  | C_SWITCHED => [C_REGISTRY_CAS_INTENT; C_ROLLBACK_INTENT; C_BLOCKED_DRIFT]
  | C_REGISTRY_CAS_INTENT => [C_FINALIZE_INTENT; C_ROLLBACK_INTENT; C_BLOCKED_DRIFT]
  | C_FINALIZE_INTENT => [C_COMMITTED; C_DEPROVISIONED; C_BLOCKED_DRIFT]
  | C_ROLLBACK_INTENT => [C_ROLLED_BACK; C_BLOCKED_DRIFT]
  | C_DEPROVISION_INTENT => [C_REGISTRY_CAS_INTENT; C_DEPROVISIONED; C_BLOCKED_DRIFT]
  | C_DEPROVISIONED => [C_DEPROVISIONED]
  | C_COMMITTED => [C_COMMITTED]
  | C_ROLLED_BACK => [C_ROLLED_BACK]
  | C_BLOCKED_DRIFT => [C_BLOCKED_DRIFT]
  end.

Definition is_checkpoint_transition_allowed (current target : BrokerCheckpoint) : bool :=
  bool_decide (target ∈ _TRANSITIONS current).

(** ** Decisions *)

Record RecoveryDecision := {
  action : BrokerRecoveryAction;
  next_b2a_phase : option B2aRecoveryPhase;
  next_checkpoint : option BrokerCheckpoint;
  rd_result : BrokerResultCode;
}.

Definition _decision (action : BrokerRecoveryAction) (checkpoint : option BrokerCheckpoint)
  (result : BrokerResultCode) : RecoveryDecision :=
  {| action := action; next_b2a_phase := b2a_phase_for_checkpoint <$> checkpoint;
     next_checkpoint := checkpoint; rd_result := result |}.

Definition _blocked_decision : RecoveryDecision :=
  _decision A_RETURN_BLOCKED (Some C_BLOCKED_DRIFT) R_BLOCKED_DRIFT.

(** [_decision(action, None)] and [_decision(PERSIST_CHECKPOINT, checkpoint, ...)]. *)
Definition act (action : BrokerRecoveryAction) : RecoveryDecision := _decision action None R_PENDING.
Definition persist (checkpoint : BrokerCheckpoint) (result : BrokerResultCode) : RecoveryDecision :=
  _decision A_PERSIST_CHECKPOINT (Some checkpoint) result.

(** The value of a validated integer. *)
Definition int_value (v : pyval) : Z := match v with VInt z => z | _ => 0 end.

(** [observation == status.observation]. *)
Definition observation_eq (a b : BrokerObservation) : bool :=
  bool_decide (object_state a = object_state b) && bool_decide (registry_state a = registry_state b)
  && py_eq (population_index a) (population_index b).

(** [obj in (FINAL_COMPLETE, REPLACEMENT_SWITCHED)]. *)
Definition home_in_place (obj : BrokerObjectState) : bool :=
  bool_decide (obj = O_FINAL_COMPLETE) || bool_decide (obj = O_REPLACEMENT_SWITCHED).

(** The first decision whose condition holds, or the blocked one. *)
Fixpoint first_of (cases : list (bool * RecoveryDecision)) : RecoveryDecision :=
  match cases with
  | [] => _blocked_decision
  | (true, d) :: _ => d
  | (false, _) :: cases => first_of cases
  end.

(** The branches of the decision, in the order of the code. *)
Definition decide_at (status : TransactionStatus) (observation : BrokerObservation) : RecoveryDecision :=
  let index := int_value (population_index observation) in
  let total := int_value (population_total status) in
  let obj := object_state observation in
  let reg := registry_state observation in
  let sees o g := bool_decide (obj = o) && bool_decide (reg = g) in
  let deprovision := bool_decide (operation (binding status) = OP_DEPROVISION) in
  let same := observation_eq observation (BrokerTypes.observation status) in
  match checkpoint status with
  | C_CREATE_INTENT =>
      first_of [ (sees O_ABSENT G_NOT_APPLICABLE, act A_CREATE_STAGING);
                 (sees O_STAGING_EMPTY G_NOT_APPLICABLE, persist C_STAGING_PINNED R_PENDING) ]
  | C_STAGING_PINNED =>
      first_of [ (sees O_STAGING_EMPTY G_NOT_APPLICABLE, act A_POPULATE_NEXT);
                 (sees O_STAGING_PREFIX G_NOT_APPLICABLE, persist C_POPULATE_PENDING R_PENDING) ]
  | C_POPULATE_PENDING =>
      first_of [ (sees O_STAGING_PREFIX G_NOT_APPLICABLE && (index <? total), act A_POPULATE_NEXT);
                 (sees O_STAGING_COMPLETE G_NOT_APPLICABLE && (index =? total),
                  persist C_PUBLISH_INTENT R_PENDING) ]
  | C_PUBLISH_INTENT =>
      first_of [ (sees O_STAGING_COMPLETE G_NOT_APPLICABLE, act A_PUBLISH_HOME);
                 (sees O_FINAL_COMPLETE G_NOT_APPLICABLE, persist C_PUBLISHED R_PENDING) ]
  | C_PUBLISHED => first_of [(sees O_FINAL_COMPLETE G_OLD, persist C_REGISTRY_CAS_INTENT R_PENDING)]
  | C_REPLACEMENT_PREPARE_INTENT =>
      first_of [ (sees O_REPLACEMENT_ORIGINAL G_NOT_APPLICABLE, act A_PREPARE_REPLACEMENT);
                 (sees O_REPLACEMENT_PREPARED G_NOT_APPLICABLE, persist C_REPLACEMENT_PREPARED R_PENDING) ]
  | C_REPLACEMENT_PREPARED =>
      first_of [(sees O_REPLACEMENT_PREPARED G_NOT_APPLICABLE, persist C_SWITCH_INTENT R_PENDING)]
  | C_SWITCH_INTENT =>
      first_of [ (sees O_REPLACEMENT_PREPARED G_NOT_APPLICABLE, act A_SWITCH_REPLACEMENT);
                 (sees O_REPLACEMENT_SWITCHED G_NOT_APPLICABLE, persist C_SWITCHED R_PENDING) ]
  | C_SWITCHED => first_of [(sees O_REPLACEMENT_SWITCHED G_OLD, persist C_REGISTRY_CAS_INTENT R_PENDING)]
  | C_REGISTRY_CAS_INTENT =>
      if deprovision then
        first_of [ (sees O_FINAL_COMPLETE G_CURRENT, act A_CAS_REGISTRY);
                   (sees O_FINAL_COMPLETE G_NOT_APPLICABLE, persist C_FINALIZE_INTENT R_PENDING) ]
      else
        first_of [ (home_in_place obj && bool_decide (reg = G_OLD), act A_CAS_REGISTRY);
                   (home_in_place obj && bool_decide (reg = G_CURRENT), persist C_FINALIZE_INTENT R_PENDING) ]
  | C_FINALIZE_INTENT =>
      if deprovision then
        first_of [ (sees O_FINAL_COMPLETE G_NOT_APPLICABLE, act A_DEPROVISION_HOME);
                   (sees O_ABSENT G_NOT_APPLICABLE, persist C_DEPROVISIONED R_COMMITTED) ]
      else first_of [(home_in_place obj && bool_decide (reg = G_CURRENT), persist C_COMMITTED R_COMMITTED)]
  | C_ROLLBACK_INTENT =>
      first_of [ (sees O_ROLLBACK_READY G_NOT_APPLICABLE, act A_ROLLBACK);
                 (sees O_ROLLED_BACK G_NOT_APPLICABLE, persist C_ROLLED_BACK R_ROLLED_BACK) ]
  | C_DEPROVISION_INTENT =>
      first_of [ (sees O_FINAL_COMPLETE G_CURRENT, persist C_REGISTRY_CAS_INTENT R_PENDING);
                 (sees O_ABSENT G_NOT_APPLICABLE, persist C_DEPROVISIONED R_COMMITTED) ]
  | C_COMMITTED =>
      first_of [ (same && home_in_place obj && bool_decide (reg = G_CURRENT),
                  _decision A_RETURN_COMMITTED (Some C_COMMITTED) R_COMMITTED) ]
  | C_ROLLED_BACK =>
      first_of [ (same && sees O_ROLLED_BACK G_NOT_APPLICABLE,
                  _decision A_RETURN_ROLLED_BACK (Some C_ROLLED_BACK) R_ROLLED_BACK) ]
  | C_DEPROVISIONED =>
      first_of [ (same && sees O_ABSENT G_NOT_APPLICABLE,
                  _decision A_RETURN_COMMITTED (Some C_DEPROVISIONED) R_COMMITTED) ]
  | C_BLOCKED_DRIFT => _blocked_decision
  end.

Definition decide_broker_recovery (status : TransactionStatus) (observation : BrokerObservation)
  : RecoveryDecision :=
  match (_ ← validate_transaction_status status; _validate_observation observation) with
  | Err _ => _blocked_decision
  | Ok index =>
      if bool_decide (checkpoint status = C_BLOCKED_DRIFT) then _blocked_decision
      else
        let old_index := int_value (population_index (BrokerTypes.observation status)) in
        if (index <? old_index) || (old_index + 1 <? index) then _blocked_decision
        else decide_at status observation
  end.

(** ** What a decision may ask for *)

(** The status a persisted decision stands for. *)
Definition next_status (s : TransactionStatus) (c : BrokerCheckpoint) (o : BrokerObservation)
  : TransactionStatus :=
  {| binding := binding s; b2a_phase := b2a_phase_for_checkpoint c; checkpoint := c; observation := o;
     population_total := population_total s; terminal_result := terminal_of c |}.

Lemma first_of_case (P : RecoveryDecision → Prop) cases :
  P _blocked_decision → (∀ b d, (b, d) ∈ cases → b = true → P d) → P (first_of cases).
Proof.
  intros Hb. induction cases as [|[b d] cases IH]; intros H; [done|]. destruct b; cbn.
  - eapply H; [left|done].
  - apply IH. intros b' d' Hin. apply H. by right.
Qed.

(** Every decision to persist follows a transition of the table, within the
    checkpoints of the operation. *)
Definition persists_within (op : ChpbTransactionOperation) (c : BrokerCheckpoint) (d : RecoveryDecision)
  : bool :=
  match action d, next_checkpoint d with
  | A_PERSIST_CHECKPOINT, Some c' =>
      is_checkpoint_transition_allowed c c' && bool_decide (c' ∈ allowed_checkpoints op)
  | A_PERSIST_CHECKPOINT, None => false
  | _, _ => true
  end.

Lemma first_of_within op c cases :
  forallb (λ bd : bool * RecoveryDecision, persists_within op c bd.2) cases = true →
  persists_within op c (first_of cases) = true.
Proof.
  intros H. apply (first_of_case (λ d, persists_within op c d = true)); [done|].
  intros b d Hin _. rewrite forallb_forall in H. by apply (H (b, d)), list_elem_of_In.
Qed.

Lemma decide_at_persists s o :
  checkpoint s ∈ allowed_checkpoints (operation (binding s)) →
  persists_within (operation (binding s)) (checkpoint s) (decide_at s o) = true.
Proof.
  intros Hin. unfold decide_at.
  destruct (operation (binding s)) eqn:Ho; cbn in Hin; repeat (apply elem_of_cons in Hin as [->|Hin]);
    try (by apply elem_of_nil in Hin); cbv zeta; try (by apply first_of_within); done.
Qed.

(** Only a committed or deprovisioned checkpoint is returned as committed. *)
Lemma decide_committed s o :
  action (decide_broker_recovery s o) = A_RETURN_COMMITTED →
  validate_transaction_status s = Ok () ∧ (checkpoint s = C_COMMITTED ∨ checkpoint s = C_DEPROVISIONED).
Proof.
  unfold decide_broker_recovery. destruct (validate_transaction_status s) as [[]|]; [|done].
  cbn [mbind result_bind]. destruct (_validate_observation o) as [i|]; [|done].
  case_bool_decide; [done|]. destruct (_ || _); [done|]. intros Ha. split; [done|]. revert Ha.
  assert (∀ cases, Forall (λ bd : bool * RecoveryDecision, action bd.2 ≠ A_RETURN_COMMITTED) cases →
    action (first_of cases) ≠ A_RETURN_COMMITTED) as Hf.
  { intros cases Hc. apply (first_of_case (λ d, action d ≠ A_RETURN_COMMITTED)); [done|].
    intros b d Hin _. rewrite Forall_forall in Hc. by apply (Hc (b, d)). }
  unfold decide_at. cbv zeta. destruct (checkpoint s); try (by (left + right)); intros Ha; exfalso; revert Ha;
    try case_bool_decide; first [done|apply Hf; by repeat constructor].
Qed.

Lemma bound_value v low high z : _integer v low high = Ok z → int_value v = z.
Proof. by intros [-> _]%integer_Ok. Qed.

(** A valid status, opened. *)
Lemma validate_status_Ok s u :
  validate_transaction_status s = Ok u →
  validate_transaction_binding (binding s) = Ok ()
  ∧ checkpoint s ∈ allowed_checkpoints (operation (binding s))
  ∧ b2a_phase s = b2a_phase_for_checkpoint (checkpoint s)
  ∧ (∃ z, _validate_observation (BrokerTypes.observation s) = Ok z
       ∧ population_index (BrokerTypes.observation s) = VInt z
       ∧ 0 <= z <= int_value (population_total s))
  ∧ (∃ z, _integer (population_total s) 1 MAX_CHPB_POPULATION_ENTRIES = Ok z)
  ∧ terminal_result s = terminal_of (checkpoint s).
Proof.
  unfold validate_transaction_status. intros H. apply bind_Ok in H as ([] & Hb & H).
  apply bind_Ok in H as (? & Hc%check_Ok%bool_decide_eq_true & H).
  apply bind_Ok in H as (? & Hp%check_Ok%bool_decide_eq_true & H).
  apply bind_Ok in H as (i & Hi & H). apply bind_Ok in H as (t & Ht & H).
  apply bind_Ok in H as (? & Hle%check_Ok & H). apply check_Ok, bool_decide_eq_true in H.
  split_and!; try done; [|by exists t].
  exists i. pose proof (integer_Ok _ _ _ _ Hi) as [? [? _]]. split; [done|]. split; [done|].
  rewrite (bound_value _ _ _ _ Ht). apply Z.leb_le in Hle. lia.
Qed.

Lemma decide_persist_open s o :
  action (decide_broker_recovery s o) = A_PERSIST_CHECKPOINT →
  validate_transaction_status s = Ok ()
  ∧ (∃ i, _validate_observation o = Ok i ∧ population_index o = VInt i
       ∧ int_value (population_index (BrokerTypes.observation s)) <= i
         <= int_value (population_index (BrokerTypes.observation s)) + 1)
  ∧ decide_broker_recovery s o = decide_at s o.
Proof.
  unfold decide_broker_recovery. destruct (validate_transaction_status s) as [[]|] eqn:Hs; [|done].
  cbn [mbind result_bind]. destruct (_validate_observation o) as [i|] eqn:Ho; [|done].
  case_bool_decide; [done|]. destruct (_ || _) eqn:Hi; [done|]. intros _.
  apply orb_false_iff in Hi as [H1%Z.ltb_ge H2%Z.ltb_ge]. split_and!; [done| |done].
  exists i. split_and!; try done. by apply integer_Ok in Ho as [-> _].
Qed.

(** C21: A checkpoint a decision asks to persist follows a transition of the table,
    moves the population index by at most one, and makes a valid status when
    the index observed is within the total. *)
Theorem persisted_checkpoint_valid s o :
  action (decide_broker_recovery s o) = A_PERSIST_CHECKPOINT →
  ∃ c i, next_checkpoint (decide_broker_recovery s o) = Some c
    ∧ is_checkpoint_transition_allowed (checkpoint s) c = true
    ∧ population_index o = VInt i
    ∧ int_value (population_index (BrokerTypes.observation s)) <= i
      <= int_value (population_index (BrokerTypes.observation s)) + 1
    ∧ validate_transaction_status (next_status s c o)
      = if i <=? int_value (population_total s) then Ok () else Err (ChpbValidationError INVALID_FIELD).
Proof.
  intros Ha. pose proof (decide_persist_open s o Ha) as (Hs & (i & Hi & Hio & Hle) & Hd).
  pose proof (validate_status_Ok s () Hs) as (Hb & Hc & Hp & _ & (t & Ht) & _).
  pose proof (decide_at_persists s o Hc) as H. rewrite Hd in *. unfold persists_within in H. rewrite Ha in H.
  destruct (next_checkpoint (decide_at s o)) as [c|] eqn:Hn; [|done].
  apply andb_true_iff in H as [H1 H2%bool_decide_eq_true]. exists c, i. split_and!; try done; try lia.
  unfold validate_transaction_status, next_status. cbn. rewrite Hb. cbn [mbind result_bind].
  unfold check. rewrite (bool_decide_eq_true_2 (c ∈ _)) by done.
  assert (b2a_phase_for_checkpoint c = b2a_phase_for_checkpoint c) as Hphase by done.
  cbn [require mbind result_bind]. rewrite (bool_decide_eq_true_2 _ Hphase). cbn [require mbind result_bind].
  rewrite Hi, Ht, (bound_value _ _ _ _ Ht). cbn [mbind result_bind].
  destruct (i <=? t); [|done]. cbn [require mbind result_bind]. by rewrite bool_decide_eq_true_2.
Qed.

(** ** Progress *)

(** How far a transaction has come. *)
Definition rank (c : BrokerCheckpoint) : Z :=
  match c with
  | C_CREATE_INTENT | C_REPLACEMENT_PREPARE_INTENT | C_DEPROVISION_INTENT => 0
  | C_STAGING_PINNED | C_REPLACEMENT_PREPARED => 1
  | C_POPULATE_PENDING | C_SWITCH_INTENT => 2
  | C_PUBLISH_INTENT | C_SWITCHED => 3
  | C_PUBLISHED => 4
  | C_REGISTRY_CAS_INTENT => 5
  | C_FINALIZE_INTENT => 6
  | C_ROLLBACK_INTENT => 7
  | C_COMMITTED | C_ROLLED_BACK | C_DEPROVISIONED | C_BLOCKED_DRIFT => 8
  end.

Lemma transition_ranks a b :
  is_checkpoint_transition_allowed a b = true →
  (a = b ∧ (a = C_POPULATE_PENDING ∨ is_Some (terminal_of a))) ∨ rank a < rank b.
Proof.
  unfold is_checkpoint_transition_allowed. intros H%bool_decide_eq_true.
  destruct a; cbn in H; repeat (apply elem_of_cons in H as [->|H]); try (by apply elem_of_nil in H);
    first [by right|left; split; [done|]; by (left + (right; eexists))].
Qed.

(** A walk along the table without staying in place. *)
Inductive walk : list BrokerCheckpoint → Prop :=
  | walk_one c : walk [c]
  | walk_step a b l :
      is_checkpoint_transition_allowed a b = true → a ≠ b → walk (b :: l) → walk (a :: b :: l).

(** C22: No transaction changes its checkpoint more than eight times, and one that
    has a terminal result never changes it again. *)
Theorem checkpoints_terminate l :
  walk l →
  (length l <= 9)%nat
  ∧ ∀ c rest, l = c :: rest → is_Some (terminal_of c) → rest = [].
Proof.
  intros H. assert (∀ c rest, l = c :: rest → Z.of_nat (length l) <= 9 - rank c) as Hlen.
  { induction H as [c|a b l Hab Hne Hw IH]; intros c' rest [= <- <-]; [by destruct c|].
    specialize (IH b l eq_refl). apply transition_ranks in Hab as [[? _]|Hab]; [done|]. cbn [length] in *. lia. }
  split.
  - destruct l as [|c rest]; [cbn; lia|]. specialize (Hlen c rest eq_refl).
    assert (0 <= rank c) by (by destruct c). lia.
  - intros c rest -> Ht. specialize (Hlen c rest eq_refl).
    assert (rank c = 8) as Hr by (by destruct c; destruct Ht). rewrite Hr in Hlen. destruct rest; [done|].
    cbn [length] in Hlen. lia.
Qed.

(** ** Samples *)

Lemma persisted_checkpoint_valid_witness :
  let s := sample_status OP_PROVISION C_STAGING_PINNED O_STAGING_EMPTY G_NOT_APPLICABLE 0 in
  let o := {| object_state := O_STAGING_PREFIX; registry_state := G_NOT_APPLICABLE; population_index := VInt 1 |} in
  action (decide_broker_recovery s o) = A_PERSIST_CHECKPOINT
  ∧ ∃ c i, next_checkpoint (decide_broker_recovery s o) = Some c ∧ population_index o = VInt i.
Proof.
  intros s o. assert (action (decide_broker_recovery s o) = A_PERSIST_CHECKPOINT) as Ha by (vm_compute; reflexivity).
  split; [exact Ha|]. destruct (persisted_checkpoint_valid s o Ha) as (c & i & Hc & _ & Hi & _).
  exists c, i. split; [exact Hc|exact Hi].
Defined.

Lemma checkpoints_terminate_witness :
  walk [C_CREATE_INTENT; C_STAGING_PINNED; C_BLOCKED_DRIFT]
  ∧ (length [C_CREATE_INTENT; C_STAGING_PINNED; C_BLOCKED_DRIFT] <= 9)%nat.
Proof.
  assert (walk [C_CREATE_INTENT; C_STAGING_PINNED; C_BLOCKED_DRIFT]) as Hw.
  { apply walk_step; [reflexivity|discriminate|]. apply walk_step; [reflexivity|discriminate|]. apply walk_one. }
  split; [exact Hw|]. exact (proj1 (checkpoints_terminate _ Hw)).
Defined.
