(* ===== verification/BrokerWal.v ===== *)
(** * The write-ahead log of the home broker

    [src/src/the_hive/fleet_home_broker_wal.py]: the bytes of a record, the
    hash chain, appending a status and recovering from the last one.  A byte
    string is a [string] of its bytes; the log is behind the injected
    operations, whose world is a parameter. *)

From S2P Require Import Prelude Order DynamicPool Json JsonText StrictJson PyEq Sha256 BrokerTypes BrokerRelease BrokerCodec BrokerRecovery.
#[local] Open Scope Z_scope.

(** ** Bytes *)

Fixpoint str_take (n : nat) (s : string) : string :=
  match n, s with S n, String c s => String c (str_take n s) | _, _ => "" end.
Fixpoint str_drop (n : nat) (s : string) : string :=
  match n, s with S n, String _ s => str_drop n s | _, _ => s end.

(** [raw[a:a + n]]. *)
Definition slice (a n : nat) (raw : string) : string := str_take n (str_drop a raw).

(** The big-endian bytes of [z]. *)
Fixpoint be_bytes (size : nat) (z : Z) : string :=
  match size with
  | O => ""
  | S size => String (char_at (z / 256 ^ Z.of_nat size mod 256)) (be_bytes size z)
  end.

(** [z.to_bytes(size, "big")]. *)
Definition to_bytes (size : nat) (z : Z) : result string :=
  if (0 <=? z) && (z <? 256 ^ Z.of_nat size) then Ok (be_bytes size z)
  else Err (OverflowError "int too big to convert").

(** [int.from_bytes(raw, "big")]. *)
Fixpoint from_be (acc : Z) (raw : string) : Z :=
  match raw with EmptyString => acc | String c raw => from_be (acc * 256 + ord c) raw end.
Definition from_bytes (raw : string) : Z := from_be 0 raw.

(** [raw.decode("ascii")]. *)
Definition ascii_text (raw : string) : bool := string_forallb (λ c, ord c <? 128) raw.

(** ** Records *)

Definition _MAGIC : string := "CHPB/2-WAL-Magic".
Definition _DIGEST_BYTES : nat := 64.
Definition _GENESIS : string := times 64 "0".
Definition _MAX_SEQUENCE : Z := 2 ^ 64 - 1.
Definition _MIN_RECORD_BYTES : Z := 156.
Definition _INITIAL_CHECKPOINTS : list BrokerCheckpoint :=
  [C_CREATE_INTENT; C_REPLACEMENT_PREPARE_INTENT; C_DEPROVISION_INTENT].

Record WalRecord := {
  sequence : Z;
  previous_digest : string;
  digest : string;
  status : TransactionStatus;
}.

Record WalRecovery := { wr_status : option TransactionStatus; wr_decision : RecoveryDecision }.

Definition _invalid {A} (message : string) : result A := Err (WalValidationError message).
Definition valid (condition : bool) (message : string) : result () :=
  require condition (WalValidationError message).

Definition is_digest_text (s : string) : bool := is_hex 64 s.

Definition _digest_text (s f : string) : result () :=
  valid (is_digest_text s) (f +:+ " is not a lowercase SHA-256 digest").

Definition _validate_record_fields (r : WalRecord) : result () :=
  _ ← valid ((1 <=? sequence r) && (sequence r <=? _MAX_SEQUENCE)) "record sequence is outside strict bounds";
  _ ← _digest_text (previous_digest r) "previous digest";
  _ ← _digest_text (digest r) "digest";
  _ ← valid (negb ((sequence r =? 1) && negb (bool_decide (previous_digest r = _GENESIS))))
        "record one does not use genesis digest";
  valid (negb ((1 <? sequence r) && bool_decide (previous_digest r = _GENESIS)))
    "non-genesis record uses genesis digest".

(** The result of the reply that carries a status. *)
Definition status_result (s : TransactionStatus) : BrokerResultCode := default R_PENDING (terminal_result s).

Definition status_message (s : TransactionStatus) : ChpbMessage :=
  Reply {| rp_protocol := VStr CHPB_PROTOCOL; rp_kind := K_REPLY;
           rp_request_id := transaction_id (binding s); rp_result := status_result s;
           rp_transaction := Some s; rp_attestation := None |}.

Definition encode_status_payload (s : TransactionStatus) : result string :=
  match encode_chpb_message (status_message s) with
  | Ok raw => Ok raw
  | Err _ => _invalid "status payload is invalid"
  end.

Definition decode_status_payload (raw : string) : result TransactionStatus :=
  match decode_chpb_message raw with
  | Err _ => _invalid "status payload is invalid"
  | Ok (Reply r) =>
      _ ← valid (py_eq_str (rp_protocol r) CHPB_PROTOCOL && bool_decide (rp_kind r = K_REPLY))
            "status payload is not a CHPB/2 reply";
      match rp_attestation r, rp_transaction r with
      | None, Some status =>
          _ ← valid (py_eq (rp_request_id r) (transaction_id (binding status)))
                "status payload request binding is invalid";
          _ ← valid (bool_decide (rp_result r = status_result status)) "status payload result is invalid";
          again ← encode_status_payload status;
          _ ← valid (bool_decide (again = raw)) "status payload is not canonical";
          Ok status
      | _, _ => _invalid "status payload has an attestation or no transaction"
      end
  | Ok _ => _invalid "status payload is not a CHPB/2 reply"
  end.

(** [previous_digest] is a hexadecimal text, its own ASCII bytes. *)
Definition _preimage (sequence : Z) (previous_digest payload : string) : result string :=
  sequence_bytes ← to_bytes 8 sequence;
  length_bytes ← to_bytes 4 (py_len payload);
  Ok (_MAGIC +:+ (sequence_bytes +:+ (previous_digest +:+ (length_bytes +:+ payload)))).

Definition _record_from_status (sequence : Z) (previous_digest : string) (status : TransactionStatus)
  (payload : string) : result WalRecord :=
  preimage ← _preimage sequence previous_digest payload;
  Ok {| sequence := sequence; previous_digest := previous_digest; digest := sha256_bytes preimage;
        status := status |}.

Definition encode_wal_record (r : WalRecord) : result string :=
  _ ← _validate_record_fields r;
  payload ← encode_status_payload (status r);
  preimage ← _preimage (sequence r) (previous_digest r) payload;
  let digest_text := sha256_bytes preimage in
  _ ← valid (bool_decide (digest r = digest_text)) "record digest does not match preimage";
  Ok (preimage +:+ digest_text).

Definition decode_wal_record (raw : string) : result WalRecord :=
  _ ← valid (_MIN_RECORD_BYTES <=? py_len raw) "record framing is truncated";
  _ ← valid (bool_decide (str_take 16 raw = _MAGIC)) "record magic is invalid";
  let sequence := from_bytes (slice 16 8 raw) in
  let previous_text := slice 24 64 raw in
  let payload_length := from_bytes (slice 88 4 raw) in
  _ ← valid (py_len raw =? 92 + payload_length + 64) "record length is not exact";
  let framed := (String.length raw - 64)%nat in
  let digest_text := str_drop framed raw in
  _ ← valid (ascii_text previous_text && ascii_text digest_text) "record digest encoding is invalid";
  _ ← _digest_text previous_text "previous digest";
  _ ← _digest_text digest_text "digest";
  _ ← valid (bool_decide (sha256_bytes (str_take framed raw) = digest_text))
        "record digest does not match preimage";
  status ← decode_status_payload (slice 92 (Z.to_nat payload_length) raw);
  let record := {| sequence := sequence; previous_digest := previous_text; digest := digest_text;
                   status := status |} in
  _ ← _validate_record_fields record;
  Ok record.

(** ** The chain *)

Definition _validate_initial (s : TransactionStatus) : result () :=
  valid (bool_decide (checkpoint s ∈ _INITIAL_CHECKPOINTS)) "record one is not an initial mutation checkpoint".

Definition _validate_following (previous current : TransactionStatus) : result () :=
  _ ← valid (binding_eq (binding previous) (binding current)
             && py_eq (population_total previous) (population_total current))
        "WAL status binding or population total changed";
  _ ← valid (is_checkpoint_transition_allowed (checkpoint previous) (checkpoint current))
        "WAL checkpoint transition is not allowed";
  let old_index := int_value (population_index (observation previous)) in
  let new_index := int_value (population_index (observation current)) in
  valid (negb ((new_index <? old_index) || (old_index + 1 <? new_index)))
    "WAL population index is not monotonic".

(** The status a record must be able to follow. *)
Definition validate_next (previous : option WalRecord) (s : TransactionStatus) : result () :=
  match previous with
  | None => _validate_initial s
  | Some previous => _validate_following (status previous) s
  end.

(** The loop over the records that follow [previous]. *)
Fixpoint chain_from (previous : option WalRecord) (expected_sequence : Z) (expected_previous : string)
  (raws : list string) : result (list WalRecord) :=
  match raws with
  | [] => Ok []
  | raw :: raws =>
      record ← decode_wal_record raw;
      _ ← valid ((sequence record =? expected_sequence)
                 && bool_decide (previous_digest record = expected_previous))
            "WAL sequence or hash chain is broken";
      _ ← validate_next previous (status record);
      records ← chain_from (Some record) (expected_sequence + 1) (digest record) raws;
      Ok (record :: records)
  end.

Definition _validated_chain (raw_records : list string) : result (list WalRecord) :=
  chain_from None 1 _GENESIS raw_records.

(** ** Operations *)

(** What the broker is given to reach its log, over the world [W]. *)
Record WalOperations (W : Type) := {
  read_all : ST W (list string);
  append : string → ST W ();
  fsync_wal : ST W ();
  fsync_parent : ST W ();
}.
Arguments read_all {W}. Arguments append {W}. Arguments fsync_wal {W}. Arguments fsync_parent {W}.

Definition last_record (records : list WalRecord) : option WalRecord := List.last (Some <$> records) None.

Section operations.
Context {W : Type} (operations : WalOperations W).

Definition validated_log : ST W (list WalRecord) :=
  raws ← read_all operations; st_lift (_validated_chain raws).

Definition _lookup_active_principal_binding (cgroup_dev cgroup_ino : Z) (invocation_id : string)
  (unit_generation : Z) (mcs_pair : string) : ST W (option PrincipalBinding) :=
  records ← validated_log;
  mret match last_record records with
       | None => None
       | Some record =>
           match terminal_result (status record) with
           | Some _ => None
           | None =>
               let p := principal (binding (status record)) in
               if py_eq (pb_cgroup_dev p) (VInt cgroup_dev) && py_eq (pb_cgroup_ino p) (VInt cgroup_ino)
                  && py_eq_str (pb_invocation_id p) invocation_id
                  && py_eq (pb_unit_generation p) (VInt unit_generation)
                  && py_eq_str (pb_mcs_pair p) mcs_pair
               then Some p else None
           end
       end.

(** The record [status] makes after the records of the log. *)
Definition next_record (records : list WalRecord) (s : TransactionStatus) (payload : string)
  : result WalRecord :=
  match last_record records with
  | Some previous =>
      _ ← valid (negb (sequence previous =? _MAX_SEQUENCE)) "WAL sequence cannot advance";
      _ ← _validate_following (status previous) s;
      _record_from_status (sequence previous + 1) (digest previous) s payload
  | None =>
      _ ← _validate_initial s;
      _record_from_status 1 _GENESIS s payload
  end.

Definition append_status (s : TransactionStatus) : ST W WalRecord :=
  payload ← st_lift (encode_status_payload s);
  records ← validated_log;
  record ← st_lift (next_record records s payload);
  wire ← st_lift (encode_wal_record record);
  append operations wire ≫= λ _,
  fsync_wal operations ≫= λ _,
  fsync_parent operations ≫= λ _,
  mret record.

Definition recover_status (observation : BrokerObservation) : ST W WalRecovery :=
  st_catch
    (records ← validated_log;
     mret match last_record records with
          | None => {| wr_status := None; wr_decision := _blocked_decision |}
          | Some record =>
              {| wr_status := Some (status record);
                 wr_decision := decide_broker_recovery (status record) observation |}
          end)
    (λ _, mret {| wr_status := None; wr_decision := _blocked_decision |}).
End operations.

(** ** Bytes read back *)

Lemma str_take_drop n s : str_take n s +:+ str_drop n s = s.
Proof.
  revert s. induction n as [|n IH]; intros [|c s]; try done. cbn [str_take str_drop].
  by rewrite append_cons, IH.
Qed.

Lemma str_take_app n a b : String.length a = n → str_take n (a +:+ b) = a.
Proof.
  intros <-. induction a as [|c a IH]; [by destruct b|]. rewrite append_cons. cbn [String.length str_take].
  by rewrite IH.
Qed.

Lemma str_drop_app n a b : String.length a = n → str_drop n (a +:+ b) = b.
Proof. intros <-. induction a as [|c a IH]; [done|]. rewrite append_cons. cbn [String.length str_drop]. done. Qed.

Lemma length_str_take n s : (n <= String.length s)%nat → String.length (str_take n s) = n.
Proof.
  revert s. induction n as [|n IH]; intros [|c s] H; cbn in *; try done; [lia|]. rewrite IH; lia.
Qed.

Lemma length_str_drop n s : String.length (str_drop n s) = (String.length s - n)%nat.
Proof. revert s. induction n as [|n IH]; intros [|c s]; cbn; auto. Qed.

Lemma length_slice a n s : (a + n <= String.length s)%nat → String.length (slice a n s) = n.
Proof. intros H. apply length_str_take. rewrite length_str_drop. lia. Qed.

Lemma str_drop_drop a b s : str_drop b (str_drop a s) = str_drop (a + b) s.
Proof. revert s. induction a as [|a IH]; intros [|c s]; cbn; auto. by destruct b. Qed.

(** The bytes from [a] on start with the slice. *)
Lemma drop_slice a n s : str_drop a s = slice a n s +:+ str_drop (a + n) s.
Proof. unfold slice. by rewrite <- str_drop_drop, str_take_drop. Qed.

Lemma ord_range c : 0 <= ord c < 256.
Proof. unfold ord. pose proof (Ascii.N_ascii_bounded c). lia. Qed.

Lemma ord_char_at z : 0 <= z < 256 → ord (char_at z) = z.
Proof. intros H. unfold ord, char_at. rewrite Ascii.N_ascii_embedding; lia. Qed.

Lemma char_at_ord c : char_at (ord c) = c.
Proof. unfold ord, char_at. by rewrite N2Z.id, Ascii.ascii_N_embedding. Qed.

Lemma length_be_bytes n z : String.length (be_bytes n z) = n.
Proof. induction n as [|n IH]; cbn; [done|by rewrite IH]. Qed.

Lemma from_be_bytes acc n z : from_be acc (be_bytes n z) = acc * 256 ^ Z.of_nat n + z mod 256 ^ Z.of_nat n.
Proof.
  revert acc. induction n as [|n IH]; intros acc; [cbn; rewrite Z.mod_1_r; lia|].
  cbn [be_bytes from_be]. rewrite IH, ord_char_at by (apply Z.mod_pos_bound; lia).
  rewrite Nat2Z.inj_succ, Z.pow_succ_r by lia.
  rewrite (Z.mul_comm 256), Z.rem_mul_r by lia. lia.
Qed.

Lemma from_be_range acc s :
  acc * 256 ^ Z.of_nat (String.length s) <= from_be acc s < (acc + 1) * 256 ^ Z.of_nat (String.length s).
Proof.
  revert acc. induction s as [|c s IH]; intros acc; [cbn; lia|]. cbn [from_be String.length].
  specialize (IH (acc * 256 + ord c)). pose proof (ord_range c).
  rewrite Nat2Z.inj_succ, Z.pow_succ_r by lia.
  pose proof (Z.pow_pos_nonneg 256 (Z.of_nat (String.length s))). nia.
Qed.

Lemma be_from_bytes acc s : be_bytes (String.length s) (from_be acc s) = s.
Proof.
  revert acc. induction s as [|c s IH]; intros acc; [done|]. cbn [from_be String.length be_bytes].
  rewrite IH. f_equal. pose proof (from_be_range (acc * 256 + ord c) s) as Hr.
  pose proof (ord_range c). pose proof (Z.pow_pos_nonneg 256 (Z.of_nat (String.length s)) ltac:(lia) ltac:(lia)).
  assert (from_be (acc * 256 + ord c) s / 256 ^ Z.of_nat (String.length s) = acc * 256 + ord c) as ->.
  { symmetry. apply Z.div_unique with (from_be (acc * 256 + ord c) s
      - (acc * 256 + ord c) * 256 ^ Z.of_nat (String.length s)); lia. }
  rewrite Z.add_comm, Z.mod_add, Z.mod_small by lia. apply char_at_ord.
Qed.

Lemma to_bytes_Ok n z b : to_bytes n z = Ok b → b = be_bytes n z ∧ from_bytes b = z.
Proof.
  unfold to_bytes. destruct (_ && _) eqn:Hz; [|done]. intros [= <-]. split; [done|].
  apply andb_true_iff in Hz as [H1%Z.leb_le H2%Z.ltb_lt]. unfold from_bytes.
  rewrite from_be_bytes, Z.mod_small by lia. lia.
Qed.

Lemma to_bytes_from n s : String.length s = n → to_bytes n (from_bytes s) = Ok s.
Proof.
  intros <-. unfold to_bytes. pose proof (from_be_range 0 s) as Hr. unfold from_bytes in *.
  rewrite (proj2 (Z.leb_le _ _)), (proj2 (Z.ltb_lt _ _)) by lia. cbn [andb]. by rewrite be_from_bytes.
Qed.

(** ** Records read back *)

Lemma valid_Ok c m u : valid c m = Ok u ↔ c = true.
Proof. apply require_Ok. Qed.

Lemma encode_payload_Ok s raw :
  encode_status_payload s = Ok raw ↔ encode_chpb_message (status_message s) = Ok raw.
Proof. unfold encode_status_payload. by destruct (encode_chpb_message _). Qed.

(** A status with bytes is valid. *)
Lemma encode_payload_valid s raw : encode_status_payload s = Ok raw → validate_transaction_status s = Ok ().
Proof.
  intros (u & Hv & _)%encode_payload_Ok%bind_Ok. cbn [status_message validate_chpb_message] in Hv.
  unfold validate_reply in Hv. do 3 (apply bind_Ok in Hv as (? & _ & Hv)).
  apply bind_Ok in Hv as ([] & Hs & _). done.
Qed.

Lemma transaction_text s : validate_transaction_status s = Ok () → ∃ t, transaction_id (binding s) = VStr t.
Proof.
  intros (Hb & _)%validate_status_Ok. unfold validate_transaction_binding in Hb.
  apply bind_Ok in Hb as (t & Ht & _). exists t. by eapply string_Ok.
Qed.

Lemma payload_inverse raw s : decode_status_payload raw = Ok s ↔ encode_status_payload s = Ok raw.
Proof.
  split.
  - unfold decode_status_payload. destruct (decode_chpb_message raw) as [m|]; [|done].
    destruct m; try done. intros H. apply bind_Ok in H as (? & _ & H).
    destruct (rp_attestation reply); [done|]. destruct (rp_transaction reply) as [t|]; [|done].
    do 2 (apply bind_Ok in H as (? & _ & H)). apply bind_Ok in H as (again & Ha & H).
    apply bind_Ok in H as (? & Heq%valid_Ok%bool_decide_eq_true & [= <-]). by subst.
  - intros He. pose proof (proj1 (encode_payload_Ok _ _) He) as Hm. apply codec_inverse in Hm.
    destruct (transaction_text s (encode_payload_valid s raw He)) as [t Ht].
    unfold decode_status_payload. rewrite Hm. cbn [status_message rp_protocol rp_kind rp_attestation rp_transaction rp_request_id rp_result].
    unfold valid. rewrite Ht. cbn [py_eq]. rewrite (bool_decide_eq_true_2 (t = t)) by done.
    rewrite He, (bool_decide_eq_true_2 (status_result s = status_result s)) by done.
    cbn [mbind result_bind require]. by rewrite (bool_decide_eq_true_2 (raw = raw)).
Qed.

(** The bytes of a record, in pieces. *)
Definition record_bytes (sequence_bytes previous length_bytes payload : string) : string :=
  _MAGIC +:+ (sequence_bytes +:+ (previous +:+ (length_bytes +:+ payload))).

Lemma fields_previous_length r u : _validate_record_fields r = Ok u → String.length (previous_digest r) = 64%nat.
Proof.
  unfold _validate_record_fields. intros (? & _ & H)%bind_Ok. apply bind_Ok in H as (? & Hp%valid_Ok & _).
  apply andb_true_iff in Hp as [Hp%Z.eqb_eq _]. unfold py_len in Hp. lia.
Qed.

Lemma digest_text_ascii s : is_digest_text s = true → ascii_text s = true.
Proof.
  intros [_ H]%andb_true_iff. unfold ascii_text. induction s as [|c s IH]; [done|].
  cbn [string_forallb] in *. apply andb_true_iff in H as [Hc H]. rewrite IH by done.
  assert (implb (is_hex_lower c) (ord c <? 128) = true) as Himp
    by (clear; by destruct c as [[] [] [] [] [] [] [] []]).
  rewrite Hc in Himp. cbn in Himp. by rewrite Himp.
Qed.

Lemma sha256_bytes_text raw : is_digest_text (sha256_bytes raw) = true.
Proof. unfold is_digest_text, is_hex, py_len. by rewrite length_sha256_bytes, sha256_bytes_digits. Qed.

Lemma record_pieces sb prev lb payload dt :
  String.length sb = 8%nat → String.length prev = 64%nat → String.length lb = 4%nat →
  String.length dt = 64%nat →
  let raw := record_bytes sb prev lb payload +:+ dt in
  str_take 16 raw = _MAGIC ∧ slice 16 8 raw = sb ∧ slice 24 64 raw = prev ∧ slice 88 4 raw = lb
  ∧ slice 92 (String.length payload) raw = payload
  ∧ str_take (String.length raw - 64) raw = record_bytes sb prev lb payload
  ∧ str_drop (String.length raw - 64) raw = dt
  ∧ py_len raw = 92 + py_len payload + 64.
Proof.
  intros Hs Hp Hl Hd raw.
  assert (String.length raw = String.length (record_bytes sb prev lb payload) + 64)%nat as Hlen
    by (unfold raw; rewrite length_append, Hd; done).
  assert (raw = (_MAGIC +:+ sb) +:+ ((prev +:+ lb) +:+ (payload +:+ dt))) as Hraw
    by (unfold raw, record_bytes; by rewrite !append_assoc).
  assert (str_drop 16 raw = sb +:+ ((prev +:+ lb) +:+ (payload +:+ dt))) as H16
    by (rewrite Hraw, append_assoc; by apply str_drop_app).
  assert (str_drop 24 raw = prev +:+ (lb +:+ (payload +:+ dt))) as H24.
  { change 24%nat with (16 + 8)%nat. rewrite <- str_drop_drop, H16, str_drop_app by done. apply append_assoc. }
  assert (str_drop 88 raw = lb +:+ (payload +:+ dt)) as H88.
  { change 88%nat with (24 + 64)%nat. by rewrite <- str_drop_drop, H24, str_drop_app. }
  assert (str_drop 92 raw = payload +:+ dt) as H92.
  { change 92%nat with (88 + 4)%nat. by rewrite <- str_drop_drop, H88, str_drop_app. }
  split_and!.
  - rewrite Hraw, append_assoc. by apply str_take_app.
  - unfold slice. rewrite H16. by apply str_take_app.
  - unfold slice. rewrite H24. by apply str_take_app.
  - unfold slice. rewrite H88. by apply str_take_app.
  - unfold slice. rewrite H92. by apply str_take_app.
  - rewrite Hlen. apply str_take_app. lia.
  - rewrite Hlen. apply str_drop_app. lia.
  - unfold py_len. rewrite Hlen. unfold record_bytes. rewrite !length_append, Hs, Hp, Hl. cbn. lia.
Qed.

Lemma preimage_Ok n prev payload pre :
  _preimage n prev payload = Ok pre ↔
  ∃ sb lb, to_bytes 8 n = Ok sb ∧ to_bytes 4 (py_len payload) = Ok lb ∧ pre = record_bytes sb prev lb payload.
Proof.
  unfold _preimage. split.
  - intros (sb & Hs & H)%bind_Ok. apply bind_Ok in H as (lb & Hl & [= <-]). by exists sb, lb.
  - intros (sb & lb & Hs & Hl & ->). by rewrite Hs, Hl.
Qed.

(** A record cut into its pieces by the lengths it declares. *)
Lemma record_of_pieces raw n :
  String.length raw = (92 + n + 64)%nat → str_take 16 raw = _MAGIC →
  let framed := (String.length raw - 64)%nat in
  str_take framed raw = record_bytes (slice 16 8 raw) (slice 24 64 raw) (slice 88 4 raw) (slice 92 n raw).
Proof.
  intros Hlen Hm framed. unfold framed. rewrite Hlen. replace (92 + n + 64 - 64)%nat with (92 + n)%nat by lia.
  assert (raw = record_bytes (slice 16 8 raw) (slice 24 64 raw) (slice 88 4 raw) (slice 92 n raw)
                +:+ str_drop (92 + n) raw) as Hraw.
  { unfold record_bytes. rewrite <- Hm, !append_assoc, <- (drop_slice 92 n raw).
    change 92%nat with (88 + 4)%nat at 1. rewrite <- (drop_slice 88 4 raw).
    change 88%nat with (24 + 64)%nat at 1. rewrite <- (drop_slice 24 64 raw).
    change 24%nat with (16 + 8)%nat at 1. by rewrite <- (drop_slice 16 8 raw), str_take_drop. }
  rewrite Hraw at 1. apply str_take_app. unfold record_bytes.
  rewrite !length_append, !length_slice by lia. cbn. lia.
Qed.

Lemma record_decoded raw r : decode_wal_record raw = Ok r → encode_wal_record r = Ok raw.
Proof.
  unfold decode_wal_record. intros H.
  apply bind_Ok in H as (? & _ & H). apply bind_Ok in H as (? & Hm%valid_Ok%bool_decide_eq_true & H).
  cbv zeta in H. apply bind_Ok in H as (? & Hlen%valid_Ok%Z.eqb_eq & H).
  do 3 (apply bind_Ok in H as (? & _ & H)).
  apply bind_Ok in H as (? & Hsha%valid_Ok%bool_decide_eq_true & H).
  apply bind_Ok in H as (s & Hs%payload_inverse & H). apply bind_Ok in H as ([] & Hf & [= <-]).
  pose proof (from_be_range 0 (slice 88 4 raw)) as Hr.
  change (from_be 0) with from_bytes in Hr. set (n := Z.to_nat (from_bytes (slice 88 4 raw))) in *.
  assert (0 <= from_bytes (slice 88 4 raw)) as Hn0 by lia.
  assert (String.length raw = (92 + n + 64)%nat) as Hlen'
    by (unfold py_len in Hlen; unfold n; lia).
  pose proof (record_of_pieces raw n Hlen' Hm) as Hpieces. cbv zeta in Hpieces.
  unfold encode_wal_record. rewrite Hf. cbn [mbind result_bind]. cbn [status sequence previous_digest digest].
  rewrite Hs. cbn [mbind result_bind].
  assert (_preimage (from_bytes (slice 16 8 raw)) (slice 24 64 raw) (slice 92 n raw)
          = Ok (str_take (String.length raw - 64) raw)) as Hpre.
  { apply preimage_Ok. exists (slice 16 8 raw), (slice 88 4 raw).
    split_and!; [apply to_bytes_from, length_slice; lia| |done].
    assert (py_len (slice 92 n raw) = from_bytes (slice 88 4 raw)) as Hpl
      by (unfold py_len; rewrite length_slice by lia; unfold n; lia).
    rewrite Hpl. apply to_bytes_from, length_slice. lia. }
  rewrite Hpre. cbn [mbind result_bind]. rewrite Hsha. unfold valid. rewrite bool_decide_eq_true_2 by done.
  cbn [require mbind result_bind]. by rewrite str_take_drop.
Qed.

Lemma record_encoded raw r : encode_wal_record r = Ok raw → decode_wal_record raw = Ok r.
Proof.
  intros H. unfold encode_wal_record in H. apply bind_Ok in H as ([] & Hf & H).
  apply bind_Ok in H as (payload & Hs & H). apply bind_Ok in H as (pre & Hpre & H).
  apply bind_Ok in H as (? & Hd%valid_Ok%bool_decide_eq_true & [= <-]).
  apply preimage_Ok in Hpre as (sb & lb & Hsb & Hlb & ->). rewrite <- Hd.
  apply to_bytes_Ok in Hsb as [Hsb Hsb']. apply to_bytes_Ok in Hlb as [Hlb Hlb'].
  assert (is_digest_text (digest r) = true) as Hdig by (rewrite Hd; apply sha256_bytes_text).
  assert (String.length (digest r) = 64%nat) as Hdlen by (rewrite Hd; apply length_sha256_bytes).
  pose proof (fields_previous_length r () Hf) as Hplen.
  assert (is_digest_text (previous_digest r) = true) as Hprev.
  { unfold _validate_record_fields in Hf. apply bind_Ok in Hf as (? & _ & Hf).
    by apply bind_Ok in Hf as (? & Hp%valid_Ok & _). }
  destruct (record_pieces sb (previous_digest r) lb payload (digest r)) as (E1 & E2 & E3 & E4 & E5 & E6 & E7 & E8);
    [by rewrite Hsb, length_be_bytes|done|by rewrite Hlb, length_be_bytes|done|].
  set (raw := record_bytes sb (previous_digest r) lb payload +:+ digest r) in *.
  unfold decode_wal_record. cbv zeta. rewrite E1, E2, E3, E4, E6, E7, Hsb', Hlb'.
  assert (Z.to_nat (py_len payload) = String.length payload) as -> by (unfold py_len; lia).
  rewrite E5, E8. unfold valid, _digest_text, valid.
  rewrite (proj2 (Z.leb_le _ _)) by (unfold py_len, _MIN_RECORD_BYTES; lia).
  rewrite (bool_decide_eq_true_2 (_MAGIC = _MAGIC)) by done. rewrite Z.eqb_refl.
  rewrite !digest_text_ascii, Hprev, Hdig, <- Hd by done. cbn [require mbind result_bind andb].
  rewrite bool_decide_eq_true_2 by done. cbn [require mbind result_bind].
  rewrite (proj2 (payload_inverse _ _) Hs). cbn [mbind result_bind].
  assert ({| sequence := sequence r; previous_digest := previous_digest r; digest := digest r;
             status := status r |} = r) as -> by by destruct r.
  by rewrite Hf.
Qed.

(** ** The types of a decoded record *)

Definition int_within (low high : Z) (v : pyval) : Prop := ∃ z, v = VInt z ∧ low <= z <= high.
Definition hex_text (size : Z) (v : pyval) : Prop :=
  ∃ s, v = VStr s ∧ py_len s = size ∧ string_forallb is_hex_lower s = true.

Definition typed_principal (p : PrincipalBinding) : Prop :=
  (∃ s, pb_agent_id p = VStr s ∧ _AGENT s = true ∧ py_len (utf8_encode s) <= 128)
  ∧ int_within 1 (2 ^ 63 - 1) (pb_manifest_generation p)
  ∧ int_within 1 (2 ^ 63 - 1) (pb_unit_generation p)
  ∧ int_within 0 (2 ^ 63 - 1) (pb_cgroup_dev p) ∧ int_within 1 (2 ^ 63 - 1) (pb_cgroup_ino p)
  ∧ hex_text 32 (pb_invocation_id p)
  ∧ (∃ s low high, pb_mcs_pair p = VStr s ∧ _MCS s = Some (low, high) ∧ 0 <= low < high ∧ high <= 1023)
  ∧ int_within 0 (2 ^ 63 - 1) (pb_fencing_epoch p).

Definition typed_status (s : TransactionStatus) : Prop :=
  hex_text 32 (transaction_id (binding s)) ∧ hex_text 32 (store_uuid (binding s))
  ∧ typed_principal (principal (binding s))
  ∧ int_within 1 (2 ^ 63 - 1) (policy_generation (policy (binding s)))
  ∧ hex_text 64 (projection_digest (policy (binding s)))
  ∧ checkpoint s ∈ allowed_checkpoints (operation (binding s))
  ∧ b2a_phase s = b2a_phase_for_checkpoint (checkpoint s)
  ∧ terminal_result s = terminal_of (checkpoint s)
  ∧ ∃ index total, population_index (observation s) = VInt index ∧ population_total s = VInt total
      ∧ 0 <= index <= total ∧ 1 <= total <= 256.

Lemma digest_typed v size s : size = 32 ∨ size = 64 → _digest v size = Ok s → hex_text size v.
Proof.
  intros Hsize H. pose proof (string_Ok _ _ _ _ H) as ->. exists s. split; [done|].
  unfold _digest, _string in H. destruct Hsize as [-> | ->]; cbn [Z.eqb] in H;
    apply bind_Ok in H as (? & _ & H); apply bind_Ok in H as (? & Hp%check_Ok & _);
    apply andb_true_iff in Hp as [Hp%Z.eqb_eq Hh]; done.
Qed.

Lemma principal_typed p u : validate_principal_binding p = Ok u → typed_principal p.
Proof.
  unfold validate_principal_binding. intros H. apply bind_Ok in H as (a & Ha & H).
  do 4 (apply bind_Ok in H as (? & ?%integer_Ok & H)). apply bind_Ok in H as (? & Hi & H).
  apply bind_Ok in H as (lh & Hm & H). apply bind_Ok in H as (? & ?%integer_Ok & _).
  unfold typed_principal. split_and!; try (by eexists).
  - pose proof (string_Ok _ _ _ _ Ha) as Ea. exists a. unfold _string in Ha. rewrite Ea in Ha.
    apply bind_Ok in Ha as (? & Hl%check_Ok%Z.leb_le & Ha). apply bind_Ok in Ha as (? & Hp%check_Ok & _). done.
  - eapply digest_typed; [by left|done].
  - unfold _mcs in Hm. apply bind_Ok in Hm as (t & Ht%string_Ok & Hm).
    destruct (_MCS t) as [[low high]|] eqn:Hc; [|done]. destruct (_ && _) eqn:Hb; [|done].
    apply andb_true_iff in Hb as [Hb L3%Z.leb_le]. apply andb_true_iff in Hb as [L1%Z.leb_le L2%Z.ltb_lt].
    exists t, low, high. done.
Qed.

Lemma status_typed s : validate_transaction_status s = Ok () → typed_status s.
Proof.
  intros (Hb & Hc & Hp & (index & _ & Hi & Hle) & (total & Ht) & Hr)%validate_status_Ok.
  unfold validate_transaction_binding, _validate_policy in Hb. apply bind_Ok in Hb as (? & H1 & Hb).
  apply bind_Ok in Hb as (? & H2 & Hb). apply bind_Ok in Hb as (? & H3%principal_typed & Hb).
  apply bind_Ok in Hb as (? & H4%integer_Ok & Hb). apply bind_Ok in Hb as (? & H5 & _).
  pose proof (integer_Ok _ _ _ _ Ht) as [Et ?]. rewrite Et in Hle. cbn [int_value] in Hle.
  unfold typed_status. split_and!; try done; try (eapply digest_typed; [|done]; by (left + right)); [by eexists|].
  exists index, total. done.
Qed.

(** C24: a record the log yields is well typed: its sequence number fits 64 bits,
    its digests are hexadecimal, the first one follows the genesis digest and
    no other does, and every field of its status has the type, the range and
    the shape its transaction's operation and checkpoint allow. *)
Theorem wal_record_typed raw r :
  decode_wal_record raw = Ok r →
  1 <= sequence r < 2 ^ 64
  ∧ hex_text 64 (VStr (previous_digest r)) ∧ hex_text 64 (VStr (digest r))
  ∧ (sequence r = 1 ↔ previous_digest r = _GENESIS)
  ∧ typed_status (status r).
Proof.
  intros H%record_decoded. unfold encode_wal_record in H. apply bind_Ok in H as ([] & Hf & H).
  apply bind_Ok in H as (payload & Hp%encode_payload_valid & _). unfold _validate_record_fields in Hf.
  apply bind_Ok in Hf as (? & H1%valid_Ok & Hf). apply bind_Ok in Hf as (? & H2%valid_Ok & Hf).
  apply bind_Ok in Hf as (? & H3%valid_Ok & Hf). apply bind_Ok in Hf as (? & H4%valid_Ok & H5%valid_Ok).
  apply andb_true_iff in H1 as [H1%Z.leb_le H1'%Z.leb_le]. unfold _MAX_SEQUENCE in H1'.
  apply andb_true_iff in H2 as [H2%Z.eqb_eq H2']. apply andb_true_iff in H3 as [H3%Z.eqb_eq H3'].
  apply negb_true_iff in H4, H5.
  split_and!; [lia|lia|by eexists|by eexists| |by apply status_typed].
  split; intros E.
  - rewrite E in H4. cbn in H4. by apply negb_false_iff, bool_decide_eq_true in H4.
  - rewrite E, bool_decide_eq_true_2, andb_true_r in H5 by done. apply Z.ltb_ge in H5. lia.
Qed.

(** ** The chain of records *)

(** Every record is its bytes without the digest, and their digest. *)
Lemma record_digest raw r :
  decode_wal_record raw = Ok r → ∃ pre, raw = pre +:+ digest r ∧ digest r = sha256_bytes pre.
Proof.
  intros H%record_decoded. unfold encode_wal_record in H. apply bind_Ok in H as (? & _ & H).
  apply bind_Ok in H as (payload & _ & H). apply bind_Ok in H as (pre & _ & H).
  apply bind_Ok in H as (? & Hd%valid_Ok%bool_decide_eq_true & [= <-]). exists pre. by rewrite Hd.
Qed.

(** What a log ends in: the record the next one must follow, its number and
    its digest. *)
Definition last_or (previous : option WalRecord) (records : list WalRecord) : option WalRecord :=
  match last_record records with Some r => Some r | None => previous end.

Lemma last_record_snoc records r : last_record (records ++ [r]) = Some r.
Proof. unfold last_record. rewrite fmap_app. apply last_last. Qed.

Lemma last_or_snoc previous records r : last_or previous (records ++ [r]) = Some r.
Proof. unfold last_or. by rewrite last_record_snoc. Qed.

Lemma last_or_cons previous r records : last_or previous (r :: records) = last_or (Some r) records.
Proof.
  destruct records as [|x records] using rev_ind; [done|].
  by rewrite app_comm_cons, !last_or_snoc.
Qed.

Lemma chain_from_snoc previous n d raws raw records :
  chain_from previous n d (raws ++ [raw]) = Ok records ↔
  ∃ before r, records = before ++ [r] ∧ chain_from previous n d raws = Ok before
    ∧ decode_wal_record raw = Ok r ∧ sequence r = n + Z.of_nat (length raws)
    ∧ previous_digest r = default d (digest <$> last_or None before)
    ∧ validate_next (last_or previous before) (status r) = Ok ().
Proof.
  revert previous n d records. induction raws as [|x raws IH]; intros previous n d records; cbn [app chain_from].
  - split.
    + intros H. apply bind_Ok in H as (r & Hr & H). apply bind_Ok in H as (? & Hv%valid_Ok & H).
      apply bind_Ok in H as ([] & Hn & [= <-]). apply andb_true_iff in Hv as [Hv1%Z.eqb_eq Hv2%bool_decide_eq_true].
      exists [], r. split_and!; try done. cbn. lia.
    + intros (before & r & -> & [= <-] & Hr & Hs & Hp & Hv). rewrite Hr. cbn [mbind result_bind].
      rewrite Hs. cbn in Hp, Hv |- *. rewrite Z.add_0_r, Z.eqb_refl, Hp, bool_decide_eq_true_2 by done.
      cbn. by rewrite Hv.
  - split.
    + intros H. apply bind_Ok in H as (rx & Hx & H). apply bind_Ok in H as (? & Hv & H).
      apply bind_Ok in H as ([] & Hn & H). apply bind_Ok in H as (rest & Hrest & [= <-]).
      apply IH in Hrest as (before & r & -> & Hb & Hr & Hs & Hp & Hl).
      exists (rx :: before), r. rewrite Hx. cbn [mbind result_bind]. rewrite Hv. cbn [mbind result_bind].
      rewrite Hn. cbn [mbind result_bind]. rewrite Hb. rewrite !last_or_cons.
      split_and!; try done; [cbn [length]; lia|]. rewrite Hp. unfold last_or.
      by destruct (last_record before).
    + intros (before & r & -> & Hb & Hr & Hs & Hp & Hl). apply bind_Ok in Hb as (rx & Hx & H).
      apply bind_Ok in H as ([] & Hv & H). apply bind_Ok in H as ([] & Hn & H).
      apply bind_Ok in H as (rest & Hrest & [= <-]). rewrite !last_or_cons in *.
      rewrite Hx. cbn [mbind result_bind]. rewrite Hv. cbn [mbind result_bind]. rewrite Hn. cbn [mbind result_bind].
      assert (chain_from (Some rx) (n + 1) (digest rx) (raws ++ [raw]) = Ok (rest ++ [r])) as ->; [|done].
      apply IH. exists rest, r. split_and!; try done; [cbn [length] in Hs; lia|]. rewrite Hp. unfold last_or.
      by destruct (last_record rest).
Qed.

Lemma chain_length previous n d raws records :
  chain_from previous n d raws = Ok records → length records = length raws.
Proof.
  revert previous n d records. induction raws as [|x raws IH]; intros previous n d records; cbn [chain_from].
  - by intros [= <-].
  - intros H. do 3 (apply bind_Ok in H as (? & _ & H)). apply bind_Ok in H as (rest & Hr & [= <-]).
    cbn. f_equal. by eapply IH.
Qed.

(** The first records of a valid log are a valid log. *)
Lemma chain_take previous n d raws records k :
  chain_from previous n d raws = Ok records →
  chain_from previous n d (take k raws) = Ok (take k records).
Proof.
  revert previous n d records k. induction raws as [|x raws IH]; intros previous n d records k; cbn [chain_from].
  - intros [= <-]. by rewrite !take_nil.
  - intros H. apply bind_Ok in H as (r & Hr & H). apply bind_Ok in H as ([] & Hv & H).
    apply bind_Ok in H as ([] & Hn & H). apply bind_Ok in H as (rest & Hrest & [= <-]).
    destruct k as [|k]; [done|]. cbn [take chain_from]. rewrite Hr. cbn [mbind result_bind]. rewrite Hv.
    cbn [mbind result_bind]. rewrite Hn. cbn [mbind result_bind]. by rewrite (IH _ _ _ _ k Hrest).
Qed.

Lemma chain_lookup previous n d raws records k raw :
  chain_from previous n d raws = Ok records → raws !! k = Some raw →
  ∃ r, records !! k = Some r ∧ decode_wal_record raw = Ok r.
Proof.
  revert previous n d records k. induction raws as [|x raws IH]; intros previous n d records k; cbn [chain_from]; [done|].
  intros H. apply bind_Ok in H as (r & Hr & H). do 2 (apply bind_Ok in H as (? & _ & H)).
  apply bind_Ok in H as (rest & Hrest & [= <-]). destruct k as [|k]; [intros [= <-]; by exists r|cbn; by eapply IH].
Qed.

(** The last record of a log carries the number of its records. *)
Lemma chain_last_sequence raws records r :
  _validated_chain raws = Ok records → last_record records = Some r → sequence r = Z.of_nat (length raws).
Proof.
  destruct raws as [|raw raws] using rev_ind; [by intros [= <-]|]. intros H.
  apply chain_from_snoc in H as (before & r' & -> & _ & _ & Hs & _). rewrite last_record_snoc. intros [= <-].
  rewrite Hs, length_app. cbn. lia.
Qed.

(** The two logs exhibit a collision of the digest: they hold records of
    different bytes under one digest. *)
Definition collide (raws raws' : list string) : Prop :=
  ∃ pre pre' d, pre +:+ d ∈ raws ∧ pre' +:+ d ∈ raws'
    ∧ pre ≠ pre' ∧ sha256_bytes pre = d ∧ sha256_bytes pre' = d.

Lemma collide_app raws raws' more more' : collide raws raws' → collide (raws ++ more) (raws' ++ more').
Proof.
  intros (pre & pre' & d & H & H' & Hrest). exists pre, pre', d. rewrite !elem_of_app.
  split_and!; [by left|by left|apply Hrest..].
Qed.

Lemma same_digest_same_record raw raw' r r' :
  decode_wal_record raw = Ok r → decode_wal_record raw' = Ok r' → digest r = digest r' →
  raw = raw' ∨ ∀ raws raws', collide (raws ++ [raw]) (raws' ++ [raw']).
Proof.
  intros H H' Hd. destruct (record_digest _ _ H) as (pre & -> & Hp). destruct (record_digest _ _ H') as (pre' & -> & Hp').
  destruct (decide (pre = pre')) as [->|Hne]; [left; by rewrite Hd|right]. intros raws raws'.
  exists pre, pre', (digest r). rewrite !elem_of_app, !list_elem_of_singleton, Hd.
  split_and!; [by right..|done|congruence|congruence].
Qed.

(** C20: the digest of its last record determines a whole log: two valid logs that
    end in one digest are equal, unless they hold two records of different
    bytes that SHA-256 gives one digest. *)
Theorem wal_tamper_evident raws raws' records records' r r' :
  _validated_chain raws = Ok records → _validated_chain raws' = Ok records' →
  last_record records = Some r → last_record records' = Some r' → digest r = digest r' →
  raws = raws' ∨ collide raws raws'.
Proof.
  revert raws' records records' r r'. induction raws as [|raw raws IH] using rev_ind;
    intros raws' records records' r r' H H' Hl Hl' Hd; [by injection H as <-|].
  destruct raws' as [|raw' raws' _] using rev_ind; [by injection H' as <-|].
  apply chain_from_snoc in H as (before & x & -> & Hb & Hx & Hs & Hp & _).
  apply chain_from_snoc in H' as (before' & x' & -> & Hb' & Hx' & Hs' & Hp' & _).
  rewrite last_record_snoc in Hl, Hl'. injection Hl as ->. injection Hl' as ->.
  destruct (same_digest_same_record _ _ _ _ Hx Hx' Hd) as [-> | Hcollide]; [|by right].
  rewrite Hx in Hx'. injection Hx' as ->. assert (length raws = length raws') as Hlen by lia.
  pose proof (chain_length _ _ _ _ _ Hb) as Hl1. pose proof (chain_length _ _ _ _ _ Hb') as Hl2.
  destruct before as [|y before _] using rev_ind.
  { destruct raws; [|done]. by destruct raws'; [left|]. }
  destruct before' as [|y' before' _] using rev_ind; [rewrite length_app in Hl1; cbn in *; lia|].
  rewrite !last_or_snoc in *. cbn in Hp, Hp'.
  destruct (IH raws' _ _ y y' Hb Hb') as [->|?]; [apply last_record_snoc..|congruence|by left|right; by apply collide_app].
Qed.

(** ** Torn records *)

Lemma str_take_all n s : (String.length s <= n)%nat → str_take n s = s.
Proof. revert s. induction n as [|n IH]; intros [|c s] H; cbn in *; try done; [lia|]. by rewrite IH by lia. Qed.

Lemma str_take_take m n s : str_take m (str_take n s) = str_take (Nat.min m n) s.
Proof. revert n s. induction m as [|m IH]; intros [|n] [|c s]; cbn; try done. by rewrite IH. Qed.

Lemma slice_take a k n s : (a + k <= n)%nat → slice a k (str_take n s) = slice a k s.
Proof.
  unfold slice. revert n s. induction a as [|a IH].
  - intros n s. cbn [str_drop Nat.add]. revert n s. induction k as [|k IHk]; intros n s Hn; [done|].
    destruct n as [|n]; [lia|]. destruct s as [|c s]; [done|]. cbn. rewrite IHk by lia. done.
  - intros [|n] [|c s] Hn; try lia; [done|]. cbn. apply IH. lia.
Qed.

(** The length of a record is the one its header announces. *)
Lemma record_length raw r :
  decode_wal_record raw = Ok r →
  156 <= py_len raw ∧ py_len raw = 92 + from_bytes (slice 88 4 raw) + 64.
Proof.
  unfold decode_wal_record. intros H. apply bind_Ok in H as (? & H1%valid_Ok%Z.leb_le & H).
  apply bind_Ok in H as (? & _ & H). cbv zeta in H. apply bind_Ok in H as (? & H2%valid_Ok%Z.eqb_eq & _).
  unfold _MIN_RECORD_BYTES in H1. done.
Qed.

(** A record cut short is no record. *)
Lemma torn_record_refused raw r n :
  decode_wal_record raw = Ok r → (n < String.length raw)%nat →
  is_ok (decode_wal_record (str_take n raw)) = false.
Proof.
  intros [Hmin Hlen]%record_length Hn. destruct (decode_wal_record (str_take n raw)) as [r'|] eqn:Hr; [|done].
  apply record_length in Hr as [Hmin' Hlen']. unfold py_len in *.
  rewrite length_str_take in Hmin', Hlen' by lia. rewrite slice_take in Hlen' by lia. lia.
Qed.

(** ** Appending

    The log as the injected operations act on it: the records a read yields,
    how many of them a flush has put on the disk, and whether the entry of the
    log in its directory is there. *)
Record LogFile := { lf_lines : list string; lf_flushed : nat; lf_linked : bool }.

Definition lf_add (raw : string) (v : LogFile) : LogFile :=
  {| lf_lines := lf_lines v ++ [raw]; lf_flushed := lf_flushed v;
     lf_linked := match lf_lines v with [] => false | _ => lf_linked v end |}.
Definition lf_flush (v : LogFile) : LogFile :=
  {| lf_lines := lf_lines v; lf_flushed := length (lf_lines v); lf_linked := lf_linked v |}.
Definition lf_link (v : LogFile) : LogFile :=
  {| lf_lines := lf_lines v; lf_flushed := lf_flushed v; lf_linked := true |}.

(** Every record is on the disk, and so is the entry. *)
Definition stable (v : LogFile) : Prop := lf_flushed v = length (lf_lines v) ∧ lf_linked v = true.

(** What a crash may leave of a log: its flushed records and some of the
    others, the last one perhaps torn, or nothing when its entry is not on the
    disk. *)
Inductive leaves (v : LogFile) : list string → Prop :=
  | leaves_lines k : (lf_flushed v <= k)%nat → leaves v (take k (lf_lines v))
  | leaves_torn k raw n : (lf_flushed v <= k)%nat → lf_lines v !! k = Some raw →
      leaves v (take k (lf_lines v) ++ [str_take n raw])
  | leaves_nothing : lf_linked v = false → leaves v [].

Lemma stable_leaves v l : stable v → leaves v l → l = lf_lines v.
Proof.
  intros [Hf Hl] [k Hk|k raw n Hk Hr|Hn].
  - apply take_ge. lia.
  - apply lookup_lt_Some in Hr. lia.
  - congruence.
Qed.

(** The injected operations, as the log they act on: a read yields its records;
    an append that returns has added its record and one that raises may have
    added any part of it; a flush that returns has put the records, or the
    entry, on the disk, and one that raises has done so or not. *)
Class LawfulWal {W} (operations : WalOperations W) (log : W → LogFile) : Prop := {
  lawful_read w : read_all operations w = (w, Ok (lf_lines (log w)));
  lawful_append raw w :
    match append operations raw w with
    | (w', Ok _) => log w' = lf_add raw (log w)
    | (w', Err _) => log w' = log w ∨ ∃ n, log w' = lf_add (str_take n raw) (log w)
    end;
  lawful_fsync w :
    match fsync_wal operations w with
    | (w', Ok _) => log w' = lf_flush (log w)
    | (w', Err _) => log w' = log w ∨ log w' = lf_flush (log w)
    end;
  lawful_fsync_parent w :
    match fsync_parent operations w with
    | (w', Ok _) => log w' = lf_link (log w)
    | (w', Err _) => log w' = log w ∨ log w' = lf_link (log w)
    end;
}.

(** The stages of the append of a record, from a part of it to all of it with
    its entry on the disk. *)
Inductive appending (raw : string) (v : LogFile) : LogFile → Prop :=
  | appending_part n : appending raw v (lf_add (str_take n raw) v)
  | appending_flushed : appending raw v (lf_flush (lf_add raw v))
  | appending_linked : appending raw v (lf_link (lf_flush (lf_add raw v))).

Lemma appending_lines raw v v' :
  appending raw v v' → ∃ n, lf_lines v' = lf_lines v ++ [str_take n raw].
Proof.
  intros [n| |]; cbn; [by exists n|exists (String.length raw)..]; by rewrite str_take_all.
Qed.

(** From a log that is on the disk, all the interrupted append of a record can
    change is the last record. *)
Lemma appending_leaves raw v v' l :
  stable v → appending raw v v' → leaves v' l →
  l = lf_lines v ∨ ∃ n, l = lf_lines v ++ [str_take n raw].
Proof.
  intros [Hf Hl] Ha Hleaves. pose proof (str_take_all (String.length raw) raw (le_n _)) as Hall.
  assert (∀ k part, (length (lf_lines v) <= k)%nat →
    take k (lf_lines v ++ [part]) = lf_lines v ∨ take k (lf_lines v ++ [part]) = lf_lines v ++ [part]) as Htake.
  { intros k part Hk. destruct (decide (k = length (lf_lines v))) as [->|]; [left; apply take_app_length|right].
    apply take_ge. rewrite length_app. cbn. lia. }
  assert (∀ k part x, (length (lf_lines v) <= k)%nat → (lf_lines v ++ [part]) !! k = Some x →
    k = length (lf_lines v) ∧ x = part) as Hlook.
  { intros k part x Hk Hx. pose proof (lookup_lt_Some _ _ _ Hx) as Hlt. rewrite length_app in Hlt. cbn in Hlt.
    assert (k = length (lf_lines v)) as -> by lia. rewrite lookup_app_r, Nat.sub_diag in Hx by lia.
    by injection Hx as ->. }
  assert (∃ part, lf_lines v' = lf_lines v ++ [part] ∧ (part = raw ∨ ∃ n, part = str_take n raw)
    ∧ (length (lf_lines v) <= lf_flushed v')%nat ∧ (lf_linked v' = false → lf_lines v = [])) as
    (part & Hlines & Hpart & Hflushed & Hlinked).
  { destruct Ha as [n| |]; cbn; rewrite ?length_app; eexists; (split; [reflexivity|]);
      (split; [first [by left|right; by eexists]|]); (split; [lia|]); destruct (lf_lines v); cbn; congruence. }
  assert (∀ n, ∃ m, str_take n part = str_take m raw) as Hpart'.
  { intros n. destruct Hpart as [->|(n' & ->)]; [by exists n|]. exists (Nat.min n n').
    apply str_take_take. }
  destruct Hleaves as [k Hk|k x n Hk Hx|Hn].
  - rewrite Hlines. destruct (Htake k part) as [-> | ->]; [lia|by left|right].
    destruct Hpart as [->|(n & ->)]; [exists (String.length raw); by rewrite Hall|by exists n].
  - rewrite Hlines in *. apply Hlook in Hx as [-> ->]; [|lia]. rewrite take_app_length.
    right. destruct (Hpart' n) as (m & ->). by exists m.
  - left. by rewrite Hlinked.
Qed.

Section appending.
Context {W : Type} (operations : WalOperations W) (log : W → LogFile).
Context `{!LawfulWal operations log}.

Lemma run_validated_log {B} (f : list WalRecord → ST W B) w :
  (validated_log operations ≫= f) w =
    match _validated_chain (lf_lines (log w)) with Ok records => f records w | Err e => (w, Err e) end.
Proof using LawfulWal0.
  unfold validated_log. rewrite !st_bind_eq. rewrite lawful_read. by destruct (_validated_chain (lf_lines (log w))).
Qed.

(** A status the next record can carry extends the chain. *)
Lemma next_record_extends raws records s payload r wire :
  _validated_chain raws = Ok records → next_record records s payload = Ok r →
  encode_wal_record r = Ok wire → _validated_chain (raws ++ [wire]) = Ok (records ++ [r]) ∧ status r = s.
Proof.
  intros Hc Hn Hw%record_encoded.
  assert (∀ n d, _record_from_status n d s payload = Ok r →
    sequence r = n ∧ previous_digest r = d ∧ status r = s) as Hr.
  { intros n d (pre & _ & [= <-])%bind_Ok. done. }
  split; [|unfold next_record in Hn; destruct (last_record records); inv_result; by edestruct Hr as (_ & _ & ?)].
  apply chain_from_snoc. exists records, r. split_and!; try done; unfold next_record in Hn;
    destruct (last_record records) as [p|] eqn:Hl; unfold last_or; rewrite ?Hl.
  - apply bind_Ok in Hn as (? & _ & Hn). apply bind_Ok in Hn as (? & _ & Hn). apply Hr in Hn as (-> & _).
    rewrite (chain_last_sequence _ _ _ Hc Hl). lia.
  - apply bind_Ok in Hn as (? & _ & Hn). apply Hr in Hn as (-> & _).
    destruct records as [|z records' _] using rev_ind; [|by rewrite last_record_snoc in Hl].
    apply chain_length in Hc. cbn in Hc. rewrite <- Hc. done.
  - apply bind_Ok in Hn as (? & _ & Hn). apply bind_Ok in Hn as (? & _ & Hn). by apply Hr in Hn as (_ & -> & _).
  - apply bind_Ok in Hn as (? & _ & Hn). by apply Hr in Hn as (_ & -> & _).
  - apply bind_Ok in Hn as (? & _ & Hn). apply bind_Ok in Hn as ([] & Hv & Hn). apply Hr in Hn as (_ & _ & ->). done.
  - apply bind_Ok in Hn as ([] & Hv & Hn). apply Hr in Hn as (_ & _ & ->). done.
Qed.

(** What the append of a status does to the log. *)
Lemma append_status_log s w records :
  _validated_chain (lf_lines (log w)) = Ok records →
  let outcome := append_status operations s w in
  (log outcome.1 = log w ∧ is_ok outcome.2 = false)
  ∨ ∃ raw r, decode_wal_record raw = Ok r ∧ status r = s
      ∧ _validated_chain (lf_lines (log w) ++ [raw]) = Ok (records ++ [r])
      ∧ appending raw (log w) (log outcome.1)
      ∧ ∀ r', outcome.2 = Ok r' → r' = r ∧ log outcome.1 = lf_link (lf_flush (lf_add raw (log w))).
Proof using LawfulWal0.
  intros Hc outcome. unfold outcome, append_status. clear outcome.
  destruct (encode_status_payload s) as [payload|e] eqn:Hp; [rewrite run_lift|rewrite run_lift_err; by left].
  rewrite run_validated_log, Hc.
  destruct (next_record records s payload) as [r|e] eqn:Hr; [rewrite run_lift|rewrite run_lift_err; by left].
  destruct (encode_wal_record r) as [wire|e] eqn:Hw; [rewrite run_lift|rewrite run_lift_err; by left].
  destruct (next_record_extends _ _ _ _ _ _ Hc Hr Hw) as [Hext Hs].
  apply record_encoded in Hw. pose proof (str_take_all (String.length wire) wire (le_n _)) as Hall.
  assert (∀ v, v = lf_add wire (log w) → appending wire (log w) v) as Hadd.
  { intros v ->. rewrite <- Hall at 2. constructor. }
  rewrite st_bind_eq. pose proof (lawful_append (operations := operations) wire w) as Ha.
  destruct (append operations wire w) as [w1 [[]|e]].
  2: { destruct Ha as [Ha|(n & Ha)]; [by left|right]. exists wire, r. cbn. rewrite Ha.
       split_and!; try done. constructor. }
  right. exists wire, r. split; [done|]. split; [done|]. split; [done|].
  rewrite st_bind_eq. pose proof (lawful_fsync (operations := operations) w1) as Hf.
  destruct (fsync_wal operations w1) as [w2 [[]|e]]; rewrite Ha in Hf.
  2: { cbn. split; [|done]. destruct Hf as [-> | ->]; [by apply Hadd|constructor]. }
  rewrite st_bind_eq. pose proof (lawful_fsync_parent (operations := operations) w2) as Hg.
  destruct (fsync_parent operations w2) as [w3 [[]|e]]; rewrite Hf in Hg; cbn.
  2: { split; [|done]. destruct Hg as [-> | ->]; constructor. }
  rewrite Hg. split; [constructor|]. by intros r' [= ->].
Qed.

(** What is recovered from the records of a log. *)
Definition recovered (records : list WalRecord) (o : BrokerObservation) : WalRecovery :=
  match last_record records with
  | None => {| wr_status := None; wr_decision := _blocked_decision |}
  | Some r => {| wr_status := Some (status r); wr_decision := decide_broker_recovery (status r) o |}
  end.

Lemma recover_status_log o w :
  recover_status operations o w =
    (w, Ok (recovered match _validated_chain (lf_lines (log w)) with Ok records => records | Err _ => [] end o)).
Proof using LawfulWal0.
  unfold recover_status, st_catch. rewrite run_validated_log.
  destruct (_validated_chain (lf_lines (log w))) as [records|e]; done.
Qed.
End appending.

(** A log whose last record was cut short is refused. *)
Lemma torn_log_refused raws raw r n :
  decode_wal_record raw = Ok r → (n < String.length raw)%nat →
  is_ok (_validated_chain (raws ++ [str_take n raw])) = false.
Proof.
  intros Hr Hn. pose proof (torn_record_refused raw r n Hr Hn) as Ht.
  destruct (_validated_chain _) as [records|] eqn:Hc; [|done].
  apply chain_from_snoc in Hc as (before & r' & _ & _ & Hr' & _). by rewrite Hr' in Ht.
Qed.

(** C15: An append survives a crash. From a valid log that is on the disk,
    [append_status] returns only when the log, extended by a record of that
    status, is on the disk again, so that no crash takes the record away. When
    it raises, at whatever step (a write may leave any part of the record, and
    either flush may fail), both the log that is read and every log a crash
    may leave are the old one, the extended one, or the old one and a record
    cut short. And the next recovery decides from the last record of the old
    log, from the status, or, on a record cut short, returns no status and
    blocks. (Relied on: a read yields the log; an append that returns has
    added its record; a flush that returns has put the records, or the entry
    of the log, on the disk; a crash alters no byte.) *)
Theorem wal_append_crash_safe {W} (operations : WalOperations W) (log : W → LogFile)
  (lawful : LawfulWal operations log) s w records :
  _validated_chain (lf_lines (log w)) = Ok records → stable (log w) →
  let (w', outcome) := append_status operations s w in
  (∀ r, outcome = Ok r →
     status r = s ∧ stable (log w') ∧ _validated_chain (lf_lines (log w')) = Ok (records ++ [r])
     ∧ ∀ l, leaves (log w') l → l = lf_lines (log w'))
  ∧ ∀ l, l = lf_lines (log w') ∨ leaves (log w') l →
      ∀ w1 o, lf_lines (log w1) = l →
        (l = lf_lines (log w) ∧ is_ok outcome = false
         ∧ recover_status operations o w1 = (w1, Ok (recovered records o)))
        ∨ (∃ r, status r = s ∧ _validated_chain l = Ok (records ++ [r])
             ∧ recover_status operations o w1
               = (w1, Ok {| wr_status := Some s; wr_decision := decide_broker_recovery s o |}))
        ∨ (∃ part, l = lf_lines (log w) ++ [part] ∧ is_ok outcome = false
             ∧ recover_status operations o w1
               = (w1, Ok {| wr_status := None; wr_decision := _blocked_decision |})).
Proof.
  intros Hc Hstable. pose proof (append_status_log operations log s w records Hc) as H.
  destruct (append_status operations s w) as [w' outcome]. cbn [fst snd] in H.
  destruct H as [[Hlog Hfail]|(raw & r & Hraw & Hs & Hext & Happ & Hdone)].
  - split; [by intros r ->|]. rewrite Hlog. intros l Hl w1 o Hw1. left.
    assert (l = lf_lines (log w)) as -> by (destruct Hl; [done|by apply stable_leaves]).
    split_and!; [done..|]. by rewrite (recover_status_log operations log), Hw1, Hc.
  - assert (∀ r', outcome = Ok r' → r' = r ∧ stable (log w')
      ∧ lf_lines (log w') = lf_lines (log w) ++ [raw]) as Hok.
    { intros r' Hr'. destruct (Hdone r' Hr') as [-> ->]. done. }
    split.
    { intros r' Hr'. destruct (Hok r' Hr') as (-> & Hst & Hl). rewrite Hl. split_and!; try done.
      intros l Hleaves. rewrite <- Hl. by apply stable_leaves. }
    intros l Hl w1 o Hw1. rewrite (recover_status_log operations log), Hw1.
    assert (is_ok outcome = true → l = lf_lines (log w) ++ [raw]) as Hwhole.
    { destruct outcome as [r'|]; [|done]. intros _. destruct (Hok r' eq_refl) as (_ & Hst & <-).
      destruct Hl as [->|Hl]; [done|by apply stable_leaves]. }
    assert (l = lf_lines (log w) ∨ ∃ n, l = lf_lines (log w) ++ [str_take n raw]) as [->|(n & ->)].
    { destruct Hl as [->|Hl]; [right; by apply appending_lines|by eapply appending_leaves]. }
    { left. rewrite Hc. destruct (is_ok outcome); [|done].
      specialize (Hwhole eq_refl). by apply (f_equal length) in Hwhole; rewrite length_app in Hwhole; cbn in Hwhole; lia. }
    destruct (decide (String.length raw <= n)%nat) as [Hn|Hn].
    { right; left. rewrite str_take_all by done. exists r. rewrite Hext. split_and!; [done..|].
      unfold recovered. rewrite last_record_snoc. by rewrite Hs. }
    right; right. exists (str_take n raw). split; [done|].
    pose proof (torn_log_refused (lf_lines (log w)) raw r n Hraw ltac:(lia)) as Ht.
    split; [|by destruct (_validated_chain (lf_lines (log w) ++ [str_take n raw]))].
    destruct (is_ok outcome); [|done]. specialize (Hwhole eq_refl).
    apply app_inv_head in Hwhole. injection Hwhole as Hwhole. rewrite Hwhole in Ht.
    rewrite Hext in Ht. discriminate Ht.
Qed.

(** ** A sample log *)

Definition memory_wal : WalOperations LogFile :=
  {| read_all := λ w, (w, Ok (lf_lines w)); append := λ raw w, (lf_add raw w, Ok ());
     fsync_wal := λ w, (lf_flush w, Ok ()); fsync_parent := λ w, (lf_link w, Ok ()) |}.

Lemma memory_wal_lawful : LawfulWal memory_wal id.
Proof. by split. Qed.

(** A log whose appends stop after [n] bytes. *)
Definition torn_wal (n : nat) : WalOperations LogFile :=
  {| read_all := read_all memory_wal;
     append := λ raw w, (lf_add (str_take n raw) w, Err (OSError "append"));
     fsync_wal := fsync_wal memory_wal; fsync_parent := fsync_parent memory_wal |}.

Lemma torn_wal_lawful n : LawfulWal (torn_wal n) id.
Proof. split; try done. intros raw w. right. by exists n. Qed.

Definition empty_log : LogFile := {| lf_lines := []; lf_flushed := 0; lf_linked := true |}.

Definition first_status : TransactionStatus :=
  sample_status OP_PROVISION C_CREATE_INTENT O_ABSENT G_NOT_APPLICABLE 0.

(** The first status of a provisioning, appended to an empty log. *)
Definition first_log : list string := lf_lines (append_status memory_wal first_status empty_log).1.

(** After an append cut short nothing is recovered, and a later append is refused. *)
Example torn_append_blocks :
  let w := (append_status (torn_wal 200) first_status empty_log).1 in
  length (lf_lines w) = 1%nat
  ∧ wr_status <$> (recover_status (torn_wal 200) (observation first_status) w).2 = Ok None
  ∧ is_ok (append_status memory_wal first_status w).2 = false.
Proof. vm_compute. split_and!; reflexivity. Qed.

Lemma wal_append_crash_safe_witness :
  _validated_chain (lf_lines empty_log) = Ok []
  ∧ is_ok (append_status memory_wal first_status empty_log).2 = true
  ∧ (∃ r, status r = first_status ∧ _validated_chain first_log = Ok ([] ++ [r]))
  ∧ stable (append_status memory_wal first_status empty_log).1.
Proof.
  assert (_validated_chain (lf_lines empty_log) = Ok []) as Hc by reflexivity. split; [exact Hc|].
  pose proof (wal_append_crash_safe memory_wal id memory_wal_lawful first_status empty_log []
    Hc (conj eq_refl eq_refl)) as H.
  unfold first_log.
  assert (is_ok (append_status memory_wal first_status empty_log).2 = true) as Hok by (vm_compute; reflexivity).
  destruct (append_status memory_wal first_status empty_log) as [w' outcome]. split; [exact Hok|].
  destruct outcome as [r|]; [|discriminate Hok]. destruct (proj1 H r eq_refl) as (H1 & H2 & H3 & _).
  split; [|exact H2]. exists r. exact (conj H1 H3).
Defined.

Lemma wal_tamper_evident_witness :
  ∃ r, _validated_chain first_log = Ok [r] ∧ (first_log = first_log ∨ collide first_log first_log).
Proof.
  assert (is_ok (_validated_chain first_log) = true ∧ length first_log = 1%nat) as [Hok Hlen]
    by (vm_compute; split; reflexivity).
  revert Hok. destruct (_validated_chain first_log) as [records|] eqn:Hc; intros Hok; [|discriminate Hok].
  pose proof (chain_length _ _ _ _ _ Hc) as Hl. rewrite Hlen in Hl.
  destruct records as [|r [|? ?]]; [discriminate Hl| |discriminate Hl]. exists r. split; [reflexivity|].
  apply (wal_tamper_evident first_log first_log [r] [r] r r Hc Hc); reflexivity.
Defined.

Lemma wal_record_typed_witness :
  ∃ raw r, decode_wal_record raw = Ok r ∧ 1 <= sequence r < 2 ^ 64 ∧ typed_status (status r).
Proof.
  set (raw := List.hd "" first_log).
  assert (is_ok (decode_wal_record raw) = true) as Hok by (vm_compute; reflexivity).
  revert Hok. destruct (decode_wal_record raw) as [r|] eqn:Hr; intros Hok; [|discriminate Hok].
  exists raw, r. destruct (wal_record_typed raw r Hr) as (H1 & _ & _ & _ & H2). split; [exact Hr|]. split; [exact H1|exact H2].
Defined.
