(* ===== verification/BrokerLinux.v ===== *)
(** * Peers of the home broker

    [src/src/the_hive/fleet_home_broker_linux.py], lines 22 to 498: the
    attestation of a peer process through a pinned process descriptor, and the
    opening of a pinned directory.  The system calls are the injected
    operations, over a world that is a parameter; every descriptor they return
    is closed on every path.  What an operation observes is any value until it
    is validated. *)

From S2P Require Import Prelude Order DynamicPool Json JsonText StrictJson PyEq BrokerTypes BrokerRelease.
#[local] Open Scope Z_scope.

Definition SAFE_DIRECTORY_MODE : Z := 16832. (* 0o40700 *)
Definition _FILE_TYPE_MASK : Z := 61440. (* 0o170000 *)
Definition _DIRECTORY_FILE_TYPE : Z := 16384. (* 0o040000 *)
Definition _MAX_FILE_MODE : Z := 65535. (* 0o177777 *)

Record FdStat := { fs_dev : pyval; fs_ino : pyval; fs_mode : pyval; fs_uid : pyval; fs_gid : pyval }.
Record PidfdIdentity := { pi_pid : pyval; pi_start_time : pyval }.
Record PeerSnapshot := {
  sn_pid : pyval;
  sn_cgroup_dev : pyval;
  sn_cgroup_ino : pyval;
  sn_invocation_id : pyval;
  sn_unit_generation : pyval;
  sn_mcs_pair : pyval;
}.

(** The injected operations. *)
Record LinuxOperations (W : Type) := {
  openat2 : Z → string → Z → Z → ST W Z;
  fstat : Z → ST W FdStat;
  close : Z → ST W ();
  pidfd_open : Z → Z → ST W Z;
  pidfd_reuse_check : Z → Z → option Z → option Z → option PidfdIdentity → ST W PidfdIdentity;
  open_pinned_proc_pid : Z → Z → PidfdIdentity → ST W Z;
  open_proc_cgroup : Z → Z → PidfdIdentity → ST W Z;
  read_proc_control_group : Z → Z → Z → pyval → pyval → ST W pyval;
  read_pid1_unit_name : Z → Z → pyval → pyval → ST W pyval;
  read_pid1_unit_generation : Z → Z → pyval → pyval → ST W pyval;
  read_pid1_invocation_id : Z → Z → pyval → pyval → ST W pyval;
  read_pid1_control_group : Z → Z → pyval → pyval → ST W pyval;
  read_peer_mcs_pair : Z → Z → Z → pyval → pyval → ST W pyval;
}.
Arguments openat2 {W}. Arguments fstat {W}. Arguments close {W}. Arguments pidfd_open {W}.
Arguments pidfd_reuse_check {W}. Arguments open_pinned_proc_pid {W}. Arguments open_proc_cgroup {W}.
Arguments read_proc_control_group {W}. Arguments read_pid1_unit_name {W}.
Arguments read_pid1_unit_generation {W}. Arguments read_pid1_invocation_id {W}.
Arguments read_pid1_control_group {W}. Arguments read_peer_mcs_pair {W}.

Definition _OPENAT2_FLAGS : Z := 2818048. (* 0o10000000 | 0o200000 | 0o400000 | 0o2000000 *)
Definition _OPENAT2_RESOLVE : Z := 14.

(** ** Validation *)

Definition boundary {A} (message : string) : result A := Err (LinuxBoundaryError message).
Definition expect (condition : bool) (message : string) : result () :=
  require condition (LinuxBoundaryError message).

Definition _strict_integer (v : pyval) (f : string) (low high : Z) : result Z :=
  match v with
  | VInt z => if (low <=? z) && (z <=? high) then Ok z
              else boundary (f +:+ " is outside strict integer bounds")
  | _ => boundary (f +:+ " is outside strict integer bounds")
  end.

Definition _positive_integer (v : pyval) (f : string) : result Z :=
  match v with
  | VInt z => if 0 <? z then Ok z else boundary (f +:+ " is not a positive integer")
  | _ => boundary (f +:+ " is not a positive integer")
  end.

Definition _strict_text (v : pyval) (f : string) : result string :=
  match v with
  | VStr s => if bool_decide (s = "") then boundary (f +:+ " is not non-empty text") else Ok s
  | _ => boundary (f +:+ " is not non-empty text")
  end.

Definition _validate_directory_identity (d : DirectoryIdentity) : result () :=
  _ ← _strict_integer (dev d) "directory dev" 0 MAX_CHPB_DEVICE;
  _ ← _strict_integer (ino d) "directory ino" 1 MAX_CHPB_INODE;
  _ ← _strict_integer (dmode d) "directory mode" SAFE_DIRECTORY_MODE SAFE_DIRECTORY_MODE;
  Ok ().

(** [type(v) is int and v == 0]. *)
Definition is_zero (v : pyval) : bool := match v with VInt z => z =? 0 | _ => false end.

Definition _validate_fd_stat (v : FdStat) : result () :=
  _ ← _strict_integer (fs_dev v) "fd dev" 0 MAX_CHPB_DEVICE;
  _ ← _strict_integer (fs_ino v) "fd ino" 1 MAX_CHPB_INODE;
  _ ← _strict_integer (fs_mode v) "fd mode" SAFE_DIRECTORY_MODE SAFE_DIRECTORY_MODE;
  _ ← expect (is_zero (fs_uid v)) "fd uid is not exactly root";
  expect (is_zero (fs_gid v)) "fd gid is not exactly root".

Definition _validate_cgroup_stat (v : FdStat) : result () :=
  _ ← _strict_integer (fs_dev v) "cgroup dev" 0 MAX_CHPB_DEVICE;
  _ ← _strict_integer (fs_ino v) "cgroup ino" 1 MAX_CHPB_INODE;
  mode ← _strict_integer (fs_mode v) "cgroup mode" 0 _MAX_FILE_MODE;
  expect (Z.land mode _FILE_TYPE_MASK =? _DIRECTORY_FILE_TYPE) "cgroup stat is not a directory".

(** Any failure of the validation under another message. *)
Definition as_boundary {A} (message : string) (r : result A) : result A :=
  reraise (λ _, true) (λ _, LinuxBoundaryError message) r.

Definition _validate_principal (p : PrincipalBinding) : result () :=
  as_boundary "expected principal binding is invalid" (validate_principal_binding p).

Definition _validate_pidfd_identity (v : PidfdIdentity) (expected_pid : Z) : result () :=
  _ ← _positive_integer (pi_pid v) "pidfd identity pid";
  _ ← _strict_integer (pi_start_time v) "pidfd identity start time" 1 MAX_CHPB_GENERATION;
  expect (py_eq (pi_pid v) (VInt expected_pid)) "pidfd identity pid was reused or exited".

Definition _validate_observed_peer_snapshot (v : PeerSnapshot) (peer_pid : Z) : result () :=
  _ ← _positive_integer (sn_pid v) "snapshot pid";
  _ ← expect (py_eq (sn_pid v) (VInt peer_pid)) "snapshot pid was reused or exited";
  _ ← _strict_integer (sn_cgroup_dev v) "snapshot cgroup dev" 0 MAX_CHPB_DEVICE;
  _ ← _strict_integer (sn_cgroup_ino v) "snapshot cgroup ino" 1 MAX_CHPB_INODE;
  _ ← _strict_integer (sn_unit_generation v) "snapshot unit generation" 1 MAX_CHPB_GENERATION;
  _ ← as_boundary "peer snapshot fields are invalid"
        (_ ← _digest (sn_invocation_id v) 32; _mcs (sn_mcs_pair v));
  Ok ().

Definition snapshot_matches (v : PeerSnapshot) (p : PrincipalBinding) : bool :=
  py_eq (sn_cgroup_dev v) (pb_cgroup_dev p) && py_eq (sn_cgroup_ino v) (pb_cgroup_ino p)
  && py_eq (sn_unit_generation v) (pb_unit_generation p)
  && py_eq (sn_invocation_id v) (pb_invocation_id p) && py_eq (sn_mcs_pair v) (pb_mcs_pair p).

Definition _validate_peer_snapshot (v : PeerSnapshot) (peer_pid : Z) (expected : PrincipalBinding)
  : result () :=
  _ ← _validate_observed_peer_snapshot v peer_pid;
  expect (snapshot_matches v expected) "peer principal does not match".

(** [s.endswith(p)]. *)
Definition endswith (p s : string) : bool :=
  let n := (String.length s - String.length p)%nat in
  (String.length p <=? String.length s)%nat && bool_decide (String.substring n (String.length p) s = p).

Definition _valid_child_name (v : pyval) : bool :=
  match v with
  | VStr s =>
      bool_decide (s = py_strip s) && negb (bool_decide (s ∈ [""; "."; ".."]))
      && negb (startswith "/" s) && negb (contains "/" s) && negb (contains "\" s) && negb (has_char "000" s)
  | _ => false
  end.

(** ** Descriptors *)

Section linux.
Context {W : Type} (operations : LinuxOperations W).

(** [try: operations.close(fd)], keeping the first failure. *)
Fixpoint close_each (fds : list (option Z)) (first_error : option exn) : ST W (option exn) :=
  match fds with
  | [] => mret first_error
  | None :: fds => close_each fds first_error
  | Some fd :: fds => λ w,
      match close operations fd w with
      | (w', Ok _) => close_each fds first_error w'
      | (w', Err e) => close_each fds (Some (default e first_error)) w'
      end
  end.

Definition _close_all (fds : list (option Z)) : ST W () :=
  first_error ← close_each fds None;
  st_lift (match first_error with None => Ok () | Some _ => boundary "fd close failed" end).

Definition _fail_with_cleanup {A} (fds : list (option Z)) (message : string) : ST W A :=
  _ ← st_catch (_close_all fds) (λ _, st_lift (boundary (message +:+ "; close failed")));
  st_lift (boundary message).

(** The message a failure is reported under. *)
Definition failure_message (other : string) (e : exn) : string :=
  match e with LinuxBoundaryError m => m | _ => other end.

Definition _pidfd_guard (pidfd peer_pid : Z) (proc_fd cgroup_fd : option Z) (identity : option PidfdIdentity)
  : ST W PidfdIdentity :=
  observed ← pidfd_reuse_check operations pidfd peer_pid proc_fd cgroup_fd identity;
  _ ← st_lift (_validate_pidfd_identity observed peer_pid);
  _ ← st_lift (expect (match identity with
                       | None => true
                       | Some i => py_eq (pi_pid observed) (pi_pid i)
                                   && py_eq (pi_start_time observed) (pi_start_time i)
                       end) "pidfd identity drifted");
  mret observed.

Definition open_pinned_child_directory (parent_fd : Z) (child_name : pyval) (expected : DirectoryIdentity)
  : ST W Z :=
  match child_name with
  | VStr name =>
      _ ← st_lift (expect (_valid_child_name child_name) "child name is not one canonical relative component");
      _ ← st_lift (_validate_directory_identity expected);
      fd ← st_catch (openat2 operations parent_fd name _OPENAT2_FLAGS _OPENAT2_RESOLVE)
             (λ _, st_lift (boundary "openat2 failed"));
      _ ← st_catch
            (observed ← fstat operations fd;
             _ ← st_lift (_validate_fd_stat observed);
             st_lift (expect (py_eq (fs_dev observed) (dev expected) && py_eq (fs_ino observed) (ino expected)
                              && py_eq (fs_mode observed) (dmode expected)) "directory identity drifted"))
            (λ e, _fail_with_cleanup [Some fd] (failure_message "fstat failed" e));
      mret fd
  | _ => st_lift (boundary "child name is not one canonical relative component")
  end.

(** The reads of the peer once its three descriptors are open, each between
    two checks of the process behind the descriptor. *)
Definition observe_pinned (peer_pid pidfd proc_fd cgroup_fd : Z) (identity : PidfdIdentity)
  : ST W (PeerSnapshot * PidfdIdentity) :=
  let guard identity := _pidfd_guard pidfd peer_pid (Some proc_fd) (Some cgroup_fd) (Some identity) in
  identity ← guard identity;
  cgroup_stat ← fstat operations cgroup_fd;
  _ ← st_lift (_validate_cgroup_stat cgroup_stat);
  identity ← guard identity;
  let cgroup_dev := fs_dev cgroup_stat in
  let cgroup_ino := fs_ino cgroup_stat in
  identity ← guard identity;
  raw ← read_proc_control_group operations pidfd proc_fd cgroup_fd cgroup_dev cgroup_ino;
  proc_control_group ← st_lift (_strict_text raw "proc control group");
  identity ← guard identity;
  identity ← guard identity;
  raw ← read_pid1_unit_name operations pidfd cgroup_fd cgroup_dev cgroup_ino;
  unit_name ← st_lift (_strict_text raw "PID-1 unit name");
  _ ← st_lift (expect (negb (contains "/" unit_name)) "PID-1 unit name is not canonical");
  identity ← guard identity;
  identity ← guard identity;
  unit_generation ← read_pid1_unit_generation operations pidfd cgroup_fd cgroup_dev cgroup_ino;
  identity ← guard identity;
  identity ← guard identity;
  invocation_id ← read_pid1_invocation_id operations pidfd cgroup_fd cgroup_dev cgroup_ino;
  identity ← guard identity;
  identity ← guard identity;
  raw ← read_pid1_control_group operations pidfd cgroup_fd cgroup_dev cgroup_ino;
  pid1_control_group ← st_lift (_strict_text raw "PID-1 control group");
  identity ← guard identity;
  identity ← guard identity;
  mcs_pair ← read_peer_mcs_pair operations pidfd proc_fd cgroup_fd cgroup_dev cgroup_ino;
  identity ← guard identity;
  _ ← st_lift (expect (bool_decide (proc_control_group = pid1_control_group))
                 "PID-1 control group does not match proc");
  _ ← st_lift (expect (endswith ("/" +:+ unit_name) pid1_control_group) "PID-1 unit does not match cgroup");
  let snapshot := {| sn_pid := pi_pid identity; sn_cgroup_dev := cgroup_dev; sn_cgroup_ino := cgroup_ino;
                     sn_invocation_id := invocation_id; sn_unit_generation := unit_generation;
                     sn_mcs_pair := mcs_pair |} in
  _ ← st_lift (_validate_observed_peer_snapshot snapshot peer_pid);
  mret (snapshot, identity).

(** [try: m] with the cleanup of both [except] clauses over [fds]. *)
Definition cleaning {A} (fds : list (option Z)) (m : ST W A) : ST W A :=
  st_catch m (λ e, _fail_with_cleanup fds (failure_message "peer boundary operation failed" e)).

(** The one [try] block of the code, cut where a descriptor is bound: what a
    failure closes is what has been bound so far, in the order
    [cgroup_fd, proc_fd, pidfd]. *)
Definition _observe_peer_snapshot_with_identity (peer_pid : Z) : ST W (PeerSnapshot * PidfdIdentity) :=
  _ ← st_lift (_positive_integer (VInt peer_pid) "peer pid");
  pidfd ← cleaning [None; None; None] (pidfd_open operations peer_pid 0);
  '(identity, proc_fd) ← cleaning [None; None; Some pidfd]
    (identity ← _pidfd_guard pidfd peer_pid None None None;
     proc_fd ← open_pinned_proc_pid operations pidfd peer_pid identity;
     mret (identity, proc_fd));
  '(identity, cgroup_fd) ← cleaning [None; Some proc_fd; Some pidfd]
    (identity ← _pidfd_guard pidfd peer_pid (Some proc_fd) None (Some identity);
     cgroup_fd ← open_proc_cgroup operations pidfd proc_fd identity;
     mret (identity, cgroup_fd));
  observed ← cleaning [Some cgroup_fd; Some proc_fd; Some pidfd]
    (observe_pinned peer_pid pidfd proc_fd cgroup_fd identity);
  _ ← _close_all [Some cgroup_fd; Some proc_fd; Some pidfd];
  mret observed.

Definition _attest_peer_principal_with_identity (peer_pid : Z) (expected : PrincipalBinding)
  : ST W (PeerSnapshot * PidfdIdentity) :=
  _ ← st_lift (_positive_integer (VInt peer_pid) "peer pid");
  _ ← st_lift (_validate_principal expected);
  observed ← _observe_peer_snapshot_with_identity peer_pid;
  _ ← st_lift (_validate_peer_snapshot (fst observed) peer_pid expected);
  mret observed.

Definition attest_peer_principal (peer_pid : Z) (expected : PrincipalBinding) : ST W PeerSnapshot :=
  observed ← _attest_peer_principal_with_identity peer_pid expected;
  mret (fst observed).
End linux.

(** ** Descriptors are not leaked

    [held] is the multiset of the descriptors open in a world. *)

Section leaks.
Context {W : Type} (held : W → list Z).

(** A call leaves every descriptor as it was. *)
Definition preserves {A} (m : ST W A) : Prop := ∀ w, held (m w).1 ≡ₚ held w.

(** A call that returns has opened the descriptor [fd] of its result. *)
Definition opens_fd {A} (fd : A → Z) (m : ST W A) : Prop :=
  ∀ w, match m w with
       | (w', Ok a) => held w' ≡ₚ fd a :: held w
       | (w', Err _) => held w' ≡ₚ held w
       end.

(** A call after which the descriptors are those of [keep] when it returns and
    those of [drop] when it raises. *)
Definition leaves_held {A} (w : W) (m : W * result A) (keep drop : list Z) : Prop :=
  match m with (w', Ok _) => held w' ≡ₚ keep | (w', Err _) => held w' ≡ₚ drop end.

Lemma preserves_ret {A} (a : A) : preserves (mret a).
Proof. by intros w. Qed.
Lemma preserves_lift {A} (r : result A) : preserves (st_lift r).
Proof. by intros w. Qed.
Lemma preserves_bind {A B} (m : ST W A) (f : A → ST W B) :
  preserves m → (∀ a, preserves (f a)) → preserves (m ≫= f).
Proof.
  intros Hm Hf w. rewrite st_bind_eq. specialize (Hm w). destruct (m w) as [w' [a|e]]; [|done].
  cbn in Hm. by rewrite (Hf a w').
Qed.

Lemma opens_after {A B} (fd : B → Z) (m : ST W A) (f : A → ST W B) :
  preserves m → (∀ a, opens_fd fd (f a)) → opens_fd fd (m ≫= f).
Proof.
  intros Hm Hf w. rewrite st_bind_eq. specialize (Hm w). destruct (m w) as [w' [a|e]]; [|done].
  cbn in Hm. specialize (Hf a w'). destruct (f a w') as [w'' [b|e]]; by rewrite Hf, Hm.
Qed.

Lemma opens_map {A B} (fd : A → Z) (fd' : B → Z) (m : ST W A) (g : A → B) :
  opens_fd fd m → (∀ a, fd' (g a) = fd a) → opens_fd fd' (a ← m; mret (g a)).
Proof.
  intros Hm Hg w. rewrite st_bind_eq. specialize (Hm w). destruct (m w) as [w' [a|e]]; [|done].
  cbn. by rewrite Hg.
Qed.
End leaks.

(** What the code relies on of the operating system: an operation that opens
    returns a descriptor that is open from then on, a closed descriptor is
    gone whether or not its closing reports an error, and the other
    operations open and close nothing. *)
Class LawfulLinux {W} (operations : LinuxOperations W) (held : W → list Z) : Prop := {
  law_openat2 fd name flags how : opens_fd held id (openat2 operations fd name flags how);
  law_pidfd_open pid flags : opens_fd held id (pidfd_open operations pid flags);
  law_proc pidfd pid i : opens_fd held id (open_pinned_proc_pid operations pidfd pid i);
  law_cgroup pidfd proc i : opens_fd held id (open_proc_cgroup operations pidfd proc i);
  law_close fd l w : held w ≡ₚ fd :: l → held (close operations fd w).1 ≡ₚ l;
  law_fstat fd : preserves held (fstat operations fd);
  law_reuse pidfd pid p c i : preserves held (pidfd_reuse_check operations pidfd pid p c i);
  law_group pidfd p c d n : preserves held (read_proc_control_group operations pidfd p c d n);
  law_name pidfd c d n : preserves held (read_pid1_unit_name operations pidfd c d n);
  law_generation pidfd c d n : preserves held (read_pid1_unit_generation operations pidfd c d n);
  law_invocation pidfd c d n : preserves held (read_pid1_invocation_id operations pidfd c d n);
  law_pid1_group pidfd c d n : preserves held (read_pid1_control_group operations pidfd c d n);
  law_mcs pidfd p c d n : preserves held (read_peer_mcs_pair operations pidfd p c d n);
}.

Create HintDb linux.
#[local] Hint Resolve preserves_ret preserves_lift law_fstat law_reuse law_group law_name law_generation
  law_invocation law_pid1_group law_mcs : linux.

(** A sequence of calls that open nothing. *)
Ltac preserving := repeat (first [apply preserves_bind; [|intros ?]|progress cbv zeta]); auto with linux.

Section cleanup.
Context {W : Type} (operations : LinuxOperations W) (held : W → list Z).
Context `{!LawfulLinux operations held}.

(** The descriptors of a list of variables. *)
Definition bound (fds : list (option Z)) : list Z := omap id fds.

Lemma close_each_held fds first_error l w :
  held w ≡ₚ bound fds ++ l →
  ∃ w' e, close_each operations fds first_error w = (w', Ok e) ∧ held w' ≡ₚ l.
Proof using LawfulLinux0.
  revert first_error w. induction fds as [|[fd|] fds IH]; intros fe w Hw; cbn [close_each].
  - by exists w, fe.
  - cbn in Hw. pose proof (law_close (operations := operations) fd _ w Hw) as Hc.
    destruct (close operations fd w) as [w' [u|e]]; by apply IH.
  - by apply IH.
Qed.

Lemma close_all_held fds l w : held w ≡ₚ bound fds ++ l → held (_close_all operations fds w).1 ≡ₚ l.
Proof using LawfulLinux0.
  intros Hw. unfold _close_all. rewrite st_bind_eq.
  destruct (close_each_held fds None l w Hw) as (w' & e & -> & Hw'). done.
Qed.

Lemma fail_with_cleanup_held {A} fds message l w :
  held w ≡ₚ bound fds ++ l →
  ∃ w' e, _fail_with_cleanup operations (A := A) fds message w = (w', Err e) ∧ held w' ≡ₚ l.
Proof using LawfulLinux0.
  intros Hw. pose proof (close_all_held fds l w Hw) as Hc. unfold _fail_with_cleanup. rewrite st_bind_eq.
  unfold st_catch. destruct (_close_all operations fds w) as [w' [u|e]]; cbn in Hc |- *; by do 2 eexists.
Qed.

(** A block under the cleanup keeps what it opened when it returns, and frees
    everything when it raises. *)
Lemma cleaning_opens {A} (fd : A → Z) fds (m : ST W A) l w :
  held w ≡ₚ bound fds ++ l → opens_fd held fd m →
  match cleaning operations fds m w with
  | (w', Ok a) => held w' ≡ₚ fd a :: bound fds ++ l
  | (w', Err _) => held w' ≡ₚ l
  end.
Proof using LawfulLinux0.
  intros Hw Hm. specialize (Hm w). unfold cleaning, st_catch.
  destruct (m w) as [w' [a|e]]; [by rewrite Hm, Hw|]. rewrite <- Hm in Hw.
  by destruct (fail_with_cleanup_held (A := A) fds (failure_message "peer boundary operation failed" e) l w' Hw)
    as (w'' & e' & -> & ?).
Qed.

Lemma cleaning_preserves {A} fds (m : ST W A) l w :
  held w ≡ₚ bound fds ++ l → preserves held m →
  match cleaning operations fds m w with
  | (w', Ok a) => held w' ≡ₚ bound fds ++ l
  | (w', Err _) => held w' ≡ₚ l
  end.
Proof using LawfulLinux0.
  intros Hw Hm. specialize (Hm w). unfold cleaning, st_catch.
  destruct (m w) as [w' [a|e]]; cbn in Hm; [by rewrite Hm|]. rewrite <- Hm in Hw.
  by destruct (fail_with_cleanup_held (A := A) fds (failure_message "peer boundary operation failed" e) l w' Hw)
    as (w'' & e' & -> & ?).
Qed.

Lemma guard_preserves pidfd pid p c i : preserves held (_pidfd_guard operations pidfd pid p c i).
Proof using LawfulLinux0. unfold _pidfd_guard. preserving. Qed.
#[local] Hint Resolve guard_preserves : linux.

Lemma observe_pinned_preserves pid pidfd p c i : preserves held (observe_pinned operations pid pidfd p c i).
Proof using LawfulLinux0. unfold observe_pinned. preserving. Qed.

Lemma guarded_open {A} (fd : A → Z) (m : ST W PidfdIdentity) (open : PidfdIdentity → ST W Z)
  (g : PidfdIdentity → Z → A) :
  preserves held m → (∀ i, opens_fd held id (open i)) → (∀ i z, fd (g i z) = z) →
  opens_fd held fd (i ← m; z ← open i; mret (g i z)).
Proof using Type.
  intros Hm Ho Hg. apply opens_after; [done|]. intros i.
  apply (opens_map held id); [apply Ho|intros z; apply Hg].
Qed.

Lemma observe_held pid : preserves held (_observe_peer_snapshot_with_identity operations pid).
Proof using LawfulLinux0.
  intros w. unfold _observe_peer_snapshot_with_identity. rewrite st_bind_eq. unfold st_lift at 1.
  destruct (_positive_integer (VInt pid) "peer pid"); [|done]. rewrite st_bind_eq.
  pose proof (cleaning_opens id [None; None; None] (pidfd_open operations pid 0) (held w) w
    ltac:(done) (law_pidfd_open pid 0)) as H.
  destruct (cleaning _ _ _ w) as [w1 [pidfd|e]]; [|done]. rewrite st_bind_eq.
  match goal with |- context [cleaning operations ?fds ?m w1] =>
    pose proof (cleaning_opens snd fds m (held w) w1 H (guarded_open _ _ _ _
      (guard_preserves _ _ _ _ _) (law_proc _ _) (λ _ _, eq_refl))) as H1;
    destruct (cleaning operations fds m w1) as [w2 [[i proc_fd]|e]]; [|done] end.
  rewrite st_bind_eq.
  match goal with |- context [cleaning operations ?fds ?m w2] =>
    pose proof (cleaning_opens snd fds m (held w) w2 H1 (guarded_open _ _ _ _
      (guard_preserves _ _ _ _ _) (law_cgroup _ _) (λ _ _, eq_refl))) as H2;
    destruct (cleaning operations fds m w2) as [w3 [[i' cgroup_fd]|e]]; [|done] end.
  rewrite st_bind_eq.
  match goal with |- context [cleaning operations ?fds ?m w3] =>
    pose proof (cleaning_preserves fds m (held w) w3 H2 (observe_pinned_preserves _ _ _ _ _)) as H3;
    destruct (cleaning operations fds m w3) as [w4 [observed|e]]; [|done] end.
  rewrite st_bind_eq. pose proof (close_all_held _ _ _ H3) as H4.
  destruct (_close_all operations _ w4) as [w5 [[]|e]]; by cbn in H4 |- *.
Qed.

Lemma open_child_held fd name d : opens_fd held id (open_pinned_child_directory operations fd name d).
Proof using LawfulLinux0.
  unfold open_pinned_child_directory. destruct name; try (by intros w; cbn).
  apply opens_after; [apply preserves_lift|intros _]. apply opens_after; [apply preserves_lift|intros _]. intros w.
  rewrite st_bind_eq. unfold st_catch at 1. pose proof (law_openat2 (operations := operations) fd s _OPENAT2_FLAGS _OPENAT2_RESOLVE w) as Ho.
  destruct (openat2 operations fd s _ _ w) as [w1 [opened|e]]; [|done]. rewrite st_bind_eq. unfold st_catch.
  match goal with |- context [match (?m w1) with _ => _ end] => assert (preserves held m) as Hm by preserving;
    specialize (Hm w1); destruct (m w1) as [w2 [u|e]]; cbn in Hm end; [by cbn; rewrite Hm|].
  rewrite Ho in Hm. cbn [id] in Hm.
  by destruct (fail_with_cleanup_held (A := ()) [Some opened] (failure_message "fstat failed" e) (held w) w2 Hm)
    as (w3 & e' & -> & ?).
Qed.
End cleanup.

(** ** What an attestation has read *)

Section reads.
Context {W : Type} (operations : LinuxOperations W).

(** The process [pid] that started at [start]. *)
Definition process (pid start : Z) : PidfdIdentity :=
  {| pi_pid := VInt pid; pi_start_time := VInt start |}.

Lemma guard_Ok pidfd pid p c i w w' i' :
  _pidfd_guard operations pidfd pid p c i w = (w', Ok i') →
  pidfd_reuse_check operations pidfd pid p c i w = (w', Ok i')
  ∧ (∃ start, i' = process pid start) ∧ (∀ start, i = Some (process pid start) → i' = process pid start).
Proof.
  unfold _pidfd_guard. intros (w1 & o & Ho & H)%st_bind_Ok. apply st_bind_Ok in H as (? & ? & [-> Hv]%st_lift_Ok & H).
  apply st_bind_Ok in H as (? & ? & [-> Hd]%st_lift_Ok & [= <- <-]). split; [done|].
  unfold _validate_pidfd_identity in Hv. apply bind_Ok in Hv as (z & Hz & Hv).
  apply bind_Ok in Hv as (start & Hs & He%require_Ok). destruct o as [op os]. cbn [pi_pid pi_start_time] in *.
  unfold _positive_integer in Hz. destruct op as [| |op | | | |]; try done. cbn in He. apply Z.eqb_eq in He as ->.
  unfold _strict_integer in Hs. destruct os as [| |os | | | |]; try done. split; [by exists os|].
  intros start' ->. apply require_Ok in Hd. cbn in Hd. apply andb_true_iff in Hd as [_ Hd%Z.eqb_eq].
  by rewrite Hd.
Qed.

Lemma cleaning_Ok {A} fds (m : ST W A) w w' a : cleaning operations fds m w = (w', Ok a) → m w = (w', Ok a).
Proof.
  unfold cleaning, st_catch. destruct (m w) as [w1 [a1|e]]; [done|]. unfold _fail_with_cleanup. intros H.
  apply st_bind_Ok in H as (? & ? & _ & H). done.
Qed.

(** A read of the peer between two checks that its descriptor still is the
    process [i]. *)
Definition pinned_read {A} (pidfd pid proc_fd cgroup_fd : Z) (i : PidfdIdentity) (read : ST W A) (a : A)
  (w w' : W) : Prop :=
  let check := pidfd_reuse_check operations pidfd pid (Some proc_fd) (Some cgroup_fd) (Some i) in
  ∃ w1 w2, check w = (w1, Ok i) ∧ read w1 = (w2, Ok a) ∧ check w2 = (w', Ok i).

(** The seven reads behind a snapshot, over the descriptors of the process [i]:
    each between two checks, the control group of the process being the one that
    PID 1 knows the unit under. *)
Definition pinned_reads (pidfd pid proc_fd cgroup_fd : Z) (i : PidfdIdentity) (w : W)
  (snapshot : PeerSnapshot) (w' : W) : Prop :=
  ∃ stat group unit w1 w2 w3 w4 w5 w6,
    let dev := fs_dev stat in
    let ino := fs_ino stat in
    let pinned {A} (read : ST W A) := pinned_read pidfd pid proc_fd cgroup_fd i read in
    pinned (fstat operations cgroup_fd) stat w w1
    ∧ pinned (read_proc_control_group operations pidfd proc_fd cgroup_fd dev ino) (VStr group) w1 w2
    ∧ pinned (read_pid1_unit_name operations pidfd cgroup_fd dev ino) (VStr unit) w2 w3
    ∧ pinned (read_pid1_unit_generation operations pidfd cgroup_fd dev ino) (sn_unit_generation snapshot) w3 w4
    ∧ pinned (read_pid1_invocation_id operations pidfd cgroup_fd dev ino) (sn_invocation_id snapshot) w4 w5
    ∧ pinned (read_pid1_control_group operations pidfd cgroup_fd dev ino) (VStr group) w5 w6
    ∧ pinned (read_peer_mcs_pair operations pidfd proc_fd cgroup_fd dev ino) (sn_mcs_pair snapshot) w6 w'
    ∧ _validate_cgroup_stat stat = Ok () ∧ contains "/" unit = false ∧ endswith ("/" +:+ unit) group = true
    ∧ sn_pid snapshot = VInt pid ∧ sn_cgroup_dev snapshot = dev ∧ sn_cgroup_ino snapshot = ino.

(** The calls behind the snapshot of a peer, up to the world [w'] in which its
    descriptors are closed: the process behind the descriptor is the same at
    every check. *)
Definition observed_peer (peer_pid : Z) (w : W) (snapshot : PeerSnapshot) (w' : W) : Prop :=
  ∃ pidfd proc_fd cgroup_fd start w1 w2 w3 w4 w5,
    let i := process peer_pid start in
    pidfd_open operations peer_pid 0 w = (w1, Ok pidfd)
    ∧ pidfd_reuse_check operations pidfd peer_pid None None None w1 = (w2, Ok i)
    ∧ open_pinned_proc_pid operations pidfd peer_pid i w2 = (w3, Ok proc_fd)
    ∧ pidfd_reuse_check operations pidfd peer_pid (Some proc_fd) None (Some i) w3 = (w4, Ok i)
    ∧ open_proc_cgroup operations pidfd proc_fd i w4 = (w5, Ok cgroup_fd)
    ∧ pinned_reads pidfd peer_pid proc_fd cgroup_fd i w5 snapshot w'.

Lemma strict_text_Ok v f s : _strict_text v f = Ok s → v = VStr s.
Proof. unfold _strict_text. destruct v; try done. by case_bool_decide; [|intros [= <-]]. Qed.

(** The checks of [H], a run over the descriptors of one process. *)
Ltac same_process H :=
  let w := fresh "w" in let i := fresh "i" in let Hg := fresh "Hg" in let Hs := fresh "Hs" in
  apply st_bind_Ok in H as (w & i & Hg & H); apply guard_Ok in Hg as (Hg & _ & Hs);
  specialize (Hs _ eq_refl); subst i.
(** A call of [H], and a validation. *)
Ltac called H w a Hr := apply st_bind_Ok in H as (w & a & Hr & H).
Ltac lifted H a Hv := apply st_bind_Ok in H as (? & a & [-> Hv]%st_lift_Ok & H).

Lemma observe_pinned_Ok pid pidfd proc_fd cgroup_fd start w w' snapshot i' :
  observe_pinned operations pid pidfd proc_fd cgroup_fd (process pid start) w = (w', Ok (snapshot, i')) →
  pinned_reads pidfd pid proc_fd cgroup_fd (process pid start) w snapshot w'.
Proof.
  unfold observe_pinned. cbv zeta. intros H.
  same_process H. called H x1 stat R1. lifted H u1 V1. same_process H.
  same_process H. called H x2 raw2 R2. lifted H group T2. same_process H.
  same_process H. called H x3 raw3 R3. lifted H name T3. lifted H u3 V3. same_process H.
  same_process H. called H x4 generation R4. same_process H.
  same_process H. called H x5 invocation R5. same_process H.
  same_process H. called H x6 raw6 R6. lifted H group' T6. same_process H.
  same_process H. called H x7 mcs R7. same_process H.
  lifted H u7 V7. lifted H u8 V8. lifted H u9 V9. injection H as <- <- <-.
  apply strict_text_Ok in T2 as ->, T3 as ->, T6 as ->.
  apply require_Ok in V3, V7, V8. apply negb_true_iff in V3. apply bool_decide_eq_true in V7 as <-.
  exists stat, group, name. do 6 eexists. cbv zeta. unfold pinned_read. destruct u1.
  split_and!; try done; do 2 eexists; split_and!; done.
Qed.

Lemma observed_Ok pid w w' snapshot i :
  _observe_peer_snapshot_with_identity operations pid w = (w', Ok (snapshot, i)) →
  ∃ w1 pidfd proc_fd cgroup_fd,
    observed_peer pid w snapshot w1
    ∧ _close_all operations [Some cgroup_fd; Some proc_fd; Some pidfd] w1 = (w', Ok ()).
Proof.
  unfold _observe_peer_snapshot_with_identity. intros H. lifted H u V.
  called H x1 pidfd R1. apply cleaning_Ok in R1.
  called H x2 opened R2. apply cleaning_Ok in R2. called R2 y1 i1 G1. called R2 y2 proc_fd P1.
  injection R2 as -> <-. apply guard_Ok in G1 as (G1 & [start ->] & _).
  called H x3 opened R3. apply cleaning_Ok in R3. same_process R3. called R3 y3 cgroup_fd P2. injection R3 as -> <-.
  called H x4 observed R4. apply cleaning_Ok in R4. called H x5 u5 R5. injection H as <- ->.
  exists x4, pidfd, proc_fd, cgroup_fd. destruct u5. split; [|done].
  exists pidfd, proc_fd, cgroup_fd, start. do 5 eexists. cbv zeta. split_and!; try done.
  by eapply observe_pinned_Ok.
Qed.
End reads.

(** C19: An attestation leaves no descriptor behind, whatever fails; and one
    that returns a snapshot has read all of it from the process asked for. The
    process behind the descriptor had the pid asked for and one start time at
    every check, and each of the seven reads lies between two checks; the
    control group of the process is the one PID 1 reports and ends in the
    unit's name; the five fields of the snapshot are what the reads answered,
    and they are those of the expected principal, which is valid. (Relied on
    for the descriptors: an operation that opens one returns it, closing one
    frees it even when it reports an error, and the reads open and close
    none.) *)
Theorem peer_attestation_sound {W} (operations : LinuxOperations W) (held : W → list Z)
  (lawful : LawfulLinux operations held) peer_pid expected w :
  let (w', outcome) := attest_peer_principal operations peer_pid expected w in
  held w' ≡ₚ held w
  ∧ ∀ snapshot, outcome = Ok snapshot →
      snapshot_matches snapshot expected = true ∧ validate_principal_binding expected = Ok ()
      ∧ ∃ w1 fds, observed_peer operations peer_pid w snapshot w1
          ∧ _close_all operations fds w1 = (w', Ok ()).
Proof.
  unfold attest_peer_principal, _attest_peer_principal_with_identity. rewrite !st_bind_eq. unfold st_lift at 1.
  destruct (_positive_integer (VInt peer_pid) "peer pid"); [|done]. rewrite st_bind_eq. unfold st_lift at 1.
  destruct (_validate_principal expected) as [[]|] eqn:Hp; [|done]. rewrite st_bind_eq.
  pose proof (observe_held operations held peer_pid w) as Hh.
  destruct (_observe_peer_snapshot_with_identity operations peer_pid w) as [w1 [[observed i]|e]] eqn:Ho; [|done].
  cbn in Hh. rewrite st_bind_eq. unfold st_lift at 1. cbn [fst].
  destruct (_validate_peer_snapshot observed peer_pid expected) as [[]|] eqn:Hv; [|done].
  cbn. split; [done|]. intros snapshot [= <-]. split; [|split].
  - by apply bind_Ok in Hv as (? & _ & Hm%require_Ok).
  - unfold _validate_principal, as_boundary in Hp. by apply reraise_Ok in Hp.
  - apply observed_Ok in Ho as (w2 & pidfd & proc_fd & cgroup_fd & Ho & Hc). eauto.
Qed.

(** ** A sample system

    A process whose three descriptors are numbered from the ones in use, over
    any world with a list of open descriptors. *)

Fixpoint remove_fd (fd : Z) (l : list Z) : list Z :=
  match l with [] => [] | x :: l => if x =? fd then l else x :: remove_fd fd l end.

Lemma remove_fd_perm fd l k : l ≡ₚ fd :: k → remove_fd fd l ≡ₚ k.
Proof.
  intros H. assert (fd ∈ l) as Hin by (rewrite H; left).
  assert (l ≡ₚ fd :: remove_fd fd l) as H2.
  { clear H k. induction l as [|x l IH]; [by apply elem_of_nil in Hin|]. cbn.
    destruct (Z.eqb_spec x fd) as [->|Hne]; [done|]. apply elem_of_cons in Hin as [->|Hin]; [done|].
    rewrite (IH Hin) at 1. apply Permutation_swap. }
  apply (Permutation_cons_inv (a := fd)). by rewrite <- H2.
Qed.

Section sample.
Context {W : Type} (held : W → list Z) (set_held : list Z → W → W).
Context (held_set : ∀ l w, held (set_held l w) = l).
Context (p : PrincipalBinding).

Definition open_next : ST W Z := λ w,
  let fd := Z.of_nat (length (held w)) + 3 in (set_held (fd :: held w) w, Ok fd).

Definition sample_linux : LinuxOperations W :=
  {| openat2 := λ _ _ _ _, open_next;
     fstat := λ fd, mret {| fs_dev := pb_cgroup_dev p; fs_ino := pb_cgroup_ino p; fs_mode := VInt 16749;
                            fs_uid := VInt 0; fs_gid := VInt 0 |};
     close := λ fd w, (set_held (remove_fd fd (held w)) w, Ok ());
     pidfd_open := λ _ _, open_next;
     pidfd_reuse_check := λ _ pid _ _ _, mret {| pi_pid := VInt pid; pi_start_time := VInt 77 |};
     open_pinned_proc_pid := λ _ _ _, open_next;
     open_proc_cgroup := λ _ _ _, open_next;
     read_proc_control_group := λ _ _ _ _ _, mret (VStr "/system.slice/home.service");
     read_pid1_unit_name := λ _ _ _ _, mret (VStr "home.service");
     read_pid1_unit_generation := λ _ _ _ _, mret (pb_unit_generation p);
     read_pid1_invocation_id := λ _ _ _ _, mret (pb_invocation_id p);
     read_pid1_control_group := λ _ _ _ _, mret (VStr "/system.slice/home.service");
     read_peer_mcs_pair := λ _ _ _ _ _, mret (pb_mcs_pair p) |}.

Lemma sample_linux_lawful : LawfulLinux sample_linux held.
Proof using held_set.
  split; try (by intros ** w; cbn; rewrite ?held_set).
  intros fd l w H. cbn. rewrite held_set. by apply remove_fd_perm.
Qed.
End sample.

Definition sample_peer : PrincipalBinding :=
  {| pb_agent_id := VStr "planner"; pb_manifest_generation := VInt 3; pb_unit_generation := VInt 2;
     pb_cgroup_dev := VInt 27; pb_cgroup_ino := VInt 901;
     pb_invocation_id := VStr "aaaaaaaaaaaaaaaaaaaaaaaaaaaaaaaa";
     pb_mcs_pair := VStr "c5,c17"; pb_fencing_epoch := VInt 0 |}.

(** A peer attested next to one open descriptor. *)
Lemma peer_attestation_sound_witness :
  let (w', outcome) := attest_peer_principal (sample_linux id (λ l _, l) sample_peer) 41 sample_peer [9] in
  is_ok outcome = true ∧ id w' ≡ₚ [9]
  ∧ ∀ snapshot, outcome = Ok snapshot → snapshot_matches snapshot sample_peer = true.
Proof.
  pose proof (peer_attestation_sound (sample_linux id (λ l _, l) sample_peer) id
    (sample_linux_lawful id (λ l _, l) (λ _ _, eq_refl) sample_peer) 41 sample_peer [9]) as H.
  assert (is_ok (attest_peer_principal (sample_linux id (λ l _, l) sample_peer) 41 sample_peer [9]).2 = true) as Hok
    by (vm_compute; reflexivity).
  destruct (attest_peer_principal (sample_linux id (λ l _, l) sample_peer) 41 sample_peer [9]) as [w' outcome].
  destruct H as [H1 H2]. split; [exact Hok|]. split; [exact H1|]. intros snapshot Hs.
  exact (proj1 (H2 snapshot Hs)).
Defined.
