(* ===== verification/BrokerPlan.v ===== *)
(** * Offline transactions of the home broker

    [src/src/the_hive/fleet_home_broker_identity.py] (the import closure) and
    [fleet_home_broker.py]: the plan of a transaction, its first record, and
    the resumption of one whose log has records. *)

From stdpp Require Import pretty.
From S2P Require Import Prelude Order DynamicPool Json JsonText StrictJson PyEq Sha256 BrokerTypes BrokerRelease BrokerCodec BrokerRecovery BrokerWal BrokerLinux.
#[local] Open Scope Z_scope.

(** ** Identity and import closure *)

Definition NUL : string := String (char_at 0) "".
Definition NL : string := String (char_at 10) "".

(** [BrokerIdentity.canonical_bytes]. *)
Definition identity_bytes (i : BrokerIdentity) : string :=
  let line (kv : string * string) := kv.1 +:+ (NUL +:+ (utf8_encode kv.2 +:+ NL)) in
  "broker-identity-v1" +:+ (NL +:+ py_join "" (line <$>
    [ ("agent_id", bi_agent_id i); ("manifest_generation", pretty (bi_manifest_generation i));
      ("mcs_pair", bi_mcs_pair i); ("slot_snapshot", slot_snapshot i);
      ("policy_generation", pretty (bi_policy_generation i)); ("projection_digest", bi_projection_digest i);
      ("executable_fingerprint", executable_fingerprint i);
      ("fencing_epoch", pretty (bi_fencing_epoch i)) ])).

Definition identity_digest (i : BrokerIdentity) : string := sha256_bytes (identity_bytes i).

(** The drive of a Windows path without backslashes that does not start with
    a slash: its first two characters, when the second is a colon. *)
Definition windows_drive (path : string) : bool :=
  match path with String _ (String c _) => is_char ":" c | _ => false end.
Definition windows_absolute (path : string) : bool :=
  match path with String _ (String c (String d _)) => is_char ":" c && is_char "/" d | _ => false end.

Definition _canonical_relative_path (v : pyval) : result string :=
  path ← _nonempty_text v "import path";
  if negb (bool_decide (path = py_strip path)) || has_char "000" path || contains "\" path
  then identity_error "import path is not canonical"
  else if startswith "/" path || windows_absolute path then identity_error "import path must be relative"
  else if windows_drive path then identity_error "import path must not contain a drive"
  else if existsb (λ part, bool_decide (part ∈ [""; "."; ".."])) (split_on "/" path)
  then identity_error "import path contains traversal or empty segment"
  else Ok path.

Record ImportClosureEntry := { ie_path : string; ie_digest : string }.

Definition ImportClosureEntry_new (path digest : pyval) : result ImportClosureEntry :=
  path ← _canonical_relative_path path;
  digest ← _sha256_digest digest "import digest";
  Ok {| ie_path := path; ie_digest := digest |}.

Definition _validated_entries (entries : list ImportClosureEntry) : result (list ImportClosureEntry) :=
  match entries with
  | [] => identity_error "import closure must be non-empty"
  | _ => if bool_decide (NoDup (ie_path <$> entries)) then Ok (sort_by str_cmp ie_path entries)
         else identity_error "import closure contains duplicate paths"
  end.

Record ImportClosure := { entries : list ImportClosureEntry }.

Definition ImportClosure_new (es : list ImportClosureEntry) : result ImportClosure :=
  es ← _validated_entries es; Ok {| entries := es |}.

(** [ImportClosure.canonical_bytes] and its digest. *)
Definition closure_bytes (c : ImportClosure) : string :=
  "import-closure-v1" +:+ (NL +:+ py_join ""
    ((λ e, utf8_encode (ie_path e) +:+ (NUL +:+ (ie_digest e +:+ NL))) <$> entries c)).
Definition closure_digest (c : ImportClosure) : string := sha256_bytes (closure_bytes c).

(** ** Plans *)

Record OfflineBrokerPlan := {
  pl_identity : BrokerIdentity;
  pl_import_closure : ImportClosure;
  pl_expected_principal : PrincipalBinding;
  pl_operation : ChpbTransactionOperation;
  pl_store_uuid : pyval;
  pl_population_total : pyval;
}.

Record OfflineBrokerStep := { st_status : option TransactionStatus; st_decision : RecoveryDecision }.

Record OfflineBrokerOperations (W : Type) := {
  new_transaction_id : ST W pyval;
  off_observe : OfflineBrokerPlan → ST W BrokerObservation;
}.
Arguments new_transaction_id {W}. Arguments off_observe {W}.

Definition _blocked_step : OfflineBrokerStep := {| st_status := None; st_decision := _blocked_decision |}.

Definition offline_error {A} (message : string) : result A := Err (OfflineBrokerError message).
Definition offline (condition : bool) (message : string) : result () :=
  require condition (OfflineBrokerError message).

(** Any failure under one message. *)
Definition as_offline {A} (message : string) (r : result A) : result A :=
  reraise (λ _, true) (λ _, OfflineBrokerError message) r.

Definition _validate_plan (plan : OfflineBrokerPlan) : result PolicyBinding :=
  '(identity, closure) ← as_offline "offline broker plan is invalid"
    (identity ← identity_again (pl_identity plan);
     closure ← ImportClosure_new (entries (pl_import_closure plan));
     _ ← validate_principal_binding (pl_expected_principal plan);
     Ok (identity, closure));
  _ ← offline (bool_decide (executable_fingerprint identity = closure_digest closure))
        "executable fingerprint is not bound to import closure";
  let p := pl_expected_principal plan in
  _ ← offline (py_eq (VStr (bi_agent_id identity)) (pb_agent_id p)
               && py_eq (VInt (bi_manifest_generation identity)) (pb_manifest_generation p)
               && py_eq (VStr (bi_mcs_pair identity)) (pb_mcs_pair p)
               && py_eq (VInt (bi_fencing_epoch identity)) (pb_fencing_epoch p))
        "identity and expected principal are not bound";
  let policy := {| policy_generation := VInt (bi_policy_generation identity);
                   projection_digest := VStr (bi_projection_digest identity) |} in
  _ ← as_offline "offline broker store or binding is invalid"
        (validate_transaction_binding
           {| operation := pl_operation plan; transaction_id := VStr (times 32 "0");
              store_uuid := pl_store_uuid plan; principal := p; policy := policy |});
  _ ← as_offline "offline broker population total is invalid"
        (_integer (pl_population_total plan) 1 MAX_CHPB_POPULATION_ENTRIES);
  Ok policy.

Definition _validate_peer_pid (peer_pid : Z) : result () := offline (0 <? peer_pid) "peer pid is invalid".

Definition _new_binding (plan : OfflineBrokerPlan) (policy : PolicyBinding) (transaction_id : pyval)
  : result TransactionBinding :=
  let binding := {| operation := pl_operation plan; transaction_id := transaction_id;
                    store_uuid := pl_store_uuid plan; principal := pl_expected_principal plan;
                    policy := policy |} in
  _ ← as_offline "broker-generated transaction id or binding is invalid" (validate_transaction_binding binding);
  Ok binding.

Definition sighted (o : BrokerObjectState) (g : BrokerRegistryState) : BrokerObservation :=
  {| object_state := o; registry_state := g; population_index := VInt 0 |}.

Definition _initial_observation (op : ChpbTransactionOperation) : BrokerObservation :=
  match op with
  | OP_PROVISION => sighted O_ABSENT G_NOT_APPLICABLE
  | OP_REPLACE => sighted O_REPLACEMENT_ORIGINAL G_NOT_APPLICABLE
  | OP_DEPROVISION => sighted O_FINAL_COMPLETE G_CURRENT
  end.

Definition _is_initial_observation (op : ChpbTransactionOperation) (o : BrokerObservation) : bool :=
  observation_eq o (_initial_observation op)
  || (bool_decide (op = OP_DEPROVISION) && observation_eq o (sighted O_ABSENT G_NOT_APPLICABLE)).

Definition _initial_checkpoint (op : ChpbTransactionOperation) : BrokerCheckpoint :=
  match op with
  | OP_PROVISION => C_CREATE_INTENT
  | OP_REPLACE => C_REPLACEMENT_PREPARE_INTENT
  | OP_DEPROVISION => C_DEPROVISION_INTENT
  end.

Definition _initial_status (plan : OfflineBrokerPlan) (policy : PolicyBinding) (transaction_id : pyval)
  (observation : BrokerObservation) : result TransactionStatus :=
  let checkpoint := _initial_checkpoint (pl_operation plan) in
  binding ← _new_binding plan policy transaction_id;
  let status := {| binding := binding; b2a_phase := b2a_phase_for_checkpoint checkpoint;
                   checkpoint := checkpoint; observation := observation;
                   population_total := pl_population_total plan; terminal_result := None |} in
  _ ← as_offline "offline broker initial status is invalid" (validate_transaction_status status);
  Ok status.

Definition _status_matches_plan (plan : OfflineBrokerPlan) (policy : PolicyBinding) (s : TransactionStatus)
  : bool :=
  is_ok (validate_transaction_status s)
  && bool_decide (operation (binding s) = pl_operation plan)
  && py_eq (store_uuid (binding s)) (pl_store_uuid plan)
  && principal_eq (principal (binding s)) (pl_expected_principal plan)
  && policy_eq (BrokerTypes.policy (binding s)) policy
  && py_eq (population_total s) (pl_population_total plan).

Definition _registry_or_terminal_blocked (s : TransactionStatus) (d : RecoveryDecision) : bool :=
  bool_decide (action d = A_CAS_REGISTRY)
  || bool_decide (next_checkpoint d ∈ [Some C_REGISTRY_CAS_INTENT; Some C_FINALIZE_INTENT])
  || bool_decide (checkpoint s ∈ [C_REGISTRY_CAS_INTENT; C_FINALIZE_INTENT])
  || (bool_decide (operation (binding s) ∈ [OP_PROVISION; OP_REPLACE])
      && bool_decide (checkpoint s = C_COMMITTED)).

(** ** Transactions *)

Section transactions.
Context {W : Type} (operations : OfflineBrokerOperations W) (linux : LinuxOperations W)
        (wal : WalOperations W).

(** [try: attest; observe  except Exception: None]. *)
Definition attested_observation (plan : OfflineBrokerPlan) (peer_pid : Z)
  : ST W (option BrokerObservation) :=
  st_catch
    (_ ← attest_peer_principal linux peer_pid (pl_expected_principal plan);
     o ← off_observe operations plan;
     mret (Some o))
    (λ _, mret None).

Definition begin_offline_transaction (plan : OfflineBrokerPlan) (peer_pid : Z) : ST W OfflineBrokerStep :=
  policy ← st_lift (_validate_plan plan);
  _ ← st_lift (_validate_peer_pid peer_pid);
  transaction_id ← st_catch (new_transaction_id operations)
                     (λ _, st_lift (offline_error "broker transaction id generation failed"));
  _ ← st_lift (_new_binding plan policy transaction_id);
  observed ← attested_observation plan peer_pid;
  match observed with
  | None => mret _blocked_step
  | Some observation =>
      if negb (_is_initial_observation (pl_operation plan) observation) then mret _blocked_step
      else
        status ← st_lift (_initial_status plan policy transaction_id observation);
        st_catch
          (_ ← append_status wal status;
           let decision := decide_broker_recovery status observation in
           mret (if bool_decide (action decision = A_RETURN_BLOCKED) then _blocked_step
                 else {| st_status := Some status; st_decision := decision |}))
          (λ _, mret _blocked_step)
  end.

Definition recover_offline_transaction (plan : OfflineBrokerPlan) (peer_pid : Z) : ST W OfflineBrokerStep :=
  policy ← st_lift (_validate_plan plan);
  _ ← st_lift (_validate_peer_pid peer_pid);
  observed ← attested_observation plan peer_pid;
  match observed with
  | None => mret _blocked_step
  | Some observation =>
      recovery ← recover_status wal observation;
      mret match wr_status recovery with
           | None => _blocked_step
           | Some status =>
               let decision := wr_decision recovery in
               if negb (_status_matches_plan plan policy status)
                  || bool_decide (action decision = A_RETURN_BLOCKED)
                  || _registry_or_terminal_blocked status decision
               then _blocked_step
               else {| st_status := Some status; st_decision := decision |}
           end
  end.
End transactions.
