(* ===== verification/BrokerExecution.v ===== *)
(** * The execution of home broker transactions

    [src/src/the_hive/fleet_home_broker_execution.py]: the composition that
    drives a provisioning, a replacement or a deprovisioning from checkpoint to
    checkpoint.  The root-owned effects, the system calls and the log are
    injected operations over one world.  Every method catches every exception
    and answers with a reply; the descriptors of a response are always none, so
    a response is its reply. *)

From S2P Require Import Prelude Order DynamicPool Json JsonText StrictJson PyEq Sha256 BrokerTypes BrokerRelease BrokerCodec BrokerRecovery BrokerWal BrokerLinux BrokerPlan.
#[local] Open Scope Z_scope.

Definition _MAX_DRIVE_STEPS : nat := 528.

Definition _EXECUTION_CHECKPOINTS : list BrokerCheckpoint :=
  [ C_CREATE_INTENT; C_STAGING_PINNED; C_POPULATE_PENDING; C_PUBLISH_INTENT; C_PUBLISHED;
    C_REGISTRY_CAS_INTENT; C_FINALIZE_INTENT; C_COMMITTED; C_BLOCKED_DRIFT;
    C_REPLACEMENT_PREPARE_INTENT; C_REPLACEMENT_PREPARED; C_SWITCH_INTENT; C_SWITCHED;
    C_DEPROVISION_INTENT; C_DEPROVISIONED ].

(** The injected root-owned effects. *)
Record RootBrokerExecutionOperations (W : Type) := {
  observe : OfflineBrokerPlan → ST W BrokerObservation;
  create_staging : OfflineBrokerPlan → ST W ();
  populate_next : OfflineBrokerPlan → ST W ();
  publish_home : OfflineBrokerPlan → ST W ();
  prepare_replacement : OfflineBrokerPlan → ST W ();
  switch_replacement : OfflineBrokerPlan → TransactionBinding → ST W ();
  cas_registry : OfflineBrokerPlan → TransactionBinding → ST W ();
  attest_deprovision_effect : OfflineBrokerPlan → TransactionBinding → BrokerRecoveryAction → ST W ();
  deprovision_home : OfflineBrokerPlan → TransactionBinding → ST W ();
}.
Arguments observe {W}. Arguments create_staging {W}. Arguments populate_next {W}.
Arguments publish_home {W}. Arguments prepare_replacement {W}. Arguments switch_replacement {W}.
Arguments cas_registry {W}. Arguments attest_deprovision_effect {W}. Arguments deprovision_home {W}.

(** [BrokerIntentV1]: the fields the composition reads. *)
Record BrokerIntentV1 := {
  in_operation : ChpbTransactionOperation;
  in_transaction_id : pyval;
  in_request_id : pyval;
  in_agent_id : pyval;
  in_manifest_generation : pyval;
  in_unit_generation : pyval;
  in_policy_generation : pyval;
  in_fencing_epoch : pyval;
  in_store_uuid : pyval;
  in_slot_id : pyval;
  in_mcs_pair : pyval;
  in_projection_digest : pyval;
}.

Record BrokerIntentResumeContext := { cx_transaction_id : pyval; cx_initial_observation : BrokerObservation }.

Record BrokerDispatchCommand := {
  cmd_principal : PrincipalBinding;
  cmd_request : ChpbMessage;
  cmd_plan : option OfflineBrokerPlan;
}.

(** ** Replies *)

Definition _reply (request_id : string) (code : BrokerResultCode) (s : TransactionStatus) : BrokerReply :=
  {| rp_protocol := VStr CHPB_PROTOCOL; rp_kind := K_REPLY; rp_request_id := VStr request_id;
     rp_result := code; rp_transaction := Some s; rp_attestation := None |}.

Definition _unbound_failure (request_id : string) : BrokerReply :=
  {| rp_protocol := VStr CHPB_PROTOCOL; rp_kind := K_REPLY; rp_request_id := VStr request_id;
     rp_result := R_INTERNAL_ERROR; rp_transaction := None; rp_attestation := None |}.

(** A text of 32 hexadecimal digits, or 32 zeros. *)
Definition _request_id (candidate : pyval) : string :=
  match candidate with VStr s => if is_hex 32 s then s else times 32 "0" | _ => times 32 "0" end.

Definition _transaction_id (candidate : pyval) : pyval :=
  match candidate with VStr s => VStr s | _ => VStr "" end.

Definition _valid_transaction_id (v : pyval) : bool := match v with VStr s => is_hex 32 s | _ => false end.
Definition _valid_request_id (v : pyval) : bool := _valid_transaction_id v.

(** The request id and the transaction id of a message. *)
Definition message_request_id (m : ChpbMessage) : pyval :=
  match m with
  | AttestHomeRequest h | QueryTransactionRequest h | GetTerminalResultRequest h => rh_request_id h
  | ProvisionHomeRequest h _ | ReplaceHomeRequest h _ | DeprovisionHomeRequest h _ => rh_request_id h
  | Reply r => rp_request_id r
  | AgentStartClaim _ _ request_id => request_id
  | Envelope e => en_request_id e
  end.

(** The mutation a request asks for. *)
Definition mutation_of (m : ChpbMessage) : option (ChpbTransactionOperation * RequestHead * TransactionBinding) :=
  match m with
  | ProvisionHomeRequest h b => Some (OP_PROVISION, h, b)
  | ReplaceHomeRequest h b => Some (OP_REPLACE, h, b)
  | DeprovisionHomeRequest h b => Some (OP_DEPROVISION, h, b)
  | _ => None
  end.

(** ** Plans and statuses *)

Definition _binding_for (plan : OfflineBrokerPlan) (transaction_id : pyval) : result TransactionBinding :=
  let i := pl_identity plan in
  let binding := {| operation := pl_operation plan; transaction_id := transaction_id;
                    store_uuid := pl_store_uuid plan; principal := pl_expected_principal plan;
                    policy := {| policy_generation := VInt (bi_policy_generation i);
                                 projection_digest := VStr (bi_projection_digest i) |} |} in
  _ ← validate_transaction_binding binding;
  Ok binding.

Definition _matches (plan : OfflineBrokerPlan) (transaction_id : pyval) (s : option TransactionStatus) : bool :=
  match s with
  | None => false
  | Some s =>
      is_ok (validate_transaction_status s)
      && match _binding_for plan transaction_id with
         | Ok b => binding_eq (binding s) b && py_eq (population_total s) (pl_population_total plan)
         | Err _ => false
         end
  end.

Definition _plan_matches_intent (plan : OfflineBrokerPlan) (intent : BrokerIntentV1) : bool :=
  let p := pl_expected_principal plan in
  let i := pl_identity plan in
  bool_decide (pl_operation plan = in_operation intent)
  && py_eq (pl_store_uuid plan) (in_store_uuid intent)
  && py_eq (pb_agent_id p) (in_agent_id intent)
  && py_eq (pb_manifest_generation p) (in_manifest_generation intent)
  && py_eq (pb_unit_generation p) (in_unit_generation intent)
  && py_eq (pb_mcs_pair p) (in_mcs_pair intent)
  && py_eq (pb_fencing_epoch p) (in_fencing_epoch intent)
  && py_eq (VStr (bi_agent_id i)) (in_agent_id intent)
  && py_eq (VInt (bi_manifest_generation i)) (in_manifest_generation intent)
  && py_eq (VStr (bi_mcs_pair i)) (in_mcs_pair intent)
  && py_eq (VStr (slot_snapshot i)) (in_slot_id intent)
  && py_eq (VInt (bi_policy_generation i)) (in_policy_generation intent)
  && py_eq (VStr (bi_projection_digest i)) (in_projection_digest intent)
  && py_eq (VInt (bi_fencing_epoch i)) (in_fencing_epoch intent).

(** [type(value.population_index) is int and value.population_index == 0]. *)
Definition _is_initial (op : ChpbTransactionOperation) (o : BrokerObservation) : bool :=
  let expected := _initial_observation op in
  bool_decide (object_state o = object_state expected)
  && bool_decide (registry_state o = registry_state expected)
  && match population_index o with VInt z => z =? 0 | _ => false end.

Definition blocked_status (b : TransactionBinding) (o : BrokerObservation) (total : pyval) : TransactionStatus :=
  {| binding := b; b2a_phase := P_BLOCKED; checkpoint := C_BLOCKED_DRIFT; observation := o;
     population_total := total; terminal_result := Some R_BLOCKED_DRIFT |}.

(** The status [_persist] stores: a rolled back checkpoint has no terminal
    result there. *)
Definition persisted_status (s : TransactionStatus) (target : BrokerCheckpoint) (o : BrokerObservation)
  : TransactionStatus :=
  {| binding := binding s; b2a_phase := b2a_phase_for_checkpoint target; checkpoint := target;
     observation := o; population_total := population_total s;
     terminal_result := if bool_decide (target ∈ [C_COMMITTED; C_DEPROVISIONED])
                        then Some R_COMMITTED else None |}.

(** ** The composition *)

Section composition.
Context {W : Type} (operations : RootBrokerExecutionOperations W) (linux : LinuxOperations W)
        (wal : WalOperations W) (peer_pid : Z).

(** [_FixedTransactionOperations]. *)
Definition fixed (transaction_id : pyval) : OfflineBrokerOperations W :=
  {| new_transaction_id := mret transaction_id; off_observe := observe operations |}.

(** [_blocked] with a previous status. *)
Definition blocked_after (plan : OfflineBrokerPlan) (request_id : string) (previous : TransactionStatus)
  (observation : option BrokerObservation) : ST W BrokerReply :=
  let observed := default (BrokerTypes.observation previous) observation in
  recovery ← recover_status wal observed;
  let '(status, observed) :=
    match wr_status recovery with
    | Some recovered =>
        if _matches plan (transaction_id (binding previous)) (Some recovered)
        then (recovered, BrokerTypes.observation recovered) else (previous, observed)
    | None => (previous, observed)
    end in
  let status := blocked_status (binding status) observed (population_total status) in
  _ ← st_catch (_ ← append_status wal status; mret ()) (λ _, mret ());
  mret (_reply request_id R_BLOCKED_DRIFT status).

(** [_blocked] without one. *)
Definition blocked_plan (plan : OfflineBrokerPlan) (transaction_id : pyval) (request_id : string)
  : BrokerReply :=
  match (b ← _binding_for plan transaction_id;
         let status := blocked_status b (_initial_observation (pl_operation plan)) (pl_population_total plan) in
         _ ← validate_transaction_status status;
         Ok status) with
  | Ok status => _reply request_id R_BLOCKED_DRIFT status
  | Err _ => _unbound_failure request_id
  end.

Definition _persist (s : TransactionStatus) (d : RecoveryDecision) (o : BrokerObservation)
  : ST W TransactionStatus :=
  target ← st_lift (match next_checkpoint d with
                    | Some target => Ok target
                    | None => Err (ValueError "missing checkpoint")
                    end);
  let next_status := persisted_status s target o in
  _ ← st_lift (validate_transaction_status next_status);
  _ ← append_status wal next_status;
  mret next_status.

(** One turn of the loop: a reply, or the status to go on with. *)
Definition drive_step (plan : OfflineBrokerPlan) (request_id : string) (s : TransactionStatus)
  : ST W (BrokerReply + TransactionStatus) :=
  o ← observe operations plan;
  let d := decide_broker_recovery s o in
  let continue (effect : ST W ()) : ST W (BrokerReply + TransactionStatus) :=
    _ ← effect; mret (inr s) in
  match action d with
  | A_RETURN_COMMITTED => mret (inl (_reply request_id R_COMMITTED s))
  | A_RETURN_BLOCKED => reply ← blocked_after plan request_id s (Some o); mret (inl reply)
  | A_PERSIST_CHECKPOINT => s' ← _persist s d o; mret (inr s')
  | A_CREATE_STAGING => continue (create_staging operations plan)
  | A_POPULATE_NEXT => continue (populate_next operations plan)
  | A_PUBLISH_HOME => continue (publish_home operations plan)
  | A_PREPARE_REPLACEMENT => continue (prepare_replacement operations plan)
  | A_SWITCH_REPLACEMENT => continue (switch_replacement operations plan (binding s))
  | A_CAS_REGISTRY =>
      _ ← (if bool_decide (pl_operation plan = OP_DEPROVISION)
           then attest_deprovision_effect operations plan (binding s) A_CAS_REGISTRY else mret ());
      continue (cas_registry operations plan (binding s))
  | A_DEPROVISION_HOME =>
      _ ← attest_deprovision_effect operations plan (binding s) A_DEPROVISION_HOME;
      continue (deprovision_home operations plan (binding s))
  | A_ROLLBACK | A_RETURN_ROLLED_BACK => st_lift (Err (ValueError "unsupported broker recovery action"))
  end.

Fixpoint _drive (steps : nat) (plan : OfflineBrokerPlan) (request_id : string) (s : TransactionStatus)
  : ST W BrokerReply :=
  match steps with
  | O => blocked_after plan request_id s None
  | S steps => λ w,
      match drive_step plan request_id s w with
      | (w', Ok (inl reply)) => (w', Ok reply)
      | (w', Ok (inr s')) => _drive steps plan request_id s' w'
      | (w', Err _) => blocked_after plan request_id s None w'
      end
  end.

(** [try: m  except Exception: None]. *)
Definition or_none {A} (m : ST W (option A)) : ST W (option A) := st_catch m (λ _, mret None).

Definition started_status (plan : OfflineBrokerPlan) (transaction_id : pyval)
  : ST W (option TransactionStatus) :=
  or_none (started ← begin_offline_transaction (fixed transaction_id) linux wal plan peer_pid;
           mret (st_status started)).

(** The last lines of [_execute_new] and [resume_intent]. *)
Definition drive_from (plan : OfflineBrokerPlan) (transaction_id : pyval) (request_id : string)
  (status : option TransactionStatus) : ST W BrokerReply :=
  match status with
  | Some s => if _matches plan transaction_id (Some s) then _drive _MAX_DRIVE_STEPS plan request_id s
              else mret (blocked_plan plan transaction_id request_id)
  | None => mret (blocked_plan plan transaction_id request_id)
  end.

Definition _execute_new (plan : OfflineBrokerPlan) (transaction_id : pyval) (request_id : string)
  : ST W BrokerReply :=
  if negb (_valid_transaction_id transaction_id) then mret (blocked_plan plan transaction_id request_id)
  else
    status ← started_status plan transaction_id;
    drive_from plan transaction_id request_id status.

(** The request is for the plan's operation and bound to it. *)
Definition command_bound (command : BrokerDispatchCommand) : option (OfflineBrokerPlan * RequestHead) :=
  match cmd_plan command, mutation_of (cmd_request command) with
  | Some plan, Some (op, h, b) =>
      if bool_decide (op = pl_operation plan) && _valid_request_id (rh_request_id h)
         && principal_eq (cmd_principal command) (pl_expected_principal plan)
         && match _binding_for plan (rh_transaction_id h) with Ok b' => binding_eq b b' | Err _ => false end
      then Some (plan, h) else None
  | _, _ => None
  end.

Definition execute (command : BrokerDispatchCommand) : ST W BrokerReply :=
  let request_id := _request_id (message_request_id (cmd_request command)) in
  match command_bound command with
  | None => mret (_unbound_failure request_id)
  | Some (plan, h) =>
      st_catch (_execute_new plan (rh_transaction_id h) request_id)
        (λ _, mret (_unbound_failure request_id))
  end.

Definition execute_intent (intent : BrokerIntentV1) (plan : OfflineBrokerPlan) : ST W BrokerReply :=
  let request_id := _request_id (in_request_id intent) in
  if negb (_plan_matches_intent plan intent)
  then mret (blocked_plan plan (_transaction_id (in_transaction_id intent)) request_id)
  else _execute_new plan (in_transaction_id intent) request_id.

(** An attestably untouched first record, created again. *)
Definition _begin_empty_wal_recovery (plan : OfflineBrokerPlan) (transaction_id : pyval)
  : ST W (option TransactionStatus) :=
  or_none (records ← read_all wal;
           match records with
           | [] => started ← begin_offline_transaction (fixed transaction_id) linux wal plan peer_pid;
                   mret (st_status started)
           | _ => mret None
           end).

Definition _late_recovery_status (plan : OfflineBrokerPlan) (transaction_id : pyval)
  : ST W (option TransactionStatus) :=
  or_none (o ← observe operations plan;
           recovered ← recover_status wal o;
           let d := wr_decision recovered in
           mret match wr_status recovered with
                | None => None
                | Some s =>
                    if negb (_matches plan transaction_id (Some s))
                       || negb (bool_decide (checkpoint s ∈ _EXECUTION_CHECKPOINTS))
                       || bool_decide (action d = A_RETURN_BLOCKED)
                       || (bool_decide (checkpoint s = C_REGISTRY_CAS_INTENT)
                           && bool_decide (action d = A_CAS_REGISTRY))
                       || (bool_decide (operation (binding s) = OP_DEPROVISION)
                           && bool_decide (checkpoint s = C_FINALIZE_INTENT)
                           && bool_decide (action d = A_DEPROVISION_HOME))
                    then None else Some s
                end).

(** [if status is None: status = m]. *)
Definition or_else (status : option TransactionStatus) (m : ST W (option TransactionStatus))
  : ST W (option TransactionStatus) :=
  match status with Some s => mret (Some s) | None => m end.

Definition resume_intent (intent : BrokerIntentV1) (plan : OfflineBrokerPlan)
  (context : BrokerIntentResumeContext) : ST W BrokerReply :=
  let request_id := _request_id (in_request_id intent) in
  let transaction_id := _transaction_id (in_transaction_id intent) in
  if negb (_plan_matches_intent plan intent) || negb (py_eq (cx_transaction_id context) transaction_id)
     || negb (_is_initial (pl_operation plan) (cx_initial_observation context))
  then mret (blocked_plan plan transaction_id request_id)
  else
    status ← or_none (recovered ← recover_offline_transaction (fixed transaction_id) linux wal plan peer_pid;
                      mret (st_status recovered));
    status ← or_else status (_begin_empty_wal_recovery plan transaction_id);
    status ← or_else status (_late_recovery_status plan transaction_id);
    drive_from plan transaction_id request_id status.
End composition.

(** ** Totality *)

Section total.
Context {W : Type} (operations : RootBrokerExecutionOperations W) (linux : LinuxOperations W)
        (wal : WalOperations W) (peer_pid : Z).

Lemma recover_status_total o w : ∃ w' r, recover_status wal o w = (w', Ok r).
Proof.
  unfold recover_status, st_catch. destruct ((validated_log wal ≫= _) w) as [w' [r|e]]; by do 2 eexists.
Qed.

(** Blocking answers with a blocked reply, whatever fails on the way. *)
Lemma blocked_after_total plan rid s o w :
  ∃ w' b o' t, blocked_after wal plan rid s o w = (w', Ok (_reply rid R_BLOCKED_DRIFT (blocked_status b o' t))).
Proof.
  unfold blocked_after. rewrite st_bind_eq. destruct (recover_status_total (default (BrokerTypes.observation s) o) w) as (w1 & r & ->).
  destruct (match wr_status r with Some _ => _ | None => _ end) as [s' o'].
  rewrite st_bind_eq. unfold st_catch.
  destruct ((append_status wal _ ≫= _) w1) as [w2 [u|e]]; cbn; by do 4 eexists.
Qed.

(** [m] keeps the property [P] of the world, also when it raises. *)
Definition keeps {A} (P : W → Prop) (m : ST W A) : Prop := ∀ w, P w → P (m w).1.

(** Every injected effect keeps [P]. *)
Record effects_keep (P : W → Prop) : Prop := {
  keep_observe plan : keeps P (observe operations plan);
  keep_create plan : keeps P (create_staging operations plan);
  keep_populate plan : keeps P (populate_next operations plan);
  keep_publish plan : keeps P (publish_home operations plan);
  keep_prepare plan : keeps P (prepare_replacement operations plan);
  keep_switch plan b : keeps P (switch_replacement operations plan b);
  keep_cas plan b : keeps P (cas_registry operations plan b);
  keep_attest plan b a : keeps P (attest_deprovision_effect operations plan b a);
  keep_deprovision plan b : keeps P (deprovision_home operations plan b);
}.

(** A part of the world that may not depend on how the loop ends, [I], and one
    that relates the status of a drive and the world, [J]: the effects keep it,
    a checkpoint persisted keeps it for the new status, and blocking keeps [I]. *)
Context (I : W → Prop) (J : TransactionStatus → W → Prop).
Context (related : ∀ s w, J s w → I w).
Context (effects : ∀ s, effects_keep (J s)).
Context (blocks : ∀ plan rid s o, keeps I (blocked_after wal plan rid s o)).
Context (persists : ∀ s o c w,
  J s w → action (decide_broker_recovery s o) = A_PERSIST_CHECKPOINT →
  next_checkpoint (decide_broker_recovery s o) = Some c →
  match append_status wal (persisted_status s c o) w with
  | (w', Ok _) => J (persisted_status s c o) w'
  | (w', Err _) => I w'
  end).

(** What a turn of the loop may come to. *)
Definition turn (rid : string) (s : TransactionStatus) (outcome : W * result (BrokerReply + TransactionStatus))
  : Prop :=
  match outcome with
  | (w', Ok (inr s')) => J s' w'
  | (w', Ok (inl reply)) =>
      I w'
      ∧ (rp_result reply = R_BLOCKED_DRIFT
         ∨ reply = _reply rid R_COMMITTED s ∧ J s w'
           ∧ ∃ o, action (decide_broker_recovery s o) = A_RETURN_COMMITTED)
  | (w', Err _) => I w'
  end.

Lemma turn_after rid s (m : ST W ()) (f : () → ST W (BrokerReply + TransactionStatus)) w :
  keeps (J s) m → J s w → (∀ w', J s w' → turn rid s (f () w')) → turn rid s ((m ≫= f) w).
Proof using related.
  intros Hk Hs Hf. rewrite st_bind_eq. specialize (Hk w Hs).
  destruct (m w) as [w' [[]|e]]; [by apply Hf|by apply (related s)].
Qed.

Lemma turn_effect rid s (effect : ST W ()) w :
  keeps (J s) effect → J s w → turn rid s ((_ ← effect; mret (inr s)) w).
Proof using related. intros Hk Hs. by apply turn_after. Qed.

Lemma drive_step_turn plan rid s w : J s w → turn rid s (drive_step operations wal plan rid s w).
Proof using related effects blocks persists.
  intros Hs. unfold drive_step. rewrite st_bind_eq. pose proof (keep_observe _ (effects s) plan w Hs) as Hw.
  destruct (observe operations plan w) as [w1 [o|e]]; [|by apply (related s)]. cbn in Hw. cbv zeta.
  destruct (action (decide_broker_recovery s o)) eqn:Ha.
  - apply turn_effect; [apply (effects s)|done].
  - apply turn_effect; [apply (effects s)|done].
  - apply turn_effect; [apply (effects s)|done].
  - apply turn_effect; [apply (effects s)|done].
  - apply turn_effect; [apply (effects s)|done].
  - apply turn_after; [by case_bool_decide; [apply (effects s)|intros v]|done|].
    intros w2 Hw2. apply turn_effect; [apply (effects s)|done].
  - apply turn_after; [apply (effects s)|done|]. intros w2 Hw2. apply turn_effect; [apply (effects s)|done].
  - by apply (related s).
  - unfold _persist. rewrite !st_bind_eq. unfold st_lift at 1.
    destruct (next_checkpoint (decide_broker_recovery s o)) as [c|] eqn:Hc; [|by apply (related s)].
    cbv zeta. rewrite st_bind_eq. unfold st_lift at 1.
    destruct (validate_transaction_status (persisted_status s c o)); [|by apply (related s)].
    rewrite st_bind_eq. pose proof (persists s o c w1 Hw Ha Hc) as Hp.
    by destruct (append_status wal (persisted_status s c o) w1) as [w2 [r|e]].
  - split; [by apply (related s)|]. right. split_and!; [done|done|by exists o].
  - by apply (related s).
  - rewrite st_bind_eq. pose proof (blocks plan rid s (Some o) w1 (related _ _ Hw)) as Hb.
    destruct (blocked_after_total plan rid s (Some o) w1) as (w2 & b & o' & t & E). rewrite E in Hb |- *.
    split; [done|by left].
Qed.

(** The loop always answers: it commits from a status a decision returned as
    committed, or it blocks. *)
Lemma drive_answers n plan rid s w :
  J s w →
  ∃ w' reply, _drive operations wal n plan rid s w = (w', Ok reply) ∧ I w'
    ∧ (rp_result reply = R_BLOCKED_DRIFT
       ∨ ∃ s', reply = _reply rid R_COMMITTED s' ∧ J s' w'
           ∧ ∃ o, action (decide_broker_recovery s' o) = A_RETURN_COMMITTED).
Proof using related effects blocks persists.
  assert (∀ s w, I w → ∃ w' reply, blocked_after wal plan rid s None w = (w', Ok reply) ∧ I w'
    ∧ rp_result reply = R_BLOCKED_DRIFT) as Hblock.
  { intros s' w' Hi. pose proof (blocks plan rid s' None w' Hi) as Hb.
    destruct (blocked_after_total plan rid s' None w') as (w2 & b & o' & t & E). rewrite E in Hb |- *.
    by do 2 eexists. }
  revert s w. induction n as [|n IH]; intros s w Hs; cbn [_drive].
  - destruct (Hblock s w (related _ _ Hs)) as (w' & reply & -> & Hi & Hr). eauto 10.
  - pose proof (drive_step_turn plan rid s w Hs) as Ht.
    destruct (drive_step operations wal plan rid s w) as [w1 [[reply|s1]|e]]; cbn in Ht.
    + destruct Ht as [Hi [Ht|(-> & Ht)]]; eauto 10.
    + by apply IH.
    + destruct (Hblock s w1 Ht) as (w' & reply & -> & Hi & Hr). eauto 10.
Qed.
End total.

(** A property that does not look at the world is kept. *)
Lemma effects_keep_const {W} (operations : RootBrokerExecutionOperations W) (P : Prop) :
  effects_keep operations (λ _, P).
Proof. by constructor; intros ** w. Qed.

(** ** The first status *)

Lemma initial_status_Ok plan policy tid o s :
  _initial_status plan policy tid o = Ok s →
  operation (binding s) = pl_operation plan ∧ population_total s = pl_population_total plan
  ∧ observation s = o ∧ checkpoint s = _initial_checkpoint (pl_operation plan)
  ∧ validate_transaction_status s = Ok ().
Proof.
  unfold _initial_status, _new_binding. intros (b & Hb & H)%bind_Ok.
  apply bind_Ok in Hb as (? & _ & [= <-]). apply bind_Ok in H as ([] & Hv%reraise_Ok & [= <-]). done.
Qed.

(** [op] seen for the first time, in a valid status: nothing is populated. *)
Lemma initial_index op o s :
  _is_initial_observation op o = true → observation s = o → validate_transaction_status s = Ok () →
  population_index o = VInt 0.
Proof.
  intros Ho <- (_ & _ & _ & (z & _ & Hz & _) & _)%validate_status_Ok.
  assert (py_eq (population_index (observation s)) (VInt 0) = true) as H.
  { unfold _is_initial_observation, observation_eq in Ho.
    apply orb_true_iff in Ho as [Ho|Ho]; apply andb_true_iff in Ho as [? Ho]; [by destruct op|].
    by apply andb_true_iff in Ho as [_ Ho]. }
  rewrite Hz in *. cbn in H. by apply Z.eqb_eq in H as ->.
Qed.

Section started.
Context {W : Type} (operations : RootBrokerExecutionOperations W) (linux : LinuxOperations W)
        (wal : WalOperations W) (peer_pid : Z).

(** What a transaction started from nothing has done: an initial observation
    after an attestation, and the append of the first status. *)
Lemma started_status_Ok plan tid w w' s :
  started_status operations linux wal peer_pid plan tid w = (w', Ok (Some s)) →
  ∃ policy o w1 r,
    attested_observation (fixed operations tid) linux plan peer_pid w = (w1, Ok (Some o))
    ∧ _is_initial_observation (pl_operation plan) o = true
    ∧ _initial_status plan policy tid o = Ok s
    ∧ append_status wal s w1 = (w', Ok r).
Proof.
  unfold started_status, or_none, st_catch at 1. rewrite st_bind_eq. intros H.
  destruct (begin_offline_transaction _ _ _ _ _ w) as [w2 [step|e]] eqn:Hb; [|done].
  injection H as -> Hs. unfold begin_offline_transaction in Hb.
  apply st_bind_Ok in Hb as (? & policy & [-> _]%st_lift_Ok & Hb).
  apply st_bind_Ok in Hb as (? & ? & [-> _]%st_lift_Ok & Hb).
  apply st_bind_Ok in Hb as (? & t & [= <- <-] & Hb).
  apply st_bind_Ok in Hb as (? & ? & [-> _]%st_lift_Ok & Hb).
  apply st_bind_Ok in Hb as (w1 & observed & Ho & Hb).
  destruct observed as [o|]; [|by injection Hb as <- <-].
  destruct (_is_initial_observation (pl_operation plan) o) eqn:Hi; [|by injection Hb as <- <-].
  cbn [negb] in Hb. apply st_bind_Ok in Hb as (? & s' & [-> Hs']%st_lift_Ok & Hb).
  unfold st_catch in Hb. rewrite st_bind_eq in Hb.
  destruct (append_status wal s' w1) as [w3 [r|e]] eqn:Ha; [|by injection Hb as <- <-].
  cbv zeta in Hb. case_bool_decide; injection Hb as <- <-; [done|]. injection Hs as ->.
  exists policy, o, w1, r. done.
Qed.

Lemma started_status_total plan tid w :
  ∃ w' s, started_status operations linux wal peer_pid plan tid w = (w', Ok s).
Proof.
  unfold started_status, or_none, st_catch at 1. rewrite st_bind_eq.
  destruct (begin_offline_transaction _ _ _ _ _ w) as [w' [s|e]]; by do 2 eexists.
Qed.
End started.

Lemma blocked_plan_result plan tid rid : rp_result (blocked_plan plan tid rid) ≠ R_COMMITTED.
Proof. unfold blocked_plan. by destruct (_ ≫= _). Qed.

(** ** Provisioning commits small homes only

    A populated entry is not persisted while the staging is a prefix, and an
    observation may be one entry ahead of the last status at most. *)

Definition small_home (total : Z) (s : TransactionStatus) : Prop :=
  int_value (population_total s) = total ∧ operation (binding s) = OP_PROVISION
  ∧ match checkpoint s with
    | C_CREATE_INTENT => int_value (population_index (observation s)) <= 0
    | C_STAGING_PINNED => int_value (population_index (observation s)) <= 1
    | C_POPULATE_PENDING => int_value (population_index (observation s)) <= 2
    | C_BLOCKED_DRIFT | C_ROLLBACK_INTENT | C_ROLLED_BACK => True
    | _ => total <= 3
    end.

Lemma first_of_next (P : BrokerCheckpoint → Prop) cases c :
  next_checkpoint (first_of cases) = Some c → action (first_of cases) = A_PERSIST_CHECKPOINT →
  (∀ b d c, (b, d) ∈ cases → b = true → next_checkpoint d = Some c → P c) → P c.
Proof.
  induction cases as [|[[] d] cases IH]; intros Hc Ha H; [done|by eapply H; [left|..]|].
  apply IH; [done..|]. intros b d' c' Hin. apply H. by right.
Qed.

Lemma small_home_step total s o c :
  small_home total s → action (decide_broker_recovery s o) = A_PERSIST_CHECKPOINT →
  next_checkpoint (decide_broker_recovery s o) = Some c → small_home total (persisted_status s c o).
Proof.
  intros (Ht & Hop & Hs) Ha Hc. pose proof (decide_persist_open s o Ha) as (Hv & (i & _ & Hi & _ & Hle) & Hd).
  pose proof (validate_status_Ok s () Hv) as (_ & Hin & _). rewrite Hd in Ha, Hc. clear Hd Hv.
  unfold small_home, persisted_status. cbn [population_total binding checkpoint observation].
  split; [done|]. split; [done|]. rewrite Hi. cbn [int_value].
  rewrite Hop in Hin. cbn in Hin. unfold decide_at in Ha, Hc. cbv zeta in Ha, Hc. rewrite Hop in Ha, Hc.
  repeat (apply elem_of_cons in Hin as [E|Hin]; [rewrite E in *|]); try (by apply elem_of_nil in Hin); try done.
  all: revert Hc Ha; intros Hc Ha;
    eapply (first_of_next (λ c, match c with C_STAGING_PINNED => i <= 1 | C_POPULATE_PENDING => i <= 2
      | C_CREATE_INTENT => i <= 0 | C_BLOCKED_DRIFT | C_ROLLBACK_INTENT | C_ROLLED_BACK => True
      | _ => total <= 3 end) _ c Hc Ha);
    intros b d c' Hin' Hb Hn;
    repeat (apply elem_of_cons in Hin' as [[= -> ->]|Hin']); try (by apply elem_of_nil in Hin');
    try discriminate Hn; injection Hn as <-; try done; try lia.
  apply andb_true_iff in Hb as [_ Hb%Z.eqb_eq]. rewrite Hi, Ht in Hb. cbn in Hb. lia.
Qed.

(** What a plan without entries left out of it starts from. *)
Lemma initial_small plan policy tid o s :
  _is_initial_observation (pl_operation plan) o = true → _initial_status plan policy tid o = Ok s →
  operation (binding s) = OP_PROVISION → small_home (int_value (population_total s)) s.
Proof.
  intros Hi (H1 & _ & H3 & H4 & H5)%initial_status_Ok Hop. pose proof (initial_index _ _ _ Hi H3 H5) as Hidx.
  unfold small_home. rewrite H3, H4, Hidx, <- H1, Hop. by cbn.
Qed.

(** ** The entries *)

(** A call of one of the public methods. *)
Inductive entry :=
  | Execute (command : BrokerDispatchCommand)
  | ExecuteIntent (intent : BrokerIntentV1) (plan : OfflineBrokerPlan)
  | ResumeIntent (intent : BrokerIntentV1) (plan : OfflineBrokerPlan) (context : BrokerIntentResumeContext).

Definition entry_plan (c : entry) : option OfflineBrokerPlan :=
  match c with
  | Execute command => cmd_plan command
  | ExecuteIntent _ plan | ResumeIntent _ plan _ => Some plan
  end.

(** A resumption goes on from the log, the other entries start on it. *)
Definition resumes (c : entry) : Prop := match c with ResumeIntent _ _ _ => True | _ => False end.

Definition run_entry {W} (operations : RootBrokerExecutionOperations W) (linux : LinuxOperations W)
  (wal : WalOperations W) (peer_pid : Z) (c : entry) : ST W BrokerReply :=
  match c with
  | Execute command => execute operations linux wal peer_pid command
  | ExecuteIntent intent plan => execute_intent operations linux wal peer_pid intent plan
  | ResumeIntent intent plan context => resume_intent operations linux wal peer_pid intent plan context
  end.

Lemma command_bound_plan command plan h : command_bound command = Some (plan, h) → cmd_plan command = Some plan.
Proof.
  unfold command_bound. destruct (cmd_plan command) as [p|]; [|done].
  destruct (mutation_of _) as [[[op h'] b]|]; [|done]. destruct (_ && _); [|done]. by intros [= -> _].
Qed.

(** ** The log of an execution

    The effects and the attestation leave the log alone. *)

Class EffectsOffLog {W} (operations : RootBrokerExecutionOperations W) (linux : LinuxOperations W)
  (log : W → LogFile) : Prop := {
  off_log_effects P : effects_keep operations (λ w, P (log w));
  off_log_attest pid p : framed log (attest_peer_principal linux pid p);
}.

(** A record that an append left unfinished, behind the others. *)
Definition torn_tail (tail : list string) : Prop :=
  tail = [] ∨ ∃ raw r n, tail = [str_take n raw] ∧ decode_wal_record raw = Ok r ∧ (n < String.length raw)%nat.

(** A log of the records [before] and more, every one of a status in [Q], with
    an unfinished record at most behind them. *)
Definition log_of (Q : TransactionStatus → Prop) (before : list WalRecord) (v : LogFile) : Prop :=
  ∃ raws records tail, lf_lines v = raws ++ tail ∧ _validated_chain raws = Ok records ∧ torn_tail tail
    ∧ before `prefix_of` records ∧ Forall (λ r, Q (status r)) records.

(** The log is valid and ends in a record of the status. *)
Definition ends_in (s : TransactionStatus) (v : LogFile) : Prop :=
  ∃ records r, _validated_chain (lf_lines v) = Ok records ∧ last_record records = Some r ∧ status r = s.

(** A committed status is on the disk. *)
Definition settled (s : TransactionStatus) (v : LogFile) : Prop :=
  checkpoint s ∈ [C_COMMITTED; C_DEPROVISIONED] → stable v.

Lemma torn_tail_refused raws tail : torn_tail tail → tail = [] ∨ is_ok (_validated_chain (raws ++ tail)) = false.
Proof. intros [->|(raw & r & n & -> & Hr & Hn)]; [by left|right]. by eapply torn_log_refused. Qed.

(** A valid log of this kind is one without an unfinished record. *)
Lemma log_of_valid Q before v records :
  log_of Q before v → _validated_chain (lf_lines v) = Ok records →
  before `prefix_of` records ∧ Forall (λ r, Q (status r)) records.
Proof.
  intros (raws & records' & tail & Hv & Hc & Ht & Hp & Hq) Hr. rewrite Hv in Hr.
  destruct (torn_tail_refused raws tail Ht) as [->|Hf]; [|by rewrite Hr in Hf].
  rewrite app_nil_r, Hc in Hr. by injection Hr as <-.
Qed.

Section log.
Context {W : Type} (operations : RootBrokerExecutionOperations W) (linux : LinuxOperations W)
        (wal : WalOperations W) (peer_pid : Z) (log : W → LogFile).
Context `{!LawfulWal wal log} `{!EffectsOffLog operations linux log}.

Lemma append_refused s w e :
  _validated_chain (lf_lines (log w)) = Err e → (append_status wal s w).1 = w ∧ is_ok (append_status wal s w).2 = false.
Proof using LawfulWal0.
  intros He. unfold append_status. destruct (encode_status_payload s) as [p|]; [rewrite run_lift|done].
  by rewrite (run_validated_log wal log), He.
Qed.

Lemma append_log_of Q before s w :
  Q s → log_of Q before (log w) → log_of Q before (log (append_status wal s w).1).
Proof using LawfulWal0.
  intros Hs Hw. destruct (_validated_chain (lf_lines (log w))) as [records|e] eqn:Hc.
  2: { by destruct (append_refused s w e Hc) as [-> _]. }
  destruct (log_of_valid _ _ _ _ Hw Hc) as [Hp Hq].
  destruct (append_status_log wal log s w records Hc) as [[-> _]|(raw & r & Hr & <- & Hext & Ha & _)]; [done|].
  apply appending_lines in Ha as (n & Ha). destruct (decide (String.length raw <= n)%nat) as [Hn|Hn].
  - exists (lf_lines (log w) ++ [raw]), (records ++ [r]), []. rewrite Ha, str_take_all, app_nil_r by done.
    split_and!; try done; [by left|by apply prefix_app_r|]. by rewrite Forall_app, Forall_singleton.
  - exists (lf_lines (log w)), records, [str_take n raw]. split_and!; try done.
    right. exists raw, r, n. split_and!; [done..|lia].
Qed.

(** An append that returns has put its record on the disk. *)
Lemma append_done Q before s w w' r :
  log_of Q before (log w) → append_status wal s w = (w', Ok r) → ends_in s (log w') ∧ stable (log w').
Proof using LawfulWal0.
  intros _ Ha. destruct (_validated_chain (lf_lines (log w))) as [records|e] eqn:Hc.
  2: { destruct (append_refused s w e Hc) as [_ H]. by rewrite Ha in H. }
  destruct (append_status_log wal log s w records Hc) as [[_ H]|(raw & r' & _ & Hs & Hext & _ & Hd)];
    rewrite Ha in *; [done|]. destruct (Hd r eq_refl) as [_ Hl]. cbn in Hl. rewrite Hl. split; [|done].
  exists (records ++ [r']), r'. by rewrite last_record_snoc.
Qed.

(** Blocking appends a blocked status, when it appends. *)
Lemma blocked_log_of Q before plan rid s o :
  (∀ b o t, Q (blocked_status b o t)) →
  keeps (λ w, log_of Q before (log w)) (blocked_after wal plan rid s o).
Proof using LawfulWal0.
  intros Hq w Hw. unfold blocked_after. rewrite st_bind_eq, (recover_status_log wal log).
  destruct (match wr_status _ with Some _ => _ | None => _ end) as [s' o'].
  rewrite st_bind_eq. unfold st_catch. rewrite st_bind_eq.
  pose proof (append_log_of Q before _ w (Hq (binding s') o' (population_total s')) Hw) as Ha.
  by destruct (append_status wal _ w) as [w1 [r|e]].
Qed.

(** What a composition is proved to keep: [Q] holds of the statuses it writes. *)
Context (Q : TransactionStatus → Prop) (before : list WalRecord).
Context (Q_blocked : ∀ b o t, Q (blocked_status b o t)).
Context (Q_initial : ∀ plan policy tid o s,
  _is_initial_observation (pl_operation plan) o = true → _initial_status plan policy tid o = Ok s → Q s).
Context (Q_persisted : ∀ s o c,
  Q s → action (decide_broker_recovery s o) = A_PERSIST_CHECKPOINT →
  next_checkpoint (decide_broker_recovery s o) = Some c → Q (persisted_status s c o)).

(** Whether committed records are on the disk, [G], is up to the log found. *)
Context (G : Prop).

#[local] Abbreviation good w := (log_of Q before (log w)).

(** The status of a transaction under way: it is the last of the log. *)
Definition under_way (s : TransactionStatus) (v : LogFile) : Prop :=
  log_of Q before v ∧ Q s ∧ ends_in s v ∧ (G → settled s v).

(** It is a status of the plan. *)
Definition of_plan (plan : OfflineBrokerPlan) (s : TransactionStatus) : Prop :=
  operation (binding s) = pl_operation plan
  ∧ py_eq (population_total s) (pl_population_total plan) = true.

(** A method answers: the log stays good, and a committed reply reports a
    status of the plan that ends the log. *)
Definition answers (plan : option OfflineBrokerPlan) (m : ST W BrokerReply) (w : W) : Prop :=
  ∃ w' reply, m w = (w', Ok reply) ∧ good w'
    ∧ (rp_result reply = R_COMMITTED → ∃ s p, rp_transaction reply = Some s ∧ under_way s (log w')
         ∧ plan = Some p ∧ of_plan p s ∧ ∃ o, action (decide_broker_recovery s o) = A_RETURN_COMMITTED).

Lemma answers_ret plan reply w : good w → rp_result reply ≠ R_COMMITTED → answers plan (mret reply) w.
Proof using Type. intros Hw Hr. by exists w, reply. Qed.

Lemma drive_from_answers plan tid rid status w :
  good w → (∀ s, status = Some s → under_way s (log w)) →
  answers (Some plan) (drive_from operations wal plan tid rid status) w.
Proof using EffectsOffLog0 LawfulWal0 Q_blocked Q_persisted.
  intros Hw Hs. unfold drive_from. destruct status as [s|]; [|by apply answers_ret, blocked_plan_result].
  destruct (_matches plan tid (Some s)) eqn:Hm; [|by apply answers_ret, blocked_plan_result].
  destruct (drive_answers operations wal (λ w, good w) (λ s w, under_way s (log w) ∧ of_plan plan s))
    with (n := _MAX_DRIVE_STEPS) (plan := plan) (rid := rid) (s := s) (w := w)
    as (w' & reply & Hd & Hg & H).
  - by intros s' w1 [[? _] _].
  - intros s'. apply (off_log_effects (λ v, under_way s' v ∧ of_plan plan s')).
  - intros. by apply blocked_log_of.
  - intros s' o c w1 [(H1 & H2 & H3 & _) Hp] Ha Hc. pose proof (Q_persisted s' o c H2 Ha Hc) as Hq.
    pose proof (append_log_of Q before _ w1 Hq H1) as Hl.
    destruct (append_status wal (persisted_status s' c o) w1) as [w2 [r|e]] eqn:He; [|done].
    destruct (append_done _ _ _ _ _ _ H1 He) as [Hend Hstable].
    split; [|exact Hp]. split; [exact Hl|]. split; [exact Hq|]. split; [exact Hend|]. by intros _ _.
  - split; [by apply Hs|]. unfold _matches in Hm. apply andb_true_iff in Hm as [_ Hm].
    destruct (_binding_for plan tid) as [b|] eqn:Hb; [|done]. apply andb_true_iff in Hm as [Hm Ht].
    split; [|done]. unfold binding_eq in Hm. repeat (apply andb_true_iff in Hm as [Hm _]).
    apply bool_decide_eq_true in Hm as ->. unfold _binding_for in Hb.
    by apply bind_Ok in Hb as (? & _ & [= <-]).
  - exists w', reply. split; [done|]. split; [done|]. intros Hr.
    destruct H as [H|(s' & -> & [Hs' Hp] & Ho)]; [congruence|]. by exists s', plan.
Qed.

(** What is read, and the attestation, change nothing. *)
Lemma attested_log plan tid w :
  log (attested_observation (fixed operations tid) linux plan peer_pid w).1 = log w.
Proof using EffectsOffLog0.
  unfold attested_observation, st_catch. rewrite st_bind_eq.
  pose proof (off_log_attest peer_pid (pl_expected_principal plan) w) as Ha.
  destruct (attest_peer_principal linux _ _ w) as [w1 [[]|e]]; [|done]. cbn [fst] in Ha. rewrite st_bind_eq.
  pose proof (keep_observe operations _ (off_log_effects (λ v, v = log w)) plan w1 Ha) as Ho.
  cbn [fixed off_observe]. by destruct (observe operations plan w1) as [w2 [o|e]].
Qed.

(** A transaction is begun by appending a first status, or not at all. *)
Lemma begin_cases plan tid w :
  let outcome := begin_offline_transaction (fixed operations tid) linux wal plan peer_pid w in
  (log outcome.1 = log w ∧ ∀ step, outcome.2 = Ok step → st_status step = None)
  ∨ ∃ s w1, log w1 = log w ∧ Q s ∧ (checkpoint s ∉ [C_COMMITTED; C_DEPROVISIONED])
      ∧ outcome.1 = (append_status wal s w1).1
      ∧ ∀ step s', outcome.2 = Ok step → st_status step = Some s' →
          s' = s ∧ ∃ r, append_status wal s w1 = (outcome.1, Ok r).
Proof using EffectsOffLog0 Q_initial.
  cbv zeta. unfold begin_offline_transaction. cbn [fixed new_transaction_id].
  destruct (_validate_plan plan) as [policy|]; [rewrite run_lift|by left].
  destruct (_validate_peer_pid peer_pid); [rewrite run_lift|by left].
  assert (∀ h, st_catch (mret tid : ST W pyval) h w = (w, Ok tid)) as Hid by done. rewrite st_bind_eq, Hid.
  destruct (_new_binding plan policy tid); [rewrite run_lift|by left].
  rewrite st_bind_eq. pose proof (attested_log plan tid w) as Hlog.
  destruct (attested_observation _ _ _ _ w) as [w1 [observed|e]]; [|by left]. cbn [fst] in Hlog.
  destruct observed as [o|]; [|left; split; [done|by intros step [= <-]]].
  destruct (_is_initial_observation (pl_operation plan) o) eqn:Hi; cbn [negb];
    [|left; split; [done|by intros step [= <-]]].
  destruct (_initial_status plan policy tid o) as [s|] eqn:Hs; [rewrite run_lift|by left].
  right. exists s, w1. split; [done|]. split; [by eapply Q_initial|].
  split.
  { apply initial_status_Ok in Hs as (_ & _ & _ & -> & _). apply (bool_decide_unpack _). by destruct (pl_operation plan). }
  unfold st_catch. rewrite st_bind_eq. destruct (append_status wal s w1) as [w2 [r|e]]; cbv zeta.
  - split; [done|]. intros step s' [= <-] Hst. case_bool_decide; [done|]. injection Hst as <-. eauto.
  - split; [done|]. by intros step s' [= <-].
Qed.

(** A committed status the log ends in is on the disk. *)
Definition calm (v : LogFile) : Prop := ∀ s, ends_in s v → settled s v.

Lemma stable_calm v : stable v → calm v.
Proof using Type. by intros H s _ _. Qed.

Lemma ends_in_inj s s' v : ends_in s v → ends_in s' v → s = s'.
Proof using Type. intros (? & ? & H & H1 & <-) (? & ? & H' & H2 & <-). congruence. Qed.

Lemma append_calm s w :
  checkpoint s ∉ [C_COMMITTED; C_DEPROVISIONED] → calm (log w) → calm (log (append_status wal s w).1).
Proof using LawfulWal0.
  intros Hs Hw. destruct (_validated_chain (lf_lines (log w))) as [records|e] eqn:Hc.
  2: { by destruct (append_refused s w e Hc) as [-> _]. }
  destruct (append_status_log wal log s w records Hc) as [[-> _]|(raw & r & Hr & <- & Hext & Ha & _)]; [done|].
  apply appending_lines in Ha as (n & Ha). intros s' (records' & r' & Hc' & Hl & <-). rewrite Ha in Hc'.
  destruct (decide (String.length raw <= n)%nat) as [Hn|Hn].
  - rewrite str_take_all, Hext in Hc' by done. injection Hc' as <-. rewrite last_record_snoc in Hl.
    injection Hl as <-. intros Ht. by destruct Hs.
  - pose proof (torn_log_refused (lf_lines (log w)) raw r n Hr ltac:(lia)) as Ht. by rewrite Hc' in Ht.
Qed.

(** A method that looks for the status of a transaction: what it finds is
    under way. *)
Definition finds (m : ST W (option TransactionStatus)) (w : W) : Prop :=
  ∃ w' status, m w = (w', Ok status) ∧ good w' ∧ (G → calm (log w'))
    ∧ ∀ s, status = Some s → under_way s (log w').

Lemma started_log plan tid w :
  good w →
  ∃ w' status, started_status operations linux wal peer_pid plan tid w = (w', Ok status) ∧ good w'
    ∧ (calm (log w) → calm (log w'))
    ∧ ∀ s, status = Some s → Q s ∧ ends_in s (log w') ∧ stable (log w').
Proof using EffectsOffLog0 LawfulWal0 Q_initial.
  intros Hw. unfold started_status, or_none, st_catch. rewrite st_bind_eq.
  pose proof (begin_cases plan tid w) as Hb. cbv zeta in Hb.
  destruct (begin_offline_transaction _ _ _ _ _ w) as [w1 outcome]. cbn [fst snd] in Hb.
  destruct Hb as [[Hl Hnone]|(s & w0 & Hl & Hq & Ht & -> & Hsome)].
  - destruct outcome as [step|e]; do 2 eexists; (split; [reflexivity|]); rewrite Hl; (split; [done|]);
      (split; [done|]); [|done]. intros s Hs. by rewrite (Hnone step eq_refl) in Hs.
  - rewrite <- Hl in *. pose proof (append_log_of Q before s w0 Hq Hw) as Hg.
    pose proof (append_calm s w0 Ht) as Hc.
    destruct outcome as [step|e]; do 2 eexists; (split; [reflexivity|]); (split; [done|]);
      (split; [by auto|]); [|done].
    intros s' Hs'. destruct (Hsome step s' eq_refl Hs') as (-> & r & Hr).
    destruct (append_done _ _ _ _ _ _ Hw Hr) as [Hend Hstable]. by split.
Qed.

Lemma begin_finds plan tid w :
  good w → (G → calm (log w)) → finds (started_status operations linux wal peer_pid plan tid) w.
Proof using EffectsOffLog0 LawfulWal0 Q_initial.
  intros Hw Hcalm. destruct (started_log plan tid w Hw) as (w' & status & Hs & Hg & Hc & Hst).
  exists w', status. split; [done|]. split; [done|]. split; [by auto|].
  intros s Hs'. destruct (Hst s Hs') as (H1 & H2 & H3). split_and!; [done..|]. by intros _ _.
Qed.

(** What is read back from a good log is under way. *)
Lemma recovered_under_way o w s :
  good w → (G → calm (log w)) →
  wr_status (recovered match _validated_chain (lf_lines (log w)) with Ok records => records | Err _ => [] end o)
    = Some s → under_way s (log w).
Proof using Type.
  intros Hw Hcalm H. destruct (_validated_chain (lf_lines (log w))) as [records|] eqn:Hc; [|done].
  unfold recovered in H. destruct (last_record records) as [r|] eqn:Hl; [|done]. injection H as <-.
  destruct (log_of_valid _ _ _ _ Hw Hc) as [_ Hq]. assert (ends_in (status r) (log w)) as He by by exists records, r.
  split; [done|]. split; [|split; [done|intros HG; by apply Hcalm]].
  eapply Forall_forall in Hq; [exact Hq|]. revert Hl. unfold last_record.
  destruct records as [|x records _] using rev_ind; [done|].
  rewrite fmap_app. cbn [fmap list_fmap]. rewrite last_last. intros [= ->]. apply elem_of_app. right. by left.
Qed.

Lemma recover_finds plan tid w :
  good w → (G → calm (log w)) →
  finds (or_none (step ← recover_offline_transaction (fixed operations tid) linux wal plan peer_pid;
                  mret (st_status step))) w.
Proof using EffectsOffLog0 LawfulWal0.
  intros Hw Hcalm. unfold finds, or_none, st_catch. rewrite st_bind_eq. unfold recover_offline_transaction.
  assert (∀ w1, log w1 = log w → ∀ e : exn, ∃ w' status,
    (w1, (Ok None : result (option TransactionStatus))) = (w', Ok status) ∧ good w' ∧ (G → calm (log w'))
    ∧ ∀ s, status = Some s → under_way s (log w')) as Hno.
  { intros w1 H1 _. exists w1, None. by rewrite H1. }
  destruct (_validate_plan plan) as [policy|e]; [rewrite run_lift|by apply (Hno w)].
  destruct (_validate_peer_pid peer_pid) as [u|e]; [rewrite run_lift|by apply (Hno w)].
  rewrite st_bind_eq. pose proof (attested_log plan tid w) as Hlog.
  destruct (attested_observation _ _ _ _ w) as [w1 [observed|e]]; cbn [fst] in Hlog; [|by apply (Hno w1)].
  destruct observed as [o|]; [|by apply (Hno w1 Hlog (ValueError ""))].
  rewrite st_bind_eq, (recover_status_log wal log). cbn [mret st_ret].
  do 2 eexists. split; [reflexivity|]. rewrite Hlog. split; [done|]. split; [done|].
  intros s Hs. rewrite <- Hlog in Hw, Hcalm |- *. eapply (recovered_under_way o); [done..|].
  rewrite Hlog. destruct (wr_status _) as [s'|]; [|done]. cbv zeta in Hs. by destruct (_ || _); [|injection Hs as <-].
Qed.

Lemma or_else_finds status m w :
  good w → (G → calm (log w)) → (∀ s, status = Some s → under_way s (log w)) →
  finds m w → finds (or_else status m) w.
Proof using Type. intros Hw Hc Hs Hm. destruct status as [s|]; [|done]. by exists w, (Some s). Qed.

Lemma empty_finds plan tid w :
  good w → (G → calm (log w)) → finds (_begin_empty_wal_recovery operations linux wal peer_pid plan tid) w.
Proof using EffectsOffLog0 LawfulWal0 Q_initial.
  intros Hw Hc. pose proof (begin_finds plan tid w Hw Hc) as Hb.
  unfold _begin_empty_wal_recovery, finds, started_status, or_none, st_catch in *. rewrite st_bind_eq, lawful_read.
  destruct (lf_lines (log w)) as [|x l]; [exact Hb|by exists w, None].
Qed.

Lemma late_finds plan tid w :
  good w → (G → calm (log w)) → finds (_late_recovery_status operations wal plan tid) w.
Proof using EffectsOffLog0 LawfulWal0.
  intros Hw Hcalm. unfold _late_recovery_status, finds, or_none, st_catch. rewrite st_bind_eq.
  pose proof (keep_observe operations _ (off_log_effects (λ v, v = log w)) plan w eq_refl) as Hlog.
  destruct (observe operations plan w) as [w1 [o|e]]; cbn [fst] in Hlog; [|exists w1, None; by rewrite Hlog].
  rewrite st_bind_eq, (recover_status_log wal log). cbn [mret st_ret]. cbv zeta.
  do 2 eexists. split; [reflexivity|]. rewrite Hlog. split; [done|]. split; [done|].
  intros s Hs. rewrite <- Hlog in Hw, Hcalm |- *. eapply (recovered_under_way o); [done..|].
  rewrite Hlog. destruct (wr_status _) as [s'|]; [|done]. by destruct (_ || _); [|injection Hs as <-].
Qed.

(** The entries answer. *)
Lemma execute_new_answers plan tid rid w :
  good w → answers (Some plan) (_execute_new operations linux wal peer_pid plan tid rid) w.
Proof using EffectsOffLog0 LawfulWal0 Q_blocked Q_initial Q_persisted.
  intros Hw. unfold _execute_new. destruct (negb _); [by apply answers_ret, blocked_plan_result|].
  destruct (started_log plan tid w Hw) as (w1 & status & Hs & H1 & _ & H2). unfold answers.
  rewrite st_bind_eq, Hs. apply drive_from_answers; [done|].
  intros s Hs'. destruct (H2 s Hs') as (? & ? & ?). split_and!; [done..|]. by intros _ _.
Qed.

Lemma entry_answers c w :
  good w → (G → resumes c → calm (log w)) →
  answers (entry_plan c) (run_entry operations linux wal peer_pid c) w.
Proof using EffectsOffLog0 LawfulWal0 Q_blocked Q_initial Q_persisted.
  intros Hw Hc. destruct c as [command|intent plan|intent plan context]; cbn [entry_plan run_entry].
  - unfold execute. destruct (command_bound command) as [[plan h]|] eqn:Hb; [|by apply answers_ret].
    rewrite (command_bound_plan _ _ _ Hb).
    destruct (execute_new_answers plan (rh_transaction_id h) (_request_id (message_request_id (cmd_request command)))
      w Hw) as (w' & reply & He & Hrest). exists w', reply. unfold st_catch. by rewrite He.
  - unfold execute_intent. destruct (negb _); [by apply answers_ret, blocked_plan_result|].
    by apply execute_new_answers.
  - unfold resume_intent. cbv zeta. destruct (_ || _); [by apply answers_ret, blocked_plan_result|].
    assert (G → calm (log w)) as Hcalm by naive_solver.
    set (tid := _transaction_id _). set (rid := _request_id _).
    destruct (recover_finds plan tid w Hw Hcalm) as (w1 & s1 & E1 & G1 & C1 & U1).
    destruct (or_else_finds s1 _ w1 G1 C1 U1 (empty_finds plan tid w1 G1 C1)) as (w2 & s2 & E2 & G2 & C2 & U2).
    destruct (or_else_finds s2 _ w2 G2 C2 U2 (late_finds plan tid w2 G2 C2)) as (w3 & s3 & E3 & G3 & C3 & U3).
    destruct (drive_from_answers plan tid rid s3 w3 G3 U3) as (w4 & reply & Hd & Hrest).
    exists w4, reply. split; [|done]. rewrite st_bind_eq, E1, st_bind_eq, E2, st_bind_eq, E3. exact Hd.
Qed.
End log.

(** What a crash leaves of a log with an unfinished record at most is such a log. *)
Lemma log_of_leaves Q v v1 : log_of Q [] v → leaves v (lf_lines v1) → log_of Q [] v1.
Proof.
  intros (raws & records & tail & Hv & Hc & Ht & _ & Hq) Hleaves.
  assert (∀ k tail', torn_tail tail' → lf_lines v1 = take k raws ++ tail' → log_of Q [] v1) as Htake.
  { intros k tail' Ht' Hl. exists (take k raws), (take k records), tail'.
    split_and!; [done|by apply chain_take|done|apply prefix_nil|by apply Forall_take]. }
  assert (∃ l, lf_lines v1 = l ∧ leaves v l) as (l & Hl & Hl') by eauto. clear Hleaves.
  destruct Hl' as [k Hk|k raw n Hk Hraw|_].
  - rewrite Hv in Hl. rewrite take_app in Hl. destruct (decide (k <= length raws)%nat) as [Hle|Hle].
    + replace (k - length raws)%nat with 0%nat in Hl by lia. apply (Htake k []); [by left|done].
    + rewrite (take_ge tail) in Hl by (destruct Ht as [->|(? & ? & ? & -> & _)]; cbn; lia). by eapply Htake.
  - rewrite Hv in Hl, Hraw. destruct (decide (k < length raws)%nat) as [Hlt|Hge].
    + rewrite lookup_app_l in Hraw by done. rewrite take_app_le in Hl by lia.
      destruct (chain_lookup _ _ _ _ _ _ _ Hc Hraw) as (r & _ & Hr).
      destruct (decide (String.length raw <= n)%nat) as [Hn|Hn].
      * apply (Htake (S k) []); [by left|]. rewrite app_nil_r, (take_S_r _ _ raw) by done.
        by rewrite Hl, str_take_all.
      * apply (Htake k [str_take n raw]); [right|done]. exists raw, r, n. split_and!; [done..|lia].
    + rewrite lookup_app_r in Hraw by lia. destruct Ht as [->|(whole & r & m & -> & Hr & Hm)]; [done|].
      assert (k = length raws) as -> by (destruct (k - length raws)%nat eqn:?; [lia|done]).
      rewrite Nat.sub_diag in Hraw. injection Hraw as <-. rewrite take_app_length, str_take_take in Hl.
      apply (Htake (length raws) [str_take (Nat.min n m) whole]); [right|by rewrite take_ge].
      exists whole, r, (Nat.min n m). split_and!; [done..|lia].
  - apply (Htake 0%nat []); [by left|done].
Qed.

(** C16: The public methods keep the log. From a valid log, an execution or a
    resumption always replies, and the log it leaves holds the records it
    found and more, a valid chain, with at most one record behind them that a
    failing append left unfinished. A committed reply reports the status of
    the last record of the log, which is then valid; that status has the
    terminal result committed, and every record is on the disk, so that no
    crash takes it away: always after an execution, and after a resumption if
    the log it found was on the disk. (Relied on: the log's operations obey
    [LawfulWal], and neither the effects nor the attestation touch the log.)
    *)
Theorem executions_keep_log {W} (operations : RootBrokerExecutionOperations W)
  (linux : LinuxOperations W) (wal : WalOperations W) (log : W → LogFile)
  (lawful : LawfulWal wal log) (off : EffectsOffLog operations linux log)
  peer_pid records c w :
  _validated_chain (lf_lines (log w)) = Ok records →
  ∃ w' reply, run_entry operations linux wal peer_pid c w = (w', Ok reply)
    ∧ (∃ raws more tail, lf_lines (log w') = raws ++ tail ∧ _validated_chain raws = Ok (records ++ more)
         ∧ torn_tail tail)
    ∧ (rp_result reply = R_COMMITTED →
       ∃ s, rp_transaction reply = Some s ∧ ends_in s (log w') ∧ terminal_result s = Some R_COMMITTED
         ∧ (stable (log w) ∨ ¬ resumes c → ∀ l, leaves (log w') l → l = lf_lines (log w'))).
Proof.
  intros Hc. assert (log_of (λ _, True) records (log w)) as Hw.
  { exists (lf_lines (log w)), records, []. rewrite app_nil_r. split_and!; [done..|by left|done|].
    by apply Forall_forall. }
  destruct (entry_answers operations linux wal peer_pid log (λ _, True) records) with
    (G := stable (log w) ∨ ¬ resumes c) (c := c) (w := w) as (w' & reply & Hr & Hg & H); [done..| |].
  { intros [Hs|?] Hres; [by apply stable_calm|done]. }
  exists w', reply. split; [done|]. split.
  { destruct Hg as (raws & records' & tail & H1 & H2 & H3 & [more ->] & _). by exists raws, more, tail. }
  intros Hcommit. destruct (H Hcommit) as (s & p & Hs & (_ & _ & Hend & Hsettled) & _ & _ & o & Ho).
  destruct (decide_committed _ _ Ho) as [Hv Ht]. exists s. split; [done|]. split; [done|]. split.
  - apply validate_status_Ok in Hv as (_ & _ & _ & _ & _ & ->). by destruct Ht as [-> | ->].
  - intros HG l. apply stable_leaves, Hsettled; [done|]. destruct Ht as [-> | ->]; [by left|right; by left].
Qed.

(** *** What the log says over the life of the broker *)

(** The broker is called, or stops and finds what a crash left of the log. *)
Inductive life_step {W} (operations : RootBrokerExecutionOperations W) (linux : LinuxOperations W)
  (wal : WalOperations W) (log : W → LogFile) (peer_pid : Z) : W → W → Prop :=
  | life_call c w : life_step operations linux wal log peer_pid w (run_entry operations linux wal peer_pid c w).1
  | life_crash w w' : leaves (log w) (lf_lines (log w')) → life_step operations linux wal log peer_pid w w'.

Definition small_status (s : TransactionStatus) : Prop :=
  operation (binding s) = OP_PROVISION → small_home (int_value (population_total s)) s.

Lemma small_status_persisted s o c :
  small_status s → action (decide_broker_recovery s o) = A_PERSIST_CHECKPOINT →
  next_checkpoint (decide_broker_recovery s o) = Some c → small_status (persisted_status s c o).
Proof. intros Hs Ha Hc Hop. by apply (small_home_step _ s o c); [apply Hs| |]. Qed.

Section life.
Context {W : Type} (operations : RootBrokerExecutionOperations W) (linux : LinuxOperations W)
        (wal : WalOperations W) (log : W → LogFile) (peer_pid : Z).
Context `{!LawfulWal wal log} `{!EffectsOffLog operations linux log}.

Lemma small_answers c w :
  log_of small_status [] (log w) →
  answers log small_status [] False (entry_plan c) (run_entry operations linux wal peer_pid c) w.
Proof using EffectsOffLog0 LawfulWal0.
  intros Hw. apply entry_answers; try done.
  - by intros plan policy tid o s Hi Hs Hop; eapply initial_small.
  - apply small_status_persisted.
Qed.

Lemma life_small w w' :
  rtc (life_step operations linux wal log peer_pid) w w' →
  log_of small_status [] (log w) → log_of small_status [] (log w').
Proof using EffectsOffLog0 LawfulWal0.
  induction 1 as [w|w w1 w' Hstep _ IH]; [done|]. intros Hw. apply IH. clear IH.
  destruct Hstep as [c w|w w1 Hl]; [|by eapply log_of_leaves].
  destruct (small_answers c w Hw) as (w2 & reply & -> & Hg & _). done.
Qed.
End life.

(** C23: A provisioning of more than three entries never commits, although a
    plan admits 256. From an empty log, after any sequence of executions and
    resumptions of any plans and of crashes between and inside them, each
    leaving anything a crash may leave of the log, and whatever the effects,
    the attestation and the log answer (the log obeying [LawfulWal], which the
    others do not touch), every call for a plan that provisions a home of more
    than three entries replies, and its reply is not committed. *)
Theorem provision_commits_small_homes {W} (operations : RootBrokerExecutionOperations W)
  (linux : LinuxOperations W) (wal : WalOperations W) (log : W → LogFile)
  (lawful : LawfulWal wal log) (off : EffectsOffLog operations linux log) peer_pid w0 w c plan total :
  lf_lines (log w0) = [] → rtc (life_step operations linux wal log peer_pid) w0 w →
  entry_plan c = Some plan → pl_operation plan = OP_PROVISION →
  pl_population_total plan = VInt total → 3 < total →
  ∃ w' reply, run_entry operations linux wal peer_pid c w = (w', Ok reply) ∧ rp_result reply ≠ R_COMMITTED.
Proof.
  intros Hempty Hlife Hplan Hop Htotal Hmore.
  assert (log_of small_status [] (log w)) as Hw.
  { eapply (life_small operations linux wal log peer_pid); [exact Hlife|].
    exists [], [], []. split_and!; [done|done|by left|done|by constructor]. }
  destruct (small_answers operations linux wal log peer_pid c w Hw) as (w' & reply & Hr & _ & H).
  exists w', reply. split; [done|]. intros Hcommit.
  destruct (H Hcommit) as (s & p & _ & (_ & Hsmall & _) & Hp & [Hsop Hst] & o & Ho).
  rewrite Hplan in Hp. injection Hp as <-. destruct (decide_committed _ _ Ho) as [Hv Hc].
  apply validate_status_Ok in Hv as (_ & _ & _ & _ & [z Hz] & _). apply integer_Ok in Hz as [Hz _].
  rewrite Htotal, Hz in Hst. cbn in Hst. apply Z.eqb_eq in Hst as ->.
  destruct Hsmall as (_ & _ & Hs); [congruence|]. rewrite Hz in Hs. cbn in Hs.
  destruct Hc as [E|E]; rewrite E in Hs; lia.
Qed.

(** ** A sample system

    A store that behaves as the contract of the effects says: an entry is
    populated at a time, a published home is first seen without a registry
    entry and then with the old one. *)

Record World := {
  w_held : list Z;
  w_log : LogFile;
  w_object : BrokerObjectState;
  w_registry : BrokerRegistryState;
  w_index : Z;
}.

Definition set_held (l : list Z) (w : World) : World :=
  {| w_held := l; w_log := w_log w; w_object := w_object w; w_registry := w_registry w; w_index := w_index w |}.
Definition set_log (l : LogFile) (w : World) : World :=
  {| w_held := w_held w; w_log := l; w_object := w_object w; w_registry := w_registry w; w_index := w_index w |}.
Definition set_home (o : BrokerObjectState) (g : BrokerRegistryState) (i : Z) (w : World) : World :=
  {| w_held := w_held w; w_log := w_log w; w_object := o; w_registry := g; w_index := i |}.

Definition sample_wal : WalOperations World :=
  {| read_all := λ w, (w, Ok (lf_lines (w_log w))); append := λ raw w, (set_log (lf_add raw (w_log w)) w, Ok ());
     fsync_wal := λ w, (set_log (lf_flush (w_log w)) w, Ok ());
     fsync_parent := λ w, (set_log (lf_link (w_log w)) w, Ok ()) |}.

#[export] Instance sample_wal_lawful : LawfulWal sample_wal w_log.
Proof. by split. Qed.

(** The registry entry is looked up once the published home has been seen. *)
Definition seen (w : World) : World :=
  if bool_decide (w_object w = O_FINAL_COMPLETE) && bool_decide (w_registry w = G_NOT_APPLICABLE)
  then set_home (w_object w) G_OLD (w_index w) w else w.

Definition sample_operations : RootBrokerExecutionOperations World :=
  {| observe := λ _ w, (seen w, Ok {| object_state := w_object w; registry_state := w_registry w;
                                       population_index := VInt (w_index w) |});
     create_staging := λ _ w, (set_home O_STAGING_EMPTY (w_registry w) (w_index w) w, Ok ());
     populate_next := λ plan w,
       let i := w_index w + 1 in
       (set_home (if i =? int_value (pl_population_total plan) then O_STAGING_COMPLETE else O_STAGING_PREFIX)
          (w_registry w) i w, Ok ());
     publish_home := λ _ w, (set_home O_FINAL_COMPLETE G_NOT_APPLICABLE (w_index w) w, Ok ());
     prepare_replacement := λ _, mret ();
     switch_replacement := λ _ _, mret ();
     cas_registry := λ _ _ w, (set_home (w_object w) G_CURRENT (w_index w) w, Ok ());
     attest_deprovision_effect := λ _ _ _, mret ();
     deprovision_home := λ _ _, mret () |}.

Definition sample_system : LinuxOperations World := sample_linux w_held set_held sample_principal.

Lemma sample_off_log : EffectsOffLog sample_operations sample_system w_log.
Proof.
  split.
  - intros P. split; intros **; intros w Hw; cbn; try done. unfold seen. by case_match.
  - assert (∀ {A} (m : ST World A), framed w_log m → framed w_log m) by done.
    intros pid p. unfold attest_peer_principal, _attest_peer_principal_with_identity,
      _observe_peer_snapshot_with_identity, cleaning, observe_pinned, _fail_with_cleanup, _close_all, _pidfd_guard.
    assert (∀ fds e, framed w_log (close_each sample_system fds e)) as Hc.
    { induction fds as [|[fd|] fds IH]; intros e; cbn [close_each]; [auto with framed| |apply IH].
      intros w. cbn. by rewrite IH. }
    repeat (first [progress framed_cases|progress cbv zeta]); try apply Hc; try (by intros w).
Qed.

Definition sample_closure : ImportClosure := {| entries := [{| ie_path := "home/init.py"; ie_digest := times 64 "e" |}] |}.

Definition sample_plan (total : Z) : OfflineBrokerPlan :=
  {| pl_identity := {| bi_agent_id := "planner"; bi_manifest_generation := 3; bi_mcs_pair := "c5,c17";
                       slot_snapshot := "slot-1"; bi_policy_generation := 1;
                       bi_projection_digest := times 64 "d";
                       executable_fingerprint := closure_digest sample_closure; bi_fencing_epoch := 0 |};
     pl_import_closure := sample_closure; pl_expected_principal := sample_principal;
     pl_operation := OP_PROVISION; pl_store_uuid := VStr (times 32 "c"); pl_population_total := VInt total |}.

Definition sample_intent : BrokerIntentV1 :=
  {| in_operation := OP_PROVISION; in_transaction_id := VStr (times 32 "b"); in_request_id := VStr (times 32 "a");
     in_agent_id := VStr "planner"; in_manifest_generation := VInt 3; in_unit_generation := VInt 2;
     in_policy_generation := VInt 1; in_fencing_epoch := VInt 0; in_store_uuid := VStr (times 32 "c");
     in_slot_id := VStr "slot-1"; in_mcs_pair := VStr "c5,c17"; in_projection_digest := VStr (times 64 "d") |}.

Definition fresh_world : World :=
  {| w_held := []; w_log := empty_log; w_object := O_ABSENT; w_registry := G_NOT_APPLICABLE; w_index := 0 |}.

Definition sample_run (total : Z) : World * result BrokerReply :=
  execute_intent sample_operations sample_system sample_wal 41 sample_intent (sample_plan total) fresh_world.

(** A run keeps the log from the empty one on. *)
Lemma executions_keep_log_witness :
  _validated_chain (lf_lines (w_log fresh_world)) = Ok []
  ∧ ∃ raws more tail, lf_lines (w_log (sample_run 2).1) = raws ++ tail
      ∧ _validated_chain raws = Ok ([] ++ more) ∧ torn_tail tail.
Proof.
  assert (_validated_chain (lf_lines (w_log fresh_world)) = Ok []) as Hc by reflexivity. split; [exact Hc|].
  destruct (executions_keep_log sample_operations sample_system sample_wal w_log sample_wal_lawful
    sample_off_log 41 [] (ExecuteIntent sample_intent (sample_plan 2)) fresh_world Hc) as (w' & reply & Hr & H & _).
  unfold sample_run. cbn [run_entry] in Hr. rewrite Hr. exact H.
Defined.

(** A home of four entries is not committed, also when the broker stopped before. *)

Lemma provision_commits_small_homes_witness :
  ∃ w' reply, sample_run 4 = (w', Ok reply) ∧ rp_result reply ≠ R_COMMITTED.
Proof.
  refine (provision_commits_small_homes sample_operations sample_system sample_wal w_log sample_wal_lawful
    sample_off_log 41 fresh_world fresh_world (ExecuteIntent sample_intent (sample_plan 4)) (sample_plan 4) 4
    eq_refl _ eq_refl eq_refl eq_refl _).
  - apply (rtc_l _ _ fresh_world); [|apply rtc_refl]. apply life_crash. exact (leaves_lines empty_log 0 (le_n 0)).
  - reflexivity.
Defined.
