(* ===== verification/ServerQueen.v ===== *)
(** * The server's queen assignment

    [src/src/the_hive/server.py]: the capacity probe guard (lines 41738 to
    41833), the capacity sink of a queen step and the queen saga that runs every
    forward step through it (lines 42560 to 42700). *)

From S2P Require Import Prelude PyTime DynamicPool Json HiveState HiveTypes HiveMessages HiveEvents HiveWork HiveAssignment.
#[local] Open Scope Z_scope.

Definition MAX_OPERATION_LENGTH : Z := 128.
Definition PATH_NOT_RETURNED : string := "not_returned".
Definition QUEEN_ASSIGNMENT_CAPACITY_SINKS : list string :=
  [ "queen_assignment_teamlead"; "queen_assignment_specialist"; "queen_assignment_grant";
    "queen_assignment_admission"; "queen_assignment_assignment" ].

(** ** The probe guard *)

(** The gate is complete and green: exactly the three fields, each as the probe
    writes it. *)
Definition gate_is_green (gate : pyval) : bool :=
  match gate with
  | VDict d =>
      keys_exactly d ["allowed"; "reason_code"; "raw_output"]
      && match dict_get "allowed" d with Some (VBool b) => b | _ => false end
      && py_eq_str (get_or VNone "reason_code" d) "probe_ready"
      && py_eq_str (get_or VNone "raw_output" d) PATH_NOT_RETURNED
  | _ => false
  end.

(** A refusal carries one code; the details of an [AgentError] are not modelled. *)
Definition _require_hive_probe_result (operation : string) (gate : pyval) : result () :=
  _ ← require (text_ok MAX_OPERATION_LENGTH operation) (AgentError "invalid_hive_spawn_operation");
  require (gate_is_green gate) (AgentError "hive_spawn_probe_blocked").

(** What a capacity sink meets outside: the agent's mutation lock, the shared
    side of the probe lock, and the probe record as [read_probe_gate] reports
    it.  Releasing a lock does not fail. *)
Record capacity_env (W : Type) := {
  agent_lifecycle_lock : string → ST W ();
  probe_capacity_lock : ST W ();
  read_probe_gate : ST W pyval;
}.
Arguments agent_lifecycle_lock {_} _ _.
Arguments probe_capacity_lock {_} _.
Arguments read_probe_gate {_} _.

Section capacity.
Context {W : Type}.
Implicit Types (env : capacity_env W) (p : QueenAssignmentPlan).

(** [with hive_capacity_probe_guard(operation): body]: a probe lock that cannot
    be taken for an [OSError] or a [ValueError] is a missing gate. *)
Definition hive_capacity_probe_guard {A} env (operation : string) (body : ST W A) : ST W A :=
  _ ← st_catch (probe_capacity_lock env)
        (λ e, st_lift (if is_os_error e || is_value_error e
                       then _ ← _require_hive_probe_result operation VNone;
                            Err (AssertionError "unreachable")
                       else Err e));
  gate ← st_catch (read_probe_gate env) (λ _, mret VNone);
  _ ← st_lift (_require_hive_probe_result operation gate);
  body.

(** [require_hive_probe_for_spawn]: the same decision without the lock. *)
Definition require_hive_probe_for_spawn env (operation : string) : ST W () :=
  gate ← st_catch (read_probe_gate env) (λ _, mret VNone);
  st_lift (_require_hive_probe_result operation gate).

Definition _execute_server_queen_assignment_capacity_sink env (step : string)
  (callback : QueenAssignmentPlan → ST W pyval) p : ST W pyval :=
  let operation := "queen_assignment_" +:+ step in
  _ ← st_lift (require (bool_decide (operation ∈ QUEEN_ASSIGNMENT_CAPACITY_SINKS))
                 (AgentError "invalid_queen_assignment_capacity_sink"));
  _ ← agent_lifecycle_lock env (qa_agent_id p);
  hive_capacity_probe_guard env operation (callback p).

(** ** The saga

    The local list [steps] is threaded with the world: the handler reads it
    after an exception. *)
Abbreviation qstep := (string * pyval)%type.
Abbreviation Queen := (ST (W * list qstep)).

Definition qcall {A} (m : ST W A) : Queen A := λ s, let '(w, r) := m s.1 in ((w, s.2), r).
Definition qpush (x : qstep) : Queen () := λ s, ((s.1, s.2 ++ [x]), Ok ()).
Definition qset_last (x : qstep) : Queen () := λ s,
  ((s.1, take (length s.2 - 1) s.2 ++ [x]), Ok ()).

Definition is_mapping (v : pyval) : bool := match v with VDict _ => true | _ => false end.

Definition callbacks (c : QueenAssignmentExecutionContext W)
  : list (string * option (QueenAssignmentPlan → ST W pyval)) :=
  [ ("teamlead", create_teamlead_principal c); ("specialist", create_specialist_principal c);
    ("grant", issue_grant c); ("admission", reserve_admission c);
    ("assignment", execute_assignment c) ].

Fixpoint run_steps env p (cbs : list (string * option (QueenAssignmentPlan → ST W pyval)))
  : Queen () :=
  match cbs with
  | [] => mret ()
  | (name, None) :: _ => st_lift (Err (AgentError "queen_assignment_callback_unavailable"))
  | (name, Some callback) :: cbs =>
      _ ← qpush (name, VNone);
      r ← qcall (_execute_server_queen_assignment_capacity_sink env name callback p);
      _ ← st_lift (require (negb (bool_decide (name = "assignment")) || is_mapping r)
                     (AgentError "queen_assignment_result_invalid"));
      _ ← qset_last (name, r);
      run_steps env p cbs
  end.

Fixpoint compensate_steps (c : QueenAssignmentExecutionContext W) p (steps : list qstep)
  (complete : bool) (w : W) : W * bool :=
  match steps with
  | [] => (w, complete)
  | (name, r) :: steps =>
      let '(w, out) :=
        match compensate c with
        | Some f => f name p r w
        | None => (w, Err (TypeError "'NoneType' object is not callable"))
        end in
      compensate_steps c p steps (complete && is_ok out) w
  end.

Definition queen_blocked p (reason : string) : mapping :=
  [ ("allowed", VBool false); ("reason_code", VStr reason); ("mutation_performed", VBool false);
    ("plan", VDict (plan_public p)); ("raw_output", VStr "not_returned") ].

Definition queen_executed p (steps : list qstep) : mapping :=
  [ ("allowed", VBool true); ("reason_code", VStr "assignment_executed");
    ("mutation_performed", VBool true); ("plan", VDict (plan_public p));
    ("result", match last steps with Some (_, VDict d) => VDict d | _ => VDict [] end);
    ("raw_output", VStr "not_returned") ].

Definition queen_failed p (complete : bool) : mapping :=
  [ ("allowed", VBool false); ("reason_code", VStr "assignment_transaction_failed");
    ("mutation_performed", VBool false); ("compensation_attempted", VBool true);
    ("compensation_complete", VBool complete); ("plan", VDict (plan_public p));
    ("raw_output", VStr "not_returned") ].

Definition _execute_server_queen_assignment env p
  (context : option (QueenAssignmentExecutionContext W)) : ST W mapping := λ w,
  if negb (bool_decide (qa_mode p = "enforced")) then (w, Ok (queen_blocked p "shadow_only"))
  else match context with
  | None => (w, Ok (queen_blocked p "pilot_gate_blocked"))
  | Some c =>
      if negb (ready_for c p) then (w, Ok (queen_blocked p "pilot_gate_blocked"))
      else match run_steps env p (callbacks c) (w, []) with
      | ((w, steps), Ok _) => (w, Ok (queen_executed p steps))
      | ((w, steps), Err _) =>
          let '(w, complete) := compensate_steps c p (List.rev steps) true w in
          (w, Ok (queen_failed p complete))
      end
  end.
End capacity.

(** ** With the event log

    The world is a pair: what the callbacks work on, and the files of the event
    store. *)
Section events.
Context {W : Type}.

Definition on_files {A} (m : FilesM A) : ST (W * files) A := λ w,
  let '(fs, r) := m w.2 in ((w.1, fs), r).

(** The store, and what the operating system and the clock answer to one
    append. *)
Record event_sink := { es_store : HiveStateStore; es_answers : answers_pair; es_now : datetime }.

Definition log_transition (s : event_sink) (p : QueenAssignmentPlan) (status : string)
  : ST (W * files) () :=
  on_files (append_queue_transition (es_store s) (es_answers s) (VStr (qa_workpackage_id p))
    (VStr status) None (es_now s) (VStr (qa_dispatch_id p)) (VStr (qa_repo_id p))
    (VStr (qa_agent_id p)) None).

Definition is_event_error (e : exn) : bool :=
  match e with HiveEventError _ => true | _ => false end.

(** The status a reason is recorded with. *)
Definition queue_status (reason : pyval) : string :=
  match reason with
  | VStr s =>
      default "failed" (dict_get s
        [ ("assignment_executed", "completed"); ("shadow_only", "planned");
          ("pilot_gate_blocked", "blocked"); ("assignment_transaction_failed", "failed") ])
  | _ => "failed"
  end.

(** [sinks] are the store's answers to the two appends; [None] is a call
    without an event store. *)
Definition execute_server_queen_assignment (env : capacity_env (W * files))
  (queen dispatch : pyval) (workpackage : mapping) (pool : pool_field)
  (context : option (QueenAssignmentExecutionContext (W * files)))
  (sinks : option (event_sink * event_sink)) : ST (W * files) mapping :=
  p ← st_lift (plan_queen_assignment queen dispatch workpackage pool);
  match sinks with
  | None => _execute_server_queen_assignment env p context
  | Some (first, second) =>
      _ ← st_catch (log_transition first p "queued")
            (λ e, st_lift (Err (if is_event_error e
                                then AgentError "hive_event_persistence_failed" else e)));
      result ← _execute_server_queen_assignment env p context;
      recorded ← st_catch (_ ← log_transition second p (queue_status (get_or VNone "reason_code" result));
                           mret "recorded")
                   (λ e, if is_event_error e then mret "failed" else st_lift (Err e));
      mret (dict_set "raw_output" (VStr "not_returned")
              (dict_set "event_persistence" (VStr recorded) result))
  end.
End events.

(** ** The trace of an execution

    Logged contexts and surroundings write what they do: whether an agent's
    mutation lock and the probe lock were taken, the color of a probe gate that
    was read, a forward step whose callback was called, a compensation.  The
    locks are released when their blocks end, without an event. *)
Inductive queen_event :=
  | EvAgentLock (agent : string) (taken : bool)
  | EvProbeLock (taken : bool)
  | EvGate (green : bool)
  | EvStep (name : string)
  | EvUndo (name : string) (succeeded : bool).

Section trace.
Context {W : Type}.

Definition log_event {A} (event : result A → queen_event) (m : ST W A) : ST (W * list queen_event) A :=
  λ s, let '(w, r) := m s.1 in ((w, s.2 ++ [event r]), r).
Definition logged_env (env : capacity_env W) : capacity_env (W * list queen_event) := {|
  agent_lifecycle_lock := λ a, log_event (λ r, EvAgentLock a (is_ok r)) (agent_lifecycle_lock env a);
  probe_capacity_lock := log_event (λ r, EvProbeLock (is_ok r)) (probe_capacity_lock env);
  read_probe_gate :=
    log_event (λ r, EvGate (match r with Ok g => gate_is_green g | Err _ => false end))
      (read_probe_gate env);
|}.

Definition logged_step (name : string) (f : QueenAssignmentPlan → ST W pyval)
  : QueenAssignmentPlan → ST (W * list queen_event) pyval :=
  λ p, log_event (λ _, EvStep name) (f p).

Definition logged (c : QueenAssignmentExecutionContext W)
  : QueenAssignmentExecutionContext (W * list queen_event) := {|
  pilot_queens := pilot_queens c; pilot_repositories := pilot_repositories c;
  confirmed_accounts := confirmed_accounts c; primary_models := primary_models c;
  sp_features_enabled := sp_features_enabled c;
  create_teamlead_principal := logged_step "teamlead" <$> create_teamlead_principal c;
  create_specialist_principal := logged_step "specialist" <$> create_specialist_principal c;
  issue_grant := logged_step "grant" <$> issue_grant c;
  reserve_admission := logged_step "admission" <$> reserve_admission c;
  execute_assignment := logged_step "assignment" <$> execute_assignment c;
  compensate := (λ f name p r, log_event (λ out, EvUndo name (is_ok out)) (f name p r)) <$> compensate c;
|}.

(** A step made for a plan: the agent's mutation lock, then the probe lock,
    then the gate read green, then the callback. *)
Definition made_step (p : QueenAssignmentPlan) (name : string) : list queen_event :=
  [EvAgentLock (qa_agent_id p) true; EvProbeLock true; EvGate true; EvStep name].

(** What a failed step leaves: a lock refused, a gate that was not green, or a
    callback that raised or returned no mapping. *)
Definition failed_step (p : QueenAssignmentPlan) (name : string) : list (list queen_event) :=
  [ [EvAgentLock (qa_agent_id p) false]; [EvAgentLock (qa_agent_id p) true; EvProbeLock false];
    [EvAgentLock (qa_agent_id p) true; EvProbeLock true; EvGate false]; made_step p name ].

Lemma sink_trace env name (f : QueenAssignmentPlan → ST W pyval) p w log :
  "queen_assignment_" +:+ name ∈ QUEEN_ASSIGNMENT_CAPACITY_SINKS →
  text_ok MAX_OPERATION_LENGTH ("queen_assignment_" +:+ name) = true →
  ∃ w' tried out,
    _execute_server_queen_assignment_capacity_sink (logged_env env) name (logged_step name f) p (w, log)
    = ((w', log ++ tried), out)
    ∧ match out with Ok _ => tried = made_step p name | Err _ => tried ∈ failed_step p name end.
Proof.
  intros Hin Htext. unfold _execute_server_queen_assignment_capacity_sink.
  rewrite bool_decide_eq_true_2 by done. cbn [require]. rewrite run_lift, st_bind_eq.
  cbn [logged_env agent_lifecycle_lock]. unfold log_event at 1. cbn [fst snd].
  destruct (agent_lifecycle_lock env (qa_agent_id p) w) as [w1 [[]|e]]; cbn [is_ok];
    [|eexists w1, _, (Err e); split; [done|by left]].
  unfold hive_capacity_probe_guard. cbn [logged_env probe_capacity_lock read_probe_gate].
  rewrite st_bind_eq. unfold st_catch at 1, log_event at 1. cbn [fst snd].
  destruct (probe_capacity_lock env w1) as [w2 [[]|e]]; cbn [is_ok].
  2:{ unfold _require_hive_probe_result, st_lift. rewrite Htext. cbn [require gate_is_green].
      rewrite bind_ret. cbn [mbind result_bind].
      eexists w2, _, (Err (if is_os_error e || is_value_error e then AgentError "hive_spawn_probe_blocked"
                           else e)).
      rewrite <- app_assoc. split; [by destruct (_ || _)|right; by left]. }
  rewrite st_bind_eq. unfold st_catch at 1, log_event at 1. cbn [fst snd].
  assert (∀ w3 : W, ∃ (w' : W) (tried : list queen_event) (out : result pyval), (w3, ((log ++ [EvAgentLock (qa_agent_id p) true]) ++ [EvProbeLock true]) ++ [EvGate false],
      @Err pyval (AgentError "hive_spawn_probe_blocked")) = ((w', log ++ tried), out)
    ∧ match out with Ok _ => tried = made_step p name | Err _ => tried ∈ failed_step p name end) as Hred.
  { intros w3. eexists w3, _, (Err _). rewrite <- !app_assoc. split; [done|]. by do 2 right; left. }
  destruct (read_probe_gate env w2) as [w3 [g|e]]; cbv beta iota.
  - unfold _require_hive_probe_result. rewrite Htext. cbn [require]. rewrite bind_ret.
    destruct (gate_is_green g); cbn [require]; [|apply Hred].
    rewrite run_lift. unfold logged_step, log_event. cbn [fst snd].
    destruct (f p w3) as [w4 r]. exists w4, (made_step p name), r.
    rewrite <- !app_assoc. split; [done|]. destruct r; [done|]. by do 3 right; left.
  - cbn [mret st_ret]. unfold _require_hive_probe_result. rewrite Htext. cbn [require].
    rewrite bind_ret. cbn [gate_is_green require]. apply Hred.
Qed.

(** The callbacks of a complete context, each under its sink's name. *)
Definition sinks_ok (cbs : list (string * (QueenAssignmentPlan → ST W pyval))) : Prop :=
  Forall (λ cb : string * _, "queen_assignment_" +:+ cb.1 ∈ QUEEN_ASSIGNMENT_CAPACITY_SINKS
    ∧ text_ok MAX_OPERATION_LENGTH ("queen_assignment_" +:+ cb.1) = true) cbs.

Definition logged_callbacks (cbs : list (string * (QueenAssignmentPlan → ST W pyval)))
  : list (string * option (QueenAssignmentPlan → ST (W * list queen_event) pyval)) :=
  (λ cb, (cb.1, Some (logged_step cb.1 cb.2))) <$> cbs.

Lemma qset_last_app {V} (w : V) steps x y :
  qset_last y (w, steps ++ [x]) = ((w, steps ++ [y]), Ok ()).
Proof.
  unfold qset_last. cbn [fst snd]. rewrite length_app. cbn [length].
  by rewrite Nat.add_sub, take_app_length.
Qed.

(** The steps run in order, each behind a green gate of its own, until one
    fails. *)
Lemma run_steps_trace env p cbs w log steps :
  sinks_ok cbs →
  ∃ w' events new out,
    run_steps (logged_env env) p (logged_callbacks cbs) ((w, log), steps)
    = (((w', log ++ events), steps ++ new), out)
    ∧ match out with
      | Ok _ => new.*1 = cbs.*1 ∧ events = cbs.*1 ≫= made_step p
      | Err _ => ∃ before failed rest tried,
          cbs.*1 = before ++ failed :: rest ∧ new.*1 = before ++ [failed]
          ∧ tried ∈ failed_step p failed ∧ events = (before ≫= made_step p) ++ tried
      end.
Proof.
  intros Hcbs. revert w log steps. induction Hcbs as [|[name f] cbs [Hin Htext] _ IH]; intros w log steps.
  { exists w, [], [], (Ok ()). by rewrite !app_nil_r. }
  cbn [fst] in *. unfold logged_callbacks. rewrite fmap_cons. cbn [run_steps fst snd].
  fold (logged_callbacks cbs). rewrite st_bind_eq. unfold qpush. cbn [fst snd].
  rewrite st_bind_eq. unfold qcall. cbn [fst snd].
  destruct (sink_trace env name f p w log Hin Htext) as (w1 & tried & out & -> & Hout). cbn [fst snd].
  assert (∀ e, ∃ w' events new out,
    (((w1, log ++ tried), steps ++ [(name, VNone)]), @Err () e)
    = (((w', log ++ events), steps ++ new), out)
    ∧ match out with
      | Ok _ => new.*1 = name :: cbs.*1 ∧ events = (name :: cbs.*1) ≫= made_step p
      | Err _ => ∃ before failed rest tried,
          name :: cbs.*1 = before ++ failed :: rest ∧ new.*1 = before ++ [failed]
          ∧ tried ∈ failed_step p failed ∧ events = (before ≫= made_step p) ++ tried
      end) as Hfail.
  { intros e. exists w1, tried, [(name, VNone)], (Err e). split; [done|].
    exists [], name, cbs.*1, tried. split_and!; [done..| |done].
    destruct out; [|done]. rewrite Hout. by do 3 right; left. }
  destruct out as [r|e]; [|apply Hfail]. rewrite bind_require.
  destruct (negb _ || _); [|apply Hfail]. rewrite st_bind_eq, qset_last_app.
  destruct (IH w1 (log ++ tried) (steps ++ [(name, r)])) as (w2 & events & new & out & Hrun & H).
  exists w2, (tried ++ events), ((name, r) :: new), out. split.
  { etransitivity; [exact Hrun|]. by rewrite <- !app_assoc. }
  rewrite Hout. destruct out as [[]|e].
  - destruct H as [Hn ->]. cbn. by rewrite Hn.
  - destruct H as (before & failed & rest & tried' & Hsplit & Hn & Ht & ->).
    exists (name :: before), failed, rest, tried'. cbn. rewrite Hsplit, Hn. done.
Qed.

Lemma compensate_trace c p steps complete w log f :
  compensate c = Some f →
  ∃ w' oks, length oks = length steps
    ∧ compensate_steps (logged c) p steps complete (w, log)
      = ((w', log ++ zip_with EvUndo steps.*1 oks), complete && forallb id oks).
Proof.
  intros Hf. revert complete w log. induction steps as [|[name r] steps IH]; intros complete w log.
  { exists w, []. cbn. by rewrite app_nil_r, andb_true_r. }
  cbn [compensate_steps]. cbn [logged compensate]. rewrite Hf. cbn [fmap option_fmap option_map].
  unfold log_event at 1. cbn [fst snd]. destruct (f name p r w) as [w1 out].
  destruct (IH (complete && is_ok out) w1 (log ++ [EvUndo name (is_ok out)])) as (w' & oks & Hlen & Heq).
  exists w', (is_ok out :: oks). split; [cbn; by f_equal|].
  etransitivity; [exact Heq|]. cbn [forallb id fmap list_fmap fst zip_with].
  by rewrite <- app_assoc, andb_assoc.
Qed.

Lemma ready_callbacks c p :
  ready_for c p = true →
  ∃ cbs f, callbacks (logged c) = logged_callbacks cbs ∧ sinks_ok cbs ∧ compensate c = Some f
    ∧ cbs.*1 = ["teamlead"; "specialist"; "grant"; "admission"; "assignment"].
Proof.
  unfold ready_for. rewrite !andb_true_iff. intros (_ & ((((H1 & H2) & H3) & H4) & H5) & H6).
  unfold present in *. apply bool_decide_eq_true in H1 as [f1 H1], H2 as [f2 H2], H3 as [f3 H3],
    H4 as [f4 H4], H5 as [f5 H5], H6 as [f H6].
  exists [("teamlead", f1); ("specialist", f2); ("grant", f3); ("admission", f4); ("assignment", f5)], f.
  split_and!; [|by repeat constructor; try (apply (bool_decide_unpack _); vm_compute)|done|done].
  unfold callbacks, logged. cbn. by rewrite H1, H2, H3, H4, H5.
Qed.

Lemma ready_logged c p : ready_for (logged c) p = ready_for c p.
Proof.
  unfold ready_for, logged, present. cbn. by destruct (create_teamlead_principal c),
    (create_specialist_principal c), (issue_grant c), (reserve_admission c), (execute_assignment c),
    (compensate c).
Qed.

(** C3: For every context, plan, world and surroundings, a queen execution
    returns a response, and what it did is one of three things.  It did nothing,
    because the plan is a shadow plan or the context does not authorize it.  Or
    it called the five forward callbacks in order, and directly before each of
    them it took the mutation lock of the plan's agent, then the probe lock, and
    then read a probe gate that was green.  Or a step failed (a lock was refused, its gate was not
    green, or its callback raised or returned no mapping): the steps before it
    were made in order, no later callback was called, and the failed step and
    the ones before it were compensated exactly once each, in reverse order,
    whatever the compensations do; the response calls the compensation complete
    exactly when every one succeeded. *)
Theorem queen_saga_gated env c p w :
  let steps := ["teamlead"; "specialist"; "grant"; "admission"; "assignment"] in
  ∃ w' log resp,
    _execute_server_queen_assignment (logged_env env) p (Some (logged c)) (w, []) = ((w', log), Ok resp)
    ∧ ((w' = w ∧ log = [] ∧ get_or VNone "allowed" resp = VBool false
        ∧ (qa_mode p ≠ "enforced" ∨ ready_for c p = false))
       ∨ (qa_mode p = "enforced" ∧ ready_for c p = true ∧ get_or VNone "allowed" resp = VBool true
          ∧ log = steps ≫= made_step p)
       ∨ (qa_mode p = "enforced" ∧ ready_for c p = true ∧ get_or VNone "allowed" resp = VBool false
          ∧ ∃ before failed rest tried oks,
              steps = before ++ failed :: rest ∧ tried ∈ failed_step p failed
              ∧ length oks = S (length before)
              ∧ log = (before ≫= made_step p) ++ tried ++ zip_with EvUndo (failed :: List.rev before) oks
              ∧ get_or VNone "compensation_complete" resp = VBool (forallb id oks))).
Proof.
  intros steps. unfold _execute_server_queen_assignment.
  case_bool_decide as Hmode; cbn [negb]; [|eexists _, _, _; split; [done|left; by split_and!; [..|left]]].
  rewrite ready_logged. destruct (ready_for c p) eqn:Hready; cbn [negb];
    [|eexists _, _, _; split; [done|left; by split_and!; [..|right]]].
  destruct (ready_callbacks c p Hready) as (cbs & f & -> & Hok & Hf & Hnames).
  destruct (run_steps_trace env p cbs w [] [] Hok) as (w1 & events & new & out & -> & H).
  cbn [app]. rewrite Hnames in H. destruct out as [[]|e].
  - destruct H as [_ ->]. eexists _, _, _. split; [done|]. right. left. by split_and!.
  - destruct H as (before & failed & rest & tried & Hsplit & Hn & Ht & ->).
    destruct (compensate_trace c p (List.rev new) true w1 ((before ≫= made_step p) ++ tried) f Hf)
      as (w2 & oks & Hlen & ->).
    eexists _, _, _. split; [done|]. right. right. split_and!; [done..|].
    exists before, failed, rest, tried, oks.
    assert (length new = S (length before)) as Hl.
    { rewrite <- (length_fmap fst new), Hn, length_app. cbn. lia. }
    split_and!; [done|done|by rewrite Hlen, length_rev| |done].
    rewrite <- app_assoc. f_equal. f_equal. f_equal.
    transitivity (List.rev new.*1); [apply map_rev|]. by rewrite Hn, rev_app_distr.
Qed.
End trace.
