(* ===== verification/ServerGates.v ===== *)
(** * The server's runtime gates

    [src/src/the_hive/server.py]: the process identity guard (lines 12821 to 12903)
    and the ten gates the server attaches to its admission runtime (lines 41836
    to 42190).  What the fleet service, the usage reader, the lease file, the
    process table, the credential probe and the runner configuration answer are
    calls over the server's world; the authority engine and the repository
    registry are the ones of [Authority] and [Repositories]. *)

From S2P Require Import Prelude PyTime DynamicPool Json PyEq Admission AdmissionRuntime HiveState ModelPolicy HiveMessages Repositories Authority HiveAssignment.
#[local] Open Scope Z_scope.

(** ** The process identity guard *)

(** A count: an [int] that is no [bool], at least [low]. *)
Definition count_from (low : Z) (v : pyval) : option Z :=
  match v with VInt z => if low <=? z then Some z else None | _ => None end.

Record process_counts := { pc_all : Z; pc_external : Z; pc_managed : Z }.

(** [counts_available], with the counts. *)
Definition counts_available (summary : mapping) : option process_counts :=
  match count_from 0 (get_or VNone "process_count" summary),
        count_from 0 (get_or VNone "external_process_count" summary),
        count_from 0 (get_or VNone "managed_process_count" summary) with
  | Some a, Some e, Some m =>
      if (m + e <=? a) && ((0 <? m) || (e =? a))
      then Some {| pc_all := a; pc_external := e; pc_managed := m |} else None
  | _, _, _ => None
  end.

(** [managed_process_ids], when they name as many distinct processes as the
    counts allow. *)
Definition managed_ids (counts : option process_counts) (summary : mapping) : option (list Z) :=
  match counts, get_or VNone "managed_process_ids" summary with
  | Some c, VList l =>
      if (pc_managed c <=? Z.of_nat (length l)) && (Z.of_nat (length l) <=? pc_all c)
      then match mapM (count_from 1) l with
           | Some ids => if bool_decide (NoDup ids) then Some ids else None
           | None => None
           end
      else None
  | _, _ => None
  end.

(** [pane_process_identity_match]: [None] when no session runs. *)
Definition pane_identity_match (running : bool) (summary : mapping) (pane : pyval) : option bool :=
  if running then
    Some match managed_ids (counts_available summary) summary, count_from 1 pane with
         | Some ids, Some pid => bool_decide (pid ∈ ids)
         | _, _ => false
         end
  else None.

Definition identity_state (running : bool) (summary : mapping) (pane : pyval) : bool * string :=
  match counts_available summary with
  | None => (false, "blocked_process_scan_unavailable")
  | Some c =>
      if running && (pc_managed c =? 1)
         && negb (bool_decide (pane_identity_match running summary pane = Some true))
      then (false, "blocked_tmux_session_identity_mismatch")
      else if 0 <? pc_external c then (false, "blocked_external_home_user")
      else if negb running && (0 <? pc_managed c) then (false, "blocked_orphaned_managed_home_process")
      else if running && (pc_managed c =? 0)
      then (false, "blocked_tmux_session_without_managed_process")
      else if running && (1 <? pc_managed c) then (false, "blocked_multiple_managed_home_processes")
      else if running then (true, "managed_session_running")
      else (true, "clear")
  end.

Definition agent_identity_guard (running : bool) (summary : mapping) (pane : pyval) : mapping :=
  let '(ok, state) := identity_state running summary pane in
  [ ("ok", VBool ok); ("state", VStr state); ("single_identity_required", VBool true);
    ("tmux_session_running", VBool running);
    ("home_process_count", get_or VNone "process_count" summary);
    ("home_managed_process_count", get_or VNone "managed_process_count" summary);
    ("home_external_process_count", get_or VNone "external_process_count" summary);
    ("pane_process_identity_checked", VBool running);
    ("pane_process_identity_match",
      match pane_identity_match running summary pane with Some b => VBool b | None => VNone end);
    ("raw_output", VStr "not_returned") ].

(** ** The server's world *)

Record sworld (X : Type) := { sw_authority : aworld; sw_attempt : Z; sw_outside : X }.
Arguments sw_authority {_} _.
Arguments sw_attempt {_} _.
Arguments sw_outside {_} _.
Abbreviation ServerM X := (ST (sworld X)).

(** [fleet_registry.RunnerKind], [Provider] and the fields of an
    [AgentDescriptor] the gates read. *)
Inductive RunnerKind := CODEX_CLI | GEMINI_CLI.
#[export] Instance RunnerKind_eq_dec : EqDecision RunnerKind.
Proof. solve_decision. Defined.
Inductive Provider := OPENAI_CHATGPT | OPENAI_API | GEMINI_API | OLLAMA_LOCAL | HUGGINGFACE_INFERENCE.
#[export] Instance Provider_eq_dec : EqDecision Provider.
Proof. solve_decision. Defined.

Record AgentDescriptor := {
  ad_agent_id : string;
  ad_series_prefix : string;
  ad_runner : RunnerKind;
  ad_provider : Provider;
  ad_model : string;
  ad_account_id : option string;
  ad_session : string;
  ad_enabled : bool;
}.

Definition Inventory : Type := list (string * AgentDescriptor).

Record server_env (X : Type) := {
  current_agent_inventory : ServerM X Inventory;
  (* the fleet service's snapshot and its decision for an agent *)
  fleet_account_gate : string → Inventory → ServerM X (bool * string);
  (* the path test and the text of the policy document *)
  model_policy_file : ServerM X (bool * result string);
  ensure_agent_not_blocked_by_codex_usage : string → ServerM X pyval;
  agent_lease_status : string → ServerM X pyval;
  headless_job_status : string → ServerM X mapping;
  agent_home_process_summary : string → ServerM X mapping;
  tmux_alive : string → ServerM X bool;
  pane_pid : string → ServerM X pyval;
  agent_auth_status : string → ServerM X mapping;
  headless_executable : AgentDescriptor → ServerM X ();
  (* the configured runner is a path to a regular executable *)
  agent_runner_usable : string → ServerM X bool;
  (* what the operating system answers to the next call *)
  next_surroundings : sworld X → sworld X * surroundings;
  next_host : sworld X → sworld X * host;
}.
Arguments current_agent_inventory {_} _.
Arguments fleet_account_gate {_} _.
Arguments model_policy_file {_} _.
Arguments ensure_agent_not_blocked_by_codex_usage {_} _.
Arguments agent_lease_status {_} _.
Arguments headless_job_status {_} _.
Arguments agent_home_process_summary {_} _.
Arguments tmux_alive {_} _.
Arguments pane_pid {_} _.
Arguments agent_auth_status {_} _.
Arguments headless_executable {_} _.
Arguments agent_runner_usable {_} _.
Arguments next_surroundings {_} _.
Arguments next_host {_} _.

Definition is_agent_error (e : exn) : bool := match e with AgentError _ => true | _ => false end.

(** [except (AgentError, FleetValidationError, OSError, ValueError)]. *)
Definition binding_handled (e : exn) : bool := is_agent_error e || is_os_error e || is_value_error e.

(** [except (AgentError, OSError, RuntimeError, ValueError)]. *)
Definition gate_handled (e : exn) : bool := is_runtime_error e || is_os_error e || is_value_error e.

(** [except (AgentError, OSError, ValueError, TypeError)]. *)
Definition lease_handled (e : exn) : bool := binding_handled e || is_type_error e.

(** [char] of [[A-Za-z0-9_-]]. *)
Definition is_reason_char (c : ascii) : bool :=
  is_lower c || is_upper c || is_digit_char c || is_char "_" c || is_char "-" c.

Definition safe_reason (reason : string) : string :=
  if (1 <=? py_len reason) && (py_len reason <=? 96) && string_forallb is_reason_char reason
  then reason else "runtime_gate_denied".

Section gates.
Context {X : Type} (env : server_env X).
Implicit Types (adm : AdmissionRecord).

Abbreviation M := (ServerM X).
Abbreviation Gate := (AdmissionRecord → M (option RuntimeGateDecision)).

Definition _runtime_decision (allow : bool) (reason : string) : M (option RuntimeGateDecision) :=
  d ← st_lift (RuntimeGateDecision_new (VBool allow) (VStr (safe_reason reason)));
  mret (Some d).

(** [try: body  except (...): return _runtime_decision(False, code)]: what the
    body returned, or the denial. *)
Definition guarded {A} (handled : exn → bool) (code : string) (body : M A)
  (next : A → M (option RuntimeGateDecision)) : M (option RuntimeGateDecision) :=
  o ← st_catch (a ← body; mret (Some a))
        (λ e, if handled e then mret None else st_lift (Err e));
  match o with
  | Some a => next a
  | None => _runtime_decision false code
  end.

Definition _server_runtime_descriptor adm : M (option (Inventory * AgentDescriptor)) :=
  o ← st_catch (inventory ← current_agent_inventory env; mret (Some inventory))
        (λ e, if binding_handled e then mret None else st_lift (Err e));
  mret (inventory ← o; d ← dict_get (agent_id (resource adm)) inventory; Some (inventory, d)).

(** The descriptor, or the denial. *)
Definition with_descriptor (code : string) adm
  (next : Inventory → AgentDescriptor → M (option RuntimeGateDecision))
  : M (option RuntimeGateDecision) :=
  selected ← _server_runtime_descriptor adm;
  match selected with
  | None => _runtime_decision false code
  | Some (inventory, d) => next inventory d
  end.

(** [descriptor.account_id or f"legacy-{descriptor.series_prefix}"]. *)
Definition expected_account (d : AgentDescriptor) : string :=
  match ad_account_id d with
  | Some a => if bool_decide (a = "") then "legacy-" +:+ ad_series_prefix d else a
  | None => "legacy-" +:+ ad_series_prefix d
  end.

Definition _server_runtime_account_gate : Gate := λ adm,
  with_descriptor "account_binding_unavailable" adm (λ inventory d,
    if negb (bool_decide (account_key (resource adm) = expected_account d))
    then _runtime_decision false "account_binding_mismatch"
    else guarded binding_handled "account_gate_unavailable"
           (fleet_account_gate env (ad_agent_id d) inventory)
           (λ decision, _runtime_decision decision.1 decision.2)).

(** What the model gate accepts of a definition. *)
Definition spawnable (o : option ModelDefinition) : bool :=
  match o with
  | None => false
  | Some m => md_enabled m && bool_decide (md_spawn_behavior m = "manual")
              && negb (bool_decide (md_family m = "spark"))
  end.

Definition is_model_policy_error (e : exn) : bool :=
  match e with ModelPolicyError _ => true | _ => false end.

Definition read_model_policy : M ModelPolicyRegistry :=
  '(usable, text) ← model_policy_file env; st_lift (load_model_policy usable text).

Definition _server_runtime_model_gate : Gate := λ adm,
  with_descriptor "model_binding_unavailable" adm (λ _ d,
    if negb (ad_enabled d) then _runtime_decision false "model_agent_disabled"
    else if negb (bool_decide (ad_model d = model_id (resource adm)))
    then _runtime_decision false "model_binding_mismatch"
    else if bool_decide (ad_runner d = CODEX_CLI) && negb (bool_decide (ad_provider d = OLLAMA_LOCAL))
    then guarded is_model_policy_error "model_policy_unavailable" read_model_policy
           (λ registry, if spawnable (get_exact registry (ad_model d))
                        then _runtime_decision true "model_verified"
                        else _runtime_decision false "model_removed_or_disabled")
    else _runtime_decision true "model_verified").

(** [isinstance(v, Mapping) and v.get(k) is b]. *)
Definition field_is (b : bool) (k : string) (v : pyval) : bool :=
  match v with
  | VDict d => match dict_get k d with Some (VBool x) => Bool.eqb x b | _ => false end
  | _ => false
  end.

Definition _server_runtime_usage_gate : Gate := λ adm,
  with_descriptor "usage_binding_unavailable" adm (λ _ d,
    if bool_decide (ad_runner d = GEMINI_CLI) then _runtime_decision true "fleet_limit_verified"
    else guarded gate_handled "usage_gate_unavailable"
           (ensure_agent_not_blocked_by_codex_usage env (ad_agent_id d))
           (λ status, if field_is false "blocked" status then _runtime_decision true "usage_verified"
                      else _runtime_decision false "usage_gate_denied")).

(** One private lease snapshot against the immutable binding of the admission;
    membership in a set raises on a value that cannot be hashed. *)
Definition _server_lease_binding_matches adm (lease : pyval) : result bool :=
  match lease with
  | VDict d =>
      let st := get_or VNone "state" d in
      let expected := expected_state (lease_context adm) in
      if bool_decide (expected ∈ ["available"; "unclaimed"])
      then py_in_set st ["unclaimed"; "expired"]
      else if bool_decide (expected = "claimed")
      then Ok (py_eq_str st "held" && field_is true "held_by_this_server" lease
               && match lease_id (lease_context adm) with
                  | Some id => py_eq_str (get_or VNone "lease_id" d) id
                  | None => true
                  end)
      else Ok (py_eq_str st expected)
  | _ => Ok false
  end.

Definition _server_runtime_lease_gate : Gate := λ adm,
  guarded lease_handled "lease_gate_unavailable" (agent_lease_status env (agent_id (resource adm)))
    (λ lease,
       ok ← st_lift (_server_lease_binding_matches adm lease);
       _runtime_decision ok (if ok then "lease_verified" else "lease_conflict")).

(** The body of the [try] of the process gate. *)
Definition process_check (d : AgentDescriptor) : M (bool * string) :=
  if bool_decide (ad_runner d = GEMINI_CLI) then
    job ← headless_job_status env (ad_agent_id d);
    let known := negb (py_eq_str (get_or VNone "status" job) "identity_unverified") in
    mret (known, if known then "process_verified" else "process_identity_unknown")
  else
    summary ← agent_home_process_summary env (ad_agent_id d);
    running ← tmux_alive env (ad_session d);
    pane ← (if running : bool then pane_pid env (ad_session d) else mret VNone);
    let ok := field_is true "ok" (VDict (agent_identity_guard running summary pane)) in
    mret (ok, if ok then "process_verified" else "process_identity_denied").

Definition _server_runtime_process_gate : Gate := λ adm,
  with_descriptor "process_binding_unavailable" adm (λ _ d,
    guarded gate_handled "process_gate_unavailable" (process_check d)
      (λ o, _runtime_decision o.1 o.2)).

Definition _server_runtime_auth_gate : Gate := λ adm,
  with_descriptor "auth_binding_unavailable" adm (λ _ d,
    if bool_decide (ad_runner d = GEMINI_CLI) || bool_decide (ad_provider d = OLLAMA_LOCAL)
    then _runtime_decision true "provider_auth_verified"
    else guarded gate_handled "auth_gate_unavailable" (agent_auth_status env (ad_agent_id d))
           (λ auth, let ok := field_is true "authenticated" (VDict auth) in
                    _runtime_decision ok (if ok then "auth_verified" else "auth_denied"))).

Definition runner_check (d : AgentDescriptor) : M bool :=
  if bool_decide (ad_runner d = GEMINI_CLI) then _ ← headless_executable env d; mret true
  else agent_runner_usable env (ad_agent_id d).

Definition _server_runtime_config_gate : Gate := λ adm,
  with_descriptor "config_binding_unavailable" adm (λ _ d,
    guarded gate_handled "config_gate_unavailable" (runner_check d)
      (λ ok, if ok : bool then _runtime_decision true "config_verified"
             else _runtime_decision false "runner_config_invalid")).

(** ** The gates of the Hive records *)

(** A transaction of the authority engine, with what it meets outside. *)
Definition with_engine {A} (m : surroundings → AuthorityM A) : M A := λ w,
  let '(w, s) := next_surroundings env w in
  let '(a, r) := m s (sw_authority w) in
  ({| sw_authority := a; sw_attempt := sw_attempt w; sw_outside := sw_outside w |}, r).

Definition with_host {A} (m : host → result A) : M A := λ w,
  let '(w, h) := next_host env w in (w, m h).

Definition admission_write_paths adm : list string :=
  if bool_decide (mode (scope adm) = "write") then paths (scope adm) else [].

Definition _server_hive_authority_gate (authority : AuthorityEngine) (capability : string) : Gate :=
  λ adm,
  guarded gate_handled "authority_gate_unavailable"
    (grant ← with_engine (λ s, get_grant authority s (grant_id adm));
     if negb (bool_decide (binding_digest grant = grant_digest adm)) then mret None
     else d ← with_engine (λ s, validate_grant authority s (grant_id adm) (VStr (principal_id adm))
                              (VStr (repo_id adm)) (Some (dispatch_id adm)) (paths (scope adm))
                              (admission_write_paths adm) (VStr capability));
          mret (Some d))
    (λ o, match o with
          | None => _runtime_decision false "grant_digest_mismatch"
          | Some d => _runtime_decision (Authority.allowed d) (Authority.reason_code d)
          end).

(** [except (OSError, RuntimeError, ValueError)] is the clause of these two. *)
Definition _server_hive_repository_gate (repository : RepositoryRegistry) : Gate := λ adm,
  guarded gate_handled "repository_gate_unavailable"
    (with_host (λ h, validate h repository (VStr (repo_id adm))))
    (λ v, _runtime_decision (rv_allowed v) (rv_reason_code v)).

Definition _server_hive_scope_gate (repository : RepositoryRegistry) : Gate := λ adm,
  guarded gate_handled "scope_gate_unavailable"
    (with_host (λ h, scope_digest h repository (repo_id adm) (mode (scope adm)) (paths (scope adm))))
    (λ expected,
       let ok := bool_decide (expected = canonical_digest (scope adm)) in
       _runtime_decision ok (if ok then "scope_verified" else "scope_digest_mismatch")).

(** ** What an allowed gate has seen *)

Lemma is_reason_char_alnum c :
  is_reason_char c = true → AdmissionRuntime.py_isalnum c || is_char "_" c || is_char "-" c = true.
Proof.
  unfold is_reason_char, AdmissionRuntime.py_isalnum, in_alnum. rewrite !orb_true_iff. naive_solver.
Qed.

Lemma safe_reason_ok reason : AdmissionRuntime.reason_ok (safe_reason reason) = true.
Proof.
  unfold safe_reason. case_match eqn:H; [|by vm_compute].
  rewrite !andb_true_iff in H. destruct H as [[H1 H2] H3].
  unfold AdmissionRuntime.reason_ok, AdmissionRuntime.MAX_REASON_LENGTH. rewrite H1, H2. cbn [andb].
  by eapply string_forallb_impl; [apply is_reason_char_alnum|].
Qed.

(** A gate's decision is always well formed. *)
Lemma runtime_decision_eq allow reason (w : sworld X) :
  _runtime_decision allow reason w
  = (w, Ok (Some {| AdmissionRuntime.allowed := allow;
                    AdmissionRuntime.reason_code := safe_reason reason |})).
Proof.
  unfold _runtime_decision, RuntimeGateDecision_new. by rewrite safe_reason_ok.
Qed.

(** [p] allowed from [w] to [w']. *)
Definition allows (p : M (option RuntimeGateDecision)) (w w' : sworld X) : Prop :=
  ∃ d, p w = (w', Ok (Some d)) ∧ AdmissionRuntime.allowed d = true.

Lemma allows_decision allow reason w w' :
  allows (_runtime_decision allow reason) w w' → allow = true ∧ w' = w.
Proof. intros (d & H & Hd). rewrite runtime_decision_eq in H. by simplify_eq/=. Qed.

Lemma allows_guarded {A} handled code (body : M A) next w w' :
  allows (guarded handled code body next) w w' →
  ∃ w1 a, body w = (w1, Ok a) ∧ allows (next a) w1 w'.
Proof.
  intros (d & H & Hd). unfold guarded in H. apply st_bind_Ok in H as (w1 & o & Ho & H).
  unfold st_catch in Ho. rewrite st_bind_eq in Ho.
  destruct (body w) as [w2 [a|e]].
  - injection Ho as <- <-. exists w2, a. split; [done|]. by exists d.
  - destruct (handled e); [|done]. injection Ho as <- <-.
    edestruct allows_decision as [? _]; [by exists d|done].
Qed.

(** The inventory names the admission's agent. *)
Definition described adm w w' inventory d : Prop :=
  current_agent_inventory env w = (w', Ok inventory)
  ∧ dict_get (agent_id (resource adm)) inventory = Some d.

Lemma allows_descriptor code adm next w w' :
  allows (with_descriptor code adm next) w w' →
  ∃ w1 inventory d, described adm w w1 inventory d ∧ allows (next inventory d) w1 w'.
Proof.
  intros (r & H & Hr). unfold with_descriptor, _server_runtime_descriptor in H.
  apply st_bind_Ok in H as (w1 & o & Ho & H).
  apply st_bind_Ok in Ho as (w2 & i & Hi & Ho). injection Ho as <- <-.
  unfold st_catch in Hi. rewrite st_bind_eq in Hi.
  assert (∀ w, allows (_runtime_decision false code) w w' → False) as Hdeny
    by by intros ? []%allows_decision.
  destruct (current_agent_inventory env w) as [w3 [inv|e]] eqn:He.
  - injection Hi as <- <-. cbn [mbind option_bind] in H.
    destruct (dict_get (agent_id (resource adm)) inv) as [d|] eqn:Hd; cbn in H;
      [|edestruct Hdeny; by exists r].
    exists w3, inv, d. split; [done|]. by exists r.
  - destruct (binding_handled e); [|done]. injection Hi as <- <-. edestruct Hdeny; by exists r.
Qed.

Definition account_verified adm w w' : Prop :=
  ∃ w1 inventory d reason, described adm w w1 inventory d
    ∧ account_key (resource adm) = expected_account d
    ∧ fleet_account_gate env (ad_agent_id d) inventory w1 = (w', Ok (true, reason)).

Lemma account_gate_allows adm w w' :
  allows (_server_runtime_account_gate adm) w w' → account_verified adm w w'.
Proof.
  intros (w1 & inv & d & Hd & H)%allows_descriptor.
  case_bool_decide as Hk; cbn [negb] in H; [|by apply allows_decision in H as []].
  apply allows_guarded in H as (w2 & [ok reason] & Hg & [Hok ->]%allows_decision).
  cbn in Hok. subst ok. by exists w1, inv, d, reason.
Qed.

Definition model_verified adm w w' : Prop :=
  ∃ w1 inventory d, described adm w w1 inventory d
    ∧ ad_enabled d = true ∧ ad_model d = model_id (resource adm)
    ∧ (ad_runner d = CODEX_CLI → ad_provider d ≠ OLLAMA_LOCAL →
       ∃ registry m, read_model_policy w1 = (w', Ok registry)
         ∧ get_exact registry (model_id (resource adm)) = Some m
         ∧ md_enabled m = true ∧ md_spawn_behavior m = "manual" ∧ md_family m ≠ "spark").

Lemma model_gate_allows adm w w' :
  allows (_server_runtime_model_gate adm) w w' → model_verified adm w w'.
Proof.
  intros (w1 & inv & d & Hd & H)%allows_descriptor.
  destruct (ad_enabled d) eqn:Hen; cbn [negb] in H; [|by apply allows_decision in H as []].
  case_bool_decide as Hm; cbn [negb] in H; [|by apply allows_decision in H as []].
  exists w1, inv, d. split_and!; [done..|]. intros Hrun Hprov.
  rewrite bool_decide_eq_true_2, bool_decide_eq_false_2 in H by done. cbn [andb negb] in H.
  apply allows_guarded in H as (w2 & registry & Hr & H). exists registry.
  unfold spawnable in H. rewrite Hm in H.
  destruct (get_exact registry (model_id (resource adm))) as [m|];
    [|by apply allows_decision in H as []].
  exists m. destruct (md_enabled m); cbn [andb] in H; [|by apply allows_decision in H as []].
  case_bool_decide; cbn [andb] in H; [|by apply allows_decision in H as []].
  case_bool_decide; cbn [negb] in H; [by apply allows_decision in H as []|].
  by apply allows_decision in H as [_ ->].
Qed.

Definition usage_verified adm w w' : Prop :=
  ∃ w1 inventory d, described adm w w1 inventory d
    ∧ (ad_runner d ≠ GEMINI_CLI →
       ∃ status, ensure_agent_not_blocked_by_codex_usage env (ad_agent_id d) w1 = (w', Ok status)
         ∧ field_is false "blocked" status = true).

Lemma usage_gate_allows adm w w' :
  allows (_server_runtime_usage_gate adm) w w' → usage_verified adm w w'.
Proof.
  intros (w1 & inv & d & Hd & H)%allows_descriptor. exists w1, inv, d. split; [done|]. intros Hrun.
  rewrite bool_decide_eq_false_2 in H by done.
  apply allows_guarded in H as (w2 & status & Hs & H). exists status.
  destruct (field_is false "blocked" status); [|by apply allows_decision in H as []].
  by apply allows_decision in H as [_ ->].
Qed.

Definition lease_verified adm w w' : Prop :=
  ∃ lease, agent_lease_status env (agent_id (resource adm)) w = (w', Ok lease)
    ∧ _server_lease_binding_matches adm lease = Ok true.

Lemma lease_gate_allows adm w w' :
  allows (_server_runtime_lease_gate adm) w w' → lease_verified adm w w'.
Proof.
  intros (w1 & lease & Hl & (d & H & Hd))%allows_guarded. exists lease.
  apply st_bind_Ok in H as (w2 & ok & [-> Hm]%st_lift_Ok & H).
  destruct ok; [|by edestruct allows_decision as [? _]; [by exists d|]].
  assert (w' = w1) as -> by (by edestruct (allows_decision true) as [_ ?]; [exists d|]).
  done.
Qed.

Definition process_verified adm w w' : Prop :=
  ∃ w1 inventory d reason, described adm w w1 inventory d
    ∧ process_check d w1 = (w', Ok (true, reason)).

Lemma process_gate_allows adm w w' :
  allows (_server_runtime_process_gate adm) w w' → process_verified adm w w'.
Proof.
  intros (w1 & inv & d & Hd & H)%allows_descriptor.
  apply allows_guarded in H as (w2 & [ok reason] & Hc & [Hok ->]%allows_decision).
  cbn in Hok. subst ok. by exists w1, inv, d, reason.
Qed.

Definition auth_verified adm w w' : Prop :=
  ∃ w1 inventory d, described adm w w1 inventory d
    ∧ (ad_runner d ≠ GEMINI_CLI → ad_provider d ≠ OLLAMA_LOCAL →
       ∃ auth, agent_auth_status env (ad_agent_id d) w1 = (w', Ok auth)
         ∧ field_is true "authenticated" (VDict auth) = true).

Lemma auth_gate_allows adm w w' :
  allows (_server_runtime_auth_gate adm) w w' → auth_verified adm w w'.
Proof.
  intros (w1 & inv & d & Hd & H)%allows_descriptor. exists w1, inv, d. split; [done|].
  intros Hrun Hprov. rewrite !bool_decide_eq_false_2 in H by done. cbn [orb] in H.
  apply allows_guarded in H as (w2 & auth & Ha & [Hok ->]%allows_decision). by exists auth.
Qed.

Definition config_verified adm w w' : Prop :=
  ∃ w1 inventory d, described adm w w1 inventory d ∧ runner_check d w1 = (w', Ok true).

Lemma config_gate_allows adm w w' :
  allows (_server_runtime_config_gate adm) w w' → config_verified adm w w'.
Proof.
  intros (w1 & inv & d & Hd & H)%allows_descriptor.
  apply allows_guarded in H as (w2 & ok & Hc & H).
  destruct ok; [|by apply allows_decision in H as []].
  apply allows_decision in H as [_ ->]. by exists w1, inv, d.
Qed.

(** What an allowing validation of a grant in the world [w] has seen: the
    transaction begun in [w] loaded, under the identifier, a grant that covers
    the use, of a principal that is live there. *)
Definition validated authority (w : sworld X) id subject repo dispatch scope write_paths capability : Prop :=
  let '(w, o) := next_surroundings env w in
  ∃ a g, opened authority o (sw_authority w) a ∧ dict_get id (aw_grants a) = Some g
    ∧ live_principal authority o subject a
    ∧ grant_covers authority o g subject repo dispatch scope write_paths capability.

Lemma validate_validated authority w w' id subject repo dispatch scope write_paths capability d :
  with_engine (λ s, validate_grant authority s id (VStr subject) (VStr repo) dispatch scope write_paths
                      (VStr capability)) w = (w', Ok d) →
  Authority.allowed d = true → validated authority w id subject repo dispatch scope write_paths capability.
Proof.
  unfold with_engine, validated. destruct (next_surroundings env w) as [w1 o].
  destruct (validate_grant _ _ _ _ _ _ _ _ _ _) as [a r] eqn:Hval. intros [= <- ->] Hd.
  destruct (validate_grant_allowed _ _ _ _ _ _ _ _ _ _ _ _ Hval Hd)
    as (a1 & g & s & r & c & [= <-] & [= <-] & [= <-] & Hc). by exists a1, g.
Qed.

(** The grant that was read has the admission's digest, and the grant the
    validation then loads covers what the admission asks for. *)
Definition authority_verified authority capability adm w w' : Prop :=
  ∃ w1 g d, with_engine (λ s, get_grant authority s (grant_id adm)) w = (w1, Ok g)
    ∧ binding_digest g = grant_digest adm
    ∧ with_engine (λ s, validate_grant authority s (grant_id adm) (VStr (principal_id adm))
                   (VStr (repo_id adm)) (Some (dispatch_id adm)) (paths (scope adm))
                   (admission_write_paths adm) (VStr capability)) w1 = (w', Ok d)
    ∧ Authority.allowed d = true
    ∧ validated authority w1 (grant_id adm) (principal_id adm) (repo_id adm) (Some (dispatch_id adm))
        (paths (scope adm)) (admission_write_paths adm) capability.

Lemma authority_gate_allows authority capability adm w w' :
  allows (_server_hive_authority_gate authority capability adm) w w' →
  authority_verified authority capability adm w w'.
Proof.
  intros (w1 & o & Hbody & H)%allows_guarded.
  apply st_bind_Ok in Hbody as (w2 & g & Hg & Hbody).
  case_bool_decide as Hdig; cbn [negb] in Hbody;
    [|injection Hbody as <- <-; by apply allows_decision in H as []].
  apply st_bind_Ok in Hbody as (w3 & d & Hv & Hbody). injection Hbody as <- <-.
  apply allows_decision in H as [Hd ->]. exists w2, g, d. split_and!; [done..|].
  by apply validate_validated in Hv.
Qed.

Definition repository_verified repository adm w w' : Prop :=
  ∃ v, with_host (λ h, validate h repository (VStr (repo_id adm))) w = (w', Ok v)
    ∧ rv_allowed v = true.

Lemma repository_gate_allows repository adm w w' :
  allows (_server_hive_repository_gate repository adm) w w' → repository_verified repository adm w w'.
Proof. intros (w1 & v & Hv & [Hok ->]%allows_decision)%allows_guarded. by exists v. Qed.

Definition scope_verified repository adm w w' : Prop :=
  with_host (λ h, scope_digest h repository (repo_id adm) (mode (scope adm)) (paths (scope adm))) w
  = (w', Ok (canonical_digest (scope adm))).

Lemma scope_gate_allows repository adm w w' :
  allows (_server_hive_scope_gate repository adm) w w' → scope_verified repository adm w w'.
Proof.
  intros (w1 & digest & Hd & [Hok ->]%allows_decision)%allows_guarded.
  apply bool_decide_eq_true in Hok. by subst digest.
Qed.
End gates.
