(* ===== verification/ServerAdmission.v ===== *)
(** * Server-side assignment through persistent admission

    [src/src/the_hive/hive/admission.py]: the planned admission of a verified
    assignment; [src/src/the_hive/server.py], lines 41953 to 42030 and 42193 to
    42510: the lease-bound executor, the assembly of the admission runtime and of
    the selection service, the private bridge and the retried execution of one
    Hive assignment. *)

From stdpp Require Import pretty.
From S2P Require Import Prelude PyTime DynamicPool Json PyEq Admission AdmissionStore AdmissionRuntime SelectionService HiveState HiveTypes ModelPolicy HiveMessages Repositories Authority HiveWork HiveAssignment ServerQueen ServerGates.
#[local] Open Scope Z_scope.

(** ** The planned admission of an assignment *)

(** [g == h] on the dataclass: field by field, timestamps by their instant. *)
Definition grant_eq (g h : DelegationGrant) : bool :=
  py_eq (dg_schema g) (dg_schema h) && bool_decide (dg_id g = dg_id h)
  && bool_decide (dg_issuer g = dg_issuer h) && bool_decide (dg_subject g = dg_subject h)
  && bool_decide (dg_repo_id g = dg_repo_id h) && bool_decide (dg_dispatch_id g = dg_dispatch_id h)
  && bool_decide (dg_capabilities g = dg_capabilities h) && bool_decide (dg_scope g = dg_scope h)
  && bool_decide (dg_write_paths g = dg_write_paths h) && py_eq (dg_depth g) (dg_depth h)
  && (dt_utc (dg_issued_at g) =? dt_utc (dg_issued_at h))
  && (dt_utc (dg_expires_at g) =? dt_utc (dg_expires_at h))
  && bool_decide (dg_nonce_digest g = dg_nonce_digest h)
  && bool_decide (dg_request_digest g = dg_request_digest h)
  && bool_decide (dg_status g = dg_status h) && (dg_version g =? dg_version h).

(** The checks that compare the four records with each other. *)
Definition binding_checks (plan : QueenAssignmentPlan) (w : WorkPackage) (intent : AssignmentIntent)
  (grant : DelegationGrant) (priority : AdmissionPriority) : result () :=
  _ ← require (bool_decide (qa_mode plan = "enforced")) (HiveAdmissionError "assignment_shadow_only");
  _ ← require (gates_ready plan) (HiveAdmissionError "assignment_gate_blocked");
  _ ← require (bool_decide (wp_state w ∈ ["ready"; "queued"; "admission_planned"]))
        (HiveAdmissionError "workpackage_not_admissible");
  _ ← require (bool_decide (qa_workpackage_id plan = wp_workpackage_id w)
               && bool_decide (qa_dispatch_id plan = wp_dispatch_id w)
               && bool_decide (qa_teamlead plan = wp_owner_teamlead_principal_id w)
               && bool_decide (qa_scope plan = wp_scope w)
               && bool_decide (qa_write_paths plan = wp_write_paths w))
        (HiveAdmissionError "workpackage_binding_mismatch");
  _ ← require (bool_decide (ai_dispatch_id intent = qa_dispatch_id plan)
               && bool_decide (ai_workpackage_id intent = qa_workpackage_id plan)
               && bool_decide (ai_repo_id intent = qa_repo_id plan)
               && bool_decide (ai_parent_principal_id intent = qa_teamlead plan)
               && bool_decide (ai_grant_id intent = dg_id grant)
               && bool_decide (ai_class_id intent = qa_writer_class plan)
               && bool_decide (ai_task_complexity intent = qa_task_complexity plan)
               && bool_decide (priority_value (ai_dispatch_priority intent) = dispatch priority))
        (HiveAdmissionError "assignment_intent_mismatch");
  require (bool_decide (dg_issuer grant = qa_teamlead plan)
           && bool_decide (dg_subject grant = qa_specialist plan)
           && bool_decide (dg_repo_id grant = qa_repo_id plan)
           && bool_decide (dg_dispatch_id grant = Some (qa_dispatch_id plan)))
    (HiveAdmissionError "grant_binding_mismatch").

(** [except (OSError, RuntimeError, ValueError)]. *)
Definition read_handled (e : exn) : bool := is_os_error e || is_runtime_error e || is_value_error e.

Record authoritative := {
  au_grant : DelegationGrant;
  au_decision : AuthorityDecision;
  au_mode : string;
  au_paths : list string;
  au_digest : string;
}.

Section assignment.
Context {X : Type} (env : server_env X).
Abbreviation M := (ServerM X).

(** The authoritative reads. *)
Definition authoritative_reads (plan : QueenAssignmentPlan) (w : WorkPackage) (grant : DelegationGrant)
  (authority : AuthorityEngine) (repositories : RepositoryRegistry) (capability : string)
  : M authoritative :=
  current ← with_engine env (λ s, get_grant authority s (dg_id grant));
  decision ← with_engine env (λ s, validate_grant authority s (dg_id current)
               (VStr (qa_specialist plan)) (VStr (qa_repo_id plan)) (Some (qa_dispatch_id plan))
               (wp_scope w) (wp_write_paths w) (VStr capability));
  let writes := negb (bool_decide (wp_write_paths w = [])) in
  let scope_mode := if writes then "write" else "read" in
  let binding_paths := if writes then wp_write_paths w else wp_scope w in
  digest ← with_host env (λ h, scope_digest h repositories (qa_repo_id plan) scope_mode binding_paths);
  mret {| au_grant := current; au_decision := decision; au_mode := scope_mode;
          au_paths := binding_paths; au_digest := digest |}.

Definition create_assignment_admission (plan : QueenAssignmentPlan) (w : WorkPackage)
  (intent : AssignmentIntent) (grant : DelegationGrant) (authority : AuthorityEngine)
  (repositories : RepositoryRegistry) (admission_id : string) (lease : LeaseBinding)
  (budget_key : string) (expected_usage : Z) (priority : AdmissionPriority) (now : datetime)
  (capability : string) (ttl : Z) : M AdmissionRecord :=
  _ ← st_lift (binding_checks plan w intent grant priority);
  a ← st_catch (authoritative_reads plan w grant authority repositories capability)
        (λ e, st_lift (Err (if read_handled e
                            then HiveAdmissionError "authoritative_admission_unavailable" else e)));
  _ ← st_lift (require (grant_eq (au_grant a) grant) (HiveAdmissionError "grant_state_changed"));
  _ ← st_lift (require (Authority.allowed (au_decision a))
                 (HiveAdmissionError (Authority.reason_code (au_decision a))));
  st_lift (scope ← ScopeBinding_new (VStr (au_mode a)) (VStr <$> au_paths a) (VStr (au_digest a));
           resource ← ResourceBinding_new (VStr (qa_agent_id plan)) (VStr (qa_account_key plan))
                        (VStr budget_key) (VStr (qa_model_id plan)) (VInt expected_usage)
                        (qa_pool plan);
           create_admission (VStr admission_id) (VStr (ai_request_id intent))
             (VStr (qa_dispatch_id plan)) (VStr (qa_workpackage_id plan))
             (VStr (ai_assignment_intent_id intent)) (VStr (qa_repo_id plan))
             (VStr (qa_specialist plan)) (VStr (qa_teamlead plan)) (VStr (dg_id (au_grant a)))
             (VStr (binding_digest (au_grant a))) (VInt (wp_version w)) scope resource lease priority
             now (VInt ttl)).

(** ** The lease-bound executor *)

Definition HIVE_ASSIGNMENT_CAPACITY_SINKS : list string :=
  [ "hive_assignment_reservation"; "hive_assignment_provider"; "hive_assignment_process_start";
    "hive_assignment_home_create"; "hive_assignment_callback" ].

Abbreviation Operation := (AdmissionRecord → pyval → M pyval).

(** The checks of the factory on its operations. *)
Definition normalized_operations (operations : list (string * Operation))
  : result (list (string * Operation)) :=
  _ ← require (negb (bool_decide (length operations = 0%nat)) && (Z.of_nat (length operations) <=? 32))
        (AgentError "invalid_lease_operations");
  _ ← require (keys_within operations HIVE_ASSIGNMENT_CAPACITY_SINKS)
        (AgentError "invalid_lease_operation");
  Ok operations.

(** [read_lease] with its handler, and the comparison with the admission. *)
Definition matching_lease (adm : AdmissionRecord) : M pyval :=
  lease ← st_catch (agent_lease_status env (agent_id (resource adm)))
            (λ _, st_lift (Err (AgentError "lease_executor_unavailable")));
  ok ← st_lift (_server_lease_binding_matches adm lease);
  _ ← st_lift (require ok (AgentError "lease_executor_conflict"));
  mret lease.

Definition lease_execute (capacity : capacity_env (sworld X)) (operations : list (string * Operation))
  (adm : AdmissionRecord) (operation : string) : M pyval :=
  _ ← st_lift (require (bool_decide (state adm = EXECUTING)) (AgentError "invalid_admission_state"));
  _ ← st_lift (require (bool_decide (operation ∈ HIVE_ASSIGNMENT_CAPACITY_SINKS))
                 (AgentError "invalid_lease_operation"));
  match dict_get operation operations with
  | None => st_lift (Err (AgentError "lease_operation_not_allowed"))
  | Some callback =>
      _ ← matching_lease adm;
      _ ← agent_lifecycle_lock capacity (agent_id (resource adm));
      fresh ← matching_lease adm;
      result ← hive_capacity_probe_guard capacity operation (callback adm fresh);
      _ ← st_lift (require (is_mapping result) (AgentError "lease_operation_result_invalid"));
      mret result
  end.

Definition build_server_lease_executor (capacity : capacity_env (sworld X))
  (operations : list (string * Operation)) : result (AdmissionRecord → string → M pyval) :=
  operations ← normalized_operations operations;
  Ok (lease_execute capacity operations).

(** ** The runtime and the service *)

Abbreviation Gate := (AdmissionRecord → M (option RuntimeGateDecision)).

(** The three gates of the Hive records: the one that was given, else the one
    bound to the engine or the registry. *)
Record hive_gates := {
  hg_authority : option Gate;
  hg_repository : option Gate;
  hg_scope : option Gate;
}.

Definition bound_gates (given : hive_gates) (authority : option AuthorityEngine)
  (repositories : option RepositoryRegistry) (capability : string) : hive_gates := {|
  hg_authority := match hg_authority given with
                  | Some g => Some g
                  | None => (λ a, _server_hive_authority_gate env a capability) <$> authority
                  end;
  hg_repository := match hg_repository given with
                   | Some g => Some g
                   | None => _server_hive_repository_gate env <$> repositories
                   end;
  hg_scope := match hg_scope given with
              | Some g => Some g
              | None => _server_hive_scope_gate env <$> repositories
              end;
|}.

Definition no_gates : hive_gates := {|
  hg_authority := None; hg_repository := None; hg_scope := None |}.

Definition named_gate (name : string) (g : option Gate) : list (string * Gate) :=
  match g with Some g => [(name, g)] | None => [] end.

(** The dictionary of gates; one that is [None] is not callable, which is as if
    it was missing. *)
Definition gate_dict (g : hive_gates) : list (string * Gate) :=
  named_gate "authority" (hg_authority g) ++ named_gate "repository" (hg_repository g)
  ++ named_gate "scope" (hg_scope g)
  ++ [ ("account", _server_runtime_account_gate env);
       ("model", _server_runtime_model_gate env);
       ("usage", _server_runtime_usage_gate env);
       ("lease", _server_runtime_lease_gate env);
       ("process", _server_runtime_process_gate env);
       ("auth", _server_runtime_auth_gate env);
       ("config", _server_runtime_config_gate env) ].

Definition build_server_admission_runtime (given : hive_gates) (authority : option AuthorityEngine)
  (repositories : option RepositoryRegistry) (capability : string)
  (execute : option (AdmissionRecord → string → M pyval))
  (completed : option (AdmissionRecord → M pyval)) (journal : option (CompletionJournal (sworld X)))
  (reader : M UsageEvidenceV2) (now : M datetime)
  : result (ServerAdmissionRuntime (sworld X) * RuntimeState) :=
  ServerAdmissionRuntime_new (gate_dict (bound_gates given authority repositories capability))
    execute completed journal reader now.

(** The service over the runtime; the clock and the sleeper work on the server's
    world, the admission store is the service's own. *)
Definition build_server_selection_service (given : hive_gates) (authority : option AuthorityEngine)
  (repositories : option RepositoryRegistry) (capability : string)
  (execute : option (AdmissionRecord → string → M pyval))
  (completed : option (AdmissionRecord → M pyval)) (journal : option (CompletionJournal (sworld X)))
  (reader : M UsageEvidenceV2) (now : M datetime) (sleeper : Z → M ()) : result (SelectionService (sworld X * RuntimeState) * RuntimeState) :=
  '(rt, rs) ← build_server_admission_runtime given authority repositories capability execute completed
                 journal reader now;
  svc ← SelectionService_new (Some (server_runtime rt)) (AdmissionRuntime.env now)
          (λ d, AdmissionRuntime.env (sleeper d)) RETRY_BACKOFF_SECONDS;
  Ok (svc, rs).

(** ** The retried execution of one assignment *)

Definition attempt_suffix (n : Z) : string := "-attempt-" +:+ pretty n.

Definition attempt_admission_id (admission_id : string) (n : Z) : string :=
  if n =? 1 then admission_id
  else let suffix := attempt_suffix n in
       String.substring 0 (Z.to_nat (128 - py_len suffix)) admission_id +:+ suffix.

(** [nonlocal attempt; attempt += 1]. *)
Definition next_attempt : M Z := λ w,
  let n := sw_attempt w + 1 in
  ({| sw_authority := sw_authority w; sw_attempt := n; sw_outside := sw_outside w |}, Ok n).
Definition reset_attempt : M () := λ w,
  ({| sw_authority := sw_authority w; sw_attempt := 0; sw_outside := sw_outside w |}, Ok ()).

(** The arguments the bridge binds. *)
Record assignment_unit := {
  un_workpackage : WorkPackage;
  un_intent : AssignmentIntent;
  un_grant : DelegationGrant;
  un_authority : AuthorityEngine;
  un_repositories : RepositoryRegistry;
  un_admission_id : string;
  un_lease : LeaseBinding;
  un_budget_key : string;
  un_expected_usage : Z;
  un_priority : AdmissionPriority;
  un_capability : string;
  un_ttl : Z;
}.

Definition plan_factory (plan : QueenAssignmentPlan) (u : assignment_unit) (clock : M datetime)
  : M AdmissionRecord :=
  n ← next_attempt;
  now ← clock;
  create_assignment_admission plan (un_workpackage u) (un_intent u) (un_grant u) (un_authority u)
    (un_repositories u) (attempt_admission_id (un_admission_id u) n) (un_lease u) (un_budget_key u)
    (un_expected_usage u) (un_priority u) now (un_capability u) (un_ttl u).

Definition execute_server_hive_assignment (capacity : capacity_env (sworld X))
  (plan : QueenAssignmentPlan) (u : assignment_unit) (operations : list (string * Operation))
  (reader : M UsageEvidenceV2) (operation : string) (journal : option (CompletionJournal (sworld X)))
  (clock : M datetime) (sleeper : Z → M ()) : ST (AdmissionStore * sworld X) pyval := λ s,
  let setup :=
    _ ← require (bool_decide (is_Some (qa_pool plan))) (AgentError "dynamic_pool_binding_missing");
    _ ← require (negb (bool_decide (un_admission_id u = ""))) (AgentError "invalid_admission_id");
    executor ← build_server_lease_executor capacity operations;
    build_server_selection_service no_gates (Some (un_authority u)) (Some (un_repositories u))
      (un_capability u) (Some executor) None journal reader clock sleeper in
  match setup with
  | Err e => (s, Err e)
  | Ok (svc, rs) =>
      let '(w, _) := reset_attempt s.2 in
      let '(store, (w, _), r) :=
        execute_with_retry svc (AdmissionRuntime.env (plan_factory plan u clock)) operation
          (s.1, (w, rs)) in
      ((store, w), r)
  end.

(** [_build_server_hive_assignment_execution_bridge]: the checks of the values
    the types leave open. *)
Definition _build_server_hive_assignment_execution_bridge (u : assignment_unit)
  : result assignment_unit :=
  _ ← require (negb (bool_decide (un_admission_id u = ""))) (AgentError "invalid_admission_id");
  _ ← require (negb (bool_decide (un_budget_key u = ""))) (AgentError "invalid_budget_key");
  _ ← require (0 <=? un_expected_usage u) (AgentError "invalid_expected_usage_micro");
  _ ← require (negb (bool_decide (un_capability u = ""))) (AgentError "invalid_authority_capability");
  _ ← require (0 <? un_ttl u) (AgentError "invalid_admission_ttl");
  Ok u.

(** The bridge's [execute]: one operation, the Hive callback. *)
Definition bridge_execute (capacity : capacity_env (sworld X)) (u : assignment_unit)
  (plan : QueenAssignmentPlan) (reader : M UsageEvidenceV2) (callback : Operation)
  (journal : option (CompletionJournal (sworld X))) (clock : M datetime) (sleeper : Z → M ())
  : ST (AdmissionStore * sworld X) pyval :=
  execute_server_hive_assignment capacity plan u [("hive_assignment_callback", callback)] reader
    "hive_assignment_callback" journal clock sleeper.
End assignment.

(** ** What a successful revalidation has seen *)

(** Conditions that hold one after the other between consecutive worlds. *)
Fixpoint in_sequence {W} (ps : list (W → W → Prop)) (w w' : W) : Prop :=
  match ps with
  | [] => w' = w
  | p :: ps => ∃ w1, p w w1 ∧ in_sequence ps w1 w'
  end.

Lemma run_gates_sequence {E} (rt : ServerAdmissionRuntime E) adm (ps : list (E → E → Prop)) names s s' :
  run_gates rt names adm s = (s', Ok None) →
  Forall2 (λ name p, ∀ gate e e' d, dict_get name (_gates rt) = Some gate →
    gate adm e = (e', Ok (Some d)) → AdmissionRuntime.allowed d = true → p e e') names ps →
  in_sequence ps s.1 s'.1.
Proof.
  intros Hrun Hps. revert s Hrun. induction Hps as [|name p names ps Hp _ IH]; intros s Hrun.
  { by injection Hrun as <-. }
  cbn [run_gates] in Hrun. destruct (dict_get name (_gates rt)) as [gate|] eqn:Hg; [|done].
  rewrite st_bind_eq in Hrun. unfold st_catch in Hrun. rewrite st_bind_eq in Hrun.
  unfold AdmissionRuntime.env in Hrun. destruct (gate adm s.1) as [e [[d|]|x]] eqn:Hgate; [|done..].
  unfold mret, st_ret in Hrun. destruct (AdmissionRuntime.allowed d) eqn:Hd; [|done].
  exists e. split; [by eapply Hp|]. by apply IH in Hrun.
Qed.

Lemma deny_not_true {E} why (s s' : E * RuntimeState) : _deny why s = (s', Ok true) → False.
Proof. destruct (deny_eq why s) as (d & -> & _). done. Qed.

Lemma revalidate_true {E} (rt : ServerAdmissionRuntime E) adm s s' :
  revalidate rt adm s = (s', Ok true) →
  state adm = REVALIDATING
  ∧ ∃ e now s2, _now rt s.1 = (e, Ok now) ∧ dt_aware now = true ∧ is_expired adm now = Ok false
      ∧ run_gates rt ADMISSION_RUNTIME_GATES adm (e, s.2) = (s2, Ok None) ∧ s'.1 = s2.1.
Proof.
  unfold revalidate. case_bool_decide as Hst; cbn [negb]; [|by intros ?%deny_not_true].
  intros (s1 & o & Hc & H)%st_bind_Ok. split; [done|].
  destruct o as [why|]; [by apply deny_not_true in H|].
  apply st_bind_Ok in H as (s2 & o & Hg & H).
  destruct o as [why|]; [by apply deny_not_true in H|].
  unfold clock_check, st_catch, AdmissionRuntime.env in Hc. rewrite st_bind_eq in Hc.
  destruct (_now rt s.1) as [e [now|x]]; [|by destruct (clock_handled x)].
  destruct (dt_aware now) eqn:Haw; cbn [negb] in Hc; [|done].
  rewrite st_bind_eq in Hc. unfold st_lift in Hc.
  destruct (is_expired adm now) as [[]|x] eqn:Hx; [done| |by destruct (clock_handled x)].
  injection Hc as <-. exists e, now, s2. split_and!; [done..|]. by injection H as <-.
Qed.

Section sound.
Context {X : Type} (env : server_env X).

(** What the ten gates establish, in their order. *)
Definition verifications authority repositories capability adm
  : list (sworld X → sworld X → Prop) :=
  [ authority_verified env authority capability adm; repository_verified env repositories adm;
    scope_verified env repositories adm; account_verified env adm; model_verified env adm;
    usage_verified env adm; lease_verified env adm; process_verified env adm;
    auth_verified env adm; config_verified env adm ].

Ltac gate_case lemma :=
  constructor; [intros gate e e' d [= <-] Hgate Hd; apply lemma; by exists d|].

Lemma server_gates_sequence rt authority repositories capability adm s s' :
  _gates rt = gate_dict env (bound_gates env no_gates (Some authority) (Some repositories) capability) →
  run_gates rt ADMISSION_RUNTIME_GATES adm s = (s', Ok None) →
  in_sequence (verifications authority repositories capability adm) s.1 s'.1.
Proof.
  intros Hgates Hrun. eapply run_gates_sequence; [exact Hrun|]. rewrite Hgates.
  unfold ADMISSION_RUNTIME_GATES, verifications.
  gate_case @authority_gate_allows. gate_case @repository_gate_allows. gate_case @scope_gate_allows.
  gate_case @account_gate_allows. gate_case @model_gate_allows. gate_case @usage_gate_allows.
  gate_case @lease_gate_allows. gate_case @process_gate_allows. gate_case @auth_gate_allows.
  gate_case @config_gate_allows. constructor.
Qed.

Lemma missing_engine_denies rt authority repositories capability adm s s' :
  _gates rt = gate_dict env (bound_gates env no_gates authority repositories capability) →
  run_gates rt ADMISSION_RUNTIME_GATES adm s = (s', Ok None) →
  ∃ a r, authority = Some a ∧ repositories = Some r.
Proof.
  intros Hgates Hrun. destruct (run_gates_total rt ADMISSION_RUNTIME_GATES adm s) as (s2 & o & H & _ & Hall).
  rewrite Hrun in H. injection H as <- <-. specialize (Hall eq_refl).
  assert (∀ name, name ∈ ADMISSION_RUNTIME_GATES → is_Some (dict_get name (_gates rt))) as Hsome.
  { intros name Hin. rewrite Forall_forall in Hall. destruct (Hall name Hin) as (g & _ & _ & _ & -> & _).
    done. }
  rewrite Hgates in Hsome.
  destruct authority as [a|]; [destruct repositories as [r|]; [by exists a, r|]|].
  - destruct (Hsome "repository") as [? H]; [by apply (bool_decide_unpack _); vm_compute|done].
  - destruct (Hsome "authority") as [? H]; [by apply (bool_decide_unpack _); vm_compute|].
    by destruct repositories.
Qed.

(** C4: The server's admission runtime, bound to an authority engine and a
    repository registry or to none, answers a revalidation with [True] only when
    both are bound, the admission is being revalidated, a clock reading shows it
    unexpired, and then, one after the other in the worlds the run goes through:
    the stored grant that is read has the digest of the admission, and the one
    that the validation, beginning in the world this read left, loads under the
    same identifier is active, unexpired and issued to the admission's live
    principal for its repository, dispatch, capability and every path of its
    scope; the checkout is valid; the paths resolve to the digest the admission was planned with; the agent's
    account, model, usage, lease, process, authentication and configuration are
    the bound and healthy ones. *)
Theorem server_revalidation_sound given_execute completed journal reader clock authority repositories
    capability rt rs0 adm w rs w' rs' :
  build_server_admission_runtime env no_gates authority repositories capability given_execute completed
    journal reader clock = Ok (rt, rs0) →
  revalidate rt adm (w, rs) = ((w', rs'), Ok true) →
  state adm = REVALIDATING
  ∧ ∃ a r, authority = Some a ∧ repositories = Some r
  ∧ ∃ w0 now, clock w = (w0, Ok now) ∧ is_expired adm now = Ok false
  ∧ in_sequence (verifications a r capability adm) w0 w'.
Proof.
  intros Hbuild (Hst & e & now & s2 & Hnow & _ & Hexp & Hrun & Hw)%revalidate_true.
  unfold build_server_admission_runtime, ServerAdmissionRuntime_new in Hbuild.
  apply bind_Ok in Hbuild as ([] & _ & ([] & _ & [= <- _])%bind_Ok).
  cbn [_now fst snd] in *. split; [done|].
  match type of Hrun with run_gates ?rt _ _ _ = _ => set (bound := rt) in Hrun end.
  destruct (missing_engine_denies bound authority repositories capability adm _ _ eq_refl Hrun)
    as (a & r & -> & ->).
  exists a, r. split_and!; [done..|]. exists e, now. split_and!; [done..|]. rewrite Hw.
  exact (server_gates_sequence bound a r capability adm (e, rs) s2 eq_refl Hrun).
Qed.
End sound.

(** ** The operation of a lease-bound execution *)

Section gated.
Context {X : Type} (env : server_env X) (capacity : capacity_env (sworld X)).

(** The guard either refuses whatever its body is, or runs the body in the world
    in which it read a green gate. *)
Lemma probe_guard_cases operation w :
  (∃ w' e, ∀ A (body : ServerM X A),
     hive_capacity_probe_guard capacity operation body w = (w', Err e))
  ∨ (∃ w1 w2 gate, probe_capacity_lock capacity w = (w1, Ok ())
     ∧ read_probe_gate capacity w1 = (w2, Ok gate) ∧ gate_is_green gate = true
     ∧ ∀ A (body : ServerM X A), hive_capacity_probe_guard capacity operation body w = body w2).
Proof.
  unfold hive_capacity_probe_guard.
  destruct (probe_capacity_lock capacity w) as [w1 [[]|e]] eqn:Hl.
  - set (o := match read_probe_gate capacity w1 with (w2, Ok g) => (w2, g) | (w2, Err _) => (w2, VNone) end).
    assert (st_catch (read_probe_gate capacity) (λ _, mret VNone) w1 = (o.1, Ok o.2)) as Hr
      by by (unfold st_catch, o; destruct (read_probe_gate capacity w1) as [? []]).
    destruct (_require_hive_probe_result operation o.2) as [[]|e] eqn:Hreq.
    + right. unfold o in Hr, Hreq.
      destruct (read_probe_gate capacity w1) as [w2 [g|e]] eqn:Hg; cbn [fst snd] in *.
      2:{ by apply bind_Ok in Hreq as ([] & _ & [=]). }
      apply bind_Ok in Hreq as ([] & Ht & Hgreen). exists w1, w2, g.
      split_and!; [done..|by apply require_Ok in Hgreen|]. intros A body.
      rewrite st_bind_eq. unfold st_catch at 1. rewrite Hl, st_bind_eq, Hr.
      unfold _require_hive_probe_result. by rewrite Ht, bind_ret, Hgreen.
    + left. exists o.1, e. intros A body.
      rewrite st_bind_eq. unfold st_catch at 1. by rewrite Hl, st_bind_eq, Hr, Hreq.
  - left. destruct (is_os_error e || is_value_error e) eqn:He.
    + destruct (_require_hive_probe_result operation VNone) as [[]|e'] eqn:Hreq;
        [by apply bind_Ok in Hreq as ([] & _ & [=])|].
      exists w1, e'. intros A body. rewrite st_bind_eq. unfold st_catch.
      by rewrite Hl, He.
    + exists w1, e. intros A body. rewrite st_bind_eq. unfold st_catch. by rewrite Hl, He.
Qed.

Lemma matching_lease_cases adm w :
  (∃ w' e, matching_lease env adm w = (w', Err e))
  ∨ (∃ w' lease, agent_lease_status env (agent_id (resource adm)) w = (w', Ok lease)
     ∧ _server_lease_binding_matches adm lease = Ok true
     ∧ matching_lease env adm w = (w', Ok lease)).
Proof.
  unfold matching_lease. rewrite st_bind_eq. unfold st_catch.
  destruct (agent_lease_status env _ w) as [w1 [lease|e]]; [|left; by do 2 eexists].
  rewrite st_bind_eq. unfold st_lift at 1.
  destruct (_server_lease_binding_matches adm lease) as [[]|e] eqn:Hm; [|left; by do 2 eexists..].
  right. by exists w1, lease.
Qed.

(** What the callback's answer becomes. *)
Definition operation_result (r : sworld X * result pyval) : sworld X * result pyval :=
  match r with
  | (w, Ok (VDict d)) => (w, Ok (VDict d))
  | (w, Ok _) => (w, Err (AgentError "lease_operation_result_invalid"))
  | (w, Err e) => (w, Err e)
  end.

(** C5: An execution through the lease-bound executor either refuses, in a way
    that does not depend on the callback of its operation at all, or the
    admission is executing, the operation is one of the capacity sinks, a lease
    snapshot matched the admission's lease binding, the agent's mutation lock was
    taken, a second snapshot taken under it still matched, the shared probe lock
    was taken, the probe record read under it was green, and the callback is
    called exactly in that world, with the admission and the second snapshot; its
    mapping is the result and any other answer is an error. *)
Theorem lease_executor_gated adm operation w :
  (∃ w' e, ∀ operations callback, dict_get operation operations = Some callback →
     lease_execute env capacity operations adm operation w = (w', Err e))
  ∨ (state adm = EXECUTING ∧ operation ∈ HIVE_ASSIGNMENT_CAPACITY_SINKS
     ∧ ∃ w1 w2 w3 w4 w5 lease fresh gate,
         agent_lease_status env (agent_id (resource adm)) w = (w1, Ok lease)
       ∧ _server_lease_binding_matches adm lease = Ok true
       ∧ agent_lifecycle_lock capacity (agent_id (resource adm)) w1 = (w2, Ok ())
       ∧ agent_lease_status env (agent_id (resource adm)) w2 = (w3, Ok fresh)
       ∧ _server_lease_binding_matches adm fresh = Ok true
       ∧ probe_capacity_lock capacity w3 = (w4, Ok ())
       ∧ read_probe_gate capacity w4 = (w5, Ok gate) ∧ gate_is_green gate = true
       ∧ ∀ operations callback, dict_get operation operations = Some callback →
           lease_execute env capacity operations adm operation w
           = operation_result (callback adm fresh w5)).
Proof.
  unfold lease_execute. destruct (decide (state adm = EXECUTING)) as [Hst|Hst].
  2:{ left. eexists w, _. intros ops cb _. rewrite bind_require, (bool_decide_eq_false_2 (state adm = EXECUTING)) by done. done. }
  rewrite (bool_decide_eq_true_2 (state adm = EXECUTING)) by done. case_bool_decide as Hop.
  2:{ left. eexists w, _. intros ops cb _. by rewrite !bind_require. }
  destruct (matching_lease_cases adm w) as [(w1 & e & Hm)|(w1 & lease & Hl & Hb & Hm)].
  { left. exists w1, e. intros ops cb Hcb. rewrite !bind_require, Hcb, st_bind_eq. by rewrite Hm. }
  destruct (agent_lifecycle_lock capacity (agent_id (resource adm)) w1) as [w2 [[]|e]] eqn:Hlock.
  2:{ left. exists w2, e. intros ops cb Hcb. rewrite !bind_require, Hcb, st_bind_eq, Hm.
      rewrite st_bind_eq. by rewrite Hlock. }
  destruct (matching_lease_cases adm w2) as [(w3 & e & Hm2)|(w3 & fresh & Hl2 & Hb2 & Hm2)].
  { left. exists w3, e. intros ops cb Hcb. rewrite !bind_require, Hcb, st_bind_eq, Hm.
    rewrite st_bind_eq, Hlock. rewrite st_bind_eq. by rewrite Hm2. }
  destruct (probe_guard_cases operation w3) as [(w4 & e & Hg)|(w4 & w5 & gate & Hp & Hr & Hgreen & Hg)].
  { left. exists w4, e. intros ops cb Hcb. rewrite !bind_require, Hcb, st_bind_eq, Hm.
    rewrite st_bind_eq, Hlock. rewrite st_bind_eq, Hm2. rewrite st_bind_eq. by rewrite Hg. }
  right. split_and!; [done..|]. exists w1, w2, w3, w4, w5, lease, fresh, gate.
  split_and!; [done..|]. intros ops cb Hcb. rewrite !bind_require, Hcb, st_bind_eq, Hm.
  rewrite st_bind_eq, Hlock. rewrite st_bind_eq, Hm2. rewrite st_bind_eq, Hg.
  unfold operation_result. destruct (cb adm fresh w5) as [w6 [r|e]]; [|done].
  rewrite bind_require. by destruct r.
Qed.
End gated.

(** ** What a planned admission is bound to *)

Lemma create_admission_fields adm req dis wp intent repo princ parent grant digest version sc res lease prio
    now ttl r :
  create_admission (VStr adm) (VStr req) (VStr dis) (VStr wp) (VStr intent) (VStr repo) (VStr princ)
    (VStr parent) (VStr grant) (VStr digest) (VInt version) sc res lease prio now ttl = Ok r →
  admission_id r = adm ∧ request_id r = req ∧ dispatch_id r = dis ∧ workpackage_id r = wp
  ∧ assignment_intent_id r = intent ∧ repo_id r = repo ∧ principal_id r = princ
  ∧ parent_principal_id r = parent ∧ grant_id r = grant ∧ grant_digest r = digest
  ∧ work_item_version r = version ∧ scope r = sc ∧ resource r = res ∧ lease_context r = lease
  ∧ priority r = prio ∧ state r = PLANNED ∧ revision r = 0 ∧ created_at_utc r = now.
Proof.
  intros H. unfold create_admission in H.
  apply bind_Ok in H as (n & Hn & H). apply _aware_Ok in Hn as [-> _].
  apply bind_Ok in H as (s & _ & H).
  apply bind_Ok in H as (ex & _ & H). unfold AdmissionRecord_new in H.
  repeat match type of H with
  | _ ≫= _ = Ok _ =>
      let x := fresh "x" in let Hx := fresh "Hx" in
      apply bind_Ok in H as (x & Hx & H); cbv beta in H;
      try apply _bounded_text_Ok in Hx as [[= <-] _];
      try apply _bounded_int_Ok in Hx as [[= <-] _];
      try apply _aware_Ok in Hx as [-> _]
  end.
  by injection H as <-.
Qed.

Lemma mapM_scope_path ps ss : mapM_result scope_path (VStr <$> ps) = Ok ss → ss = ps.
Proof.
  revert ss. induction ps as [|p ps IH]; intros ss H; [by injection H as <-|].
  cbn [fmap list_fmap mapM_result] in H. apply bind_Ok in H as (q & Hq & H).
  apply bind_Ok in H as (qs & Hqs & [= <-]). rewrite (IH _ Hqs). f_equal.
  unfold scope_path in Hq. by destruct (scope_path_ok p); simplify_eq.
Qed.

Lemma ScopeBinding_new_fields m ps d sc :
  ScopeBinding_new (VStr m) (VStr <$> ps) (VStr d) = Ok sc →
  mode sc = m ∧ paths sc = ps ∧ canonical_digest sc = d.
Proof.
  unfold ScopeBinding_new. intros H. apply bind_Ok in H as (known & _ & H).
  apply bind_Ok in H as (m' & Hm & H). destruct known; [injection Hm as <-|done].
  apply bind_Ok in H as ([] & _ & H). apply bind_Ok in H as (ss & ->%mapM_scope_path & H).
  apply bind_Ok in H as (d' & Hd & [= <-]). by apply _bounded_text_Ok in Hd as [[= <-] _].
Qed.

Lemma ResourceBinding_new_fields ag ac bk mo us pool res :
  ResourceBinding_new (VStr ag) (VStr ac) (VStr bk) (VStr mo) (VInt us) pool = Ok res →
  res = {| agent_id := ag; account_key := ac; budget_key := bk; model_id := mo;
           expected_usage_micro := us; account_pool_binding := pool |}.
Proof.
  unfold ResourceBinding_new. intros H.
  do 4 (apply bind_Ok in H as (? & Hx & H); apply _bounded_text_Ok in Hx as [[= <-] _]).
  apply bind_Ok in H as (? & Hx & H). apply _bounded_int_Ok in Hx as [[= <-] _]. by injection H as <-.
Qed.

(** The four records agree. *)
Record assignment_agrees (plan : QueenAssignmentPlan) (w : WorkPackage) (intent : AssignmentIntent)
  (grant : DelegationGrant) (prio : AdmissionPriority) : Prop := {
  ag_mode : qa_mode plan = "enforced";
  ag_gates : gates_ready plan = true;
  ag_state : wp_state w ∈ ["ready"; "queued"; "admission_planned"];
  ag_package : qa_workpackage_id plan = wp_workpackage_id w ∧ qa_dispatch_id plan = wp_dispatch_id w
    ∧ qa_teamlead plan = wp_owner_teamlead_principal_id w
    ∧ qa_scope plan = wp_scope w ∧ qa_write_paths plan = wp_write_paths w;
  ag_intent : ai_dispatch_id intent = qa_dispatch_id plan ∧ ai_workpackage_id intent = qa_workpackage_id plan
    ∧ ai_repo_id intent = qa_repo_id plan ∧ ai_parent_principal_id intent = qa_teamlead plan
    ∧ ai_grant_id intent = dg_id grant ∧ ai_class_id intent = qa_writer_class plan
    ∧ ai_task_complexity intent = qa_task_complexity plan
    ∧ priority_value (ai_dispatch_priority intent) = dispatch prio;
  ag_grant : dg_issuer grant = qa_teamlead plan ∧ dg_subject grant = qa_specialist plan
    ∧ dg_repo_id grant = qa_repo_id plan ∧ dg_dispatch_id grant = Some (qa_dispatch_id plan);
}.

Lemma binding_checks_Ok plan w intent grant prio u :
  binding_checks plan w intent grant prio = Ok u → assignment_agrees plan w intent grant prio.
Proof.
  unfold binding_checks. intros H. inv_result.
  repeat match goal with
  | H : _ && _ = true |- _ => apply andb_true_iff in H as [? ?]
  | H : bool_decide _ = true |- _ => apply bool_decide_eq_true in H
  end.
  by split.
Qed.

Section bound.
Context {X : Type} (env : server_env X).

(** A planned admission of an assignment is bound to what the authorities
    answered when it was planned: the plan is enforced with every gate ready, it
    agrees with the workpackage, the intent and the grant it was called with; the
    grant that was read equals that grant, its identifier and digest are the
    admission's, and the grant that the validation, beginning in the world this
    read left, loaded under that identifier was active, unexpired, of the
    specialist, and covered the whole scope and the write paths of the
    workpackage; the admission's paths are the write paths in mode [write], or
    the whole scope in mode [read] when there are none, under the digest the
    repository registry computed for them last of all; agent, account, model and
    pool binding are the plan's, and the record is planned at revision 0. *)
Theorem assignment_admission_bound plan w intent grant authority repositories id lease budget usage prio
    now capability ttl s s' r :
  create_assignment_admission env plan w intent grant authority repositories id lease budget usage prio now
    capability ttl s = (s', Ok r) →
  assignment_agrees plan w intent grant prio
  ∧ state r = PLANNED ∧ revision r = 0 ∧ admission_id r = id ∧ lease_context r = lease ∧ priority r = prio
  ∧ dispatch_id r = qa_dispatch_id plan ∧ workpackage_id r = qa_workpackage_id plan
  ∧ repo_id r = qa_repo_id plan ∧ principal_id r = qa_specialist plan
  ∧ parent_principal_id r = qa_teamlead plan ∧ work_item_version r = wp_version w
  ∧ resource r = {| agent_id := qa_agent_id plan; account_key := qa_account_key plan;
                    budget_key := budget; model_id := qa_model_id plan;
                    expected_usage_micro := usage; account_pool_binding := qa_pool plan |}
  ∧ (mode (scope r), paths (scope r)) = match wp_write_paths w with
                                        | [] => ("read", wp_scope w)
                                        | wps => ("write", wps)
                                        end
  ∧ ∃ s1 s2 g d,
      with_engine env (λ o, get_grant authority o (dg_id grant)) s = (s1, Ok g)
      ∧ grant_eq g grant = true ∧ grant_id r = dg_id g ∧ grant_digest r = binding_digest g
      ∧ with_engine env (λ o, validate_grant authority o (dg_id g) (VStr (qa_specialist plan))
          (VStr (qa_repo_id plan)) (Some (qa_dispatch_id plan)) (wp_scope w) (wp_write_paths w)
          (VStr capability)) s1 = (s2, Ok d)
      ∧ Authority.allowed d = true
      ∧ validated env authority s1 (dg_id g) (qa_specialist plan) (qa_repo_id plan)
          (Some (qa_dispatch_id plan)) (wp_scope w) (wp_write_paths w) capability
      ∧ with_host env (λ h, scope_digest h repositories (qa_repo_id plan) (mode (scope r)) (paths (scope r)))
          s2 = (s', Ok (canonical_digest (scope r))).
Proof.
  intros H. unfold create_assignment_admission in H.
  apply st_bind_Ok in H as (? & ? & [-> Hagree%binding_checks_Ok]%st_lift_Ok & H).
  apply st_bind_Ok in H as (s3 & au & Hau & H).
  apply st_bind_Ok in H as (? & ? & [-> Heq%require_Ok]%st_lift_Ok & H).
  apply st_bind_Ok in H as (? & ? & [-> Hall%require_Ok]%st_lift_Ok & H).
  apply st_lift_Ok in H as [-> H].
  apply bind_Ok in H as (sc & Hsc & H). apply bind_Ok in H as (res & ->%ResourceBinding_new_fields & H).
  apply create_admission_fields in H. destruct_and! H.
  apply ScopeBinding_new_fields in Hsc as (Hmode & Hpaths & Hdigest).
  unfold st_catch in Hau.
  destruct (authoritative_reads env plan w grant authority repositories capability s) as [s4 [au'|e]] eqn:Hr;
    [injection Hau as -> ->|done].
  unfold authoritative_reads in Hr.
  apply st_bind_Ok in Hr as (s1 & g & Hg & Hr). apply st_bind_Ok in Hr as (s2 & d & Hv & Hr).
  apply st_bind_Ok in Hr as (s5 & digest & Hd & Hr). injection Hr as -> <-. cbn [au_grant au_decision
    au_mode au_paths au_digest] in *.
  pose proof (validate_validated _ _ _ _ _ _ _ _ _ _ _ _ Hv Hall) as Hcov.
  assert (scope r = sc) as Hscope by done. rewrite Hscope, Hmode, Hpaths, Hdigest.
  split_and!; [done..|by destruct (wp_write_paths w)|].
  exists s1, s2, g, d. by split_and!.
Qed.
End bound.

(** ** Samples *)

Definition sample_descriptor : AgentDescriptor := {|
  ad_agent_id := "agent-1"; ad_series_prefix := "codex"; ad_runner := CODEX_CLI;
  ad_provider := OPENAI_CHATGPT; ad_model := "gpt-6-sol"; ad_account_id := Some "account-1";
  ad_session := "session-1"; ad_enabled := true;
|}.
Definition sample_policy_text : string :=
  json_dumps (VDict [ ("schema_version", VInt 1);
    ("models", VList [VDict [ ("model_id", VStr "gpt-6-sol"); ("role", VStr "primary");
                              ("provider", VStr "openai"); ("budget_key", VStr "standard") ]]) ]).
Definition sample_process_summary : mapping :=
  [ ("process_count", VInt 1); ("external_process_count", VInt 0); ("managed_process_count", VInt 1);
    ("managed_process_ids", VList [VInt 77]) ].
Definition sample_server : server_env () := {|
  current_agent_inventory := mret [("agent-1", sample_descriptor)];
  fleet_account_gate := λ _ _, mret (true, "ready");
  model_policy_file := mret (true, Ok sample_policy_text);
  ensure_agent_not_blocked_by_codex_usage := λ _, mret (VDict [("blocked", VBool false)]);
  agent_lease_status := λ _, mret (VDict [("state", VStr "unclaimed")]);
  headless_job_status := λ _, mret [];
  agent_home_process_summary := λ _, mret sample_process_summary;
  tmux_alive := λ _, mret true;
  pane_pid := λ _, mret (VInt 77);
  agent_auth_status := λ _, mret [("authenticated", VBool true)];
  headless_executable := λ _, mret ();
  agent_runner_usable := λ _, mret true;
  next_surroundings := λ w, (w, sample_surroundings);
  next_host := λ w, (w, sample_host);
|}.
Definition sample_grant_issued : aworld * result DelegationGrant :=
  Authority.issue_grant sample_engine sample_surroundings sample_grant_request (sample_aworld []).
Definition sample_sworld : sworld () :=
  {| sw_authority := sample_grant_issued.1; sw_attempt := 0; sw_outside := () |}.
Definition sample_assignment_plan : QueenAssignmentPlan := {|
  qa_queen := "queen-codex-master"; qa_dispatch_id := "dispatch-1"; qa_workpackage_id := "workpackage-1";
  qa_repo_id := "codex-master"; qa_teamlead := "goddess-main"; qa_specialist := "queen-codex-master";
  qa_writer_class := "specialist"; qa_agent_id := "agent-1"; qa_account_key := "account-1";
  qa_model_id := "gpt-6-sol"; qa_model_role := "primary"; qa_task_complexity := TC_SIMPLE;
  qa_scope := ["src"]; qa_write_paths := ["src/the_hive/hive"]; qa_mode := "enforced";
  qa_pilot_enabled := true; qa_account_confirmed := true; qa_authority_verified := true;
  qa_repository_verified := true; qa_scope_verified := true; qa_lease_available := true;
  qa_selection_band := "none"; qa_pool := None;
|}.
Definition sample_assignment_package : WorkPackage := {|
  wp_workpackage_id := "workpackage-1"; wp_dispatch_id := "dispatch-1";
  wp_owner_teamlead_principal_id := "goddess-main"; wp_objective := "objective";
  wp_scope := ["src"]; wp_write_paths := ["src/the_hive/hive"]; wp_success_criteria := ["done"];
  wp_test_requirements := ["tests"]; wp_release_policy := "none";
  wp_depends_on_workpackage_ids := []; wp_resource_profile := []; wp_state := "ready";
  wp_ready_since_utc := None; wp_version := 1;
|}.
Definition sample_assignment_intent : AssignmentIntent := {|
  ai_assignment_intent_id := "intent-1"; ai_request_id := "request-1"; ai_dispatch_id := "dispatch-1";
  ai_workpackage_id := "workpackage-1"; ai_repo_id := "codex-master";
  ai_parent_principal_id := "goddess-main"; ai_grant_id := "grant-1"; ai_class_id := "specialist";
  ai_dispatch_priority := DP1; ai_task_complexity := TC_SIMPLE; ai_model_policy_constraints := [];
  ai_scope_reservation_request := []; ai_expected_usage_bucket := "small"; ai_decision_refs := [];
  ai_context_digest := "digest";
|}.
Definition sample_planned_admission (g : DelegationGrant) : ServerM () AdmissionRecord :=
  create_assignment_admission sample_server sample_assignment_plan sample_assignment_package
    sample_assignment_intent g sample_engine Repositories.sample_registry "admission-1"
    {| expected_state := "available"; lease_id := None |} "standard" 1000
    {| dispatch := "DP1"; selection_reason := "queue" |} (sample_day 0) "hive.specialist.assign" 30.

Lemma assignment_admission_bound_witness :
  ∃ g w r, sample_grant_issued.2 = Ok g ∧ sample_planned_admission g sample_sworld = (w, Ok r)
    ∧ state r = PLANNED
    ∧ assignment_agrees sample_assignment_plan sample_assignment_package sample_assignment_intent g
        (priority r).
Proof.
  destruct sample_grant_issued.2 as [g|e] eqn:Hg; [|by vm_compute in Hg].
  exists g. destruct (sample_planned_admission g sample_sworld) as [w [r|e]] eqn:Hr.
  2:{ exfalso. vm_compute in Hg. injection Hg as <-. by vm_compute in Hr. }
  exists w, r.
  destruct (assignment_admission_bound sample_server _ _ _ _ _ _ _ _ _ _ _ _ _ _ _ _ _ Hr)
    as (H & Hst & _ & _ & _ & Hprio & _).
  split; [reflexivity|]. split; [reflexivity|]. split; [exact Hst|]. rewrite Hprio. exact H.
Defined.

Definition sample_revalidating : option AdmissionRecord :=
  match sample_grant_issued.2 with
  | Ok g => match sample_planned_admission g sample_sworld with
            | (_, Ok r) => Some (with_state r REVALIDATING 2)
            | _ => None
            end
  | Err _ => None
  end.
Definition sample_server_runtime
  : result (ServerAdmissionRuntime (sworld ()) * RuntimeState) :=
  build_server_admission_runtime sample_server no_gates (Some sample_engine)
    (Some Repositories.sample_registry) "hive.specialist.assign" None None None
    (mret sample_evidence) (mret (sample_day 0)).

Definition sample_revalidation : bool :=
  match sample_server_runtime, sample_revalidating with
  | Ok (rt, rs), Some adm => bool_decide ((revalidate rt adm (sample_sworld, rs)).2 = Ok true)
  | _, _ => false
  end.

Lemma server_revalidation_sound_witness :
  ∃ rt rs adm w, sample_server_runtime = Ok (rt, rs) ∧ sample_revalidating = Some adm
    ∧ revalidate rt adm (sample_sworld, rs) = (w, Ok true) ∧ state adm = REVALIDATING.
Proof.
  assert (sample_revalidation = true) as H by (vm_compute; reflexivity).
  unfold sample_revalidation in H. destruct sample_server_runtime as [[rt rs]|e] eqn:Hrt; [|done].
  destruct sample_revalidating as [adm|] eqn:Hadm; [|done].
  destruct (revalidate rt adm (sample_sworld, rs)) as [[w rs'] r] eqn:Hr.
  apply bool_decide_eq_true in H. cbn [snd] in H. subst r.
  exists rt, rs, adm, (w, rs'). do 3 (split; [reflexivity || exact Hr|]).
  exact (proj1 (server_revalidation_sound sample_server _ _ _ _ _ _ _ _ _ _ _ _ _ _ _ Hrt Hr)).
Defined.
