(* ===== verification/WorkQueue.v ===== *)
(** * The work queue

    [src/src/the_hive/hive/queue.py]: the order in which workpackages run and
    the cost ledger of the queue.  The two callbacks of the constructor are
    functions of the queue record; they may raise. *)

From S2P Require Import Prelude PyTime Order Json HiveTypes HiveMessages HiveWork.
#[local] Open Scope Z_scope.

Definition _PRIORITY_RANK (p : DispatchPriority) : Z :=
  match p with DP0 => 0 | DP1 => 1 | DP2 => 2 | DP3 => 3 end.
Definition _RUNNABLE : list string := ["ready"; "queued"].
Definition MAX_QUEUE_ITEMS : Z := 4096.
Definition MAX_COST_MICRO : Z := 10 ^ 18.

Record WorkPriorityKey := {
  effective_dispatch_priority : Z;
  explicit_deadline_epoch_ms : Z;
  queen_deficit_micro : Z;
  ready_since_epoch_ms : Z;
  dependency_unblocked_epoch_ms : Z;
  key_repo_id : string;
  key_workpackage_id : string;
}.

(** [order=True]: keys compare as the tuples of their fields. *)
Definition key_tuple (k : WorkPriorityKey) : list Z * (string * string) :=
  ([ effective_dispatch_priority k; explicit_deadline_epoch_ms k; queen_deficit_micro k;
     ready_since_epoch_ms k; dependency_unblocked_epoch_ms k ],
   (key_repo_id k, key_workpackage_id k)).

Definition tuple_cmp : list Z * (string * string) → list Z * (string * string) → comparison :=
  pair_cmp lex_cmp (pair_cmp str_cmp str_cmp).

#[export] Instance tuple_cmp_total : TotalCmp tuple_cmp.
Proof. apply _. Qed.

Record QueueDecision := {
  qd_workpackage : WorkPackage;
  qd_priority_key : WorkPriorityKey;
  qd_reason_codes : list string;
}.

Definition _repo_id (d : QueueDecision) : string :=
  match dict_get "repo_id" (wp_resource_profile (qd_workpackage d)) with
  | Some (VStr value) => value
  | _ => "not_returned"
  end.

Definition decision_public (d : QueueDecision) : mapping :=
  [ ("workpackage_id", VStr (wp_workpackage_id (qd_workpackage d)));
    ("repo_id", VStr (_repo_id d));
    ("priority", default (VStr "not_returned")
       (dict_get "dispatch_priority" (wp_resource_profile (qd_workpackage d))));
    ("reason_codes", VList (VStr <$> qd_reason_codes d)) ].

Record WorkQueue := {
  wq_items : list WorkPackage;
  wq_dependency_done : string → result bool;
  wq_queen_deficit : WorkPackage → result Z;
  wq_reserved : list (string * Z);
  wq_finalized : list (string * option Z);
}.

Definition WorkQueue_new (items : list WorkPackage) (dependency_done : option (string → result bool))
    (queen_deficit : option (WorkPackage → result Z)) : result WorkQueue :=
  _ ← require (Z.of_nat (length items) <=? MAX_QUEUE_ITEMS) (QueueError "invalid_queue_items");
  _ ← require (bool_decide (NoDup (wp_workpackage_id <$> items)))
        (QueueError "duplicate_workpackage");
  Ok {| wq_items := items;
        wq_dependency_done := default (λ _, Ok false) dependency_done;
        wq_queen_deficit := default (λ _, Ok 0) queen_deficit;
        wq_reserved := []; wq_finalized := [] |}.

Definition _now (value : datetime) : result datetime :=
  reraise is_value_error (λ e, QueueError (exn_str e)) (validate_utc_datetime value "queue_time").

(** ** Keys *)

Definition deficit_handled (e : exn) : bool :=
  match e with OverflowError _ => true | _ => is_type_error e || is_value_error e end.

Definition NEVER_MS : Z := 2 ^ 63 - 1.

Definition deadline_value (v : pyval) : Z :=
  match v with
  | VInt z => if 0 <=? z then z else NEVER_MS
  | VBool b => if b then 1 else 0
  | _ => NEVER_MS
  end.

Definition item_priority (item : WorkPackage) : DispatchPriority :=
  let raw := default (VStr "DP3") (dict_get "dispatch_priority" (wp_resource_profile item)) in
  match DispatchPriority_of raw with Ok p => p | Err _ => DP3 end.

(** The deadline and the time since which the item is ready. *)
Definition item_times (item : WorkPackage) (now : datetime) : Z * Z :=
  let deadline := default (VInt NEVER_MS) (dict_get "deadline_epoch_ms" (wp_resource_profile item)) in
  match validate_utc_datetime (default now (wp_ready_since_utc item)) "timestamp" with
  | Ok ready => (deadline_value deadline, dt_timestamp_ms ready)
  | Err _ => (NEVER_MS, NEVER_MS)
  end.

Definition clamp (z : Z) : Z := Z.max (- MAX_COST_MICRO) (Z.min MAX_COST_MICRO z).

Definition _key (q : WorkQueue) (item : WorkPackage) (now : datetime) : result WorkPriorityKey :=
  let '(deadline_ms, ready_ms) := item_times item now in
  deficit ← match wq_queen_deficit q item with
            | Ok d => Ok d
            | Err e => if deficit_handled e then Ok 0 else Err e
            end;
  Ok {| effective_dispatch_priority := _PRIORITY_RANK (item_priority item);
        explicit_deadline_epoch_ms := deadline_ms;
        queen_deficit_micro := - clamp deficit;
        ready_since_epoch_ms := ready_ms;
        dependency_unblocked_epoch_ms := ready_ms;
        key_repo_id := py_str (default (VStr "") (dict_get "repo_id" (wp_resource_profile item)));
        key_workpackage_id := wp_workpackage_id item |}.

(** ** Selection *)

Fixpoint all_done (done : string → result bool) (deps : list string) : result bool :=
  match deps with
  | [] => Ok true
  | d :: deps => b ← done d; match b with true => all_done done deps | false => Ok false end
  end.

(** A failing dependency check counts as not ready. *)
Definition dependencies_ready (q : WorkQueue) (item : WorkPackage) : bool :=
  match all_done (wq_dependency_done q) (wp_depends_on_workpackage_ids item) with
  | Ok b => b
  | Err _ => false
  end.

Definition runnable (q : WorkQueue) (item : WorkPackage) : bool :=
  bool_decide (wp_state item ∈ _RUNNABLE) && dependencies_ready q item.

Definition keyed (q : WorkQueue) (now : datetime) (item : WorkPackage)
  : result (WorkPriorityKey * WorkPackage) :=
  k ← _key q item now; Ok (k, item).

Definition pair_key (p : WorkPriorityKey * WorkPackage) : list Z * (string * string) :=
  key_tuple p.1.

Definition runnable_items (q : WorkQueue) (now : datetime) : result (list WorkPackage) :=
  _ ← _now now;
  pairs ← mapM_result (keyed q now) (List.filter (runnable q) (wq_items q));
  Ok (snd <$> sort_by tuple_cmp pair_key pairs).

Definition preview (q : WorkQueue) (now : datetime) (limit : Z) : result (list QueueDecision) :=
  _ ← require ((1 <=? limit) && (limit <=? MAX_QUEUE_ITEMS)) (QueueError "invalid_queue_limit");
  items ← runnable_items q now;
  mapM_result (λ item,
    k ← _key q item now;
    Ok {| qd_workpackage := item; qd_priority_key := k;
          qd_reason_codes := ["dispatch_priority"; "deadline"; "queen_fairness"; "age"] |})
    (take (Z.to_nat limit) items).

Definition select_next (q : WorkQueue) (now : datetime) : result QueueDecision :=
  decisions ← preview q now 1;
  match decisions with
  | [] => Err (QueueError "no_runnable_workpackage")
  | d :: _ => Ok d
  end.

(** ** Costs *)

Definition cost_in_range (v : pyval) : option Z :=
  match v with
  | VInt z => if (0 <=? z) && (z <=? MAX_COST_MICRO) then Some z else None
  | _ => None
  end.

Definition with_costs (q : WorkQueue) (reserved : list (string * Z))
    (finalized : list (string * option Z)) : WorkQueue :=
  {| wq_items := wq_items q; wq_dependency_done := wq_dependency_done q;
     wq_queen_deficit := wq_queen_deficit q; wq_reserved := reserved;
     wq_finalized := finalized |}.

Definition reserve_cost (q : WorkQueue) (workpackage_id : string) (cost_micro : pyval)
  : WorkQueue * result () :=
  if negb (bool_decide (workpackage_id ∈ (wp_workpackage_id <$> wq_items q)))
  then (q, Err (QueueError "unknown_workpackage"))
  else match cost_in_range cost_micro with
  | None => (q, Err (QueueError "invalid_queue_cost"))
  | Some cost =>
      if dict_mem workpackage_id (wq_reserved q) || dict_mem workpackage_id (wq_finalized q)
      then (q, Err (QueueError "queue_cost_already_recorded"))
      else (with_costs q (dict_set workpackage_id cost (wq_reserved q)) (wq_finalized q), Ok ())
  end.

(** [None] records an unknown cost. *)
Definition actual_cost (v : pyval) : option (option Z) :=
  match v with VNone => Some None | v => Some <$> cost_in_range v end.

Definition finalize_cost (q : WorkQueue) (workpackage_id : string) (actual_cost_micro : pyval)
  : WorkQueue * result () :=
  if negb (dict_mem workpackage_id (wq_reserved q))
  then (q, Err (QueueError "queue_cost_not_reserved"))
  else match actual_cost actual_cost_micro with
  | None => (q, Err (QueueError "invalid_queue_cost"))
  | Some cost =>
      (with_costs q (dict_del workpackage_id (wq_reserved q))
         (dict_set workpackage_id cost (wq_finalized q)), Ok ())
  end.

Definition rollback_cost (q : WorkQueue) (workpackage_id : string) : WorkQueue * result () :=
  if negb (dict_mem workpackage_id (wq_reserved q))
  then (q, Err (QueueError "queue_cost_not_reserved"))
  else (with_costs q (dict_del workpackage_id (wq_reserved q)) (wq_finalized q), Ok ()).

(** ** The order *)

Definition with_items (q : WorkQueue) (items : list WorkPackage) : WorkQueue :=
  {| wq_items := items; wq_dependency_done := wq_dependency_done q;
     wq_queen_deficit := wq_queen_deficit q; wq_reserved := wq_reserved q;
     wq_finalized := wq_finalized q |}.

(** [a] runs before [b]. *)
Definition before (q : WorkQueue) (now : datetime) (a b : WorkPackage) : Prop :=
  ∃ ka kb, _key q a now = Ok ka ∧ _key q b now = Ok kb ∧
    tuple_cmp (key_tuple ka) (key_tuple kb) = Lt.

Lemma key_names_item q item now k :
  _key q item now = Ok k → key_workpackage_id k = wp_workpackage_id item.
Proof.
  unfold _key. destruct (item_times item now). by intros (deficit & _ & [= <-])%bind_Ok.
Qed.

Lemma keyed_Ok q now item p :
  keyed q now item = Ok p ↔ p.2 = item ∧ _key q item now = Ok p.1.
Proof.
  unfold keyed. rewrite bind_Ok. destruct p as [k i]. split.
  - by intros (k' & Hk & [= -> ->]).
  - intros [<- Hk]. by exists k.
Qed.

Lemma keyed_pairs q now l ps :
  mapM_result (keyed q now) l = Ok ps →
  ps.*2 = l ∧ Forall (λ p, _key q p.2 now = Ok p.1) ps.
Proof.
  rewrite mapM_result_Ok_Forall2. induction 1 as [|x p l ps Hxp _ [IH1 IH2]]; [done|].
  apply keyed_Ok in Hxp as [<- Hk]. cbn. rewrite IH1. split; [done|by constructor].
Qed.

Lemma pair_key_inj q now ps a b :
  NoDup (wp_workpackage_id <$> ps.*2) → Forall (λ p, _key q p.2 now = Ok p.1) ps →
  a ∈ ps → b ∈ ps → pair_key a = pair_key b → a = b.
Proof.
  intros Hnd Hall Ha Hb Hkey. rewrite Forall_forall in Hall.
  pose proof (key_names_item _ _ _ _ (Hall a Ha)) as Hia.
  pose proof (key_names_item _ _ _ _ (Hall b Hb)) as Hib.
  unfold pair_key, key_tuple in Hkey. injection Hkey as _ _ _ _ _ _ Hid.
  rewrite Hia, Hib in Hid. clear -Hnd Ha Hb Hid.
  induction ps as [|p ps IH]; [by apply elem_of_nil in Ha|].
  cbn in Hnd. apply NoDup_cons in Hnd as [Hni Hnd].
  assert (∀ x, x ∈ ps → wp_workpackage_id x.2 ∈ wp_workpackage_id <$> ps.*2) as Hmem.
  { intros x Hx. by apply list_elem_of_fmap_2, list_elem_of_fmap_2. }
  apply elem_of_cons in Ha as [->|Ha], Hb as [->|Hb]; [done| | |by apply IH].
  - destruct Hni. rewrite Hid. by apply Hmem.
  - destruct Hni. rewrite <- Hid. by apply Hmem.
Qed.

Lemma sorted_pairs_before q now ps :
  NoDup (wp_workpackage_id <$> ps.*2) → Forall (λ p, _key q p.2 now = Ok p.1) ps →
  StronglySorted (key_le tuple_cmp pair_key) ps → StronglySorted (before q now) ps.*2.
Proof.
  intros Hnd Hall Hs. induction Hs as [|p ps Hs IH Hp]; [constructor|].
  pose proof (λ r, pair_key_inj q now (p :: ps) p r Hnd Hall (list_elem_of_here _ _)) as Hinj.
  cbn in Hnd. apply NoDup_cons in Hnd as [Hni Hnd].
  apply Forall_cons in Hall as [Hkp Hall]. cbn. constructor; [by apply IH|].
  rewrite Forall_forall in Hall, Hp. apply Forall_forall.
  intros i (r & -> & Hr)%list_elem_of_fmap.
  exists p.1, r.1. split_and!; [done|by apply Hall|].
  specialize (Hp r Hr). unfold key_le, cmp_le, cmp_ltb, pair_key in Hp.
  rewrite (cmp_antisym (cmp:=tuple_cmp) (key_tuple p.1) (key_tuple r.1)) in Hp.
  destruct (tuple_cmp (key_tuple p.1) (key_tuple r.1)) eqn:Hc; [|done|done].
  apply (cmp_eq (cmp:=tuple_cmp)) in Hc. destruct Hni.
  rewrite (Hinj r (list_elem_of_further _ _ _ Hr) Hc).
  by apply list_elem_of_fmap_2, list_elem_of_fmap_2.
Qed.

Lemma filter_NoDup_ids (f : WorkPackage → bool) l :
  NoDup (wp_workpackage_id <$> l) → NoDup (wp_workpackage_id <$> List.filter f l).
Proof.
  induction l as [|x l IH]; cbn; [done|]. intros [Hni Hnd]%NoDup_cons.
  destruct (f x); cbn; [|by apply IH]. apply NoDup_cons. split; [|by apply IH].
  contradict Hni. apply list_elem_of_fmap in Hni as (y & -> & Hy).
  apply list_elem_of_fmap_2. apply list_elem_of_In, filter_In in Hy as [Hy _].
  by apply list_elem_of_In.
Qed.

Lemma filter_perm (f : WorkPackage → bool) l k : l ≡ₚ k → List.filter f l ≡ₚ List.filter f k.
Proof.
  induction 1 as [|x l k _ IH|x y l|]; cbn; [done| | |by etrans].
  - destruct (f x); [by constructor|done].
  - destruct (f x), (f y); try done. constructor.
Qed.

Lemma keyed_total q now :
  (∀ item, item ∈ wq_items q → ∃ k, _key q item now = Ok k) →
  ∃ ps, mapM_result (keyed q now) (List.filter (runnable q) (wq_items q)) = Ok ps.
Proof.
  intros Hkeys.
  assert (∀ item, item ∈ List.filter (runnable q) (wq_items q) → ∃ k, _key q item now = Ok k) as H.
  { intros item Hi%list_elem_of_In. apply filter_In in Hi as [Hi _].
    by apply Hkeys, list_elem_of_In. }
  induction (List.filter (runnable q) (wq_items q)) as [|x l IH]; [by exists []|].
  destruct (H x (list_elem_of_here _ _)) as [k Hk].
  destruct IH as [ps Hps]; [intros item Hi; apply H; by right|].
  exists ((k, x) :: ps). cbn [mapM_result].
  assert (keyed q now x = Ok (k, x)) as -> by by apply keyed_Ok. by rewrite bind_ret, Hps.
Qed.

(** The runnable items are the ready ones, in strict key order, and do not
    depend on the order the queue was built in. *)
Lemma runnable_items_order q now l :
  NoDup (wp_workpackage_id <$> wq_items q) → runnable_items q now = Ok l →
  l ≡ₚ List.filter (runnable q) (wq_items q) ∧ StronglySorted (before q now) l ∧
  ∀ items, items ≡ₚ wq_items q → runnable_items (with_items q items) now = Ok l.
Proof.
  intros Hnd (t & Ht & (ps & Hps & [= <-])%bind_Ok)%bind_Ok.
  destruct (keyed_pairs _ _ _ _ Hps) as [Hsnd Hall].
  assert (NoDup (wp_workpackage_id <$> ps.*2)) as Hids
    by (rewrite Hsnd; by apply filter_NoDup_ids).
  pose proof (sort_by_perm tuple_cmp pair_key ps) as Hperm. split_and!.
  - by rewrite Hperm, Hsnd.
  - apply sorted_pairs_before; [by rewrite Hperm|by rewrite Hperm|apply sort_by_sorted, _].
  - intros items Hitems. unfold runnable_items. rewrite Ht, bind_ret.
    destruct (mapM_perm (keyed q now) _ (List.filter (runnable q) items) ps
                (filter_perm _ _ _ (symmetry Hitems)) Hps) as (qs & Hqs & Hpq).
    change (mapM_result (keyed (with_items q items) now)
              (List.filter (runnable (with_items q items)) (wq_items (with_items q items))))
      with (mapM_result (keyed q now) (List.filter (runnable q) items)).
    rewrite Hqs, bind_ret. f_equal. f_equal. symmetry.
    apply (sorted_unique tuple_cmp pair_key).
    + intros a b. rewrite Hperm. by apply (pair_key_inj q now).
    + by rewrite !(sort_by_perm tuple_cmp pair_key).
    + apply sort_by_sorted, _.
    + apply sort_by_sorted, _.
Qed.

Lemma select_next_eq q now :
  select_next q now =
  items ← runnable_items q now;
  match items with
  | [] => Err (QueueError "no_runnable_workpackage")
  | item :: _ =>
      k ← _key q item now;
      Ok {| qd_workpackage := item; qd_priority_key := k;
            qd_reason_codes := ["dispatch_priority"; "deadline"; "queen_fairness"; "age"] |}
  end.
Proof.
  unfold select_next, preview. change (Z.to_nat 1) with 1%nat.
  destruct (runnable_items q now) as [[|i l]|e]; [done| |done]. cbn.
  by destruct (_key q i now).
Qed.

(** C31: With distinct identifiers, a valid time and callbacks whose errors
    the queue handles, selection always answers.  It returns a workpackage
    that is ready or queued with all its dependencies done, with its key, and
    that comes strictly before every other such workpackage in the order of
    keys; the answer is the same for every order in which the workpackages
    were handed over.  It reports that nothing is runnable exactly when no
    workpackage is. *)
Theorem select_next_least q now t :
  NoDup (wp_workpackage_id <$> wq_items q) → _now now = Ok t →
  (∀ item, item ∈ wq_items q → ∃ k, _key q item now = Ok k) →
  match select_next q now with
  | Ok d =>
      qd_workpackage d ∈ wq_items q ∧ runnable q (qd_workpackage d) = true ∧
      _key q (qd_workpackage d) now = Ok (qd_priority_key d) ∧
      (∀ item, item ∈ wq_items q → runnable q item = true → item ≠ qd_workpackage d →
         before q now (qd_workpackage d) item) ∧
      ∀ items, items ≡ₚ wq_items q → select_next (with_items q items) now = Ok d
  | Err e =>
      e = QueueError "no_runnable_workpackage" ∧
      ∀ item, item ∈ wq_items q → runnable q item = false
  end.
Proof.
  intros Hnd Ht Hkeys.
  assert (∃ ps, mapM_result (keyed q now) (List.filter (runnable q) (wq_items q)) = Ok ps)
    as [ps Hps] by by apply keyed_total.
  assert (∃ l, runnable_items q now = Ok l) as [l Hl].
  { unfold runnable_items. rewrite Ht, bind_ret, Hps. by eexists. }
  destruct (runnable_items_order q now l Hnd Hl) as (Hperm & Hsorted & Hany).
  assert (∀ item, item ∈ l ↔ item ∈ wq_items q ∧ runnable q item = true) as Hin.
  { intros item. rewrite Hperm, list_elem_of_In, filter_In, list_elem_of_In. done. }
  rewrite select_next_eq, Hl, bind_ret. destruct l as [|i l].
  { split; [done|]. intros item Hitem. apply not_true_iff_false. intros Hr.
    by apply (elem_of_nil item), Hin. }
  destruct (proj1 (Hin i) (list_elem_of_here _ _)) as [Hi Hri].
  destruct (Hkeys i Hi) as [k Hk]. rewrite Hk, bind_ret. cbn [qd_workpackage qd_priority_key].
  split_and!; [done..| |].
  - intros item Hitem Hr Hne. apply StronglySorted_inv in Hsorted as [_ Hi'].
    rewrite Forall_forall in Hi'. apply Hi'.
    by destruct (proj1 (elem_of_cons _ _ _) (proj2 (Hin item) (conj Hitem Hr))).
  - intros items Hitems. rewrite select_next_eq, (Hany items Hitems), bind_ret.
    change (_key (with_items q items) i now) with (_key q i now). by rewrite Hk.
Qed.

(** ** The cost ledger *)

Inductive cost_call :=
  | Reserve (workpackage_id : string) (cost_micro : pyval)
  | Finalize (workpackage_id : string) (actual_cost_micro : pyval)
  | Rollback (workpackage_id : string).

Definition cost_run (q : WorkQueue) (c : cost_call) : WorkQueue :=
  match c with
  | Reserve i v => (reserve_cost q i v).1
  | Finalize i v => (finalize_cost q i v).1
  | Rollback i => (rollback_cost q i).1
  end.

Definition cost_runs (q : WorkQueue) (cs : list cost_call) : WorkQueue := foldl cost_run q cs.

Definition in_range_micro (z : Z) : Prop := 0 <= z <= MAX_COST_MICRO.

Record ledger_ok (q : WorkQueue) : Prop := {
  reserved_nodup : NoDup (dict_keys (wq_reserved q));
  finalized_nodup : NoDup (dict_keys (wq_finalized q));
  ledger_disjoint i : i ∈ dict_keys (wq_reserved q) → i ∉ dict_keys (wq_finalized q);
  reserved_known i z :
    dict_get i (wq_reserved q) = Some z →
    i ∈ (wp_workpackage_id <$> wq_items q) ∧ in_range_micro z;
  finalized_known i c :
    dict_get i (wq_finalized q) = Some c →
    i ∈ (wp_workpackage_id <$> wq_items q) ∧ (∀ z, c = Some z → in_range_micro z);
}.

Lemma cost_in_range_Some v z : cost_in_range v = Some z → in_range_micro z.
Proof.
  unfold cost_in_range, in_range_micro. destruct v as [| |z'| | | |]; try done.
  destruct (_ && _) eqn:H; [|done]. intros [= <-]. lia.
Qed.

Lemma actual_cost_Some v c z : actual_cost v = Some c → c = Some z → in_range_micro z.
Proof.
  intros H ->. destruct v; cbn in H; try done.
  apply cost_in_range_Some with (v := VInt z0). cbn. destruct (_ && _); naive_solver.
Qed.

Lemma dict_mem_true {V} k (d : list (string * V)) : dict_mem k d = true ↔ k ∈ dict_keys d.
Proof. unfold dict_mem. rewrite bool_decide_eq_true. by rewrite elem_of_dict_keys. Qed.

Lemma dict_mem_false {V} k (d : list (string * V)) : dict_mem k d = false ↔ k ∉ dict_keys d.
Proof. rewrite <- dict_mem_true. by destruct (dict_mem k d). Qed.

(** A call leaves the ledger as it is, reserves a fresh identifier, or takes a
    reservation away, recording its cost or not. *)
Lemma cost_run_cases q c :
  cost_run q c = q ∨
  (∃ i z, cost_run q c = with_costs q (dict_set i z (wq_reserved q)) (wq_finalized q) ∧
     i ∈ (wp_workpackage_id <$> wq_items q) ∧ in_range_micro z ∧
     i ∉ dict_keys (wq_reserved q) ∧ i ∉ dict_keys (wq_finalized q)) ∨
  (∃ i, i ∈ dict_keys (wq_reserved q) ∧
     (cost_run q c = with_costs q (dict_del i (wq_reserved q)) (wq_finalized q) ∨
      ∃ cost, cost_run q c = with_costs q (dict_del i (wq_reserved q))
                               (dict_set i cost (wq_finalized q)) ∧
        ∀ z, cost = Some z → in_range_micro z)).
Proof.
  destruct c as [i v|i v|i]; cbn [cost_run].
  - unfold reserve_cost. case_bool_decide as Hi; cbn [negb]; [|by left].
    destruct (cost_in_range v) as [z|] eqn:Hv; [|by left].
    destruct (dict_mem i (wq_reserved q)) eqn:Hr; [by left|].
    destruct (dict_mem i (wq_finalized q)) eqn:Hf; [by left|].
    right. left. exists i, z. apply dict_mem_false in Hr; apply dict_mem_false in Hf.
    split_and!; [done|done|by eapply cost_in_range_Some|done|done].
  - unfold finalize_cost. destruct (dict_mem i (wq_reserved q)) eqn:Hr; cbn [negb]; [|by left].
    destruct (actual_cost v) as [c|] eqn:Hv; [|by left].
    right. right. exists i. split; [by apply dict_mem_true|]. right. exists c.
    split; [done|]. intros z. by eapply actual_cost_Some.
  - unfold rollback_cost. destruct (dict_mem i (wq_reserved q)) eqn:Hr; cbn [negb]; [|by left].
    right. right. exists i. split; [by apply dict_mem_true|by left].
Qed.

Lemma dict_get_del_Some {V} i k (d : list (string * V)) v :
  NoDup (dict_keys d) → dict_get k (dict_del i d) = Some v → k ≠ i ∧ dict_get k d = Some v.
Proof. intros Hd. rewrite dict_get_del by done. case_bool_decide; naive_solver. Qed.

Lemma elem_of_dict_del {V} i k (d : list (string * V)) :
  NoDup (dict_keys d) → k ∈ dict_keys (dict_del i d) → k ≠ i ∧ k ∈ dict_keys d.
Proof.
  intros Hd. rewrite !elem_of_dict_keys. intros [v Hv].
  apply dict_get_del_Some in Hv as [? ->]; [by split|done].
Qed.

Lemma elem_of_dict_set {V} i k v (d : list (string * V)) :
  k ∈ dict_keys (dict_set i v d) ↔ k = i ∨ k ∈ dict_keys d.
Proof.
  rewrite !elem_of_dict_keys, dict_get_set. case_bool_decide; subst; naive_solver.
Qed.

Lemma cost_run_ok q c : ledger_ok q → ledger_ok (cost_run q c).
Proof.
  intros [Hr Hf Hdis Hrk Hfk].
  destruct (cost_run_cases q c) as [->|[(i & z & -> & Hi & Hz & Hnr & Hnf)|(i & Hi & Hcase)]];
    [by split|..].
  - split; cbn [wq_reserved wq_finalized wq_items with_costs]; [by apply NoDup_dict_set|done|..].
    + intros k. rewrite elem_of_dict_set. intros [->|?]; auto.
    + intros k z'. rewrite dict_get_set. case_bool_decide as Hk; [|auto].
      subst. by intros [= <-].
    + auto.
  - assert (i ∈ (wp_workpackage_id <$> wq_items q)) as Hitem.
    { apply elem_of_dict_keys in Hi as [z Hz]. by apply Hrk in Hz as [? _]. }
    destruct Hcase as [->|(cost & -> & Hcost)];
      split; cbn [wq_reserved wq_finalized wq_items with_costs]; auto using NoDup_dict_del, NoDup_dict_set.
    + intros k [_ Hk]%elem_of_dict_del; auto.
    + intros k z [_ Hk]%dict_get_del_Some; auto.
    + intros k [Hne Hk]%elem_of_dict_del; [|done]. rewrite elem_of_dict_set.
      intros [->|?]; [done|]. by apply (Hdis k).
    + intros k z [_ Hk]%dict_get_del_Some; auto.
    + intros k c'. rewrite dict_get_set. case_bool_decide; subst; [|auto].
      intros [= <-]. auto.
Qed.

Lemma cost_run_final q c i cost :
  ledger_ok q → dict_get i (wq_finalized q) = Some cost →
  dict_get i (wq_finalized (cost_run q c)) = Some cost.
Proof.
  intros [_ _ Hdis _ _] Hi.
  assert (i ∈ dict_keys (wq_finalized q)) as Hin by (apply elem_of_dict_keys; by eexists).
  destruct (cost_run_cases q c) as [->|[(j & z & -> & _)|(j & Hj & [->|(c' & -> & _)])]]; try done.
  cbn. rewrite dict_get_set_ne; [done|]. intros ->. by apply (Hdis i).
Qed.

(** Whatever reservations, finalizations and rollbacks a new queue is
    asked for, in any order and with any arguments, its ledger stays
    consistent: no workpackage is both reserved and finalized, only the
    queue's own workpackages appear, and every recorded cost is within
    [0 .. 10^18].  A finalized cost is final: no later call changes it or
    reserves that workpackage again. *)
Theorem cost_ledger_consistent items done deficit q cs more :
  WorkQueue_new items done deficit = Ok q →
  ledger_ok (cost_runs q cs) ∧
  ∀ i cost, dict_get i (wq_finalized (cost_runs q cs)) = Some cost →
    dict_get i (wq_finalized (cost_runs q (cs ++ more))) = Some cost ∧
    i ∉ dict_keys (wq_reserved (cost_runs q (cs ++ more))).
Proof.
  unfold WorkQueue_new. intros H. inv_result.
  assert (∀ q cs, ledger_ok q → ledger_ok (cost_runs q cs)) as Hruns.
  { intros q cs'. revert q. induction cs' as [|c cs' IH]; intros q Hq; [done|].
    by apply IH, cost_run_ok. }
  set (q := {| wq_items := items; wq_dependency_done := _; wq_queen_deficit := _;
               wq_reserved := []; wq_finalized := [] |}).
  assert (ledger_ok q) as Hq.
  { split; cbn; [constructor|constructor|by intros ? ?%elem_of_nil|done|done]. }
  split; [by apply Hruns|]. intros i cost Hi.
  assert (dict_get i (wq_finalized (cost_runs q (cs ++ more))) = Some cost) as Hfinal.
  { unfold cost_runs. rewrite foldl_app. fold (cost_runs q cs).
    pose proof (Hruns q cs Hq) as Hok. revert Hok Hi. generalize (cost_runs q cs).
    induction more as [|c more IH]; intros q' Hok Hi; [done|].
    apply IH; [by apply cost_run_ok|by apply cost_run_final]. }
  split; [done|]. intros Hres.
  apply (ledger_disjoint _ (Hruns q (cs ++ more) Hq) i Hres), elem_of_dict_keys.
  by rewrite Hfinal.
Qed.

(** ** A concrete queue *)

Definition queued_package (id priority : string) : WorkPackage :=
  {| wp_workpackage_id := id; wp_dispatch_id := "dispatch-1";
     wp_owner_teamlead_principal_id := "lead-1"; wp_objective := "Port"; wp_scope := [];
     wp_write_paths := []; wp_success_criteria := []; wp_test_requirements := [];
     wp_release_policy := "manual"; wp_depends_on_workpackage_ids := [];
     wp_resource_profile := [("dispatch_priority", VStr priority)]; wp_state := "queued";
     wp_ready_since_utc := None; wp_version := 3 |}.

Definition sample_queue : WorkQueue :=
  {| wq_items := [queued_package "wp-5" "DP2"; queued_package "wp-2" "DP0"; sample_package];
     wq_dependency_done := λ _, Ok false; wq_queen_deficit := λ _, Ok 0;
     wq_reserved := []; wq_finalized := [] |}.

Lemma select_next_least_witness :
  (∃ k, select_next sample_queue (msg_created_at_utc sample_message)
        = Ok {| qd_workpackage := queued_package "wp-2" "DP0"; qd_priority_key := k;
                qd_reason_codes := ["dispatch_priority"; "deadline"; "queen_fairness"; "age"] |}) ∧
  before sample_queue (msg_created_at_utc sample_message) (queued_package "wp-2" "DP0")
    (queued_package "wp-5" "DP2").
Proof.
  assert (∃ k, select_next sample_queue (msg_created_at_utc sample_message)
        = Ok {| qd_workpackage := queued_package "wp-2" "DP0"; qd_priority_key := k;
                qd_reason_codes := ["dispatch_priority"; "deadline"; "queen_fairness"; "age"] |})
    as [k Hk] by (eexists; vm_compute; reflexivity).
  split; [by exists k|].
  pose proof (select_next_least sample_queue (msg_created_at_utc sample_message)
                (msg_created_at_utc sample_message)) as H.
  rewrite Hk in H. destruct H as (_ & _ & _ & H & _).
  - apply (bool_decide_eq_true (NoDup _)). vm_compute. reflexivity.
  - reflexivity.
  - intros item. cbn. rewrite !elem_of_cons, elem_of_nil.
    intros [->|[->|[->|[]]]]; eexists; vm_compute; reflexivity.
  - apply H; [by left|reflexivity|done].
Defined.

Lemma cost_ledger_consistent_witness :
  dict_get "wp-5" (wq_finalized (cost_runs sample_queue
    [Reserve "wp-5" (VInt 5); Finalize "wp-5" (VInt 7)])) = Some (Some 7) ∧
  dict_get "wp-5" (wq_finalized (cost_runs sample_queue
    ([Reserve "wp-5" (VInt 5); Finalize "wp-5" (VInt 7)] ++ [Reserve "wp-5" (VInt 1)])))
  = Some (Some 7).
Proof.
  assert (dict_get "wp-5" (wq_finalized (cost_runs sample_queue
    [Reserve "wp-5" (VInt 5); Finalize "wp-5" (VInt 7)])) = Some (Some 7)) as H by reflexivity.
  split; [exact H|].
  apply (cost_ledger_consistent (wq_items sample_queue) None None sample_queue
           [Reserve "wp-5" (VInt 5); Finalize "wp-5" (VInt 7)] [Reserve "wp-5" (VInt 1)]);
    [reflexivity|exact H].
Defined.
