(* ===== verification/ResetAnchor.v ===== *)
(** * Passive reset anchors

    [src/src/the_hive/selection/reset_anchor.py]: the anchor record, the
    transition an observation causes, and the planner whose execution stays
    closed.  Fields have the types of their annotations; the system clock that
    [execute] falls back to is an argument. *)

From S2P Require Import Prelude PyTime HiveTypes.
#[local] Open Scope Z_scope.

Abbreviation mapping := (list (string * pyval)).

Definition _DIGEST_RE : string → bool := is_sha256_digest.
Definition _STATES : list string :=
  ["grace"; "due"; "reserved"; "attempted"; "pending_confirmation"; "anchored"; "cooldown"].

(** ** Safety status *)

Record ProactiveAnchorSafetyStatus := {
  allowlisted : bool;
  cooldown_clear : bool;
  attempts_available : bool;
  kill_switch_active : bool;
  execute_enabled : bool;
  hard_sandbox_verified : bool;
  token_budget_verified : bool;
  runtime_limit_verified : bool;
  no_tools_verified : bool;
  empty_workspace_verified : bool;
  no_repository_data_verified : bool;
  fixed_internal_task_verified : bool;
}.

Definition gate_ready (s : ProactiveAnchorSafetyStatus) : bool :=
  forallb id
    [ allowlisted s; cooldown_clear s; attempts_available s; negb (kill_switch_active s);
      execute_enabled s; hard_sandbox_verified s; token_budget_verified s;
      runtime_limit_verified s; no_tools_verified s; empty_workspace_verified s;
      no_repository_data_verified s; fixed_internal_task_verified s ].

Definition status_public (s : ProactiveAnchorSafetyStatus) : mapping :=
  [ ("allowlisted", VBool (allowlisted s));
    ("cooldown_clear", VBool (cooldown_clear s));
    ("attempts_available", VBool (attempts_available s));
    ("kill_switch_active", VBool (kill_switch_active s));
    ("execute_enabled", VBool (execute_enabled s));
    ("hard_sandbox_verified", VBool (hard_sandbox_verified s));
    ("token_budget_verified", VBool (token_budget_verified s));
    ("runtime_limit_verified", VBool (runtime_limit_verified s));
    ("no_tools_verified", VBool (no_tools_verified s));
    ("empty_workspace_verified", VBool (empty_workspace_verified s));
    ("no_repository_data_verified", VBool (no_repository_data_verified s));
    ("fixed_internal_task_verified", VBool (fixed_internal_task_verified s));
    ("gate_ready", VBool (gate_ready s));
    ("raw_output", VStr "not_returned") ].

(** ** Plans, observations and records *)

Record ProactiveAnchorPlan := {
  plan_anchor_key : string;
  plan_attempt_number : Z;
  plan_state : string;
  plan_reason_code : string;
}.

Definition ProactiveAnchorPlan_new (anchor_key : string) (attempt_number : Z) (state : string)
  : result ProactiveAnchorPlan :=
  _ ← require (_DIGEST_RE anchor_key && bool_decide (state = "due"))
        (AnchorError "invalid_proactive_anchor_plan");
  _ ← require ((1 <=? attempt_number) && (attempt_number <=? 3))
        (AnchorError "invalid_proactive_anchor_plan");
  Ok {| plan_anchor_key := anchor_key; plan_attempt_number := attempt_number;
        plan_state := state; plan_reason_code := "anchor_due" |}.

Definition anchor_plan_public (p : ProactiveAnchorPlan) : mapping :=
  [ ("anchor_key", VStr (plan_anchor_key p));
    ("attempt_number", VInt (plan_attempt_number p));
    ("state", VStr (plan_state p));
    ("reason_code", VStr (plan_reason_code p));
    ("raw_output", VStr "not_returned") ].

Record LimitObservation := {
  obs_semantics : string;
  obs_quantity_value : Z;
  obs_reset_kind : string;
  obs_confidence : string;
  obs_observed_at_utc : datetime;
}.

(** [validate_utc_datetime(value)], a [ValueError] being replaced. *)
Definition anchor_time (value : datetime) (field code : string) : result datetime :=
  reraise is_value_error (λ _, AnchorError code) (validate_utc_datetime value field).

Definition LimitObservation_check (o : LimitObservation) : result LimitObservation :=
  _ ← require (bool_decide (obs_semantics o ∈ ["remaining"; "consumed"])
               && (0 <=? obs_quantity_value o) && (obs_quantity_value o <=? 100))
        (AnchorError "invalid_anchor_observation");
  _ ← require (bool_decide (obs_reset_kind o ∈ ["rolling_unanchored"; "rolling_anchored"; "fixed"])
               && bool_decide (obs_confidence o ∈ ["verified"; "observed"; "unknown"]))
        (AnchorError "invalid_anchor_observation");
  _ ← anchor_time (obs_observed_at_utc o) "timestamp" "invalid_anchor_observation";
  Ok o.

Record AnchorRecord := {
  anc_anchor_key : string;
  anc_state : string;
  anc_attempt_count : Z;
  anc_admission_id : option string;
  anc_cooldown_until_utc : option datetime;
  anc_last_observed_at_utc : option datetime;
}.

Definition check_anchor_time (o : option datetime) : result () :=
  match o with
  | Some d => _ ← anchor_time d "timestamp" "invalid_anchor_timestamp"; Ok ()
  | None => Ok ()
  end.

Definition AnchorRecord_check (r : AnchorRecord) : result AnchorRecord :=
  _ ← require (_DIGEST_RE (anc_anchor_key r) && bool_decide (anc_state r ∈ _STATES))
        (AnchorError "invalid_anchor_record");
  _ ← require ((0 <=? anc_attempt_count r) && (anc_attempt_count r <=? 3))
        (AnchorError "invalid_anchor_attempts");
  _ ← require (negb (bool_decide (anc_admission_id r = Some "")))
        (AnchorError "invalid_anchor_admission");
  _ ← check_anchor_time (anc_cooldown_until_utc r);
  _ ← check_anchor_time (anc_last_observed_at_utc r);
  Ok r.

(** ** The state machine *)

(** [replace(record, state=..., last_observed_at_utc=...)]. *)
Definition replace_state (r : AnchorRecord) (state : string) (observed : datetime)
  : result AnchorRecord :=
  AnchorRecord_check
    {| anc_anchor_key := anc_anchor_key r; anc_state := state;
       anc_attempt_count := anc_attempt_count r; anc_admission_id := anc_admission_id r;
       anc_cooldown_until_utc := anc_cooldown_until_utc r;
       anc_last_observed_at_utc := Some observed |}.

(** A verified full rolling window that nothing has anchored. *)
Definition verified_full (o : LimitObservation) : bool :=
  bool_decide (obs_semantics o = "remaining") && (obs_quantity_value o =? 100)
  && bool_decide (obs_reset_kind o = "rolling_unanchored")
  && bool_decide (obs_confidence o = "verified").

Definition transition (r : AnchorRecord) (o : LimitObservation) (now : datetime)
  : result AnchorRecord :=
  now ← anchor_time now "anchor_time" "invalid_anchor_time";
  _ ← require (dt_leb (obs_observed_at_utc o) now) (AnchorError "future_anchor_observation");
  if verified_full o then
    if 3 <=? anc_attempt_count r then replace_state r "cooldown" (obs_observed_at_utc o)
    else replace_state r "due" (obs_observed_at_utc o)
  else replace_state r "grace" (obs_observed_at_utc o).

Definition cooldown_over (r : AnchorRecord) (now : datetime) : bool :=
  match anc_cooldown_until_utc r with None => true | Some until => dt_leb until now end.

Definition anchor_due (r : AnchorRecord) (now : datetime) : result bool :=
  match validate_utc_datetime now "anchor_time" with
  | Ok now => Ok (bool_decide (anc_state r = "due") && cooldown_over r now)
  | Err e => if is_value_error e then Ok false else Err e
  end.

(** ** The planner *)

Record ResetAnchorPlanner := {
  rp_record : AnchorRecord;
  rp_allowed : list string;
  rp_execute_enabled : bool;
  rp_kill_switch_active : bool;
  rp_hard_sandbox_verified : bool;
  rp_token_budget_verified : bool;
  rp_runtime_limit_verified : bool;
  rp_no_tools_verified : bool;
  rp_empty_workspace_verified : bool;
  rp_no_repository_data_verified : bool;
  rp_fixed_internal_task_verified : bool;
}.

(** The allowlist of a set: duplicates do not count. *)
Definition ResetAnchorPlanner_check (p : ResetAnchorPlanner) : result ResetAnchorPlanner :=
  _ ← require ((Z.of_nat (length (remove_dups (rp_allowed p))) <=? 256)
               && forallb _DIGEST_RE (rp_allowed p))
        (AnchorError "invalid_anchor_allowlist");
  Ok p.

Definition safety_status (p : ResetAnchorPlanner) (now : datetime)
  : result ProactiveAnchorSafetyStatus :=
  now ← anchor_time now "anchor_time" "invalid_anchor_time";
  Ok {| allowlisted := bool_decide (anc_anchor_key (rp_record p) ∈ rp_allowed p);
        cooldown_clear := cooldown_over (rp_record p) now;
        attempts_available := anc_attempt_count (rp_record p) <? 3;
        kill_switch_active := rp_kill_switch_active p;
        execute_enabled := rp_execute_enabled p;
        hard_sandbox_verified := rp_hard_sandbox_verified p;
        token_budget_verified := rp_token_budget_verified p;
        runtime_limit_verified := rp_runtime_limit_verified p;
        no_tools_verified := rp_no_tools_verified p;
        empty_workspace_verified := rp_empty_workspace_verified p;
        no_repository_data_verified := rp_no_repository_data_verified p;
        fixed_internal_task_verified := rp_fixed_internal_task_verified p |}.

Definition plan_due (p : ResetAnchorPlanner) (now : datetime)
  : result (option ProactiveAnchorPlan) :=
  status ← safety_status p now;
  due ← anchor_due (rp_record p) now;
  match due && allowlisted status && cooldown_clear status && attempts_available status with
  | false => Ok None
  | true =>
      plan ← ProactiveAnchorPlan_new (anc_anchor_key (rp_record p))
               (anc_attempt_count (rp_record p) + 1) (anc_state (rp_record p));
      Ok (Some plan)
  end.

Definition dry_run (p : ResetAnchorPlanner) (now : datetime) : result mapping :=
  status ← safety_status p now;
  plan ← plan_due p now;
  let reason_code :=
    match plan with
    | Some _ => "anchor_due"
    | None =>
        if negb (bool_decide (anc_state (rp_record p) = "due")) then "anchor_not_due"
        else if negb (cooldown_clear status) then "anchor_cooldown"
        else if negb (allowlisted status) then "anchor_allowlist_blocked"
        else "anchor_attempt_limit"
    end in
  Ok [ ("mode", VStr "dry_run");
       ("allowed", VBool (match plan with Some _ => true | None => false end));
       ("reason_code", VStr reason_code);
       ("plan", match plan with Some plan => VDict (anchor_plan_public plan) | None => VNone end);
       ("safety", VDict (status_public status));
       ("mutation_performed", VBool false);
       ("raw_output", VStr "not_returned") ].

(** [system_now] is the clock read when the record was never observed. *)
Definition execute (p : ResetAnchorPlanner) (plan : ProactiveAnchorPlan) (system_now : datetime)
  : result mapping :=
  _ ← require (bool_decide (plan_anchor_key plan = anc_anchor_key (rp_record p)))
        (AnchorError "invalid_proactive_anchor_plan");
  status ← safety_status p (default system_now (anc_last_observed_at_utc (rp_record p)));
  Ok [ ("allowed", VBool false);
       ("reason_code", VStr "selection_proactive_anchor_safety_gate");
       ("plan", VDict (anchor_plan_public plan));
       ("safety", VDict (status_public status));
       ("mutation_performed", VBool false);
       ("raw_output", VStr "not_returned") ].

(** ** Planning after an observation *)

Lemma anchor_time_Ok d f c d' :
  anchor_time d f c = Ok d' ↔
  dt_aware d = true ∧ 0 <= dt_utc d < MAX_LOCAL ∧ d' = Datetime (dt_utc d) (Some 0).
Proof. unfold anchor_time. by rewrite reraise_Ok, validate_utc_datetime_Ok. Qed.

Lemma cooldown_over_utc r d :
  cooldown_over r (Datetime (dt_utc d) (Some 0)) = cooldown_over r d.
Proof.
  unfold cooldown_over, dt_leb. destruct (anc_cooldown_until_utc r); [|done].
  unfold dt_utc at 2. cbn. by rewrite Z.sub_0_r.
Qed.

Lemma transition_record r o t r' :
  transition r o t = Ok r' →
  r' = {| anc_anchor_key := anc_anchor_key r;
          anc_state := if verified_full o
                       then if 3 <=? anc_attempt_count r then "cooldown" else "due"
                       else "grace";
          anc_attempt_count := anc_attempt_count r; anc_admission_id := anc_admission_id r;
          anc_cooldown_until_utc := anc_cooldown_until_utc r;
          anc_last_observed_at_utc := Some (obs_observed_at_utc o) |} ∧
  _DIGEST_RE (anc_anchor_key r) = true ∧ 0 <= anc_attempt_count r <= 3.
Proof.
  unfold transition, replace_state, AnchorRecord_check.
  intros (now & _ & ([] & _ & Hcheck)%bind_Ok)%bind_Ok.
  destruct (verified_full o); [destruct (3 <=? anc_attempt_count r)|];
    apply bind_Ok in Hcheck as ([] & Hk%require_Ok & (u & Hc%require_Ok & Hcheck)%bind_Ok);
    inv_result; cbn in Hk, Hc; apply andb_true_iff in Hk as [Hk _]; split_and!; (done || lia).
Qed.

Lemma plan_due_Some p now plan :
  plan_due p now = Ok (Some plan) ↔
  (dt_aware now = true ∧ 0 <= dt_utc now < MAX_LOCAL) ∧ anc_state (rp_record p) = "due" ∧
  cooldown_over (rp_record p) now = true ∧ anc_anchor_key (rp_record p) ∈ rp_allowed p ∧
  anc_attempt_count (rp_record p) < 3 ∧
  ProactiveAnchorPlan_new (anc_anchor_key (rp_record p)) (anc_attempt_count (rp_record p) + 1)
    "due" = Ok plan.
Proof.
  assert (dt_aware now = true ∧ 0 <= dt_utc now < MAX_LOCAL →
          anchor_due (rp_record p) now
          = Ok (bool_decide (anc_state (rp_record p) = "due") && cooldown_over (rp_record p) now))
    as Hdue.
  { intros [Ha Hr]. unfold anchor_due.
    rewrite (proj2 (validate_utc_datetime_Ok now "anchor_time" _) (conj Ha (conj Hr eq_refl))).
    by rewrite cooldown_over_utc. }
  unfold plan_due, safety_status. split.
  - intros (st & (now' & (Ha & Hr & ->)%anchor_time_Ok & [= <-])%bind_Ok & Hplan)%bind_Ok.
    rewrite (Hdue (conj Ha Hr)), bind_ret in Hplan.
    cbn [allowlisted cooldown_clear attempts_available] in Hplan.
    rewrite cooldown_over_utc in Hplan. destruct (_ && _ && _ && _ && _) eqn:Hb; [|done].
    rewrite !andb_true_iff, !bool_decide_eq_true, Z.ltb_lt in Hb.
    destruct Hb as [[[[Hs Hc] Hk] _] Hn].
    apply bind_Ok in Hplan as (q & Hq & [= <-]). rewrite Hs in Hq.
    split_and!; (done || lia).
  - intros (Hnow & Hs & Hc & Hk & Hn & Hp). pose proof Hnow as [Ha Hr].
    rewrite (proj2 (anchor_time_Ok _ _ _ _) (conj Ha (conj Hr eq_refl))), !bind_ret.
    rewrite (Hdue Hnow), bind_ret. cbn [allowlisted cooldown_clear attempts_available].
    rewrite cooldown_over_utc, Hc, !bool_decide_true, (proj2 (Z.ltb_lt _ _) Hn) by done.
    cbn [andb]. by rewrite Hs, Hp.
Qed.

(** After an observation has moved the record, the planner proposes an
    anchor at a time [now] exactly when that observation was a verified, full
    and unanchored rolling window, fewer than three attempts were made, the
    record's cooldown is over and its key is on the allowlist; the proposal
    is then the next attempt.  And executing a proposal is refused whatever
    the safety flags say. *)
Theorem anchor_planning_gated r o t r' p :
  transition r o t = Ok r' → rp_record p = r' →
  (∀ now plan,
     plan_due p now = Ok (Some plan) ↔
     (dt_aware now = true ∧ 0 <= dt_utc now < MAX_LOCAL) ∧ verified_full o = true ∧
     anc_attempt_count r < 3 ∧ cooldown_over r now = true ∧
     anc_anchor_key r ∈ rp_allowed p ∧
     plan = {| plan_anchor_key := anc_anchor_key r;
               plan_attempt_number := anc_attempt_count r + 1; plan_state := "due";
               plan_reason_code := "anchor_due" |}) ∧
  (∀ plan system_now resp, execute p plan system_now = Ok resp →
     dict_get "allowed" resp = Some (VBool false) ∧
     dict_get "mutation_performed" resp = Some (VBool false)).
Proof.
  intros (Hr & Hkey & Hcount)%transition_record Hp. split.
  - intros now plan. rewrite plan_due_Some, Hp, Hr.
    cbn [anc_state anc_anchor_key anc_attempt_count].
    change (cooldown_over _ now) with (cooldown_over r now).
    unfold ProactiveAnchorPlan_new. rewrite Hkey. cbn [andb bool_decide require].
    rewrite bool_decide_true by done. cbn [require]. rewrite bind_ret. split.
    + intros (Hnow & Hs & Hc & Hk & Hn & ([] & _ & [= <-])%bind_Ok).
      destruct (verified_full o); [|done]. split; [done|]. by split_and!.
    + intros (Hnow & -> & Hn & Hc & Hk & ->).
      rewrite (proj2 (Z.leb_gt 3 _)) by lia. split; [done|]. split_and!; [done..|].
      rewrite (proj2 (Z.leb_le 1 _)), (proj2 (Z.leb_le _ 3)) by lia. done.
  - intros plan now resp ([] & _ & (st & _ & [= <-])%bind_Ok)%bind_Ok. done.
Qed.

(** ** A concrete anchor *)

Definition sample_digest : string :=
  "sha256:0123456789abcdef0123456789abcdef0123456789abcdef0123456789abcdef".

Definition sample_anchor : AnchorRecord :=
  {| anc_anchor_key := sample_digest; anc_state := "grace"; anc_attempt_count := 1;
     anc_admission_id := None; anc_cooldown_until_utc := None;
     anc_last_observed_at_utc := None |}.

Definition sample_instant : datetime := Datetime 63871322400000000 (Some 0).

Definition sample_observation : LimitObservation :=
  {| obs_semantics := "remaining"; obs_quantity_value := 100;
     obs_reset_kind := "rolling_unanchored"; obs_confidence := "verified";
     obs_observed_at_utc := sample_instant |}.

Definition sample_due : AnchorRecord :=
  {| anc_anchor_key := sample_digest; anc_state := "due"; anc_attempt_count := 1;
     anc_admission_id := None; anc_cooldown_until_utc := None;
     anc_last_observed_at_utc := Some sample_instant |}.

Definition sample_planner : ResetAnchorPlanner :=
  {| rp_record := sample_due; rp_allowed := [sample_digest]; rp_execute_enabled := true;
     rp_kill_switch_active := false; rp_hard_sandbox_verified := true;
     rp_token_budget_verified := true; rp_runtime_limit_verified := true;
     rp_no_tools_verified := true; rp_empty_workspace_verified := true;
     rp_no_repository_data_verified := true; rp_fixed_internal_task_verified := true |}.

Lemma anchor_planning_gated_witness :
  transition sample_anchor sample_observation sample_instant = Ok sample_due ∧
  plan_due sample_planner sample_instant
  = Ok (Some {| plan_anchor_key := sample_digest; plan_attempt_number := 2; plan_state := "due";
                plan_reason_code := "anchor_due" |}).
Proof.
  assert (transition sample_anchor sample_observation sample_instant = Ok sample_due) as H
    by (vm_compute; reflexivity).
  split; [exact H|].
  apply (anchor_planning_gated _ _ _ _ sample_planner H eq_refl).
  split_and!; try reflexivity; try (vm_compute; congruence).
  by left.
Defined.
